(* ===== verification/_CoqProject ===== *)
-Q . S2P
Prelude.v
Machine.v
State.v
Spinlock.v
KString.v
Kalloc.v
Vm.v
PageTable.v
VmDemo.v
VmOps.v
Uvm.v
UserMem.v
Proc.v
Sched.v
Wakeup.v
Uart.v
Printf.v
PrintfProofs.v
Console.v
ConsoleProofs.v
Sleeplock.v
Virtio.v
VirtioProofs.v
Bio.v
LruProofs.v
BlockSpec.v
BioInv.v
BioProofs.v
BioBoot.v
BioSafe.v
Log.v
LogOps.v
LogCommit.v
LogTrans.v
LogRecover.v
LogSafe.v
Fs.v
PathProofs.v
FsData.v
FsTx.v
FsMap.v
FsWrite.v
FsInv.v
FsRead.v
FsSafe.v
Pipe.v
PipeProofs.v
File.v
FileProofs.v
InodeTab.v
NameProofs.v
Mkfs.v
MkfsProofs.v
ProcFs.v
Exec.v
SysArg.v
Sysfile.v
Syscall.v
SyscallProofs.v
Asm.v
AsmProofs.v
Initcode.v
Trap.v
User.v
Umalloc.v
UmallocProofs.v
UTree.v
Grind.v
UserTests.v
UserTests2.v
UserDriver.v
UserPrintf.v
UserProgs.v
Grep.v
ProcTree.v
Sh.v
ShParse.v
ShRound.v
ShRun.v
