(* ===== verification/Prelude.v ===== *)
(** * A verification of the xv6 kernel and its user programs

    The repository is the teaching operating system xv6 for RISC-V with two added
    system calls, trace and sysinfo: a kernel (kernel/), user programs (user/) and a
    builder of file system images (mkfs/). This library models the kernel function by
    function, and the user programs that people run, and proves what they do.

    ** How the code is modelled

    A C function is a Rocq function with its name. Kernel code is in the state and
    error monad [M] of this file: it returns a value and a state, calls [panic], or
    never returns ([Hang]). The state of the whole kernel is the record [kstate] of
    State, with the structures of the headers as records and their fields under the
    names of the source; the part that locks and interrupts use is [cstate]. Memory is a
    map from physical addresses to bytes, page tables and the free list are in it, and
    integers are [Z] with the conversions [u8], [u32], [s32], [u64], ... written where C
    does them. [wp m Q s] is total correctness: [m] returns from [s], with [Q].

    What is not in the repository is a parameter: the addresses the linker chooses (class
    [Layout] of Machine, with the bounds that kernel.ld gives), what the other threads do
    while a thread is switched out ([Others] of Proc), the device side of the disk
    ([VirtioDev] of Virtio; [DiskEnv] of VirtioProofs adds that the device serves
    requests and that its interrupt is taken), the system calls below a user program
    ([UserOS] and [UserLaws] of User). Each theorem with such a parameter has a witness
    that instantiates it.

    ** The parts, bottom up

    - Prelude: integers, bytes, the monad, [wp], lists. Machine: param.h, memlayout.h,
      riscv.h, memory. State: all structures.
    - Spinlock (spinlock.c): the functions on one hart, and all harts as a step relation
      [smp_step]: mutual exclusion. KString (string.c): copying and comparing.
    - Kalloc (kalloc.c): the allocator refines a stack of pages; kinit, kfree's checks,
      count_freemmem.
    - Vm (vm.c): definitions. PageTable gives the invariant of page tables in memory and
      the translation [pte_of]; VmOps and Uvm say what mappages, uvmunmap,
      uvmalloc, uvmcopy and uvmfree do to translations and pages; UserMem that copyout,
      copyin and copyinstr, page by page, equal byte-wise access; VmDemo has a concrete
      machine for the witnesses.
    - Proc (proc.c): processes, sleep, wakeup, the scheduler. Sched: wakeup and kill do
      exactly what they say. Wakeup: sleep and wakeup interleaved, no wakeup is lost.
      ProcFs: userinit, fork, exit.
    - Uart, Printf, Console (uart.c, printf.c, console.c): definitions; PrintfProofs:
      numbers are printed right as long as they fit the buffer; ConsoleProofs: the
      interrupt handler is a line editor.
    - Sleeplock, Virtio, Bio (sleeplock.c, virtio_disk.c, bio.c): definitions, with
      equations for the calls in Sleeplock and VirtioProofs. LruProofs, BioInv, BioProofs,
      BioBoot: the buffer cache implements the interface [BlockIO] with the laws
      [BlockLaws] of BlockSpec, under which its clients are verified. BioSafe: the
      theorems about driver and cache.
    - Log (log.c): LogOps, LogCommit, LogTrans, LogRecover against [BlockLaws];
      LogSafe puts log, cache and driver together: operations are atomic across crashes,
      recovery can be repeated.
    - Fs (fs.c): all of the file system; PathProofs: path names; FsData: inodes and bitmaps
      in blocks. FsTx, FsMap, FsWrite, FsRead: balloc, bmap, writei and readi
      inside a transaction. FsInv: the abstract file system that a disk holds ([fs_ok]: a
      map from inodes to byte strings, no block in two files). FsSafe: writes to files are
      atomic across crashes.
    - Pipe, File, Exec, SysArg, Sysfile, Syscall, Trap: pipe.c, file.c,
      exec.c, syscall.c, sysproc.c, sysfile.c, trap.c and plic.c, start.c and main.c.
      PipeProofs: a pipe is a queue of bytes. FileProofs: filewrite and fileread. InodeTab:
      the table of inodes in memory and its reference counts; NameProofs: namex resolves
      paths in the abstract file system. SyscallProofs: the system calls read and write
      from the trap frame to the disk, and their errors.
    - Mkfs (mkfs/mkfs.c): the image builder; MkfsProofs: its image is the file system that
      the kernel expects.
    - Asm: swtch.S, trampoline.S, kernelvec.S, entry.S and the stubs of usys.pl as
      instructions of a machine with registers, page tables and memory. AsmProofs: threads
      and user programs get their registers back. Initcode: initcode.S, its bytes in
      proc.c, and that they execute /init.
    - Umalloc (umalloc.c): malloc, morecore and free on the headers in memory;
      UmallocProofs: blocks do not overlap, what is freed is free.
    - UTree: programs as trees of system calls, and the descriptors of their runs. Grind:
      grind.c, forktest.c, stressfs.c and sysinfotest.c; the random numbers of grind, and
      that it leaks no descriptor.
    - UserTests, UserTests2: usertests.c, all tests and their driver, as trees of system
      calls. UserDriver: traces of such trees when the system calls answer anything; usertests
      exits with 0 only if all tests passed, countfree counts the pages its child gets, and
      a test that prints a complaint fails.
    - User (ulib.c, user/printf.c), UserPrintf: what vprintf prints. UserProgs: cat, wc,
      echo, kill, ln, mkdir, rm, ls. Grep: the matcher decides regular expressions, grep
      prints the lines that match. ProcTree: init, trace, zombie. Sh, ShParse, ShRound,
      ShRun: the shell's parser terminates, its words are right, commands can be written
      and parsed back, and running a command starts its programs with the right
      descriptors.

    ** Loops and fuel

    A loop whose end is in the data is a structural recursion. Others have a fuel whose
    bound comes from the code: the number of bytes, pages, blocks or table entries that
    the loop can take at most, plus one; running out of it is [Hang] (or [PFuel] in the
    shell's parser), and the theorems say that the functions return. Loops that wait for
    another thread or a device end when [Others] lets them; [sched_left] bounds the
    number of times. A program that reads its input to the end has the fuel as an
    argument, and the theorems hold for every fuel larger than the input. The endless loops
    of grind and usertests are cut after a number of rounds, where a process is taken to be
    killed, and the theorems hold for every number. The
    hypotheses that bound the free blocks ([has_free]) and the waits ([sched_left]) of a file
    operation are linear in the number of blocks it touches.

    ** What is not modelled

    The inline assembly beyond the registers the C code depends on; the timing of
    interrupts inside kernel code on one hart, except where a step relation interleaves
    threads (Spinlock, Wakeup); messages of mkfs; the script
    xargstest.sh; the linker scripts, whose symbols are the parameters of [Layout]; headers
    with prototypes only; the build and grading scripts. *)

From Stdlib Require Export ZArith Lia String Ascii.
From stdpp Require Export base numbers list gmap strings fin_maps sets.

Global Open Scope Z_scope.
Global Set Default Goal Selector "!".

(** ** Machine-width integers

    [uN z] is the value of [z] converted to an unsigned N-bit C type, [sN z] to a
    signed one (two's complement, as gcc does it). *)

Definition u8 (z : Z) : Z := z mod 2 ^ 8.
Definition u16 (z : Z) : Z := z mod 2 ^ 16.
Definition u32 (z : Z) : Z := z mod 2 ^ 32.
Definition u64 (z : Z) : Z := z mod 2 ^ 64.
Definition s16 (z : Z) : Z := (z + 2 ^ 15) mod 2 ^ 16 - 2 ^ 15.
Definition s32 (z : Z) : Z := (z + 2 ^ 31) mod 2 ^ 32 - 2 ^ 31.
Definition s64 (z : Z) : Z := (z + 2 ^ 63) mod 2 ^ 64 - 2 ^ 63.

(** A C truth value. *)
Definition c_bool (z : Z) : bool := negb (z =? 0).
Definition of_bool (b : bool) : Z := if b then 1 else 0.

(** ** The monad of kernel code

    Code runs on a state [S]. It returns a value, calls [panic], or never
    returns ([Hang]: it spins or sleeps and nothing ends the wait). *)

Inductive outcome (S A : Type) : Type :=
  | Ret (a : A) (s : S)
  | Panic (msg : string)
  | Hang.
Arguments Ret {S A} a s.
Arguments Panic {S A} msg.
Arguments Hang {S A}.

Definition M (S A : Type) : Type := S → outcome S A.

Global Instance M_ret S : MRet (M S) := λ A a s, Ret a s.
Global Instance M_bind S : MBind (M S) := λ A B f m s,
  match m s with
  | Ret a s' => f a s'
  | Panic msg => Panic msg
  | Hang => Hang
  end.

Definition panic {S A} (msg : string) : M S A := λ _, Panic msg.
Definition hang {S A} : M S A := λ _, Hang.
Definition gets {S A} (f : S → A) : M S A := λ s, Ret (f s) s.
Definition modify {S} (f : S → S) : M S unit := λ s, Ret tt (f s).
Definition when {S} (b : bool) (m : M S unit) : M S unit := if b then m else mret tt.

(** [for(x in l) body(x)] *)
Fixpoint mfor {S A} (l : list A) (body : A → M S unit) : M S unit :=
  match l with
  | [] => mret tt
  | x :: l' => body x;; mfor l' body
  end.

(** A loop over [l] that a [return] in its body leaves early: the body gives
    [Some r] to return [r], [None] to go on; [k] is the code after the loop. *)
Fixpoint mfor_return {S A R} (l : list A) (body : A → M S (option R)) (k : M S R) : M S R :=
  match l with
  | [] => k
  | x :: l' =>
      o ← body x;
      match o with
      | Some r => mret r
      | None => mfor_return l' body k
      end
  end.

(** ** Total correctness: [wp m Q s] says that [m] returns from [s], with a value
    and a state that satisfy [Q]. *)

Definition wp {S A} (m : M S A) (Q : A → S → Prop) (s : S) : Prop :=
  match m s with
  | Ret a s' => Q a s'
  | _ => False
  end.

(** Partial correctness: [m] does not panic, and if it returns, [Q] holds. For code
    that may rightly wait for ever. *)
Definition wlp {S A} (m : M S A) (Q : A → S → Prop) (s : S) : Prop :=
  match m s with
  | Ret a s' => Q a s'
  | Panic _ => False
  | Hang => True
  end.

(** ** Byte strings, little endian *)

Fixpoint le_bytes (n : nat) (v : Z) : list Z :=
  match n with
  | O => []
  | S n' => (v mod 256) :: le_bytes n' (v / 256)
  end.

Fixpoint le_val (bs : list Z) : Z :=
  match bs with
  | [] => 0
  | b :: bs' => b + 256 * le_val bs'
  end.

(** The bytes of an ASCII string. *)
Fixpoint bytes_of_string (s : string) : list Z :=
  match s with
  | EmptyString => []
  | String c s' => Z.of_nat (nat_of_ascii c) :: bytes_of_string s'
  end.

Definition chr (c : ascii) : Z := Z.of_nat (nat_of_ascii c).

(** The integers [a, a+1, ..., a+n-1]. *)
Fixpoint zrange (a : Z) (n : nat) : list Z :=
  match n with
  | O => []
  | S n' => a :: zrange (a + 1) n'
  end.

(** Arrays of a C struct type, with index and default. *)
Definition nthZ {A} (d : A) (l : list A) (i : Z) : A :=
  if decide (0 ≤ i) then nth (Z.to_nat i) l d else d.

Definition setZ {A} (l : list A) (i : Z) (x : A) : list A :=
  if decide (0 ≤ i) then <[Z.to_nat i := x]> l else l.

(** The buffer [old] after [new] has been stored at its start. *)
Definition overlay {A} (old new : list A) : list A := new ++ drop (length new) old.

(** * Lemmas *)

Create HintDb kern.

Ltac zify_divmod := Z.div_mod_to_equations.
Ltac dlia := zify; Z.div_mod_to_equations; lia.

Section monad.
Context {S : Type}.

Lemma bind_ret {A B} (m : M S A) (f : A → M S B) s a s' :
  m s = Ret a s' → (m ≫= f) s = f a s'.
Proof. intros H. unfold mbind, M_bind. by rewrite H. Qed.

Lemma bind_panic {A B} (m : M S A) (f : A → M S B) s msg :
  m s = Panic msg → (m ≫= f) s = Panic msg.
Proof. intros H. unfold mbind, M_bind. by rewrite H. Qed.

Lemma bind_inv {A B} (m : M S A) (f : A → M S B) s b s'' :
  (m ≫= f) s = Ret b s'' → ∃ a s', m s = Ret a s' ∧ f a s' = Ret b s''.
Proof. unfold mbind, M_bind. destruct (m s) eqn:E; naive_solver. Qed.

Lemma wp_bind {A B} (m : M S A) (f : A → M S B) Q s :
  wp m (λ a s', wp (f a) Q s') s → wp (m ≫= f) Q s.
Proof. unfold wp, mbind, M_bind. by destruct (m s). Qed.

Lemma wp_ret {A} (a : A) Q s : Q a s → @wp S A (mret a) Q s.
Proof. done. Qed.

Lemma wp_gets {A} (f : S → A) Q s : Q (f s) s → wp (gets f) Q s.
Proof. done. Qed.

Lemma wp_modify (f : S → S) Q s : Q tt (f s) → wp (modify f) Q s.
Proof. done. Qed.

Lemma wp_mono {A} (m : M S A) (P Q : A → S → Prop) s :
  wp m P s → (∀ a s', P a s' → Q a s') → wp m Q s.
Proof. unfold wp. destruct (m s); naive_solver. Qed.

Lemma wp_eq {A} (m : M S A) (Q : A → S → Prop) s a s' :
  m s = Ret a s' → Q a s' → wp m Q s.
Proof. unfold wp. by intros ->. Qed.

Lemma wp_elim {A} (m : M S A) (Q : A → S → Prop) s :
  wp m Q s → ∃ a s', m s = Ret a s' ∧ Q a s'.
Proof. unfold wp. destruct (m s); naive_solver. Qed.

Lemma wp_when (b : bool) (m : M S unit) Q s :
  (b = true → wp m Q s) → (b = false → Q tt s) → wp (when b m) Q s.
Proof. destruct b; intros H1 H2; [by apply H1|apply wp_ret; by apply H2]. Qed.

(** The loop rule: an invariant indexed by the elements already treated. *)
Lemma wp_mfor {A} (l : list A) (body : A → M S unit) (I : list A → S → Prop) s :
  I [] s →
  (∀ done x rest s', l = done ++ x :: rest → I done s' →
     wp (body x) (λ _ s'', I (done ++ [x]) s'') s') →
  wp (mfor l body) (λ _ s', I l s') s.
Proof.
  intros H0 Hstep.
  cut (∀ todo done s', l = done ++ todo → I done s' →
         wp (mfor todo body) (λ _ s'', I l s'') s').
  { intros H. by apply (H l []). }
  induction todo as [|x todo IH]; intros done s' Hl HI; simpl.
  - apply wp_ret. by rewrite Hl, app_nil_r.
  - apply wp_bind. eapply wp_mono.
    { by eapply Hstep. }
    intros ? s'' HI'; cbn in HI'. apply (IH (done ++ [x])); [|done].
    by rewrite <- app_assoc.
Qed.
End monad.

Lemma elem_of_rev {A} (x : A) l : x ∈ rev l ↔ x ∈ l.
Proof. by rewrite !list_elem_of_In, <- in_rev. Qed.

Lemma c_bool_of_bool b : c_bool (of_bool b) = b.
Proof. by destruct b. Qed.

(** One step of symbolic execution: the goal is a [wp]. *)
Ltac wp_step :=
  first
    [ apply wp_bind
    | apply wp_ret
    | apply wp_gets
    | apply wp_modify ].
Ltac wp_steps := repeat (wp_step; cbn beta).

Lemma zrange_length a n : length (zrange a n) = n.
Proof. revert a. induction n as [|n IH]; intros; simpl; [done|]. by rewrite IH. Qed.

Lemma zrange_lookup a n i x :
  zrange a n !! i = Some x ↔ (i < n)%nat ∧ x = a + Z.of_nat i.
Proof.
  revert a i. induction n as [|n IH]; intros a i; simpl.
  - split; [done|lia].
  - destruct i as [|i]; simpl.
    + split; [intros [= <-]; lia|intros [? ->]; f_equal; lia].
    + rewrite IH. split; intros [? ->]; lia.
Qed.

Lemma elem_of_zrange a n x : x ∈ zrange a n ↔ a ≤ x < a + Z.of_nat n.
Proof.
  revert a. induction n as [|n IH]; intros a; cbn [zrange].
  - split; [by intros ?%not_elem_of_nil|lia].
  - rewrite elem_of_cons, IH. lia.
Qed.

Lemma zrange_app a n1 n2 :
  zrange a (n1 + n2) = zrange a n1 ++ zrange (a + Z.of_nat n1) n2.
Proof.
  revert a. induction n1 as [|n1 IH]; intros a; simpl.
  - f_equal; lia.
  - f_equal. rewrite IH. do 2 f_equal. lia.
Qed.

Lemma zrange_S_r a n : zrange a (S n) = zrange a n ++ [a + Z.of_nat n].
Proof. replace (S n) with (n + 1)%nat by lia. by rewrite zrange_app. Qed.

Lemma NoDup_zrange a n : NoDup (zrange a n).
Proof.
  revert a. induction n as [|n IH]; intros a; simpl; constructor; [|done].
  rewrite elem_of_zrange. lia.
Qed.

(** The loop [for(i = 0; i < n; i++)], with an invariant indexed by [i]. *)
Lemma wp_mfor_zrange {S} (n : nat) (body : Z → M S unit) (I : Z → S → Prop) s :
  I 0 s →
  (∀ i s', 0 ≤ i < Z.of_nat n → I i s' → wp (body i) (λ _ s'', I (i + 1) s'') s') →
  wp (mfor (zrange 0 n) body) (λ _ s', I (Z.of_nat n) s') s.
Proof.
  intros H0 Hb.
  cut (∀ k i s', 0 ≤ i → i + Z.of_nat k = Z.of_nat n → I i s' →
         wp (mfor (zrange i k) body) (λ _ s'', I (Z.of_nat n) s'') s').
  { intros H. apply H; [lia|lia|done]. }
  induction k as [|k IH]; intros i s' Hi Hk HI; cbn [zrange mfor].
  - apply wp_ret. replace (Z.of_nat n) with i by lia. done.
  - apply wp_bind. eapply wp_mono; [apply Hb; [lia|done]|].
    intros ? s'' HI'; cbn beta in HI'. apply IH; [lia|lia|done].
Qed.

Section bytes.
Lemma le_bytes_length n v : length (le_bytes n v) = n.
Proof. revert v. induction n as [|n IH]; intros; simpl; [done|]. by rewrite IH. Qed.

Lemma le_bytes_range n v : Forall (λ b, 0 ≤ b < 256) (le_bytes n v).
Proof.
  revert v. induction n as [|n IH]; intros v; simpl; constructor; [|done].
  apply Z.mod_pos_bound. lia.
Qed.

Lemma le_val_range bs :
  Forall (λ b, 0 ≤ b < 256) bs → 0 ≤ le_val bs < 256 ^ Z.of_nat (length bs).
Proof.
  induction 1 as [|b bs Hb Hbs IH].
  - simpl. lia.
  - cbn [le_val length]. rewrite Nat2Z.inj_succ, Z.pow_succ_r; lia.
Qed.

Lemma le_val_bytes n v : le_val (le_bytes n v) = v mod 256 ^ Z.of_nat n.
Proof.
  revert v. induction n as [|n IH]; intros v.
  - simpl. by rewrite Z.mod_1_r.
  - cbn [le_bytes le_val]. rewrite IH, Nat2Z.inj_succ, Z.pow_succ_r by lia.
    rewrite Z.rem_mul_r; lia.
Qed.

Lemma le_bytes_val bs :
  Forall (λ b, 0 ≤ b < 256) bs → le_bytes (length bs) (le_val bs) = bs.
Proof.
  induction 1 as [|b bs Hb Hbs IH]; [done|]. cbn [le_val length le_bytes].
  replace (b + 256 * le_val bs) with (b + le_val bs * 256) by lia.
  rewrite Z.mod_add, Z.div_add, (Z.mod_small b), (Z.div_small b) by lia.
  by rewrite Z.add_0_l, IH.
Qed.
End bytes.

Section words.
Lemma u64_range z : 0 ≤ u64 z < 2 ^ 64.
Proof. apply Z.mod_pos_bound. lia. Qed.
Lemma u32_range z : 0 ≤ u32 z < 2 ^ 32.
Proof. apply Z.mod_pos_bound. lia. Qed.
Lemma u8_range z : 0 ≤ u8 z < 2 ^ 8.
Proof. apply Z.mod_pos_bound. lia. Qed.
Lemma u64_small z : 0 ≤ z < 2 ^ 64 → u64 z = z.
Proof. apply Z.mod_small. Qed.
Lemma u32_small z : 0 ≤ z < 2 ^ 32 → u32 z = z.
Proof. apply Z.mod_small. Qed.
Lemma u8_small z : 0 ≤ z < 2 ^ 8 → u8 z = z.
Proof. apply Z.mod_small. Qed.
Lemma s32_small z : - 2 ^ 31 ≤ z < 2 ^ 31 → s32 z = z.
Proof. intros. unfold s32. rewrite Z.mod_small; lia. Qed.
Lemma s64_small z : - 2 ^ 63 ≤ z < 2 ^ 63 → s64 z = z.
Proof. intros. unfold s64. rewrite Z.mod_small; lia. Qed.
Lemma s16_small z : - 2 ^ 15 ≤ z < 2 ^ 15 → s16 z = z.
Proof. intros. unfold s16. rewrite Z.mod_small; lia. Qed.
End words.

Section arrays.
Context {A : Type} (d : A).

Lemma nthZ_lookup (l : list A) i x :
  0 ≤ i → l !! Z.to_nat i = Some x → nthZ d l i = x.
Proof.
  intros Hi Hx. unfold nthZ. rewrite decide_True by done.
  by apply nth_lookup_Some.
Qed.

Lemma setZ_length (l : list A) i x : length (setZ l i x) = length l.
Proof. unfold setZ. case_decide; [apply length_insert|done]. Qed.

Lemma nthZ_setZ_eq (l : list A) i x :
  0 ≤ i < Z.of_nat (length l) → nthZ d (setZ l i x) i = x.
Proof.
  intros Hi. unfold nthZ, setZ. rewrite !decide_True by lia.
  apply nth_lookup_Some, list_lookup_insert_eq. lia.
Qed.

Lemma nthZ_setZ_ne (l : list A) i j x :
  i ≠ j → nthZ d (setZ l i x) j = nthZ d l j.
Proof.
  intros Hne. unfold nthZ, setZ. repeat case_decide; try done.
  rewrite !nth_lookup, list_lookup_insert_ne by lia. done.
Qed.
End arrays.
