(* ===== verification/Machine.v ===== *)
(** * The machine: constants of the kernel's headers and physical memory

    [kernel/param.h], [kernel/memlayout.h], the macros of [kernel/riscv.h], and
    byte-addressed physical memory with the little-endian loads and stores that C
    pointer accesses compile to. The addresses that the linker chooses
    ([kernel/kernel.ld]) are the fields of the class [Layout]. *)

From S2P Require Import Prelude.

(** ** kernel/param.h (built with LAB=util) *)

Definition NPROC : Z := 64.
Definition NCPU : Z := 8.
Definition NOFILE : Z := 16.
Definition NFILE : Z := 100.
Definition NINODE : Z := 50.
Definition NDEV : Z := 10.
Definition ROOTDEV : Z := 1.
Definition MAXARG : Z := 32.
Definition MAXOPBLOCKS : Z := 10.
Definition LOGSIZE : Z := MAXOPBLOCKS * 3.
Definition NBUF : Z := MAXOPBLOCKS * 3.
Definition FSSIZE : Z := 2000.
Definition MAXPATH : Z := 128.
Definition USERSTACK : Z := 2.

(** ** kernel/riscv.h *)

Definition SSTATUS_SPP : Z := Z.shiftl 1 8.
Definition SSTATUS_SPIE : Z := Z.shiftl 1 5.
Definition SSTATUS_SIE : Z := Z.shiftl 1 1.

Definition PGSIZE : Z := 4096.
Definition PGSHIFT : Z := 12.
Definition PGROUNDUP (sz : Z) : Z := Z.land (u64 (sz + PGSIZE - 1)) (u64 (Z.lnot (PGSIZE - 1))).
Definition PGROUNDDOWN (a : Z) : Z := Z.land (u64 a) (u64 (Z.lnot (PGSIZE - 1))).

Definition PTE_V : Z := Z.shiftl 1 0.
Definition PTE_R : Z := Z.shiftl 1 1.
Definition PTE_W : Z := Z.shiftl 1 2.
Definition PTE_X : Z := Z.shiftl 1 3.
Definition PTE_U : Z := Z.shiftl 1 4.

Definition PA2PTE (pa : Z) : Z := u64 (Z.shiftl (Z.shiftr (u64 pa) 12) 10).
Definition PTE2PA (pte : Z) : Z := u64 (Z.shiftl (Z.shiftr pte 10) 12).
Definition PTE_FLAGS (pte : Z) : Z := Z.land pte 0x3FF.

Definition PXMASK : Z := 0x1FF.
Definition PXSHIFT (level : Z) : Z := PGSHIFT + 9 * level.
Definition PX (level va : Z) : Z := Z.land (Z.shiftr (u64 va) (PXSHIFT level)) PXMASK.

Definition MAXVA : Z := Z.shiftl 1 (9 + 9 + 9 + 12 - 1).

Definition SATP_SV39 : Z := Z.shiftl 8 60.
Definition MAKE_SATP (pagetable : Z) : Z := Z.lor SATP_SV39 (Z.shiftr pagetable 12).

(** ** kernel/memlayout.h *)

Definition UART0 : Z := 0x10000000.
Definition UART0_IRQ : Z := 10.
Definition VIRTIO0 : Z := 0x10001000.
Definition VIRTIO0_IRQ : Z := 1.
Definition PLIC : Z := 0x0c000000.
Definition PLIC_SENABLE (hart : Z) : Z := PLIC + 0x2080 + hart * 0x100.
Definition PLIC_SPRIORITY (hart : Z) : Z := PLIC + 0x201000 + hart * 0x2000.
Definition PLIC_SCLAIM (hart : Z) : Z := PLIC + 0x201004 + hart * 0x2000.
Definition KERNBASE : Z := 0x80000000.
Definition PHYSTOP : Z := KERNBASE + 128 * 1024 * 1024.
Definition TRAMPOLINE : Z := MAXVA - PGSIZE.
Definition KSTACK (p : Z) : Z := TRAMPOLINE - (p + 1) * 2 * PGSIZE.
Definition TRAPFRAME : Z := TRAMPOLINE - PGSIZE.

(** ** kernel/kernel.ld: the addresses the linker assigns *)

Class Layout := {
  trampoline : Z;   (** start of the trampoline page *)
  etext : Z;        (** end of kernel code *)
  kend : Z;         (** [end]: first address after the kernel *)
  uservec : Z;      (** in trampoline.S *)
  userret : Z;      (** in trampoline.S *)
  kernelvec : Z;    (** in kernelvec.S *)
  usertrap_addr : Z;
  forkret_addr : Z;
  kernel_main : Z;
  trampoline_aligned : trampoline mod PGSIZE = 0;
  trampoline_text : KERNBASE ≤ trampoline ∧ etext = trampoline + PGSIZE;
  kend_after : etext ≤ kend;
  kend_ram : kend ≤ PHYSTOP - PGSIZE;
}.

(** A layout: a kernel that leaves 16 pages of RAM to the allocator. *)
Program Definition layout_ex : Layout :=
  {| trampoline := 0x80007000; etext := 0x80008000; kend := 0x87ff0000;
     uservec := 0x80007000; userret := 0x8000709c; kernelvec := 0x80005000;
     usertrap_addr := 0x80002000; forkret_addr := 0x80001800; kernel_main := 0x80000e00 |}.
Next Obligation. done. Qed.
Next Obligation. split; [done|done]. Qed.
Next Obligation. done. Qed.
Next Obligation. done. Qed.

(** ** Physical memory

    A byte that was never written reads as 0 (the ELF loader clears .bss; the
    allocator's pages are filled before they are used). *)

Abbreviation mem := (gmap Z Z).

Definition rd (m : mem) (a : Z) : Z := default 0 (m !! a).
Definition wr (m : mem) (a v : Z) : mem := <[a := u8 v]> m.

Fixpoint blit (m : mem) (a : Z) (bs : list Z) : mem :=
  match bs with
  | [] => m
  | b :: bs' => blit (wr m a b) (a + 1) bs'
  end.

Definition rdn (m : mem) (a : Z) (n : nat) : list Z := rd m <$> zrange a n.

Definition load32 (m : mem) (a : Z) : Z := le_val (rdn m a 4).
Definition load64 (m : mem) (a : Z) : Z := le_val (rdn m a 8).
Definition store32 (m : mem) (a v : Z) : mem := blit m a (le_bytes 4 v).
Definition store64 (m : mem) (a v : Z) : mem := blit m a (le_bytes 8 v).

(** Memory whose bytes are bytes. *)
Definition mem_ok (m : mem) : Prop := ∀ a, 0 ≤ rd m a < 256.

(** * Lemmas *)

Ltac unfold_consts :=
  unfold NPROC, NCPU, NOFILE, NFILE, NINODE, NDEV, LOGSIZE, NBUF, MAXOPBLOCKS, FSSIZE, MAXPATH,
    USERSTACK, TRAPFRAME, KSTACK, TRAMPOLINE, PHYSTOP, KERNBASE, PGSIZE, PGSHIFT in *;
  change MAXVA with 0x4000000000 in *;
  change PTE_V with 1 in *; change PTE_R with 2 in *; change PTE_W with 4 in *;
  change PTE_X with 8 in *; change PTE_U with 16 in *;
  change SSTATUS_SPP with 256 in *; change SSTATUS_SPIE with 32 in *;
  change SSTATUS_SIE with 2 in *.
Ltac klia := unfold_consts; lia.

Section rounding.
Lemma page_mask_land x :
  0 ≤ x < 2 ^ 64 → Z.land x (u64 (Z.lnot (PGSIZE - 1))) = x - x mod PGSIZE.
Proof.
  intros Hx. change (u64 (Z.lnot (PGSIZE - 1))) with (Z.ones 52 * 2 ^ 12).
  transitivity (Z.ldiff x (Z.ones 12)).
  - apply Z.bits_inj'. intros k Hk. rewrite Z.land_spec, Z.ldiff_spec.
    rewrite Z.mul_pow2_bits by lia. rewrite (Z.testbit_ones_nonneg 12) by lia.
    destruct (Z.ltb_spec k 12).
    + rewrite (Z.testbit_neg_r _ (k - 12)) by lia. by rewrite !andb_false_r.
    + rewrite Z.testbit_ones_nonneg by lia. destruct (Z.ltb_spec (k - 12) 52).
      * done.
      * rewrite (Z.bits_above_log2 x k); [done|lia|].
        destruct (decide (x = 0)) as [->|]; [simpl; lia|].
        apply Z.log2_lt_pow2; [lia|]. eapply Z.lt_le_trans; [apply Hx|].
        apply Z.pow_le_mono_r; lia.
  - rewrite Z.ldiff_ones_r, Z.shiftr_div_pow2, Z.shiftl_mul_pow2 by lia.
    change (2 ^ 12) with PGSIZE. pose proof (Z.div_mod x PGSIZE). klia.
Qed.

Lemma PGROUNDDOWN_eq a : 0 ≤ a < 2 ^ 64 → PGROUNDDOWN a = a - a mod PGSIZE.
Proof. intros. unfold PGROUNDDOWN. rewrite u64_small by done. by apply page_mask_land. Qed.

Lemma PGROUNDUP_eq a :
  0 ≤ a ≤ 2 ^ 64 - PGSIZE → PGROUNDUP a = (a + PGSIZE - 1) / PGSIZE * PGSIZE.
Proof.
  intros. unfold PGROUNDUP. rewrite u64_small by klia.
  rewrite page_mask_land by klia. unfold PGSIZE in *. dlia.
Qed.

Lemma PGROUNDUP_bounds a :
  0 ≤ a ≤ 2 ^ 64 - PGSIZE →
  PGROUNDUP a mod PGSIZE = 0 ∧ a ≤ PGROUNDUP a < a + PGSIZE.
Proof. intros. rewrite PGROUNDUP_eq by done. unfold PGSIZE in *. dlia. Qed.

Lemma PGROUNDUP_aligned a : 0 ≤ a ≤ 2 ^ 64 - PGSIZE → a mod PGSIZE = 0 → PGROUNDUP a = a.
Proof. intros. rewrite PGROUNDUP_eq by done. unfold PGSIZE in *. dlia. Qed.
End rounding.

Section memory.
Implicit Types m : mem.

Lemma rd_wr m a v x : rd (wr m a v) x = if decide (a = x) then u8 v else rd m x.
Proof. unfold rd, wr. rewrite lookup_insert. by case_decide. Qed.

Lemma rd_wr_eq m a v : rd (wr m a v) a = u8 v.
Proof. rewrite rd_wr. by rewrite decide_True. Qed.

Lemma rd_wr_ne m a v x : a ≠ x → rd (wr m a v) x = rd m x.
Proof. intros. rewrite rd_wr. by rewrite decide_False. Qed.

Lemma wr_ok m a v : mem_ok m → mem_ok (wr m a v).
Proof. intros H x. rewrite rd_wr. case_decide; [apply u8_range|done]. Qed.

Lemma blit_ok m a bs : mem_ok m → mem_ok (blit m a bs).
Proof. revert m a. induction bs; intros m a' H; simpl; auto using wr_ok. Qed.

Lemma rd_blit_out m a bs x :
  x < a ∨ a + Z.of_nat (length bs) ≤ x → rd (blit m a bs) x = rd m x.
Proof.
  revert m a. induction bs as [|b bs IH]; intros m a H; [done|].
  cbn [length blit] in *. rewrite IH by lia. apply rd_wr_ne. lia.
Qed.

Lemma rd_blit_in m a bs i b :
  bs !! i = Some b → rd (blit m a bs) (a + Z.of_nat i) = u8 b.
Proof.
  revert m a i. induction bs as [|b' bs IH]; intros m a i Hi; [done|].
  destruct i as [|i]; cbn [blit].
  - injection Hi as ->. rewrite rd_blit_out by lia. rewrite Z.add_0_r. apply rd_wr_eq.
  - replace (a + Z.of_nat (S i)) with ((a + 1) + Z.of_nat i) by lia. by apply IH.
Qed.

Lemma rdn_length m a n : length (rdn m a n) = n.
Proof. unfold rdn. by rewrite length_fmap, zrange_length. Qed.

Lemma rdn_lookup m a n i : (i < n)%nat → rdn m a n !! i = Some (rd m (a + Z.of_nat i)).
Proof.
  intros. unfold rdn. rewrite list_lookup_fmap.
  by rewrite (proj2 (zrange_lookup a n i (a + Z.of_nat i))).
Qed.

Lemma rdn_ext m m' a n :
  (∀ x, a ≤ x < a + Z.of_nat n → rd m x = rd m' x) → rdn m a n = rdn m' a n.
Proof.
  intros H. apply list_fmap_ext. intros i x [? ->]%zrange_lookup. apply H. lia.
Qed.

Lemma rdn_app m a n1 n2 : rdn m a (n1 + n2) = rdn m a n1 ++ rdn m (a + Z.of_nat n1) n2.
Proof. unfold rdn. by rewrite zrange_app, fmap_app. Qed.

Lemma rdn_range m a n : mem_ok m → Forall (λ b, 0 ≤ b < 256) (rdn m a n).
Proof. intros H. apply Forall_fmap, Forall_true. intros x. apply H. Qed.

Lemma rdn_blit_same m a bs :
  Forall (λ b, 0 ≤ b < 256) bs → rdn (blit m a bs) a (length bs) = bs.
Proof.
  intros H. apply list_eq. intros i. destruct (bs !! i) as [b|] eqn:E.
  - rewrite rdn_lookup by (by eapply lookup_lt_Some). f_equal.
    rewrite (rd_blit_in _ _ _ _ _ E). apply u8_small.
    by eapply Forall_lookup_1 in H.
  - apply lookup_ge_None. rewrite rdn_length. by apply lookup_ge_None.
Qed.

Lemma rdn_blit_out m a bs x n :
  x + Z.of_nat n ≤ a ∨ a + Z.of_nat (length bs) ≤ x → rdn (blit m a bs) x n = rdn m x n.
Proof. intros H. apply rdn_ext. intros y Hy. apply rd_blit_out. lia. Qed.

Lemma load64_range m a : mem_ok m → 0 ≤ load64 m a < 2 ^ 64.
Proof.
  intros H. pose proof (le_val_range _ (rdn_range m a 8 H)) as R.
  rewrite rdn_length in R. exact R.
Qed.

Lemma load64_ext m m' a :
  (∀ x, a ≤ x < a + 8 → rd m x = rd m' x) → load64 m a = load64 m' a.
Proof. intros H. unfold load64. by rewrite (rdn_ext m m') by (intros; apply H; lia). Qed.

Lemma load64_empty a : load64 ∅ a = 0.
Proof. done. Qed.

Lemma store64_ok m a v : mem_ok m → mem_ok (store64 m a v).
Proof. apply blit_ok. Qed.

Lemma rd_store64_out m a v x : x < a ∨ a + 8 ≤ x → rd (store64 m a v) x = rd m x.
Proof. intros H. apply rd_blit_out. rewrite le_bytes_length. lia. Qed.

Lemma load64_store64_eq m a v : load64 (store64 m a v) a = u64 v.
Proof.
  unfold load64, store64.
  pose proof (rdn_blit_same m a (le_bytes 8 v) (le_bytes_range 8 v)) as H.
  rewrite le_bytes_length in H. rewrite H. by rewrite le_val_bytes.
Qed.

Lemma load64_store64_ne m a v x :
  x + 8 ≤ a ∨ a + 8 ≤ x → load64 (store64 m a v) x = load64 m x.
Proof. intros H. apply load64_ext. intros y Hy. apply rd_store64_out. lia. Qed.
End memory.

Global Opaque PGROUNDUP PGROUNDDOWN.
Global Opaque load64 store64 load32 store32.
