(* ===== verification/State.v ===== *)
(** * The state of the kernel

    The C structures of the kernel as records, under the names of their fields,
    and the record [kstate] of all the kernel's variables. A pointer into a table
    of the kernel is the index of the element ([option nat], [None] for 0); a
    pointer to a page that [kalloc] gave is its physical address. The
    [struct spinlock]s embedded in the structures are in the map [locks], under
    a name that tells which one it is ([lockid]); the [struct sleeplock]s in
    [slocks]. *)

From S2P Require Import Prelude Machine.

(** ** Names of locks and of sleep channels

    [acquire(&x)] and [sleep(chan, lk)] take the address of a kernel object: one
    constructor for each object that is used so. *)

Inductive sleepid := SL_buf (i : nat) | SL_inode (i : nat).

Inductive lockid :=
  | L_kmem | L_pid | L_wait | L_proc (i : nat) | L_pr | L_cons | L_uart_tx | L_ticks
  | L_ftable | L_itable | L_bcache | L_log | L_vdisk | L_pipe (pi : Z) | L_sleep (l : sleepid).

Inductive chan :=
  | C_proc (i : nat)         (** a [struct proc *] *)
  | C_log                    (** [&log] *)
  | C_nread (pi : Z)         (** [&pi->nread] *)
  | C_nwrite (pi : Z)        (** [&pi->nwrite] *)
  | C_sleeplock (l : sleepid)
  | C_ticks                  (** [&ticks] *)
  | C_cons_r                 (** [&cons.r] *)
  | C_uart_tx_r              (** [&uart_tx_r] *)
  | C_disk_free              (** [&disk.free[0]] *)
  | C_buf (i : nat).         (** a [struct buf *] *)

Global Instance sleepid_eq_dec : EqDecision sleepid.
Proof. solve_decision. Defined.
Global Instance lockid_eq_dec : EqDecision lockid.
Proof. solve_decision. Defined.
Global Instance chan_eq_dec : EqDecision chan.
Proof. solve_decision. Defined.

Definition sleepid_code (l : sleepid) : nat + nat :=
  match l with SL_buf i => inl i | SL_inode i => inr i end.
Definition sleepid_decode (c : nat + nat) : sleepid :=
  match c with inl i => SL_buf i | inr i => SL_inode i end.
Global Program Instance sleepid_countable : Countable sleepid :=
  inj_countable' sleepid_code sleepid_decode _.
Next Obligation. by intros []. Qed.

Definition lockid_code (l : lockid) : Z * Z + (nat + nat) :=
  match l with
  | L_kmem => inl (0, 0) | L_pid => inl (1, 0) | L_wait => inl (2, 0)
  | L_proc i => inl (3, Z.of_nat i) | L_pr => inl (4, 0) | L_cons => inl (5, 0)
  | L_uart_tx => inl (6, 0) | L_ticks => inl (7, 0) | L_ftable => inl (8, 0)
  | L_itable => inl (9, 0) | L_bcache => inl (10, 0) | L_log => inl (11, 0)
  | L_vdisk => inl (12, 0) | L_pipe pi => inl (13, pi) | L_sleep l => inr (sleepid_code l)
  end.
Definition lockid_decode (c : Z * Z + (nat + nat)) : lockid :=
  match c with
  | inl (0, _) => L_kmem | inl (1, _) => L_pid | inl (2, _) => L_wait
  | inl (3, i) => L_proc (Z.to_nat i) | inl (4, _) => L_pr | inl (5, _) => L_cons
  | inl (6, _) => L_uart_tx | inl (7, _) => L_ticks | inl (8, _) => L_ftable
  | inl (9, _) => L_itable | inl (10, _) => L_bcache | inl (11, _) => L_log
  | inl (12, _) => L_vdisk | inl (_, pi) => L_pipe pi | inr l => L_sleep (sleepid_decode l)
  end.
Global Program Instance lockid_countable : Countable lockid :=
  inj_countable' lockid_code lockid_decode _.
Next Obligation.
  intros [| | |i| | | | | | | | | |pi|[i|i]]; simpl; try done. by rewrite Nat2Z.id.
Qed.

(** ** Structures *)

(** [struct spinlock] (kernel/spinlock.h); [lk_cpu] is the number of the cpu. *)
Record spinlock := Mk_spinlock { lk_locked : Z; lk_name : string; lk_cpu : option Z }.

(** [struct sleeplock] (kernel/sleeplock.h) without its spinlock [lk]. *)
Record sleeplock := Mk_sleeplock { sl_locked : Z; sl_name : string; sl_pid : Z }.

(** [struct context] (kernel/proc.h); [ctx_s] holds s0 to s11. *)
Record context := Mk_context { ctx_ra : Z; ctx_sp : Z; ctx_s : list Z }.

(** [struct cpu] (kernel/proc.h) *)
Record cpu := Mk_cpu {
  cpu_proc : option nat; (** the process running on this cpu, or null *)
  cpu_context : context; (** [swtch] here to enter [scheduler] *)
  noff : Z; (** depth of [push_off] nesting *)
  intena : Z; (** were interrupts enabled before [push_off]? *)
}.
(** [enum procstate] (kernel/proc.h) *)
Inductive procstate := UNUSED | USED | SLEEPING | RUNNABLE | RUNNING | ZOMBIE.
Global Instance procstate_eq_dec : EqDecision procstate.
Proof. solve_decision. Defined.

(** [struct proc] (kernel/proc.h); its lock is [L_proc i] *)
Record proc := Mk_proc {
  p_state : procstate;
  p_chan : option chan;
  p_killed : Z;
  p_xstate : Z;
  p_pid : Z;
  p_mask : Z;
  p_parent : option nat;
  p_kstack : Z;
  p_sz : Z;
  p_pagetable : Z;
  p_trapframe : Z;
  p_context : context;
  p_ofile : list (option nat);
  p_cwd : option nat;
  p_name : list Z;
}.
(** Offsets in [struct trapframe] (kernel/proc.h). A trapframe is a page of
    physical memory; its address is in [p_trapframe]. *)
Definition TF_kernel_satp : Z := 0.
Definition TF_kernel_sp : Z := 8.
Definition TF_kernel_trap : Z := 16.
Definition TF_epc : Z := 24.
Definition TF_kernel_hartid : Z := 32.
Definition TF_sp : Z := 48.
Definition TF_a0 : Z := 112.
Definition TF_a1 : Z := 120.
Definition TF_a2 : Z := 128.
Definition TF_a3 : Z := 136.
Definition TF_a4 : Z := 144.
Definition TF_a5 : Z := 152.
Definition TF_a7 : Z := 168.
Definition sizeof_trapframe : nat := 288.

(** [struct file] and [struct inode] (kernel/file.h) *)
Inductive file_type := FD_NONE | FD_PIPE | FD_INODE | FD_DEVICE.
Global Instance file_type_eq_dec : EqDecision file_type.
Proof. solve_decision. Defined.

(** [struct file] (kernel/file.h) *)
Record file := Mk_file {
  f_type : file_type;
  f_ref : Z;
  f_readable : Z;
  f_writable : Z;
  f_pipe : Z;
  f_ip : option nat;
  f_off : Z;
  f_major : Z;
}.
(** [struct inode] (kernel/file.h); its sleeplock is [SL_inode i] *)
Record inode := Mk_inode {
  i_dev : Z;
  i_inum : Z;
  i_ref : Z;
  i_valid : Z;
  i_type : Z;
  i_major : Z;
  i_minor : Z;
  i_nlink : Z;
  i_size : Z;
  i_addrs : list Z;
}.
(** The functions that [devsw] points to (kernel/file.h). *)
Inductive devfn := FN_consoleread | FN_consolewrite.
Record devsw_entry := Mk_devsw { d_read : option devfn; d_write : option devfn }.

(** [struct pipe] (kernel/pipe.c); its lock is [L_pipe pi] *)
Record pipe := Mk_pipe {
  pi_data : list Z;
  pi_nread : Z;
  pi_nwrite : Z;
  pi_readopen : Z;
  pi_writeopen : Z;
}.
(** [struct buf] (kernel/buf.h); its sleeplock is [SL_buf i]. [b_prev] and
    [b_next] are indices; index NBUF is [bcache.head] *)
Record buf := Mk_buf {
  b_valid : Z;
  b_disk : Z;
  b_dev : Z;
  b_blockno : Z;
  b_refcnt : Z;
  b_prev : nat;
  b_next : nat;
  b_data : list Z;
}.
(** [bcache] (kernel/bio.c) without its lock: the array [buf] and the links of [head]. *)
Record bcache_state := Mk_bcache { bufs : list buf; head_prev : nat; head_next : nat }.

(** [struct log] with its [struct logheader] (kernel/log.c) *)
Record log_state := Mk_log_state {
  l_start : Z;
  l_size : Z;
  l_outstanding : Z;
  l_committing : Z;
  l_dev : Z;
  lh_n : Z;
  lh_block : list Z;
}.
(** [struct superblock] (kernel/fs.h) *)
Record superblock := Mk_superblock {
  sb_magic : Z; sb_size : Z; sb_nblocks : Z; sb_ninodes : Z;
  sb_nlog : Z; sb_logstart : Z; sb_inodestart : Z; sb_bmapstart : Z
}.

(** What a descriptor's [addr] points to: nothing, [disk.ops[i]], the data of a
    buffer, or [disk.info[i].status]. *)
Inductive daddr := DA_null | DA_ops (i : Z) | DA_data (b : nat) | DA_status (i : Z).

(** [struct virtq_desc] and [struct virtio_blk_req] (kernel/virtio.h) *)
Record virtq_desc := Mk_virtq_desc { vd_addr : daddr; vd_len : Z; vd_flags : Z; vd_next : Z }.
Record virtio_blk_req := Mk_blk_req { rq_type : Z; rq_reserved : Z; rq_sector : Z }.


(** [struct disk] (kernel/virtio_disk.c), the device's registers, and what the disk itself holds *)
Record vdisk_state := Mk_vdisk_state {
  vd_desc : list virtq_desc;
  vd_avail_idx : Z;
  vd_avail_ring : list Z;
  vd_used_dev_idx : Z; (** [disk.used->idx] *)
  vd_used_ring : list Z; (** [disk.used->ring[i].id] *)
  vd_free : list Z;
  vd_used_idx : Z;
  vd_info_b : list (option nat);
  vd_info_status : list Z;
  vd_ops : list virtio_blk_req;
  vd_regs : gmap Z Z; (** the device's registers, by offset *)
  vd_blocks : gmap Z (list Z); (** the blocks of the disk *)
  vd_hist : list (Z * list Z); (** the block writes the disk has done, oldest first *)
}.

(** [cons] (kernel/console.c) *)
Record cons_state := Mk_cons_state {
  c_buf : list Z;
  c_r : Z;
  c_w : Z;
  c_e : Z;
}.
(** The transmit buffer of kernel/uart.c and the device's registers *)
Record uart_state := Mk_uart_state {
  tx_buf : list Z;
  tx_w : Z;
  tx_r : Z;
  tx_out : list Z; (** the bytes written to THR, oldest first *)
  tx_busy : list bool; (** the next values of the LSR's busy condition *)
  rx_in : list Z; (** input bytes not yet read from RHR *)
  u_regs : gmap Z Z; (** the control registers, by number *)
}.
(** Control and status registers of the hart that runs the code *)
Record csrs := Mk_csrs {
  satp : Z;
  stvec : Z;
  sepc : Z;
  scause : Z;
  stval : Z;
  sie : Z;
  stimecmp : Z;
  mtime : Z; (** the [time] register *)
  mstatus : Z;
  mepc : Z;
  medeleg : Z;
  mideleg : Z;
  mie : Z;
  menvcfg : Z;
  mcounteren : Z;
  pmpaddr0 : Z;
  pmpcfg0 : Z;
  mhartid : Z;
  plic : gmap Z Z; (** the PLIC's registers, by address *)
}.
(** What spinlock.c works on *)
Record cstate := Mk_cstate {
  locks : gmap lockid spinlock;
  cpus : list cpu; (** [struct cpu cpus[NCPU]] *)
  tp : Z; (** this hart's tp register: its number *)
  sstatus : Z; (** this hart's sstatus register *)
}.
(** All the variables of the kernel *)
Record kstate := Mk_kstate {
  cs : cstate; (** spinlocks, cpus and this hart's interrupt state *)
  csr : csrs; (** the other control registers of this hart *)
  pmem : mem; (** physical memory *)
  freelist : Z; (** [kmem.freelist] *)
  kernel_pagetable : Z;
  proc_tab : list proc; (** [struct proc proc[NPROC]] *)
  initproc : option nat;
  nextpid : Z;
  forkret_first : Z; (** [static int first] of [forkret] *)
  slocks : gmap sleepid sleeplock;
  ticks : Z;
  ftable : list file; (** [ftable.file[NFILE]] *)
  devsw : list devsw_entry;
  pipes : gmap Z pipe; (** the live [struct pipe]s by address *)
  itable : list inode; (** [itable.inode[NINODE]] *)
  bcache : bcache_state;
  klog : log_state;
  sb : superblock;
  vdisk : vdisk_state; (** the disk driver's state and the disk *)
  kcons : cons_state; (** [cons] *)
  uart : uart_state;
  pr_locking : Z; (** [pr.locking] *)
  panicked : Z;
  started : Z; (** [started] of main.c *)
  sched_left : nat; (** how many more times this thread will be switched back in, in the run considered *)
}.
(** ** Field updates *)

Definition set_locks (v : gmap lockid spinlock) (s : cstate) : cstate :=
  {| locks := v; cpus := cpus s; tp := tp s; sstatus := sstatus s |}.
Definition set_cpus (v : list cpu) (s : cstate) : cstate :=
  {| locks := locks s; cpus := v; tp := tp s; sstatus := sstatus s |}.
Definition set_tp (v : Z) (s : cstate) : cstate :=
  {| locks := locks s; cpus := cpus s; tp := v; sstatus := sstatus s |}.
Definition set_sstatus (v : Z) (s : cstate) : cstate :=
  {| locks := locks s; cpus := cpus s; tp := tp s; sstatus := v |}.
Definition set_cpu_proc (v : option nat) (s : cpu) : cpu :=
  {| cpu_proc := v; cpu_context := cpu_context s; noff := noff s; intena := intena s |}.
Definition set_cpu_context (v : context) (s : cpu) : cpu :=
  {| cpu_proc := cpu_proc s; cpu_context := v; noff := noff s; intena := intena s |}.
Definition set_noff (v : Z) (s : cpu) : cpu :=
  {| cpu_proc := cpu_proc s; cpu_context := cpu_context s; noff := v; intena := intena s |}.
Definition set_intena (v : Z) (s : cpu) : cpu :=
  {| cpu_proc := cpu_proc s; cpu_context := cpu_context s; noff := noff s; intena := v |}.
Definition set_p_state (v : procstate) (s : proc) : proc :=
  {| p_state := v; p_chan := p_chan s; p_killed := p_killed s; p_xstate := p_xstate s; p_pid :=
     p_pid s; p_mask := p_mask s; p_parent := p_parent s; p_kstack := p_kstack s; p_sz := p_sz
     s; p_pagetable := p_pagetable s; p_trapframe := p_trapframe s; p_context := p_context s;
     p_ofile := p_ofile s; p_cwd := p_cwd s; p_name := p_name s |}.
Definition set_p_chan (v : option chan) (s : proc) : proc :=
  {| p_state := p_state s; p_chan := v; p_killed := p_killed s; p_xstate := p_xstate s; p_pid :=
     p_pid s; p_mask := p_mask s; p_parent := p_parent s; p_kstack := p_kstack s; p_sz := p_sz
     s; p_pagetable := p_pagetable s; p_trapframe := p_trapframe s; p_context := p_context s;
     p_ofile := p_ofile s; p_cwd := p_cwd s; p_name := p_name s |}.
Definition set_p_killed (v : Z) (s : proc) : proc :=
  {| p_state := p_state s; p_chan := p_chan s; p_killed := v; p_xstate := p_xstate s; p_pid :=
     p_pid s; p_mask := p_mask s; p_parent := p_parent s; p_kstack := p_kstack s; p_sz := p_sz
     s; p_pagetable := p_pagetable s; p_trapframe := p_trapframe s; p_context := p_context s;
     p_ofile := p_ofile s; p_cwd := p_cwd s; p_name := p_name s |}.
Definition set_p_xstate (v : Z) (s : proc) : proc :=
  {| p_state := p_state s; p_chan := p_chan s; p_killed := p_killed s; p_xstate := v; p_pid :=
     p_pid s; p_mask := p_mask s; p_parent := p_parent s; p_kstack := p_kstack s; p_sz := p_sz
     s; p_pagetable := p_pagetable s; p_trapframe := p_trapframe s; p_context := p_context s;
     p_ofile := p_ofile s; p_cwd := p_cwd s; p_name := p_name s |}.
Definition set_p_pid (v : Z) (s : proc) : proc :=
  {| p_state := p_state s; p_chan := p_chan s; p_killed := p_killed s; p_xstate := p_xstate s;
     p_pid := v; p_mask := p_mask s; p_parent := p_parent s; p_kstack := p_kstack s; p_sz :=
     p_sz s; p_pagetable := p_pagetable s; p_trapframe := p_trapframe s; p_context := p_context
     s; p_ofile := p_ofile s; p_cwd := p_cwd s; p_name := p_name s |}.
Definition set_p_mask (v : Z) (s : proc) : proc :=
  {| p_state := p_state s; p_chan := p_chan s; p_killed := p_killed s; p_xstate := p_xstate s;
     p_pid := p_pid s; p_mask := v; p_parent := p_parent s; p_kstack := p_kstack s; p_sz := p_sz
     s; p_pagetable := p_pagetable s; p_trapframe := p_trapframe s; p_context := p_context s;
     p_ofile := p_ofile s; p_cwd := p_cwd s; p_name := p_name s |}.
Definition set_p_parent (v : option nat) (s : proc) : proc :=
  {| p_state := p_state s; p_chan := p_chan s; p_killed := p_killed s; p_xstate := p_xstate s;
     p_pid := p_pid s; p_mask := p_mask s; p_parent := v; p_kstack := p_kstack s; p_sz := p_sz
     s; p_pagetable := p_pagetable s; p_trapframe := p_trapframe s; p_context := p_context s;
     p_ofile := p_ofile s; p_cwd := p_cwd s; p_name := p_name s |}.
Definition set_p_kstack (v : Z) (s : proc) : proc :=
  {| p_state := p_state s; p_chan := p_chan s; p_killed := p_killed s; p_xstate := p_xstate s;
     p_pid := p_pid s; p_mask := p_mask s; p_parent := p_parent s; p_kstack := v; p_sz := p_sz
     s; p_pagetable := p_pagetable s; p_trapframe := p_trapframe s; p_context := p_context s;
     p_ofile := p_ofile s; p_cwd := p_cwd s; p_name := p_name s |}.
Definition set_p_sz (v : Z) (s : proc) : proc :=
  {| p_state := p_state s; p_chan := p_chan s; p_killed := p_killed s; p_xstate := p_xstate s;
     p_pid := p_pid s; p_mask := p_mask s; p_parent := p_parent s; p_kstack := p_kstack s; p_sz
     := v; p_pagetable := p_pagetable s; p_trapframe := p_trapframe s; p_context := p_context s;
     p_ofile := p_ofile s; p_cwd := p_cwd s; p_name := p_name s |}.
Definition set_p_pagetable (v : Z) (s : proc) : proc :=
  {| p_state := p_state s; p_chan := p_chan s; p_killed := p_killed s; p_xstate := p_xstate s;
     p_pid := p_pid s; p_mask := p_mask s; p_parent := p_parent s; p_kstack := p_kstack s; p_sz
     := p_sz s; p_pagetable := v; p_trapframe := p_trapframe s; p_context := p_context s;
     p_ofile := p_ofile s; p_cwd := p_cwd s; p_name := p_name s |}.
Definition set_p_trapframe (v : Z) (s : proc) : proc :=
  {| p_state := p_state s; p_chan := p_chan s; p_killed := p_killed s; p_xstate := p_xstate s;
     p_pid := p_pid s; p_mask := p_mask s; p_parent := p_parent s; p_kstack := p_kstack s; p_sz
     := p_sz s; p_pagetable := p_pagetable s; p_trapframe := v; p_context := p_context s;
     p_ofile := p_ofile s; p_cwd := p_cwd s; p_name := p_name s |}.
Definition set_p_context (v : context) (s : proc) : proc :=
  {| p_state := p_state s; p_chan := p_chan s; p_killed := p_killed s; p_xstate := p_xstate s;
     p_pid := p_pid s; p_mask := p_mask s; p_parent := p_parent s; p_kstack := p_kstack s; p_sz
     := p_sz s; p_pagetable := p_pagetable s; p_trapframe := p_trapframe s; p_context := v;
     p_ofile := p_ofile s; p_cwd := p_cwd s; p_name := p_name s |}.
Definition set_p_ofile (v : list (option nat)) (s : proc) : proc :=
  {| p_state := p_state s; p_chan := p_chan s; p_killed := p_killed s; p_xstate := p_xstate s;
     p_pid := p_pid s; p_mask := p_mask s; p_parent := p_parent s; p_kstack := p_kstack s; p_sz
     := p_sz s; p_pagetable := p_pagetable s; p_trapframe := p_trapframe s; p_context :=
     p_context s; p_ofile := v; p_cwd := p_cwd s; p_name := p_name s |}.
Definition set_p_cwd (v : option nat) (s : proc) : proc :=
  {| p_state := p_state s; p_chan := p_chan s; p_killed := p_killed s; p_xstate := p_xstate s;
     p_pid := p_pid s; p_mask := p_mask s; p_parent := p_parent s; p_kstack := p_kstack s; p_sz
     := p_sz s; p_pagetable := p_pagetable s; p_trapframe := p_trapframe s; p_context :=
     p_context s; p_ofile := p_ofile s; p_cwd := v; p_name := p_name s |}.
Definition set_p_name (v : list Z) (s : proc) : proc :=
  {| p_state := p_state s; p_chan := p_chan s; p_killed := p_killed s; p_xstate := p_xstate s;
     p_pid := p_pid s; p_mask := p_mask s; p_parent := p_parent s; p_kstack := p_kstack s; p_sz
     := p_sz s; p_pagetable := p_pagetable s; p_trapframe := p_trapframe s; p_context :=
     p_context s; p_ofile := p_ofile s; p_cwd := p_cwd s; p_name := v |}.
Definition set_f_type (v : file_type) (s : file) : file :=
  {| f_type := v; f_ref := f_ref s; f_readable := f_readable s; f_writable := f_writable s;
     f_pipe := f_pipe s; f_ip := f_ip s; f_off := f_off s; f_major := f_major s |}.
Definition set_f_ref (v : Z) (s : file) : file :=
  {| f_type := f_type s; f_ref := v; f_readable := f_readable s; f_writable := f_writable s;
     f_pipe := f_pipe s; f_ip := f_ip s; f_off := f_off s; f_major := f_major s |}.
Definition set_f_readable (v : Z) (s : file) : file :=
  {| f_type := f_type s; f_ref := f_ref s; f_readable := v; f_writable := f_writable s; f_pipe
     := f_pipe s; f_ip := f_ip s; f_off := f_off s; f_major := f_major s |}.
Definition set_f_writable (v : Z) (s : file) : file :=
  {| f_type := f_type s; f_ref := f_ref s; f_readable := f_readable s; f_writable := v; f_pipe
     := f_pipe s; f_ip := f_ip s; f_off := f_off s; f_major := f_major s |}.
Definition set_f_pipe (v : Z) (s : file) : file :=
  {| f_type := f_type s; f_ref := f_ref s; f_readable := f_readable s; f_writable := f_writable
     s; f_pipe := v; f_ip := f_ip s; f_off := f_off s; f_major := f_major s |}.
Definition set_f_ip (v : option nat) (s : file) : file :=
  {| f_type := f_type s; f_ref := f_ref s; f_readable := f_readable s; f_writable := f_writable
     s; f_pipe := f_pipe s; f_ip := v; f_off := f_off s; f_major := f_major s |}.
Definition set_f_off (v : Z) (s : file) : file :=
  {| f_type := f_type s; f_ref := f_ref s; f_readable := f_readable s; f_writable := f_writable
     s; f_pipe := f_pipe s; f_ip := f_ip s; f_off := v; f_major := f_major s |}.
Definition set_f_major (v : Z) (s : file) : file :=
  {| f_type := f_type s; f_ref := f_ref s; f_readable := f_readable s; f_writable := f_writable
     s; f_pipe := f_pipe s; f_ip := f_ip s; f_off := f_off s; f_major := v |}.
Definition set_i_dev (v : Z) (s : inode) : inode :=
  {| i_dev := v; i_inum := i_inum s; i_ref := i_ref s; i_valid := i_valid s; i_type := i_type s;
     i_major := i_major s; i_minor := i_minor s; i_nlink := i_nlink s; i_size := i_size s;
     i_addrs := i_addrs s |}.
Definition set_i_inum (v : Z) (s : inode) : inode :=
  {| i_dev := i_dev s; i_inum := v; i_ref := i_ref s; i_valid := i_valid s; i_type := i_type s;
     i_major := i_major s; i_minor := i_minor s; i_nlink := i_nlink s; i_size := i_size s;
     i_addrs := i_addrs s |}.
Definition set_i_ref (v : Z) (s : inode) : inode :=
  {| i_dev := i_dev s; i_inum := i_inum s; i_ref := v; i_valid := i_valid s; i_type := i_type s;
     i_major := i_major s; i_minor := i_minor s; i_nlink := i_nlink s; i_size := i_size s;
     i_addrs := i_addrs s |}.
Definition set_i_valid (v : Z) (s : inode) : inode :=
  {| i_dev := i_dev s; i_inum := i_inum s; i_ref := i_ref s; i_valid := v; i_type := i_type s;
     i_major := i_major s; i_minor := i_minor s; i_nlink := i_nlink s; i_size := i_size s;
     i_addrs := i_addrs s |}.
Definition set_i_type (v : Z) (s : inode) : inode :=
  {| i_dev := i_dev s; i_inum := i_inum s; i_ref := i_ref s; i_valid := i_valid s; i_type := v;
     i_major := i_major s; i_minor := i_minor s; i_nlink := i_nlink s; i_size := i_size s;
     i_addrs := i_addrs s |}.
Definition set_i_major (v : Z) (s : inode) : inode :=
  {| i_dev := i_dev s; i_inum := i_inum s; i_ref := i_ref s; i_valid := i_valid s; i_type :=
     i_type s; i_major := v; i_minor := i_minor s; i_nlink := i_nlink s; i_size := i_size s;
     i_addrs := i_addrs s |}.
Definition set_i_minor (v : Z) (s : inode) : inode :=
  {| i_dev := i_dev s; i_inum := i_inum s; i_ref := i_ref s; i_valid := i_valid s; i_type :=
     i_type s; i_major := i_major s; i_minor := v; i_nlink := i_nlink s; i_size := i_size s;
     i_addrs := i_addrs s |}.
Definition set_i_nlink (v : Z) (s : inode) : inode :=
  {| i_dev := i_dev s; i_inum := i_inum s; i_ref := i_ref s; i_valid := i_valid s; i_type :=
     i_type s; i_major := i_major s; i_minor := i_minor s; i_nlink := v; i_size := i_size s;
     i_addrs := i_addrs s |}.
Definition set_i_size (v : Z) (s : inode) : inode :=
  {| i_dev := i_dev s; i_inum := i_inum s; i_ref := i_ref s; i_valid := i_valid s; i_type :=
     i_type s; i_major := i_major s; i_minor := i_minor s; i_nlink := i_nlink s; i_size := v;
     i_addrs := i_addrs s |}.
Definition set_i_addrs (v : list Z) (s : inode) : inode :=
  {| i_dev := i_dev s; i_inum := i_inum s; i_ref := i_ref s; i_valid := i_valid s; i_type :=
     i_type s; i_major := i_major s; i_minor := i_minor s; i_nlink := i_nlink s; i_size :=
     i_size s; i_addrs := v |}.
Definition set_pi_data (v : list Z) (s : pipe) : pipe :=
  {| pi_data := v; pi_nread := pi_nread s; pi_nwrite := pi_nwrite s; pi_readopen := pi_readopen
     s; pi_writeopen := pi_writeopen s |}.
Definition set_pi_nread (v : Z) (s : pipe) : pipe :=
  {| pi_data := pi_data s; pi_nread := v; pi_nwrite := pi_nwrite s; pi_readopen := pi_readopen
     s; pi_writeopen := pi_writeopen s |}.
Definition set_pi_nwrite (v : Z) (s : pipe) : pipe :=
  {| pi_data := pi_data s; pi_nread := pi_nread s; pi_nwrite := v; pi_readopen := pi_readopen s;
     pi_writeopen := pi_writeopen s |}.
Definition set_pi_readopen (v : Z) (s : pipe) : pipe :=
  {| pi_data := pi_data s; pi_nread := pi_nread s; pi_nwrite := pi_nwrite s; pi_readopen := v;
     pi_writeopen := pi_writeopen s |}.
Definition set_pi_writeopen (v : Z) (s : pipe) : pipe :=
  {| pi_data := pi_data s; pi_nread := pi_nread s; pi_nwrite := pi_nwrite s; pi_readopen :=
     pi_readopen s; pi_writeopen := v |}.
Definition set_b_valid (v : Z) (s : buf) : buf :=
  {| b_valid := v; b_disk := b_disk s; b_dev := b_dev s; b_blockno := b_blockno s; b_refcnt :=
     b_refcnt s; b_prev := b_prev s; b_next := b_next s; b_data := b_data s |}.
Definition set_b_disk (v : Z) (s : buf) : buf :=
  {| b_valid := b_valid s; b_disk := v; b_dev := b_dev s; b_blockno := b_blockno s; b_refcnt :=
     b_refcnt s; b_prev := b_prev s; b_next := b_next s; b_data := b_data s |}.
Definition set_b_dev (v : Z) (s : buf) : buf :=
  {| b_valid := b_valid s; b_disk := b_disk s; b_dev := v; b_blockno := b_blockno s; b_refcnt :=
     b_refcnt s; b_prev := b_prev s; b_next := b_next s; b_data := b_data s |}.
Definition set_b_blockno (v : Z) (s : buf) : buf :=
  {| b_valid := b_valid s; b_disk := b_disk s; b_dev := b_dev s; b_blockno := v; b_refcnt :=
     b_refcnt s; b_prev := b_prev s; b_next := b_next s; b_data := b_data s |}.
Definition set_b_refcnt (v : Z) (s : buf) : buf :=
  {| b_valid := b_valid s; b_disk := b_disk s; b_dev := b_dev s; b_blockno := b_blockno s;
     b_refcnt := v; b_prev := b_prev s; b_next := b_next s; b_data := b_data s |}.
Definition set_b_prev (v : nat) (s : buf) : buf :=
  {| b_valid := b_valid s; b_disk := b_disk s; b_dev := b_dev s; b_blockno := b_blockno s;
     b_refcnt := b_refcnt s; b_prev := v; b_next := b_next s; b_data := b_data s |}.
Definition set_b_next (v : nat) (s : buf) : buf :=
  {| b_valid := b_valid s; b_disk := b_disk s; b_dev := b_dev s; b_blockno := b_blockno s;
     b_refcnt := b_refcnt s; b_prev := b_prev s; b_next := v; b_data := b_data s |}.
Definition set_b_data (v : list Z) (s : buf) : buf :=
  {| b_valid := b_valid s; b_disk := b_disk s; b_dev := b_dev s; b_blockno := b_blockno s;
     b_refcnt := b_refcnt s; b_prev := b_prev s; b_next := b_next s; b_data := v |}.
Definition set_l_start (v : Z) (s : log_state) : log_state :=
  {| l_start := v; l_size := l_size s; l_outstanding := l_outstanding s; l_committing :=
     l_committing s; l_dev := l_dev s; lh_n := lh_n s; lh_block := lh_block s |}.
Definition set_l_size (v : Z) (s : log_state) : log_state :=
  {| l_start := l_start s; l_size := v; l_outstanding := l_outstanding s; l_committing :=
     l_committing s; l_dev := l_dev s; lh_n := lh_n s; lh_block := lh_block s |}.
Definition set_l_outstanding (v : Z) (s : log_state) : log_state :=
  {| l_start := l_start s; l_size := l_size s; l_outstanding := v; l_committing := l_committing
     s; l_dev := l_dev s; lh_n := lh_n s; lh_block := lh_block s |}.
Definition set_l_committing (v : Z) (s : log_state) : log_state :=
  {| l_start := l_start s; l_size := l_size s; l_outstanding := l_outstanding s; l_committing :=
     v; l_dev := l_dev s; lh_n := lh_n s; lh_block := lh_block s |}.
Definition set_l_dev (v : Z) (s : log_state) : log_state :=
  {| l_start := l_start s; l_size := l_size s; l_outstanding := l_outstanding s; l_committing :=
     l_committing s; l_dev := v; lh_n := lh_n s; lh_block := lh_block s |}.
Definition set_lh_n (v : Z) (s : log_state) : log_state :=
  {| l_start := l_start s; l_size := l_size s; l_outstanding := l_outstanding s; l_committing :=
     l_committing s; l_dev := l_dev s; lh_n := v; lh_block := lh_block s |}.
Definition set_lh_block (v : list Z) (s : log_state) : log_state :=
  {| l_start := l_start s; l_size := l_size s; l_outstanding := l_outstanding s; l_committing :=
     l_committing s; l_dev := l_dev s; lh_n := lh_n s; lh_block := v |}.
Definition set_vd_desc (v : list virtq_desc) (s : vdisk_state) : vdisk_state :=
  {| vd_desc := v; vd_avail_idx := vd_avail_idx s; vd_avail_ring := vd_avail_ring s;
     vd_used_dev_idx := vd_used_dev_idx s; vd_used_ring := vd_used_ring s; vd_free := vd_free s;
     vd_used_idx := vd_used_idx s; vd_info_b := vd_info_b s; vd_info_status := vd_info_status s;
     vd_ops := vd_ops s; vd_regs := vd_regs s; vd_blocks := vd_blocks s; vd_hist := vd_hist s
     |}.
Definition set_vd_avail_idx (v : Z) (s : vdisk_state) : vdisk_state :=
  {| vd_desc := vd_desc s; vd_avail_idx := v; vd_avail_ring := vd_avail_ring s; vd_used_dev_idx
     := vd_used_dev_idx s; vd_used_ring := vd_used_ring s; vd_free := vd_free s; vd_used_idx :=
     vd_used_idx s; vd_info_b := vd_info_b s; vd_info_status := vd_info_status s; vd_ops :=
     vd_ops s; vd_regs := vd_regs s; vd_blocks := vd_blocks s; vd_hist := vd_hist s |}.
Definition set_vd_avail_ring (v : list Z) (s : vdisk_state) : vdisk_state :=
  {| vd_desc := vd_desc s; vd_avail_idx := vd_avail_idx s; vd_avail_ring := v; vd_used_dev_idx
     := vd_used_dev_idx s; vd_used_ring := vd_used_ring s; vd_free := vd_free s; vd_used_idx :=
     vd_used_idx s; vd_info_b := vd_info_b s; vd_info_status := vd_info_status s; vd_ops :=
     vd_ops s; vd_regs := vd_regs s; vd_blocks := vd_blocks s; vd_hist := vd_hist s |}.
Definition set_vd_used_dev_idx (v : Z) (s : vdisk_state) : vdisk_state :=
  {| vd_desc := vd_desc s; vd_avail_idx := vd_avail_idx s; vd_avail_ring := vd_avail_ring s;
     vd_used_dev_idx := v; vd_used_ring := vd_used_ring s; vd_free := vd_free s; vd_used_idx :=
     vd_used_idx s; vd_info_b := vd_info_b s; vd_info_status := vd_info_status s; vd_ops :=
     vd_ops s; vd_regs := vd_regs s; vd_blocks := vd_blocks s; vd_hist := vd_hist s |}.
Definition set_vd_used_ring (v : list Z) (s : vdisk_state) : vdisk_state :=
  {| vd_desc := vd_desc s; vd_avail_idx := vd_avail_idx s; vd_avail_ring := vd_avail_ring s;
     vd_used_dev_idx := vd_used_dev_idx s; vd_used_ring := v; vd_free := vd_free s; vd_used_idx
     := vd_used_idx s; vd_info_b := vd_info_b s; vd_info_status := vd_info_status s; vd_ops :=
     vd_ops s; vd_regs := vd_regs s; vd_blocks := vd_blocks s; vd_hist := vd_hist s |}.
Definition set_vd_free (v : list Z) (s : vdisk_state) : vdisk_state :=
  {| vd_desc := vd_desc s; vd_avail_idx := vd_avail_idx s; vd_avail_ring := vd_avail_ring s;
     vd_used_dev_idx := vd_used_dev_idx s; vd_used_ring := vd_used_ring s; vd_free := v;
     vd_used_idx := vd_used_idx s; vd_info_b := vd_info_b s; vd_info_status := vd_info_status s;
     vd_ops := vd_ops s; vd_regs := vd_regs s; vd_blocks := vd_blocks s; vd_hist := vd_hist s
     |}.
Definition set_vd_used_idx (v : Z) (s : vdisk_state) : vdisk_state :=
  {| vd_desc := vd_desc s; vd_avail_idx := vd_avail_idx s; vd_avail_ring := vd_avail_ring s;
     vd_used_dev_idx := vd_used_dev_idx s; vd_used_ring := vd_used_ring s; vd_free := vd_free s;
     vd_used_idx := v; vd_info_b := vd_info_b s; vd_info_status := vd_info_status s; vd_ops :=
     vd_ops s; vd_regs := vd_regs s; vd_blocks := vd_blocks s; vd_hist := vd_hist s |}.
Definition set_vd_info_b (v : list (option nat)) (s : vdisk_state) : vdisk_state :=
  {| vd_desc := vd_desc s; vd_avail_idx := vd_avail_idx s; vd_avail_ring := vd_avail_ring s;
     vd_used_dev_idx := vd_used_dev_idx s; vd_used_ring := vd_used_ring s; vd_free := vd_free s;
     vd_used_idx := vd_used_idx s; vd_info_b := v; vd_info_status := vd_info_status s; vd_ops :=
     vd_ops s; vd_regs := vd_regs s; vd_blocks := vd_blocks s; vd_hist := vd_hist s |}.
Definition set_vd_info_status (v : list Z) (s : vdisk_state) : vdisk_state :=
  {| vd_desc := vd_desc s; vd_avail_idx := vd_avail_idx s; vd_avail_ring := vd_avail_ring s;
     vd_used_dev_idx := vd_used_dev_idx s; vd_used_ring := vd_used_ring s; vd_free := vd_free s;
     vd_used_idx := vd_used_idx s; vd_info_b := vd_info_b s; vd_info_status := v; vd_ops :=
     vd_ops s; vd_regs := vd_regs s; vd_blocks := vd_blocks s; vd_hist := vd_hist s |}.
Definition set_vd_ops (v : list virtio_blk_req) (s : vdisk_state) : vdisk_state :=
  {| vd_desc := vd_desc s; vd_avail_idx := vd_avail_idx s; vd_avail_ring := vd_avail_ring s;
     vd_used_dev_idx := vd_used_dev_idx s; vd_used_ring := vd_used_ring s; vd_free := vd_free s;
     vd_used_idx := vd_used_idx s; vd_info_b := vd_info_b s; vd_info_status := vd_info_status s;
     vd_ops := v; vd_regs := vd_regs s; vd_blocks := vd_blocks s; vd_hist := vd_hist s |}.
Definition set_vd_regs (v : gmap Z Z) (s : vdisk_state) : vdisk_state :=
  {| vd_desc := vd_desc s; vd_avail_idx := vd_avail_idx s; vd_avail_ring := vd_avail_ring s;
     vd_used_dev_idx := vd_used_dev_idx s; vd_used_ring := vd_used_ring s; vd_free := vd_free s;
     vd_used_idx := vd_used_idx s; vd_info_b := vd_info_b s; vd_info_status := vd_info_status s;
     vd_ops := vd_ops s; vd_regs := v; vd_blocks := vd_blocks s; vd_hist := vd_hist s |}.
Definition set_vd_blocks (v : gmap Z (list Z)) (s : vdisk_state) : vdisk_state :=
  {| vd_desc := vd_desc s; vd_avail_idx := vd_avail_idx s; vd_avail_ring := vd_avail_ring s;
     vd_used_dev_idx := vd_used_dev_idx s; vd_used_ring := vd_used_ring s; vd_free := vd_free s;
     vd_used_idx := vd_used_idx s; vd_info_b := vd_info_b s; vd_info_status := vd_info_status s;
     vd_ops := vd_ops s; vd_regs := vd_regs s; vd_blocks := v; vd_hist := vd_hist s |}.
Definition set_vd_hist (v : list (Z * list Z)) (s : vdisk_state) : vdisk_state :=
  {| vd_desc := vd_desc s; vd_avail_idx := vd_avail_idx s; vd_avail_ring := vd_avail_ring s;
     vd_used_dev_idx := vd_used_dev_idx s; vd_used_ring := vd_used_ring s; vd_free := vd_free s;
     vd_used_idx := vd_used_idx s; vd_info_b := vd_info_b s; vd_info_status := vd_info_status s;
     vd_ops := vd_ops s; vd_regs := vd_regs s; vd_blocks := vd_blocks s; vd_hist := v |}.
Definition set_c_buf (v : list Z) (s : cons_state) : cons_state :=
  {| c_buf := v; c_r := c_r s; c_w := c_w s; c_e := c_e s |}.
Definition set_c_r (v : Z) (s : cons_state) : cons_state :=
  {| c_buf := c_buf s; c_r := v; c_w := c_w s; c_e := c_e s |}.
Definition set_c_w (v : Z) (s : cons_state) : cons_state :=
  {| c_buf := c_buf s; c_r := c_r s; c_w := v; c_e := c_e s |}.
Definition set_c_e (v : Z) (s : cons_state) : cons_state :=
  {| c_buf := c_buf s; c_r := c_r s; c_w := c_w s; c_e := v |}.
Definition set_tx_buf (v : list Z) (s : uart_state) : uart_state :=
  {| tx_buf := v; tx_w := tx_w s; tx_r := tx_r s; tx_out := tx_out s; tx_busy := tx_busy s;
     rx_in := rx_in s; u_regs := u_regs s |}.
Definition set_tx_w (v : Z) (s : uart_state) : uart_state :=
  {| tx_buf := tx_buf s; tx_w := v; tx_r := tx_r s; tx_out := tx_out s; tx_busy := tx_busy s;
     rx_in := rx_in s; u_regs := u_regs s |}.
Definition set_tx_r (v : Z) (s : uart_state) : uart_state :=
  {| tx_buf := tx_buf s; tx_w := tx_w s; tx_r := v; tx_out := tx_out s; tx_busy := tx_busy s;
     rx_in := rx_in s; u_regs := u_regs s |}.
Definition set_tx_out (v : list Z) (s : uart_state) : uart_state :=
  {| tx_buf := tx_buf s; tx_w := tx_w s; tx_r := tx_r s; tx_out := v; tx_busy := tx_busy s;
     rx_in := rx_in s; u_regs := u_regs s |}.
Definition set_tx_busy (v : list bool) (s : uart_state) : uart_state :=
  {| tx_buf := tx_buf s; tx_w := tx_w s; tx_r := tx_r s; tx_out := tx_out s; tx_busy := v; rx_in
     := rx_in s; u_regs := u_regs s |}.
Definition set_rx_in (v : list Z) (s : uart_state) : uart_state :=
  {| tx_buf := tx_buf s; tx_w := tx_w s; tx_r := tx_r s; tx_out := tx_out s; tx_busy := tx_busy
     s; rx_in := v; u_regs := u_regs s |}.
Definition set_u_regs (v : gmap Z Z) (s : uart_state) : uart_state :=
  {| tx_buf := tx_buf s; tx_w := tx_w s; tx_r := tx_r s; tx_out := tx_out s; tx_busy := tx_busy
     s; rx_in := rx_in s; u_regs := v |}.
Definition set_satp (v : Z) (s : csrs) : csrs :=
  {| satp := v; stvec := stvec s; sepc := sepc s; scause := scause s; stval := stval s; sie :=
     sie s; stimecmp := stimecmp s; mtime := mtime s; mstatus := mstatus s; mepc := mepc s;
     medeleg := medeleg s; mideleg := mideleg s; mie := mie s; menvcfg := menvcfg s; mcounteren
     := mcounteren s; pmpaddr0 := pmpaddr0 s; pmpcfg0 := pmpcfg0 s; mhartid := mhartid s; plic
     := plic s |}.
Definition set_stvec (v : Z) (s : csrs) : csrs :=
  {| satp := satp s; stvec := v; sepc := sepc s; scause := scause s; stval := stval s; sie :=
     sie s; stimecmp := stimecmp s; mtime := mtime s; mstatus := mstatus s; mepc := mepc s;
     medeleg := medeleg s; mideleg := mideleg s; mie := mie s; menvcfg := menvcfg s; mcounteren
     := mcounteren s; pmpaddr0 := pmpaddr0 s; pmpcfg0 := pmpcfg0 s; mhartid := mhartid s; plic
     := plic s |}.
Definition set_sepc (v : Z) (s : csrs) : csrs :=
  {| satp := satp s; stvec := stvec s; sepc := v; scause := scause s; stval := stval s; sie :=
     sie s; stimecmp := stimecmp s; mtime := mtime s; mstatus := mstatus s; mepc := mepc s;
     medeleg := medeleg s; mideleg := mideleg s; mie := mie s; menvcfg := menvcfg s; mcounteren
     := mcounteren s; pmpaddr0 := pmpaddr0 s; pmpcfg0 := pmpcfg0 s; mhartid := mhartid s; plic
     := plic s |}.
Definition set_scause (v : Z) (s : csrs) : csrs :=
  {| satp := satp s; stvec := stvec s; sepc := sepc s; scause := v; stval := stval s; sie := sie
     s; stimecmp := stimecmp s; mtime := mtime s; mstatus := mstatus s; mepc := mepc s; medeleg
     := medeleg s; mideleg := mideleg s; mie := mie s; menvcfg := menvcfg s; mcounteren :=
     mcounteren s; pmpaddr0 := pmpaddr0 s; pmpcfg0 := pmpcfg0 s; mhartid := mhartid s; plic :=
     plic s |}.
Definition set_stval (v : Z) (s : csrs) : csrs :=
  {| satp := satp s; stvec := stvec s; sepc := sepc s; scause := scause s; stval := v; sie :=
     sie s; stimecmp := stimecmp s; mtime := mtime s; mstatus := mstatus s; mepc := mepc s;
     medeleg := medeleg s; mideleg := mideleg s; mie := mie s; menvcfg := menvcfg s; mcounteren
     := mcounteren s; pmpaddr0 := pmpaddr0 s; pmpcfg0 := pmpcfg0 s; mhartid := mhartid s; plic
     := plic s |}.
Definition set_sie (v : Z) (s : csrs) : csrs :=
  {| satp := satp s; stvec := stvec s; sepc := sepc s; scause := scause s; stval := stval s; sie
     := v; stimecmp := stimecmp s; mtime := mtime s; mstatus := mstatus s; mepc := mepc s;
     medeleg := medeleg s; mideleg := mideleg s; mie := mie s; menvcfg := menvcfg s; mcounteren
     := mcounteren s; pmpaddr0 := pmpaddr0 s; pmpcfg0 := pmpcfg0 s; mhartid := mhartid s; plic
     := plic s |}.
Definition set_stimecmp (v : Z) (s : csrs) : csrs :=
  {| satp := satp s; stvec := stvec s; sepc := sepc s; scause := scause s; stval := stval s; sie
     := sie s; stimecmp := v; mtime := mtime s; mstatus := mstatus s; mepc := mepc s; medeleg :=
     medeleg s; mideleg := mideleg s; mie := mie s; menvcfg := menvcfg s; mcounteren :=
     mcounteren s; pmpaddr0 := pmpaddr0 s; pmpcfg0 := pmpcfg0 s; mhartid := mhartid s; plic :=
     plic s |}.
Definition set_mtime (v : Z) (s : csrs) : csrs :=
  {| satp := satp s; stvec := stvec s; sepc := sepc s; scause := scause s; stval := stval s; sie
     := sie s; stimecmp := stimecmp s; mtime := v; mstatus := mstatus s; mepc := mepc s; medeleg
     := medeleg s; mideleg := mideleg s; mie := mie s; menvcfg := menvcfg s; mcounteren :=
     mcounteren s; pmpaddr0 := pmpaddr0 s; pmpcfg0 := pmpcfg0 s; mhartid := mhartid s; plic :=
     plic s |}.
Definition set_mstatus (v : Z) (s : csrs) : csrs :=
  {| satp := satp s; stvec := stvec s; sepc := sepc s; scause := scause s; stval := stval s; sie
     := sie s; stimecmp := stimecmp s; mtime := mtime s; mstatus := v; mepc := mepc s; medeleg
     := medeleg s; mideleg := mideleg s; mie := mie s; menvcfg := menvcfg s; mcounteren :=
     mcounteren s; pmpaddr0 := pmpaddr0 s; pmpcfg0 := pmpcfg0 s; mhartid := mhartid s; plic :=
     plic s |}.
Definition set_mepc (v : Z) (s : csrs) : csrs :=
  {| satp := satp s; stvec := stvec s; sepc := sepc s; scause := scause s; stval := stval s; sie
     := sie s; stimecmp := stimecmp s; mtime := mtime s; mstatus := mstatus s; mepc := v;
     medeleg := medeleg s; mideleg := mideleg s; mie := mie s; menvcfg := menvcfg s; mcounteren
     := mcounteren s; pmpaddr0 := pmpaddr0 s; pmpcfg0 := pmpcfg0 s; mhartid := mhartid s; plic
     := plic s |}.
Definition set_medeleg (v : Z) (s : csrs) : csrs :=
  {| satp := satp s; stvec := stvec s; sepc := sepc s; scause := scause s; stval := stval s; sie
     := sie s; stimecmp := stimecmp s; mtime := mtime s; mstatus := mstatus s; mepc := mepc s;
     medeleg := v; mideleg := mideleg s; mie := mie s; menvcfg := menvcfg s; mcounteren :=
     mcounteren s; pmpaddr0 := pmpaddr0 s; pmpcfg0 := pmpcfg0 s; mhartid := mhartid s; plic :=
     plic s |}.
Definition set_mideleg (v : Z) (s : csrs) : csrs :=
  {| satp := satp s; stvec := stvec s; sepc := sepc s; scause := scause s; stval := stval s; sie
     := sie s; stimecmp := stimecmp s; mtime := mtime s; mstatus := mstatus s; mepc := mepc s;
     medeleg := medeleg s; mideleg := v; mie := mie s; menvcfg := menvcfg s; mcounteren :=
     mcounteren s; pmpaddr0 := pmpaddr0 s; pmpcfg0 := pmpcfg0 s; mhartid := mhartid s; plic :=
     plic s |}.
Definition set_mie (v : Z) (s : csrs) : csrs :=
  {| satp := satp s; stvec := stvec s; sepc := sepc s; scause := scause s; stval := stval s; sie
     := sie s; stimecmp := stimecmp s; mtime := mtime s; mstatus := mstatus s; mepc := mepc s;
     medeleg := medeleg s; mideleg := mideleg s; mie := v; menvcfg := menvcfg s; mcounteren :=
     mcounteren s; pmpaddr0 := pmpaddr0 s; pmpcfg0 := pmpcfg0 s; mhartid := mhartid s; plic :=
     plic s |}.
Definition set_menvcfg (v : Z) (s : csrs) : csrs :=
  {| satp := satp s; stvec := stvec s; sepc := sepc s; scause := scause s; stval := stval s; sie
     := sie s; stimecmp := stimecmp s; mtime := mtime s; mstatus := mstatus s; mepc := mepc s;
     medeleg := medeleg s; mideleg := mideleg s; mie := mie s; menvcfg := v; mcounteren :=
     mcounteren s; pmpaddr0 := pmpaddr0 s; pmpcfg0 := pmpcfg0 s; mhartid := mhartid s; plic :=
     plic s |}.
Definition set_mcounteren (v : Z) (s : csrs) : csrs :=
  {| satp := satp s; stvec := stvec s; sepc := sepc s; scause := scause s; stval := stval s; sie
     := sie s; stimecmp := stimecmp s; mtime := mtime s; mstatus := mstatus s; mepc := mepc s;
     medeleg := medeleg s; mideleg := mideleg s; mie := mie s; menvcfg := menvcfg s; mcounteren
     := v; pmpaddr0 := pmpaddr0 s; pmpcfg0 := pmpcfg0 s; mhartid := mhartid s; plic := plic s
     |}.
Definition set_pmpaddr0 (v : Z) (s : csrs) : csrs :=
  {| satp := satp s; stvec := stvec s; sepc := sepc s; scause := scause s; stval := stval s; sie
     := sie s; stimecmp := stimecmp s; mtime := mtime s; mstatus := mstatus s; mepc := mepc s;
     medeleg := medeleg s; mideleg := mideleg s; mie := mie s; menvcfg := menvcfg s; mcounteren
     := mcounteren s; pmpaddr0 := v; pmpcfg0 := pmpcfg0 s; mhartid := mhartid s; plic := plic s
     |}.
Definition set_pmpcfg0 (v : Z) (s : csrs) : csrs :=
  {| satp := satp s; stvec := stvec s; sepc := sepc s; scause := scause s; stval := stval s; sie
     := sie s; stimecmp := stimecmp s; mtime := mtime s; mstatus := mstatus s; mepc := mepc s;
     medeleg := medeleg s; mideleg := mideleg s; mie := mie s; menvcfg := menvcfg s; mcounteren
     := mcounteren s; pmpaddr0 := pmpaddr0 s; pmpcfg0 := v; mhartid := mhartid s; plic := plic s
     |}.
Definition set_mhartid (v : Z) (s : csrs) : csrs :=
  {| satp := satp s; stvec := stvec s; sepc := sepc s; scause := scause s; stval := stval s; sie
     := sie s; stimecmp := stimecmp s; mtime := mtime s; mstatus := mstatus s; mepc := mepc s;
     medeleg := medeleg s; mideleg := mideleg s; mie := mie s; menvcfg := menvcfg s; mcounteren
     := mcounteren s; pmpaddr0 := pmpaddr0 s; pmpcfg0 := pmpcfg0 s; mhartid := v; plic := plic s
     |}.
Definition set_plic (v : gmap Z Z) (s : csrs) : csrs :=
  {| satp := satp s; stvec := stvec s; sepc := sepc s; scause := scause s; stval := stval s; sie
     := sie s; stimecmp := stimecmp s; mtime := mtime s; mstatus := mstatus s; mepc := mepc s;
     medeleg := medeleg s; mideleg := mideleg s; mie := mie s; menvcfg := menvcfg s; mcounteren
     := mcounteren s; pmpaddr0 := pmpaddr0 s; pmpcfg0 := pmpcfg0 s; mhartid := mhartid s; plic
     := v |}.
Definition set_cs (v : cstate) (s : kstate) : kstate :=
  {| cs := v; csr := csr s; pmem := pmem s; freelist := freelist s; kernel_pagetable :=
     kernel_pagetable s; proc_tab := proc_tab s; initproc := initproc s; nextpid := nextpid s;
     forkret_first := forkret_first s; slocks := slocks s; ticks := ticks s; ftable := ftable s;
     devsw := devsw s; pipes := pipes s; itable := itable s; bcache := bcache s; klog := klog s;
     sb := sb s; vdisk := vdisk s; kcons := kcons s; uart := uart s; pr_locking := pr_locking s;
     panicked := panicked s; started := started s; sched_left := sched_left s |}.
Definition set_csr (v : csrs) (s : kstate) : kstate :=
  {| cs := cs s; csr := v; pmem := pmem s; freelist := freelist s; kernel_pagetable :=
     kernel_pagetable s; proc_tab := proc_tab s; initproc := initproc s; nextpid := nextpid s;
     forkret_first := forkret_first s; slocks := slocks s; ticks := ticks s; ftable := ftable s;
     devsw := devsw s; pipes := pipes s; itable := itable s; bcache := bcache s; klog := klog s;
     sb := sb s; vdisk := vdisk s; kcons := kcons s; uart := uart s; pr_locking := pr_locking s;
     panicked := panicked s; started := started s; sched_left := sched_left s |}.
Definition set_pmem (v : mem) (s : kstate) : kstate :=
  {| cs := cs s; csr := csr s; pmem := v; freelist := freelist s; kernel_pagetable :=
     kernel_pagetable s; proc_tab := proc_tab s; initproc := initproc s; nextpid := nextpid s;
     forkret_first := forkret_first s; slocks := slocks s; ticks := ticks s; ftable := ftable s;
     devsw := devsw s; pipes := pipes s; itable := itable s; bcache := bcache s; klog := klog s;
     sb := sb s; vdisk := vdisk s; kcons := kcons s; uart := uart s; pr_locking := pr_locking s;
     panicked := panicked s; started := started s; sched_left := sched_left s |}.
Definition set_freelist (v : Z) (s : kstate) : kstate :=
  {| cs := cs s; csr := csr s; pmem := pmem s; freelist := v; kernel_pagetable :=
     kernel_pagetable s; proc_tab := proc_tab s; initproc := initproc s; nextpid := nextpid s;
     forkret_first := forkret_first s; slocks := slocks s; ticks := ticks s; ftable := ftable s;
     devsw := devsw s; pipes := pipes s; itable := itable s; bcache := bcache s; klog := klog s;
     sb := sb s; vdisk := vdisk s; kcons := kcons s; uart := uart s; pr_locking := pr_locking s;
     panicked := panicked s; started := started s; sched_left := sched_left s |}.
Definition set_kernel_pagetable (v : Z) (s : kstate) : kstate :=
  {| cs := cs s; csr := csr s; pmem := pmem s; freelist := freelist s; kernel_pagetable := v;
     proc_tab := proc_tab s; initproc := initproc s; nextpid := nextpid s; forkret_first :=
     forkret_first s; slocks := slocks s; ticks := ticks s; ftable := ftable s; devsw := devsw
     s; pipes := pipes s; itable := itable s; bcache := bcache s; klog := klog s; sb := sb s;
     vdisk := vdisk s; kcons := kcons s; uart := uart s; pr_locking := pr_locking s; panicked :=
     panicked s; started := started s; sched_left := sched_left s |}.
Definition set_proc_tab (v : list proc) (s : kstate) : kstate :=
  {| cs := cs s; csr := csr s; pmem := pmem s; freelist := freelist s; kernel_pagetable :=
     kernel_pagetable s; proc_tab := v; initproc := initproc s; nextpid := nextpid s;
     forkret_first := forkret_first s; slocks := slocks s; ticks := ticks s; ftable := ftable s;
     devsw := devsw s; pipes := pipes s; itable := itable s; bcache := bcache s; klog := klog s;
     sb := sb s; vdisk := vdisk s; kcons := kcons s; uart := uart s; pr_locking := pr_locking s;
     panicked := panicked s; started := started s; sched_left := sched_left s |}.
Definition set_initproc (v : option nat) (s : kstate) : kstate :=
  {| cs := cs s; csr := csr s; pmem := pmem s; freelist := freelist s; kernel_pagetable :=
     kernel_pagetable s; proc_tab := proc_tab s; initproc := v; nextpid := nextpid s;
     forkret_first := forkret_first s; slocks := slocks s; ticks := ticks s; ftable := ftable s;
     devsw := devsw s; pipes := pipes s; itable := itable s; bcache := bcache s; klog := klog s;
     sb := sb s; vdisk := vdisk s; kcons := kcons s; uart := uart s; pr_locking := pr_locking s;
     panicked := panicked s; started := started s; sched_left := sched_left s |}.
Definition set_nextpid (v : Z) (s : kstate) : kstate :=
  {| cs := cs s; csr := csr s; pmem := pmem s; freelist := freelist s; kernel_pagetable :=
     kernel_pagetable s; proc_tab := proc_tab s; initproc := initproc s; nextpid := v;
     forkret_first := forkret_first s; slocks := slocks s; ticks := ticks s; ftable := ftable s;
     devsw := devsw s; pipes := pipes s; itable := itable s; bcache := bcache s; klog := klog s;
     sb := sb s; vdisk := vdisk s; kcons := kcons s; uart := uart s; pr_locking := pr_locking s;
     panicked := panicked s; started := started s; sched_left := sched_left s |}.
Definition set_forkret_first (v : Z) (s : kstate) : kstate :=
  {| cs := cs s; csr := csr s; pmem := pmem s; freelist := freelist s; kernel_pagetable :=
     kernel_pagetable s; proc_tab := proc_tab s; initproc := initproc s; nextpid := nextpid s;
     forkret_first := v; slocks := slocks s; ticks := ticks s; ftable := ftable s; devsw :=
     devsw s; pipes := pipes s; itable := itable s; bcache := bcache s; klog := klog s; sb := sb
     s; vdisk := vdisk s; kcons := kcons s; uart := uart s; pr_locking := pr_locking s; panicked
     := panicked s; started := started s; sched_left := sched_left s |}.
Definition set_slocks (v : gmap sleepid sleeplock) (s : kstate) : kstate :=
  {| cs := cs s; csr := csr s; pmem := pmem s; freelist := freelist s; kernel_pagetable :=
     kernel_pagetable s; proc_tab := proc_tab s; initproc := initproc s; nextpid := nextpid s;
     forkret_first := forkret_first s; slocks := v; ticks := ticks s; ftable := ftable s; devsw
     := devsw s; pipes := pipes s; itable := itable s; bcache := bcache s; klog := klog s; sb :=
     sb s; vdisk := vdisk s; kcons := kcons s; uart := uart s; pr_locking := pr_locking s;
     panicked := panicked s; started := started s; sched_left := sched_left s |}.
Definition set_ticks (v : Z) (s : kstate) : kstate :=
  {| cs := cs s; csr := csr s; pmem := pmem s; freelist := freelist s; kernel_pagetable :=
     kernel_pagetable s; proc_tab := proc_tab s; initproc := initproc s; nextpid := nextpid s;
     forkret_first := forkret_first s; slocks := slocks s; ticks := v; ftable := ftable s; devsw
     := devsw s; pipes := pipes s; itable := itable s; bcache := bcache s; klog := klog s; sb :=
     sb s; vdisk := vdisk s; kcons := kcons s; uart := uart s; pr_locking := pr_locking s;
     panicked := panicked s; started := started s; sched_left := sched_left s |}.
Definition set_ftable (v : list file) (s : kstate) : kstate :=
  {| cs := cs s; csr := csr s; pmem := pmem s; freelist := freelist s; kernel_pagetable :=
     kernel_pagetable s; proc_tab := proc_tab s; initproc := initproc s; nextpid := nextpid s;
     forkret_first := forkret_first s; slocks := slocks s; ticks := ticks s; ftable := v; devsw
     := devsw s; pipes := pipes s; itable := itable s; bcache := bcache s; klog := klog s; sb :=
     sb s; vdisk := vdisk s; kcons := kcons s; uart := uart s; pr_locking := pr_locking s;
     panicked := panicked s; started := started s; sched_left := sched_left s |}.
Definition set_devsw (v : list devsw_entry) (s : kstate) : kstate :=
  {| cs := cs s; csr := csr s; pmem := pmem s; freelist := freelist s; kernel_pagetable :=
     kernel_pagetable s; proc_tab := proc_tab s; initproc := initproc s; nextpid := nextpid s;
     forkret_first := forkret_first s; slocks := slocks s; ticks := ticks s; ftable := ftable s;
     devsw := v; pipes := pipes s; itable := itable s; bcache := bcache s; klog := klog s; sb :=
     sb s; vdisk := vdisk s; kcons := kcons s; uart := uart s; pr_locking := pr_locking s;
     panicked := panicked s; started := started s; sched_left := sched_left s |}.
Definition set_pipes (v : gmap Z pipe) (s : kstate) : kstate :=
  {| cs := cs s; csr := csr s; pmem := pmem s; freelist := freelist s; kernel_pagetable :=
     kernel_pagetable s; proc_tab := proc_tab s; initproc := initproc s; nextpid := nextpid s;
     forkret_first := forkret_first s; slocks := slocks s; ticks := ticks s; ftable := ftable s;
     devsw := devsw s; pipes := v; itable := itable s; bcache := bcache s; klog := klog s; sb :=
     sb s; vdisk := vdisk s; kcons := kcons s; uart := uart s; pr_locking := pr_locking s;
     panicked := panicked s; started := started s; sched_left := sched_left s |}.
Definition set_itable (v : list inode) (s : kstate) : kstate :=
  {| cs := cs s; csr := csr s; pmem := pmem s; freelist := freelist s; kernel_pagetable :=
     kernel_pagetable s; proc_tab := proc_tab s; initproc := initproc s; nextpid := nextpid s;
     forkret_first := forkret_first s; slocks := slocks s; ticks := ticks s; ftable := ftable s;
     devsw := devsw s; pipes := pipes s; itable := v; bcache := bcache s; klog := klog s; sb :=
     sb s; vdisk := vdisk s; kcons := kcons s; uart := uart s; pr_locking := pr_locking s;
     panicked := panicked s; started := started s; sched_left := sched_left s |}.
Definition set_bcache (v : bcache_state) (s : kstate) : kstate :=
  {| cs := cs s; csr := csr s; pmem := pmem s; freelist := freelist s; kernel_pagetable :=
     kernel_pagetable s; proc_tab := proc_tab s; initproc := initproc s; nextpid := nextpid s;
     forkret_first := forkret_first s; slocks := slocks s; ticks := ticks s; ftable := ftable s;
     devsw := devsw s; pipes := pipes s; itable := itable s; bcache := v; klog := klog s; sb :=
     sb s; vdisk := vdisk s; kcons := kcons s; uart := uart s; pr_locking := pr_locking s;
     panicked := panicked s; started := started s; sched_left := sched_left s |}.
Definition set_klog (v : log_state) (s : kstate) : kstate :=
  {| cs := cs s; csr := csr s; pmem := pmem s; freelist := freelist s; kernel_pagetable :=
     kernel_pagetable s; proc_tab := proc_tab s; initproc := initproc s; nextpid := nextpid s;
     forkret_first := forkret_first s; slocks := slocks s; ticks := ticks s; ftable := ftable s;
     devsw := devsw s; pipes := pipes s; itable := itable s; bcache := bcache s; klog := v; sb
     := sb s; vdisk := vdisk s; kcons := kcons s; uart := uart s; pr_locking := pr_locking s;
     panicked := panicked s; started := started s; sched_left := sched_left s |}.
Definition set_sb (v : superblock) (s : kstate) : kstate :=
  {| cs := cs s; csr := csr s; pmem := pmem s; freelist := freelist s; kernel_pagetable :=
     kernel_pagetable s; proc_tab := proc_tab s; initproc := initproc s; nextpid := nextpid s;
     forkret_first := forkret_first s; slocks := slocks s; ticks := ticks s; ftable := ftable s;
     devsw := devsw s; pipes := pipes s; itable := itable s; bcache := bcache s; klog := klog s;
     sb := v; vdisk := vdisk s; kcons := kcons s; uart := uart s; pr_locking := pr_locking s;
     panicked := panicked s; started := started s; sched_left := sched_left s |}.
Definition set_vdisk (v : vdisk_state) (s : kstate) : kstate :=
  {| cs := cs s; csr := csr s; pmem := pmem s; freelist := freelist s; kernel_pagetable :=
     kernel_pagetable s; proc_tab := proc_tab s; initproc := initproc s; nextpid := nextpid s;
     forkret_first := forkret_first s; slocks := slocks s; ticks := ticks s; ftable := ftable s;
     devsw := devsw s; pipes := pipes s; itable := itable s; bcache := bcache s; klog := klog s;
     sb := sb s; vdisk := v; kcons := kcons s; uart := uart s; pr_locking := pr_locking s;
     panicked := panicked s; started := started s; sched_left := sched_left s |}.
Definition set_kcons (v : cons_state) (s : kstate) : kstate :=
  {| cs := cs s; csr := csr s; pmem := pmem s; freelist := freelist s; kernel_pagetable :=
     kernel_pagetable s; proc_tab := proc_tab s; initproc := initproc s; nextpid := nextpid s;
     forkret_first := forkret_first s; slocks := slocks s; ticks := ticks s; ftable := ftable s;
     devsw := devsw s; pipes := pipes s; itable := itable s; bcache := bcache s; klog := klog s;
     sb := sb s; vdisk := vdisk s; kcons := v; uart := uart s; pr_locking := pr_locking s;
     panicked := panicked s; started := started s; sched_left := sched_left s |}.
Definition set_uart (v : uart_state) (s : kstate) : kstate :=
  {| cs := cs s; csr := csr s; pmem := pmem s; freelist := freelist s; kernel_pagetable :=
     kernel_pagetable s; proc_tab := proc_tab s; initproc := initproc s; nextpid := nextpid s;
     forkret_first := forkret_first s; slocks := slocks s; ticks := ticks s; ftable := ftable s;
     devsw := devsw s; pipes := pipes s; itable := itable s; bcache := bcache s; klog := klog s;
     sb := sb s; vdisk := vdisk s; kcons := kcons s; uart := v; pr_locking := pr_locking s;
     panicked := panicked s; started := started s; sched_left := sched_left s |}.
Definition set_pr_locking (v : Z) (s : kstate) : kstate :=
  {| cs := cs s; csr := csr s; pmem := pmem s; freelist := freelist s; kernel_pagetable :=
     kernel_pagetable s; proc_tab := proc_tab s; initproc := initproc s; nextpid := nextpid s;
     forkret_first := forkret_first s; slocks := slocks s; ticks := ticks s; ftable := ftable s;
     devsw := devsw s; pipes := pipes s; itable := itable s; bcache := bcache s; klog := klog s;
     sb := sb s; vdisk := vdisk s; kcons := kcons s; uart := uart s; pr_locking := v; panicked
     := panicked s; started := started s; sched_left := sched_left s |}.
Definition set_panicked (v : Z) (s : kstate) : kstate :=
  {| cs := cs s; csr := csr s; pmem := pmem s; freelist := freelist s; kernel_pagetable :=
     kernel_pagetable s; proc_tab := proc_tab s; initproc := initproc s; nextpid := nextpid s;
     forkret_first := forkret_first s; slocks := slocks s; ticks := ticks s; ftable := ftable s;
     devsw := devsw s; pipes := pipes s; itable := itable s; bcache := bcache s; klog := klog s;
     sb := sb s; vdisk := vdisk s; kcons := kcons s; uart := uart s; pr_locking := pr_locking s;
     panicked := v; started := started s; sched_left := sched_left s |}.
Definition set_started (v : Z) (s : kstate) : kstate :=
  {| cs := cs s; csr := csr s; pmem := pmem s; freelist := freelist s; kernel_pagetable :=
     kernel_pagetable s; proc_tab := proc_tab s; initproc := initproc s; nextpid := nextpid s;
     forkret_first := forkret_first s; slocks := slocks s; ticks := ticks s; ftable := ftable s;
     devsw := devsw s; pipes := pipes s; itable := itable s; bcache := bcache s; klog := klog s;
     sb := sb s; vdisk := vdisk s; kcons := kcons s; uart := uart s; pr_locking := pr_locking s;
     panicked := panicked s; started := v; sched_left := sched_left s |}.
Definition set_sched_left (v : nat) (s : kstate) : kstate :=
  {| cs := cs s; csr := csr s; pmem := pmem s; freelist := freelist s; kernel_pagetable :=
     kernel_pagetable s; proc_tab := proc_tab s; initproc := initproc s; nextpid := nextpid s;
     forkret_first := forkret_first s; slocks := slocks s; ticks := ticks s; ftable := ftable s;
     devsw := devsw s; pipes := pipes s; itable := itable s; bcache := bcache s; klog := klog s;
     sb := sb s; vdisk := vdisk s; kcons := kcons s; uart := uart s; pr_locking := pr_locking s;
     panicked := panicked s; started := started s; sched_left := v |}.

(** Code of the kernel that does not sleep. *)
Abbreviation K := (M kstate).

(** ** Zeroed structures (static variables start at 0) *)

Definition context0 : context := Mk_context 0 0 (replicate 12 0).
Definition cpu0 : cpu := Mk_cpu None context0 0 0.
Definition proc0 : proc :=
  {| p_state := UNUSED; p_chan := None; p_killed := 0; p_xstate := 0; p_pid := 0; p_mask := 0;
     p_parent := None; p_kstack := 0; p_sz := 0; p_pagetable := 0; p_trapframe := 0;
     p_context := context0; p_ofile := replicate (Z.to_nat NOFILE) None; p_cwd := None;
     p_name := replicate 16 0 |}.
Definition file0 : file := Mk_file FD_NONE 0 0 0 0 None 0 0.
Definition inode0 : inode := Mk_inode 0 0 0 0 0 0 0 0 0 (replicate 13 0).
Definition buf0 : buf := Mk_buf 0 0 0 0 0 0 0 (replicate 1024 0).
Definition log0 : log_state := Mk_log_state 0 0 0 0 0 0 (replicate 30 0).
Definition sb0 : superblock := Mk_superblock 0 0 0 0 0 0 0 0.
Definition csrs0 : csrs := Mk_csrs 0 0 0 0 0 0 0 0 0 0 0 0 0 0 0 0 0 0 ∅.
Definition vdisk0 : vdisk_state :=
  Mk_vdisk_state (replicate 8 (Mk_virtq_desc DA_null 0 0 0)) 0 (replicate 8 0) 0 (replicate 8 0)
    (replicate 8 0) 0 (replicate 8 None) (replicate 8 0) (replicate 8 (Mk_blk_req 0 0 0)) ∅ ∅ [].
Definition spinlock0 : spinlock := Mk_spinlock 0 EmptyString None.
Definition sleeplock0 : sleeplock := Mk_sleeplock 0 EmptyString 0.

(** The kernel's variables when hart [h] enters [main]. *)
Definition kstate0 (h : Z) : kstate :=
  {| cs := {| locks := ∅; cpus := replicate (Z.to_nat NCPU) cpu0; tp := h; sstatus := 0 |};
     csr := csrs0; pmem := ∅; freelist := 0; kernel_pagetable := 0;
     proc_tab := replicate (Z.to_nat NPROC) proc0; initproc := None; nextpid := 1;
     forkret_first := 1; slocks := ∅; ticks := 0;
     ftable := replicate (Z.to_nat NFILE) file0;
     devsw := replicate (Z.to_nat NDEV) (Mk_devsw None None); pipes := ∅;
     itable := replicate (Z.to_nat NINODE) inode0;
     bcache := Mk_bcache (replicate (Z.to_nat NBUF) buf0) 0 0; klog := log0; sb := sb0;
     vdisk := vdisk0; kcons := Mk_cons_state (replicate 128 0) 0 0 0;
     uart := Mk_uart_state (replicate 32 0) 0 0 [] [] [] ∅; pr_locking := 0; panicked := 0;
     started := 0; sched_left := O |}.
