(* ===== verification/Spinlock.v ===== *)
(** * Spinlocks: kernel/spinlock.c, and the interrupt switch of kernel/riscv.h

    The functions of spinlock.c on one hart, as code over [cstate]. A spin loop
    whose lock another cpu holds does not end by itself: it is [Hang] here, and the
    section [smp] at the end models the same loop on all harts as a step relation. *)

From S2P Require Import Prelude Machine State.

Abbreviation CS := (M cstate).

(** ** kernel/riscv.h *)

Definition r_sstatus : CS Z := gets sstatus.
Definition w_sstatus (x : Z) : CS unit := modify (set_sstatus x).

Definition intr_on : CS unit :=
  x ← r_sstatus; w_sstatus (Z.lor x SSTATUS_SIE).
Definition intr_off : CS unit :=
  x ← r_sstatus; w_sstatus (Z.land x (u64 (Z.lnot SSTATUS_SIE))).
Definition intr_get : CS Z :=
  x ← r_sstatus; mret (of_bool (negb (Z.land x SSTATUS_SIE =? 0))).

(** ** kernel/proc.c: cpuid, mycpu *)

Definition cpuid : CS Z := gets (λ c, s32 (tp c)).
Definition mycpu : CS cpu := gets (λ c, nthZ cpu0 (cpus c) (s32 (tp c))).
(** An assignment to a field of [*mycpu()]. *)
Definition upd_mycpu (f : cpu → cpu) : CS unit :=
  modify (λ c, let i := s32 (tp c) in set_cpus (setZ (cpus c) i (f (nthZ cpu0 (cpus c) i))) c).

(** ** kernel/spinlock.c *)

Definition get_lock (l : lockid) (c : cstate) : spinlock := default spinlock0 (locks c !! l).
Definition put_lock (l : lockid) (lk : spinlock) (c : cstate) : cstate :=
  set_locks (<[l := lk]> (locks c)) c.

Definition initlock (l : lockid) (name : string) : CS unit :=
  modify (put_lock l (Mk_spinlock 0 name None)).

Definition holding (l : lockid) : CS bool :=
  lk ← gets (get_lock l);
  i ← cpuid;
  mret (c_bool (lk_locked lk) && bool_decide (lk_cpu lk = Some i)).

Definition push_off : CS unit :=
  old ← intr_get;
  intr_off;;
  c ← mycpu;
  when (noff c =? 0) (upd_mycpu (set_intena old));;
  upd_mycpu (λ c, set_noff (s32 (noff c + 1)) c).

Definition pop_off : CS unit :=
  b ← intr_get;
  if c_bool b then panic "pop_off - interruptible"
  else
    c ← mycpu;
    if noff c <? 1 then panic "pop_off"
    else
      upd_mycpu (λ c, set_noff (s32 (noff c - 1)) c);;
      c ← mycpu;
      when ((noff c =? 0) && c_bool (intena c)) intr_on.

(** [__sync_lock_test_and_set(&lk->locked, 1)]: swap, and the old value. *)
Definition test_and_set (l : lockid) : CS Z :=
  lk ← gets (get_lock l);
  modify (put_lock l (Mk_spinlock 1 (lk_name lk) (lk_cpu lk)));;
  mret (lk_locked lk).

Definition acquire (l : lockid) : CS unit :=
  push_off;;
  h ← holding l;
  if (h : bool) then panic "acquire"
  else
    old ← test_and_set l;
    if c_bool old then hang
    else
      lk ← gets (get_lock l);
      i ← cpuid;
      modify (put_lock l (Mk_spinlock (lk_locked lk) (lk_name lk) (Some i))).

Definition release (l : lockid) : CS unit :=
  h ← holding l;
  if negb h then panic "release"
  else
    lk ← gets (get_lock l);
    modify (put_lock l (Mk_spinlock (lk_locked lk) (lk_name lk) None));;
    lk ← gets (get_lock l);
    modify (put_lock l (Mk_spinlock 0 (lk_name lk) (lk_cpu lk)));;
    pop_off.

(** spinlock.c as part of the kernel's code. *)
Definition lift_cs {A} (m : CS A) : K A := λ s,
  match m (cs s) with
  | Ret a c => Ret a (set_cs c s)
  | Panic msg => Panic msg
  | Hang => Hang
  end.

(** ** Invariant

    [cs_ok n]: this hart is one of the [NCPU], at depth [n] of [push_off]s.
    Interrupts are off inside [push_off]; outside, [intena] holds what the next
    [push_off] will save. *)

Definition sie_on (c : cstate) : bool := negb (Z.land (sstatus c) SSTATUS_SIE =? 0).

Definition cur_cpu (c : cstate) : cpu := nthZ cpu0 (cpus c) (tp c).

Record cs_ok (n : Z) (c : cstate) : Prop := {
  cs_tp : 0 ≤ tp c < NCPU;
  cs_cpus : length (cpus c) = Z.to_nat NCPU;
  cs_sstatus : 0 ≤ sstatus c < 2 ^ 64;
  cs_noff : noff (cur_cpu c) = n;
  cs_depth : 0 ≤ n < 2 ^ 31 - 1;
  cs_outside : n = 0 → intena (cur_cpu c) = of_bool (sie_on c);
  cs_inside : 0 < n → sie_on c = false;
}.

(** Nobody holds the lock. *)
Definition lock_free (l : lockid) (c : cstate) : Prop :=
  ∃ name, locks c !! l = Some (Mk_spinlock 0 name None).

(** The state after [acquire l] from [c]. *)
Definition taken (l : lockid) (c : cstate) : cstate :=
  {| locks := <[l := Mk_spinlock 1 (lk_name (get_lock l c)) (Some (tp c))]> (locks c);
     cpus := setZ (cpus c) (tp c) (set_noff (noff (cur_cpu c) + 1) (cur_cpu c));
     tp := tp c;
     sstatus := Z.land (sstatus c) (u64 (Z.lnot SSTATUS_SIE)) |}.

(** The same for [push_off] alone. *)
Definition pushed (c : cstate) : cstate :=
  {| locks := locks c;
     cpus := setZ (cpus c) (tp c) (set_noff (noff (cur_cpu c) + 1) (cur_cpu c));
     tp := tp c;
     sstatus := Z.land (sstatus c) (u64 (Z.lnot SSTATUS_SIE)) |}.

(** ** Lemmas *)

Section bits.
Lemma sie_mask x : Z.land x SSTATUS_SIE = if Z.testbit x 1 then 2 else 0.
Proof.
  apply Z.bits_inj'. intros k Hk. rewrite Z.land_spec.
  change SSTATUS_SIE with (2 ^ 1). rewrite Z.pow2_bits_eqb by lia.
  destruct (Z.eqb_spec 1 k) as [<-|Hne].
  - destruct (Z.testbit x 1); reflexivity.
  - rewrite andb_false_r. destruct (Z.testbit x 1); [|by rewrite Z.bits_0].
    symmetry. change 2 with (2 ^ 1). rewrite Z.pow2_bits_eqb by lia. lia.
Qed.

Lemma sie_clear_testbit x k :
  0 ≤ x < 2 ^ 64 → 0 ≤ k →
  Z.testbit (Z.land x (u64 (Z.lnot SSTATUS_SIE))) k = negb (k =? 1) && Z.testbit x k.
Proof.
  intros Hx Hk. rewrite Z.land_spec. unfold u64.
  rewrite Z.testbit_mod_pow2 by lia. rewrite Z.lnot_spec by lia.
  change SSTATUS_SIE with (2 ^ 1). rewrite Z.pow2_bits_eqb by lia.
  rewrite (Z.eqb_sym 1 k).
  destruct (Z.ltb_spec k 64) as [|Hge].
  - by rewrite andb_comm.
  - rewrite (Z.bits_above_log2 x k); [simpl; by rewrite andb_false_r| |].
    + lia.
    + destruct (decide (x = 0)) as [->|]; [simpl; lia|].
      apply Z.log2_lt_pow2; [lia|]. eapply Z.lt_le_trans; [apply Hx|].
      apply Z.pow_le_mono_r; lia.
Qed.

Lemma sie_clear_range x :
  0 ≤ x < 2 ^ 64 → 0 ≤ Z.land x (u64 (Z.lnot SSTATUS_SIE)) < 2 ^ 64.
Proof.
  intros Hx. split; [apply Z.land_nonneg; lia|].
  destruct (decide (Z.land x (u64 (Z.lnot SSTATUS_SIE)) = 0)) as [->|Hne]; [lia|].
  assert (0 ≤ Z.land x (u64 (Z.lnot SSTATUS_SIE))) by (apply Z.land_nonneg; lia).
  apply Z.log2_lt_pow2; [lia|].
  eapply Z.le_lt_trans; [apply Z.log2_land; [lia|apply u64_range]|].
  apply Z.min_lt_iff. right. vm_compute. done.
Qed.

Lemma sie_clear_off x :
  0 ≤ x < 2 ^ 64 → Z.land (Z.land x (u64 (Z.lnot SSTATUS_SIE))) SSTATUS_SIE = 0.
Proof. intros. rewrite sie_mask, sie_clear_testbit by lia. done. Qed.

Lemma sie_clear_id x :
  0 ≤ x < 2 ^ 64 → Z.land x SSTATUS_SIE = 0 → Z.land x (u64 (Z.lnot SSTATUS_SIE)) = x.
Proof.
  intros Hx H. apply Z.bits_inj'. intros k Hk. rewrite sie_clear_testbit by lia.
  destruct (Z.eqb_spec k 1) as [->|]; [|done].
  rewrite sie_mask in H. by destruct (Z.testbit x 1).
Qed.

Lemma sie_clear_set x :
  0 ≤ x < 2 ^ 64 → Z.land x SSTATUS_SIE ≠ 0 →
  Z.lor (Z.land x (u64 (Z.lnot SSTATUS_SIE))) SSTATUS_SIE = x.
Proof.
  intros Hx H. apply Z.bits_inj'. intros k Hk.
  rewrite Z.lor_spec, sie_clear_testbit by lia.
  change SSTATUS_SIE with (2 ^ 1). rewrite Z.pow2_bits_eqb by lia.
  rewrite (Z.eqb_sym 1 k). destruct (Z.eqb_spec k 1) as [->|].
  - rewrite sie_mask in H. by destruct (Z.testbit x 1).
  - by rewrite orb_false_r.
Qed.
End bits.

Lemma surjective_cstate c : c = set_locks (locks c) c.
Proof. by destruct c. Qed.

Section specs.
Context {n : Z} {c : cstate} (Hc : cs_ok n c).

Lemma tp_s32 : s32 (tp c) = tp c.
Proof. apply s32_small. pose proof (cs_tp _ _ Hc). klia. Qed.

Lemma cpus_bound : 0 ≤ tp c < Z.of_nat (length (cpus c)).
Proof. rewrite (cs_cpus _ _ Hc). pose proof (cs_tp _ _ Hc). klia. Qed.

Lemma nthZ_pushed k : nthZ cpu0 (setZ (cpus c) (tp c) k) (tp c) = k.
Proof. apply nthZ_setZ_eq, cpus_bound. Qed.

Lemma setZ_setZ k k' : setZ (setZ (cpus c) (tp c) k) (tp c) k' = setZ (cpus c) (tp c) k'.
Proof.
  unfold setZ. pose proof cpus_bound. rewrite !decide_True by lia. apply list_insert_insert_eq.
Qed.

Lemma setZ_cur : setZ (cpus c) (tp c) (cur_cpu c) = cpus c.
Proof.
  pose proof cpus_bound. unfold setZ, cur_cpu, nthZ. rewrite !decide_True by lia.
  apply list_insert_id. rewrite nth_lookup.
  destruct (lookup_lt_is_Some_2 (cpus c) (Z.to_nat (tp c))) as [x Hx]; [lia|].
  by rewrite Hx.
Qed.

Lemma push_off_ok : push_off c = Ret tt (pushed c).
Proof.
  unfold push_off, intr_get, intr_off, r_sstatus, w_sstatus, mycpu, upd_mycpu, when.
  unfold mbind, M_bind, mret, M_ret, gets, modify. cbn -[Z.land s32 of_bool].
  pose proof (cs_depth _ _ Hc) as Hd. pose proof (cs_noff _ _ Hc) as Hnf.
  unfold cur_cpu in Hnf. rewrite tp_s32, Hnf.
  destruct (Z.eqb_spec n 0) as [Hn|Hn]; cbn -[Z.land s32 of_bool]; rewrite tp_s32.
  - rewrite nthZ_pushed, setZ_setZ. unfold pushed, cur_cpu. cbn -[Z.land s32 of_bool].
    pose proof (cs_outside _ _ Hc Hn) as Ho. unfold cur_cpu, sie_on in Ho.
    rewrite <- Ho, Hnf, s32_small by lia. done.
  - rewrite Hnf, s32_small by lia. unfold pushed, cur_cpu. by rewrite Hnf.
Qed.

Lemma pop_off_ok L : pop_off (set_locks L (pushed c)) = Ret tt (set_locks L c).
Proof.
  unfold pop_off, intr_get, intr_on, r_sstatus, w_sstatus, mycpu, upd_mycpu, when.
  unfold mbind, M_bind, mret, M_ret, gets, modify. cbn -[Z.land Z.lor s32 of_bool].
  rewrite sie_clear_off by apply (cs_sstatus _ _ Hc). rewrite c_bool_of_bool.
  cbn -[Z.land Z.lor s32 of_bool]. rewrite tp_s32, nthZ_pushed. cbn -[Z.land Z.lor s32 of_bool].
  pose proof (cs_depth _ _ Hc) as Hd. rewrite (cs_noff _ _ Hc).
  rewrite (proj2 (Z.ltb_ge (n + 1) 1)) by lia.
  cbn -[Z.land Z.lor s32 of_bool]. rewrite tp_s32, !nthZ_pushed, !setZ_setZ, nthZ_pushed.
  cbn -[Z.land Z.lor s32 of_bool].
  replace (s32 (noff (cur_cpu c) + 1 - 1)) with (noff (cur_cpu c))
    by (rewrite (cs_noff _ _ Hc), s32_small; lia).
  replace (setZ (cpus c) (tp c) _) with (cpus c).
  2:{ rewrite <- setZ_cur at 1. f_equal. by destruct (cur_cpu c). }
  rewrite (cs_noff _ _ Hc).
  pose proof (cs_sstatus _ _ Hc) as Hs.
  unfold set_cpus, set_locks, set_sstatus, pushed.
  destruct (Z.eqb_spec n 0) as [Hn|Hn]; cbn -[Z.land Z.lor s32 of_bool].
  - rewrite (cs_outside _ _ Hc Hn), c_bool_of_bool. unfold sie_on.
    destruct (Z.eqb_spec (Z.land (sstatus c) SSTATUS_SIE) 0) as [E|E]; cbn -[Z.land Z.lor].
    + by rewrite sie_clear_id.
    + by rewrite sie_clear_set.
  - pose proof (cs_inside _ _ Hc ltac:(lia)) as Hi. unfold sie_on in Hi.
    rewrite sie_clear_id; [done|done|].
    by apply negb_false_iff, Z.eqb_eq in Hi.
Qed.

Lemma pushed_cur : cur_cpu (pushed c) = set_noff (n + 1) (cur_cpu c).
Proof. unfold cur_cpu at 1. cbn. rewrite nthZ_pushed. by rewrite (cs_noff _ _ Hc). Qed.

Lemma taken_ok l : n < 2 ^ 31 - 2 → cs_ok (n + 1) (taken l c).
Proof.
  intros Hn. pose proof (cs_depth _ _ Hc) as Hd. pose proof pushed_cur as Hp.
  change (cur_cpu (pushed c)) with (cur_cpu (taken l c)) in Hp.
  split; cbn -[Z.land]; rewrite ?Hp; cbn -[Z.land]; try lia.
  - apply (cs_tp _ _ Hc).
  - rewrite setZ_length. apply (cs_cpus _ _ Hc).
  - apply sie_clear_range, (cs_sstatus _ _ Hc).
  - intros _. unfold sie_on. cbn -[Z.land].
    rewrite sie_clear_off by apply (cs_sstatus _ _ Hc). done.
Qed.

Lemma pushed_ok : n < 2 ^ 31 - 2 → cs_ok (n + 1) (pushed c).
Proof. intros Hn. destruct (taken_ok L_kmem Hn); by split. Qed.

Lemma acquire_ok l : lock_free l c → acquire l c = Ret tt (taken l c).
Proof.
  intros [name Hl]. unfold acquire. rewrite (bind_ret _ _ _ _ _ push_off_ok).
  unfold holding, test_and_set, get_lock, put_lock, cpuid.
  unfold mbind, M_bind, mret, M_ret, gets, modify. cbn -[Z.land].
  rewrite Hl. cbn -[Z.land]. rewrite Hl. cbn -[Z.land].
  rewrite lookup_insert_eq, insert_insert_eq. cbn -[Z.land]. rewrite tp_s32. unfold taken, get_lock, set_locks. cbn -[Z.land].
  by rewrite Hl.
Qed.

Lemma holding_taken l : holding l (taken l c) = Ret true (taken l c).
Proof.
  unfold holding, get_lock, cpuid, mbind, M_bind, mret, M_ret, gets.
  cbn -[Z.land]. rewrite tp_s32, !lookup_insert_eq. cbn -[Z.land].
  by rewrite bool_decide_eq_true_2.
Qed.

Lemma release_ok l : lock_free l c → release l (taken l c) = Ret tt c.
Proof.
  intros [name Hl]. unfold release. rewrite (bind_ret _ _ _ _ _ (holding_taken l)).
  unfold get_lock, put_lock, mbind, M_bind, mret, M_ret, gets, modify.
  cbn -[Z.land pop_off]. rewrite !lookup_insert_eq, !insert_insert_eq.
  cbn -[Z.land pop_off]. unfold get_lock. rewrite Hl. cbn -[Z.land pop_off].
  rewrite (insert_id (locks c)) by done.
  pose proof (pop_off_ok (locks c)) as H. rewrite <- surjective_cstate in H. exact H.
Qed.
End specs.

Lemma taken_free l l' c : l ≠ l' → lock_free l' c → lock_free l' (taken l c).
Proof. intros Hne [name Hl]. exists name. cbn. by rewrite lookup_insert_ne. Qed.

Lemma pushed_free l c : lock_free l c → lock_free l (pushed c).
Proof. by intros [name ?]; exists name. Qed.

(** The kernel-level forms. *)
Lemma k_acquire n l s :
  cs_ok n (cs s) → lock_free l (cs s) →
  lift_cs (acquire l) s = Ret tt (set_cs (taken l (cs s)) s).
Proof. intros Hc Hl. unfold lift_cs. by rewrite (acquire_ok Hc l Hl). Qed.

Lemma k_release n l c s :
  cs_ok n c → lock_free l c → cs s = taken l c →
  lift_cs (release l) s = Ret tt (set_cs c s).
Proof. intros Hc Hl Hs. unfold lift_cs. by rewrite Hs, (release_ok Hc l Hl). Qed.

Lemma wp_acquire n l Q s :
  cs_ok n (cs s) → lock_free l (cs s) →
  Q tt (set_cs (taken l (cs s)) s) → wp (lift_cs (acquire l)) Q s.
Proof. intros Hc Hl HQ. eapply wp_eq; [by eapply k_acquire|done]. Qed.

Lemma wp_release n l c Q s :
  cs_ok n c → lock_free l c → cs s = taken l c →
  Q tt (set_cs c s) → wp (lift_cs (release l)) Q s.
Proof. intros Hc Hl Hs HQ. eapply wp_eq; [by eapply k_release|done]. Qed.

(** ** All harts: the lock's memory accesses interleaved

    One lock, every cpu running acquire ... release on it. A step is one access to
    the lock's memory: the atomic swap of [acquire], the write of [lk->cpu], and the
    two writes of [release]. *)

Inductive smp_pc :=
  | P_out      (** outside *)
  | P_spin     (** in the loop of [acquire], before the swap *)
  | P_got      (** the swap returned 0, [lk->cpu] not yet written *)
  | P_crit     (** [acquire] has returned *)
  | P_rel      (** in [release], [lk->cpu] cleared *)
  | P_panic.   (** a panic in [acquire] or [release] *)

Record smp := Mk_smp { sm_locked : Z; sm_cpu : option Z; sm_pc : Z → smp_pc }.

Definition smp_holding (st : smp) (c : Z) : bool :=
  c_bool (sm_locked st) && bool_decide (sm_cpu st = Some c).

Definition goto (st : smp) (c : Z) (pc : smp_pc) : Z → smp_pc :=
  λ c', if decide (c' = c) then pc else sm_pc st c'.

Inductive smp_step (st : smp) : smp → Prop :=
  | step_acquire c :
      sm_pc st c = P_out → smp_holding st c = false →
      smp_step st (Mk_smp (sm_locked st) (sm_cpu st) (goto st c P_spin))
  | step_acquire_panic c :
      sm_pc st c = P_out → smp_holding st c = true →
      smp_step st (Mk_smp (sm_locked st) (sm_cpu st) (goto st c P_panic))
  | step_swap_busy c :
      sm_pc st c = P_spin → sm_locked st ≠ 0 →
      smp_step st (Mk_smp 1 (sm_cpu st) (sm_pc st))
  | step_swap_free c :
      sm_pc st c = P_spin → sm_locked st = 0 →
      smp_step st (Mk_smp 1 (sm_cpu st) (goto st c P_got))
  | step_set_cpu c :
      sm_pc st c = P_got →
      smp_step st (Mk_smp (sm_locked st) (Some c) (goto st c P_crit))
  | step_clear_cpu c :
      sm_pc st c = P_crit → smp_holding st c = true →
      smp_step st (Mk_smp (sm_locked st) None (goto st c P_rel))
  | step_release_panic c :
      sm_pc st c = P_crit → smp_holding st c = false →
      smp_step st (Mk_smp (sm_locked st) (sm_cpu st) (goto st c P_panic))
  | step_unlock c :
      sm_pc st c = P_rel →
      smp_step st (Mk_smp 0 (sm_cpu st) (goto st c P_out)).

(** After [initlock]. *)
Definition smp_init : smp := Mk_smp 0 None (λ _, P_out).

(** Between the successful swap and the unlocking write. *)
Definition smp_owner (pc : smp_pc) : bool :=
  match pc with P_got | P_crit | P_rel => true | _ => false end.

(** The invariant: an owner, if any, is the only one and sees the lock as it left it. *)
Definition smp_inv (st : smp) : Prop :=
  (∀ c, sm_pc st c ≠ P_panic) ∧
  ((sm_locked st = 0 ∧ sm_cpu st = None ∧ ∀ c, smp_owner (sm_pc st c) = false) ∨
   (∃ o, sm_locked st = 1 ∧ smp_owner (sm_pc st o) = true ∧
      (∀ c, c ≠ o → smp_owner (sm_pc st c) = false) ∧
      sm_cpu st = match sm_pc st o with P_crit => Some o | _ => None end)).

Lemma smp_inv_holding st c : smp_inv st → smp_holding st c = true ↔ sm_pc st c = P_crit.
Proof.
  intros [_ [(Hl & Hc & Ho)|(o & Hl & Ho & Hu & Hc)]]; unfold smp_holding; rewrite Hl, Hc; simpl.
  - split; [done|]. intros E. specialize (Ho c). by rewrite E in Ho.
  - rewrite bool_decide_eq_true. destruct (decide (c = o)) as [->|Hne].
    + by destruct (sm_pc st o).
    + specialize (Hu c Hne). split.
      * destruct (sm_pc st o); congruence.
      * intros E. by rewrite E in Hu.
Qed.

Lemma goto_eq st c pc : goto st c pc c = pc.
Proof. unfold goto. by rewrite decide_True. Qed.
Lemma goto_ne st c pc c' : c' ≠ c → goto st c pc c' = sm_pc st c'.
Proof. intros. unfold goto. by rewrite decide_False. Qed.

Ltac smp_cases c := intros c';
  destruct (decide (c' = c)) as [->|]; [rewrite ?goto_eq|rewrite ?goto_ne by done]; eauto.

Lemma smp_step_inv st st' : smp_inv st → smp_step st st' → smp_inv st'.
Proof.
  intros Hinv Hstep. pose proof (λ c, smp_inv_holding st c Hinv) as Hh.
  destruct Hinv as [Hp Hinv].
  destruct Hstep as [c Hpc Hhold|c Hpc Hhold|c Hpc Hl|c Hpc Hl|c Hpc|c Hpc Hhold|c Hpc Hhold|c Hpc];
    try (apply Hh in Hhold; congruence);
    try (pose proof (proj2 (Hh c) Hpc); congruence);
    (split; cbn -[goto]; [smp_cases c|]); try done;
    destruct Hinv as [(HL & HC & Ho)|(o & HL & Ho & Hu & HC)];
    try (specialize (Ho c); rewrite Hpc in Ho; done);
    try (assert (o ≠ c) by (intros ->; by rewrite Hpc in Ho));
    try (assert (o = c) as -> by
      (destruct (decide (c = o)); [done|]; specialize (Hu c ltac:(done)); by rewrite Hpc in Hu)).
  - left. split_and!; [done..|]. smp_cases c.
  - right. exists o. rewrite goto_ne by done. split_and!; try done. smp_cases c.
  - right. exists o. by split_and!.
  - right. exists c. rewrite goto_eq. split_and!; try done. intros c' Hne. by rewrite goto_ne.
  - congruence.
  - right. exists c. rewrite goto_eq. split_and!; try done.
    intros c' Hne. rewrite goto_ne by done. auto.
  - right. exists c. rewrite goto_eq. split_and!; try done.
    intros c' Hne. rewrite goto_ne by done. auto.
  - left. rewrite Hpc in HC. split_and!; try done. smp_cases c.
Qed.

Lemma smp_reachable_inv st : rtc smp_step smp_init st → smp_inv st.
Proof.
  intros H. remember smp_init as s0 eqn:E.
  assert (smp_inv s0) as H0. { subst. split; [done|]. left. done. }
  clear E. induction H; eauto using smp_step_inv.
Qed.

(** ** Nesting of push_off and pop_off *)

Fixpoint times {S} (k : nat) (m : M S unit) : M S unit :=
  match k with O => mret tt | S k' => m;; times k' m end.

Fixpoint pushed_n (k : nat) (c : cstate) : cstate :=
  match k with O => c | S k' => pushed_n k' (pushed c) end.

Lemma pushed_n_comm k c : pushed_n k (pushed c) = pushed (pushed_n k c).
Proof. revert c. induction k as [|k IH]; intros c; simpl; [done|]. by rewrite IH. Qed.

Lemma pushed_n_ok k n c :
  cs_ok n c → n + Z.of_nat k < 2 ^ 31 - 1 → cs_ok (n + Z.of_nat k) (pushed_n k c).
Proof.
  revert n c. induction k as [|k IH]; intros n c Hc Hn; cbn [pushed_n].
  - by rewrite Z.add_0_r.
  - replace (n + Z.of_nat (S k)) with ((n + 1) + Z.of_nat k) by lia.
    apply IH; [|lia]. apply pushed_ok; [done|lia].
Qed.

Lemma push_offs k n c :
  cs_ok n c → n + Z.of_nat k < 2 ^ 31 - 1 → times k push_off c = Ret tt (pushed_n k c).
Proof.
  revert n c. induction k as [|k IH]; intros n c Hc Hn; [done|]. cbn [times pushed_n].
  rewrite (bind_ret _ _ _ _ _ (push_off_ok Hc)). apply (IH (n + 1)); [|lia].
  apply pushed_ok; [done|lia].
Qed.

Lemma pop_offs j k n c :
  cs_ok n c → n + Z.of_nat (j + k) < 2 ^ 31 - 1 →
  times j pop_off (pushed_n (j + k) c) = Ret tt (pushed_n k c).
Proof.
  intros Hc. induction j as [|j IH]; intros Hn; [done|]. cbn [times pushed_n Nat.add].
  rewrite pushed_n_comm.
  assert (cs_ok (n + Z.of_nat (j + k)) (pushed_n (j + k) c)) as Hj by (apply pushed_n_ok; [done|lia]).
  pose proof (pop_off_ok Hj (locks (pushed_n (j + k) c))) as Hp.
  rewrite <- surjective_cstate in Hp.
  erewrite bind_ret; [|exact Hp]. apply IH. lia.
Qed.

(** * Properties *)

(** C19. Mutual exclusion of spinlocks on any number of harts: in every reachable
    interleaving of acquire and release, at most one cpu is between its successful
    swap and its unlocking write; [holding] answers true exactly on the cpu whose
    acquire has returned; and neither acquire nor release panics. *)
Theorem spinlock_mutual_exclusion st :
  rtc smp_step smp_init st →
  (∀ c1 c2, smp_owner (sm_pc st c1) = true → smp_owner (sm_pc st c2) = true → c1 = c2) ∧
  (∀ c, smp_holding st c = true ↔ sm_pc st c = P_crit) ∧
  (∀ c, sm_pc st c ≠ P_panic).
Proof.
  intros H%smp_reachable_inv. split_and!.
  - intros c1 c2 H1 H2. destruct H as [_ [(_ & _ & Ho)|(o & _ & _ & Hu & _)]].
    + by rewrite Ho in H1.
    + destruct (decide (c1 = o)) as [->|N1]; [|by rewrite Hu in H1].
      destruct (decide (c2 = o)) as [->|N2]; [done|by rewrite Hu in H2].
  - intros c. by apply smp_inv_holding.
  - apply H.
Qed.

(** Hart 0 has the lock, hart 1 spins. *)
Definition smp_ex : smp :=
  let s1 := Mk_smp 0 None (goto smp_init 0 P_spin) in
  let s2 := Mk_smp 1 None (goto s1 0 P_got) in
  let s3 := Mk_smp 1 (Some 0) (goto s2 0 P_crit) in
  Mk_smp 1 (Some 0) (goto s3 1 P_spin).

Lemma spinlock_mutual_exclusion_witness :
  rtc smp_step smp_init smp_ex ∧ smp_holding smp_ex 0 = true ∧ sm_pc smp_ex 1 = P_spin ∧
  (∀ c1 c2, smp_owner (sm_pc smp_ex c1) = true → smp_owner (sm_pc smp_ex c2) = true → c1 = c2).
Proof.
  assert (rtc smp_step smp_init smp_ex) as R.
  { eapply rtc_l; [by eapply (step_acquire _ 0)|].
    eapply rtc_l; [by eapply (step_swap_free _ 0)|].
    eapply rtc_l; [by eapply (step_set_cpu _ 0)|].
    eapply rtc_l; [by eapply (step_acquire _ 1)|]. apply rtc_refl. }
  split; [exact R|]. split; [reflexivity|]. split; [reflexivity|].
  exact (proj1 (spinlock_mutual_exclusion smp_ex R)).
Defined.

(** push_off and pop_off match: after [k] push_offs, interrupts are off and
    stay off through any [j < k] pop_offs, and the [k]th pop_off restores exactly
    the interrupt state and nesting depth there was before, whatever they were. *)
Theorem push_off_pop_off_nest n k c :
  cs_ok n c → n + Z.of_nat k < 2 ^ 31 - 1 →
  (times k push_off;; times k pop_off) c = Ret tt c ∧
  (∀ j, (j < k)%nat → ∃ c', (times k push_off;; times j pop_off) c = Ret tt c' ∧
     sie_on c' = false ∧ noff (cur_cpu c') = n + Z.of_nat (k - j)).
Proof.
  intros Hc Hn. pose proof (push_offs k n c Hc Hn) as Hp. split.
  - rewrite (bind_ret _ _ _ _ _ Hp). pose proof (pop_offs k 0 n c Hc) as H.
    rewrite Nat.add_0_r in H. by apply H.
  - intros j Hj. exists (pushed_n (k - j) c).
    assert (cs_ok (n + Z.of_nat (k - j)) (pushed_n (k - j) c)) as Hok
      by (apply pushed_n_ok; [done|lia]).
    split_and!.
    + rewrite (bind_ret _ _ _ _ _ Hp). replace k with (j + (k - j))%nat at 1 by lia.
      apply (pop_offs j (k - j) n c Hc). lia.
    + apply (cs_inside _ _ Hok). pose proof (cs_depth _ _ Hc). lia.
    + apply (cs_noff _ _ Hok).
Qed.

(** Hart 3 with interrupts enabled, outside of any [push_off]. *)
Definition cs_ex : cstate :=
  {| locks := ∅; cpus := replicate 8 (Mk_cpu None context0 0 1); tp := 3; sstatus := 2 |}.

Lemma cs_ex_ok : cs_ok 0 cs_ex.
Proof. split; try reflexivity; try done; vm_compute; split; congruence. Qed.

Lemma push_off_pop_off_nest_witness :
  sie_on cs_ex = true ∧ (times 3 push_off;; times 3 pop_off) cs_ex = Ret tt cs_ex ∧
  (∃ c', (times 3 push_off;; times 2 pop_off) cs_ex = Ret tt c' ∧ sie_on c' = false).
Proof.
  destruct (push_off_pop_off_nest 0 3 cs_ex cs_ex_ok ltac:(lia)) as [H1 H2].
  split; [reflexivity|]. split; [exact H1|].
  destruct (H2 2%nat ltac:(lia)) as (c' & E & S' & _). exists c'. split; [exact E|exact S'].
Defined.
