(* ===== verification/KString.v ===== *)
(** * kernel/string.c

    The functions that write do it in physical memory; the ones that only read
    take the strings as functions from an offset to the byte there, so that they
    serve for memory and for the kernel's own buffers alike. [strncpy] and
    [safestrcpy] are given by the bytes they store at s[0], s[1], ... *)

From S2P Require Import Prelude Machine State.

(** A C string: the byte at each offset of a pointer. *)
Abbreviation cstr := (Z → Z).

(** The bytes at a physical address, and those of a buffer (0 beyond its end). *)
Definition at_mem (m : mem) (p : Z) : cstr := λ i, rd m (p + i).
Definition at_list (l : list Z) : cstr := λ i, nthZ 0 l i.

Fixpoint memset_loop (k : nat) (i : Z) (m : mem) (dst c : Z) : mem :=
  match k with
  | O => m
  | S k' => memset_loop k' (i + 1) (wr m (dst + i) c) dst c
  end.
Definition memset (m : mem) (dst c n : Z) : mem := memset_loop (Z.to_nat (u32 n)) 0 m dst c.

Fixpoint memcmp_loop (n : nat) (s1 s2 : cstr) (i : Z) : Z :=
  match n with
  | O => 0
  | S n' => if negb (s1 i =? s2 i) then s1 i - s2 i else memcmp_loop n' s1 s2 (i + 1)
  end.
Definition memcmp (v1 v2 : cstr) (n : Z) : Z := memcmp_loop (Z.to_nat (u32 n)) v1 v2 0.

(** [while(n-- > 0) *--d = *--s;] *)
Fixpoint memmove_down (n : nat) (m : mem) (d s : Z) : mem :=
  match n with
  | O => m
  | S n' => memmove_down n' (wr m (d - 1) (rd m (s - 1))) (d - 1) (s - 1)
  end.
(** [while(n-- > 0) *d++ = *s++;] *)
Fixpoint memmove_up (n : nat) (m : mem) (d s : Z) : mem :=
  match n with
  | O => m
  | S n' => memmove_up n' (wr m d (rd m s)) (d + 1) (s + 1)
  end.
Definition memmove (m : mem) (dst src n : Z) : mem :=
  let n := u32 n in
  if n =? 0 then m
  else if (src <? dst) && (dst <? src + n)
  then memmove_down (Z.to_nat n) m (dst + n) (src + n)
  else memmove_up (Z.to_nat n) m dst src.

Definition memcpy (m : mem) (dst src n : Z) : mem := memmove m dst src n.

Fixpoint strncmp_loop (n : nat) (p q : cstr) (i : Z) : Z :=
  match n with
  | O => 0
  | S n' =>
      if c_bool (p i) && (p i =? q i) then strncmp_loop n' p q (i + 1)
      else u8 (p i) - u8 (q i)
  end.
Definition strncmp (p q : cstr) (n : Z) : Z := strncmp_loop (Z.to_nat (u32 n)) p q 0.

Fixpoint strncpy_loop (n : nat) (t : cstr) (i : Z) : list Z :=
  match n with
  | O => []
  | S n' => if t i =? 0 then 0 :: replicate n' 0 else t i :: strncpy_loop n' t (i + 1)
  end.
Definition strncpy (t : cstr) (n : Z) : list Z := strncpy_loop (Z.to_nat n) t 0.

(** The loop [while(--n > 0 && ( *s++ = *t++ ) != 0)] followed by [*s = 0];
    [k] is the value of n after the first decrement. *)
Fixpoint safestrcpy_loop (k : nat) (t : cstr) (i : Z) : list Z :=
  match k with
  | O => [0]
  | S k' => if t i =? 0 then [0; 0] else t i :: safestrcpy_loop k' t (i + 1)
  end.
Definition safestrcpy (t : cstr) (n : Z) : list Z :=
  if n <=? 0 then [] else safestrcpy_loop (Z.to_nat (n - 1)) t 0.

(** [fuel] bounds the search; [None] if there is no NUL among that many bytes. *)
Fixpoint strlen_loop (fuel : nat) (s : cstr) (n : Z) : option Z :=
  match fuel with
  | O => None
  | S f => if s n =? 0 then Some n else strlen_loop f s (n + 1)
  end.
Definition strlen (fuel : nat) (s : cstr) : option Z := strlen_loop fuel s 0.

(** Stores into the kernel's memory. *)
Definition k_memset (dst c n : Z) : K unit := modify (λ s, set_pmem (memset (pmem s) dst c n) s).
Definition k_memmove (dst src n : Z) : K unit :=
  modify (λ s, set_pmem (memmove (pmem s) dst src n) s).

(** ** Lemmas *)

Lemma rd_memset_loop k i m dst c x :
  rd (memset_loop k i m dst c) x =
    if decide (dst + i ≤ x < dst + i + Z.of_nat k) then u8 c else rd m x.
Proof.
  revert i m. induction k as [|k IH]; intros i m; cbn [memset_loop].
  - rewrite decide_False by lia. done.
  - rewrite IH, rd_wr. repeat case_decide; try done; lia.
Qed.

Lemma rd_memset m dst c n x :
  0 ≤ n < 2 ^ 32 →
  rd (memset m dst c n) x = if decide (dst ≤ x < dst + n) then u8 c else rd m x.
Proof.
  intros Hn. unfold memset. rewrite rd_memset_loop, u32_small by lia.
  repeat case_decide; try done; lia.
Qed.

Lemma memset_ok m dst c n : mem_ok m → mem_ok (memset m dst c n).
Proof.
  intros H x. unfold memset. rewrite rd_memset_loop. case_decide; [apply u8_range|apply H].
Qed.

Lemma rd_memmove_up n m d s x :
  mem_ok m → d ≤ s ∨ s + Z.of_nat n ≤ d →
  rd (memmove_up n m d s) x =
    if decide (d ≤ x < d + Z.of_nat n) then rd m (s + (x - d)) else rd m x.
Proof.
  revert m d s. induction n as [|n IH]; intros m d s Hm Hds; cbn [memmove_up].
  - rewrite decide_False by lia. done.
  - rewrite IH by (first [by apply wr_ok | lia]). rewrite !rd_wr.
    rewrite (u8_small (rd m s)) by apply Hm.
    repeat case_decide; try lia; try done; try (f_equal; lia).
Qed.

Lemma rd_memmove_down n m d s x :
  mem_ok m → s ≤ d →
  rd (memmove_down n m d s) x =
    if decide (d - Z.of_nat n ≤ x < d) then rd m (s + (x - d)) else rd m x.
Proof.
  revert m d s. induction n as [|n IH]; intros m d s Hm Hds; cbn [memmove_down].
  - rewrite decide_False by lia. done.
  - rewrite IH by (first [by apply wr_ok | lia]). rewrite !rd_wr.
    rewrite (u8_small (rd m _)) by apply Hm.
    repeat case_decide; try lia; try done; try (f_equal; lia).
Qed.

(** The bytes of the source as they were, whatever the overlap. *)
Lemma rd_memmove m dst src n x :
  mem_ok m → 0 ≤ n < 2 ^ 32 →
  rd (memmove m dst src n) x =
    if decide (dst ≤ x < dst + n) then rd m (src + (x - dst)) else rd m x.
Proof.
  intros Hm Hn. unfold memmove. rewrite u32_small by lia.
  destruct (Z.eqb_spec n 0) as [->|Hn0].
  - rewrite decide_False by lia. done.
  - destruct (Z.ltb_spec src dst), (Z.ltb_spec dst (src + n)); cbn [andb].
    1: rewrite rd_memmove_down by (done || lia).
    2-4: rewrite rd_memmove_up by (done || lia).
    all: repeat case_decide; try lia; try done; f_equal; lia.
Qed.

Lemma memmove_ok m dst src n : mem_ok m → 0 ≤ n < 2 ^ 32 → mem_ok (memmove m dst src n).
Proof. intros Hm Hn x. rewrite rd_memmove by done. case_decide; apply Hm. Qed.

Lemma strncpy_length t n : 0 ≤ n → length (strncpy t n) = Z.to_nat n.
Proof.
  intros _. unfold strncpy. generalize 0 as i. induction (Z.to_nat n) as [|k IH]; intros i; [done|].
  cbn [strncpy_loop]. case_match; cbn [length]; [by rewrite length_replicate|by rewrite IH].
Qed.

Lemma strncmp_loop_zero n p q i :
  (∀ j, 0 ≤ p j < 256) → (∀ j, 0 ≤ q j < 256) →
  strncmp_loop n p q i = 0 ↔
    ∃ k, (k ≤ n)%nat ∧ (∀ j, i ≤ j < i + Z.of_nat k → p j = q j ∧ p j ≠ 0) ∧
      (k = n ∨ (p (i + Z.of_nat k) = 0 ∧ q (i + Z.of_nat k) = 0)).
Proof.
  intros Hp Hq. revert i. induction n as [|n IH]; intros i; cbn [strncmp_loop].
  - split; [|done]. intros _. exists 0%nat. split; [lia|]. split; [lia|by left].
  - unfold c_bool. destruct (Z.eqb_spec (p i) 0) as [E0|E0]; cbn [negb andb].
    + rewrite !u8_small by auto. rewrite E0. split.
      * intros H. exists 0%nat. split; [lia|]. split; [lia|]. right.
        rewrite Z.add_0_r. lia.
      * intros (k & Hk & Hall & Hend). destruct k as [|k].
        { destruct Hend as [|[_ Hq0]]; [lia|]. rewrite Z.add_0_r in Hq0. lia. }
        destruct (Hall i ltac:(lia)). congruence.
    + destruct (Z.eqb_spec (p i) (q i)) as [E|E].
      * rewrite IH. split.
        { intros (k & Hk & Hall & Hend). exists (S k). split; [lia|]. split.
          - intros j Hj. destruct (decide (j = i)) as [->|]; [done|]. apply Hall. lia.
          - destruct Hend as [->|Hend]; [by left|right].
            replace (i + Z.of_nat (S k)) with (i + 1 + Z.of_nat k) by lia. done. }
        { intros (k & Hk & Hall & Hend). destruct k as [|k].
          - destruct Hend as [|[Hz _]]; [lia|]. rewrite Z.add_0_r in Hz. done.
          - exists k. split; [lia|]. split; [intros j Hj; apply Hall; lia|].
            destruct Hend as [|Hend]; [left; lia|right].
            replace (i + 1 + Z.of_nat k) with (i + Z.of_nat (S k)) by lia. done. }
      * rewrite !u8_small by auto. split; [lia|].
        intros (k & Hk & Hall & Hend). destruct k as [|k].
        { destruct Hend as [|[Hz _]]; [lia|]. rewrite Z.add_0_r in Hz. done. }
        destruct (Hall i ltac:(lia)). done.
Qed.

Lemma strlen_loop_spec fuel s n k :
  n ≤ k → (∀ j, n ≤ j < k → s j ≠ 0) → s k = 0 → k - n < Z.of_nat fuel →
  strlen_loop fuel s n = Some k.
Proof.
  revert n. induction fuel as [|f IH]; intros n Hnk Hall H0 Hf; [lia|]. cbn [strlen_loop].
  destruct (Z.eqb_spec (s n) 0) as [E|E].
  - f_equal. destruct (decide (n = k)); [done|]. by destruct (Hall n ltac:(lia)).
  - apply IH; [|intros; apply Hall; lia|done|lia].
    destruct (decide (n = k)) as [->|]; [done|lia].
Qed.

Lemma safestrcpy_loop_spec k t i :
  let bs := safestrcpy_loop k t i in
  (1 ≤ length bs ≤ S k)%nat ∧
  ∃ c, (c ≤ k)%nat ∧ (c < length bs)%nat ∧ bs !! c = Some 0 ∧
    (∀ j, (j < c)%nat → bs !! j = Some (t (i + Z.of_nat j)) ∧ t (i + Z.of_nat j) ≠ 0) ∧
    (c = k ∨ t (i + Z.of_nat c) = 0).
Proof.
  revert i. induction k as [|k IH]; intros i; cbn [safestrcpy_loop].
  - split; [simpl; lia|]. exists 0%nat. simpl. split_and!; try lia; try done; by left.
  - destruct (Z.eqb_spec (t i) 0) as [E|E].
    + split; [simpl; lia|]. exists 0%nat. simpl. rewrite Z.add_0_r. split_and!; try lia; try done; by right.
    + destruct (IH (i + 1)) as [Hlen (c & Hc & Hcl & H0 & Hall & Hend)].
      split; [cbn [length]; lia|]. exists (S c). cbn [length]. split_and!; try lia; try done.
      * intros [|j] Hj.
        { rewrite Z.add_0_r. done. }
        replace (i + Z.of_nat (S j)) with (i + 1 + Z.of_nat j) by lia. apply (Hall j). lia.
      * destruct Hend as [->|Hend]; [by left|right].
        by replace (i + Z.of_nat (S c)) with (i + 1 + Z.of_nat c) by lia.
Qed.

Global Opaque memset memmove.

(** * Properties *)

(** memmove copies the source as it was before the call, for every overlap of
    the two ranges, and changes no other byte. *)
Theorem memmove_correct m dst src n x :
  mem_ok m → 0 ≤ n < 2 ^ 32 →
  rd (memmove m dst src n) x =
    if decide (dst ≤ x < dst + n) then rd m (src + (x - dst)) else rd m x.
Proof. apply rd_memmove. Qed.

(** The bytes 1..6 at 100, moved two up over themselves. *)
Lemma memmove_correct_witness :
  let m := blit ∅ 100 [1; 2; 3; 4; 5; 6] in
  rdn (memmove m 102 100 6) 100 8 = [1; 2; 1; 2; 3; 4; 5; 6] ∧
  rd (memmove m 102 100 6) 107 = 6.
Proof.
  intros m. split; [vm_compute; reflexivity|]. unfold m.
  rewrite (memmove_correct (blit ∅ 100 [1; 2; 3; 4; 5; 6]) 102 100 6 107).
  - vm_compute. reflexivity.
  - apply blit_ok. intros a. vm_compute. split; congruence.
  - lia.
Defined.

(** strncmp of two byte strings is 0 exactly when they agree up to a common NUL
    or on all of the first n bytes: it never looks past a NUL or past n. *)
Theorem strncmp_zero p q n :
  (∀ j, 0 ≤ p j < 256) → (∀ j, 0 ≤ q j < 256) → 0 ≤ n < 2 ^ 32 →
  strncmp p q n = 0 ↔
    ∃ k, 0 ≤ k ≤ n ∧ (∀ j, 0 ≤ j < k → p j = q j ∧ p j ≠ 0) ∧
      (k = n ∨ (p k = 0 ∧ q k = 0)).
Proof.
  intros Hp Hq Hn. unfold strncmp. rewrite u32_small by lia.
  rewrite strncmp_loop_zero by done. split.
  - intros (k & Hk & Hall & Hend). exists (Z.of_nat k).
    split; [lia|]. split; [intros; apply Hall; lia|]. destruct Hend; [left; lia|by right].
  - intros (k & Hk & Hall & Hend). exists (Z.to_nat k).
    split; [lia|]. split; [intros; apply Hall; lia|].
    destruct Hend; [left; lia|right]. by rewrite Z2Nat.id, Z.add_0_l by lia.
Qed.

Lemma strncmp_zero_witness :
  strncmp (at_list [97; 98; 0; 7]) (at_list [97; 98; 0; 9]) 14 = 0 ∧
  ∃ k, 0 ≤ k ≤ 14 ∧ (∀ j, 0 ≤ j < k → at_list [97; 98; 0; 7] j = at_list [97; 98; 0; 9] j ∧
    at_list [97; 98; 0; 7] j ≠ 0) ∧
    (k = 14 ∨ (at_list [97; 98; 0; 7] k = 0 ∧ at_list [97; 98; 0; 9] k = 0)).
Proof.
  assert (∀ l, Forall (λ b, 0 ≤ b < 256) l → ∀ j, 0 ≤ at_list l j < 256) as R.
  { intros l Hl j. unfold at_list, nthZ. case_decide; [|lia].
    rewrite nth_lookup. destruct (l !! Z.to_nat j) eqn:E; simpl; [|lia].
    exact (Forall_lookup_1 _ _ _ _ Hl E). }
  split; [vm_compute; reflexivity|].
  apply (strncmp_zero (at_list [97; 98; 0; 7]) (at_list [97; 98; 0; 9]) 14).
  - apply R. repeat constructor; lia.
  - apply R. repeat constructor; lia.
  - lia.
  - vm_compute. reflexivity.
Defined.

(** safestrcpy with n > 0 stores at most n bytes, copies the source up to its
    NUL or to n-1 bytes, and the copy is always NUL-terminated inside the buffer. *)
Theorem safestrcpy_correct t n :
  0 < n →
  let bs := safestrcpy t n in
  1 ≤ Z.of_nat (length bs) ≤ n ∧
  ∃ c, 0 ≤ c < n ∧ bs !! Z.to_nat c = Some 0 ∧
    (∀ j, 0 ≤ j < c → bs !! Z.to_nat j = Some (t j) ∧ t j ≠ 0) ∧
    (c = n - 1 ∨ t c = 0).
Proof.
  intros Hn bs. unfold bs, safestrcpy. rewrite (proj2 (Z.leb_gt n 0)) by lia.
  destruct (safestrcpy_loop_spec (Z.to_nat (n - 1)) t 0) as [Hl (c & Hc & Hcl & H0 & Hall & Hend)].
  split; [lia|]. exists (Z.of_nat c). rewrite Nat2Z.id. split; [lia|]. split; [done|]. split.
  - intros j Hj. destruct (Hall (Z.to_nat j) ltac:(lia)) as [H1 H2].
    rewrite Z2Nat.id, Z.add_0_l in H1, H2 by lia. done.
  - destruct Hend as [->|]; [left; lia|by right].
Qed.

Lemma safestrcpy_correct_witness :
  safestrcpy (at_list (bytes_of_string "initcode")) 5 = bytes_of_string "init" ++ [0] ∧
  1 ≤ Z.of_nat (length (safestrcpy (at_list (bytes_of_string "initcode")) 5)) ≤ 5.
Proof.
  split; [vm_compute; reflexivity|].
  exact (proj1 (safestrcpy_correct (at_list (bytes_of_string "initcode")) 5 ltac:(lia))).
Defined.
