(* ===== verification/Kalloc.v ===== *)
(** * The physical page allocator: kernel/kalloc.c

    The free list is threaded through the free pages themselves, in physical
    memory. [kmem_ok s l] says that the list of free pages is [l]; the operations
    then act on [l] like on a stack. *)

From S2P Require Import Prelude Machine State Spinlock KString.

Section kalloc.
Context `{L : Layout}.

Definition kfree (pa : Z) : K unit :=
  if negb (u64 pa mod PGSIZE =? 0) || (pa <? kend) || (PHYSTOP <=? pa) then panic "kfree"
  else
    (* Fill with junk to catch dangling refs. *)
    k_memset pa 1 PGSIZE;;
    lift_cs (acquire L_kmem);;
    r ← gets freelist;
    modify (λ s, set_pmem (store64 (pmem s) pa r) s);;
    modify (set_freelist pa);;
    lift_cs (release L_kmem).

(** [for(; p + PGSIZE <= pa_end; p += PGSIZE) kfree(p);] *)
Fixpoint freerange_loop (fuel : nat) (p pa_end : Z) : K unit :=
  match fuel with
  | O => hang
  | S f =>
      if p + PGSIZE <=? pa_end then kfree p;; freerange_loop f (p + PGSIZE) pa_end
      else mret tt
  end.
Definition freerange (pa_start pa_end : Z) : K unit :=
  freerange_loop (S (Z.to_nat ((pa_end - PGROUNDUP pa_start) / PGSIZE))) (PGROUNDUP pa_start) pa_end.

Definition kinit : K unit :=
  lift_cs (initlock L_kmem "kmem");;
  freerange kend PHYSTOP.

Definition kalloc : K Z :=
  lift_cs (acquire L_kmem);;
  r ← gets freelist;
  when (c_bool r) (modify (λ s, set_freelist (load64 (pmem s) r) s));;
  lift_cs (release L_kmem);;
  when (c_bool r) (k_memset r 5 PGSIZE);;
  mret r.

(** [while(r) { total_freemem += PGSIZE; r = r->next; }] *)
Fixpoint count_loop (fuel : nat) (r total : Z) : K Z :=
  match fuel with
  | O => hang
  | S f =>
      if c_bool r
      then r' ← gets (λ s, load64 (pmem s) r); count_loop f r' (u64 (total + PGSIZE))
      else mret total
  end.

(** One more than the number of pages of RAM. *)
Definition count_fuel : nat := S (Z.to_nat ((PHYSTOP - KERNBASE) / PGSIZE)).

Definition count_freemmem : K Z :=
  lift_cs (acquire L_kmem);;
  r ← gets freelist;
  total ← count_loop count_fuel r 0;
  lift_cs (release L_kmem);;
  mret total.

(** ** Invariant *)

(** A page that the allocator may hand out. *)
Definition page_ok (p : Z) : Prop := p mod PGSIZE = 0 ∧ kend ≤ p < PHYSTOP.

(** [l] is the list of pages linked from [r]. *)
Fixpoint fl_rep (m : mem) (r : Z) (l : list Z) : Prop :=
  match l with
  | [] => r = 0
  | p :: l' => r = p ∧ fl_rep m (load64 m p) l'
  end.

Record kmem_ok (s : kstate) (l : list Z) : Prop := {
  km_rep : fl_rep (pmem s) (freelist s) l;
  km_nodup : NoDup l;
  km_pages : Forall page_ok l;
  km_bytes : mem_ok (pmem s);
}.

(** What the allocator needs of the rest of the kernel. *)
Definition can_lock (n : Z) (l : lockid) (s : kstate) : Prop :=
  cs_ok n (cs s) ∧ lock_free l (cs s).

(** The page that contains an address, and agreement of memories on some pages. *)
Definition pg (x : Z) : Z := x - x mod PGSIZE.
Definition agree (P : Z → Prop) (m m' : mem) : Prop := ∀ x, P (pg x) → rd m x = rd m' x.

(** ** Lemmas *)

Lemma page_range p : page_ok p → 0 < p < 2 ^ 32.
Proof.
  intros [_ H]. pose proof trampoline_text. pose proof kend_after. pose proof kend_ram. klia.
Qed.

Lemma page_disjoint p q :
  p mod PGSIZE = 0 → q mod PGSIZE = 0 → p ≠ q → p + PGSIZE ≤ q ∨ q + PGSIZE ≤ p.
Proof. unfold PGSIZE. intros. dlia. Qed.

Lemma pg_in p x : p mod PGSIZE = 0 → p ≤ x < p + PGSIZE → pg x = p.
Proof. unfold pg, PGSIZE. intros. dlia. Qed.

Lemma pg_bounds x : pg x ≤ x < pg x + PGSIZE.
Proof. unfold pg, PGSIZE. dlia. Qed.

Lemma pg_aligned x : pg x mod PGSIZE = 0.
Proof. unfold pg, PGSIZE. dlia. Qed.

Lemma agree_refl P m : agree P m m.
Proof. done. Qed.
Lemma agree_trans P m1 m2 m3 : agree P m1 m2 → agree P m2 m3 → agree P m1 m3.
Proof. intros H1 H2 x Hx. by rewrite H1, H2. Qed.
Lemma agree_sym P m1 m2 : agree P m1 m2 → agree P m2 m1.
Proof. intros H x Hx. by rewrite H. Qed.
Lemma agree_mono (P Q : Z → Prop) m m' : agree Q m m' → (∀ p, P p → Q p) → agree P m m'.
Proof. intros H HPQ x Hx. apply H, HPQ, Hx. Qed.

Lemma agree_load64 P m m' p a :
  agree P m m' → P p → p mod PGSIZE = 0 → p ≤ a → a + 8 ≤ p + PGSIZE →
  load64 m a = load64 m' a.
Proof.
  intros H Hp Hal H1 H2. apply load64_ext. intros x Hx. apply H.
  rewrite (pg_in p); [done|done|lia].
Qed.

Lemma agree_memset m p c : p mod PGSIZE = 0 → agree (λ q, q ≠ p) (memset m p c PGSIZE) m.
Proof.
  intros Hal x Hx. rewrite rd_memset by klia. rewrite decide_False; [done|].
  intros H. apply Hx. by apply pg_in.
Qed.

Lemma agree_store64 m p a v :
  p mod PGSIZE = 0 → p ≤ a → a + 8 ≤ p + PGSIZE → agree (λ q, q ≠ p) (store64 m a v) m.
Proof.
  intros Hal H1 H2 x Hx. apply rd_store64_out.
  destruct (decide (p ≤ x < p + PGSIZE)) as [H|H].
  - destruct Hx. by apply pg_in.
  - lia.
Qed.

Lemma fl_rep_agree (P : Z → Prop) m m' r l :
  agree P m m' → Forall page_ok l → Forall P l → fl_rep m r l → fl_rep m' r l.
Proof.
  intros Hag. revert r. induction l as [|p l IH]; intros r Hok HP; cbn [fl_rep]; [done|].
  intros [-> Hrep]. apply Forall_cons in Hok as [Hp Hok]. apply Forall_cons in HP as [HPp HP].
  split; [done|]. rewrite <- (agree_load64 P m m' p p); [by apply IH|done|done|apply Hp|lia|klia].
Qed.

Lemma fl_rep_head m r l : Forall page_ok l → fl_rep m r l → r = 0 ↔ l = [].
Proof.
  destruct l as [|p l]; cbn [fl_rep]; [done|]. intros Hok [-> _].
  apply Forall_cons in Hok as [Hp _]. apply page_range in Hp. split; [lia|done].
Qed.

(** The state after [kfree pa], and after a [kalloc] that takes page [p]. *)
Definition kfreed (pa : Z) (s : kstate) : kstate :=
  set_freelist pa (set_pmem (store64 (memset (pmem s) pa 1 PGSIZE) pa (freelist s)) s).
Definition kalloced (p : Z) (s : kstate) : kstate :=
  set_pmem (memset (pmem s) p 5 PGSIZE) (set_freelist (load64 (pmem s) p) s).

Lemma kfree_eq n pa s : can_lock n L_kmem s → page_ok pa → kfree pa s = Ret tt (kfreed pa s).
Proof.
  intros [Hc Hl] Hp. pose proof (page_range _ Hp) as Hr. destruct Hp as [Hal Hrg].
  unfold kfree. rewrite u64_small, Hal by lia.
  rewrite (proj2 (Z.ltb_ge pa kend)), (proj2 (Z.leb_gt PHYSTOP pa)) by lia. cbn [negb orb Z.eqb].
  unfold k_memset. erewrite bind_ret; [|reflexivity].
  erewrite bind_ret; [|by eapply k_acquire].
  erewrite bind_ret; [|reflexivity]. erewrite bind_ret; [|reflexivity].
  erewrite bind_ret; [|reflexivity].
  rewrite (k_release n L_kmem (cs s)); [|done|done|done]. unfold kfreed. cbn. reflexivity.
Qed.

Lemma kfree_panics pa :
  ¬ (0 ≤ pa < 2 ^ 64 ∧ page_ok pa) → 0 ≤ pa < 2 ^ 64 → ∀ s, kfree pa s = Panic "kfree".
Proof.
  intros Hn Hr s. unfold kfree. rewrite u64_small by done.
  destruct (Z.eqb_spec (pa mod PGSIZE) 0), (Z.ltb_spec pa kend), (Z.leb_spec PHYSTOP pa);
    try done.
  destruct Hn. split; [done|]. split; [done|lia].
Qed.

Lemma kalloc_eq_empty n s :
  can_lock n L_kmem s → freelist s = 0 → kalloc s = Ret 0 s.
Proof.
  intros [Hc Hl] H0. unfold kalloc. erewrite bind_ret; [|by eapply k_acquire].
  erewrite bind_ret; [|reflexivity]. cbn [freelist set_cs]. rewrite H0. cbn [c_bool Z.eqb negb when].
  erewrite bind_ret; [|reflexivity].
  erewrite bind_ret; [|by eapply (k_release n L_kmem (cs s))].
  erewrite bind_ret; [|reflexivity]. by destruct s.
Qed.

Lemma kalloc_eq n s :
  can_lock n L_kmem s → freelist s ≠ 0 → kalloc s = Ret (freelist s) (kalloced (freelist s) s).
Proof.
  intros [Hc Hl] H0. unfold kalloc. erewrite bind_ret; [|by eapply k_acquire].
  erewrite bind_ret; [|reflexivity]. cbn [freelist set_cs].
  assert (c_bool (freelist s) = true) as -> by (unfold c_bool; lia). cbn [when].
  erewrite bind_ret; [|reflexivity].
  erewrite bind_ret; [|by eapply (k_release n L_kmem (cs s))].
  unfold k_memset. erewrite bind_ret; [|reflexivity]. by destruct s.
Qed.

Lemma kfreed_ok pa s l :
  kmem_ok s l → page_ok pa → pa ∉ l → kmem_ok (kfreed pa s) (pa :: l).
Proof.
  intros [Hrep Hnd Hpg Hb] Hp Hni. pose proof (page_range _ Hp). destruct Hp as [Hal Hrg].
  split; cbn.
  - split; [done|]. rewrite load64_store64_eq.
    assert (u64 (freelist s) = freelist s) as ->.
    { destruct l as [|q l]; cbn in Hrep.
      - by rewrite Hrep.
      - destruct Hrep as [-> _]. apply Forall_cons in Hpg as [Hq _].
        apply page_range in Hq. apply u64_small. lia. }
    eapply (fl_rep_agree (λ q, q ≠ pa)); [|done| |done].
    + apply agree_sym. eapply agree_trans; [apply (agree_store64 _ pa); [done|lia|klia]|].
      by apply agree_memset.
    + apply Forall_forall. intros q Hq ->. done.
  - by constructor.
  - constructor; [by split|done].
  - by apply store64_ok, memset_ok.
Qed.

Lemma kalloced_ok s p l : kmem_ok s (p :: l) → kmem_ok (kalloced p s) l.
Proof.
  intros [Hrep Hnd Hpg Hb]. cbn in Hrep. destruct Hrep as [Hf Hrep].
  apply NoDup_cons in Hnd as [Hni Hnd]. apply Forall_cons in Hpg as [Hp Hpg].
  split; cbn; [|done|done|by apply memset_ok].
  eapply (fl_rep_agree (λ q, q ≠ p)); [|done| |done].
  - apply agree_sym. apply agree_memset. apply Hp.
  - apply Forall_forall. intros q Hq ->. done.
Qed.

(** The rule for kalloc: null on an empty list, else its first page, filled with 5s. *)
Lemma wp_kalloc n s l (Q : Z → kstate → Prop) :
  can_lock n L_kmem s → kmem_ok s l →
  (l = [] → Q 0 s) →
  (∀ p l', l = p :: l' → page_ok p → p ∉ l' → kmem_ok (kalloced p s) l' → Q p (kalloced p s)) →
  wp kalloc Q s.
Proof.
  intros Hc Hk H0 H1. pose proof (km_rep _ _ Hk) as Hrep. pose proof (km_pages _ _ Hk) as Hpg.
  pose proof (km_nodup _ _ Hk) as Hnd. destruct l as [|p l].
  - eapply wp_eq; [by eapply kalloc_eq_empty|auto].
  - destruct Hrep as [Hf Hrep]. apply Forall_cons in Hpg as [Hp Hpg].
    apply NoDup_cons in Hnd as [Hni _].
    eapply wp_eq.
    + eapply kalloc_eq; [done|]. apply page_range in Hp. lia.
    + rewrite Hf. eapply H1; eauto using kalloced_ok.
Qed.

Lemma wp_kfree n s l pa (Q : unit → kstate → Prop) :
  can_lock n L_kmem s → kmem_ok s l → page_ok pa → pa ∉ l →
  (kmem_ok (kfreed pa s) (pa :: l) → Q tt (kfreed pa s)) →
  wp (kfree pa) Q s.
Proof.
  intros Hc Hk Hp Hni HQ. eapply wp_eq; [by eapply kfree_eq|]. auto using kfreed_ok.
Qed.

(** The free list has at most as many pages as there are in RAM. *)
Lemma kmem_length s l : kmem_ok s l → (length l < count_fuel)%nat.
Proof.
  intros [_ Hnd Hpg _]. unfold count_fuel. apply Nat.lt_succ_r.
  set (N := Z.to_nat ((PHYSTOP - KERNBASE) / PGSIZE)).
  assert (l ⊆+ ((λ i, KERNBASE + i * PGSIZE) <$> zrange 0 N)) as H.
  { apply NoDup_submseteq; [done|]. intros p Hp. apply list_elem_of_fmap.
    rewrite Forall_forall in Hpg. apply Hpg in Hp as [Hal Hrg].
    exists ((p - KERNBASE) / PGSIZE). rewrite elem_of_zrange.
    pose proof trampoline_text. pose proof kend_after. unfold N. unfold_consts. dlia. }
  apply submseteq_length in H. by rewrite length_fmap, zrange_length in H.
Qed.

Lemma count_fuel_Z : Z.of_nat count_fuel = 32769.
Proof. vm_compute. reflexivity. Qed.

Lemma count_loop_ok s fuel r l total :
  fl_rep (pmem s) r l → Forall page_ok l → (length l < fuel)%nat →
  0 ≤ total → total + Z.of_nat (length l) * PGSIZE < 2 ^ 64 →
  count_loop fuel r total s = Ret (total + Z.of_nat (length l) * PGSIZE) s.
Proof.
  revert r l total. induction fuel as [|f IH]; intros r l total Hrep Hpg Hlen Ht Hb; [lia|].
  cbn [count_loop]. destruct l as [|p l]; cbn [fl_rep length] in *.
  - rewrite Hrep. cbn. unfold mret, M_ret. f_equal. lia.
  - destruct Hrep as [-> Hrep]. apply Forall_cons in Hpg as [Hp Hpg].
    assert (c_bool p = true) as -> by (apply page_range in Hp; unfold c_bool; lia).
    erewrite bind_ret; [|reflexivity].
    rewrite u64_small by klia.
    rewrite (IH _ l); [|done|done|lia|klia|klia].
    f_equal. klia.
Qed.

Lemma count_freemmem_eq n s l :
  can_lock n L_kmem s → kmem_ok s l →
  count_freemmem s = Ret (Z.of_nat (length l) * PGSIZE) s.
Proof.
  intros [Hc Hl] Hk. pose proof (kmem_length _ _ Hk) as Hlen. destruct Hk as [Hrep _ Hpg _].
  unfold count_freemmem. erewrite bind_ret; [|by eapply k_acquire].
  erewrite bind_ret; [|reflexivity].
  erewrite bind_ret.
  2:{ apply (count_loop_ok _ _ _ l); [done|done|done|lia|].
      rewrite <- Z.add_0_l at 1. unfold PGSIZE. pose proof count_fuel_Z. lia. }
  erewrite bind_ret; [|by eapply (k_release n L_kmem (cs s))].
  rewrite Z.add_0_l. by destruct s.
Qed.

(** The pages from [p] on, in the order in which [freerange] pushes them. *)
Fixpoint pages_from (p : Z) (k : nat) : list Z :=
  match k with O => [] | S k' => p :: pages_from (p + PGSIZE) k' end.

Lemma elem_of_pages_from q p k :
  p mod PGSIZE = 0 →
  q ∈ pages_from p k ↔ q mod PGSIZE = 0 ∧ p ≤ q < p + Z.of_nat k * PGSIZE.
Proof.
  revert p. induction k as [|k IH]; intros p Hp; cbn [pages_from].
  - split; [by intros ?%not_elem_of_nil|klia].
  - rewrite elem_of_cons, IH by (unfold PGSIZE in *; dlia). unfold PGSIZE in *. split.
    + intros [->|]; lia.
    + intros [H1 H2]. destruct (decide (q = p)); [by left|right]. dlia.
Qed.

Lemma freerange_loop_ok n k fuel p l s pa_end :
  can_lock n L_kmem s → kmem_ok s l →
  p mod PGSIZE = 0 → kend ≤ p → p + Z.of_nat k * PGSIZE ≤ PHYSTOP →
  p + Z.of_nat k * PGSIZE ≤ pa_end < p + (Z.of_nat k + 1) * PGSIZE →
  (∀ q, q ∈ l → q < p) → (k < fuel)%nat →
  wp (freerange_loop fuel p pa_end)
    (λ _ s', kmem_ok s' (rev (pages_from p k) ++ l) ∧ cs s' = cs s) s.
Proof.
  revert fuel p l s. induction k as [|k IH]; intros fuel p l s Hc Hk Hal Hlo Hhi Hend Hl Hf;
    (destruct fuel as [|fuel]; [lia|]); cbn [freerange_loop].
  - rewrite (proj2 (Z.leb_gt _ _)) by klia. by apply wp_ret.
  - rewrite (proj2 (Z.leb_le _ _)) by klia. apply wp_bind.
    assert (p ∉ l) as Hni. { intros H%Hl. lia. }
    eapply (wp_kfree n s l); [done|done|split; [done|klia]|done|]. intros Hk'.
    eapply wp_mono.
    + eapply (IH fuel (p + PGSIZE) (p :: l)); try done; try klia.
      * unfold PGSIZE in *; dlia.
      * intros q [->|Hq]%elem_of_cons; [klia|]. apply Hl in Hq. klia.
    + intros ? s' [H1 H2]. cbn [pages_from rev]. rewrite <- app_assoc. by split.
Qed.

Lemma kinit_ok n s :
  cs_ok n (cs s) → freelist s = 0 → mem_ok (pmem s) →
  let l := rev (pages_from (PGROUNDUP kend) (Z.to_nat ((PHYSTOP - PGROUNDUP kend) / PGSIZE))) in
  wp kinit (λ _ s', kmem_ok s' l ∧ cs s' = put_lock L_kmem (Mk_spinlock 0 "kmem" None) (cs s)) s ∧
  (∀ p, p ∈ l ↔ page_ok p).
Proof.
  intros Hc Hf Hm l. unfold kinit, freerange.
  pose proof trampoline_text. pose proof kend_after. pose proof kend_ram.
  destruct (PGROUNDUP_bounds kend) as [Hal Hb]; [klia|].
  set (a := PGROUNDUP kend) in *. set (k := Z.to_nat ((PHYSTOP - a) / PGSIZE)) in *. split.
  - apply wp_bind. eapply wp_eq; [reflexivity|]. eapply wp_mono.
    + apply (freerange_loop_ok n k _ a []); try lia.
      * split; [by destruct Hc; split|]. exists "kmem"%string. cbn. by rewrite lookup_insert_eq.
      * split; [done|constructor|constructor|done].
      * unfold k. unfold_consts. dlia.
      * unfold k. unfold_consts. dlia.
      * by intros q ?%not_elem_of_nil.
    + intros ? s' [Hk Hcs]. by rewrite app_nil_r in Hk.
  - intros p. unfold l. rewrite list_elem_of_In, <- in_rev, <- list_elem_of_In.
    rewrite elem_of_pages_from by done. unfold page_ok, k. unfold_consts. dlia.
Qed.
End kalloc.

(** ** The allocator as a stack of pages *)

Inductive kop := OpAlloc | OpFree (pa : Z).

Section refinement.
Context `{L : Layout}.

(** What kalloc.c promises: [kalloc] pops (0 when empty), [kfree] pushes. [None]
    for a call outside the contract: freeing what is no allocatable page or is
    already free. *)
Definition stack_step (l : list Z) (op : kop) : option (list Z * Z) :=
  match op with
  | OpAlloc => Some (match l with [] => ([], 0) | p :: l' => (l', p) end)
  | OpFree pa =>
      if decide ((pa mod PGSIZE = 0 ∧ kend ≤ pa < PHYSTOP) ∧ pa ∉ l) then Some (pa :: l, 0) else None
  end.

Fixpoint stack_run (l : list Z) (ops : list kop) : option (list Z * list Z) :=
  match ops with
  | [] => Some (l, [])
  | op :: ops' =>
      '(l1, r) ← stack_step l op;
      '(l2, rs) ← stack_run l1 ops';
      Some (l2, r :: rs)
  end.

(** The calls of kalloc.c. *)
Definition kop_run (op : kop) : K Z :=
  match op with
  | OpAlloc => kalloc
  | OpFree pa => kfree pa;; mret 0
  end.

Fixpoint kops_run (ops : list kop) : K (list Z) :=
  match ops with
  | [] => mret []
  | op :: ops' => r ← kop_run op; rs ← kops_run ops'; mret (r :: rs)
  end.

Lemma kop_run_ok n s l op l1 r :
  can_lock n L_kmem s → kmem_ok s l → stack_step l op = Some (l1, r) →
  wp (kop_run op) (λ r' s', r' = r ∧ kmem_ok s' l1 ∧ cs s' = cs s) s.
Proof.
  intros Hc Hk Hst. destruct op as [|pa]; cbn [kop_run stack_step] in *.
  - eapply wp_kalloc; [done|done| |].
    + intros ->. by simplify_eq.
    + intros p l' -> Hp Hni Hk'. by simplify_eq.
  - case_decide as Hd; [|done]. simplify_eq. apply wp_bind.
    eapply wp_kfree; [done|done|apply Hd|apply Hd|]. intros Hk'. by apply wp_ret.
Qed.

Lemma kops_run_ok n ops s l l1 rs :
  can_lock n L_kmem s → kmem_ok s l → stack_run l ops = Some (l1, rs) →
  wp (kops_run ops) (λ rs' s', rs' = rs ∧ kmem_ok s' l1 ∧ cs s' = cs s) s.
Proof.
  revert s l l1 rs. induction ops as [|op ops IH]; intros s l l1 rs Hc Hk Hst;
    cbn [kops_run stack_run] in *.
  - simplify_eq. by apply wp_ret.
  - destruct (stack_step l op) as [[la r]|] eqn:E1; cbn in Hst; [|done].
    destruct (stack_run la ops) as [[lb rs']|] eqn:E2; cbn in Hst; [|done]. simplify_eq.
    apply wp_bind. eapply wp_mono; [by eapply kop_run_ok|].
    intros r' s1 (-> & Hk1 & Hcs1). apply wp_bind. eapply wp_mono.
    + eapply IH; [|done|done]. unfold can_lock. by rewrite Hcs1.
    + intros rs2 s2 (-> & Hk2 & Hcs2). apply wp_ret. by rewrite Hcs2, Hcs1.
Qed.

(** * Properties *)

(** C16. The allocator refines a stack of pages: every sequence of kalloc and kfree
    calls that frees only allocated pages runs without panic, returns exactly the
    pages that the stack gives (null when it is empty), leaves the free list
    representing the stack, and the locks and interrupt state as they were. *)
Theorem kalloc_refines_stack n ops s l l' rs :
  cs_ok n (cs s) → lock_free L_kmem (cs s) → kmem_ok s l →
  stack_run l ops = Some (l', rs) →
  ∃ s', kops_run ops s = Ret rs s' ∧ kmem_ok s' l' ∧ cs s' = cs s.
Proof.
  intros Hc Hl Hk Hst.
  destruct (wp_elim _ _ _ (kops_run_ok n ops s l l' rs (conj Hc Hl) Hk Hst))
    as (rs' & s' & E & -> & Hk' & Hcs). eauto.
Qed.

(** kinit puts every allocatable page on the free list, each once: the aligned
    addresses between the end of the kernel and PHYSTOP, and no other. *)
Theorem kinit_frees_all_pages n s :
  cs_ok n (cs s) → freelist s = 0 → mem_ok (pmem s) →
  ∃ s' l, kinit s = Ret tt s' ∧ kmem_ok s' l ∧ NoDup l ∧
    (∀ p, p ∈ l ↔ p mod PGSIZE = 0 ∧ kend ≤ p < PHYSTOP).
Proof.
  intros Hc Hf Hm. destruct (kinit_ok n s Hc Hf Hm) as [Hwp Hl].
  destruct (wp_elim _ _ _ Hwp) as ([] & s' & E & Hk & _).
  eexists s', _. split_and!; [done|exact Hk|apply (km_nodup _ _ Hk)|exact Hl].
Qed.

(** sysinfo's count of free memory is the number of free pages times the page
    size, and counting changes nothing. *)
Theorem count_freemmem_correct n s l :
  cs_ok n (cs s) → lock_free L_kmem (cs s) → kmem_ok s l →
  count_freemmem s = Ret (Z.of_nat (length l) * PGSIZE) s.
Proof. intros Hc Hl Hk. by apply (count_freemmem_eq n). Qed.

(** kfree refuses what is no page of the allocator: for every address that is
    unaligned, below the end of the kernel or not below PHYSTOP, it panics before it
    writes anything. *)
Theorem kfree_rejects pa s :
  0 ≤ pa < 2 ^ 64 → ¬ (pa mod PGSIZE = 0 ∧ kend ≤ pa < PHYSTOP) →
  kfree pa s = Panic "kfree".
Proof. intros Hr Hn. apply kfree_panics; [|done]. by intros [_ H]. Qed.
End refinement.

(** ** Witnesses: hart 0 boots with interrupts off. *)

Definition boot : kstate := kstate0 0.

Lemma boot_cs : cs_ok 0 (cs boot).
Proof. split; try reflexivity; try done; vm_compute; split; congruence. Qed.

Lemma mem_ok_empty : mem_ok ∅.
Proof. intros a. unfold rd. rewrite lookup_empty. simpl. lia. Qed.

(** The kernel after [kinit] in [layout_ex]: sixteen free pages. *)
Definition booted : kstate :=
  match @kinit layout_ex boot with Ret _ s => s | _ => boot end.

Definition booted_free : list Z := rev (pages_from 0x87ff0000 16).

Lemma booted_kinit :
  @kinit layout_ex boot = Ret tt booted ∧ @kmem_ok layout_ex booted booted_free ∧
  cs booted = put_lock L_kmem (Mk_spinlock 0 "kmem" None) (cs boot).
Proof.
  destruct (@kinit_ok layout_ex 0 boot boot_cs eq_refl mem_ok_empty) as [Hwp _].
  apply wp_elim in Hwp as ([] & s' & E & Hk & Hcs).
  unfold booted. rewrite E. split_and!; [done| |done].
  assert (rev (pages_from (PGROUNDUP 0x87ff0000) (Z.to_nat ((PHYSTOP - PGROUNDUP 0x87ff0000) / PGSIZE)))
    = booted_free) as Hl by (vm_compute; reflexivity).
  change (@kend layout_ex) with 0x87ff0000 in Hk. rewrite Hl in Hk. exact Hk.
Qed.

Lemma booted_cs : cs_ok 0 (cs booted) ∧ lock_free L_kmem (cs booted).
Proof.
  destruct booted_kinit as (_ & _ & ->). split.
  - destruct boot_cs; by split.
  - exists "kmem"%string. apply lookup_insert_eq.
Qed.

Lemma kalloc_refines_stack_witness :
  ∃ s', @kops_run layout_ex [OpAlloc; OpAlloc; OpFree 0x87fff000; OpAlloc] booted =
    Ret [0x87fff000; 0x87ffe000; 0; 0x87fff000] s'.
Proof.
  destruct (@kalloc_refines_stack layout_ex 0 [OpAlloc; OpAlloc; OpFree 0x87fff000; OpAlloc]
    booted booted_free (drop 2 booted_free) [0x87fff000; 0x87ffe000; 0; 0x87fff000]
    (proj1 booted_cs) (proj2 booted_cs) (proj1 (proj2 booted_kinit))) as (s' & E & _).
  - vm_compute. reflexivity.
  - exists s'. exact E.
Defined.

Lemma kinit_frees_all_pages_witness :
  ∃ s' l, @kinit layout_ex boot = Ret tt s' ∧ @kmem_ok layout_ex s' l ∧ 0x87ffa000 ∈ l.
Proof.
  destruct (@kinit_frees_all_pages layout_ex 0 boot boot_cs eq_refl mem_ok_empty)
    as (s' & l & E & Hk & _ & Hl).
  exists s', l. split; [exact E|]. split; [exact Hk|]. apply Hl. split; [reflexivity|].
  split; [discriminate|reflexivity].
Defined.

Lemma count_freemmem_correct_witness : @count_freemmem booted = Ret (16 * 4096) booted.
Proof.
  exact (@count_freemmem_correct layout_ex 0 booted booted_free
    (proj1 booted_cs) (proj2 booted_cs) (proj1 (proj2 booted_kinit))).
Defined.

Lemma kfree_rejects_witness : @kfree layout_ex 0x80001000 booted = Panic "kfree".
Proof.
  apply (@kfree_rejects layout_ex 0x80001000 booted); [lia|].
  intros [_ [H _]]. vm_compute in H. by apply H.
Defined.
