(* ===== verification/Vm.v ===== *)
(** * Virtual memory: kernel/vm.c, and [proc_mapstacks] of kernel/proc.c

    Page tables live in physical memory: a table is a page of 512 PTEs that
    [load64] and [store64] read and write. *)

From S2P Require Import Prelude Machine State Spinlock KString Kalloc.

(** A PTE in memory. *)
Definition get_pte (pte : Z) : K Z := gets (λ s, load64 (pmem s) pte).
Definition set_pte (pte v : Z) : K unit := modify (λ s, set_pmem (store64 (pmem s) pte v) s).
Definition has (v flag : Z) : bool := negb (Z.land v flag =? 0).

Section vm.
Context `{L : Layout}.

(** The loop of [walk] from [level] down; level 0 gives the address of the PTE. *)
Fixpoint walk_loop (level : nat) (pagetable va : Z) (alloc : bool) : K Z :=
  match level with
  | O => mret (pagetable + 8 * PX 0 va)
  | S level' =>
      let pte := pagetable + 8 * PX (Z.of_nat level) va in
      v ← get_pte pte;
      if has v PTE_V then walk_loop level' (PTE2PA v) va alloc
      else if negb alloc then mret 0
      else
        pagetable ← kalloc;
        if pagetable =? 0 then mret 0
        else
          k_memset pagetable 0 PGSIZE;;
          set_pte pte (Z.lor (PA2PTE pagetable) PTE_V);;
          walk_loop level' pagetable va alloc
  end.

Definition walk (pagetable va : Z) (alloc : bool) : K Z :=
  if MAXVA <=? va then panic "walk" else walk_loop 2 pagetable va alloc.

Definition walkaddr (pagetable va : Z) : K Z :=
  if MAXVA <=? va then mret 0
  else
    pte ← walk pagetable va false;
    if pte =? 0 then mret 0
    else
      v ← get_pte pte;
      if negb (has v PTE_V) then mret 0
      else if negb (has v PTE_U) then mret 0
      else mret (PTE2PA v).

(** The loop of [mappages]: one round for each page. *)
Fixpoint mappages_loop (fuel : nat) (pagetable a last pa perm : Z) : K Z :=
  match fuel with
  | O => hang
  | S f =>
      pte ← walk pagetable a true;
      if pte =? 0 then mret (-1)
      else
        v ← get_pte pte;
        if has v PTE_V then panic "mappages: remap"
        else
          set_pte pte (Z.lor (Z.lor (PA2PTE pa) perm) PTE_V);;
          if a =? last then mret 0
          else mappages_loop f pagetable (u64 (a + PGSIZE)) last (u64 (pa + PGSIZE)) perm
  end.

Definition mappages (pagetable va size pa perm : Z) : K Z :=
  if negb (va mod PGSIZE =? 0) then panic "mappages: va not aligned"
  else if negb (size mod PGSIZE =? 0) then panic "mappages: size not aligned"
  else if size =? 0 then panic "mappages: size"
  else
    mappages_loop (Z.to_nat (size / PGSIZE)) pagetable va (u64 (va + size - PGSIZE)) pa perm.

Definition kvmmap (kpgtbl va pa sz perm : Z) : K unit :=
  r ← mappages kpgtbl va sz pa perm;
  if negb (r =? 0) then panic "kvmmap" else mret tt.

(** kernel/proc.c *)
Definition proc_mapstacks (kpgtbl : Z) : K unit :=
  mfor (zrange 0 (Z.to_nat NPROC)) (λ i,
    pa ← kalloc;
    if pa =? 0 then panic "kalloc"
    else
      let va := KSTACK i in
      kvmmap kpgtbl va pa PGSIZE (Z.lor PTE_R PTE_W)).

Definition kvmmake : K Z :=
  kpgtbl ← kalloc;
  k_memset kpgtbl 0 PGSIZE;;
  (* uart registers *)
  kvmmap kpgtbl UART0 UART0 PGSIZE (Z.lor PTE_R PTE_W);;
  (* virtio mmio disk interface *)
  kvmmap kpgtbl VIRTIO0 VIRTIO0 PGSIZE (Z.lor PTE_R PTE_W);;
  (* PLIC *)
  kvmmap kpgtbl PLIC PLIC 0x4000000 (Z.lor PTE_R PTE_W);;
  (* kernel text, executable and read-only *)
  kvmmap kpgtbl KERNBASE KERNBASE (u64 (etext - KERNBASE)) (Z.lor PTE_R PTE_X);;
  (* kernel data and the physical RAM *)
  kvmmap kpgtbl etext etext (u64 (PHYSTOP - etext)) (Z.lor PTE_R PTE_W);;
  (* the trampoline, at the highest virtual address *)
  kvmmap kpgtbl TRAMPOLINE trampoline PGSIZE (Z.lor PTE_R PTE_X);;
  (* a kernel stack for each process *)
  proc_mapstacks kpgtbl;;
  mret kpgtbl.

Definition kvminit : K unit :=
  p ← kvmmake; modify (set_kernel_pagetable p).

(** [sfence_vma] flushes the TLB, which the model does not have. *)
Definition kvminithart : K unit :=
  modify (λ s, set_csr (set_satp (MAKE_SATP (kernel_pagetable s)) (csr s)) s).

(** The loop of [uvmunmap], from [a] up to [last] (excluded). *)
Fixpoint uvmunmap_loop (fuel : nat) (pagetable a last : Z) (do_free : bool) : K unit :=
  match fuel with
  | O => hang
  | S f =>
      if negb (a <? last) then mret tt
      else
        pte ← walk pagetable a false;
        if pte =? 0 then panic "uvmunmap: walk"
        else
          v ← get_pte pte;
          if negb (has v PTE_V) then panic "uvmunmap: not mapped"
          else if PTE_FLAGS v =? PTE_V then panic "uvmunmap: not a leaf"
          else
            when do_free (kfree (PTE2PA v));;
            set_pte pte 0;;
            uvmunmap_loop f pagetable (u64 (a + PGSIZE)) last do_free
  end.

Definition uvmunmap (pagetable va npages : Z) (do_free : bool) : K unit :=
  if negb (va mod PGSIZE =? 0) then panic "uvmunmap: not aligned"
  else
    uvmunmap_loop (S (Z.to_nat npages)) pagetable va (u64 (va + u64 (npages * PGSIZE))) do_free.

Definition uvmcreate : K Z :=
  pagetable ← kalloc;
  if pagetable =? 0 then mret 0
  else k_memset pagetable 0 PGSIZE;; mret pagetable.

(** [src] holds the [sz] bytes to load. *)
Definition uvmfirst (pagetable : Z) (src : list Z) : K unit :=
  let sz := Z.of_nat (length src) in
  if PGSIZE <=? sz then panic "uvmfirst: more than a page"
  else
    mem ← kalloc;
    k_memset mem 0 PGSIZE;;
    mappages pagetable 0 PGSIZE mem (Z.lor (Z.lor (Z.lor PTE_W PTE_R) PTE_X) PTE_U);;
    modify (λ s, set_pmem (blit (pmem s) mem src) s).

Definition uvmdealloc (pagetable oldsz newsz : Z) : K Z :=
  if oldsz <=? newsz then mret oldsz
  else
    when (PGROUNDUP newsz <? PGROUNDUP oldsz)
      (let npages := s32 ((PGROUNDUP oldsz - PGROUNDUP newsz) / PGSIZE) in
       uvmunmap pagetable (PGROUNDUP newsz) (u64 npages) true);;
    mret newsz.

(** The loop of [uvmalloc]; [oldsz] is already rounded up. *)
Fixpoint uvmalloc_loop (fuel : nat) (pagetable oldsz a newsz xperm : Z) : K Z :=
  match fuel with
  | O => hang
  | S f =>
      if negb (a <? newsz) then mret newsz
      else
        mem ← kalloc;
        if mem =? 0 then uvmdealloc pagetable a oldsz;; mret 0
        else
          k_memset mem 0 PGSIZE;;
          r ← mappages pagetable a PGSIZE mem (Z.lor (Z.lor PTE_R PTE_U) xperm);
          if negb (r =? 0) then kfree mem;; uvmdealloc pagetable a oldsz;; mret 0
          else uvmalloc_loop f pagetable oldsz (u64 (a + PGSIZE)) newsz xperm
  end.

Definition uvmalloc (pagetable oldsz newsz xperm : Z) : K Z :=
  if newsz <? oldsz then mret oldsz
  else
    let oldsz := PGROUNDUP oldsz in
    uvmalloc_loop (S (Z.to_nat ((newsz - oldsz + PGSIZE - 1) / PGSIZE))) pagetable oldsz oldsz newsz xperm.

(** [fuel] bounds the depth of the recursion; a page table has three levels. *)
Fixpoint freewalk_depth (fuel : nat) (pagetable : Z) : K unit :=
  match fuel with
  | O => hang
  | S f =>
      mfor (zrange 0 512) (λ i,
        pte ← get_pte (pagetable + 8 * i);
        if has pte PTE_V && (Z.land pte (Z.lor (Z.lor PTE_R PTE_W) PTE_X) =? 0) then
          (* this PTE points to a lower-level page table *)
          freewalk_depth f (PTE2PA pte);;
          set_pte (pagetable + 8 * i) 0
        else if has pte PTE_V then panic "freewalk: leaf"
        else mret tt);;
      kfree pagetable
  end.
Definition freewalk (pagetable : Z) : K unit := freewalk_depth 8 pagetable.

Definition uvmfree (pagetable sz : Z) : K unit :=
  when (0 <? sz) (uvmunmap pagetable 0 (PGROUNDUP sz / PGSIZE) true);;
  freewalk pagetable.

(** The loop of [uvmcopy] from [i]. *)
Fixpoint uvmcopy_loop (fuel : nat) (old new sz i : Z) : K Z :=
  let err := uvmunmap new 0 (i / PGSIZE) true;; mret (-1) in
  match fuel with
  | O => hang
  | S f =>
      if negb (i <? sz) then mret 0
      else
        pte ← walk old i false;
        if pte =? 0 then panic "uvmcopy: pte should exist"
        else
          v ← get_pte pte;
          if negb (has v PTE_V) then panic "uvmcopy: page not present"
          else
            let pa := PTE2PA v in
            let flags := PTE_FLAGS v in
            mem ← kalloc;
            if mem =? 0 then err
            else
              k_memmove mem pa PGSIZE;;
              r ← mappages new i PGSIZE mem flags;
              if negb (r =? 0) then kfree mem;; err
              else uvmcopy_loop f old new sz (u64 (i + PGSIZE))
  end.
Definition uvmcopy (old new sz : Z) : K Z :=
  uvmcopy_loop (S (Z.to_nat ((sz + PGSIZE - 1) / PGSIZE))) old new sz 0.

Definition uvmclear (pagetable va : Z) : K unit :=
  pte ← walk pagetable va false;
  if pte =? 0 then panic "uvmclear"
  else
    v ← get_pte pte;
    set_pte pte (Z.land v (u64 (Z.lnot PTE_U))).

(** [src] holds the bytes to copy, [len] of them. *)
Fixpoint copyout_loop (fuel : nat) (pagetable dstva : Z) (src : list Z) : K Z :=
  match src, fuel with
  | [], _ => mret 0
  | _, O => hang
  | _, S f =>
      let len := Z.of_nat (length src) in
      let va0 := PGROUNDDOWN dstva in
      if MAXVA <=? va0 then mret (-1)
      else
        pte ← walk pagetable va0 false;
        v ← get_pte pte;
        if (pte =? 0) || negb (has v PTE_V) || negb (has v PTE_U) || negb (has v PTE_W)
        then mret (-1)
        else
          let pa0 := PTE2PA v in
          let n := Z.min (PGSIZE - (dstva - va0)) len in
          modify (λ s, set_pmem (blit (pmem s) (pa0 + (dstva - va0)) (take (Z.to_nat n) src)) s);;
          copyout_loop f pagetable (u64 (va0 + PGSIZE)) (drop (Z.to_nat n) src)
  end.
Definition copyout (pagetable dstva : Z) (src : list Z) : K Z :=
  copyout_loop (length src) pagetable dstva src.

(** Gives the result and the bytes stored at [dst]. *)
Fixpoint copyin_loop (fuel : nat) (pagetable srcva len : Z) (dst : list Z) : K (Z * list Z) :=
  if negb (0 <? len) then mret (0, dst)
  else
    match fuel with
    | O => hang
    | S f =>
        let va0 := PGROUNDDOWN srcva in
        pa0 ← walkaddr pagetable va0;
        if pa0 =? 0 then mret (-1, dst)
        else
          let n := Z.min (PGSIZE - (srcva - va0)) len in
          bs ← gets (λ s, rdn (pmem s) (pa0 + (srcva - va0)) (Z.to_nat n));
          copyin_loop f pagetable (u64 (va0 + PGSIZE)) (len - n) (dst ++ bs)
    end.
Definition copyin (pagetable srcva len : Z) : K (Z * list Z) :=
  copyin_loop (Z.to_nat len) pagetable srcva len [].

(** The inner loop of [copyinstr]: up to [n] bytes from physical address [p].
    The bytes stored, and whether a NUL was seen (it is stored too). *)
Fixpoint copyinstr_page (n : nat) (m : mem) (p : Z) : list Z * bool :=
  match n with
  | O => ([], false)
  | S n' =>
      if rd m p =? 0 then ([0], true)
      else let '(bs, got) := copyinstr_page n' m (p + 1) in (rd m p :: bs, got)
  end.

Fixpoint copyinstr_loop (fuel : nat) (pagetable srcva max : Z) (dst : list Z) : K (Z * list Z) :=
  if negb (0 <? max) then mret (-1, dst)
  else
    match fuel with
    | O => hang
    | S f =>
        let va0 := PGROUNDDOWN srcva in
        pa0 ← walkaddr pagetable va0;
        if pa0 =? 0 then mret (-1, dst)
        else
          let n := Z.min (PGSIZE - (srcva - va0)) max in
          bg ← gets (λ s, copyinstr_page (Z.to_nat n) (pmem s) (pa0 + (srcva - va0)));
          let '(bs, got_null) := bg in
          if (got_null : bool) then mret (0, dst ++ bs)
          else copyinstr_loop f pagetable (u64 (va0 + PGSIZE)) (max - n) (dst ++ bs)
    end.
Definition copyinstr (pagetable srcva max : Z) : K (Z * list Z) :=
  copyinstr_loop (Z.to_nat max) pagetable srcva max [].
End vm.
