(* ===== verification/PageTable.v ===== *)
(** * Page tables as maps: the invariant of vm.c's tables and what the operations do

    [T] maps the pages that are page tables to their level (2 for a root, 0 for
    the tables whose entries are leaves). [pt_wf m T] says that the memory [m]
    holds well-formed tables at these pages. [pte_of m root va] is the leaf PTE
    that translates [va], 0 if there is none: the address space of [root] as a
    function, which the operations of vm.c update pointwise. *)

From S2P Require Import Prelude Machine State Spinlock KString Kalloc Vm.

(** The table walk as a function of memory: the address of the leaf PTE. *)
Fixpoint wlk (m : mem) (lvl : nat) (p va : Z) : option Z :=
  match lvl with
  | O => Some (p + 8 * PX 0 va)
  | S l =>
      let v := load64 m (p + 8 * PX (Z.of_nat lvl) va) in
      if has v PTE_V then wlk m l (PTE2PA v) va else None
  end.

(** The leaf PTE of [va] below the level-[lvl] table [p]. *)
Definition val (m : mem) (lvl : nat) (p va : Z) : Z :=
  match wlk m lvl p va with Some a => load64 m a | None => 0 end.

Definition pte_of (m : mem) (root va : Z) : Z := val m 2 root va.

(** ** Arithmetic of PTEs *)

Section pte.
Lemma has_testbit v k : 0 ≤ k → has v (2 ^ k) = Z.testbit v k.
Proof.
  intros Hk. unfold has. destruct (Z.eqb_spec (Z.land v (2 ^ k)) 0) as [E|E]; cbn [negb].
  - apply (f_equal (λ z, Z.testbit z k)) in E. rewrite Z.land_spec, Z.bits_0 in E.
    rewrite Z.pow2_bits_true, andb_true_r in E by lia. done.
  - symmetry. apply not_false_is_true. intros H. apply E. apply Z.bits_inj'. intros j Hj.
    rewrite Z.land_spec, Z.pow2_bits_eqb, Z.bits_0 by lia.
    destruct (Z.eqb_spec k j) as [<-|]; [by rewrite H|by rewrite andb_false_r].
Qed.

Lemma PTE_V_pow : PTE_V = 2 ^ 0. Proof. done. Qed.
Lemma PTE_R_pow : PTE_R = 2 ^ 1. Proof. done. Qed.
Lemma PTE_W_pow : PTE_W = 2 ^ 2. Proof. done. Qed.
Lemma PTE_X_pow : PTE_X = 2 ^ 3. Proof. done. Qed.
Lemma PTE_U_pow : PTE_U = 2 ^ 4. Proof. done. Qed.

Lemma land_low x c : 0 ≤ c < 1024 → Z.land x c = Z.land (x mod 1024) c.
Proof.
  intros Hc. change 1024 with (2 ^ 10). rewrite <- (Z.land_ones x 10) by lia.
  rewrite <- Z.land_assoc. f_equal. rewrite Z.land_comm, Z.land_ones by lia.
  symmetry. by apply Z.mod_small.
Qed.

Lemma has_low x flag : 0 ≤ flag < 1024 → has x flag = has (x mod 1024) flag.
Proof. intros. unfold has. by rewrite land_low. Qed.

Lemma lor_low x f : 0 ≤ f < 1024 → Z.lor (x * 1024) f = x * 1024 + f.
Proof.
  intros Hf. symmetry. apply Z.add_nocarry_lor. apply Z.bits_inj'. intros k Hk.
  rewrite Z.land_spec, Z.bits_0. change 1024 with (2 ^ 10) in *.
  rewrite Z.mul_pow2_bits by lia. destruct (decide (k < 10)).
  - by rewrite Z.testbit_neg_r by lia.
  - rewrite <- (Z.mod_small f (2 ^ 10)) by lia.
    rewrite Z.mod_pow2_bits_high by lia. apply andb_false_r.
Qed.

Lemma PA2PTE_eq pa : 0 ≤ pa < 2 ^ 64 → PA2PTE pa = pa / 4096 * 1024.
Proof.
  intros H. unfold PA2PTE. rewrite (u64_small pa) by done.
  rewrite Z.shiftr_div_pow2, Z.shiftl_mul_pow2 by lia. apply u64_small.
  change (2 ^ 12) with 4096. change (2 ^ 10) with 1024.
  dlia.
Qed.

Lemma PTE2PA_eq v : 0 ≤ v < 2 ^ 62 → PTE2PA v = v / 1024 * 4096.
Proof.
  intros H. unfold PTE2PA. rewrite Z.shiftr_div_pow2, Z.shiftl_mul_pow2 by lia.
  apply u64_small. change (2 ^ 12) with 4096. change (2 ^ 10) with 1024. dlia.
Qed.

(** The PTE that maps page [pa] with flags [f]. *)
Lemma mkpte_eq pa f : 0 ≤ pa < 2 ^ 64 → 0 ≤ f < 1024 → Z.lor (PA2PTE pa) f = pa / 4096 * 1024 + f.
Proof. intros. rewrite PA2PTE_eq by done. by apply lor_low. Qed.

Lemma mkpte_range pa f : 0 ≤ pa < 2 ^ 64 → 0 ≤ f < 1024 → 0 ≤ Z.lor (PA2PTE pa) f < 2 ^ 62.
Proof. intros. rewrite mkpte_eq by done. dlia. Qed.

Lemma mkpte_pa pa f :
  0 ≤ pa < 2 ^ 64 → pa mod PGSIZE = 0 → 0 ≤ f < 1024 → PTE2PA (Z.lor (PA2PTE pa) f) = pa.
Proof.
  intros. rewrite PTE2PA_eq by (by apply mkpte_range). rewrite mkpte_eq by done.
  unfold PGSIZE in *. dlia.
Qed.

Lemma mkpte_low pa f : 0 ≤ pa < 2 ^ 64 → 0 ≤ f < 1024 → Z.lor (PA2PTE pa) f mod 1024 = f.
Proof. intros. rewrite mkpte_eq by done. dlia. Qed.

Lemma mkpte_flags pa f : 0 ≤ pa < 2 ^ 64 → 0 ≤ f < 1024 → PTE_FLAGS (Z.lor (PA2PTE pa) f) = f.
Proof.
  intros. unfold PTE_FLAGS. rewrite land_low by lia. rewrite mkpte_low by done.
  change 0x3FF with (Z.ones 10). rewrite Z.land_ones by lia. by apply Z.mod_small.
Qed.

Lemma mkpte_has pa f flag :
  0 ≤ pa < 2 ^ 64 → 0 ≤ f < 1024 → 0 ≤ flag < 1024 → has (Z.lor (PA2PTE pa) f) flag = has f flag.
Proof. intros. rewrite has_low by done. by rewrite mkpte_low. Qed.

Lemma lor_range f g : 0 ≤ f < 1024 → 0 ≤ g < 1024 → 0 ≤ Z.lor f g < 1024.
Proof.
  intros Hf Hg. assert (0 ≤ Z.lor f g) by (apply Z.lor_nonneg; lia). split; [done|].
  destruct (decide (Z.lor f g = 0)) as [->|Hne]; [lia|].
  change 1024 with (2 ^ 10). apply Z.log2_lt_pow2; [lia|].
  rewrite Z.log2_lor by lia.
  assert (∀ x, 0 ≤ x < 1024 → Z.log2 x < 10) as Hlog.
  { intros x Hx. destruct (decide (x = 0)) as [->|]; [simpl; lia|]. apply Z.log2_lt_pow2; lia. }
  apply Z.max_lub_lt; auto.
Qed.

Lemma lor_V_range f : 0 ≤ f < 1024 → 0 ≤ Z.lor f PTE_V < 1024.
Proof. intros. apply lor_range; [done|]. change PTE_V with 1. lia. Qed.

Lemma has_lor_V f : has (Z.lor f PTE_V) PTE_V = true.
Proof.
  rewrite PTE_V_pow at 2. rewrite has_testbit by lia. rewrite Z.lor_spec.
  change PTE_V with (2 ^ 0). rewrite Z.pow2_bits_true by lia. apply orb_true_r.
Qed.
End pte.

Section index.
Lemma PX_eq k va : 0 ≤ k → 0 ≤ va < 2 ^ 64 → PX k va = va / 2 ^ (12 + 9 * k) mod 512.
Proof.
  intros Hk Hva. unfold PX, PXSHIFT, PXMASK, PGSHIFT. rewrite u64_small by done.
  rewrite Z.shiftr_div_pow2 by lia. change 0x1FF with (Z.ones 9). by rewrite Z.land_ones by lia.
Qed.

Lemma PX_range k va : 0 ≤ PX k va < 512.
Proof.
  unfold PX, PXMASK. change 0x1FF with (Z.ones 9). rewrite Z.land_ones by lia.
  apply Z.mod_pos_bound. lia.
Qed.

(** The three indices determine the page. *)
Lemma PX_inj va va' :
  0 ≤ va < 2 ^ 39 → 0 ≤ va' < 2 ^ 39 →
  PX 0 va = PX 0 va' → PX 1 va = PX 1 va' → PX 2 va = PX 2 va' →
  va / PGSIZE = va' / PGSIZE.
Proof.
  intros H H'. rewrite !PX_eq by klia.
  change (2 ^ (12 + 9 * 0)) with 4096. change (2 ^ (12 + 9 * 1)) with (4096 * 512).
  change (2 ^ (12 + 9 * 2)) with (4096 * 512 * 512). rewrite <- !Z.div_div by lia.
  unfold PGSIZE. unfold_consts. intros E0 E1 E2.
  assert (va / 4096 < 2 ^ 27) by (apply Z.div_lt_upper_bound; lia).
  assert (va' / 4096 < 2 ^ 27) by (apply Z.div_lt_upper_bound; lia).
  assert (0 ≤ va / 4096) by (apply Z.div_pos; lia).
  assert (0 ≤ va' / 4096) by (apply Z.div_pos; lia).
  set (x := va / 4096) in *. set (y := va' / 4096) in *. clearbody x y. dlia.
Qed.
End index.

Section tables.
Context `{L : Layout}.

(** ** Well-formed tables *)

Definition entry (m : mem) (p i : Z) : Z := load64 m (p + 8 * i).
Definition RWX : Z := Z.lor (Z.lor PTE_R PTE_W) PTE_X.

Record pt_wf (m : mem) (T : gmap Z nat) : Prop := {
  (** tables are pages of the allocator *)
  pt_page p l : T !! p = Some l → page_ok p;
  (** a valid entry of an inner table is a pointer to a table one level below *)
  pt_child p l i : T !! p = Some (S l) → 0 ≤ i < 512 → has (entry m p i) PTE_V = true →
    T !! PTE2PA (entry m p i) = Some l ∧ Z.land (entry m p i) RWX = 0;
  (** and no two entries point to the same table *)
  pt_inj p1 l1 i1 p2 l2 i2 :
    T !! p1 = Some (S l1) → T !! p2 = Some (S l2) → 0 ≤ i1 < 512 → 0 ≤ i2 < 512 →
    has (entry m p1 i1) PTE_V = true → has (entry m p2 i2) PTE_V = true →
    PTE2PA (entry m p1 i1) = PTE2PA (entry m p2 i2) → p1 = p2 ∧ i1 = i2;
}.

Definition is_table (T : gmap Z nat) (p : Z) : Prop := is_Some (T !! p).

(** The invariant of the allocator and the page tables together. *)
Record vm_inv (s : kstate) (T : gmap Z nat) (l : list Z) : Prop := {
  vi_kmem : kmem_ok s l;
  vi_pt : pt_wf (pmem s) T;
  vi_disj p : p ∈ l → T !! p = None;
}.

(** Everything but memory and the free list is as before. *)
Definition mem_only (s s' : kstate) : Prop :=
  s' = set_freelist (freelist s') (set_pmem (pmem s') s).

(** ** Lemmas *)

Lemma mem_only_refl s : mem_only s s.
Proof. unfold mem_only. by destruct s. Qed.

Lemma mem_only_trans s1 s2 s3 : mem_only s1 s2 → mem_only s2 s3 → mem_only s1 s3.
Proof. unfold mem_only. intros H1 H2. rewrite H2. rewrite H1 at 1. done. Qed.

Lemma mem_only_cs s s' : mem_only s s' → cs s' = cs s.
Proof. intros ->. done. Qed.

Lemma mem_only_can_lock n l s s' : mem_only s s' → can_lock n l s → can_lock n l s'.
Proof. intros H%mem_only_cs. unfold can_lock. by rewrite H. Qed.

Lemma mem_only_pmem m s0 s : mem_only s0 s → mem_only s0 (set_pmem m s).
Proof. unfold mem_only. intros H. rewrite H. done. Qed.
Lemma mem_only_kalloced p s : mem_only s (kalloced p s).
Proof. done. Qed.
Lemma mem_only_kfreed p s : mem_only s (kfreed p s).
Proof. done. Qed.

Lemma entry_in p i : 0 ≤ i < 512 → p ≤ p + 8 * i ∧ p + 8 * i + 8 ≤ p + PGSIZE.
Proof. klia. Qed.

Lemma entry_agree (P : Z → Prop) m m' p i :
  agree P m m' → P p → p mod PGSIZE = 0 → 0 ≤ i < 512 → entry m p i = entry m' p i.
Proof.
  intros Hag HP Hal Hi. destruct (entry_in p i Hi).
  by apply (agree_load64 P m m' p).
Qed.

Lemma slot_inj p i p' i' :
  p mod PGSIZE = 0 → p' mod PGSIZE = 0 → 0 ≤ i < 512 → 0 ≤ i' < 512 →
  p + 8 * i = p' + 8 * i' → p = p' ∧ i = i'.
Proof. unfold PGSIZE. intros. dlia. Qed.

Lemma pt_aligned m T p l : pt_wf m T → T !! p = Some l → p mod PGSIZE = 0.
Proof. intros Hwf Hp. apply (pt_page _ _ Hwf _ _ Hp). Qed.

Lemma wlk_slot m T lvl p va a :
  pt_wf m T → T !! p = Some lvl → wlk m lvl p va = Some a →
  ∃ q, T !! q = Some O ∧ a = q + 8 * PX 0 va.
Proof.
  intros Hwf. revert p. induction lvl as [|lvl IH]; intros p Hp; cbn [wlk].
  - intros [= <-]. eauto.
  - case_match eqn:E; [|done]. apply IH. apply (pt_child _ _ Hwf _ _ _ Hp (PX_range _ _) E).
Qed.

Lemma wlk_nonzero m T lvl p va a :
  pt_wf m T → T !! p = Some lvl → wlk m lvl p va = Some a → 0 < a.
Proof.
  intros Hwf Hp Hw. destruct (wlk_slot _ _ _ _ _ _ Hwf Hp Hw) as (q & Hq & ->).
  apply (pt_page _ _ Hwf), page_range in Hq. pose proof (PX_range 0 va). lia.
Qed.

(** Two walks that reach the same slot took the same path. *)
Lemma wlk_inj m T lvl p va p' va' a :
  pt_wf m T → T !! p = Some lvl → T !! p' = Some lvl →
  wlk m lvl p va = Some a → wlk m lvl p' va' = Some a →
  p = p' ∧ ∀ k, (k ≤ lvl)%nat → PX (Z.of_nat k) va = PX (Z.of_nat k) va'.
Proof.
  intros Hwf. revert p p'. induction lvl as [|lvl IH]; intros p p' Hp Hp'; cbn [wlk].
  - intros [= <-] [= E]. destruct (slot_inj p' (PX 0 va') p (PX 0 va)) as [-> E'];
      eauto using pt_aligned, PX_range.
    split; [done|]. intros k Hk. by replace k with O by lia.
  - case_match eqn:E; [|done]. case_match eqn:E'; [|done]. intros Hw Hw'.
    destruct (pt_child _ _ Hwf _ _ _ Hp (PX_range _ _) E) as [Hc _].
    destruct (pt_child _ _ Hwf _ _ _ Hp' (PX_range _ _) E') as [Hc' _].
    destruct (IH _ _ Hc Hc' Hw Hw') as [Heq HPX].
    destruct (pt_inj _ _ Hwf _ _ _ _ _ _ Hp Hp' (PX_range _ _) (PX_range _ _) E E' Heq) as [-> HS].
    split; [done|]. intros k Hk. destruct (decide (k = S lvl)) as [->|]; [done|]. apply HPX. lia.
Qed.

Lemma wlk_root_inj m T p va p' va' a :
  pt_wf m T → T !! p = Some 2%nat → T !! p' = Some 2%nat →
  0 ≤ va < 2 ^ 39 → 0 ≤ va' < 2 ^ 39 →
  wlk m 2 p va = Some a → wlk m 2 p' va' = Some a → p = p' ∧ va / PGSIZE = va' / PGSIZE.
Proof.
  intros Hwf Hp Hp' Hva Hva' Hw Hw'.
  destruct (wlk_inj _ _ _ _ _ _ _ _ Hwf Hp Hp' Hw Hw') as [-> HPX]. split; [done|].
  apply PX_inj; [done|done|apply (HPX 0%nat)|apply (HPX 1%nat)|apply (HPX 2%nat)]; lia.
Qed.

(** The walk reads only tables. *)
Lemma wlk_agree m m' T lvl p va :
  agree (is_table T) m m' → pt_wf m T → T !! p = Some lvl →
  wlk m' lvl p va = wlk m lvl p va ∧ val m' lvl p va = val m lvl p va.
Proof.
  intros Hag Hwf. unfold val. revert p. induction lvl as [|lvl IH]; intros p Hp; cbn [wlk].
  - split; [done|]. symmetry. apply (entry_agree (is_table T)); eauto using pt_aligned, PX_range.
    by eexists.
  - assert (entry m' p (PX (Z.of_nat (S lvl)) va) = entry m p (PX (Z.of_nat (S lvl)) va)) as E.
    { symmetry. apply (entry_agree (is_table T)); eauto using pt_aligned, PX_range. by eexists. }
    unfold entry in E. rewrite E. case_match eqn:E1; [|done]. apply IH.
    apply (pt_child _ _ Hwf _ _ _ Hp (PX_range _ _) E1).
Qed.

Lemma pt_wf_agree m m' T : agree (is_table T) m m' → pt_wf m T → pt_wf m' T.
Proof.
  intros Hag Hwf.
  assert (∀ p l i, T !! p = Some l → 0 ≤ i < 512 → entry m' p i = entry m p i) as E.
  { intros p l i Hp Hi. symmetry.
    apply (entry_agree (is_table T)); eauto using pt_aligned. by eexists. }
  split.
  - apply (pt_page _ _ Hwf).
  - intros p l i Hp Hi. rewrite (E p (S l) i Hp Hi). by apply (pt_child _ _ Hwf).
  - intros p1 l1 i1 p2 l2 i2 H1 H2 Hi1 Hi2.
    rewrite (E p1 (S l1) i1 H1 Hi1), (E p2 (S l2) i2 H2 Hi2). by apply (pt_inj _ _ Hwf _ l1 _ _ l2).
Qed.

(** *** Writing a leaf PTE *)

Lemma entry_store_ne m q i v p j :
  q mod PGSIZE = 0 → p mod PGSIZE = 0 → 0 ≤ i < 512 → 0 ≤ j < 512 → ¬ (p = q ∧ j = i) →
  entry (store64 m (q + 8 * i) v) p j = entry m p j.
Proof.
  intros Hq Hp Hi Hj Hne. unfold entry. apply load64_store64_ne.
  destruct (decide (p = q)) as [->|Hpq].
  - assert (i ≠ j) by (intros ->; tauto). lia.
  - pose proof (page_disjoint p q Hp Hq Hpq). klia.
Qed.

Lemma leaf_store_wf m T q i v :
  pt_wf m T → T !! q = Some O → 0 ≤ i < 512 → pt_wf (store64 m (q + 8 * i) v) T.
Proof.
  intros Hwf Hq Hi.
  assert (∀ p l j, T !! p = Some (S l) → 0 ≤ j < 512 →
    entry (store64 m (q + 8 * i) v) p j = entry m p j) as E.
  { intros p l j Hp Hj. apply entry_store_ne; eauto using pt_aligned.
    intros [-> _]. congruence. }
  split.
  - apply (pt_page _ _ Hwf).
  - intros p l j Hp Hj. rewrite (E p l j Hp Hj). by apply (pt_child _ _ Hwf).
  - intros p1 l1 i1 p2 l2 i2 H1 H2 Hi1 Hi2.
    rewrite (E p1 l1 i1 H1 Hi1), (E p2 l2 i2 H2 Hi2). by apply (pt_inj _ _ Hwf _ l1 _ _ l2).
Qed.

Lemma leaf_store_wlk m T q i v lvl p va :
  pt_wf m T → T !! q = Some O → 0 ≤ i < 512 → T !! p = Some lvl →
  wlk (store64 m (q + 8 * i) v) lvl p va = wlk m lvl p va.
Proof.
  intros Hwf Hq Hi. revert p. induction lvl as [|lvl IH]; intros p Hp; cbn [wlk]; [done|].
  pose proof (entry_store_ne m q i v p (PX (Z.of_nat (S lvl)) va)) as E. unfold entry in E.
  rewrite E; eauto using pt_aligned, PX_range; [|intros [-> _]; congruence].
  case_match eqn:E1; [|done]. apply IH.
  apply (pt_child _ _ Hwf _ _ _ Hp (PX_range _ _) E1).
Qed.

(** It changes the translation of its own page and of no other. *)
Lemma leaf_store_pte m T root va a v :
  pt_wf m T → T !! root = Some 2%nat → wlk m 2 root va = Some a →
  pt_wf (store64 m a v) T ∧
  (∀ lvl p va', T !! p = Some lvl → wlk (store64 m a v) lvl p va' = wlk m lvl p va') ∧
  pte_of (store64 m a v) root va = u64 v ∧
  (∀ root' va', T !! root' = Some 2%nat → 0 ≤ va < 2 ^ 39 → 0 ≤ va' < 2 ^ 39 →
     ¬ (root' = root ∧ va' / PGSIZE = va / PGSIZE) →
     pte_of (store64 m a v) root' va' = pte_of m root' va').
Proof.
  intros Hwf Hroot Hw. destruct (wlk_slot _ _ _ _ _ _ Hwf Hroot Hw) as (q & Hq & ->).
  pose proof (PX_range 0 va) as HR. split_and!.
  - by apply leaf_store_wf.
  - intros. by eapply leaf_store_wlk.
  - unfold pte_of, val. rewrite (leaf_store_wlk m T) by done. rewrite Hw. apply load64_store64_eq.
  - intros root' va' Hroot' Hva Hva' Hne. unfold pte_of, val.
    rewrite (leaf_store_wlk m T) by done.
    destruct (wlk m 2 root' va') as [a'|] eqn:Hw'; [|done].
    destruct (wlk_slot _ _ _ _ _ _ Hwf Hroot' Hw') as (q' & Hq' & ->).
    apply entry_store_ne; eauto using pt_aligned, PX_range.
    intros [-> HP]. apply Hne. rewrite HP in Hw'.
    destruct (wlk_root_inj _ _ _ _ _ _ _ Hwf Hroot' Hroot Hva' Hva Hw' Hw). done.
Qed.
(** *** Adding a table *)

Lemma entry_zero m p : (∀ x, p ≤ x < p + PGSIZE → rd m x = 0) → ∀ i, 0 ≤ i < 512 → entry m p i = 0.
Proof.
  intros Hz i Hi. destruct (entry_in p i Hi).
  unfold entry. transitivity (load64 ∅ (p + 8 * i)).
  - apply load64_ext. intros x Hx. rewrite Hz by lia. done.
  - by apply load64_empty.
Qed.

Lemma wlk_zero m p lvl va :
  (∀ i, 0 ≤ i < 512 → entry m p i = 0) → val m lvl p va = 0.
Proof.
  intros Hz. unfold val. destruct lvl as [|lvl]; cbn [wlk]; unfold entry in Hz.
  - apply Hz, PX_range.
  - by rewrite Hz by apply PX_range.
Qed.

Section alloc_child.
Context (m m1 : mem) (T : gmap Z nat) (q p i : Z) (lvl : nat).
Context (Hwf : pt_wf m T) (Hq : T !! q = Some (S lvl)) (Hp : T !! p = None) (Hok : page_ok p).
Context (Hi : 0 ≤ i < 512) (Hfree : has (entry m q i) PTE_V = false).
Context (Hag : agree (λ x, x ≠ p) m m1) (Hz : ∀ j, 0 ≤ j < 512 → entry m1 p j = 0).

Let m' := store64 m1 (q + 8 * i) (Z.lor (PA2PTE p) PTE_V).
Let T' := <[p := lvl]> T.

Lemma ac_qp : q ≠ p.
Proof. congruence. Qed.

Lemma ac_new : entry m' q i = Z.lor (PA2PTE p) PTE_V ∧ PTE2PA (entry m' q i) = p ∧
  has (entry m' q i) PTE_V = true ∧ Z.land (entry m' q i) RWX = 0.
Proof.
  pose proof (page_range _ Hok). destruct Hok as [Hal _].
  assert (entry m' q i = Z.lor (PA2PTE p) PTE_V) as ->.
  { unfold entry, m'. rewrite load64_store64_eq.
    assert (0 ≤ Z.lor (PA2PTE p) PTE_V < 2 ^ 62) by (apply mkpte_range; unfold_consts; lia).
    apply u64_small. lia. }
  split_and!; [done| | |].
  - apply mkpte_pa; [lia|done|unfold_consts; lia].
  - rewrite mkpte_has; [done|lia|unfold_consts; lia..].
  - rewrite land_low by (by vm_compute). rewrite mkpte_low by (unfold_consts; lia). done.
Qed.

Lemma ac_child j : 0 ≤ j < 512 → entry m' p j = 0.
Proof.
  intros Hj. unfold m'. rewrite entry_store_ne; [by apply Hz|by eapply pt_aligned|apply Hok|done|done|].
  intros [E _]. by apply ac_qp.
Qed.

Lemma ac_old r l j : T !! r = Some l → 0 ≤ j < 512 → ¬ (r = q ∧ j = i) → entry m' r j = entry m r j.
Proof.
  intros Hr Hj Hne. unfold m'. rewrite entry_store_ne; eauto using pt_aligned.
  symmetry. apply (entry_agree (λ x, x ≠ p)); eauto using pt_aligned. congruence.
Qed.

(** A valid entry of an inner table of [T'] is either the new one or an old one. *)
Lemma ac_cases r l j :
  T' !! r = Some (S l) → 0 ≤ j < 512 → has (entry m' r j) PTE_V = true →
  (r = q ∧ j = i ∧ l = lvl) ∨
  (T !! r = Some (S l) ∧ entry m' r j = entry m r j ∧ has (entry m r j) PTE_V = true).
Proof.
  intros Hr Hj Hv. unfold T' in Hr. rewrite lookup_insert_Some in Hr. destruct Hr as [[<- _]|[Hpr Hr]].
  { by rewrite ac_child in Hv. }
  destruct (decide (r = q ∧ j = i)) as [[-> ->]|Hne].
  - left. split_and!; [done|done|congruence].
  - right. rewrite (ac_old r (S l) j) in * by done. done.
Qed.

Lemma ac_wf : pt_wf m' T'.
Proof.
  destruct ac_new as (_ & Hpa & _ & Hrwx).
  assert (∀ r l j, T !! r = Some (S l) → 0 ≤ j < 512 → has (entry m r j) PTE_V = true →
    PTE2PA (entry m r j) ≠ p) as Hnp.
  { intros r l j Hr Hj Hv E. apply (pt_child _ _ Hwf _ _ _ Hr Hj) in Hv as [Hc _]. congruence. }
  split.
  - intros r l. unfold T'. rewrite lookup_insert_Some. intros [[<- _]|[_ Hr]]; [done|].
    by eapply pt_page.
  - intros r l j Hr Hj Hv. destruct (ac_cases _ _ _ Hr Hj Hv) as [(-> & -> & ->)|(Hr' & E & Hv')].
    + rewrite Hpa. split; [apply lookup_insert_eq|done].
    + rewrite E. destruct (pt_child _ _ Hwf _ _ _ Hr' Hj Hv') as [Hc ?]. split; [|done].
      unfold T'. rewrite lookup_insert_ne; [done|]. symmetry. by eapply Hnp.
  - intros r1 l1 j1 r2 l2 j2 Hr1 Hr2 Hj1 Hj2 Hv1 Hv2 Heq.
    destruct (ac_cases _ _ _ Hr1 Hj1 Hv1) as [(-> & -> & ->)|(Hr1' & E1 & Hv1')],
      (ac_cases _ _ _ Hr2 Hj2 Hv2) as [(-> & -> & ->)|(Hr2' & E2 & Hv2')]; [done|..].
    + rewrite Hpa, E2 in Heq. by destruct (Hnp _ _ _ Hr2' Hj2 Hv2' (eq_sym Heq)).
    + rewrite Hpa, E1 in Heq. by destruct (Hnp _ _ _ Hr1' Hj1 Hv1' Heq).
    + rewrite E1, E2 in Heq. by eapply (pt_inj _ _ Hwf).
Qed.

(** Every translation stays as it was. *)
Lemma ac_val lvl' r va : T !! r = Some lvl' → val m' lvl' r va = val m lvl' r va.
Proof.
  revert r. induction lvl' as [|lvl' IH]; intros r Hr.
  - unfold val. cbn [wlk]. apply (ac_old _ O); [done|apply PX_range|].
    intros [-> _]. congruence.
  - destruct (decide (r = q ∧ PX (Z.of_nat (S lvl')) va = i)) as [[-> E]|Hne].
    + destruct ac_new as (_ & Hpa & Hv & _). unfold val. cbn [wlk]. unfold entry in *.
      rewrite E, Hv, Hfree, Hpa. apply (wlk_zero m' p), ac_child.
    + pose proof (ac_old r _ (PX (Z.of_nat (S lvl')) va) Hr (PX_range _ _) Hne) as E.
      unfold val. cbn [wlk]. unfold entry in *. rewrite E.
      destruct (has (load64 m (r + _)) PTE_V) eqn:Hv; [|done].
      apply IH. apply (pt_child _ _ Hwf _ _ _ Hr (PX_range _ _) Hv).
Qed.

Lemma ac_agree : agree (λ x, T' !! x = None) m m'.
Proof.
  destruct (entry_in q i Hi). pose proof (pt_aligned _ _ _ _ Hwf Hq).
  assert (∀ x, T' !! x = None → x ≠ p ∧ x ≠ q) as Hx.
  { intros x. unfold T'. rewrite lookup_insert_None. intros [? ?]. split; congruence. }
  eapply agree_trans.
  - eapply agree_mono; [apply Hag|]. intros x ?%Hx. tauto.
  - apply agree_sym. eapply agree_mono; [apply (agree_store64 m1 q); [done|lia|lia]|].
    intros x ?%Hx. cbn. tauto.
Qed.
End alloc_child.

(** ** How the set of tables grows *)

Record grows (s : kstate) (T : gmap Z nat) (l : list Z) (s' : kstate) (T' : gmap Z nat) (l' : list Z)
  : Prop := {
  g_only : mem_only s s';
  g_inv : vm_inv s' T' l';
  g_sub : T ⊆ T';
  (** the free list loses a prefix, of which the new tables are made *)
  g_take : ∃ tk, l = tk ++ l' ∧ (∀ p, p ∈ tk → is_table T' p);
  g_new p : is_table T' p → is_table T p ∨ p ∈ l;
  (** no other page is written *)
  g_data : agree (λ p, T' !! p = None) (pmem s) (pmem s');
  (** and the pointers that there were stay *)
  g_inner p lvl i : T !! p = Some (S lvl) → 0 ≤ i < 512 → has (entry (pmem s) p i) PTE_V = true →
    entry (pmem s') p i = entry (pmem s) p i;
}.

Definition same_ptes (s : kstate) (T : gmap Z nat) (s' : kstate) : Prop :=
  ∀ lvl r va, T !! r = Some lvl → val (pmem s') lvl r va = val (pmem s) lvl r va.

Lemma grows_refl s T l : vm_inv s T l → grows s T l s T l.
Proof.
  intros H. split; [apply mem_only_refl|done|done| |auto|done|done].
  exists []. split; [done|]. intros p Hp. by apply not_elem_of_nil in Hp.
Qed.

Lemma is_table_sub T T' p : T ⊆ T' → is_table T p → is_table T' p.
Proof. intros H [l Hl]. exists l. by eapply lookup_weaken. Qed.

Lemma grows_trans s1 T1 l1 s2 T2 l2 s3 T3 l3 :
  grows s1 T1 l1 s2 T2 l2 → grows s2 T2 l2 s3 T3 l3 → grows s1 T1 l1 s3 T3 l3.
Proof.
  intros [Ho1 Hi1 Hs1 (tk1 & -> & Htk1) Hn1 Hd1 He1] [Ho2 Hi2 Hs2 (tk2 & -> & Htk2) Hn2 Hd2 He2].
  split; [by eapply mem_only_trans|done|by etrans| | | |].
  - exists (tk1 ++ tk2). split; [by rewrite assoc_L by apply _|].
    intros p [Hp|Hp]%elem_of_app; [by eapply is_table_sub, Htk1|by apply Htk2].
  - intros p [Hp|Hp]%Hn2; [by apply Hn1|]. right. apply elem_of_app. by right.
  - eapply agree_trans; [|done]. eapply agree_mono; [done|]. intros p Hp. by eapply lookup_weaken_None.
  - intros p lvl i Hp Hi Hv. rewrite <- (He1 p lvl i Hp Hi Hv).
    apply (He2 p lvl); [by eapply lookup_weaken|done|]. by rewrite (He1 p lvl).
Qed.

(** So the slots that there were stay where they are. *)
Lemma grows_wlk s T l s' T' l' lvl r va a :
  pt_wf (pmem s) T → grows s T l s' T' l' → T !! r = Some lvl → wlk (pmem s) lvl r va = Some a →
  wlk (pmem s') lvl r va = Some a.
Proof.
  intros Hwf Hg. revert r. induction lvl as [|lvl IH]; intros r Hr; [done|]. cbn [wlk].
  pose proof (g_inner _ _ _ _ _ _ Hg r lvl _ Hr (PX_range (Z.of_nat (S lvl)) va)) as E.
  unfold entry in E. destruct (has (load64 (pmem s) _) _) eqn:Hv; [|done]. rewrite (E eq_refl), Hv.
  apply IH. apply (pt_child _ _ Hwf _ _ _ Hr (PX_range _ _) Hv).
Qed.

Lemma same_ptes_pte s T s' root va :
  same_ptes s T s' → T !! root = Some 2%nat → pte_of (pmem s') root va = pte_of (pmem s) root va.
Proof. intros H Hr. by apply H. Qed.

Lemma same_ptes_trans s T s' T' s'' :
  T ⊆ T' → same_ptes s T s' → same_ptes s' T' s'' → same_ptes s T s''.
Proof. intros Hs H1 H2 lvl r va Hr. rewrite H2 by (by eapply lookup_weaken). by apply H1. Qed.

(** One more table, from the first page of the free list. *)
Lemma alloc_child_grows s T p l q lvl i :
  vm_inv s T (p :: l) → T !! q = Some (S lvl) → 0 ≤ i < 512 →
  has (entry (pmem s) q i) PTE_V = false →
  let s1 := kalloced p s in
  let s2 := set_pmem (memset (pmem s1) p 0 PGSIZE) s1 in
  let s' := set_pmem (store64 (pmem s2) (q + 8 * i) (Z.lor (PA2PTE p) PTE_V)) s2 in
  let T' := <[p := lvl]> T in
  grows s T (p :: l) s' T' l ∧ same_ptes s T s' ∧ T' !! p = Some lvl ∧
  entry (pmem s') q i = Z.lor (PA2PTE p) PTE_V.
Proof.
  intros [Hk Hwf Hd] Hq Hi Hfree s1 s2 s' T'.
  assert (page_ok p) as Hok by (apply km_pages in Hk; by apply Forall_cons in Hk as [? _]).
  assert (T !! p = None) as Hp by (apply Hd; left).
  assert (p ∉ l) as Hpl by (apply km_nodup in Hk; by apply NoDup_cons in Hk as [? _]).
  set (m1 := pmem s2).
  assert (agree (λ x, x ≠ p) (pmem s) m1) as Hag.
  { apply agree_sym. eapply agree_trans; [apply agree_memset, Hok|]. apply agree_memset, Hok. }
  assert (∀ j, 0 ≤ j < 512 → entry m1 p j = 0) as Hz.
  { apply entry_zero. intros x Hx. unfold m1. cbn [pmem s2 set_pmem]. rewrite rd_memset by klia. by rewrite decide_True. }
  assert (T ⊆ T') as HT by (by apply insert_subseteq).
  assert (agree (λ x, T' !! x = None) (pmem s) (pmem s')) as Hda
    by (apply (ac_agree (pmem s) m1 T q p i lvl); assumption).
  assert (pt_wf (pmem s') T') as Hwf'
    by (apply (ac_wf (pmem s) m1 T q p i lvl); assumption).
  split_and!.
  - split; [apply mem_only_pmem, mem_only_pmem, mem_only_kalloced| |done| | |exact Hda|].
    + split; [|exact Hwf'|].
      * pose proof (kalloced_ok _ _ _ Hk) as [Hr1 Hn1 Hf1 Hb1]. split; cbn.
        -- eapply (fl_rep_agree (λ x, T' !! x = None ∧ x ≠ p)); [| |apply Forall_forall|exact Hr1].
           ++ eapply agree_trans; [eapply agree_mono; [apply agree_memset, Hok|]|].
              { by intros ? [_ ?]. }
              eapply agree_mono; [exact Hda|]. by intros ? [? _].
           ++ done.
           ++ intros x Hx. assert (x ≠ p) by congruence.
              split; [|done]. unfold T'. rewrite lookup_insert_ne by done. apply Hd. by right.
        -- done.
        -- done.
        -- by apply store64_ok, memset_ok.
      * intros x Hx. unfold T'. rewrite lookup_insert_ne by congruence. apply Hd. by right.
    + exists [p]. split; [done|]. intros x ->%list_elem_of_singleton. exists lvl. apply lookup_insert_eq.
    + intros x [lx Hx]. unfold T' in Hx. rewrite lookup_insert_Some in Hx.
      destruct Hx as [[<- _]|[_ Hx]]; [right; by left|left; by exists lx].
    + intros r lr j Hr Hj Hvj. apply (ac_old (pmem s) m1 T q p i lvl Hwf Hq Hp Hi Hag r (S lr)); [done|done|].
      intros [-> ->]. congruence.
  - intros lvl' r va Hr. apply (ac_val (pmem s) m1 T q p i lvl); assumption.
  - apply lookup_insert_eq.
  - by apply (ac_new m1).
Qed.

(** *** walk *)

Definition walk_post (s : kstate) (T : gmap Z nat) (l : list Z) (lvl : nat) (p va r : Z) (s' : kstate)
  : Prop :=
  ∃ T' l', grows s T l s' T' l' ∧ same_ptes s T s' ∧
    ((r = 0 ∧ l' = []) ∨ wlk (pmem s') lvl p va = Some r).

Lemma walk_loop_alloc n lvl p va s T l :
  can_lock n L_kmem s → vm_inv s T l → T !! p = Some lvl →
  wp (walk_loop lvl p va true) (walk_post s T l lvl p va) s.
Proof.
  revert p s T l. induction lvl as [|lvl IH]; intros p s T l Hc Hv Hp.
  { apply wp_ret. exists T, l. split; [by apply grows_refl|]. split; [done|]. by right. }
  cbn [walk_loop]. apply wp_bind, wp_gets.
  pose proof (PX_range (Z.of_nat (S lvl)) va) as HR. set (i := PX _ va) in *.
  destruct (has _ PTE_V) eqn:E.
  { eapply wp_mono.
    { eapply IH; [done|done|]. by apply (pt_child _ _ (vi_pt _ _ _ Hv) _ _ i Hp). }
    intros r s' (T' & l' & Hg & Hs & Hr). exists T', l'. split_and!; [done|done|].
    destruct Hr as [?|Hr]; [by left|right]. cbn [wlk]. fold i.
    pose proof (g_inner _ _ _ _ _ _ Hg p lvl i Hp HR E) as Hi. unfold entry in Hi. by rewrite Hi, E. }
  cbn [negb]. apply wp_bind. eapply wp_kalloc; [done|apply Hv|..].
  { intros ->. cbn [Z.eqb]. apply wp_ret. exists T, []. split; [by apply grows_refl|].
    split; [done|]. by left. }
  intros c l' -> Hc' _ _.
  assert (c =? 0 = false) as -> by (apply page_range in Hc'; lia).
  do 2 apply wp_bind, wp_modify.
  destruct (alloc_child_grows s T c l' p lvl i Hv Hp HR E) as (Hg & Hs & HT' & He).
  set (s1 := set_pmem _ _) in Hg, Hs, He.
  eapply wp_mono.
  { apply (IH c s1 (<[c:=lvl]> T) l'); [|by apply Hg|done].
    eapply mem_only_can_lock; [by apply Hg|done]. }
  intros r s' (T' & l'' & Hg' & Hs' & Hr). exists T', l''.
  split; [by eapply grows_trans|]. split; [eapply same_ptes_trans; [by apply Hg|done|done]|].
  destruct Hr as [?|Hr]; [by left|right]. cbn [wlk]. fold i.
  assert (has (entry (pmem s1) p i) PTE_V = true) as Hve.
  { rewrite He. rewrite mkpte_has; [done|apply page_range in Hc'; lia|unfold_consts; lia..]. }
  assert (<[c:=lvl]> T !! p = Some (S lvl)) as Hp' by (eapply lookup_weaken; [done|apply Hg]).
  pose proof (g_inner _ _ _ _ _ _ Hg' p lvl i Hp' HR Hve) as Hi. unfold entry in *.
  rewrite Hi, Hve, He, mkpte_pa; [done|apply page_range in Hc'; lia|apply Hc'|unfold_consts; lia].
Qed.

Lemma walk_loop_noalloc lvl p va s :
  walk_loop lvl p va false s = Ret (default 0 (wlk (pmem s) lvl p va)) s.
Proof.
  revert p. induction lvl as [|lvl IH]; intros p; [done|]. cbn [walk_loop wlk negb].
  erewrite bind_ret; [|reflexivity]. by destruct (has _ PTE_V).
Qed.

Lemma walk_noalloc root va s :
  va < MAXVA → walk root va false s = Ret (default 0 (wlk (pmem s) 2 root va)) s.
Proof. intros H. unfold walk. rewrite (proj2 (Z.leb_gt MAXVA va)) by done. apply walk_loop_noalloc. Qed.

Lemma walk_alloc n root va s T l :
  can_lock n L_kmem s → vm_inv s T l → T !! root = Some 2%nat → va < MAXVA →
  wp (walk root va true) (walk_post s T l 2 root va) s.
Proof.
  intros. unfold walk. rewrite (proj2 (Z.leb_gt MAXVA va)) by done. by eapply walk_loop_alloc.
Qed.
End tables.
