(* ===== verification/VmDemo.v ===== *)
(** * A checker for the page-table invariant, and a small concrete machine

    [pt_wfb] decides [pt_wf] (soundness is what is needed). [demo] is a kernel
    with two address spaces, five pages free; it instantiates the hypotheses of
    the theorems on vm.c. *)

From S2P Require Import Prelude Machine State Spinlock KString Kalloc Vm PageTable.

Section check.
Context `{L : Layout}.

Definition page_okb (p : Z) : bool := (p mod PGSIZE =? 0) && (kend <=? p) && (p <? PHYSTOP).

(** The valid entries of the inner tables: table, its level minus one, index. *)
Definition slots (m : mem) (T : gmap Z nat) : list (Z * nat * Z) :=
  filter (λ e, has (entry m e.1.1 e.2) PTE_V = true)
    (flat_map (λ pl, match pl.2 with O => [] | S l => (λ i, (pl.1, l, i)) <$> zrange 0 512 end)
       (map_to_list T)).

Definition slot_child (m : mem) (e : Z * nat * Z) : Z := PTE2PA (entry m e.1.1 e.2).

Definition pt_wfb (m : mem) (T : gmap Z nat) : bool :=
  forallb (λ pl, page_okb pl.1) (map_to_list T) &&
  forallb (λ e, bool_decide (T !! slot_child m e = Some e.1.2) &&
                (Z.land (entry m e.1.1 e.2) RWX =? 0)) (slots m T) &&
  forallb (λ e1, forallb (λ e2,
    negb (slot_child m e1 =? slot_child m e2) || ((e1.1.1 =? e2.1.1) && (e1.2 =? e2.2)))
    (slots m T)) (slots m T).

(** No valid leaf from address [lim] on, by a search of the tables. *)
Definition none_above (m : mem) (root lim : Z) : bool :=
  forallb (λ i2, if has (entry m root i2) PTE_V then
    forallb (λ i1, if has (entry m (PTE2PA (entry m root i2)) i1) PTE_V then
      forallb (λ i0, if has (entry m (PTE2PA (entry m (PTE2PA (entry m root i2)) i1)) i0) PTE_V
        then (i2 * 262144 + i1 * 512 + i0) * 4096 <? lim else true) (zrange 0 512)
      else true) (zrange 0 512) else true) (zrange 0 512).

Lemma page_okb_sound p : page_okb p = true → page_ok p.
Proof. unfold page_okb, page_ok. lia. Qed.

Lemma elem_of_slots m T p l i :
  T !! p = Some (S l) → 0 ≤ i < 512 → has (entry m p i) PTE_V = true → In (p, l, i) (slots m T).
Proof.
  intros Hp Hi Hv. unfold slots. apply list_elem_of_In. apply list_elem_of_filter. split; [done|].
  apply list_elem_of_In, in_flat_map. exists (p, S l). split.
  - by apply list_elem_of_In, elem_of_map_to_list.
  - cbn [fst snd]. apply list_elem_of_In, list_elem_of_fmap. exists i. split; [done|].
    apply elem_of_zrange. lia.
Qed.

Lemma pt_wfb_sound m T : pt_wfb m T = true → pt_wf m T.
Proof.
  unfold pt_wfb. rewrite !andb_true_iff, !forallb_forall. intros [[H1 H2] H3]. split.
  - intros p l Hp. apply page_okb_sound.
    apply (H1 (p, l)). by apply list_elem_of_In, elem_of_map_to_list.
  - intros p l i Hp Hi Hv. specialize (H2 _ (elem_of_slots m T p l i Hp Hi Hv)).
    apply andb_true_iff in H2 as [Ha Hb]. apply bool_decide_eq_true in Ha. split; [done|].
    by apply Z.eqb_eq in Hb.
  - intros p1 l1 i1 p2 l2 i2 Hp1 Hp2 Hi1 Hi2 Hv1 Hv2 E.
    specialize (H3 _ (elem_of_slots m T p1 l1 i1 Hp1 Hi1 Hv1)). rewrite forallb_forall in H3.
    specialize (H3 _ (elem_of_slots m T p2 l2 i2 Hp2 Hi2 Hv2)). unfold slot_child in H3.
    cbn [fst snd] in H3. rewrite E, Z.eqb_refl in H3. cbn [negb orb] in H3. lia.
Qed.
Lemma none_above_sound m root lim va :
  none_above m root lim = true → lim mod PGSIZE = 0 → 0 ≤ lim → lim ≤ va < 2 ^ 39 →
  has (pte_of m root va) PTE_V = false.
Proof.
  unfold none_above. rewrite forallb_forall. intros H Hlim Hlim0 Hva.
  assert (∀ k, In (PX k va) (zrange 0 512)) as Hin.
  { intros k. apply list_elem_of_In, elem_of_zrange. pose proof (PX_range k va). lia. }
  unfold pte_of, val. cbn [wlk]. change (Z.of_nat 2) with 2. change (Z.of_nat 1) with 1.
  specialize (H _ (Hin 2)). unfold entry in H.
  destruct (has (load64 m (root + 8 * PX 2 va)) PTE_V); [|done].
  rewrite forallb_forall in H. specialize (H _ (Hin 1)).
  destruct (has (load64 m (_ + 8 * PX 1 va)) PTE_V); [|done].
  rewrite forallb_forall in H. specialize (H _ (Hin 0)).
  destruct (has (load64 m (_ + 8 * PX 0 va)) PTE_V); [|done].
  exfalso. rewrite !PX_eq in H by lia. change (2 ^ (12 + 9 * 0)) with 4096 in H.
  change (2 ^ (12 + 9 * 1)) with (4096 * 512) in H.
  change (2 ^ (12 + 9 * 2)) with (4096 * 512 * 512) in H. unfold PGSIZE in *. dlia.
Qed.

End check.

(** ** The machine *)

Definition demo_rootA : Z := 0x87ff0000.
Definition demo_rootB : Z := 0x87ff5000.
Definition demo_T : gmap Z nat :=
  {[ demo_rootA := 2%nat; 0x87ff1000 := 1%nat; 0x87ff2000 := 0%nat; demo_rootB := 2%nat ]}.
Definition demo_data : list Z := [0x87ff3000; 0x87ff4000].
Definition demo_free : list Z := [0x87ff6000; 0x87ff7000; 0x87ff8000; 0x87ff9000; 0x87ffa000].

(** Address space A: page 0 readable and writable, page 1 read-only. *)
Definition demo_mem : mem :=
  let m := blit ∅ 0x87ff3ffe [104; 105; 0] in
  let m := store64 m demo_rootA (Z.lor (PA2PTE 0x87ff1000) PTE_V) in
  let m := store64 m 0x87ff1000 (Z.lor (PA2PTE 0x87ff2000) PTE_V) in
  let m := store64 m 0x87ff2000 (Z.lor (PA2PTE 0x87ff3000) 0x17) in
  let m := store64 m 0x87ff2008 (Z.lor (PA2PTE 0x87ff4000) 0x13) in
  let m := store64 m 0x87ff6000 0x87ff7000 in
  let m := store64 m 0x87ff7000 0x87ff8000 in
  let m := store64 m 0x87ff8000 0x87ff9000 in
  store64 m 0x87ff9000 0x87ffa000.

Definition demo : kstate :=
  set_freelist 0x87ff6000 (set_pmem demo_mem
    (set_cs (put_lock L_kmem (Mk_spinlock 0 "kmem" None) (cs boot)) boot)).

#[local] Existing Instance layout_ex.

Lemma demo_can_lock : can_lock 0 L_kmem demo.
Proof.
  split.
  - destruct boot_cs; by split.
  - exists "kmem"%string. apply lookup_insert_eq.
Qed.

Lemma demo_mem_ok : mem_ok demo_mem.
Proof. unfold demo_mem. repeat apply store64_ok. apply blit_ok, mem_ok_empty. Qed.

Lemma demo_pt : pt_wf demo_mem demo_T.
Proof. apply pt_wfb_sound. vm_compute. reflexivity. Qed.

Lemma demo_kmem : kmem_ok demo demo_free.
Proof.
  split; [|by apply (bool_decide_unpack (NoDup demo_free))| |apply demo_mem_ok].
  - vm_compute. done.
  - repeat constructor; apply page_okb_sound; reflexivity.
Qed.

Lemma demo_inv : vm_inv demo demo_T demo_free.
Proof.
  split; [apply demo_kmem|apply demo_pt|].
  intros p Hp. repeat (apply elem_of_cons in Hp as [->|Hp]; [reflexivity|]).
  by apply not_elem_of_nil in Hp.
Qed.

(** * Properties *)

Section props.
Context `{L : Layout}.

(** walk with alloc, for any address space of a well-formed machine: it gives
    null only when memory has run out, else the address of the level-0 slot of the
    page; the tables it adds come from the free list, no page outside the tables is
    written, and no translation of any address space changes. *)
Theorem walk_alloc_correct n root va s T l :
  can_lock n L_kmem s → vm_inv s T l → T !! root = Some 2%nat → va < MAXVA →
  ∃ r s' T' l', walk root va true s = Ret r s' ∧ vm_inv s' T' l' ∧ T ⊆ T' ∧
    (∃ tk, l = tk ++ l' ∧ ∀ p, p ∈ tk → is_table T' p) ∧
    agree (λ p, T' !! p = None) (pmem s) (pmem s') ∧
    (∀ root' va', T !! root' = Some 2%nat → pte_of (pmem s') root' va' = pte_of (pmem s) root' va') ∧
    ((r = 0 ∧ l' = []) ∨
     (0 < r ∧ load64 (pmem s') r = pte_of (pmem s) root va ∧
      ∃ q, T' !! q = Some 0%nat ∧ r = q + 8 * PX 0 va)).
Proof.
  intros Hc Hv Hroot Hva.
  destruct (wp_elim _ _ _ (walk_alloc n root va s T l Hc Hv Hroot Hva))
    as (r & s' & E & T' & l' & Hg & Hs & Hr).
  assert (T' !! root = Some 2%nat) as Hroot' by (eapply lookup_weaken; [done|apply Hg]).
  exists r, s', T', l'. split_and!; [done|apply Hg..| |].
  - intros. by apply Hs.
  - destruct Hr as [?|Hw]; [by left|right].
    pose proof (vi_pt _ _ _ (g_inv _ _ _ _ _ _ Hg)) as Hwf. split_and!.
    + by eapply wlk_nonzero.
    + rewrite <- (same_ptes_pte _ _ _ _ va Hs Hroot). unfold pte_of, val. by rewrite Hw.
    + by eapply wlk_slot.
Qed.
End props.

Lemma walk_alloc_correct_witness :
  ∃ r s' T' l', walk demo_rootB 0x3000 true demo = Ret r s' ∧ vm_inv s' T' l'.
Proof.
  destruct (walk_alloc_correct 0 demo_rootB 0x3000 demo demo_T demo_free
    demo_can_lock demo_inv eq_refl eq_refl) as (r & s' & T' & l' & E & Hv & _).
  exists r, s', T', l'. exact (conj E Hv).
Defined.
