(* ===== verification/VmOps.v ===== *)
(** * What the operations of vm.c do to address spaces

    The theorems are about [pte_of] (PageTable): [mappages], [uvmunmap],
    [uvmalloc], [uvmdealloc] and [uvmcopy] update it on the pages they are given
    and nowhere else, in this and in every other address space. *)

From S2P Require Import Prelude Machine State Spinlock KString Kalloc Vm PageTable.

Section ops.
Context `{L : Layout}.

(** The PTE that [mappages] installs. *)
Definition leaf (pa perm : Z) : Z := Z.lor (Z.lor (PA2PTE pa) perm) PTE_V.

(** The [k] pages from [va]. *)
Definition in_pages (va k va' : Z) : Prop := va ≤ va' < va + k * PGSIZE.

(** Outside [k] pages of [root] every translation of the tables [T] is as before. *)
Definition frame_ptes (T : gmap Z nat) (m m' : mem) (root va k : Z) : Prop :=
  ∀ root' va', T !! root' = Some 2%nat → 0 ≤ va' < 2 ^ 39 →
    ¬ (root' = root ∧ in_pages va k va') → pte_of m' root' va' = pte_of m root' va'.

(** ** Lemmas *)

Lemma frame_refl T m root va k : frame_ptes T m m root va k.
Proof. done. Qed.

Lemma frame_weaken T m m' root va k va' k' :
  frame_ptes T m m' root va k → (∀ x, in_pages va k x → in_pages va' k' x) →
  frame_ptes T m m' root va' k'.
Proof. intros H Hin r x Hr Hx Hn. apply H; [done|done|]. intros [? ?]; auto. Qed.

Lemma frame_trans T T' m1 m2 m3 root va k :
  T ⊆ T' → frame_ptes T m1 m2 root va k → frame_ptes T' m2 m3 root va k →
  frame_ptes T m1 m3 root va k.
Proof.
  intros HT H1 H2 r x Hr Hx Hn. rewrite H2; [by apply H1| |done|done]. by eapply lookup_weaken.
Qed.

Lemma same_ptes_frame s T s' root va k : same_ptes s T s' → frame_ptes T (pmem s) (pmem s') root va k.
Proof. intros H r x Hr _ _. by apply H. Qed.

Lemma leaf_eq pa perm : leaf pa perm = Z.lor (PA2PTE pa) (Z.lor perm PTE_V).
Proof. unfold leaf. by rewrite Z.lor_assoc. Qed.

Section leaf.
Context (pa perm : Z) (Hpa : 0 ≤ pa < 2 ^ 64) (Hperm : 0 ≤ perm < 1024).

Lemma leaf_u64 : u64 (leaf pa perm) = leaf pa perm.
Proof.
  rewrite leaf_eq. apply u64_small. pose proof (mkpte_range pa _ Hpa (lor_V_range _ Hperm)). lia.
Qed.

Lemma leaf_pa : pa mod PGSIZE = 0 → PTE2PA (leaf pa perm) = pa.
Proof. intros. rewrite leaf_eq. apply mkpte_pa; [done|done|by apply lor_V_range]. Qed.

Lemma leaf_flags : PTE_FLAGS (leaf pa perm) = Z.lor perm PTE_V.
Proof. rewrite leaf_eq. apply mkpte_flags; [done|by apply lor_V_range]. Qed.

Lemma leaf_has f : 0 ≤ f < 1024 → has (leaf pa perm) f = has (Z.lor perm PTE_V) f.
Proof. intros. rewrite leaf_eq. apply mkpte_has; [done|by apply lor_V_range|done]. Qed.

Lemma leaf_V : has (leaf pa perm) PTE_V = true.
Proof. rewrite leaf_has by (unfold_consts; lia). apply has_lor_V. Qed.
End leaf.

(** The translation of an address is that of its page. *)
Lemma PX_page k va va' :
  0 ≤ k → 0 ≤ va < 2 ^ 64 → 0 ≤ va' < 2 ^ 64 → va / PGSIZE = va' / PGSIZE → PX k va = PX k va'.
Proof.
  intros Hk Hva Hva' E. rewrite !PX_eq by done. rewrite Z.pow_add_r by lia.
  change (2 ^ 12) with PGSIZE. rewrite <- !Z.div_div by (unfold PGSIZE; lia). by rewrite E.
Qed.

Lemma wlk_page m lvl p va va' :
  0 ≤ va < 2 ^ 39 → 0 ≤ va' < 2 ^ 39 → va / PGSIZE = va' / PGSIZE → wlk m lvl p va = wlk m lvl p va'.
Proof.
  intros Hva Hva' E. assert (∀ k, 0 ≤ k → PX k va = PX k va') as HP.
  { intros k Hk. apply PX_page; [done| | |done]; unfold_consts; lia. }
  revert p. induction lvl as [|lvl IH]; intros p; cbn [wlk].
  - by rewrite HP.
  - rewrite HP by lia. case_match; [apply IH|done].
Qed.

Lemma pte_of_page m root va va' :
  0 ≤ va < 2 ^ 39 → 0 ≤ va' < 2 ^ 39 → va / PGSIZE = va' / PGSIZE → pte_of m root va = pte_of m root va'.
Proof. intros. unfold pte_of, val. by rewrite (wlk_page m 2 root va va'). Qed.

(** Writing the leaf PTE of a page. *)
Lemma set_pte_grows s T l root va a v :
  vm_inv s T l → T !! root = Some 2%nat → wlk (pmem s) 2 root va = Some a →
  0 ≤ va < 2 ^ 39 → va mod PGSIZE = 0 →
  let s' := set_pmem (store64 (pmem s) a v) s in
  grows s T l s' T l ∧ pte_of (pmem s') root va = u64 v ∧
  frame_ptes T (pmem s) (pmem s') root va 1.
Proof.
  intros [Hk Hwf Hd] Hroot Hw Hva Hal s'.
  destruct (leaf_store_pte _ _ _ _ _ v Hwf Hroot Hw) as (Hwf' & _ & Hpte & Hother).
  destruct (wlk_slot _ _ _ _ _ _ Hwf Hroot Hw) as (q & Hq & ->).
  destruct (entry_in q (PX 0 va)); [apply PX_range|].
  assert (agree (λ p, p ≠ q) (pmem s) (pmem s')) as Hag.
  { apply agree_sym. apply agree_store64; [by eapply pt_aligned|lia|lia]. }
  split_and!; [|done|].
  - split; [apply mem_only_pmem, mem_only_refl| |done| |auto| |].
    + split; [|done|done]. destruct Hk as [Hr Hn Hp Hb]. split; [|done|done|by apply store64_ok].
      eapply (fl_rep_agree (λ p, p ≠ q)); [done|done| |done].
      apply Forall_forall. intros p Hp' ->. apply Hd in Hp'. congruence.
    + exists []. split; [done|]. intros p Hp. by apply not_elem_of_nil in Hp.
    + eapply agree_mono; [done|]. intros p Hp ->. congruence.
    + intros p lvl i Hp Hi Hv. symmetry. eapply (entry_agree (λ p, p ≠ q)); eauto using pt_aligned.
      congruence.
  - intros r x Hr Hx Hn. apply Hother; [done|done|done|].
    intros [-> E]. apply Hn. split; [done|]. unfold in_pages, PGSIZE in *. dlia.
Qed.
(** *** mappages *)

(** [k] pages from [va] are mapped to the pages from [pa], and nothing else changes. *)
Definition mapped (T : gmap Z nat) (m m' : mem) (root va k pa perm : Z) : Prop :=
  (∀ i, 0 ≤ i < k → pte_of m' root (va + i * PGSIZE) = leaf (pa + i * PGSIZE) perm) ∧
  frame_ptes T m m' root va k.

Definition unmapped (m : mem) (root va k : Z) : Prop :=
  ∀ i, 0 ≤ i < k → has (pte_of m root (va + i * PGSIZE)) PTE_V = false.

Lemma mapped_cons T T' m m1 m2 root va k pa perm :
  T ⊆ T' → T !! root = Some 2%nat →
  0 ≤ k → 0 ≤ va → va + (k + 1) * PGSIZE ≤ MAXVA →
  mapped T m m1 root va 1 pa perm →
  mapped T' m1 m2 root (va + PGSIZE) k (pa + PGSIZE) perm →
  mapped T m m2 root va (k + 1) pa perm.
Proof.
  intros HT Hroot Hk Hva Hmax [H1 F1] [H2 F2]. split.
  - intros i Hi. destruct (decide (i = 0)) as [->|].
    + rewrite F2; [by apply H1| |klia|].
      * by eapply lookup_weaken.
      * unfold in_pages. klia.
    + replace (va + i * PGSIZE) with (va + PGSIZE + (i - 1) * PGSIZE) by lia.
      replace (pa + i * PGSIZE) with (pa + PGSIZE + (i - 1) * PGSIZE) by lia. apply H2. lia.
  - eapply frame_trans; [done|eapply frame_weaken; [exact F1|]|eapply frame_weaken; [exact F2|]];
      unfold in_pages; klia.
Qed.

Definition mappages_post (s : kstate) (T : gmap Z nat) (l : list Z) (root va k pa perm r : Z)
    (s' : kstate) : Prop :=
  ∃ T' l' j, grows s T l s' T' l' ∧ mapped T (pmem s) (pmem s') root va j pa perm ∧
    ((r = 0 ∧ j = k) ∨ (r = -1 ∧ 0 ≤ j < k ∧ l' = [])).

(** One page: the walk, the check and the store. *)
Lemma mappages_step n s T l root va pa perm (rest : K Z) (Q : Z → kstate → Prop) :
  can_lock n L_kmem s → vm_inv s T l → T !! root = Some 2%nat →
  va mod PGSIZE = 0 → 0 ≤ va < MAXVA → 0 ≤ pa < 2 ^ 64 → 0 ≤ perm < 1024 →
  has (pte_of (pmem s) root va) PTE_V = false →
  (∀ s' T', grows s T l s' T' [] → mapped T (pmem s) (pmem s') root va 0 pa perm → Q (-1) s') →
  (∀ s' T' l', grows s T l s' T' l' → mapped T (pmem s) (pmem s') root va 1 pa perm →
     wp rest Q s') →
  wp (pte ← walk root va true;
      if pte =? 0 then mret (-1)
      else
        v ← get_pte pte;
        if has v PTE_V then panic "mappages: remap"
        else set_pte pte (Z.lor (Z.lor (PA2PTE pa) perm) PTE_V);; rest) Q s.
Proof.
  intros Hc Hv Hroot Hal Hva Hpa Hperm Hun Hfail Hok.
  apply wp_bind. eapply wp_mono; [eapply walk_alloc; [done|done|done|lia]|].
  intros a s1 (T1 & l1 & Hg1 & Hs1 & Ha).
  assert (T1 !! root = Some 2%nat) as Hroot1 by (eapply lookup_weaken; [done|apply Hg1]).
  destruct (Z.eqb_spec a 0) as [->|Hne].
  { apply wp_ret. destruct Ha as [[_ ->]|Hw].
    - eapply Hfail; [done|]. split; [lia|]. by apply same_ptes_frame.
    - pose proof (wlk_nonzero _ _ _ _ _ _ (vi_pt _ _ _ (g_inv _ _ _ _ _ _ Hg1)) Hroot1 Hw). lia. }
  destruct Ha as [[? _]|Hw]; [done|].
  apply wp_bind, wp_gets.
  assert (load64 (pmem s1) a = pte_of (pmem s) root va) as ->.
  { rewrite <- (same_ptes_pte _ _ _ _ va Hs1 Hroot). unfold pte_of, val. by rewrite Hw. }
  rewrite Hun. apply wp_bind, wp_modify.
  destruct (set_pte_grows s1 T1 l1 root va a (leaf pa perm)) as (Hg2 & Hpte & Hfr);
    [apply Hg1|done|done|klia|done|].
  eapply Hok; [by eapply grows_trans|]. split.
  - intros i Hi. replace i with 0 by lia. rewrite !Z.mul_0_l, !Z.add_0_r.
    rewrite <- leaf_u64 by done. exact Hpte.
  - eapply frame_trans; [apply Hg1|by apply same_ptes_frame|exact Hfr].
Qed.

Lemma mappages_loop_S f root a last pa perm :
  mappages_loop (S f) root a last pa perm =
  (pte ← walk root a true;
   if pte =? 0 then mret (-1)
   else
     v ← get_pte pte;
     if has v PTE_V then panic "mappages: remap"
     else set_pte pte (Z.lor (Z.lor (PA2PTE pa) perm) PTE_V);;
       if a =? last then mret 0
       else mappages_loop f root (u64 (a + PGSIZE)) last (u64 (pa + PGSIZE)) perm).
Proof. reflexivity. Qed.

Lemma mappages_loop_ok n k s T l root va last pa perm :
  can_lock n L_kmem s → vm_inv s T l → T !! root = Some 2%nat →
  va mod PGSIZE = 0 → 0 ≤ va → va + Z.of_nat (S k) * PGSIZE ≤ MAXVA →
  0 ≤ pa → pa + Z.of_nat (S k) * PGSIZE ≤ 2 ^ 64 → 0 ≤ perm < 1024 →
  unmapped (pmem s) root va (Z.of_nat (S k)) → last = va + Z.of_nat k * PGSIZE →
  wp (mappages_loop (S k) root va last pa perm)
    (mappages_post s T l root va (Z.of_nat (S k)) pa perm) s.
Proof.
  revert s T l va pa. induction k as [|k IH];
    intros s T l va pa Hc Hv Hroot Hal Hva Hmax Hpa Hpamax Hperm Hun Hlast;
    rewrite mappages_loop_S.
  all: pose proof (Hun 0 ltac:(lia)) as Hun0; rewrite Z.mul_0_l, Z.add_0_r in Hun0.
  all: eapply mappages_step; [done|done|done|done|klia|klia|done|done|..].
  - intros s' T' Hg Hm. exists T', [], 0. split_and!; [done|done|]. right. by split_and!; [|lia|lia|].
  - intros s' T' l' Hg Hm. subst last. rewrite Z.mul_0_l, Z.add_0_r, Z.eqb_refl. apply wp_ret.
    exists T', l', 1. split_and!; [done|done|]. left. lia.
  - intros s' T' Hg Hm. exists T', [], 0. split_and!; [done|done|]. right. by split_and!; [|lia|lia|].
  - intros s1 T1 l1 Hg1 Hm1. subst last. rewrite (proj2 (Z.eqb_neq va _)) by klia.
    rewrite !u64_small by klia.
    eapply wp_mono.
    + eapply IH; [by eapply mem_only_can_lock; [apply Hg1|]|apply Hg1| | | |klia|klia|klia|done| |klia].
      * eapply lookup_weaken; [done|apply Hg1].
      * unfold PGSIZE in *. dlia.
      * klia.
      * intros i Hi. rewrite (proj2 Hm1); [|done|klia|unfold in_pages; klia].
        replace (va + PGSIZE + i * PGSIZE) with (va + (i + 1) * PGSIZE) by lia. apply Hun. lia.
    + intros r s' (T' & l' & j & Hg & Hm & Hr). exists T', l', (j + 1).
      split_and!; [by eapply grows_trans| |].
      * eapply mapped_cons; [apply Hg1|done|lia|done|klia|done|done].
      * destruct Hr as [[-> ->]|(-> & ? & ->)]; [left|right]; split_and!; done || lia.
Qed.

Lemma mappages_ok n s T l root va k pa perm :
  can_lock n L_kmem s → vm_inv s T l → T !! root = Some 2%nat →
  va mod PGSIZE = 0 → 0 ≤ va → 0 < k → va + k * PGSIZE ≤ MAXVA →
  0 ≤ pa → pa + k * PGSIZE ≤ 2 ^ 64 → 0 ≤ perm < 1024 →
  unmapped (pmem s) root va k →
  wp (mappages root va (k * PGSIZE) pa perm) (mappages_post s T l root va k pa perm) s.
Proof.
  intros Hc Hv Hroot Hal Hva Hk Hmax Hpa Hpamax Hperm Hun. unfold mappages.
  rewrite Hal, Z_mod_mult, (proj2 (Z.eqb_neq (k * PGSIZE) 0)) by klia. cbn [negb Z.eqb].
  rewrite Z_div_mult by klia.
  destruct (Z_of_nat_complete (k - 1)) as [k' Hk']; [lia|].
  assert (k = Z.of_nat (S k')) as -> by lia. rewrite Nat2Z.id.
  eapply mappages_loop_ok; try done. rewrite u64_small by klia. lia.
Qed.
(** *** Pages of data: allocation, release and writes *)

Lemma vm_inv_data s T l m :
  vm_inv s T l → agree (λ p, is_table T p ∨ p ∈ l) (pmem s) m → mem_ok m →
  vm_inv (set_pmem m s) T l ∧ same_ptes s T (set_pmem m s).
Proof.
  intros [[Hr Hn Hp Hb] Hwf Hd] Hag Hm.
  assert (agree (is_table T) (pmem s) m) as HagT by (eapply agree_mono; [done|cbn; tauto]).
  split.
  - split; [split; [|done|done|done]|by eapply pt_wf_agree|done].
    eapply fl_rep_agree; [exact Hag|done| |done]. apply Forall_forall. intros ? ?; by right.
  - intros lvl r va Hr'. by eapply wlk_agree.
Qed.

Lemma agree_kfreed p s : page_ok p → agree (λ x, x ≠ p) (pmem s) (pmem (kfreed p s)).
Proof.
  intros [Hal _]. apply agree_sym. eapply agree_trans; [apply (agree_store64 _ p); [done|lia|klia]|].
  by apply agree_memset.
Qed.

Lemma agree_kalloced p s : page_ok p → agree (λ x, x ≠ p) (pmem s) (pmem (kalloced p s)).
Proof. intros [Hal _]. apply agree_sym. by apply agree_memset. Qed.

Lemma vm_inv_agree_T s s' T l l' :
  vm_inv s T l → kmem_ok s' l' → agree (is_table T) (pmem s) (pmem s') → (∀ p, p ∈ l' → T !! p = None) →
  vm_inv s' T l' ∧ same_ptes s T s'.
Proof.
  intros Hv Hk Hag Hd. split.
  - split; [done|eapply pt_wf_agree; [done|apply Hv]|done].
  - intros lvl r va Hr. eapply wlk_agree; [done|apply Hv|done].
Qed.

Lemma is_table_ne T p x : T !! p = None → is_table T x → x ≠ p.
Proof. intros H [l Hl] ->. congruence. Qed.

Lemma kfree_inv s T l p :
  vm_inv s T l → page_ok p → p ∉ l → T !! p = None →
  vm_inv (kfreed p s) T (p :: l) ∧ same_ptes s T (kfreed p s).
Proof.
  intros Hv Hp Hl HT. apply (vm_inv_agree_T s _ T l); [done|by apply kfreed_ok; [apply Hv|..]| |].
  - eapply agree_mono; [by apply agree_kfreed|]. intros x. by apply is_table_ne.
  - intros x [->|Hx]%elem_of_cons; [done|by apply Hv].
Qed.

Lemma kalloc_inv s T l p :
  vm_inv s T (p :: l) → vm_inv (kalloced p s) T l ∧ same_ptes s T (kalloced p s).
Proof.
  intros Hv. assert (T !! p = None) by (apply Hv; left).
  assert (page_ok p) by (pose proof (km_pages _ _ (vi_kmem _ _ _ Hv)) as H1; by inversion H1).
  apply (vm_inv_agree_T s _ T (p :: l)); [done|by apply kalloced_ok, Hv| |].
  - eapply agree_mono; [by apply agree_kalloced|]. intros x. by apply is_table_ne.
  - intros x Hx. apply Hv. by right.
Qed.

(** [wp_kalloc] with the invariant of the tables. *)
Lemma wp_kalloc_vm n s T l (Q : Z → kstate → Prop) :
  can_lock n L_kmem s → vm_inv s T l →
  (l = [] → Q 0 s) →
  (∀ p l', l = p :: l' → page_ok p → p ∉ l' → T !! p = None → vm_inv (kalloced p s) T l' →
     same_ptes s T (kalloced p s) → Q p (kalloced p s)) →
  wp kalloc Q s.
Proof.
  intros Hc Hv H0 H1. eapply wp_kalloc; [done|apply Hv|done|].
  intros p l' -> Hp Hni _. destruct (kalloc_inv _ _ _ _ Hv). apply (H1 p l'); try done.
  apply Hv. left.
Qed.

(** *** uvmunmap *)

Lemma wlk_inner m m' T lvl p va :
  pt_wf m T →
  (∀ p l i, T !! p = Some (S l) → 0 ≤ i < 512 → entry m' p i = entry m p i) →
  T !! p = Some lvl → wlk m' lvl p va = wlk m lvl p va.
Proof.
  intros Hwf He. revert p. induction lvl as [|lvl IH]; intros p Hp; cbn [wlk]; [done|].
  pose proof (He p lvl _ Hp (PX_range (Z.of_nat (S lvl)) va)) as E. unfold entry in E. rewrite E.
  case_match eqn:E1; [|done]. apply IH. apply (pt_child _ _ Hwf _ _ _ Hp (PX_range _ _) E1).
Qed.

(** The pages from [va] on are mapped to the pages [ps]. *)
Definition maps_to (m : mem) (root va : Z) (ps : list Z) : Prop :=
  ∀ i p, ps !! i = Some p →
    let v := pte_of m root (va + Z.of_nat i * PGSIZE) in
    has v PTE_V = true ∧ PTE_FLAGS v ≠ PTE_V ∧ PTE2PA v = p.

(** Pages that are neither free nor tables, without repetition. *)
Record owned (T : gmap Z nat) (l ps : list Z) : Prop := {
  ow_nodup : NoDup ps;
  ow_page p : p ∈ ps → page_ok p;
  ow_free p : p ∈ ps → p ∉ l;
  ow_table p : p ∈ ps → T !! p = None;
}.

(** The pages [fr] go back to the free list; the tables stay. *)
Record shrinks (s : kstate) (T : gmap Z nat) (l : list Z) (s' : kstate) (fr : list Z) : Prop := {
  sh_only : mem_only s s';
  sh_inv : vm_inv s' T (rev fr ++ l);
  sh_data : agree (λ p, T !! p = None ∧ p ∉ fr) (pmem s) (pmem s');
  sh_inner p lvl i : T !! p = Some (S lvl) → 0 ≤ i < 512 →
    entry (pmem s') p i = entry (pmem s) p i;
}.

Lemma shrinks_refl s T l : vm_inv s T l → shrinks s T l s [].
Proof. intros. split; [apply mem_only_refl|done|done|done]. Qed.

Lemma shrinks_trans s1 T l s2 f1 s3 f2 :
  shrinks s1 T l s2 f1 → shrinks s2 T (rev f1 ++ l) s3 f2 → shrinks s1 T l s3 (f1 ++ f2).
Proof.
  intros [Ho1 Hi1 Hd1 He1] [Ho2 Hi2 Hd2 He2]. split.
  - by eapply mem_only_trans.
  - by rewrite rev_app_distr, <- app_assoc.
  - eapply agree_trans; (eapply agree_mono; [done|]); intros p [? Hp]; split; try done;
      intros ?; apply Hp, elem_of_app; auto.
  - intros p lvl i Hp Hi. rewrite (He2 p lvl), (He1 p lvl); done.
Qed.

Lemma owned_cons T l p ps :
  owned T l (p :: ps) → page_ok p ∧ p ∉ l ∧ T !! p = None ∧ owned T (p :: l) ps ∧ owned T l ps.
Proof.
  intros [Hn Hp Hf Ht]. apply NoDup_cons in Hn as [Hni Hn].
  assert (∀ x, x ∈ ps → x ∈ p :: ps) as Hc by (intros; by right).
  split_and!; [apply Hp; left|apply Hf; left|apply Ht; left|split|split]; auto.
  intros x Hx [->|Hl]%elem_of_cons; [done|]. by eapply Hf; [apply Hc|].
Qed.

Lemma set_pte_shrinks s T l root va a v :
  vm_inv s T l → T !! root = Some 2%nat → wlk (pmem s) 2 root va = Some a →
  0 ≤ va < 2 ^ 39 → va mod PGSIZE = 0 →
  let s' := set_pmem (store64 (pmem s) a v) s in
  shrinks s T l s' [] ∧ pte_of (pmem s') root va = u64 v ∧
  frame_ptes T (pmem s) (pmem s') root va 1.
Proof.
  intros Hv Hroot Hw Hva Hal s'.
  destruct (set_pte_grows s T l root va a v) as (Hg & Hp & Hf); [done..|].
  split_and!; [|done|done]. destruct (wlk_slot _ _ _ _ _ _ (vi_pt _ _ _ Hv) Hroot Hw) as (q & Hq & ->).
  split; [apply Hg|apply Hg|eapply agree_mono; [apply Hg|tauto]|].
  intros p lvl i Hp' Hi. apply entry_store_ne; eauto using PX_range, pt_aligned, vi_pt.
  intros [-> _]. congruence.
Qed.

Lemma kfree_shrinks s T l p :
  vm_inv s T l → page_ok p → p ∉ l → T !! p = None →
  shrinks s T l (kfreed p s) [p] ∧ same_ptes s T (kfreed p s).
Proof.
  intros Hv Hp Hl HT. destruct (kfree_inv s T l p) as [Hi Hs]; [done..|]. split; [|done].
  split; [done|done| |].
  - eapply agree_mono; [by apply agree_kfreed|]. intros x [_ Hx] ->. apply Hx. left.
  - intros q lvl i Hq Hi'. symmetry. apply (entry_agree (λ x, x ≠ p)); [by apply agree_kfreed| | |done].
    + congruence.
    + eapply pt_aligned; [apply Hv|done].
Qed.
Definition freed (do_free : bool) (ps : list Z) : list Z := if do_free then ps else [].

(** The pages from [va] on have no translation any more, and nothing else changes. *)
Definition cleared (T : gmap Z nat) (m m' : mem) (root va k : Z) : Prop :=
  (∀ i, 0 ≤ i < k → pte_of m' root (va + i * PGSIZE) = 0) ∧ frame_ptes T m m' root va k.

Lemma cleared_cons T m m1 m2 root va k :
  T !! root = Some 2%nat → 0 ≤ k → 0 ≤ va → va + (k + 1) * PGSIZE ≤ MAXVA →
  cleared T m m1 root va 1 → cleared T m1 m2 root (va + PGSIZE) k → cleared T m m2 root va (k + 1).
Proof.
  intros Hroot Hk Hva Hmax [H1 F1] [H2 F2]. split.
  - intros i Hi. destruct (decide (i = 0)) as [->|].
    + rewrite F2; [apply H1; lia|done|klia|unfold in_pages; klia].
    + replace (va + i * PGSIZE) with (va + PGSIZE + (i - 1) * PGSIZE) by lia. apply H2. lia.
  - eapply frame_trans; [done|eapply frame_weaken; [exact F1|]|eapply frame_weaken; [exact F2|]];
      unfold in_pages; klia.
Qed.

Lemma maps_to_cons m root va p ps :
  maps_to m root va (p :: ps) →
  (has (pte_of m root va) PTE_V = true ∧ PTE_FLAGS (pte_of m root va) ≠ PTE_V ∧
   PTE2PA (pte_of m root va) = p) ∧ maps_to m root (va + PGSIZE) ps.
Proof.
  intros H. split.
  - specialize (H O p eq_refl). by rewrite Z.mul_0_l, Z.add_0_r in H.
  - intros i q Hi. specialize (H (S i) q Hi).
    by replace (va + PGSIZE + Z.of_nat i * PGSIZE) with (va + Z.of_nat (S i) * PGSIZE) by lia.
Qed.

Lemma maps_to_frame T m m' root va ps va0 k :
  T !! root = Some 2%nat → 0 ≤ va → va + Z.of_nat (length ps) * PGSIZE ≤ MAXVA →
  frame_ptes T m m' root va0 k →
  (∀ x, in_pages va (Z.of_nat (length ps)) x → ¬ in_pages va0 k x) →
  maps_to m root va ps → maps_to m' root va ps.
Proof.
  intros Hroot Hva Hmax Hf Hdis H i p Hi. pose proof (lookup_lt_Some _ _ _ Hi).
  rewrite Hf; [by apply H|done|klia|]. intros [_ Hin]. eapply Hdis; [|done]. unfold in_pages. klia.
Qed.

Lemma pte_slot m root va v :
  pte_of m root va = v → has v PTE_V = true → ∃ a, wlk m 2 root va = Some a ∧ load64 m a = v.
Proof. unfold pte_of, val. destruct (wlk m 2 root va) as [a|]; intros <-; [eauto|done]. Qed.

(** One page: look it up, free it if asked to, clear its PTE. *)
Lemma uvmunmap_step n s T l root va p (do_free : bool) (rest : K unit) Q :
  can_lock n L_kmem s → vm_inv s T l → T !! root = Some 2%nat →
  va mod PGSIZE = 0 → 0 ≤ va < MAXVA →
  has (pte_of (pmem s) root va) PTE_V = true → PTE_FLAGS (pte_of (pmem s) root va) ≠ PTE_V →
  PTE2PA (pte_of (pmem s) root va) = p →
  (do_free = true → page_ok p ∧ p ∉ l ∧ T !! p = None) →
  (∀ s', shrinks s T l s' (freed do_free [p]) → cleared T (pmem s) (pmem s') root va 1 → wp rest Q s') →
  wp (pte ← walk root va false;
      if pte =? 0 then panic "uvmunmap: walk"
      else
        v ← get_pte pte;
        if negb (has v PTE_V) then panic "uvmunmap: not mapped"
        else if PTE_FLAGS v =? PTE_V then panic "uvmunmap: not a leaf"
        else when do_free (kfree (PTE2PA v));; set_pte pte 0;; rest) Q s.
Proof.
  intros Hc Hv Hroot Hal Hva HV Hfl Hpa Hfree Hrest.
  destruct (pte_slot _ _ _ _ eq_refl HV) as (a & Hw & Ha).
  apply wp_bind. eapply wp_eq; [apply walk_noalloc; lia|]. rewrite Hw. change (default 0 (Some a)) with a.
  rewrite (proj2 (Z.eqb_neq a 0)).
  2:{ pose proof (wlk_nonzero _ _ _ _ _ _ (vi_pt _ _ _ Hv) Hroot Hw). lia. }
  apply wp_bind, wp_gets. rewrite Ha, HV, (proj2 (Z.eqb_neq _ _) Hfl), Hpa. cbn [negb].
  assert (∀ s1, shrinks s T l s1 (freed do_free [p]) → same_ptes s T s1 →
    wp (set_pte a 0;; rest) Q s1) as Hset.
  { intros s1 Hsh Hsame. apply wp_bind, wp_modify.
    assert (wlk (pmem s1) 2 root va = Some a) as Hw1.
    { rewrite <- Hw. eapply wlk_inner; [apply Hv|apply Hsh|done]. }
    destruct (set_pte_shrinks s1 T (rev (freed do_free [p]) ++ l) root va a 0) as (Hsh2 & Hp2 & Hf2); [apply Hsh|done|done|klia|done|].
    apply Hrest.
    - rewrite <- (app_nil_r (freed do_free [p])). by eapply shrinks_trans.
    - split.
      + intros i Hi. replace i with 0 by lia. by rewrite Z.mul_0_l, Z.add_0_r.
      + eapply frame_trans; [done|by apply same_ptes_frame|done]. }
  apply wp_bind, wp_when.
  - intros ->. destruct (Hfree eq_refl) as (Hok & Hl & HT).
    destruct (kfree_shrinks s T l p) as [Hsh Hs]; [done..|].
    eapply wp_kfree; [done|apply Hv|done|done|]. intros _. by apply Hset.
  - intros ->. by apply Hset; [apply shrinks_refl|].
Qed.
Lemma uvmunmap_loop_S f root a last do_free :
  uvmunmap_loop (S f) root a last do_free =
  if negb (a <? last) then mret tt
  else
    pte ← walk root a false;
    if pte =? 0 then panic "uvmunmap: walk"
    else
      v ← get_pte pte;
      if negb (has v PTE_V) then panic "uvmunmap: not mapped"
      else if PTE_FLAGS v =? PTE_V then panic "uvmunmap: not a leaf"
      else when do_free (kfree (PTE2PA v));; set_pte pte 0;;
        uvmunmap_loop f root (u64 (a + PGSIZE)) last do_free.
Proof. reflexivity. Qed.

Definition uvmunmap_post s T l root va ps do_free (_ : unit) (s' : kstate) : Prop :=
  shrinks s T l s' (freed do_free ps) ∧
  cleared T (pmem s) (pmem s') root va (Z.of_nat (length ps)).

Lemma uvmunmap_loop_ok n ps fuel s T l root va last do_free :
  can_lock n L_kmem s → vm_inv s T l → T !! root = Some 2%nat →
  va mod PGSIZE = 0 → 0 ≤ va → va + Z.of_nat (length ps) * PGSIZE ≤ MAXVA →
  maps_to (pmem s) root va ps → (do_free = true → owned T l ps) →
  last = va + Z.of_nat (length ps) * PGSIZE → (length ps < fuel)%nat →
  wp (uvmunmap_loop fuel root va last do_free) (uvmunmap_post s T l root va ps do_free) s.
Proof.
  revert fuel s l va. induction ps as [|p ps IH];
    intros fuel s l va Hc Hv Hroot Hal Hva Hmax Hmap Hown Hlast Hfuel;
    (destruct fuel as [|fuel]; [cbn [length] in Hfuel; lia|]); rewrite uvmunmap_loop_S;
    subst last; cbn [length] in *.
  { rewrite (proj2 (Z.ltb_ge va _)) by lia. apply wp_ret. split.
    - replace (freed do_free []) with (@nil Z) by (by destruct do_free). by apply shrinks_refl.
    - split; [cbn [length]; intros; lia|done]. }
  rewrite (proj2 (Z.ltb_lt va _)) by klia. cbn [negb].
  apply maps_to_cons in Hmap as [(HV & Hfl & Hpa) Hmap].
  eapply (uvmunmap_step n s T l root va p); [done|done|done|done|klia|done|done|done| |].
  { intros ->. destruct (owned_cons _ _ _ _ (Hown eq_refl)) as (? & ? & ? & _). done. }
  intros s1 Hsh Hcl. rewrite u64_small by klia. eapply wp_mono.
  - eapply (IH _ s1 _ (va + PGSIZE)); [eapply mem_only_can_lock; [apply Hsh|done]|apply Hsh|done|..].
    + unfold PGSIZE in *. dlia.
    + klia.
    + klia.
    + eapply maps_to_frame; [done|klia|klia|apply Hcl| |done]. unfold in_pages. klia.
    + intros ->. by destruct (owned_cons _ _ _ _ (Hown eq_refl)) as (_ & _ & _ & ? & _).
    + lia.
    + lia.
  - intros ? s2 [Hsh2 Hcl2]. split.
    + replace (freed do_free (p :: ps)) with (freed do_free [p] ++ freed do_free ps) by (by destruct do_free).
      by eapply shrinks_trans.
    + cbn [length]. rewrite Nat2Z.inj_succ. eapply cleared_cons; [done|lia|done|klia|done|done].
Qed.

Lemma uvmunmap_ok n ps s T l root va do_free :
  can_lock n L_kmem s → vm_inv s T l → T !! root = Some 2%nat →
  va mod PGSIZE = 0 → 0 ≤ va → va + Z.of_nat (length ps) * PGSIZE ≤ MAXVA →
  maps_to (pmem s) root va ps → (do_free = true → owned T l ps) →
  wp (uvmunmap root va (Z.of_nat (length ps)) do_free) (uvmunmap_post s T l root va ps do_free) s.
Proof.
  intros Hc Hv Hroot Hal Hva Hmax Hmap Hown. unfold uvmunmap. rewrite Hal. cbn [negb Z.eqb].
  eapply uvmunmap_loop_ok; try done; [|lia].
  rewrite (u64_small (_ * _)) by klia. apply u64_small. klia.
Qed.

(** *** Taking pages for data *)

(** From [s] to [s'] the pages [ds] are taken for data, and others for tables. *)
Record ext (s : kstate) (T : gmap Z nat) (l : list Z) (s' : kstate) (T' : gmap Z nat) (l' ds : list Z)
  : Prop := {
  x_only : mem_only s s';
  x_inv : vm_inv s' T' l';
  x_sub : T ⊆ T';
  x_owned : owned T' l' ds;
  (** no page is lost: it is free, or data, or a new table *)
  x_pages p : p ∈ l ↔ p ∈ l' ∨ p ∈ ds ∨ (is_table T' p ∧ T !! p = None);
  x_data : agree (λ p, T' !! p = None ∧ p ∉ l) (pmem s) (pmem s');
  x_inner p lvl i : T !! p = Some (S lvl) → 0 ≤ i < 512 → has (entry (pmem s) p i) PTE_V = true →
    entry (pmem s') p i = entry (pmem s) p i;
}.

Lemma owned_nil T l : owned T l [].
Proof. split; [constructor|..]; intros p Hp; by apply not_elem_of_nil in Hp. Qed.

Lemma not_table T p : T !! p = None ↔ ¬ is_table T p.
Proof. unfold is_table. by rewrite <- eq_None_not_Some. Qed.

Lemma grows_ext s T l s' T' l' : vm_inv s T l → grows s T l s' T' l' → ext s T l s' T' l' [].
Proof.
  intros Hv Hg. split; [apply Hg|apply Hg|apply Hg|apply owned_nil| | |apply Hg].
  - intros p. destruct (g_take _ _ _ _ _ _ Hg) as (tk & -> & Htk). split.
    + intros [Hp|Hp]%elem_of_app; [|by left].
      right. right. split; [by apply Htk|]. apply Hv, elem_of_app. by left.
    + intros [Hp|[Hp|[Hp Hn]]]; [by apply elem_of_app; right|by apply not_elem_of_nil in Hp|].
      destruct (g_new _ _ _ _ _ _ Hg p Hp) as [?|]; [|done]. by apply not_table in Hn.
  - eapply agree_mono; [apply Hg|]. tauto.
Qed.

Lemma ext_refl s T l : vm_inv s T l → ext s T l s T l [].
Proof. intros. by apply grows_ext, grows_refl. Qed.

Lemma ext_trans s T l s1 T1 l1 d1 s2 T2 l2 d2 :
  ext s T l s1 T1 l1 d1 → ext s1 T1 l1 s2 T2 l2 d2 → ext s T l s2 T2 l2 (d1 ++ d2).
Proof.
  intros [Ho1 Hi1 Hs1 Hw1 Hp1 Hd1 He1] [Ho2 Hi2 Hs2 Hw2 Hp2 Hd2 He2].
  assert (∀ p, p ∈ d1 → T2 !! p = None) as Hd1T.
  { intros p Hp. apply not_table. intros HT2. apply (ow_free _ _ _ Hw1 p Hp), Hp2.
    right. right. split; [done|]. by apply (ow_table _ _ _ Hw1). }
  split.
  - by eapply mem_only_trans.
  - done.
  - by etrans.
  - split.
    + apply NoDup_app. split_and!; [apply Hw1| |apply Hw2].
      intros p Hp1' Hp2'. apply (ow_free _ _ _ Hw1 p Hp1'), Hp2. auto.
    + intros p [Hp|Hp]%elem_of_app; [by apply Hw1|by apply Hw2].
    + intros p [Hp|Hp]%elem_of_app Hl2; [|by eapply (ow_free _ _ _ Hw2)].
      apply (ow_free _ _ _ Hw1 p Hp), Hp2. auto.
    + intros p [Hp|Hp]%elem_of_app; [auto|by apply Hw2].
  - intros p. rewrite elem_of_app, Hp1, Hp2. split.
    + intros [[?|[?|[HT2 HT1]]]|[?|[HT1 HT]]]; auto.
      * right. right. split; [done|]. by eapply lookup_weaken_None.
      * right. right. split; [by eapply is_table_sub|done].
    + intros [?|[[?|?]|[HT2 HT]]]; auto.
      destruct (T1 !! p) eqn:E; [right; right; split; [by eexists|done]|auto].
  - intros x [HxT Hxl]. rewrite (Hd1 x).
    + apply Hd2. split; [done|]. intros Hx1. apply Hxl, Hp1. auto.
    + split; [by eapply lookup_weaken_None|done].
  - intros p lvl i Hp Hi HV. rewrite <- (He1 p lvl i) by done.
    apply (He2 p lvl); [by eapply lookup_weaken|done|]. by rewrite (He1 p lvl i).
Qed.
End ops.

(** * Properties *)

From S2P Require Import VmDemo.

Section props.
Context `{L : Layout}.

(** C24. mappages on unmapped pages: on success page [i] of the range translates to
    [pa + i * PGSIZE] with the permissions asked for and the valid bit; on failure
    (only when memory has run out) a prefix of the range does; in both cases every
    other translation, in this and in every other address space, and every page that
    is not a table are as before. *)
Theorem mappages_correct n s T l root va k pa perm :
  can_lock n L_kmem s → vm_inv s T l → T !! root = Some 2%nat →
  va mod PGSIZE = 0 → 0 ≤ va → 0 < k → va + k * PGSIZE ≤ MAXVA →
  0 ≤ pa → pa + k * PGSIZE ≤ 2 ^ 64 → 0 ≤ perm < 1024 →
  unmapped (pmem s) root va k →
  ∃ r s' T' l' j, mappages root va (k * PGSIZE) pa perm s = Ret r s' ∧
    vm_inv s' T' l' ∧ T ⊆ T' ∧ agree (λ p, T' !! p = None) (pmem s) (pmem s') ∧
    ((r = 0 ∧ j = k) ∨ (r = -1 ∧ 0 ≤ j < k ∧ l' = [])) ∧
    (∀ i, 0 ≤ i < j → pte_of (pmem s') root (va + i * PGSIZE) =
       Z.lor (Z.lor (PA2PTE (pa + i * PGSIZE)) perm) PTE_V) ∧
    (∀ root' va', T !! root' = Some 2%nat → 0 ≤ va' < 2 ^ 39 →
       ¬ (root' = root ∧ va ≤ va' < va + j * PGSIZE) →
       pte_of (pmem s') root' va' = pte_of (pmem s) root' va').
Proof.
  intros Hc Hv Hroot Hal Hva Hk Hmax Hpa Hpamax Hperm Hun.
  destruct (wp_elim _ _ _ (mappages_ok n s T l root va k pa perm Hc Hv Hroot Hal Hva Hk Hmax Hpa Hpamax
    Hperm Hun)) as (r & s' & E & T' & l' & j & Hg & [Hm Hf] & Hr).
  exists r, s', T', l', j. split_and!; [done|apply Hg..|done|done|done].
Qed.

(** C25. uvmunmap of pages that are mapped to [ps]: it returns, their translations
    become 0, no other translation of any address space changes, and with [do_free]
    exactly the pages [ps] are pushed on the free list (without it, none). *)
Theorem uvmunmap_correct n ps s T l root va do_free :
  can_lock n L_kmem s → vm_inv s T l → T !! root = Some 2%nat →
  va mod PGSIZE = 0 → 0 ≤ va → va + Z.of_nat (length ps) * PGSIZE ≤ MAXVA →
  maps_to (pmem s) root va ps → (do_free = true → owned T l ps) →
  ∃ s', uvmunmap root va (Z.of_nat (length ps)) do_free s = Ret tt s' ∧
    vm_inv s' T (rev (if do_free then ps else []) ++ l) ∧
    (∀ i, 0 ≤ i < Z.of_nat (length ps) → pte_of (pmem s') root (va + i * PGSIZE) = 0) ∧
    (∀ root' va', T !! root' = Some 2%nat → 0 ≤ va' < 2 ^ 39 →
       ¬ (root' = root ∧ va ≤ va' < va + Z.of_nat (length ps) * PGSIZE) →
       pte_of (pmem s') root' va' = pte_of (pmem s) root' va') ∧
    agree (λ p, T !! p = None ∧ p ∉ ps) (pmem s) (pmem s').
Proof.
  intros Hc Hv Hroot Hal Hva Hmax Hmap Hown.
  destruct (wp_elim _ _ _ (uvmunmap_ok n ps s T l root va do_free Hc Hv Hroot Hal Hva Hmax Hmap Hown))
    as ([] & s' & E & Hsh & [Hcl Hf]).
  exists s'. split_and!; [done|apply Hsh|done|done|].
  eapply agree_mono; [apply Hsh|]. intros p [? Hp]. split; [done|]. destruct do_free; [done|].
  apply not_elem_of_nil.
Qed.
End props.

#[local] Existing Instance layout_ex.

Lemma mappages_correct_witness :
  ∃ r s' T' l', mappages demo_rootB 0x3000 (2 * PGSIZE) 0x87ff3000 0x12 demo = Ret r s' ∧ vm_inv s' T' l'.
Proof.
  destruct (mappages_correct 0 demo demo_T demo_free demo_rootB 0x3000 2 0x87ff3000 0x12
    demo_can_lock demo_inv eq_refl eq_refl) as (r & s' & T' & l' & j & E & Hv & _).
  1-6: lia || (vm_compute; congruence).
  - intros i Hi. assert (i = 0 ∨ i = 1) as [-> | ->] by lia; vm_compute; reflexivity.
  - exists r, s', T', l'. exact (conj E Hv).
Defined.

Lemma demo_maps : maps_to (pmem demo) demo_rootA 0 demo_data.
Proof.
  intros [|[|i]] p Hi; [injection Hi as <-|injection Hi as <-|done];
    vm_compute; split_and!; done.
Qed.

Lemma demo_owned : owned demo_T demo_free demo_data.
Proof.
  split; [by apply (bool_decide_unpack (NoDup demo_data))|..]; intros p Hp;
    repeat (apply elem_of_cons in Hp as [->|Hp]); try by apply not_elem_of_nil in Hp.
  1-2: apply page_okb_sound; reflexivity.
  1-2: by apply (bool_decide_unpack (_ ∉ demo_free)).
  all: reflexivity.
Qed.

Lemma uvmunmap_correct_witness :
  ∃ s', uvmunmap demo_rootA 0 2 true demo = Ret tt s' ∧
    vm_inv s' demo_T (0x87ff4000 :: 0x87ff3000 :: demo_free).
Proof.
  destruct (uvmunmap_correct 0 demo_data demo demo_T demo_free demo_rootA 0 true
    demo_can_lock demo_inv eq_refl eq_refl ltac:(lia) ltac:(vm_compute; congruence)
    demo_maps (λ _, demo_owned)) as (s' & E & Hv & _).
  exists s'. exact (conj E Hv).
Defined.
