(* ===== verification/Uvm.v ===== *)
(** * User address spaces: uvmalloc, uvmdealloc, uvmcopy and uvmfree of kernel/vm.c *)

From S2P Require Import Prelude Machine State Spinlock KString Kalloc Vm PageTable VmOps.

Section uvm.
Context `{L : Layout}.

Lemma ext_shrinks s T l s1 T1 l1 ds s2 fr :
  ext s T l s1 T1 l1 (ds ++ fr) → shrinks s1 T1 l1 s2 fr → ext s T l s2 T1 (rev fr ++ l1) ds.
Proof.
  intros [Ho Hi Hs Hw Hp Hd He] [Sho Shi Shd She].
  assert (∀ p, p ∈ fr → p ∈ l) as Hfl.
  { intros p Hf. apply Hp. right. left. apply elem_of_app. by right. }
  destruct Hw as [Hn Hpg Hfr Htb]. apply NoDup_app in Hn as (Hn1 & Hn2 & Hn3).
  split; [by eapply mem_only_trans|done|done|split| | |].
  - done.
  - intros p H. apply Hpg, elem_of_app. by left.
  - intros p H. rewrite elem_of_app, elem_of_rev.
    intros [?|?]; [by eapply Hn2|]. eapply Hfr; [|done]. apply elem_of_app. by left.
  - intros p H. apply Htb, elem_of_app. by left.
  - intros p. rewrite Hp, !elem_of_app, elem_of_rev. tauto.
  - eapply agree_trans; [done|]. eapply agree_mono; [done|]. intros p [? Hl]. split; [done|]. auto.
  - intros p lvl i HT Hi' HV. rewrite (She p lvl); [by apply (He p lvl)| |done].
    by eapply lookup_weaken.
Qed.

(** A page taken from the free list and filled. *)
Lemma take_page s T l p m :
  vm_inv s T (p :: l) → agree (λ x, x ≠ p) (pmem (kalloced p s)) m → mem_ok m →
  let s' := set_pmem m (kalloced p s) in
  ext s T (p :: l) s' T l [p] ∧ same_ptes s T s'.
Proof.
  intros Hv Hag Hm s'. pose proof (km_pages _ _ (vi_kmem _ _ _ Hv)) as Hpg.
  pose proof (km_nodup _ _ (vi_kmem _ _ _ Hv)) as Hnd.
  apply Forall_cons in Hpg as [Hp _]. apply NoDup_cons in Hnd as [Hni _].
  assert (T !! p = None) as HT by (apply Hv; left).
  destruct (kalloc_inv _ _ _ _ Hv) as [Hv1 Hs1].
  destruct (vm_inv_data (kalloced p s) T l m) as [Hv2 Hs2]; [done| |done|].
  { eapply agree_mono; [done|]. intros x [Hx|Hx]; [by eapply is_table_ne|congruence]. }
  assert (agree (λ x, x ≠ p) (pmem s) m) as Hag'.
  { eapply agree_trans; [by apply agree_kalloced|done]. }
  split; [|eapply same_ptes_trans; done].
  split; [apply mem_only_pmem, mem_only_kalloced|done|done|split| | |].
  - apply NoDup_singleton.
  - by intros x ->%list_elem_of_singleton.
  - by intros x ->%list_elem_of_singleton.
  - by intros x ->%list_elem_of_singleton.
  - intros x. rewrite elem_of_cons, list_elem_of_singleton. split; [tauto|].
    intros [?|[?|[H1 H2]]]; auto. by apply not_table in H2.
  - eapply agree_mono; [done|]. intros x [_ Hx] ->. apply Hx. left.
  - intros q lvl i Hq Hi _. symmetry. eapply (entry_agree (λ x, x ≠ p)); [done|congruence| |done].
    eapply pt_aligned; [apply Hv|done].
Qed.

(** ** Filling a range of an address space page by page

    [fill i o] is the byte at offset [o] of page [i], [pm i] its permissions. *)
Section filling.
Context (s0 : kstate) (T0 : gmap Z nat) (l0 : list Z) (root base : Z).
Context (fill : nat → Z → Z) (pm : nat → Z).
Context (Hv0 : vm_inv s0 T0 l0) (Hroot : T0 !! root = Some 2%nat).
Context (Hbase : 0 ≤ base) (Hal : base mod PGSIZE = 0).
Context (Hpm : ∀ i, 0 ≤ pm i < 1024).

Definition page_at (i : nat) : Z := base + Z.of_nat i * PGSIZE.

(** [ds] are mapped and filled; [extra] are taken and not mapped. *)
Record filled (s : kstate) (T : gmap Z nat) (l ds extra : list Z) : Prop := {
  fi_ext : ext s0 T0 l0 s T l (ds ++ extra);
  fi_frame : frame_ptes T0 (pmem s0) (pmem s) root base (Z.of_nat (length ds));
  fi_pte i p : ds !! i = Some p → pte_of (pmem s) root (page_at i) = leaf p (pm i);
  fi_bytes i p o : ds !! i = Some p → 0 ≤ o < PGSIZE → rd (pmem s) (p + o) = fill i o;
}.

Lemma filled_nil : filled s0 T0 l0 [] [].
Proof. split; [by apply ext_refl|done|done|done]. Qed.

Lemma filled_page s T l ds extra p : filled s T l ds extra → p ∈ ds → page_ok p ∧ p ∉ l ∧ T !! p = None.
Proof.
  intros Hf Hp. assert (p ∈ ds ++ extra) as H by (apply elem_of_app; by left).
  pose proof (x_owned _ _ _ _ _ _ _ (fi_ext _ _ _ _ _ Hf)) as [_ H1 H2 H3]. auto.
Qed.

Lemma filled_bytes_keep s T l ds extra s' i p o (P : Z → Prop) :
  filled s T l ds extra → agree P (pmem s) (pmem s') → ds !! i = Some p → P p → 0 ≤ o < PGSIZE →
  rd (pmem s') (p + o) = fill i o.
Proof.
  intros Hf Hag Hi HP Ho. rewrite <- (fi_bytes _ _ _ _ _ Hf i p o Hi Ho). symmetry. apply Hag.
  rewrite (pg_in p); [done| |lia].
  eapply filled_page; [done|by eapply list_elem_of_lookup_2].
Qed.

(** A new page, filled by the caller. *)
Lemma filled_take s T l ds p m :
  filled s T (p :: l) ds [] → agree (λ x, x ≠ p) (pmem (kalloced p s)) m → mem_ok m →
  filled (set_pmem m (kalloced p s)) T l ds [p].
Proof.
  intros Hf Hag Hm. pose proof (fi_ext _ _ _ _ _ Hf) as Hx.
  destruct (take_page s T l p m (x_inv _ _ _ _ _ _ _ Hx) Hag Hm) as [Hx' Hs'].
  assert (T !! root = Some 2%nat) as HrT by (eapply lookup_weaken; [done|apply Hx]).
  split.
  - rewrite <- (app_nil_r ds). by eapply ext_trans.
  - eapply frame_trans; [apply Hx|apply Hf|by apply same_ptes_frame].
  - intros i q Hi. rewrite (same_ptes_pte _ _ _ _ _ Hs' HrT). by apply Hf.
  - intros i q o Hi Ho. eapply filled_bytes_keep; [done|apply Hx'|done| |done].
    destruct (filled_page _ _ _ _ _ q Hf) as (_ & ? & ?); [by eapply list_elem_of_lookup_2|done].
Qed.

(** Mapping it, or running out of memory for the tables. *)
Lemma filled_map n s T l ds p :
  can_lock n L_kmem s → filled s T l ds [p] →
  page_at (S (length ds)) ≤ MAXVA →
  has (pte_of (pmem s0) root (page_at (length ds))) PTE_V = false →
  (∀ o, 0 ≤ o < PGSIZE → rd (pmem s) (p + o) = fill (length ds) o) →
  wp (mappages root (page_at (length ds)) PGSIZE p (pm (length ds)))
    (λ r s', ∃ T' l', (r = 0 ∧ filled s' T' l' (ds ++ [p]) []) ∨ (r = -1 ∧ filled s' T' l' ds [p])) s.
Proof.
  intros Hc Hf Hmax Hun Hbytes. pose proof (fi_ext _ _ _ _ _ Hf) as Hx.
  set (k := length ds) in *. unfold page_at in *.
  assert (page_ok p ∧ p ∉ l ∧ T !! p = None) as (Hp & Hpl & HpT).
  { destruct (x_owned _ _ _ _ _ _ _ Hx) as [_ H1 H2 H3].
    assert (p ∈ ds ++ [p]) by (apply elem_of_app; right; left). auto. }
  pose proof (page_range _ Hp).
  assert (T !! root = Some 2%nat) as HrT by (eapply lookup_weaken; [done|apply Hx]).
  eapply wp_mono.
  { apply (mappages_ok n s T l root _ 1); [done|apply Hx|done| |klia|lia|klia|klia|klia|done|].
    - unfold PGSIZE in *. dlia.
    - intros i Hi. replace i with 0 by lia. rewrite Z.mul_0_l, Z.add_0_r.
      rewrite (fi_frame _ _ _ _ _ Hf); [done|done|klia|]. unfold in_pages. fold k. klia. }
  intros r s' (T' & l' & j & Hg & [Hm Hfr] & Hr). exists T', l'.
  apply (grows_ext _ _ _ _ _ _ (x_inv _ _ _ _ _ _ _ Hx)) in Hg.
  assert (ext s0 T0 l0 s' T' l' (ds ++ [p])) as Hx'.
  { rewrite <- (app_nil_r (ds ++ [p])). by eapply ext_trans. }
  assert (∀ q, q ∈ ds ++ [p] → T' !! q = None ∧ q ∉ l) as Hq.
  { intros q Hq. split; [by apply (x_owned _ _ _ _ _ _ _ Hx')|by apply (x_owned _ _ _ _ _ _ _ Hx)]. }
  assert (∀ i q, ds !! i = Some q → pte_of (pmem s') root (base + Z.of_nat i * PGSIZE) = leaf q (pm i)) as Hold.
  { intros i q Hi. pose proof (lookup_lt_Some _ _ _ Hi). rewrite Hfr; [by apply Hf|done|klia|].
    unfold in_pages. fold k in H0. klia. }
  assert (∀ i q o, ds !! i = Some q → 0 ≤ o < PGSIZE → rd (pmem s') (q + o) = fill i o) as Hby.
  { intros i q o Hi Ho. eapply filled_bytes_keep; [done|apply Hg|done| |done].
    apply Hq, elem_of_app. left. by eapply list_elem_of_lookup_2. }
  destruct Hr as [[-> ->]|(-> & ? & ->)]; [left|right]; (split; [done|]); split.
  - by rewrite app_nil_r.
  - rewrite length_app. cbn [length]. fold k. eapply frame_trans; [apply Hx| |].
    + eapply frame_weaken; [apply Hf|]. unfold in_pages. fold k. klia.
    + eapply frame_weaken; [exact Hfr|]. unfold in_pages. klia.
  - intros i q [Hi|[Hi E]]%lookup_app_Some; [by apply Hold|].
    apply list_lookup_singleton_Some in E as [E <-]. assert (i = k) as -> by (fold k in E; lia).
    specialize (Hm 0 ltac:(lia)). by rewrite !Z.mul_0_l, !Z.add_0_r in Hm.
  - intros i q o [Hi|[Hi E]]%lookup_app_Some Ho; [by eapply Hby|].
    apply list_lookup_singleton_Some in E as [E <-]. assert (i = k) as -> by (fold k in E; lia).
    rewrite <- Hbytes by done. symmetry. apply (x_data _ _ _ _ _ _ _ Hg).
    rewrite (pg_in p); [|apply Hp|lia]. apply Hq, elem_of_app. right. left.
  - done.
  - eapply frame_trans; [apply Hx|apply Hf|]. eapply frame_weaken; [exact Hfr|].
    unfold in_pages. fold k. klia.
  - done.
  - done.
Qed.

Lemma filled_free s T l ds p :
  filled s T l ds [p] → filled (kfreed p s) T (p :: l) ds [].
Proof.
  intros Hf. pose proof (fi_ext _ _ _ _ _ Hf) as Hx.
  destruct (x_owned _ _ _ _ _ _ _ Hx) as [Hn H1 H2 H3].
  assert (p ∈ ds ++ [p]) as Hin by (apply elem_of_app; right; left).
  destruct (kfree_shrinks s T l p) as [Hsh Hs]; [apply Hx|by auto..|].
  assert (T !! root = Some 2%nat) as HrT by (eapply lookup_weaken; [done|apply Hx]).
  split.
  - rewrite app_nil_r. eapply ext_shrinks in Hx; [|done]. exact Hx.
  - eapply frame_trans; [apply Hx|apply Hf|by apply same_ptes_frame].
  - intros i q Hi. rewrite (same_ptes_pte _ _ _ _ _ Hs HrT). by apply Hf.
  - intros i q o Hi Ho. eapply filled_bytes_keep; [done|apply Hsh|done| |done].
    assert (q ∈ ds) as Hq by (by eapply list_elem_of_lookup_2).
    split; [by apply H3, elem_of_app; left|].
    intros ->%list_elem_of_singleton. apply NoDup_app in Hn as (_ & Hn & _).
    by apply (Hn p Hq); left.
Qed.

Context (Hleaf : ∀ i, Z.lor (pm i) PTE_V ≠ PTE_V).

(** As if nothing had been mapped: only tables were added. *)
Definition undone (k : Z) (s' : kstate) : Prop :=
  ∃ T' l', ext s0 T0 l0 s' T' l' [] ∧ cleared T0 (pmem s0) (pmem s') root base k.

Lemma filled_maps_to s T l ds : filled s T l ds [] → maps_to (pmem s) root base ds.
Proof.
  intros Hf i p Hi v. pose proof (fi_pte _ _ _ _ _ Hf i p Hi) as E. unfold page_at in E.
  subst v. rewrite E.
  destruct (filled_page _ _ _ _ _ p Hf) as (Hp & _); [by eapply list_elem_of_lookup_2|].
  pose proof (page_range _ Hp). split_and!.
  - apply leaf_V; [lia|done].
  - by rewrite leaf_flags by (done || lia).
  - apply leaf_pa; [lia|done|apply Hp].
Qed.

Lemma filled_undo n s T l ds :
  can_lock n L_kmem s → filled s T l ds [] → page_at (length ds) ≤ MAXVA →
  wp (uvmunmap root base (Z.of_nat (length ds)) true)
    (λ _ s', undone (Z.of_nat (length ds)) s') s.
Proof.
  intros Hc Hf Hmax. pose proof (fi_ext _ _ _ _ _ Hf) as Hx. unfold page_at in Hmax.
  rewrite app_nil_r in Hx.
  eapply wp_mono.
  - apply (uvmunmap_ok n ds s T l); [done|apply Hx| |done|done|lia|by eapply filled_maps_to|].
    + eapply lookup_weaken; [done|apply Hx].
    + intros _. apply Hx.
  - intros ? s' [Hsh [Hcl Hfr]]. exists T, (rev ds ++ l). split.
    + by eapply (ext_shrinks _ _ _ _ _ _ [] _ ds).
    + split; [done|]. eapply frame_trans; [apply Hx|apply Hf|done].
Qed.

Lemma uvmdealloc_undo n s T l ds :
  can_lock n L_kmem s → filled s T l ds [] → page_at (length ds) ≤ MAXVA →
  wp (uvmdealloc root (page_at (length ds)) base)
    (λ _ s', undone (Z.of_nat (length ds)) s') s.
Proof.
  intros Hc Hf Hmax. unfold uvmdealloc. case_match eqn:E.
  { assert (length ds = O) as Hlen by (unfold page_at in E; klia). apply wp_ret.
    apply nil_length_inv in Hlen. subst ds. exists T, l.
    split; [apply Hf|]. split; [cbn [length]; intros; lia|apply Hf]. }
  unfold page_at in *. rewrite (PGROUNDUP_aligned base), (PGROUNDUP_aligned (base + _))
    by first [done|klia|unfold PGSIZE in *; dlia].
  rewrite (proj2 (Z.ltb_lt base _)) by lia. cbn [when].
  assert (u64 (s32 ((base + Z.of_nat (length ds) * PGSIZE - base) / PGSIZE)) = Z.of_nat (length ds)) as ->.
  { replace (base + Z.of_nat (length ds) * PGSIZE - base) with (Z.of_nat (length ds) * PGSIZE) by lia.
    rewrite Z_div_mult by klia. rewrite s32_small, u64_small by klia. done. }
  apply wp_bind. eapply wp_mono; [by eapply filled_undo|]. intros ? s' Hu. by apply wp_ret.
Qed.
End filling.

(** ** uvmalloc *)

Lemma uvmalloc_loop_S f root oldsz a newsz xperm :
  uvmalloc_loop (S f) root oldsz a newsz xperm =
  if negb (a <? newsz) then mret newsz
  else
    mem ← kalloc;
    if mem =? 0 then uvmdealloc root a oldsz;; mret 0
    else
      k_memset mem 0 PGSIZE;;
      r ← mappages root a PGSIZE mem (Z.lor (Z.lor PTE_R PTE_U) xperm);
      if negb (r =? 0) then kfree mem;; uvmdealloc root a oldsz;; mret 0
      else uvmalloc_loop f root oldsz (u64 (a + PGSIZE)) newsz xperm.
Proof. reflexivity. Qed.

Definition ru (xperm : Z) : Z := Z.lor (Z.lor PTE_R PTE_U) xperm.

Definition zeroed (_ : nat) (_ : Z) : Z := 0.

(** What [uvmalloc] of [k] pages from [base] does. *)
Definition uvmalloc_post s0 T0 l0 root base xperm k newsz (r : Z) (s' : kstate) : Prop :=
  (r = newsz ∧ ∃ T' l' ds, length ds = k ∧ filled s0 T0 l0 root base zeroed (λ _, ru xperm) s' T' l' ds []) ∨
  (r = 0 ∧ ∃ j : nat, (j < k)%nat ∧ undone s0 T0 l0 root base (Z.of_nat j) s').

Lemma uvmalloc_loop_ok n s0 T0 l0 root base newsz xperm k fuel s T l ds :
  vm_inv s0 T0 l0 → T0 !! root = Some 2%nat → can_lock n L_kmem s0 →
  0 ≤ base → base mod PGSIZE = 0 → 0 ≤ xperm < 1024 →
  base + Z.of_nat k * PGSIZE ≤ MAXVA → newsz ≤ base + Z.of_nat k * PGSIZE →
  base + (Z.of_nat k - 1) * PGSIZE < newsz →
  unmapped (pmem s0) root base (Z.of_nat k) →
  filled s0 T0 l0 root base zeroed (λ _, ru xperm) s T l ds [] →
  (length ds ≤ k)%nat → (k < fuel + length ds)%nat →
  wp (uvmalloc_loop fuel root base (page_at base (length ds)) newsz xperm)
    (uvmalloc_post s0 T0 l0 root base xperm k newsz) s.
Proof.
  intros Hv0 Hroot Hc0 Hbase Hal Hxp Hmax Hnew1 Hnew2 Hun.
  assert (0 ≤ ru xperm < 1024) as Hru by (apply lor_range; [by vm_compute|done]).
  assert (Z.lor (ru xperm) PTE_V ≠ PTE_V) as Hleaf.
  { intros E. apply (f_equal (λ z, Z.testbit z 1)) in E. unfold ru in E. rewrite !Z.lor_spec in E. done. }
  revert s T l ds. induction fuel as [|fuel IH]; intros s T l ds Hf Hk Hfuel; [lia|].
  pose proof (fi_ext _ _ _ _ _ _ _ _ _ _ _ _ Hf) as Hx.
  assert (can_lock n L_kmem s) as Hc by (eapply mem_only_can_lock; [apply Hx|done]).
  rewrite uvmalloc_loop_S. destruct (Z.ltb_spec (page_at base (length ds)) newsz) as [Hlt|Hge]; cbn [negb].
  2:{ apply wp_ret. left. split; [done|]. exists T, l, ds. split; [|done].
      unfold page_at in Hge. klia. }
  assert (length ds < k)%nat as Hdk by (unfold page_at in Hlt; klia).
  assert (page_at base (S (length ds)) ≤ MAXVA) as Hpm by (unfold page_at; klia).
  assert (page_at base (length ds) ≤ MAXVA) as Hpm' by (unfold page_at; klia).
  assert (∀ s1 T1 l1, filled s0 T0 l0 root base zeroed (λ _, ru xperm) s1 T1 l1 ds [] →
    wp (uvmdealloc root (page_at base (length ds)) base;; mret 0)
      (uvmalloc_post s0 T0 l0 root base xperm k newsz) s1) as Hundo.
  { intros s1 T1 l1 Hf1. apply wp_bind. eapply wp_mono.
    - eapply (uvmdealloc_undo s0 T0 l0 root base zeroed (λ _, ru xperm)); try done.
      eapply mem_only_can_lock; [apply Hf1|done].
    - intros ? s' Hu. apply wp_ret. right. split; [done|]. by exists (length ds). }
  apply wp_bind. eapply wp_kalloc_vm; [done|apply Hx| |].
  { intros ->. cbn [Z.eqb]. by eapply Hundo. }
  intros p l' -> Hp _ _ _ _. rewrite (proj2 (Z.eqb_neq p 0)) by (apply page_range in Hp; lia).
  apply wp_bind, wp_modify.
  assert (filled s0 T0 l0 root base zeroed (λ _, ru xperm)
    (set_pmem (memset (pmem (kalloced p s)) p 0 PGSIZE) (kalloced p s)) T l' ds [p]) as Hf1.
  { apply filled_take; [exact Hroot|exact Hf|..].
    - apply agree_sym, agree_memset, Hp.
    - apply memset_ok. by apply memset_ok, (km_bytes _ _ (vi_kmem _ _ _ (x_inv _ _ _ _ _ _ _ Hx))). }
  apply wp_bind. eapply wp_mono.
  { eapply (filled_map s0 T0 l0 root base zeroed (λ _, ru xperm));
      [exact Hroot|exact Hbase|exact Hal|done|eapply mem_only_can_lock; [apply Hf1|done]
      |exact Hf1|exact Hpm|apply Hun; lia|].
    intros o Ho. cbn [pmem set_pmem]. rewrite rd_memset by klia. by rewrite decide_True by lia. }
  intros r s2 (T2 & l2 & [[-> Hf2]|[-> Hf2]]); cbn [negb Z.eqb].
  - replace (u64 (page_at base (length ds) + PGSIZE)) with (page_at base (length (ds ++ [p]))).
    + apply (IH s2 T2 l2); [done|rewrite length_app; cbn [length]; lia..].
    + rewrite length_app. unfold page_at in *. cbn [length]. rewrite u64_small by klia. lia.
  - pose proof (fi_ext _ _ _ _ _ _ _ _ _ _ _ _ Hf2) as Hx2.
    destruct (x_owned _ _ _ _ _ _ _ Hx2) as [_ H1 H2 H3].
    assert (p ∈ ds ++ [p]) as Hin by (apply elem_of_app; right; left).
    apply wp_bind. eapply wp_kfree; [eapply mem_only_can_lock; [apply Hx2|done]|apply Hx2|by auto..|].
    intros _. eapply Hundo. by apply filled_free.
Qed.

(** [uvmalloc] with a sane request: rounds up, and needs [k] new pages. *)
Lemma uvmalloc_ok n s T l root oldsz newsz xperm (k : nat) :
  vm_inv s T l → T !! root = Some 2%nat → can_lock n L_kmem s →
  0 ≤ oldsz ≤ newsz → newsz ≤ MAXVA - PGSIZE → 0 ≤ xperm < 1024 →
  k = Z.to_nat ((PGROUNDUP newsz - PGROUNDUP oldsz) / PGSIZE) →
  unmapped (pmem s) root (PGROUNDUP oldsz) (Z.of_nat k) →
  wp (uvmalloc root oldsz newsz xperm)
    (uvmalloc_post s T l root (PGROUNDUP oldsz) xperm k newsz) s.
Proof.
  intros Hv Hroot Hc Hsz Hmax Hxp -> Hun. unfold uvmalloc.
  rewrite (proj2 (Z.ltb_ge newsz oldsz)) by lia.
  destruct (PGROUNDUP_bounds oldsz) as [Ho1 Ho2]; [klia|].
  destruct (PGROUNDUP_bounds newsz) as [He1 He2]; [klia|].
  set (b := PGROUNDUP oldsz) in *. set (e := PGROUNDUP newsz) in *. clearbody b e.
  set (k := Z.to_nat ((e - b) / PGSIZE)) in *.
  assert (e = b + Z.of_nat k * PGSIZE) as He by (unfold k, PGSIZE in *; dlia).
  replace (uvmalloc_loop _ root b b newsz xperm)
    with (uvmalloc_loop (S (Z.to_nat ((newsz - b + PGSIZE - 1) / PGSIZE))) root b
            (page_at b (length (@nil Z))) newsz xperm) by (unfold page_at; cbn; by rewrite Z.add_0_r).
  clearbody k. eapply uvmalloc_loop_ok; [exact Hv|done|done|klia|done|done|klia|lia|klia|done| |cbn; lia|].
  - by apply filled_nil.
  - cbn [length]. unfold PGSIZE in *. dlia.
Qed.

(** ** uvmcopy *)

Lemma uvmcopy_loop_S f old new sz i :
  uvmcopy_loop (S f) old new sz i =
  let err := uvmunmap new 0 (i / PGSIZE) true;; mret (-1) in
  if negb (i <? sz) then mret 0
  else
    pte ← walk old i false;
    if pte =? 0 then panic "uvmcopy: pte should exist"
    else
      v ← get_pte pte;
      if negb (has v PTE_V) then panic "uvmcopy: page not present"
      else
        let pa := PTE2PA v in
        let flags := PTE_FLAGS v in
        mem ← kalloc;
        if mem =? 0 then err
        else
          k_memmove mem pa PGSIZE;;
          r ← mappages new i PGSIZE mem flags;
          if negb (r =? 0) then kfree mem;; err
          else uvmcopy_loop f old new sz (u64 (i + PGSIZE)).
Proof. reflexivity. Qed.

Section copy.
Context (s0 : kstate) (T0 : gmap Z nat) (l0 : list Z) (old new : Z) (qs : list Z) (n : Z).
Context (Hv0 : vm_inv s0 T0 l0) (Hc0 : can_lock n L_kmem s0).
Context (Hold : T0 !! old = Some 2%nat) (Hnew : T0 !! new = Some 2%nat) (Hne : old ≠ new).
Context (Hqs : maps_to (pmem s0) old 0 qs) (Hown : owned T0 l0 qs).
Context (Hmax : Z.of_nat (length qs) * PGSIZE ≤ MAXVA).
Context (Hun : unmapped (pmem s0) new 0 (Z.of_nat (length qs))).

Definition old_pte (i : nat) : Z := pte_of (pmem s0) old (page_at 0 i).
Definition cp_fill (i : nat) (o : Z) : Z := rd (pmem s0) (nth i qs 0 + o).
Definition cp_perm (i : nat) : Z := if decide (i < length qs)%nat then PTE_FLAGS (old_pte i) else PTE_R.

Lemma flags_range v : 0 ≤ PTE_FLAGS v < 1024.
Proof.
  unfold PTE_FLAGS. change 0x3FF with (Z.ones 10). rewrite Z.land_ones by lia.
  apply Z.mod_pos_bound. lia.
Qed.

Lemma flags_V v : has v PTE_V = true → Z.lor (PTE_FLAGS v) PTE_V = PTE_FLAGS v.
Proof.
  change PTE_V with (2 ^ 0). rewrite has_testbit by lia. intros HV. apply Z.bits_inj'. intros k Hk.
  rewrite Z.lor_spec. destruct (decide (k = 0)) as [->|].
  - unfold PTE_FLAGS. rewrite Z.land_spec, HV. done.
  - rewrite Z.pow2_bits_false by lia. apply orb_false_r.
Qed.

Lemma cp_perm_range i : 0 ≤ cp_perm i < 1024.
Proof. unfold cp_perm. case_decide; [apply flags_range|by vm_compute]. Qed.

Lemma cp_perm_leaf i : Z.lor (cp_perm i) PTE_V ≠ PTE_V.
Proof.
  unfold cp_perm. case_decide as Hi; [|by vm_compute].
  destruct (lookup_lt_is_Some_2 _ _ Hi) as [q Hq]. destruct (Hqs i q Hq) as (HV & Hf & _).
  rewrite flags_V; [|done]. done.
Qed.

Definition uvmcopy_post (r : Z) (s' : kstate) : Prop :=
  (r = 0 ∧ ∃ T' l' ds, length ds = length qs ∧ filled s0 T0 l0 new 0 cp_fill cp_perm s' T' l' ds []) ∨
  (r = -1 ∧ ∃ j : nat, (j < length qs)%nat ∧ undone s0 T0 l0 new 0 (Z.of_nat j) s').

(** The parent's page [i], unchanged while the child is being filled. *)
Lemma parent_page s T l ds q :
  filled s0 T0 l0 new 0 cp_fill cp_perm s T l ds [] → qs !! length ds = Some q →
  pte_of (pmem s) old (page_at 0 (length ds)) = old_pte (length ds) ∧
  has (old_pte (length ds)) PTE_V = true ∧ PTE2PA (old_pte (length ds)) = q ∧
  cp_perm (length ds) = PTE_FLAGS (old_pte (length ds)) ∧
  q ∉ l ∧ T !! q = None ∧
  ∀ o, 0 ≤ o < PGSIZE → rd (pmem s) (q + o) = cp_fill (length ds) o.
Proof.
  intros Hf Hq. pose proof (lookup_lt_Some _ _ _ Hq) as Hlt.
  pose proof (fi_ext _ _ _ _ _ _ _ _ _ _ _ _ Hf) as Hx.
  destruct (Hqs _ q Hq) as (HV & _ & Hpa). unfold page_at.
  assert (q ∈ qs) as Hin by (by eapply list_elem_of_lookup_2).
  assert (T !! q = None) as HT.
  { apply not_table. intros HT. apply (ow_free _ _ _ Hown q Hin).
    apply (x_pages _ _ _ _ _ _ _ Hx). right. right. split; [done|by apply Hown]. }
  assert (q ∉ l0) as Hl0 by (by apply Hown).
  split_and!; [|done|done| | |done|].
  - apply (fi_frame _ _ _ _ _ _ _ _ _ _ _ _ Hf); [done|klia|]. by intros [? _].
  - unfold cp_perm. by rewrite decide_True.
  - intros Hl. apply Hl0, (x_pages _ _ _ _ _ _ _ Hx). by left.
  - intros o Ho. unfold cp_fill. rewrite (nth_lookup_Some _ _ _ _ Hq). symmetry.
    apply (x_data _ _ _ _ _ _ _ Hx). rewrite (pg_in q); [done|by apply Hown|lia].
Qed.

Lemma memmove_page m dst src :
  mem_ok m → dst mod PGSIZE = 0 → src mod PGSIZE = 0 →
  agree (λ x, x ≠ dst) (memmove m dst src PGSIZE) m ∧
  ∀ o, 0 ≤ o < PGSIZE → rd (memmove m dst src PGSIZE) (dst + o) = rd m (src + o).
Proof.
  intros Hm Hd Hs. split.
  - intros x Hx. rewrite rd_memmove by (done || klia). rewrite decide_False; [done|].
    intros H. apply Hx. by apply pg_in.
  - intros o Ho. rewrite rd_memmove by (done || klia). rewrite decide_True by lia. f_equal. lia.
Qed.

Lemma uvmcopy_loop_ok fuel s T l ds sz :
  sz ≤ Z.of_nat (length qs) * PGSIZE → (Z.of_nat (length qs) - 1) * PGSIZE < sz →
  filled s0 T0 l0 new 0 cp_fill cp_perm s T l ds [] →
  (length ds ≤ length qs)%nat → (length qs < fuel + length ds)%nat →
  wp (uvmcopy_loop fuel old new sz (page_at 0 (length ds))) uvmcopy_post s.
Proof.
  intros Hsz1 Hsz2. revert s T l ds. induction fuel as [|fuel IH]; intros s T l ds Hf Hk Hfuel; [lia|].
  pose proof (fi_ext _ _ _ _ _ _ _ _ _ _ _ _ Hf) as Hx.
  assert (can_lock n L_kmem s) as Hc by (eapply mem_only_can_lock; [apply Hx|done]).
  rewrite uvmcopy_loop_S. cbn zeta.
  destruct (Z.ltb_spec (page_at 0 (length ds)) sz) as [Hlt|Hge]; cbn [negb].
  2:{ apply wp_ret. left. split; [done|]. exists T, l, ds. split; [|done].
      unfold page_at in Hge. klia. }
  assert (length ds < length qs)%nat as Hdk by (unfold page_at in Hlt; klia).
  assert (page_at 0 (length ds) / PGSIZE = Z.of_nat (length ds)) as ->
    by (unfold page_at; rewrite Z.add_0_l, Z_div_mult by klia; done).
  assert (page_at 0 (length ds) < MAXVA) as Hpm by (unfold page_at; klia).
  assert (∀ s1 T1 l1, filled s0 T0 l0 new 0 cp_fill cp_perm s1 T1 l1 ds [] →
    wp (uvmunmap new 0 (Z.of_nat (length ds)) true;; mret (-1)) uvmcopy_post s1) as Hundo.
  { intros s1 T1 l1 Hf1. apply wp_bind. eapply wp_mono.
    - eapply (filled_undo s0 T0 l0 new 0 cp_fill cp_perm);
        [done|done|done|apply cp_perm_range|apply cp_perm_leaf| |done|lia].
      eapply mem_only_can_lock; [apply Hf1|done].
    - intros ? s' Hu. apply wp_ret. right. split; [done|]. by exists (length ds). }
  destruct (lookup_lt_is_Some_2 _ _ Hdk) as [q Hq].
  destruct (parent_page s T l ds q Hf Hq) as (Hpte & HV & Hpa & Hperm & Hql & HqT & Hbytes).
  destruct (pte_slot _ _ _ _ Hpte HV) as (a & Hw & Ha).
  apply wp_bind. eapply wp_eq; [by apply walk_noalloc|]. rewrite Hw. change (default 0 (Some a)) with a.
  rewrite (proj2 (Z.eqb_neq a 0)).
  2:{ assert (T !! old = Some 2%nat) as HoT by (eapply lookup_weaken; [done|apply Hx]).
      pose proof (wlk_nonzero _ _ _ _ _ _ (vi_pt _ _ _ (x_inv _ _ _ _ _ _ _ Hx)) HoT Hw). lia. }
  apply wp_bind, wp_gets. rewrite Ha, HV, Hpa, <- Hperm. cbn [negb].
  apply wp_bind. eapply wp_kalloc_vm; [done|apply Hx| |].
  { intros ->. cbn [Z.eqb]. by eapply Hundo. }
  intros p l' -> Hp _ _ _ _. rewrite (proj2 (Z.eqb_neq p 0)) by (apply page_range in Hp; lia).
  apply wp_bind, wp_modify.
  assert (page_ok q) as Hqok by (apply Hown; by eapply list_elem_of_lookup_2).
  assert (mem_ok (pmem (kalloced p s))) as Hmk
    by (apply memset_ok, (km_bytes _ _ (vi_kmem _ _ _ (x_inv _ _ _ _ _ _ _ Hx)))).
  destruct (memmove_page (pmem (kalloced p s)) p q) as [Hag Hcp]; [done|apply Hp|apply Hqok|].
  assert (filled s0 T0 l0 new 0 cp_fill cp_perm
    (set_pmem (memmove (pmem (kalloced p s)) p q PGSIZE) (kalloced p s)) T l' ds [p]) as Hf1.
  { apply filled_take; [exact Hnew|exact Hf|by apply agree_sym|].
    apply memmove_ok; [done|klia]. }
  apply wp_bind. eapply wp_mono.
  { eapply (filled_map s0 T0 l0 new 0 cp_fill cp_perm);
      [exact Hnew|lia|done|apply cp_perm_range|eapply mem_only_can_lock; [apply Hf1|done]
      |exact Hf1|unfold page_at; klia|unfold page_at; rewrite Z.add_0_l; apply Hun; lia|].
    intros o Ho. rewrite Hcp by done. rewrite <- Hbytes by done.
    symmetry. apply (agree_kalloced p s Hp). rewrite (pg_in q); [|apply Hqok|lia].
    intros ->. apply Hql. left. }
  intros r s2 (T2 & l2 & [[-> Hf2]|[-> Hf2]]); cbn [negb Z.eqb].
  - replace (u64 (page_at 0 (length ds) + PGSIZE)) with (page_at 0 (length (ds ++ [p]))).
    + apply (IH s2 T2 l2); [done|rewrite length_app; cbn [length]; lia..].
    + rewrite length_app. unfold page_at in *. cbn [length]. rewrite u64_small by klia. lia.
  - pose proof (fi_ext _ _ _ _ _ _ _ _ _ _ _ _ Hf2) as Hx2.
    destruct (x_owned _ _ _ _ _ _ _ Hx2) as [_ H1 H2 H3].
    assert (p ∈ ds ++ [p]) as Hin by (apply elem_of_app; right; left).
    apply wp_bind. eapply wp_kfree; [eapply mem_only_can_lock; [apply Hx2|done]|apply Hx2|by auto..|].
    intros _. eapply Hundo. by apply filled_free.
Qed.

Lemma uvmcopy_ok sz :
  0 ≤ sz → length qs = Z.to_nat ((sz + PGSIZE - 1) / PGSIZE) → wp (uvmcopy old new sz) uvmcopy_post s0.
Proof.
  intros Hsz Hlen. unfold uvmcopy.
  replace 0 with (page_at 0 (length (@nil Z))) at 1 by done.
  eapply uvmcopy_loop_ok; [unfold PGSIZE in *; dlia..|by apply filled_nil|cbn; lia|].
  cbn [length]. lia.
Qed.
End copy.
End uvm.

(** ** Properties *)

From S2P Require Import VmDemo.

Section props.
Context `{L : Layout}.

(** C26. uvmalloc, for sizes below MAXVA whose new pages are not mapped yet. On
    success the address space grows by pages that were free, each mapped readable by
    the user with [xperm], and every byte of them is 0. On failure it returns 0 and
    the growth is undone: no data page is lost, no new page is mapped. In both cases
    no other translation of any address space changes. *)
Theorem uvmalloc_correct n s T l root oldsz newsz xperm (k : nat) :
  vm_inv s T l → T !! root = Some 2%nat → can_lock n L_kmem s →
  0 ≤ oldsz ≤ newsz → newsz ≤ MAXVA - PGSIZE → 0 ≤ xperm < 1024 →
  k = Z.to_nat ((PGROUNDUP newsz - PGROUNDUP oldsz) / PGSIZE) →
  unmapped (pmem s) root (PGROUNDUP oldsz) (Z.of_nat k) →
  ∃ r s', uvmalloc root oldsz newsz xperm s = Ret r s' ∧
    ((r = newsz ∧ ∃ T' l' ds, ext s T l s' T' l' ds ∧ length ds = k ∧
       (∀ i p, ds !! i = Some p →
          pte_of (pmem s') root (PGROUNDUP oldsz + Z.of_nat i * PGSIZE) =
            leaf p (Z.lor (Z.lor PTE_R PTE_U) xperm) ∧
          (∀ o, 0 ≤ o < PGSIZE → rd (pmem s') (p + o) = 0)) ∧
       frame_ptes T (pmem s) (pmem s') root (PGROUNDUP oldsz) (Z.of_nat k)) ∨
     (r = 0 ∧ ∃ T' l', ext s T l s' T' l' [] ∧
       ∃ j, 0 ≤ j < Z.of_nat k ∧ cleared T (pmem s) (pmem s') root (PGROUNDUP oldsz) j)).
Proof.
  intros Hv Hroot Hc Hsz Hmax Hxp Hk Hun.
  destruct (wp_elim _ _ _ (uvmalloc_ok n s T l root oldsz newsz xperm k Hv Hroot Hc Hsz Hmax Hxp Hk Hun))
    as (r & s' & E & [(-> & T' & l' & ds & Hl & [Hx Hf Hp Hb])|(-> & j & Hj & T' & l' & Hx & Hcl)]);
    [exists newsz, s'|exists 0, s']; (split; [done|]); [left|right]; (split; [done|]).
  - rewrite app_nil_r in Hx. rewrite Hl in Hf. exists T', l', ds. split_and!; [done..| |done].
    intros i p Hi. split; [by apply Hp|]. intros o Ho. by apply (Hb i p).
  - exists T', l'. split; [done|]. exists (Z.of_nat j). split; [lia|done].
Qed.

(** C27. uvmcopy (fork's copy of memory): if the parent's [sz] bytes are mapped to the
    pages [qs] and the child's are not mapped, then either it returns 0 and page [i]
    of the child is a fresh page with the flags and with every byte of the parent's
    page [i]; or it returns -1, all the data pages it took are free again and the
    child maps none of them. The parent's translations are unchanged. *)
Theorem uvmcopy_correct n s T l old new qs sz :
  vm_inv s T l → can_lock n L_kmem s →
  T !! old = Some 2%nat → T !! new = Some 2%nat → old ≠ new →
  maps_to (pmem s) old 0 qs → owned T l qs → Z.of_nat (length qs) * PGSIZE ≤ MAXVA →
  unmapped (pmem s) new 0 (Z.of_nat (length qs)) →
  0 ≤ sz → length qs = Z.to_nat ((sz + PGSIZE - 1) / PGSIZE) →
  ∃ r s', uvmcopy old new sz s = Ret r s' ∧
    ((r = 0 ∧ ∃ T' l' ds, ext s T l s' T' l' ds ∧ length ds = length qs ∧
       (∀ i q p, qs !! i = Some q → ds !! i = Some p →
          let va := Z.of_nat i * PGSIZE in
          PTE2PA (pte_of (pmem s') new va) = p ∧
          PTE_FLAGS (pte_of (pmem s') new va) = PTE_FLAGS (pte_of (pmem s) old va) ∧
          ∀ o, 0 ≤ o < PGSIZE → rd (pmem s') (p + o) = rd (pmem s) (q + o)) ∧
       frame_ptes T (pmem s) (pmem s') new 0 (Z.of_nat (length qs))) ∨
     (r = -1 ∧ ∃ T' l', ext s T l s' T' l' [] ∧
       ∃ j, 0 ≤ j < Z.of_nat (length qs) ∧ cleared T (pmem s) (pmem s') new 0 j)).
Proof.
  intros Hv Hc Hold Hnew Hne Hmap Hown Hmax Hun Hsz Hlen.
  destruct (wp_elim _ _ _ (uvmcopy_ok s T l old new qs n Hv Hc Hold Hnew Hne Hmap Hown Hmax Hun sz Hsz Hlen))
    as (r & s' & E & [(-> & T' & l' & ds & Hl & Hf)|(-> & j & Hj & T' & l' & Hx & Hcl)]);
    [exists 0, s'|exists (-1), s']; (split; [done|]); [left|right]; (split; [done|]).
  - pose proof (fi_ext _ _ _ _ _ _ _ _ _ _ _ _ Hf) as Hx. rewrite app_nil_r in Hx.
    pose proof (fi_frame _ _ _ _ _ _ _ _ _ _ _ _ Hf) as Hfr. rewrite Hl in Hfr.
    exists T', l', ds. split_and!; [done..| |done]. intros i q p Hq Hp va.
    pose proof (fi_pte _ _ _ _ _ _ _ _ _ _ _ _ Hf i p Hp) as Hpte. unfold page_at in Hpte.
    rewrite Z.add_0_l in Hpte. fold va in Hpte. rewrite Hpte.
    assert (page_ok p) as Hpg by (by eapply filled_page; [|eapply list_elem_of_lookup_2]).
    pose proof (page_range _ Hpg). pose proof (lookup_lt_Some _ _ _ Hq).
    destruct (Hmap i q Hq) as (HV & _ & _). rewrite Z.add_0_l in HV. fold va in HV.
    split_and!.
    + apply leaf_pa; [lia|apply cp_perm_range|apply Hpg].
    + rewrite leaf_flags by (lia || apply cp_perm_range). unfold cp_perm.
      rewrite decide_True by done. unfold old_pte, page_at. rewrite Z.add_0_l. by apply flags_V.
    + intros o Ho. rewrite (fi_bytes _ _ _ _ _ _ _ _ _ _ _ _ Hf i p o Hp Ho). unfold cp_fill.
      by rewrite (nth_lookup_Some _ _ _ _ Hq).
  - exists T', l'. split; [done|]. exists (Z.of_nat j). split; [lia|done].
Qed.
End props.

#[local] Existing Instance layout_ex.

Lemma demo_unmapped va k :
  forallb (λ i, negb (has (pte_of demo_mem demo_rootB (va + i * PGSIZE)) PTE_V)) (zrange 0 k) = true →
  unmapped (pmem demo) demo_rootB va (Z.of_nat k).
Proof.
  rewrite forallb_forall. intros H i Hi. specialize (H i). apply negb_true_iff, H.
  apply list_elem_of_In, elem_of_zrange. lia.
Qed.

Lemma uvmalloc_correct_witness :
  ∃ r s', uvmalloc demo_rootB 100 9000 PTE_W demo = Ret r s' ∧ (r = 9000 ∨ r = 0).
Proof.
  destruct (uvmalloc_correct 0 demo demo_T demo_free demo_rootB 100 9000 PTE_W 2
    demo_inv eq_refl demo_can_lock) as (r & s' & E & H).
  - lia.
  - vm_compute. congruence.
  - vm_compute. split; congruence.
  - vm_compute. reflexivity.
  - apply demo_unmapped. vm_compute. reflexivity.
  - exists r, s'. split; [exact E|]. destruct H as [[H _]|[H _]]; auto.
Defined.

Lemma uvmcopy_correct_witness :
  ∃ r s', uvmcopy demo_rootA demo_rootB 8000 demo = Ret r s' ∧ (r = 0 ∨ r = -1).
Proof.
  destruct (uvmcopy_correct 0 demo demo_T demo_free demo_rootA demo_rootB demo_data 8000
    demo_inv demo_can_lock eq_refl eq_refl ltac:(done) demo_maps demo_owned) as (r & s' & E & H).
  - vm_compute. congruence.
  - apply (demo_unmapped 0 2). vm_compute. reflexivity.
  - lia.
  - vm_compute. reflexivity.
  - exists r, s'. split; [exact E|]. destruct H as [[H _]|[H _]]; auto.
Defined.

(** ** freewalk and uvmfree of kernel/vm.c: every table of an address space is freed *)

Section freewalk.
Context `{L : Layout}.

(** [q] is the table that entry [i] of the inner table [r] points to. *)
Definition child (m : mem) (T : gmap Z nat) (r i q : Z) : Prop :=
  (∃ lr, T !! r = Some (S lr)) ∧ 0 ≤ i < 512 ∧ has (entry m r i) PTE_V = true ∧ PTE2PA (entry m r i) = q.

(** The tables of the address space [root]. *)
Inductive reach (m : mem) (T : gmap Z nat) (root : Z) : Z → Prop :=
  | reach_root : reach m T root root
  | reach_child r i q : reach m T root r → child m T r i q → reach m T root q.

(** No table points to [q]. *)
Definition orphan (m : mem) (T : gmap Z nat) (q : Z) : Prop := ∀ r i, ¬ child m T r i q.

(** The tables below [p] have no valid leaf. *)
Fixpoint leafless (m : mem) (lvl : nat) (p : Z) : Prop :=
  match lvl with
  | O => ∀ i, 0 ≤ i < 512 → has (entry m p i) PTE_V = false
  | S l => ∀ i, 0 ≤ i < 512 → has (entry m p i) PTE_V = true → leafless m l (PTE2PA (entry m p i))
  end.

(** [fr] are the tables reachable from [p]; they are free in [s'], and the others are untouched. *)
Record fw_post (s : kstate) (T : gmap Z nat) (l : list Z) (p : Z) (s' : kstate) (T' : gmap Z nat)
    (fr : list Z) : Prop := {
  fw_only : mem_only s s';
  fw_inv : vm_inv s' T' (fr ++ l);
  fw_T q : T' !! q = if decide (q ∈ fr) then None else T !! q;
  fw_root : p ∈ fr;
  fw_tab q : q ∈ fr → is_table T q;
  (** only what is below [p] *)
  fw_parent q : q ∈ fr → q = p ∨ ∃ r i, r ∈ fr ∧ child (pmem s) T r i q;
  (** and all of it *)
  fw_closed r i q : r ∈ fr → child (pmem s) T r i q → q ∈ fr;
  fw_agree : agree (λ x, x ∉ fr) (pmem s) (pmem s');
}.

(** ** Lemmas *)

Lemma child_inj m T r1 i1 r2 i2 q :
  pt_wf m T → child m T r1 i1 q → child m T r2 i2 q → r1 = r2 ∧ i1 = i2.
Proof.
  intros Hwf ((l1 & H1) & Hi1 & Hv1 & E1) ((l2 & H2) & Hi2 & Hv2 & E2).
  eapply (pt_inj _ _ Hwf); try done. by rewrite E1, E2.
Qed.

Lemma child_level m T r i q : pt_wf m T → child m T r i q → ∃ l, T !! r = Some (S l) ∧ T !! q = Some l.
Proof. intros Hwf ((l & Hr) & Hi & Hv & <-). exists l. split; [done|]. by apply (pt_child _ _ Hwf r l i). Qed.

Lemma level_bound (T : gmap Z nat) (fr : list Z) : ∃ M, ∀ q l, q ∈ fr → T !! q = Some l → (l ≤ M)%nat.
Proof.
  induction fr as [|p fr [M IH]]; [exists 0%nat; intros q l H; by apply not_elem_of_nil in H|].
  exists (Nat.max M (default 0%nat (T !! p))). intros q l [->|Hq]%elem_of_cons Hl; [rewrite Hl; cbn; lia|]. specialize (IH q l Hq Hl). lia.
Qed.

(** A set of tables that has [root], is closed under children, and in which every other table
    has its parent is what is reachable from [root]: the levels of the parents go up. *)
Lemma reach_iff m T root (fr : list Z) :
  pt_wf m T → root ∈ fr → (∀ q, q ∈ fr → is_table T q) →
  (∀ q, q ∈ fr → q = root ∨ ∃ r i, r ∈ fr ∧ child m T r i q) → (∀ r i q, r ∈ fr → child m T r i q → q ∈ fr) →
  ∀ q, q ∈ fr ↔ reach m T root q.
Proof.
  intros Hwf Hin Htab Hpar Hcl q. destruct (level_bound T fr) as [M HM]. split.
  - intros Hq. destruct (Htab q Hq) as [l Hl].
    cut (∀ k q l, q ∈ fr → T !! q = Some l → (M - l < k)%nat → reach m T root q); [intros H; by apply (H (S M) q l); [..|lia]|].
    clear q l Hq Hl. induction k as [|k IH]; intros q l Hq Hl Hk; [lia|]. destruct (Hpar q Hq) as [->|(r & i & Hr & Hc)]; [constructor|].
    destruct (child_level _ _ _ _ _ Hwf Hc) as (l' & Hr' & Hl'). rewrite Hl in Hl'. injection Hl' as <-.
    pose proof (HM r _ Hr Hr'). eapply reach_child; [|done]. apply (IH r (S l)); [done|done|lia].
  - induction 1 as [|r i q _ IH Hc]; [done|]. by eapply Hcl.
Qed.

Lemma child_table m T r i q : pt_wf m T → child m T r i q → is_table T q.
Proof.
  intros Hwf ((lr & H1) & Hi1 & Hv1 & <-). destruct (pt_child _ _ Hwf _ _ _ H1 Hi1 Hv1) as [H _].
  by eexists.
Qed.

(** Children depend on the tables only. *)
Lemma child_agree m m' T r i q :
  (∀ p l, T !! p = Some l → p mod PGSIZE = 0) →
  agree (is_table T) m m' → child m T r i q → child m' T r i q.
Proof.
  intros Hal Hag ((lr & Hr) & Hi & Hv & E).
  assert (entry m r i = entry m' r i) as Ee.
  { apply (entry_agree (is_table T)); eauto. by eexists. }
  split_and!; [by eexists|lia|lia|by rewrite <- Ee|by rewrite <- Ee].
Qed.

Lemma child_sub m T T' r i q : T' ⊆ T → child m T' r i q → child m T r i q.
Proof. intros HT ((lr & Hr) & H). split; [|done]. exists lr. by eapply lookup_weaken. Qed.

Lemma leafless_agree m m' T lvl p :
  pt_wf m' T → T !! p = Some lvl → agree (is_table T) m' m → leafless m lvl p → leafless m' lvl p.
Proof.
  intros Hwf Hp Hag. revert p Hp. induction lvl as [|lvl IH]; intros p Hp; cbn [leafless]; intros H i Hi.
  - rewrite (entry_agree (is_table T) m' m); eauto using pt_aligned. by eexists.
  - assert (entry m' p i = entry m p i) as E
      by (apply (entry_agree (is_table T)); eauto using pt_aligned; by eexists).
    rewrite E. intros Hv. apply IH; [|by apply H]. rewrite <- E in *.
    by apply (pt_child _ _ Hwf _ _ _ Hp).
Qed.

(** An orphan is not part of the tables that the others need. *)
Lemma pt_wf_delete m T p : pt_wf m T → orphan m T p → pt_wf m (delete p T).
Proof.
  intros Hwf Ho. split.
  - intros q l [_ Hq]%lookup_delete_Some. by eapply pt_page.
  - intros q l i [_ Hq]%lookup_delete_Some Hi Hv. destruct (pt_child _ _ Hwf _ _ _ Hq Hi Hv) as [Hc Hr].
    split; [|done]. rewrite lookup_delete_ne; [done|]. intros ->. eapply (Ho q i). split; [by eexists|done].
  - intros p1 l1 i1 p2 l2 i2 [_ H1]%lookup_delete_Some [_ H2]%lookup_delete_Some.
    by apply (pt_inj _ _ Hwf _ l1 _ _ l2).
Qed.

Lemma vm_inv_delete s T l p : vm_inv s T l → orphan (pmem s) T p → vm_inv s (delete p T) l.
Proof.
  intros [Hk Hwf Hd] Ho. split; [done|by apply pt_wf_delete|].
  intros q Hq. rewrite lookup_delete_None. auto.
Qed.

(** ** The loop over the entries of [p] *)
Section loop.
Context (s0 : kstate) (T : gmap Z nat) (l : list Z) (p : Z).
Context (Hv0 : vm_inv s0 T l) (Hp : is_table T p) (Hor : orphan (pmem s0) T p).

Record fw_inv_at (i : Z) (s : kstate) (Ti : gmap Z nat) (fi : list Z) : Prop := {
  fl_only : mem_only s0 s;
  fl_inv : vm_inv s Ti (fi ++ l);
  fl_T q : Ti !! q = if decide (q ∈ p :: fi) then None else T !! q;
  fl_p : p ∉ fi;
  fl_tab q : q ∈ fi → is_table T q;
  fl_parent q : q ∈ fi → ∃ r j, child (pmem s0) T r j q ∧ (r ∈ fi ∨ (r = p ∧ j < i));
  fl_closed r j q : r ∈ fi → child (pmem s0) T r j q → q ∈ fi;
  fl_done j q : j < i → child (pmem s0) T p j q → q ∈ fi;
  fl_agree : agree (λ x, x ∉ p :: fi) (pmem s0) (pmem s);
  fl_rest j : i ≤ j < 512 → entry (pmem s) p j = entry (pmem s0) p j;
}.

Lemma fw_p_page : page_ok p.
Proof. destruct Hp as [lp Hlp]. eapply pt_page; [apply Hv0|done]. Qed.

Lemma fw_p_not_free : p ∉ l.
Proof. intros Hl. destruct Hp as [lp Hlp]. pose proof (vi_disj _ _ _ Hv0 p Hl). congruence. Qed.

Lemma fw_init : fw_inv_at 0 s0 (delete p T) [].
Proof.
  split; try done.
  - apply mem_only_refl.
  - by apply vm_inv_delete.
  - intros q. case_decide as H.
    + apply list_elem_of_singleton in H as ->. apply lookup_delete_eq.
    + rewrite lookup_delete_ne; [done|]. intros ->. apply H. left.
  - intros Hq. by apply not_elem_of_nil in Hq.
  - intros q Hq. by apply not_elem_of_nil in Hq.
  - intros q Hq. by apply not_elem_of_nil in Hq.
  - intros r j q Hq. by apply not_elem_of_nil in Hq.
  - intros j q Hj (_ & Hj' & _). lia.
Qed.

Lemma fw_sub i s Ti fi : fw_inv_at i s Ti fi → Ti ⊆ T.
Proof.
  intros Hf. apply map_subseteq_spec. intros q lq. rewrite (fl_T _ _ _ _ Hf). by case_decide.
Qed.

(** The tables that are left have not been written. *)
Lemma fw_left i s Ti fi : fw_inv_at i s Ti fi → agree (is_table Ti) (pmem s) (pmem s0).
Proof.
  intros Hf. apply agree_sym. eapply agree_mono; [apply Hf|]. intros q [lq Hq].
  rewrite (fl_T _ _ _ _ Hf) in Hq. by case_decide.
Qed.

Lemma fw_child_back i s Ti fi r j q :
  fw_inv_at i s Ti fi → child (pmem s) Ti r j q → child (pmem s0) T r j q.
Proof.
  intros Hf Hc. eapply child_sub; [by eapply fw_sub|]. eapply child_agree; [|by eapply fw_left|done].
  intros x lx Hx. eapply pt_aligned; [apply Hf|done].
Qed.

Lemma fw_child_fwd i s Ti fi r j q :
  fw_inv_at i s Ti fi → is_table Ti r → child (pmem s0) T r j q → child (pmem s) Ti r j q.
Proof.
  intros Hf Hr ((lr & Hlr) & Hc). eapply child_agree; [|apply agree_sym; by eapply fw_left|].
  - intros x lx Hx. eapply pt_aligned; [apply Hf|done].
  - split; [|done]. exists lr. destruct Hr as [lr' Hr]. rewrite Hr.
    rewrite (fl_T _ _ _ _ Hf) in Hr. case_decide; congruence.
Qed.

(** The table of entry [i]: still there, and without another parent. *)
Lemma fw_child_here i s Ti fi c :
  fw_inv_at i s Ti fi → child (pmem s0) T p i c →
  c ≠ p ∧ c ∉ fi ∧ Ti !! c = T !! c ∧ orphan (pmem s) Ti c.
Proof.
  intros Hf Hc. assert (c ≠ p) as Hcp by (intros ->; by apply (Hor p i)).
  assert (c ∉ fi) as Hcf.
  { intros Hin. destruct (fl_parent _ _ _ _ Hf c Hin) as (r & j & Hc' & Hr).
    destruct (child_inj _ _ _ _ _ _ _ (vi_pt _ _ _ Hv0) Hc Hc') as [<- <-].
    destruct Hr as [?|[_ ?]]; [by eapply (fl_p _ _ _ _ Hf)|lia]. }
  split_and!; [done|done| |].
  - rewrite (fl_T _ _ _ _ Hf). rewrite decide_False; [done|].
    by intros [?|?]%elem_of_cons.
  - intros r j Hc'. pose proof (proj1 Hc') as [lr Hr]. rewrite (fl_T _ _ _ _ Hf) in Hr.
    apply (fw_child_back _ _ _ _ _ _ _ Hf) in Hc'.
    destruct (child_inj _ _ _ _ _ _ _ (vi_pt _ _ _ Hv0) Hc Hc') as [<- _].
    rewrite decide_True in Hr; [done|]. left.
Qed.

(** A step over an entry that is not valid. *)
Lemma fw_skip i s Ti fi :
  0 ≤ i < 512 → fw_inv_at i s Ti fi → has (entry (pmem s0) p i) PTE_V = false →
  fw_inv_at (i + 1) s Ti fi.
Proof.
  intros Hi [Ho Hv HT Hpf Htab Hpar Hcl Hdn Hag Hre] Hnv. split; try done.
  - intros q Hq. destruct (Hpar q Hq) as (r & j & Hc & Hr). exists r, j. split; [done|].
    destruct Hr as [?|[-> ?]]; [by left|right]. split; [done|lia].
  - intros j q Hj Hc. destruct (decide (j = i)) as [->|]; [|by apply (Hdn j); [lia|]].
    destruct Hc as (_ & _ & Hv' & _). congruence.
  - intros j Hj. apply Hre. lia.
Qed.

(** A step over a valid entry: its table is freed with all that is below, and it is cleared. *)
Lemma fw_step i s Ti fi c s' T' fr :
  0 ≤ i < 512 → fw_inv_at i s Ti fi → child (pmem s0) T p i c → fw_post s Ti (fi ++ l) c s' T' fr →
  fw_inv_at (i + 1) (set_pmem (store64 (pmem s') (p + 8 * i) 0) s') T' (fr ++ fi).
Proof.
  intros Hi Hf Hc Hw. destruct (fw_child_here _ _ _ _ _ Hf Hc) as (Hcp & Hcf & _ & _).
  pose proof fw_p_page as Hpg. destruct (entry_in p i Hi).
  assert (p ∉ fr) as Hpfr.
  { intros Hin. apply (fw_tab _ _ _ _ _ _ _ Hw) in Hin as [lp Hlp].
    rewrite (fl_T _ _ _ _ Hf), decide_True in Hlp; [done|left]. }
  assert (T' !! p = None) as HT'p.
  { rewrite (fw_T _ _ _ _ _ _ _ Hw), decide_False by done.
    rewrite (fl_T _ _ _ _ Hf), decide_True; [done|left]. }
  assert (agree (λ x, x ≠ p) (pmem s') (store64 (pmem s') (p + 8 * i) 0)) as Hst.
  { apply agree_sym, agree_store64; [apply Hpg|lia|lia]. }
  split.
  - apply mem_only_pmem. eapply mem_only_trans; [apply Hf|apply Hw].
  - destruct (vm_inv_data s' T' ((fr ++ fi) ++ l) (store64 (pmem s') (p + 8 * i) 0)) as [H' _]; [|
      |apply store64_ok, (km_bytes _ _ (vi_kmem _ _ _ (fw_inv _ _ _ _ _ _ _ Hw)))|done].
    + rewrite <- app_assoc. apply Hw.
    + eapply agree_mono; [done|]. intros x [Hx|Hx]; [by eapply is_table_ne|].
      intros ->. rewrite !elem_of_app in Hx.
      destruct Hx as [[?|?]|?]; [done|by eapply (fl_p _ _ _ _ Hf)|by eapply fw_p_not_free].
  - intros q. rewrite (fw_T _ _ _ _ _ _ _ Hw), (fl_T _ _ _ _ Hf).
    repeat case_decide; try done; set_solver.
  - rewrite elem_of_app. intros [?|?]; [done|by eapply (fl_p _ _ _ _ Hf)].
  - intros q [Hq|Hq]%elem_of_app; [|by apply Hf].
    eapply is_table_sub; [by eapply fw_sub|by apply Hw].
  - intros q [Hq|Hq]%elem_of_app.
    + destruct (fw_parent _ _ _ _ _ _ _ Hw q Hq) as [->|(r & j & Hr & Hc')].
      * exists p, i. split; [done|]. right. split; [done|lia].
      * exists r, j. split; [by eapply fw_child_back|]. left. apply elem_of_app. by left.
    + destruct (fl_parent _ _ _ _ Hf q Hq) as (r & j & Hc' & Hr). exists r, j. split; [done|].
      rewrite elem_of_app. destruct Hr as [?|[-> ?]]; [by auto|right]. split; [done|lia].
  - intros r j q [Hr|Hr]%elem_of_app Hc'; apply elem_of_app.
    + left. eapply (fw_closed _ _ _ _ _ _ _ Hw); [done|]. eapply fw_child_fwd; [done| |done].
      by apply Hw.
    + right. by eapply (fl_closed _ _ _ _ Hf).
  - intros j q Hj Hc'. apply elem_of_app. destruct (decide (j = i)) as [->|].
    + left. destruct Hc as (_ & _ & _ & <-). destruct Hc' as (_ & _ & _ & <-). apply Hw.
    + right. apply (fl_done _ _ _ _ Hf j); [lia|done].
  - eapply agree_trans; [|eapply agree_mono; [done|intros x Hx ->; apply Hx; left]].
    eapply agree_trans; (eapply agree_mono; [by (apply Hf || apply Hw)|]); set_solver.
  - intros j Hj. rewrite <- (fl_rest _ _ _ _ Hf j) by lia.
    assert (entry (pmem s') p j = entry (pmem s) p j) as <-.
    { symmetry. apply (entry_agree (λ x, x ∉ fr)); [apply Hw|done|apply Hpg|lia]. }
    apply entry_store_ne; [apply Hpg|apply Hpg|done|lia|lia].
Qed.

(** After the last entry, [p] itself. *)
Lemma fw_finish s Ti fi :
  fw_inv_at 512 s Ti fi → fw_post s0 T l p (kfreed p s) Ti (p :: fi).
Proof.
  intros Hf. pose proof fw_p_page as Hpg.
  assert (p ∉ fi ++ l) as Hni.
  { rewrite elem_of_app. intros [?|?]; [by eapply (fl_p _ _ _ _ Hf)|by eapply fw_p_not_free]. }
  assert (Ti !! p = None) as HTp by (rewrite (fl_T _ _ _ _ Hf), decide_True; [done|left]).
  destruct (kfree_inv s Ti (fi ++ l) p) as [Hv _]; [apply Hf|done..|].
  split.
  - eapply mem_only_trans; [apply Hf|]. apply mem_only_kfreed.
  - exact Hv.
  - apply Hf.
  - left.
  - intros q [->|Hq]%elem_of_cons; [done|by apply Hf].
  - intros q [->|Hq]%elem_of_cons; [by left|right].
    destruct (fl_parent _ _ _ _ Hf q Hq) as (r & j & Hc & Hr). exists r, j. split; [|done].
    destruct Hr as [?|[-> _]]; [by right|left].
  - intros r j q [->|Hr]%elem_of_cons Hc; right.
    + apply (fl_done _ _ _ _ Hf j); [|done]. destruct Hc as (_ & ? & _). lia.
    + by eapply (fl_closed _ _ _ _ Hf).
  - eapply agree_trans; [apply Hf|]. eapply agree_mono; [by apply agree_kfreed|].
    intros x Hx ->. apply Hx. left.
Qed.
End loop.

Lemma freewalk_depth_S f p :
  freewalk_depth (S f) p =
  (mfor (zrange 0 512) (λ i,
     pte ← get_pte (p + 8 * i);
     if has pte PTE_V && (Z.land pte (Z.lor (Z.lor PTE_R PTE_W) PTE_X) =? 0) then
       freewalk_depth f (PTE2PA pte);; set_pte (p + 8 * i) 0
     else if has pte PTE_V then panic "freewalk: leaf"
     else mret tt);;
   kfree p).
Proof. reflexivity. Qed.

Lemma zrange_split k done x rest : zrange 0 k = done ++ x :: rest → x = Z.of_nat (length done) ∧ 0 ≤ x < Z.of_nat k.
Proof.
  intros E. assert (zrange 0 k !! length done = Some x) as Hx.
  { rewrite E. by rewrite list_lookup_middle. }
  apply zrange_lookup in Hx. lia.
Qed.

Lemma freewalk_depth_ok n lvl fuel s T l p :
  can_lock n L_kmem s → vm_inv s T l → T !! p = Some lvl → orphan (pmem s) T p →
  leafless (pmem s) lvl p → (lvl < fuel)%nat →
  wp (freewalk_depth fuel p) (λ _ s', ∃ T' fr, fw_post s T l p s' T' fr) s.
Proof.
  revert fuel s T l p. induction lvl as [|lvl IH];
    intros fuel s T l p Hc Hv Hp Hor Hll Hfuel; (destruct fuel as [|fuel]; [lia|]);
    rewrite freewalk_depth_S; apply wp_bind.
  all: assert (is_table T p) as Htp by (by eexists).
  all: eapply wp_mono;
    [apply (wp_mfor _ _ (λ done s', ∃ Ti fi, fw_inv_at s T l p (Z.of_nat (length done)) s' Ti fi))|].
  1,4: eexists _, _; by apply fw_init.
  2,4: intros ? s' (Ti & fi & Hf); cbn beta in Hf; rewrite zrange_length in Hf;
    pose proof (fw_finish _ _ _ _ Hv Htp _ _ _ Hf) as Hfin;
    (eapply wp_kfree; [eapply mem_only_can_lock; [apply Hf|done]|apply Hf|by eapply fw_p_page| |eauto]);
    rewrite elem_of_app; intros [?|?]; [by eapply (fl_p _ _ _ _ _ _ _ _ Hf)|by eapply fw_p_not_free].
  all: intros done i rest s' E (Ti & fi & Hf); apply zrange_split in E as [Hi1 Hi]; rewrite <- Hi1 in Hf;
    rewrite length_app, Nat2Z.inj_add, <- Hi1; cbn [length];
    apply wp_bind, wp_gets;
    pose proof (fl_rest _ _ _ _ _ _ _ _ Hf i ltac:(lia)) as Hent; unfold entry in Hent; rewrite Hent.
  - rewrite (Hll i Hi : has (load64 _ _) _ = false). apply wp_ret. exists Ti, fi.
    apply fw_skip; [done|done|by apply Hll].
  - destruct (has (load64 (pmem s) (p + 8 * i)) PTE_V) eqn:HV.
    2:{ apply wp_ret. exists Ti, fi. by apply fw_skip. }
    destruct (pt_child _ _ (vi_pt _ _ _ Hv) _ _ _ Hp Hi HV) as [Hcl Hrwx].
    unfold entry, RWX in Hrwx. rewrite Hrwx. cbn [andb Z.eqb].
    assert (child (pmem s) T p i (PTE2PA (entry (pmem s) p i))) as Hch by (split; [by eexists|done]).
    destruct (fw_child_here _ _ _ _ Hv Hor _ _ _ _ _ Hf Hch) as (_ & _ & HTc & Hco).
    rewrite Hcl in HTc. apply wp_bind. eapply wp_mono.
    + apply (IH fuel s' Ti (fi ++ l)); [|apply Hf|done|done| |lia].
      * eapply mem_only_can_lock; [apply Hf|done].
      * eapply leafless_agree; [apply Hf|done|by eapply fw_left|]. by apply (Hll i Hi).
    + intros ? s'' (T' & fr & Hw). apply wp_modify. exists T', (fr ++ fi).
      by eapply (fw_step _ _ _ _ Hv Htp Hor).
Qed.

(** No valid leaf, in terms of translations. *)
Lemma leafless_of_ptes m root :
  (∀ va, 0 ≤ va < 2 ^ 39 → has (pte_of m root va) PTE_V = false) → leafless m 2 root.
Proof.
  intros H i2 Hi2 Hv2 i1 Hi1 Hv1 i0 Hi0.
  specialize (H (i2 * (4096 * 512 * 512) + i1 * (4096 * 512) + i0 * 4096) ltac:(lia)).
  unfold pte_of, val in H. cbn [wlk] in H.
  assert (PX 0 (i2 * (4096 * 512 * 512) + i1 * (4096 * 512) + i0 * 4096) = i0 ∧
    PX 1 (i2 * (4096 * 512 * 512) + i1 * (4096 * 512) + i0 * 4096) = i1 ∧
    PX 2 (i2 * (4096 * 512 * 512) + i1 * (4096 * 512) + i0 * 4096) = i2) as (E0 & E1 & E2).
  { rewrite !PX_eq by lia.
    change (2 ^ (12 + 9 * 0)) with 4096. change (2 ^ (12 + 9 * 1)) with (4096 * 512).
    change (2 ^ (12 + 9 * 2)) with (4096 * 512 * 512). dlia. }
  change (Z.of_nat 2) with 2 in H. change (Z.of_nat 1) with 1 in H.
  rewrite E0, E1, E2 in H. unfold entry in *. rewrite Hv2, Hv1 in H. done.
Qed.

(** ** uvmfree *)

Definition uvmfree_post (s : kstate) (T : gmap Z nat) (l : list Z) (root : Z) (ps : list Z)
    (_ : unit) (s' : kstate) : Prop :=
  ∃ T' fr, mem_only s s' ∧ vm_inv s' T' (fr ++ rev ps ++ l) ∧
    (∀ q, T' !! q = if decide (q ∈ fr) then None else T !! q) ∧ (∀ q, q ∈ fr ↔ reach (pmem s) T root q) ∧
    agree (λ x, T !! x = None ∧ x ∉ ps) (pmem s) (pmem s') ∧
    (∀ root' va, T' !! root' = Some 2%nat → 0 ≤ va < 2 ^ 39 →
       pte_of (pmem s') root' va = pte_of (pmem s) root' va).

(** The data pages [ps] and all the tables of [root] go back to the free list. *)
Lemma uvmfree_ok n s T l root sz ps :
  can_lock n L_kmem s → vm_inv s T l → T !! root = Some 2%nat → orphan (pmem s) T root →
  0 ≤ sz ≤ MAXVA - PGSIZE → Z.of_nat (length ps) * PGSIZE = PGROUNDUP sz →
  maps_to (pmem s) root 0 ps → owned T l ps →
  (∀ va, PGROUNDUP sz ≤ va < 2 ^ 39 → has (pte_of (pmem s) root va) PTE_V = false) →
  wp (uvmfree root sz) (uvmfree_post s T l root ps) s.
Proof.
  intros Hc Hv Hroot Hor Hsz Hlen Hmap Hown Hrest. unfold uvmfree.
  destruct (PGROUNDUP_bounds sz) as [Hr1 Hr2]; [klia|].
  apply wp_bind. eapply (wp_mono _ (uvmunmap_post s T l root 0 ps true)).
  { apply wp_when.
    - intros _. rewrite <- Hlen, Z_div_mult by klia.
      eapply uvmunmap_ok; [done|done|done|done|lia|klia|done|done].
    - intros ?. assert (length ps = O) as E by klia. apply nil_length_inv in E. subst ps.
      split; [by apply shrinks_refl|]. split; [cbn; intros; lia|done]. }
  intros ? s1 [Hsh [Hcl Hfr]].
  assert (∀ r i q, child (pmem s1) T r i q ↔ child (pmem s) T r i q) as Hch.
  { intros r i q. unfold child. split; intros ((lr & Hr) & Hi & Hx); pose proof (sh_inner _ _ _ _ _ Hsh r lr i Hr Hi) as E;
      (split; [by eexists|split; [done|]]); [by rewrite <- E|by rewrite E]. }
  eapply wp_mono.
  - eapply (freewalk_depth_ok n 2 8 s1 T (rev ps ++ l)); [|apply Hsh|done| | |lia].
    + eapply mem_only_can_lock; [apply Hsh|done].
    + intros r i Hc'%Hch. by eapply Hor.
    + apply leafless_of_ptes. intros va Hva. destruct (decide (va < PGROUNDUP sz)).
      * rewrite (pte_of_page _ _ va (0 + va / PGSIZE * PGSIZE)); [|done|unfold PGSIZE; dlia|unfold PGSIZE; dlia].
        rewrite Hcl; [done|]. unfold PGSIZE in *. dlia.
      * rewrite Hfr; [apply Hrest; lia|done|done|]. unfold in_pages. rewrite Hlen. lia.
  - intros ? s2 (T' & fr & Hw).
    assert (∀ q, q ∈ fr ↔ reach (pmem s) T root q) as Hre.
    { apply reach_iff; [apply Hv|apply Hw|apply Hw| |].
      - intros q [->|(r & i & Hr & Hc')]%(fw_parent _ _ _ _ _ _ _ Hw); [by left|]. right. exists r, i. split; [done|]. by apply Hch.
      - intros r i q Hr Hc'. eapply (fw_closed _ _ _ _ _ _ _ Hw); [done|]. by apply Hch. }
    exists T', fr. split_and!.
    + eapply mem_only_trans; [apply Hsh|apply Hw].
    + apply Hw.
    + apply Hw.
    + exact Hre.
    + eapply agree_trans; [apply Hsh|]. eapply agree_mono; [apply Hw|]. intros x [Hx _] Hxf.
      apply (fw_tab _ _ _ _ _ _ _ Hw) in Hxf. by apply not_table in Hx.
    + intros root' va Hr' Hva. rewrite (fw_T _ _ _ _ _ _ _ Hw) in Hr'. case_decide as Hnf; [done|].
      transitivity (pte_of (pmem s1) root' va).
      * symmetry. eapply (wlk_agree (pmem s2) (pmem s1) T'); [|apply Hw|].
        -- apply agree_sym. eapply agree_mono; [apply Hw|]. intros x [lx Hx] Hxf.
           rewrite (fw_T _ _ _ _ _ _ _ Hw), decide_True in Hx by done. done.
        -- by rewrite (fw_T _ _ _ _ _ _ _ Hw), decide_False.
      * apply Hfr; [done|done|]. intros [-> _]. apply Hnf, Hw.
Qed.
End freewalk.

(** ** Properties *)

Section props.
Context `{L : Layout}.

(** C28. uvmfree of an address space whose pages below [sz] are mapped to [ps] and
    which maps nothing else: it returns; the free list grows by the data pages [ps] and
    exactly the tables that are reachable from the root, and has no duplicates; no other
    table is lost, the other address spaces translate as before and no page but tables
    and the freed pages is written. *)
Theorem uvmfree_correct n s T l root sz ps :
  can_lock n L_kmem s → vm_inv s T l → T !! root = Some 2%nat → orphan (pmem s) T root →
  0 ≤ sz ≤ MAXVA - PGSIZE → Z.of_nat (length ps) * PGSIZE = PGROUNDUP sz →
  maps_to (pmem s) root 0 ps → owned T l ps →
  (∀ va, PGROUNDUP sz ≤ va < 2 ^ 39 → has (pte_of (pmem s) root va) PTE_V = false) →
  ∃ s' T' fr, uvmfree root sz s = Ret tt s' ∧ vm_inv s' T' (fr ++ rev ps ++ l) ∧
    NoDup (fr ++ rev ps ++ l) ∧ (∀ q, q ∈ fr ↔ reach (pmem s) T root q) ∧
    (∀ q, T' !! q = if decide (q ∈ fr) then None else T !! q) ∧
    (∀ root' va, T' !! root' = Some 2%nat → 0 ≤ va < 2 ^ 39 →
       pte_of (pmem s') root' va = pte_of (pmem s) root' va) ∧
    agree (λ x, T !! x = None ∧ x ∉ ps) (pmem s) (pmem s').
Proof.
  intros Hc Hv Hroot Hor Hsz Hlen Hmap Hown Hrest.
  destruct (wp_elim _ _ _ (uvmfree_ok n s T l root sz ps Hc Hv Hroot Hor Hsz Hlen Hmap Hown Hrest))
    as ([] & s' & E & T' & fr & Ho & Hv' & HT & Hre & Hag & Hp).
  exists s', T', fr. split_and!; [done|done| |done..]. apply Hv'.
Qed.
End props.

#[local] Existing Instance layout_ex.

Lemma demo_orphan : orphan demo_mem demo_T demo_rootA.
Proof.
  assert (forallb (λ e, negb (slot_child demo_mem e =? demo_rootA)) (slots demo_mem demo_T) = true) as H
    by (vm_compute; reflexivity).
  intros r i ((lr & Hr) & Hi & HV & E). rewrite forallb_forall in H.
  specialize (H _ (elem_of_slots _ _ _ _ _ Hr Hi HV)). unfold slot_child in H. cbn [fst snd] in H.
  rewrite E, Z.eqb_refl in H. done.
Qed.

Lemma uvmfree_correct_witness :
  ∃ s' T' fr, uvmfree demo_rootA 8000 demo = Ret tt s' ∧ demo_rootA ∈ fr ∧
    vm_inv s' T' (fr ++ 0x87ff4000 :: 0x87ff3000 :: demo_free).
Proof.
  destruct (uvmfree_correct 0 demo demo_T demo_free demo_rootA 8000 demo_data
    demo_can_lock demo_inv eq_refl demo_orphan) as (s' & T' & fr & E & Hv & _ & Hre & _).
  - vm_compute. split; congruence.
  - vm_compute. reflexivity.
  - exact demo_maps.
  - exact demo_owned.
  - intros va Hva. apply (none_above_sound (pmem demo) demo_rootA (PGROUNDUP 8000) va); [vm_compute; reflexivity..| |exact Hva].
    vm_compute. congruence.
  - exists s', T', fr. exact (conj E (conj (proj2 (Hre demo_rootA) (reach_root _ _ _)) Hv)).
Defined.
