(* ===== verification/UserMem.v ===== *)
(** * copyout, copyin and copyinstr of kernel/vm.c: page by page is byte by byte

    The reference definitions access the user's memory one byte at a time through
    the translation [pte_of]; the theorems say that the routines, which translate
    once per page, compute the same results and the same memory. *)

From S2P Require Import Prelude Machine State Spinlock KString Kalloc Vm PageTable VmOps.

Section usermem.
Context `{L : Layout}.

(** ** Reference definitions *)

(** The physical address where the user may read, and write, the byte at [va]. *)
Definition rpa (m : mem) (root va : Z) : option Z :=
  if MAXVA <=? va then None
  else
    let v := pte_of m root va in
    if has v PTE_V && has v PTE_U && negb (PTE2PA v =? 0) then Some (PTE2PA v + va mod PGSIZE) else None.

Definition wpa (m : mem) (root va : Z) : option Z :=
  if MAXVA <=? va then None
  else
    let v := pte_of m root va in
    if has v PTE_V && has v PTE_U && has v PTE_W then Some (PTE2PA v + va mod PGSIZE) else None.

(** Reading [n] bytes from [va]. *)
Fixpoint uread (m : mem) (root va : Z) (n : nat) : option (list Z) :=
  match n with
  | O => Some []
  | S n' =>
      pa ← rpa m root va;
      bs ← uread m root (va + 1) n';
      Some (rd m pa :: bs)
  end.

(** Writing [bs] at [va]. *)
Fixpoint uwrite (m : mem) (root va : Z) (bs : list Z) : option mem :=
  match bs with
  | [] => Some m
  | b :: bs' => pa ← wpa m root va; uwrite (wr m pa b) root (va + 1) bs'
  end.

(** Reading a string of at most [max] bytes with its NUL. *)
Fixpoint ureadstr (m : mem) (root va : Z) (max : nat) : option (list Z) :=
  match max with
  | O => None
  | S max' =>
      pa ← rpa m root va;
      if rd m pa =? 0 then Some [0]
      else bs ← ureadstr m root (va + 1) max'; Some (rd m pa :: bs)
  end.

(** ** Lemmas *)

Section root.
Context (T : gmap Z nat) (root : Z) (Hroot : T !! root = Some 2%nat).

Lemma walkaddr_eq s va :
  pt_wf (pmem s) T → 0 ≤ va → va mod PGSIZE = 0 →
  walkaddr root va s = Ret (default 0 (rpa (pmem s) root va)) s.
Proof.
  intros Hwf Hva Hal. unfold walkaddr, rpa. destruct (Z.leb_spec MAXVA va) as [|Hlt]; [done|].
  erewrite bind_ret; [|by apply walk_noalloc]. unfold pte_of, val.
  destruct (wlk (pmem s) 2 root va) as [a|] eqn:Hw; [|done].
  change (default 0 (Some a)) with a.
  rewrite (proj2 (Z.eqb_neq a 0)) by (pose proof (wlk_nonzero _ _ _ _ _ _ Hwf Hroot Hw); lia).
  erewrite bind_ret; [|reflexivity].
  destruct (has _ PTE_V), (has _ PTE_U); try done. cbn [negb andb]. rewrite Hal, Z.add_0_r.
  by destruct (Z.eqb_spec (PTE2PA (load64 (pmem s) a)) 0) as [->|].
Qed.

(** Within a page the translation is that of the page. *)
Lemma same_page va i :
  0 ≤ va → 0 ≤ i → va mod PGSIZE + i < PGSIZE → va < MAXVA →
  va + i < MAXVA ∧ (va + i) mod PGSIZE = va mod PGSIZE + i ∧
  (∀ m, pte_of m root (va + i) = pte_of m root va).
Proof.
  intros Hva Hi Hp Hmax.
  assert (va + i < MAXVA ∧ (va + i) mod PGSIZE = va mod PGSIZE + i ∧ (va + i) / PGSIZE = va / PGSIZE)
    as (H1 & H2 & H3) by (unfold PGSIZE in *; unfold_consts; dlia).
  split_and!; [done|done|]. intros m. apply pte_of_page; [unfold_consts; lia..|done].
Qed.

Lemma rpa_page m va i pa :
  0 ≤ va → 0 ≤ i → va mod PGSIZE + i < PGSIZE → rpa m root va = Some pa → rpa m root (va + i) = Some (pa + i).
Proof.
  unfold rpa. intros Hva Hi Hp. destruct (Z.leb_spec MAXVA va) as [|Hlt]; [done|].
  destruct (same_page va i) as (H1 & H2 & H3); [done..|].
  rewrite (proj2 (Z.leb_gt MAXVA (va + i))) by done. rewrite H2, H3.
  case_match; [|done]. intros [= <-]. f_equal. lia.
Qed.

Lemma rpa_base m va :
  0 ≤ va → rpa m root (va - va mod PGSIZE) = (λ pa, pa - va mod PGSIZE) <$> rpa m root va.
Proof.
  intros Hva. unfold rpa.
  assert (0 ≤ va - va mod PGSIZE ∧ (va - va mod PGSIZE) mod PGSIZE = 0 ∧
    (MAXVA ≤ va - va mod PGSIZE ↔ MAXVA ≤ va)) as (H1 & H2 & H3)
    by (unfold_consts; unfold PGSIZE in *; dlia).
  destruct (Z.leb_spec MAXVA va), (Z.leb_spec MAXVA (va - va mod PGSIZE)); try lia; [done|].
  rewrite (pte_of_page m root (va - va mod PGSIZE) va);
    [|unfold_consts; lia|unfold_consts; lia|unfold PGSIZE in *; dlia].
  rewrite H2. case_match; [|done]. cbn. f_equal. lia.
Qed.

Lemma rpa_nonzero m va pa : rpa m root va = Some pa → pa - va mod PGSIZE ≠ 0.
Proof.
  unfold rpa. case_match; [done|]. destruct (Z.eqb_spec (PTE2PA (pte_of m root va)) 0).
  - by rewrite andb_false_r.
  - case_match; [|done]. intros [= <-]. lia.
Qed.

Lemma uread_app m va n1 n2 :
  uread m root va (n1 + n2) =
  (bs1 ← uread m root va n1; bs2 ← uread m root (va + Z.of_nat n1) n2; Some (bs1 ++ bs2)).
Proof.
  revert va. induction n1 as [|n1 IH]; intros va; cbn [Nat.add uread].
  - rewrite Z.add_0_r. cbn. by destruct (uread m root va n2).
  - destruct (rpa m root va) as [pa|]; [|done]. cbn [mbind option_bind]. rewrite IH.
    replace (va + 1 + Z.of_nat n1) with (va + Z.of_nat (S n1)) by lia.
    destruct (uread m root (va + 1) n1) as [bs1|]; [|done]. cbn [mbind option_bind].
    by destruct (uread m root (va + Z.of_nat (S n1)) n2).
Qed.

Lemma rdn_S m a n : rdn m a (S n) = rd m a :: rdn m (a + 1) n.
Proof. done. Qed.

Lemma uread_page m va n pa :
  0 ≤ va → va mod PGSIZE + Z.of_nat n ≤ PGSIZE → (0 < n)%nat → rpa m root va = Some pa →
  uread m root va n = Some (rdn m pa n).
Proof.
  revert va pa. induction n as [|n IH]; intros va pa Hva Hp Hn Hpa; [lia|].
  cbn [uread]. rewrite Hpa. cbn [mbind option_bind]. rewrite rdn_S.
  destruct n as [|n]; [done|].
  rewrite (IH (va + 1) (pa + 1)); [done|lia| |lia|apply rpa_page; done || lia].
  unfold PGSIZE in *. dlia.
Qed.

(** What the caller sees: all the bytes, or an error with the bytes before it. *)
Definition copyin_spec (m : mem) (va : Z) (len : nat) (r : Z) (bs : list Z) : Prop :=
  match uread m root va len with
  | Some bs' => r = 0 ∧ bs = bs'
  | None => r = -1 ∧ ∃ k, (k < len)%nat ∧ uread m root va k = Some bs
  end.

(** The chunk of a page that starts at [va]. *)
Lemma chunk va len :
  0 ≤ va < 2 ^ 64 → (0 < len)%nat →
  let va0 := PGROUNDDOWN va in
  let n := Z.min (PGSIZE - (va - va0)) (Z.of_nat len) in
  va0 = va - va mod PGSIZE ∧ 0 ≤ va0 ∧ va0 mod PGSIZE = 0 ∧
  0 < n ≤ Z.of_nat len ∧ va mod PGSIZE + n ≤ PGSIZE ∧
  (n < Z.of_nat len → va + n = va0 + PGSIZE).
Proof.
  intros Hva Hlen va0 n. assert (va0 = va - va mod PGSIZE) as E by (by apply PGROUNDDOWN_eq).
  clearbody va0. subst va0. unfold n. unfold PGSIZE in *. dlia.
Qed.

Lemma copyin_loop_eq s len fuel va dst :
  pt_wf (pmem s) T → 0 ≤ va < 2 ^ 64 → (len ≤ fuel)%nat →
  ∃ r bs, copyin_loop fuel root va (Z.of_nat len) dst s = Ret (r, dst ++ bs) s ∧
    copyin_spec (pmem s) va len r bs.
Proof.
  intros Hwf. revert va dst len. induction fuel as [|fuel IH]; intros va dst len Hva Hfuel.
  { assert (len = O) as -> by lia. exists 0, []. split; [by rewrite app_nil_r|done]. }
  destruct len as [|len]; [exists 0, []; split; [by rewrite app_nil_r|done]|].
  cbn [copyin_loop]. rewrite (proj2 (Z.ltb_lt 0 (Z.of_nat (S len)))) by lia. cbn [negb].
  destruct (chunk va (S len) Hva ltac:(lia)) as (E0 & H0 & Hal & Hn & Hpage & Hnext).
  set (va0 := PGROUNDDOWN va) in *. set (n := Z.min _ _) in *.
  erewrite bind_ret; [|by apply walkaddr_eq]. rewrite E0, rpa_base by lia.
  assert (S len = Z.to_nat n + (S len - Z.to_nat n))%nat as Elen by lia.
  assert (va + Z.of_nat (Z.to_nat n) = va + n) as Evan by lia.
  destruct (rpa (pmem s) root va) as [pa|] eqn:Hpa; cbn [fmap option_fmap option_map].
  2:{ exists (-1), []. split; [by rewrite app_nil_r|].
      unfold copyin_spec. cbn [uread]. rewrite Hpa. split; [done|]. exists O. split; [lia|done]. }
  change (default 0 (Some ?x)) with x.
  rewrite (proj2 (Z.eqb_neq (pa - va mod PGSIZE) 0)) by (by eapply rpa_nonzero).
  erewrite bind_ret; [|reflexivity].
  replace (pa - va mod PGSIZE + (va - (va - va mod PGSIZE))) with pa by lia.
  pose proof (uread_page (pmem s) va (Z.to_nat n) pa ltac:(lia) ltac:(lia) ltac:(lia) Hpa) as Hrd.
  destruct (decide (n = Z.of_nat (S len))) as [En|Hne].
  - exists 0, (rdn (pmem s) pa (Z.to_nat n)). rewrite En, Z.sub_diag. split.
    + by destruct fuel.
    + unfold copyin_spec. rewrite En in Hrd. rewrite Nat2Z.id in *. rewrite Hrd. done.
  - assert (va < MAXVA) as Hmaxva by (unfold rpa in Hpa; case_match; [done|lia]).
    destruct (IH (va + n) (dst ++ rdn (pmem s) pa (Z.to_nat n)) (S len - Z.to_nat n)%nat)
      as (r & bs & Heq & Hspec); [unfold PGSIZE in *; unfold_consts; dlia|lia|].
    exists r, (rdn (pmem s) pa (Z.to_nat n) ++ bs). split.
    + rewrite <- E0, <- Hnext by lia. rewrite u64_small by (unfold PGSIZE in *; unfold_consts; dlia).
      replace (Z.of_nat (S len) - n) with (Z.of_nat (S len - Z.to_nat n)) by lia.
      rewrite Heq. by rewrite app_assoc.
    + unfold copyin_spec in *. rewrite Elen, uread_app, Hrd. cbn [mbind option_bind]. rewrite Evan.
      destruct (uread (pmem s) root (va + n) _) as [bs2|]; cbn [mbind option_bind].
      * destruct Hspec as [-> ->]. done.
      * destruct Hspec as [-> (k & Hk & Hbs)]. split; [done|]. exists (Z.to_nat n + k)%nat.
        split; [lia|]. rewrite uread_app, Hrd. cbn [mbind option_bind]. rewrite Evan, Hbs. done.
Qed.

(** *** copyinstr *)

Definition copyinstr_spec (m : mem) (va : Z) (max : nat) (r : Z) (bs : list Z) : Prop :=
  match ureadstr m root va max with
  | Some bs' => r = 0 ∧ bs = bs'
  | None => r = -1
  end.

Lemma copyinstr_page_eq m va pa n k :
  0 ≤ va → va mod PGSIZE + Z.of_nat n ≤ PGSIZE → (0 < n)%nat → rpa m root va = Some pa →
  let '(bs, got) := copyinstr_page n m pa in
  ureadstr m root va (n + k) =
    if got then Some bs else app bs <$> ureadstr m root (va + Z.of_nat n) k.
Proof.
  revert va pa. induction n as [|n IH]; intros va pa Hva Hp Hn Hpa; [lia|].
  cbn [copyinstr_page Nat.add ureadstr]. rewrite Hpa. cbn [mbind option_bind].
  destruct (rd m pa =? 0) eqn:E0; [done|].
  destruct n as [|n].
  { cbn [copyinstr_page Nat.add]. change (Z.of_nat 1) with 1.
    by destruct (ureadstr m root (va + 1) k). }
  assert (va mod PGSIZE + 1 < PGSIZE) as Hlt by lia.
  pose proof (rpa_page m va 1 pa Hva ltac:(lia) Hlt Hpa) as Hpa1.
  specialize (IH (va + 1) (pa + 1) ltac:(lia) ltac:(unfold PGSIZE in *; dlia) ltac:(lia) Hpa1).
  destruct (copyinstr_page (S n) m (pa + 1)) as [bs got]. rewrite IH. destruct got; [done|].
  replace (va + 1 + Z.of_nat (S n)) with (va + Z.of_nat (S (S n))) by lia.
  by destruct (ureadstr m root (va + Z.of_nat (S (S n))) k).
Qed.

Lemma copyinstr_loop_eq s max fuel va dst :
  pt_wf (pmem s) T → 0 ≤ va < 2 ^ 64 → (max ≤ fuel)%nat →
  ∃ r bs, copyinstr_loop fuel root va (Z.of_nat max) dst s = Ret (r, dst ++ bs) s ∧
    copyinstr_spec (pmem s) va max r bs.
Proof.
  intros Hwf. revert va dst max. induction fuel as [|fuel IH]; intros va dst max Hva Hfuel.
  { assert (max = O) as -> by lia. exists (-1), []. split; [by rewrite app_nil_r|done]. }
  destruct max as [|max]; [exists (-1), []; split; [by rewrite app_nil_r|done]|].
  cbn [copyinstr_loop]. rewrite (proj2 (Z.ltb_lt 0 (Z.of_nat (S max)))) by lia. cbn [negb].
  destruct (chunk va (S max) Hva ltac:(lia)) as (E0 & H0 & Hal & Hn & Hpage & Hnext).
  set (va0 := PGROUNDDOWN va) in *. set (n := Z.min _ _) in *.
  erewrite bind_ret; [|by apply walkaddr_eq]. rewrite E0, rpa_base by lia.
  destruct (rpa (pmem s) root va) as [pa|] eqn:Hpa; cbn [fmap option_fmap option_map].
  2:{ exists (-1), []. split; [by rewrite app_nil_r|].
      unfold copyinstr_spec. cbn [ureadstr]. by rewrite Hpa. }
  change (default 0 (Some ?x)) with x.
  rewrite (proj2 (Z.eqb_neq (pa - va mod PGSIZE) 0)) by (by eapply rpa_nonzero).
  erewrite bind_ret; [|reflexivity].
  replace (pa - va mod PGSIZE + (va - (va - va mod PGSIZE))) with pa by lia.
  pose proof (copyinstr_page_eq (pmem s) va pa (Z.to_nat n) (S max - Z.to_nat n)
    ltac:(lia) ltac:(lia) ltac:(lia) Hpa) as Hpg.
  replace (Z.to_nat n + (S max - Z.to_nat n))%nat with (S max) in Hpg by lia.
  unfold copyinstr_spec. destruct (copyinstr_page (Z.to_nat n) (pmem s) pa) as [bs got].
  rewrite Hpg. destruct got; [by exists 0, bs|].
  assert (va < MAXVA) as Hmaxva by (unfold rpa in Hpa; case_match; [done|lia]).
  replace (va + Z.of_nat (Z.to_nat n)) with (va + n) by lia.
  destruct (decide (n = Z.of_nat (S max))) as [En|Hne].
  - exists (-1), bs. rewrite En, Z.sub_diag, Nat2Z.id, Nat.sub_diag. split; [by destruct fuel|done].
  - destruct (IH (va + n) (dst ++ bs) (S max - Z.to_nat n)%nat)
      as (r & bs2 & Heq & Hspec); [unfold PGSIZE in *; unfold_consts; dlia|lia|].
    exists r, (bs ++ bs2). split.
    + rewrite <- E0, <- Hnext by lia. rewrite u64_small by (unfold PGSIZE in *; unfold_consts; dlia).
      replace (Z.of_nat (S max) - n) with (Z.of_nat (S max - Z.to_nat n)) by lia.
      rewrite Heq. by rewrite app_assoc.
    + unfold copyinstr_spec in Hspec.
      destruct (ureadstr (pmem s) root (va + n) _) as [bs3|]; cbn; [|done].
      by destruct Hspec as [-> ->].
Qed.

(** *** copyout *)

(** The user can write no page table. *)
Definition user_data (m : mem) : Prop :=
  pt_wf m T ∧ ∀ va pa, 0 ≤ va → wpa m root va = Some pa → T !! pg pa = None.

Lemma wr_ptes m pa b :
  pt_wf m T → T !! pg pa = None →
  pt_wf (wr m pa b) T ∧ ∀ va, pte_of (wr m pa b) root va = pte_of m root va.
Proof.
  intros Hwf HT. assert (agree (is_table T) m (wr m pa b)) as Hag.
  { intros x [lx Hx]. symmetry. apply rd_wr_ne. intros ->. congruence. }
  split; [by eapply pt_wf_agree|]. intros va. by eapply wlk_agree.
Qed.

Lemma wpa_wr m pa b va :
  (∀ va, pte_of (wr m pa b) root va = pte_of m root va) → wpa (wr m pa b) root va = wpa m root va.
Proof. intros H. unfold wpa. by rewrite H. Qed.

Lemma user_data_wr m pa b va0 :
  0 ≤ va0 → user_data m → wpa m root va0 = Some pa →
  user_data (wr m pa b) ∧ ∀ va, wpa (wr m pa b) root va = wpa m root va.
Proof.
  intros Hva0 [Hwf Hd] Hpa. destruct (wr_ptes m pa b Hwf (Hd _ _ Hva0 Hpa)) as [Hwf' Hp].
  split; [split; [done|]|].
  - intros va pa' Hva. rewrite wpa_wr by done. by apply Hd.
  - intros va. by apply wpa_wr.
Qed.

(** A store to memory that holds no page table. *)
Lemma user_data_blit m a bs :
  user_data m → (∀ i, (i < length bs)%nat → T !! pg (a + Z.of_nat i) = None) → user_data (blit m a bs).
Proof.
  revert m a. induction bs as [|b bs IH]; intros m a [Hwf Hd] Hb; [done|]. cbn [blit]. apply IH.
  - destruct (wr_ptes m a b Hwf) as [Hwf' Hp]; [rewrite <- (Z.add_0_r a); apply (Hb 0%nat); cbn; lia|].
    split; [done|]. intros va pa Hva. rewrite wpa_wr by done. by apply Hd.
  - intros i Hi. replace (a + 1 + Z.of_nat i) with (a + Z.of_nat (S i)) by lia. apply Hb; cbn; lia.
Qed.

Lemma wpa_page m va i pa :
  0 ≤ va → 0 ≤ i → va mod PGSIZE + i < PGSIZE → wpa m root va = Some pa → wpa m root (va + i) = Some (pa + i).
Proof.
  unfold wpa. intros Hva Hi Hp. destruct (Z.leb_spec MAXVA va) as [|Hlt]; [done|].
  destruct (same_page va i) as (H1 & H2 & H3); [done..|].
  rewrite (proj2 (Z.leb_gt MAXVA (va + i))) by done. rewrite H2, H3.
  case_match; [|done]. intros [= <-]. f_equal. lia.
Qed.

Lemma uwrite_app m va b1 b2 :
  uwrite m root va (b1 ++ b2) =
  (m1 ← uwrite m root va b1; uwrite m1 root (va + Z.of_nat (length b1)) b2).
Proof.
  revert m va. induction b1 as [|b b1 IH]; intros m va; cbn [app uwrite length].
  - by rewrite Z.add_0_r.
  - destruct (wpa m root va) as [pa|]; [|done]. cbn [mbind option_bind]. rewrite IH.
    by replace (va + 1 + Z.of_nat (length b1)) with (va + Z.of_nat (S (length b1))) by lia.
Qed.

Lemma uwrite_page m va bs pa :
  user_data m → 0 ≤ va → va mod PGSIZE + Z.of_nat (length bs) ≤ PGSIZE → wpa m root va = Some pa →
  uwrite m root va bs = Some (blit m pa bs) ∧ user_data (blit m pa bs).
Proof.
  revert m va pa. induction bs as [|b bs IH]; intros m va pa Hud Hva Hp Hpa; [done|].
  cbn [uwrite blit length] in *. rewrite Hpa. cbn [mbind option_bind].
  destruct (user_data_wr m pa b va Hva Hud Hpa) as [Hud' Hw].
  destruct bs as [|b' bs]; [done|]. cbn [length] in Hp.
  apply (IH (wr m pa b)); [done|lia|cbn [length]; unfold PGSIZE in *; dlia|].
  rewrite Hw. apply wpa_page; done || lia.
Qed.

(** The check that copyout makes on the page of [va]. *)
Lemma copyout_check s va :
  pt_wf (pmem s) T → 0 ≤ va < MAXVA →
  let va0 := va - va mod PGSIZE in
  let pte := default 0 (wlk (pmem s) 2 root va0) in
  let v := load64 (pmem s) pte in
  if (pte =? 0) || negb (has v PTE_V) || negb (has v PTE_U) || negb (has v PTE_W)
  then wpa (pmem s) root va = None
  else wpa (pmem s) root va = Some (PTE2PA v + va mod PGSIZE).
Proof.
  intros Hwf Hva va0 pte v. unfold wpa. rewrite (proj2 (Z.leb_gt MAXVA va)) by lia.
  assert (pte_of (pmem s) root va = pte_of (pmem s) root va0) as ->.
  { apply pte_of_page; unfold va0; unfold_consts; unfold PGSIZE in *; dlia. }
  unfold pte_of, val. fold va0 in pte. unfold v, pte. clear v.
  destruct (wlk (pmem s) 2 root va0) as [a|] eqn:Hw.
  2:{ done. }
  change (default 0 (Some a)) with a.
  rewrite (proj2 (Z.eqb_neq a 0)) by (pose proof (wlk_nonzero _ _ _ _ _ _ Hwf Hroot Hw); lia).
  destruct (has _ PTE_V), (has _ PTE_U), (has _ PTE_W); done.
Qed.

Definition copyout_spec (m : mem) (va : Z) (src : list Z) (r : Z) (m' : mem) : Prop :=
  match uwrite m root va src with
  | Some m1 => r = 0 ∧ m' = m1
  | None => r = -1 ∧ ∃ k, (k < length src)%nat ∧ uwrite m root va (take k src) = Some m'
  end.

Lemma copyout_loop_eq s src fuel va :
  user_data (pmem s) → 0 ≤ va < 2 ^ 64 → (length src ≤ fuel)%nat →
  ∃ r m', copyout_loop fuel root va src s = Ret r (set_pmem m' s) ∧
    copyout_spec (pmem s) va src r m'.
Proof.
  revert s va src. induction fuel as [|fuel IH]; intros s va src Hud Hva Hfuel.
  { destruct src; [|cbn [length] in Hfuel; lia]. exists 0, (pmem s). split; [by destruct s|done]. }
  destruct src as [|b src']; [exists 0, (pmem s); split; [by destruct s|done]|].
  set (src := b :: src') in *.
  assert (0 < length src)%nat as Hpos by (cbn; lia).
  change (copyout_loop (S fuel) root va src) with
    (let len := Z.of_nat (length src) in
     let va0 := PGROUNDDOWN va in
     if MAXVA <=? va0 then mret (-1)
     else
       pte ← walk root va0 false;
       v ← get_pte pte;
       if (pte =? 0) || negb (has v PTE_V) || negb (has v PTE_U) || negb (has v PTE_W)
       then mret (-1)
       else
         let pa0 := PTE2PA v in
         let n := Z.min (PGSIZE - (va - va0)) len in
         modify (λ s, set_pmem (blit (pmem s) (pa0 + (va - va0)) (take (Z.to_nat n) src)) s);;
         copyout_loop fuel root (u64 (va0 + PGSIZE)) (drop (Z.to_nat n) src)).
  cbn zeta. destruct (chunk va (length src) Hva Hpos) as (E0 & H0 & Hal & Hn & Hpage & Hnext).
  set (va0 := PGROUNDDOWN va) in *. set (n := Z.min _ _) in *.
  assert (wpa (pmem s) root va = None → copyout_spec (pmem s) va src (-1) (pmem s)) as Hfail.
  { intros Hnone. unfold copyout_spec. unfold src. cbn [uwrite]. rewrite Hnone. split; [done|].
    exists O. split; [cbn; lia|done]. }
  destruct (Z.leb_spec MAXVA va0) as [Hge|Hlt].
  { exists (-1), (pmem s). split; [by destruct s|]. apply Hfail.
    unfold wpa. by rewrite (proj2 (Z.leb_le MAXVA va)) by (unfold PGSIZE in *; dlia). }
  assert (va < MAXVA) as Hmaxva by (unfold PGSIZE in *; unfold_consts; dlia).
  erewrite bind_ret; [|by apply walk_noalloc]. erewrite bind_ret; [|reflexivity].
  pose proof (copyout_check s va (proj1 Hud) ltac:(lia)) as Hck. cbn zeta in Hck. rewrite <- E0 in Hck.
  destruct (_ || _ || _ || _).
  { exists (-1), (pmem s). split; [by destruct s|by apply Hfail]. }
  erewrite bind_ret; [|reflexivity].
  set (pa := PTE2PA _ + va mod PGSIZE) in Hck.
  replace (PTE2PA _ + (va - va0)) with pa by (unfold pa; lia).
  assert (length (take (Z.to_nat n) src) = Z.to_nat n) as Htl by (rewrite length_take; lia).
  destruct (uwrite_page (pmem s) va (take (Z.to_nat n) src) pa Hud ltac:(lia) ltac:(lia) Hck) as [Hw Hud'].
  set (s1 := set_pmem (blit (pmem s) pa (take (Z.to_nat n) src)) s).
  destruct (decide (n = Z.of_nat (length src))) as [En|Hne].
  - exists 0, (pmem s1). rewrite En, Nat2Z.id, drop_all. split; [by destruct fuel|].
    unfold copyout_spec. rewrite En, Nat2Z.id, take_ge in Hw by lia. rewrite Hw. split; [done|].
    unfold s1. cbn [pmem set_pmem]. by rewrite En, Nat2Z.id, take_ge by lia.
  - destruct (IH s1 (va + n) (drop (Z.to_nat n) src)) as (r & m' & Heq & Hspec);
      [done|unfold PGSIZE in *; unfold_consts; dlia|rewrite length_drop; lia|].
    exists r, m'. split.
    + rewrite <- Hnext by lia. rewrite u64_small by (unfold PGSIZE in *; unfold_consts; dlia).
      rewrite Heq. done.
    + assert (uwrite (pmem s) root va src = uwrite (pmem s1) root (va + n) (drop (Z.to_nat n) src)) as Esplit.
      { transitivity (uwrite (pmem s) root va (take (Z.to_nat n) src ++ drop (Z.to_nat n) src));
          [by rewrite take_drop|].
        rewrite uwrite_app, Hw. cbn [mbind option_bind]. rewrite Htl.
        by replace (va + Z.of_nat (Z.to_nat n)) with (va + n) by lia. }
      unfold copyout_spec in *. rewrite Esplit.
      destruct (uwrite (pmem s1) root (va + n) _) as [m2|]; [done|].
      destruct Hspec as [-> (k & Hk & Hbs)]. split; [done|]. exists (Z.to_nat n + k)%nat.
      rewrite length_drop in Hk. split; [lia|].
      rewrite <- (take_take_drop src), uwrite_app, Hw. cbn [mbind option_bind]. rewrite Htl.
      by replace (va + Z.of_nat (Z.to_nat n)) with (va + n) by lia.
Qed.

(** *** Reading back what was written *)

Lemma uwrite_user_data m va bs m' :
  0 ≤ va → user_data m → uwrite m root va bs = Some m' →
  user_data m' ∧ ∀ x, wpa m' root x = wpa m root x.
Proof.
  revert m va. induction bs as [|b bs IH]; intros m va Hva Hud; cbn [uwrite].
  { intros [= <-]. done. }
  destruct (wpa m root va) as [pa|] eqn:Hpa; [|done]. cbn [mbind option_bind]. intros Hw.
  destruct (user_data_wr m pa b va Hva Hud Hpa) as [Hud1 Hw1].
  destruct (IH (wr m pa b) (va + 1) ltac:(lia) Hud1 Hw) as [Hud' Hw']. split; [done|].
  intros x. by rewrite Hw', Hw1.
Qed.

Lemma uwrite_other m va bs m' x :
  0 ≤ va → user_data m → uwrite m root va bs = Some m' →
  (∀ i, (i < length bs)%nat → wpa m root (va + Z.of_nat i) ≠ Some x) → rd m' x = rd m x.
Proof.
  revert m va. induction bs as [|b bs IH]; intros m va Hva Hud; cbn [uwrite length].
  { by intros [= <-] _. }
  destruct (wpa m root va) as [pa|] eqn:Hpa; [|done]. cbn [mbind option_bind]. intros Hw Hne.
  destruct (user_data_wr m pa b va Hva Hud Hpa) as [Hud1 Hw1].
  rewrite (IH (wr m pa b) (va + 1) ltac:(lia) Hud1 Hw).
  - apply rd_wr_ne. intros ->. apply (Hne O); [lia|]. by rewrite Z.add_0_r.
  - intros i Hi. rewrite Hw1. replace (va + 1 + Z.of_nat i) with (va + Z.of_nat (S i)) by lia.
    apply Hne. lia.
Qed.

(** The bytes of the range are at distinct physical addresses, none in page 0. *)
Definition no_alias (m : mem) (va : Z) (n : nat) : Prop :=
  (∀ i j pa, (i < j < n)%nat → wpa m root (va + Z.of_nat i) = Some pa →
     wpa m root (va + Z.of_nat j) ≠ Some pa) ∧
  (∀ i pa, (i < n)%nat → wpa m root (va + Z.of_nat i) = Some pa → PGSIZE ≤ pa).

Lemma wpa_rpa m va pa : 0 ≤ va → wpa m root va = Some pa → PGSIZE ≤ pa → rpa m root va = Some pa.
Proof.
  unfold wpa, rpa. case_match; [done|].
  destruct (has _ PTE_V), (has _ PTE_U), (has _ PTE_W); cbn [andb]; try done.
  intros Hva [= <-] Hpa. rewrite (proj2 (Z.eqb_neq (PTE2PA (pte_of m root va)) 0)); [done|].
  unfold PGSIZE in *. dlia.
Qed.

Lemma uwrite_uread m va bs m' :
  0 ≤ va → user_data m → no_alias m va (length bs) → uwrite m root va bs = Some m' →
  uread m' root va (length bs) = Some (u8 <$> bs).
Proof.
  revert m va. induction bs as [|b bs IH]; intros m va Hva Hud [Hne Hpg]; cbn [uwrite uread length]; [done|].
  destruct (wpa m root va) as [pa|] eqn:Hpa; [|done]. cbn [mbind option_bind]. intros Hw.
  destruct (user_data_wr m pa b va Hva Hud Hpa) as [Hud1 Hw1].
  assert (0 ≤ va + 1) as Hva1 by lia.
  destruct (uwrite_user_data _ _ _ _ Hva1 Hud1 Hw) as [Hud' Hw'].
  assert (∀ i, va + Z.of_nat (S i) = va + 1 + Z.of_nat i) as Hsh by lia.
  rewrite (wpa_rpa m' va pa); [|done|by rewrite Hw', Hw1|].
  2:{ apply (Hpg O); [cbn [length]; lia|]. by rewrite Z.add_0_r. }
  cbn [mbind option_bind]. rewrite (IH (wr m pa b) (va + 1)); [|lia|done| |done].
  - cbn. f_equal. f_equal. rewrite (uwrite_other _ _ _ _ pa Hva1 Hud1 Hw); [apply rd_wr_eq|].
    intros i Hi. rewrite Hw1, <- Hsh. apply (Hne O); [cbn [length]; lia|]. by rewrite Z.add_0_r.
  - split.
    + intros i j pa' Hij. rewrite !Hw1, <- !Hsh. apply Hne. cbn [length]. lia.
    + intros i pa' Hi. rewrite Hw1, <- Hsh. apply Hpg. cbn [length]. lia.
Qed.
End root.
End usermem.

(** * Properties *)

From S2P Require Import VmDemo.

Section props.
Context `{L : Layout}.

(** C23. copyin, which translates once per page, reads what a byte-by-byte read through
    the page table reads: it returns 0 and the [len] bytes, or -1 exactly when one of
    the bytes is not readable by the user, with the readable bytes before it stored.
    It always returns and changes nothing. *)
Theorem copyin_correct T root s va (len : nat) :
  T !! root = Some 2%nat → pt_wf (pmem s) T → 0 ≤ va < 2 ^ 64 →
  ∃ r bs, copyin root va (Z.of_nat len) s = Ret (r, bs) s ∧
    match uread (pmem s) root va len with
    | Some bs' => r = 0 ∧ bs = bs'
    | None => r = -1 ∧ ∃ k, (k < len)%nat ∧ uread (pmem s) root va k = Some bs
    end.
Proof.
  intros Hroot Hwf Hva.
  destruct (copyin_loop_eq T root Hroot s len len va [] Hwf Hva ltac:(lia)) as (r & bs & E & Hs).
  exists r, bs. split; [|done]. unfold copyin. rewrite Nat2Z.id. exact E.
Qed.

(** C17. copyout writes what a byte-by-byte write through the page table writes: it
    returns 0 with all the bytes stored, or -1 exactly when one of them is not
    writable by the user, with a prefix stored; nothing else changes. The user's
    writable pages are assumed not to be page tables. *)
Theorem copyout_correct T root s va src :
  T !! root = Some 2%nat → user_data T root (pmem s) → 0 ≤ va < 2 ^ 64 →
  ∃ r m', copyout root va src s = Ret r (set_pmem m' s) ∧
    match uwrite (pmem s) root va src with
    | Some m1 => r = 0 ∧ m' = m1
    | None => r = -1 ∧ ∃ k, (k < length src)%nat ∧ uwrite (pmem s) root va (take k src) = Some m'
    end.
Proof. intros Hroot Hud Hva. by apply (copyout_loop_eq T root Hroot). Qed.

(** copyinstr returns the user's string with its NUL when there is a NUL among the
    first [max] readable bytes, and -1 otherwise (no NUL, or an unreadable byte). *)
Theorem copyinstr_correct T root s va (max : nat) :
  T !! root = Some 2%nat → pt_wf (pmem s) T → 0 ≤ va < 2 ^ 64 →
  ∃ r bs, copyinstr root va (Z.of_nat max) s = Ret (r, bs) s ∧
    match ureadstr (pmem s) root va max with
    | Some bs' => r = 0 ∧ bs = bs'
    | None => r = -1
    end.
Proof.
  intros Hroot Hwf Hva.
  destruct (copyinstr_loop_eq T root Hroot s max max va [] Hwf Hva ltac:(lia)) as (r & bs & E & Hs).
  exists r, bs. split; [|done]. unfold copyinstr. rewrite Nat2Z.id. exact E.
Qed.

(** Round trip: what copyout has stored, copyin reads back, when the bytes of the
    range are at distinct physical addresses. *)
Theorem copyout_copyin T root s va src s' :
  T !! root = Some 2%nat → user_data T root (pmem s) → 0 ≤ va < 2 ^ 64 →
  no_alias root (pmem s) va (length src) → Forall (λ b, 0 ≤ b < 256) src →
  copyout root va src s = Ret 0 s' →
  copyin root va (Z.of_nat (length src)) s' = Ret (0, src) s'.
Proof.
  intros Hroot Hud Hva Hna Hb E.
  destruct (copyout_loop_eq T root Hroot s src (length src) va Hud Hva ltac:(lia)) as (r & m' & E' & Hs).
  unfold copyout in E. rewrite E in E'. injection E' as <- ->. unfold copyout_spec in Hs.
  destruct (uwrite (pmem s) root va src) as [m1|] eqn:Hw; [|by destruct Hs].
  destruct Hs as [_ ->]. pose proof (proj1 Hva) as Hva0.
  destruct (uwrite_user_data T root Hroot _ _ _ _ Hva0 Hud Hw) as [[Hwf' _] _].
  pose proof (uwrite_uread T root Hroot _ _ _ _ Hva0 Hud Hna Hw) as Hr.
  destruct (copyin_loop_eq T root Hroot (set_pmem m1 s) (length src) (length src) va [] Hwf' Hva ltac:(lia))
    as (r & bs & Ein & Hs). unfold copyin_spec in Hs. cbn [pmem set_pmem] in Hs. rewrite Hr in Hs.
  destruct Hs as [-> ->]. unfold copyin. rewrite Nat2Z.id, Ein. do 2 f_equal.
  cbn [app]. clear -Hb. induction Hb as [|b bs Hb' Hbs IH]; [done|]. cbn. rewrite IH. f_equal.
  by apply u8_small.
Qed.
End props.

#[local] Existing Instance layout_ex.

(** The two bytes across the page boundary, where page 1 is read-only. *)
Lemma copyin_correct_witness : copyin demo_rootA 0xffe 3 demo = Ret (0, [104; 105; 0]) demo.
Proof.
  destruct (copyin_correct demo_T demo_rootA demo 0xffe 3 eq_refl demo_pt ltac:(lia))
    as (r & bs & E & H).
  change (Z.of_nat 3) with 3 in E.
  replace (uread _ _ _ _) with (Some [104; 105; 0]) in H by (vm_compute; reflexivity).
  destruct H as [-> ->]. exact E.
Defined.

Lemma copyinstr_correct_witness : copyinstr demo_rootA 0xffe 128 demo = Ret (0, [104; 105; 0]) demo.
Proof.
  destruct (copyinstr_correct demo_T demo_rootA demo 0xffe 128 eq_refl demo_pt ltac:(lia))
    as (r & bs & E & H).
  change (Z.of_nat 128) with 128 in E.
  replace (ureadstr _ _ _ _) with (Some [104; 105; 0]) in H by (vm_compute; reflexivity).
  destruct H as [-> ->]. exact E.
Defined.

Lemma demo_user_data : user_data demo_T demo_rootA (pmem demo).
Proof.
  split; [exact demo_pt|]. intros va pa Hva. unfold wpa.
  destruct (Z.leb_spec MAXVA va) as [|Hmax]; [done|].
  destruct (decide (va < 8192)) as [Hlt|Hge].
  - rewrite (pte_of_page _ _ va (va / PGSIZE * PGSIZE)) by (unfold_consts; unfold PGSIZE; dlia).
    assert (va / PGSIZE = 0 ∨ va / PGSIZE = 1) as [-> | ->] by (unfold PGSIZE; dlia).
    + assert (pte_of (pmem demo) demo_rootA (0 * PGSIZE) = Z.lor (PA2PTE 0x87ff3000) 0x17) as ->
        by (vm_compute; reflexivity).
      case_match; [|done]. intros [= <-].
      rewrite mkpte_pa by (done || lia).
      rewrite (pg_in 0x87ff3000); [reflexivity|reflexivity|unfold PGSIZE; dlia].
    + assert (pte_of (pmem demo) demo_rootA (1 * PGSIZE) = Z.lor (PA2PTE 0x87ff4000) 0x13) as ->
        by (vm_compute; reflexivity).
      case_match eqn:Hh; [|done]. vm_compute in Hh. discriminate.
  - rewrite (none_above_sound (pmem demo) demo_rootA 8192 va); [done|vm_compute; reflexivity|done|done|].
    unfold_consts. lia.
Qed.

Lemma copyout_correct_witness :
  ∃ m', copyout demo_rootA 0x10 [120; 121] demo = Ret 0 (set_pmem m' demo).
Proof.
  destruct (copyout_correct demo_T demo_rootA demo 0x10 [120; 121] eq_refl demo_user_data ltac:(lia))
    as (r & m' & E & H).
  assert (match uwrite (pmem demo) demo_rootA 0x10 [120; 121] with Some _ => true | None => false end = true)
    as Hw by (vm_compute; reflexivity).
  destruct (uwrite (pmem demo) demo_rootA 0x10 [120; 121]) as [m1|]; [|discriminate].
  destruct H as [-> ->]. exists m1. exact E.
Defined.

Lemma copyout_copyin_witness :
  ∃ s', copyout demo_rootA 0x10 [120; 121] demo = Ret 0 s' ∧ copyin demo_rootA 0x10 2 s' = Ret (0, [120; 121]) s'.
Proof.
  assert (match copyout demo_rootA 0x10 [120; 121] demo with Ret r _ => r | _ => 7 end = 0) as Hr
    by (vm_compute; reflexivity).
  destruct (copyout demo_rootA 0x10 [120; 121] demo) as [r s'| |] eqn:E; [|discriminate..]. subst r.
  exists s'. split; [reflexivity|].
  apply (copyout_copyin demo_T demo_rootA demo 0x10 [120; 121] s' eq_refl demo_user_data ltac:(lia));
    [|repeat constructor; lia|exact E].
  split.
  - intros i j pa Hij. assert (i = O ∧ j = 1%nat) as [-> ->] by (cbn in Hij; lia).
    intros Ea Eb. vm_compute in Ea, Eb. congruence.
  - intros i pa Hi. assert (i = O ∨ i = 1%nat) as [-> | ->] by (cbn in Hi; lia);
      intros Ea; vm_compute in Ea; injection Ea as <-; vm_compute; congruence.
Defined.
