(* ===== verification/Proc.v ===== *)
(** * Processes: kernel/proc.c, without the functions that use the file system

    [fork], [exit], [userinit] and [forkret] are in ProcFs, with the file system.

    A thread that calls [swtch] runs again when the scheduler switches back to it.
    What the other threads and harts do to the kernel's state in between is a
    parameter, [others]: the state at the [n]-th switch from the end of the run
    considered becomes [others n] of it. [sched_left] counts the switches that are
    left; when there are none the thread is not scheduled any more ([Hang]). *)

From S2P Require Import Prelude Machine State Spinlock KString Kalloc Vm.

Class Others := others : nat → kstate → kstate.

(** ** The process table *)

Definition get_proc (p : nat) : K proc := gets (λ s, nth p (proc_tab s) proc0).
Definition upd_proc (p : nat) (f : proc → proc) : K unit :=
  modify (λ s, set_proc_tab (alter f p (proc_tab s)) s).

(** A null [struct proc *] faults in the kernel. *)
Definition deref {A} (p : option A) : K A :=
  match p with Some i => mret i | None => panic "kerneltrap" end.

(** [for(p = proc; p < &proc[NPROC]; p++)] *)
Definition all_procs : list nat := seq 0 (Z.to_nat NPROC).

Section proc.
Context `{L : Layout} `{Oth : Others}.

Definition procinit : K unit :=
  lift_cs (initlock L_pid "nextpid");;
  lift_cs (initlock L_wait "wait_lock");;
  mfor all_procs (λ p,
    lift_cs (initlock (L_proc p) "proc");;
    upd_proc p (set_p_state UNUSED);;
    upd_proc p (set_p_kstack (KSTACK (Z.of_nat p)))).

Definition myproc : K (option nat) :=
  lift_cs push_off;;
  c ← lift_cs mycpu;
  let p := cpu_proc c in
  lift_cs pop_off;;
  mret p.

Definition allocpid : K Z :=
  lift_cs (acquire L_pid);;
  pid ← gets nextpid;
  modify (set_nextpid (s32 (pid + 1)));;
  lift_cs (release L_pid);;
  mret pid.

Definition proc_pagetable (p : nat) : K Z :=
  pagetable ← uvmcreate;
  if pagetable =? 0 then mret 0
  else
    r ← mappages pagetable TRAMPOLINE PGSIZE trampoline (Z.lor PTE_R PTE_X);
    if r <? 0 then uvmfree pagetable 0;; mret 0
    else
      pr ← get_proc p;
      r ← mappages pagetable TRAPFRAME PGSIZE (p_trapframe pr) (Z.lor PTE_R PTE_W);
      if r <? 0 then
        uvmunmap pagetable TRAMPOLINE 1 false;;
        uvmfree pagetable 0;;
        mret 0
      else mret pagetable.

Definition proc_freepagetable (pagetable sz : Z) : K unit :=
  uvmunmap pagetable TRAMPOLINE 1 false;;
  uvmunmap pagetable TRAPFRAME 1 false;;
  uvmfree pagetable sz.

Definition freeproc (p : nat) : K unit :=
  pr ← get_proc p;
  when (c_bool (p_trapframe pr)) (kfree (p_trapframe pr));;
  upd_proc p (set_p_trapframe 0);;
  pr ← get_proc p;
  when (c_bool (p_pagetable pr)) (proc_freepagetable (p_pagetable pr) (p_sz pr));;
  upd_proc p (set_p_pagetable 0);;
  upd_proc p (set_p_sz 0);;
  upd_proc p (set_p_pid 0);;
  upd_proc p (set_p_parent None);;
  upd_proc p (λ q, set_p_name (overlay (p_name q) [0]) q);;
  upd_proc p (set_p_chan None);;
  upd_proc p (set_p_killed 0);;
  upd_proc p (set_p_xstate 0);;
  upd_proc p (set_p_state UNUSED).

(** The code after the label [found]. *)
Definition allocproc_found (p : nat) : K (option nat) :=
  pid ← allocpid;
  upd_proc p (set_p_pid pid);;
  upd_proc p (set_p_state USED);;
  tf ← kalloc;
  upd_proc p (set_p_trapframe tf);;
  if tf =? 0 then
    freeproc p;;
    lift_cs (release (L_proc p));;
    mret None
  else
    pt ← proc_pagetable p;
    upd_proc p (set_p_pagetable pt);;
    if pt =? 0 then
      freeproc p;;
      lift_cs (release (L_proc p));;
      mret None
    else
      upd_proc p (set_p_context context0);;
      upd_proc p (λ q, set_p_context (Mk_context forkret_addr (u64 (p_kstack q + PGSIZE))
                                        (ctx_s (p_context q))) q);;
      mret (Some p).

Definition allocproc : K (option nat) :=
  mfor_return all_procs (λ p,
    lift_cs (acquire (L_proc p));;
    pr ← get_proc p;
    if decide (p_state pr = UNUSED) then
      r ← allocproc_found p; mret (Some r)
    else
      lift_cs (release (L_proc p));; mret None)
    (mret None).

Definition growproc (n : Z) : K Z :=
  p ← myproc; p ← deref p;
  pr ← get_proc p;
  let sz := p_sz pr in
  if 0 <? n then
    sz ← uvmalloc (p_pagetable pr) sz (u64 (sz + n)) PTE_W;
    if sz =? 0 then mret (-1)
    else upd_proc p (set_p_sz sz);; mret 0
  else if n <? 0 then
    sz ← uvmdealloc (p_pagetable pr) sz (u64 (sz + n));
    upd_proc p (set_p_sz sz);; mret 0
  else upd_proc p (set_p_sz sz);; mret 0.

(** ** Sleeping and waking up *)

(** [swtch]: this thread stops here; the others run; it goes on. *)
Definition swtch : K unit := λ s,
  match sched_left s with
  | O => Hang
  | S n => Ret tt (set_sched_left n (others n s))
  end.

Definition sched : K unit :=
  p ← myproc; p ← deref p;
  h ← lift_cs (holding (L_proc p));
  if negb h then panic "sched p->lock"
  else
    c ← lift_cs mycpu;
    if negb (noff c =? 1) then panic "sched locks"
    else
      pr ← get_proc p;
      if decide (p_state pr = RUNNING) then panic "sched running"
      else
        b ← lift_cs intr_get;
        if c_bool b then panic "sched interruptible"
        else
          c ← lift_cs mycpu;
          let ie := intena c in
          swtch;;
          lift_cs (upd_mycpu (set_intena ie)).

Definition yield : K unit :=
  p ← myproc; p ← deref p;
  lift_cs (acquire (L_proc p));;
  upd_proc p (set_p_state RUNNABLE);;
  sched;;
  lift_cs (release (L_proc p)).

Definition sleep (ch : chan) (lk : lockid) : K unit :=
  p ← myproc; p ← deref p;
  lift_cs (acquire (L_proc p));;
  lift_cs (release lk);;
  upd_proc p (set_p_chan (Some ch));;
  upd_proc p (set_p_state SLEEPING);;
  sched;;
  upd_proc p (set_p_chan None);;
  lift_cs (release (L_proc p));;
  lift_cs (acquire lk).

Definition wakeup (ch : option chan) : K unit :=
  mfor all_procs (λ p,
    me ← myproc;
    when (bool_decide (Some p ≠ me)) (
      lift_cs (acquire (L_proc p));;
      pr ← get_proc p;
      when (bool_decide (p_state pr = SLEEPING ∧ p_chan pr = ch)) (upd_proc p (set_p_state RUNNABLE));;
      lift_cs (release (L_proc p)))).

Definition kill (pid : Z) : K Z :=
  mfor_return all_procs (λ p,
    lift_cs (acquire (L_proc p));;
    pr ← get_proc p;
    if p_pid pr =? pid then
      upd_proc p (set_p_killed 1);;
      pr ← get_proc p;
      when (bool_decide (p_state pr = SLEEPING)) (upd_proc p (set_p_state RUNNABLE));;
      lift_cs (release (L_proc p));;
      mret (Some 0)
    else
      lift_cs (release (L_proc p));; mret None)
    (mret (-1)).

Definition setkilled (p : nat) : K unit :=
  lift_cs (acquire (L_proc p));;
  upd_proc p (set_p_killed 1);;
  lift_cs (release (L_proc p)).

Definition killed (p : nat) : K Z :=
  lift_cs (acquire (L_proc p));;
  pr ← get_proc p;
  lift_cs (release (L_proc p));;
  mret (p_killed pr).

(** ** Parents and children *)

Definition reparent (p : nat) : K unit :=
  mfor all_procs (λ pp,
    pr ← get_proc pp;
    when (bool_decide (p_parent pr = Some p)) (
      ip ← gets initproc;
      upd_proc pp (set_p_parent ip);;
      wakeup (C_proc <$> ip))).

(** One scan of the table in [wait]: [inl r] to return [r], [inr havekids] otherwise. *)
Fixpoint wait_scan (l : list nat) (p : nat) (addr : Z) (havekids : bool) : K (Z + bool) :=
  match l with
  | [] => mret (inr havekids)
  | pp :: l' =>
      pr ← get_proc pp;
      if decide (p_parent pr = Some p) then
        lift_cs (acquire (L_proc pp));;
        pr ← get_proc pp;
        if decide (p_state pr = ZOMBIE) then
          let pid := p_pid pr in
          me ← get_proc p;
          r ← (if addr =? 0 then mret 0
               else copyout (p_pagetable me) addr (le_bytes 4 (p_xstate pr)));
          if r <? 0 then
            lift_cs (release (L_proc pp));;
            lift_cs (release L_wait);;
            mret (inl (-1))
          else
            freeproc pp;;
            lift_cs (release (L_proc pp));;
            lift_cs (release L_wait);;
            mret (inl pid)
        else
          lift_cs (release (L_proc pp));;
          wait_scan l' p addr true
      else wait_scan l' p addr havekids
  end.

Fixpoint wait_loop (fuel : nat) (p : nat) (addr : Z) : K Z :=
  match fuel with
  | O => hang
  | S f =>
      r ← wait_scan all_procs p addr false;
      match r with
      | inl v => mret v
      | inr havekids =>
          k ← (if (havekids : bool) then killed p else mret 1);
          if c_bool k then
            lift_cs (release L_wait);; mret (-1)
          else
            sleep (C_proc p) L_wait;;
            wait_loop f p addr
      end
  end.

(** Each round but the last sleeps once. *)
Definition wait (addr : Z) : K Z :=
  p ← myproc; p ← deref p;
  lift_cs (acquire L_wait);;
  n ← gets sched_left;
  wait_loop (S n) p addr.

(** ** The scheduler *)

(** One round over the process table; the result is [found]. *)
Fixpoint scheduler_pass (l : list nat) (found : bool) : K bool :=
  match l with
  | [] => mret found
  | p :: l' =>
      lift_cs (acquire (L_proc p));;
      pr ← get_proc p;
      if decide (p_state pr = RUNNABLE) then
        upd_proc p (set_p_state RUNNING);;
        lift_cs (upd_mycpu (set_cpu_proc (Some p)));;
        swtch;;
        lift_cs (upd_mycpu (set_cpu_proc None));;
        lift_cs (release (L_proc p));;
        scheduler_pass l' true
      else
        lift_cs (release (L_proc p));;
        scheduler_pass l' found
  end.

(** [rounds] rounds of the endless loop. [wfi] waits for an interrupt. *)
Fixpoint scheduler_loop (rounds : nat) : K unit :=
  match rounds with
  | O => mret tt
  | S r =>
      lift_cs intr_on;;
      found ← scheduler_pass all_procs false;
      when (negb found) (lift_cs intr_on);;
      scheduler_loop r
  end.
Definition scheduler (rounds : nat) : K unit :=
  lift_cs (upd_mycpu (set_cpu_proc None));;
  scheduler_loop rounds.

(** ** Copies to and from user or kernel addresses *)

(** Where the bytes go: a user address, a kernel address, or a variable of the
    caller (to which the bytes are handed as a value). *)
Inductive dest := UserDst (va : Z) | KernDst (pa : Z) | VarDst.
Inductive source := UserSrc (va : Z) | KernSrc (pa : Z) | VarSrc (bs : list Z).

Definition either_copyout (d : dest) (src : list Z) : K Z :=
  p ← myproc;
  match d with
  | UserDst va => p ← deref p; pr ← get_proc p; copyout (p_pagetable pr) va src
  | KernDst pa => modify (λ s, set_pmem (blit (pmem s) pa src) s);; mret 0
  | VarDst => mret 0
  end.

Definition either_copyin (sr : source) (len : Z) : K (Z * list Z) :=
  p ← myproc;
  match sr with
  | UserSrc va => p ← deref p; pr ← get_proc p; copyin (p_pagetable pr) va len
  | KernSrc pa => gets (λ s, (0, rdn (pmem s) pa (Z.to_nat len)))
  | VarSrc bs => mret (0, take (Z.to_nat len) bs)
  end.

Definition count_proc : K Z :=
  (fix go (l : list nat) (total : Z) : K Z :=
     match l with
     | [] => mret total
     | i :: l' =>
         lift_cs (acquire (L_proc i));;
         pr ← get_proc i;
         let total := if decide (p_state pr = UNUSED) then total else u64 (total + 1) in
         lift_cs (release (L_proc i));;
         go l' total
     end) all_procs 0.
End proc.
