(* ===== verification/Sched.v ===== *)
(** * What wakeup, kill and sleep do: proofs about kernel/proc.c

    The locks of the process table are taken and released one after the other; the
    lemmas here give the effect of each function as an equation on the state, with the
    control state ([cs]) back where it was. *)

From S2P Require Import Prelude Machine State Spinlock KString Kalloc Vm Proc.

(** The current process, as [myproc] finds it. *)
Definition cur_proc (s : kstate) : option nat := cpu_proc (cur_cpu (cs s)).

(** Every process lock but [me]'s is free. *)
Definition procs_free (me : option nat) (c : cstate) : Prop :=
  ∀ p, (p < Z.to_nat NPROC)%nat → Some p ≠ me → lock_free (L_proc p) c.

(** The process table after [wakeup ch] by [me]. *)
Definition wake (ch : option chan) (q : proc) : proc :=
  if decide (p_state q = SLEEPING ∧ p_chan q = ch) then set_p_state RUNNABLE q else q.
Definition wake_at (ch : option chan) (me : option nat) (p : nat) (q : proc) : proc :=
  if decide (Some p = me) then q else wake ch q.
Definition woken (ch : option chan) (me : option nat) (tab : list proc) : list proc :=
  imap (wake_at ch me) tab.

(** ** States that differ in one component *)

Lemma set_cs_id s : set_cs (cs s) s = s.
Proof. by destruct s. Qed.
Lemma set_cs_cs c c' s : set_cs c (set_cs c' s) = set_cs c s.
Proof. by destruct s. Qed.
Lemma set_proc_tab_id s : set_proc_tab (proc_tab s) s = s.
Proof. by destruct s. Qed.
Lemma set_proc_tab_tab t t' s : set_proc_tab t (set_proc_tab t' s) = set_proc_tab t s.
Proof. by destruct s. Qed.
Lemma set_proc_tab_cs t c s : set_proc_tab t (set_cs c s) = set_cs c (set_proc_tab t s).
Proof. by destruct s. Qed.

Lemma alter_nth {A} (f : A → A) (l : list A) i d :
  (i < length l)%nat → alter f i l = <[i := f (nth i l d)]> l.
Proof.
  intros Hi. apply list_eq. intros j. rewrite list_lookup_alter.
  destruct (lookup_lt_is_Some_2 l i Hi) as [x Hx].
  rewrite (nth_lookup_Some _ _ d _ Hx). destruct (decide (i = j)) as [<-|Hne].
  - by rewrite Hx, list_lookup_insert_eq by done.
  - by rewrite list_lookup_insert_ne by done.
Qed.

Lemma alter_id_nth {A} (l : list A) i (f : A → A) d : f (nth i l d) = nth i l d → alter f i l = l.
Proof.
  intros Hf. apply list_eq. intros j. rewrite list_lookup_alter.
  destruct (decide (i = j)) as [<-|Hne]; [|done].
  destruct (l !! i) as [x|] eqn:Hx; [|done]. simpl. f_equal.
  by rewrite (nth_lookup_Some _ _ d _ Hx) in Hf.
Qed.

(** ** Running code of the control state *)

Section sched.
Context `{Oth : Others}.

Lemma myproc_eq n s :
  cs_ok n (cs s) → myproc s = Ret (cur_proc s) s.
Proof.
  intros Hc. unfold myproc.
  erewrite bind_ret; [|unfold lift_cs; by rewrite (push_off_ok Hc)].
  erewrite bind_ret.
  2:{ unfold lift_cs, mycpu, gets. cbn [cs set_cs]. reflexivity. }
  cbv zeta.
  pose proof (pop_off_ok Hc (locks (cs s))) as Hp.
  erewrite bind_ret.
  2:{ unfold lift_cs. cbn [cs set_cs].
      change (pushed (cs s)) with (set_locks (locks (cs s)) (pushed (cs s))) at 1.
      rewrite Hp. reflexivity. }
  rewrite <- surjective_cstate, !set_cs_cs, set_cs_id.
  change (tp (pushed (cs s))) with (tp (cs s)). rewrite (tp_s32 Hc).
  change (nthZ cpu0 (cpus (pushed (cs s))) (tp (cs s))) with (cur_cpu (pushed (cs s))).
  by rewrite (pushed_cur Hc).
Qed.

(** A lock held around an update of the process table. *)
Lemma locked_tab_eq {A} n l (f : list proc → list proc) (a : A) s :
  cs_ok n (cs s) → lock_free l (cs s) →
  (lift_cs (acquire l);; modify (λ s, set_proc_tab (f (proc_tab s)) s);;
   lift_cs (release l);; mret a) s = Ret a (set_proc_tab (f (proc_tab s)) s).
Proof.
  intros Hc Hl. erewrite bind_ret; [|by eapply k_acquire].
  erewrite bind_ret; [|reflexivity].
  erewrite bind_ret; [|by eapply (k_release n l (cs s))].
  by destruct s.
Qed.

Lemma wakeup_body_eq n ch p s :
  cs_ok n (cs s) → procs_free (cur_proc s) (cs s) → (p < Z.to_nat NPROC)%nat →
  (me ← myproc;
   when (bool_decide (Some p ≠ me)) (
     lift_cs (acquire (L_proc p));;
     pr ← get_proc p;
     when (bool_decide (p_state pr = SLEEPING ∧ p_chan pr = ch)) (upd_proc p (set_p_state RUNNABLE));;
     lift_cs (release (L_proc p)))) s
  = Ret tt (set_proc_tab (alter (wake_at ch (cur_proc s) p) p (proc_tab s)) s).
Proof.
  intros Hc Hf Hp. erewrite bind_ret; [|by eapply myproc_eq].
  unfold wake_at. case_decide as Hme.
  - rewrite bool_decide_eq_false_2 by naive_solver. cbn [when]. unfold mret, M_ret.
    rewrite (alter_id_nth _ _ _ proc0) by done. by rewrite set_proc_tab_id.
  - change (λ q, wake ch q) with (wake ch).
    rewrite bool_decide_eq_true_2 by done. cbn [when].
    specialize (Hf p Hp Hme).
    erewrite bind_ret; [|by eapply k_acquire].
    erewrite bind_ret; [|reflexivity]. cbn [proc_tab set_cs].
    destruct (decide (p_state (nth p (proc_tab s) proc0) = SLEEPING ∧
                      p_chan (nth p (proc_tab s) proc0) = ch)) as [Hs|Hs].
    + rewrite bool_decide_eq_true_2 by done. cbn [when].
      erewrite bind_ret; [|reflexivity].
      rewrite (k_release n (L_proc p) (cs s)); [|done|done|done].
      assert (alter (set_p_state RUNNABLE) p (proc_tab s) = alter (wake ch) p (proc_tab s)) as <-.
      { apply list_eq. intros j. rewrite !list_lookup_alter. destruct (decide (p = j)) as [<-|]; [|done].
        destruct (proc_tab s !! p) as [x|] eqn:Hx; [|done]. simpl. f_equal.
        rewrite (nth_lookup_Some _ _ proc0 _ Hx) in Hs. unfold wake. by rewrite decide_True. }
      by destruct s.
    + rewrite bool_decide_eq_false_2 by done. cbn [when].
      erewrite bind_ret; [|reflexivity].
      rewrite (k_release n (L_proc p) (cs s)); [|done|done|done].
      rewrite (alter_id_nth _ _ _ proc0) by (unfold wake; by rewrite decide_False).
      by destruct s.
Qed.

(** The loop over the table, from index [i]. *)
Lemma mfor_tab_eq (body : nat → K unit) (g : nat → proc → proc) (I : kstate → Prop) k i s :
  (∀ p s, (i ≤ p < i + k)%nat → I s → body p s = Ret tt (set_proc_tab (alter (g p) p (proc_tab s)) s)) →
  (∀ s t, I s → I (set_proc_tab t s)) → I s →
  ∃ t, mfor (seq i k) body s = Ret tt (set_proc_tab t s) ∧
    ∀ j, t !! j = (if decide (i ≤ j < i + k)%nat then g j else id) <$> proc_tab s !! j.
Proof.
  intros Hb HI. revert i s Hb. induction k as [|k IH]; intros i s Hb Hs; cbn [seq mfor].
  - exists (proc_tab s). split; [by rewrite set_proc_tab_id|].
    intros j. rewrite decide_False by lia. by destruct (proc_tab s !! j).
  - erewrite bind_ret; [|apply Hb; [lia|done]].
    destruct (IH (S i) (set_proc_tab (alter (g i) i (proc_tab s)) s)) as (t & Ht & Hl);
      [intros; apply Hb; [lia|done]|by apply HI|].
    exists t. split; [by rewrite Ht, set_proc_tab_tab|].
    intros j. rewrite Hl. cbn [proc_tab set_proc_tab]. rewrite list_lookup_alter.
    repeat case_decide; subst; try lia; try done; by destruct (proc_tab s !! j).
Qed.

Lemma wakeup_eq n ch s :
  cs_ok n (cs s) → procs_free (cur_proc s) (cs s) → length (proc_tab s) = Z.to_nat NPROC →
  wakeup ch s = Ret tt (set_proc_tab (woken ch (cur_proc s) (proc_tab s)) s).
Proof.
  intros Hc Hf Hlen. unfold wakeup, all_procs.
  destruct (mfor_tab_eq (λ p,
     me ← myproc;
     when (bool_decide (Some p ≠ me)) (
       lift_cs (acquire (L_proc p));;
       pr ← get_proc p;
       when (bool_decide (p_state pr = SLEEPING ∧ p_chan pr = ch)) (upd_proc p (set_p_state RUNNABLE));;
       lift_cs (release (L_proc p)))) (wake_at ch (cur_proc s)) (λ s', cs s' = cs s)
     (Z.to_nat NPROC) 0 s) as (t & Ht & Hl); [|done|done|].
  { intros p s' Hp Hcs.
    assert (cur_proc s' = cur_proc s) as Hcur by (unfold cur_proc; by rewrite Hcs).
    rewrite <- Hcur. apply (wakeup_body_eq n); [by rewrite Hcs|by rewrite Hcur, Hcs|lia]. }
  rewrite Ht. do 2 f_equal. apply list_eq. intros j. rewrite Hl. unfold woken.
  rewrite list_lookup_imap. case_decide; [done|].
  rewrite lookup_ge_None_2 by lia. done.
Qed.

Lemma upd_proc_eq p f s :
  (p < length (proc_tab s))%nat →
  upd_proc p f s = Ret tt (set_proc_tab (<[p := f (nth p (proc_tab s) proc0)]> (proc_tab s)) s).
Proof. intros Hp. unfold upd_proc, modify. by rewrite (alter_nth _ _ _ proc0). Qed.

Lemma nth_insert_eq {A} (l : list A) i x d : (i < length l)%nat → nth i (<[i := x]> l) d = x.
Proof. intros Hi. apply nth_lookup_Some. by rewrite list_lookup_insert_eq. Qed.

(** ** kill *)

Definition kill_one (q : proc) : proc :=
  let q := set_p_killed 1 q in
  if decide (p_state q = SLEEPING) then set_p_state RUNNABLE q else q.

(** The result and the table of [kill pid]: the first entry with that pid. *)
Definition kill_tab (pid : Z) (tab : list proc) : Z * list proc :=
  match list_find (λ q, p_pid q = pid) tab with
  | Some (i, _) => (0, alter kill_one i tab)
  | None => (-1, tab)
  end.

Definition kill_body (pid : Z) (p : nat) : K (option Z) :=
  lift_cs (acquire (L_proc p));;
  pr ← get_proc p;
  if p_pid pr =? pid then
    upd_proc p (set_p_killed 1);;
    pr ← get_proc p;
    when (bool_decide (p_state pr = SLEEPING)) (upd_proc p (set_p_state RUNNABLE));;
    lift_cs (release (L_proc p));;
    mret (Some 0)
  else
    lift_cs (release (L_proc p));; mret None.

Lemma kill_body_eq n pid p s :
  cs_ok n (cs s) → lock_free (L_proc p) (cs s) → (p < length (proc_tab s))%nat →
  kill_body pid p s
  = if p_pid (nth p (proc_tab s) proc0) =? pid
    then Ret (Some 0) (set_proc_tab (alter kill_one p (proc_tab s)) s)
    else Ret None s.
Proof.
  intros Hc Hf Hp. unfold kill_body. erewrite bind_ret; [|by eapply k_acquire].
  erewrite bind_ret; [|reflexivity]. cbn [proc_tab set_cs].
  set (q := nth p (proc_tab s) proc0). case_match eqn:E.
  - erewrite bind_ret; [|by apply upd_proc_eq].
    erewrite bind_ret; [|reflexivity]. cbn [proc_tab set_cs set_proc_tab].
    rewrite nth_insert_eq by done. fold q.
    rewrite (alter_nth _ _ _ proc0) by done. fold q. unfold kill_one.
    destruct (decide (p_state (set_p_killed 1 q) = SLEEPING)).
    + rewrite bool_decide_eq_true_2 by done. cbn [when].
      erewrite bind_ret; [|apply upd_proc_eq; cbn; by rewrite length_insert].
      cbn [proc_tab set_cs set_proc_tab]. rewrite nth_insert_eq, list_insert_insert_eq by done.
      erewrite bind_ret; [|by eapply (k_release n (L_proc p) (cs s))].
      by destruct s.
    + rewrite bool_decide_eq_false_2 by done. cbn [when].
      erewrite bind_ret; [|reflexivity].
      erewrite bind_ret; [|by eapply (k_release n (L_proc p) (cs s))].
      by destruct s.
  - erewrite bind_ret; [|by eapply (k_release n (L_proc p) (cs s))].
    by destruct s.
Qed.

Lemma kill_eq n pid s :
  cs_ok n (cs s) → procs_free None (cs s) → length (proc_tab s) = Z.to_nat NPROC →
  kill pid s = let '(r, tab) := kill_tab pid (proc_tab s) in Ret r (set_proc_tab tab s).
Proof.
  intros Hc Hf Hlen. unfold kill, kill_tab, all_procs.
  change (kill pid s) with (mfor_return (seq 0 (Z.to_nat NPROC)) (kill_body pid) (mret (-1)) s).
  cut (∀ k i, (i + k)%nat = length (proc_tab s) →
    mfor_return (seq i k) (kill_body pid) (mret (-1)) s =
    match list_find (λ q, p_pid q = pid) (drop i (proc_tab s)) with
    | Some (j, _) => Ret 0 (set_proc_tab (alter kill_one (i + j)%nat (proc_tab s)) s)
    | None => Ret (-1) s
    end).
  { intros H. specialize (H (Z.to_nat NPROC) 0%nat ltac:(lia)). rewrite drop_0 in H.
    transitivity (mfor_return (seq 0 (Z.to_nat NPROC)) (kill_body pid) (mret (-1)) s); [done|].
    rewrite H. destruct (list_find _ _) as [[j q]|]; [done|]. by rewrite set_proc_tab_id. }
  induction k as [|k IH]; intros i Hi; cbn [seq mfor_return].
  - rewrite drop_ge by lia. done.
  - destruct (lookup_lt_is_Some_2 (proc_tab s) i) as [q Hq]; [lia|].
    rewrite (drop_S _ q i) by done. cbn [list_find].
    assert ((p_pid (nth i (proc_tab s) proc0) =? pid) = bool_decide (p_pid q = pid)) as Hb.
    { rewrite (nth_lookup_Some _ _ proc0 _ Hq). by destruct (Z.eqb_spec (p_pid q) pid);
        [rewrite bool_decide_eq_true_2|rewrite bool_decide_eq_false_2]. }
    pose proof (kill_body_eq n pid i s Hc (Hf i ltac:(lia) ltac:(done)) ltac:(lia)) as Hk.
    rewrite Hb in Hk. destruct (decide (p_pid q = pid)) as [Ep|Ep].
    + rewrite bool_decide_eq_true_2 in Hk by done. erewrite bind_ret; [|exact Hk].
      by rewrite Nat.add_0_r.
    + rewrite bool_decide_eq_false_2 in Hk by done. erewrite bind_ret; [|exact Hk].
      cbn beta iota. rewrite (IH (S i)) by lia.
      destruct (list_find _ _) as [[j q']|]; [|done]. cbn. by rewrite Nat.add_succ_r.
Qed.

Lemma killed_eq n p s :
  cs_ok n (cs s) → lock_free (L_proc p) (cs s) →
  killed p s = Ret (p_killed (nth p (proc_tab s) proc0)) s.
Proof.
  intros Hc Hf. unfold killed. erewrite bind_ret; [|by eapply k_acquire].
  erewrite bind_ret; [|reflexivity].
  erewrite bind_ret; [|by eapply (k_release n (L_proc p) (cs s))].
  by destruct s.
Qed.

(** ** sleep *)

Lemma release_under n l lk c :
  cs_ok n c → n < 2 ^ 31 - 3 → lock_free l c → lock_free lk c → l ≠ lk →
  release lk (taken l (taken lk c)) = Ret tt (taken l c).
Proof.
  intros Hc Hn [name Hl] [name' Hlk] Hne.
  pose proof (taken_ok Hc lk ltac:(lia)) as Hc'.
  assert (holding lk (taken l (taken lk c)) = Ret true (taken l (taken lk c))) as Hh.
  { unfold holding, get_lock, cpuid, mbind, M_bind, mret, M_ret, gets. cbn -[Z.land].
    rewrite (tp_s32 Hc), lookup_insert_ne, !lookup_insert_eq by done. cbn -[Z.land].
    by rewrite bool_decide_eq_true_2. }
  unfold release. rewrite (bind_ret _ _ _ _ _ Hh).
  unfold get_lock, put_lock, mbind, M_bind, mret, M_ret, gets, modify.
  cbn -[Z.land pop_off taken].
  assert (locks (taken l (taken lk c)) !! lk = Some (Mk_spinlock 1 name' (Some (tp c)))) as Hlk'.
  { cbn. rewrite lookup_insert_ne, lookup_insert_eq by done. unfold get_lock. by rewrite Hlk. }
  rewrite !lookup_insert_eq, !insert_insert_eq, !Hlk'. cbn -[Z.land pop_off taken].
  pose proof (pop_off_ok Hc' (locks (taken l c))) as Hp.
  replace (<[lk := _]> (locks (taken l (taken lk c)))) with (locks (taken l c)).
  2:{ apply map_eq. intros x. cbn. destruct (decide (x = lk)) as [->|].
      - by rewrite lookup_insert_ne, lookup_insert_eq by done.
      - rewrite (lookup_insert_ne _ lk) by done. destruct (decide (x = l)) as [->|].
        + rewrite !lookup_insert_eq. do 2 f_equal. unfold get_lock. cbn.
          by rewrite lookup_insert_ne.
        + by rewrite !lookup_insert_ne. }
  exact Hp.
Qed.

(** The state in which [sleep] gives up the CPU: the condition's lock is free, the
    process lock is held (the scheduler releases it), the process is on the channel. *)
Definition asleep (ch : chan) (p : nat) (c : cstate) (s : kstate) : kstate :=
  set_proc_tab (<[p := set_p_state SLEEPING (set_p_chan (Some ch) (nth p (proc_tab s) proc0))]>
    (proc_tab s)) (set_cs (taken (L_proc p) c) s).

(** The state [s2] in which the thread of [p] is resumed: the process lock is held, at
    depth 1, on a hart whose other control state is [c2]. *)
Record resumed (p : nat) (lk : lockid) (ie : Z) (c2 : cstate) (s2 : kstate) : Prop := {
  re_cs : cs s2 = taken (L_proc p) c2;
  re_ok : cs_ok 0 c2;
  re_free : lock_free (L_proc p) c2;
  re_lk : lock_free lk c2;
  re_ie : intena (cur_cpu c2) = ie;
  re_tab : (p < length (proc_tab s2))%nat;
}.

Lemma upd_intena_same n c :
  cs_ok n c → upd_mycpu (set_intena (intena (cur_cpu c))) c = Ret tt c.
Proof.
  intros Hc. unfold upd_mycpu, modify. rewrite (tp_s32 Hc). fold (cur_cpu c).
  replace (set_intena (intena (cur_cpu c)) (cur_cpu c)) with (cur_cpu c) by by destruct (cur_cpu c).
  rewrite (setZ_cur Hc). by destruct c.
Qed.

Lemma intena_taken n l c : cs_ok n c → intena (cur_cpu (taken l c)) = intena (cur_cpu c).
Proof.
  intros Hc. pose proof (pushed_cur Hc) as Hp.
  change (cur_cpu (pushed c)) with (cur_cpu (taken l c)) in Hp. by rewrite Hp.
Qed.

Lemma cur_proc_taken n l c s :
  cs_ok n c → cs s = taken l c → cur_proc s = cpu_proc (cur_cpu c).
Proof.
  intros Hc Hs. unfold cur_proc. rewrite Hs. pose proof (pushed_cur Hc) as Hp.
  change (cur_cpu (pushed c)) with (cur_cpu (taken l c)) in Hp. by rewrite Hp.
Qed.

Lemma sched_eq p n c c2 lk s :
  cs s = taken (L_proc p) c → cs_ok 0 c → cpu_proc (cur_cpu c) = Some p →
  p_state (nth p (proc_tab s) proc0) ≠ RUNNING → sched_left s = S n →
  resumed p lk (intena (cur_cpu c)) c2 (others n s) →
  sched s = Ret tt (set_sched_left n (others n s)).
Proof.
  intros Hs Hc Hp Hst Hn Hr. unfold sched.
  pose proof (taken_ok Hc (L_proc p) ltac:(lia)) as Hc1.
  assert (cs_ok 1 (cs s)) as Hcs by (by rewrite Hs).
  erewrite bind_ret; [|by eapply myproc_eq].
  rewrite (cur_proc_taken 0 (L_proc p) c s Hc Hs), Hp.
  erewrite bind_ret; [|reflexivity].
  erewrite bind_ret.
  2:{ unfold lift_cs. rewrite Hs, (holding_taken Hc), <- Hs, set_cs_id. reflexivity. }
  cbn [negb].
  assert (lift_cs mycpu s = Ret (cur_cpu (cs s)) s) as Hm.
  { unfold lift_cs, mycpu, gets. by rewrite (tp_s32 Hcs), set_cs_id. }
  erewrite bind_ret; [|exact Hm]. rewrite (cs_noff _ _ Hcs). cbn [negb Z.eqb Pos.eqb].
  erewrite bind_ret; [|reflexivity]. rewrite decide_False by done.
  assert (lift_cs intr_get s = Ret 0 s) as Hi.
  { pose proof (cs_inside _ _ Hcs ltac:(lia)) as Hsie. unfold sie_on in Hsie.
    unfold lift_cs, intr_get, r_sstatus, mbind, M_bind, gets, mret, M_ret.
    by rewrite Hsie, set_cs_id. }
  erewrite bind_ret; [|exact Hi]. cbn [c_bool Z.eqb negb].
  erewrite bind_ret; [|exact Hm]. cbv zeta.
  erewrite bind_ret; [|unfold swtch; rewrite Hn; reflexivity].
  rewrite Hs, (intena_taken 0 (L_proc p) c Hc), <- (re_ie _ _ _ _ _ Hr).
  unfold lift_cs. change (cs (set_sched_left n (others n s))) with (cs (others n s)).
  rewrite (re_cs _ _ _ _ _ Hr).
  rewrite <- (intena_taken 0 (L_proc p) c2 (re_ok _ _ _ _ _ Hr)).
  rewrite (upd_intena_same 1); [|apply (taken_ok (re_ok _ _ _ _ _ Hr)); lia].
  rewrite <- (re_cs _ _ _ _ _ Hr).
  change (cs (others n s)) with (cs (set_sched_left n (others n s))). by rewrite set_cs_id.
Qed.

(** The state after [sleep]. *)
Definition awake (p : nat) (lk : lockid) (c2 : cstate) (n : nat) (s2 : kstate) : kstate :=
  set_cs (taken lk c2) (set_proc_tab (<[p := set_p_chan None (nth p (proc_tab s2) proc0)]>
    (proc_tab s2)) (set_sched_left n s2)).

Lemma sleep_eq ch lk p n c c2 s :
  cs s = taken lk c → cs_ok 0 c → cpu_proc (cur_cpu c) = Some p →
  lock_free lk c → lock_free (L_proc p) c → L_proc p ≠ lk →
  (p < length (proc_tab s))%nat → sched_left s = S n →
  resumed p lk (intena (cur_cpu c)) c2 (others n (asleep ch p c s)) →
  sleep ch lk s = Ret tt (awake p lk c2 n (others n (asleep ch p c s))).
Proof.
  intros Hs Hc Hp Hlk Hlp Hne Hlen Hn Hr. unfold sleep.
  pose proof (taken_ok Hc lk ltac:(lia)) as Hc1.
  assert (cs_ok 1 (cs s)) as Hcs by (by rewrite Hs).
  erewrite bind_ret; [|by eapply myproc_eq].
  rewrite (cur_proc_taken 0 lk c s Hc Hs), Hp.
  erewrite bind_ret; [|reflexivity].
  erewrite bind_ret; [|eapply k_acquire; [exact Hcs|rewrite Hs; by apply taken_free]].
  rewrite Hs.
  erewrite bind_ret.
  2:{ unfold lift_cs. cbn [cs set_cs].
      rewrite (release_under 0 (L_proc p) lk c Hc ltac:(lia) Hlp Hlk Hne). reflexivity. }
  rewrite set_cs_cs.
  erewrite bind_ret; [|by apply upd_proc_eq].
  erewrite bind_ret; [|apply upd_proc_eq; cbn; by rewrite length_insert].
  cbn [proc_tab set_cs set_proc_tab].
  rewrite nth_insert_eq, list_insert_insert_eq, set_proc_tab_tab by done.
  fold (asleep ch p c s).
  erewrite bind_ret.
  2:{ eapply (sched_eq p n c c2 lk); try done. cbn [proc_tab asleep set_proc_tab].
      unfold asleep. cbn [proc_tab set_proc_tab]. by rewrite nth_insert_eq. }
  set (s2 := others n (asleep ch p c s)) in *.
  erewrite bind_ret; [|apply upd_proc_eq; apply (re_tab _ _ _ _ _ Hr)].
  change (proc_tab (set_sched_left n s2)) with (proc_tab s2).
  erewrite bind_ret.
  2:{ eapply (k_release 0 (L_proc p) c2);
        [apply (re_ok _ _ _ _ _ Hr)|apply (re_free _ _ _ _ _ Hr)|apply (re_cs _ _ _ _ _ Hr)]. }
  rewrite (k_acquire 0 lk); [|apply (re_ok _ _ _ _ _ Hr)|apply (re_lk _ _ _ _ _ Hr)].
  unfold awake. by destruct s2.
Qed.
End sched.

(** ** A small machine *)

Definition free_locks (l : list lockid) : gmap lockid spinlock :=
  list_to_map ((λ x, (x, Mk_spinlock 0 "" None)) <$> l).

Definition pdemo_locks : list lockid :=
  [L_kmem; L_pid; L_wait; L_ticks; L_pr; L_cons; L_uart_tx; L_vdisk; L_bcache; L_log; L_itable; L_ftable].

(** Process 0 waits for its children, process 1 runs on hart 0, process 2 waits for a tick. *)
Definition pdemo : kstate :=
  let tab := proc_tab (kstate0 0) in
  let tab := <[0%nat := set_p_state SLEEPING (set_p_chan (Some (C_proc 0)) (set_p_pid 1 proc0))]> tab in
  let tab := <[1%nat := set_p_state RUNNING (set_p_parent (Some 0%nat) (set_p_pid 2 proc0))]> tab in
  let tab := <[2%nat := set_p_state SLEEPING (set_p_chan (Some C_ticks)
                (set_p_parent (Some 0%nat) (set_p_pid 3 proc0)))]> tab in
  set_proc_tab tab (set_initproc (Some 0%nat)
    (set_cs (Mk_cstate (free_locks (pdemo_locks ++ (L_proc <$> all_procs)))
      (<[0%nat := Mk_cpu (Some 1%nat) context0 0 1]> (replicate (Z.to_nat NCPU) cpu0)) 0 2)
      (kstate0 0))).

Lemma pdemo_cs : cs_ok 0 (cs pdemo).
Proof. split; try reflexivity; try done; vm_compute; split; congruence. Qed.

Lemma free_locks_lookup l x :
  x ∈ l → free_locks l !! x = Some (Mk_spinlock 0 "" None).
Proof.
  unfold free_locks. induction l as [|y l IH]; intros Hx; [by apply not_elem_of_nil in Hx|].
  cbn. destruct (decide (y = x)) as [->|Hne]; [by rewrite lookup_insert_eq|].
  rewrite lookup_insert_ne by done. apply IH. apply elem_of_cons in Hx as [->|]; done.
Qed.

Lemma pdemo_free me : procs_free me (cs pdemo).
Proof.
  intros p Hp _. exists ""%string. apply free_locks_lookup.
  apply elem_of_app. right. apply list_elem_of_fmap. exists p. split; [done|].
  apply elem_of_seq. lia.
Qed.

Lemma pdemo_lock l : l ∈ pdemo_locks → lock_free l (cs pdemo).
Proof. intros Hl. exists ""%string. apply free_locks_lookup, elem_of_app. by left. Qed.

(** ** Properties *)

(** [wakeup] wakes up exactly the sleepers: it returns, every process other than the
    caller that is SLEEPING on the channel becomes RUNNABLE, every other process is as
    it was, nothing else of the kernel's state changes and every lock it took is free
    again. *)
Theorem wakeup_exact n ch s :
  cs_ok n (cs s) → procs_free (cur_proc s) (cs s) → length (proc_tab s) = Z.to_nat NPROC →
  ∃ tab, wakeup ch s = Ret tt (set_proc_tab tab s) ∧ length tab = Z.to_nat NPROC ∧
    ∀ p q, proc_tab s !! p = Some q →
      tab !! p = Some (if decide (cur_proc s ≠ Some p ∧ p_state q = SLEEPING ∧ p_chan q = ch)
                       then set_p_state RUNNABLE q else q).
Proof.
  intros Hc Hf Hlen. exists (woken ch (cur_proc s) (proc_tab s)). split_and!.
  - by apply (wakeup_eq n).
  - unfold woken. by rewrite length_imap.
  - intros p q Hq. unfold woken. rewrite list_lookup_imap, Hq. simpl. f_equal.
    unfold wake_at, wake. repeat case_decide; naive_solver.
Qed.

Lemma wakeup_exact_witness :
  ∃ tab, wakeup (Some C_ticks) pdemo = Ret tt (set_proc_tab tab pdemo) ∧
    p_state <$> tab !! 2%nat = Some RUNNABLE ∧ p_state <$> tab !! 0%nat = Some SLEEPING.
Proof.
  destruct (wakeup_exact 0 (Some C_ticks) pdemo pdemo_cs (pdemo_free _)
    ltac:(vm_compute; reflexivity)) as (tab & E & _ & H).
  exists tab. split; [exact E|]. split.
  - erewrite H; [|vm_compute; reflexivity]. vm_compute. reflexivity.
  - erewrite H; [|vm_compute; reflexivity]. vm_compute. reflexivity.
Defined.

(** [kill pid] always returns. If some entry of the table has that pid, the first
    such one gets its [killed] flag set and is made RUNNABLE if it slept, and the
    result is 0; otherwise the result is -1 and nothing changes. No other entry
    changes. *)
Theorem kill_correct n pid s :
  cs_ok n (cs s) → procs_free None (cs s) → length (proc_tab s) = Z.to_nat NPROC →
  (∃ i q, proc_tab s !! i = Some q ∧ p_pid q = pid ∧
     (∀ j q', (j < i)%nat → proc_tab s !! j = Some q' → p_pid q' ≠ pid) ∧
     kill pid s = Ret 0 (set_proc_tab (<[i := kill_one q]> (proc_tab s)) s)) ∨
  ((∀ j q', proc_tab s !! j = Some q' → p_pid q' ≠ pid) ∧ kill pid s = Ret (-1) s).
Proof.
  intros Hc Hf Hlen. rewrite (kill_eq n) by done. unfold kill_tab.
  destruct (list_find _ _) as [[i q]|] eqn:E.
  - left. apply list_find_Some in E as (Hi & Hp & Hmin). exists i, q. split_and!; [done|done| |].
    + intros j q' Hj Hq'. by apply (Hmin j q').
    + do 2 f_equal. pose proof (lookup_lt_Some _ _ _ Hi).
      rewrite (alter_nth _ _ _ proc0) by done. by rewrite (nth_lookup_Some _ _ proc0 _ Hi).
  - right. apply list_find_None in E. split; [|by rewrite set_proc_tab_id].
    intros j q' Hq'. rewrite Forall_forall in E. apply E, list_elem_of_lookup. eauto.
Qed.

Lemma kill_correct_witness :
  ∃ q, proc_tab pdemo !! 2%nat = Some q ∧ p_state (kill_one q) = RUNNABLE ∧
    (kill 3 pdemo = Ret 0 (set_proc_tab (<[2%nat := kill_one q]> (proc_tab pdemo)) pdemo) ∨
     kill 3 pdemo = Ret (-1) pdemo).
Proof.
  destruct (kill_correct 0 3 pdemo pdemo_cs (pdemo_free _) ltac:(vm_compute; reflexivity))
    as [(i & q & Hi & Hp & Hmin & E)|[_ E]].
  - exists (nth 2 (proc_tab pdemo) proc0). split; [vm_compute; reflexivity|].
    split; [vm_compute; reflexivity|]. left.
    assert (i = 2%nat) as ->.
    { assert (i ≤ 2)%nat.
      { destruct (decide (i ≤ 2)%nat); [done|]. exfalso.
        eapply (Hmin 2%nat); [lia|vm_compute; reflexivity|vm_compute; reflexivity]. }
      assert (p_pid <$> proc_tab pdemo !! i = Some 3) as Hq by (rewrite Hi; simpl; congruence).
      clear - H Hq. destruct i as [|[|[|]]]; [vm_compute in Hq; congruence..|done|lia]. }
    rewrite E, (nth_lookup_Some _ _ proc0 _ Hi). reflexivity.
  - exists (nth 2 (proc_tab pdemo) proc0). split; [vm_compute; reflexivity|].
    split; [vm_compute; reflexivity|]. right. exact E.
Defined.
