(* ===== verification/Wakeup.v ===== *)
(** * No lost wakeups: sleep and wakeup of kernel/proc.c, interleaved

    A process waits for a condition with [while(!cond) sleep(chan, lk)] under the lock
    [lk]; other threads set the condition under [lk] and call [wakeup(chan)]. Each step
    is one acquisition, release or access to the shared state, in the order in which
    [sleep], [sched], [scheduler] and [wakeup] do them; the spinlocks are the mutual
    exclusion locks that Spinlock shows them to be. *)

From S2P Require Import Prelude Machine State.

(** Who holds a lock. *)
Inductive who := Sleeper | Waker (w : Z).
Global Instance who_eq_dec : EqDecision who.
Proof. solve_decision. Defined.

(** Where the sleeping process is. *)
Inductive spc :=
  | S_acquire    (** about to acquire [lk] *)
  | S_test       (** holds [lk], about to test the condition *)
  | S_lock_p     (** in sleep: about to acquire [p->lock] *)
  | S_unlock_lk  (** in sleep: about to release [lk] *)
  | S_go         (** in sleep: about to set [chan] and [state] *)
  | S_sched      (** in sched: about to switch to the scheduler, which releases [p->lock] *)
  | S_off        (** switched out *)
  | S_on         (** switched in with [p->lock], which it is about to release *)
  | S_unlock.    (** has consumed the condition, about to release [lk] *)

(** Where a waking thread is. *)
Inductive wpc :=
  | W_out
  | W_set        (** holds [lk], about to set the condition *)
  | W_lock_p     (** in wakeup: about to acquire [p->lock] *)
  | W_check      (** in wakeup: about to test and set [p->state] *)
  | W_unlock_p   (** in wakeup: about to release [p->lock] *)
  | W_unlock.    (** about to release [lk] *)

Record wstate := Mk_wstate {
  w_lk : option who;          (** holder of [lk] *)
  w_pl : option who;          (** holder of [p->lock] *)
  w_cond : bool;
  w_state : procstate;        (** [p->state] *)
  w_chan : bool;              (** [p->chan == chan] *)
  w_spc : spc;
  w_wpc : Z → wpc
}.

Definition w_goto (f : Z → wpc) (w : Z) (pc : wpc) : Z → wpc := λ w', if decide (w' = w) then pc else f w'.

Inductive wstep : wstate → wstate → Prop :=
  (* the waiting process *)
  | st_acquire pl c st ch f :
      wstep (Mk_wstate None pl c st ch S_acquire f) (Mk_wstate (Some Sleeper) pl c st ch S_test f)
  | st_test_ok lk pl st ch f :
      wstep (Mk_wstate lk pl true st ch S_test f) (Mk_wstate lk pl false st ch S_unlock f)
  | st_test_sleep lk pl st ch f :
      wstep (Mk_wstate lk pl false st ch S_test f) (Mk_wstate lk pl false st ch S_lock_p f)
  | st_lock_p lk c st ch f :
      wstep (Mk_wstate lk None c st ch S_lock_p f) (Mk_wstate lk (Some Sleeper) c st ch S_unlock_lk f)
  | st_unlock_lk lk pl c st ch f :
      wstep (Mk_wstate lk pl c st ch S_unlock_lk f) (Mk_wstate None pl c st ch S_go f)
  | st_go lk pl c st ch f :
      wstep (Mk_wstate lk pl c st ch S_go f) (Mk_wstate lk pl c SLEEPING true S_sched f)
  | st_sched lk pl c st ch f :
      wstep (Mk_wstate lk pl c st ch S_sched f) (Mk_wstate lk None c st ch S_off f)
  | st_run lk c ch f :
      wstep (Mk_wstate lk None c RUNNABLE ch S_off f) (Mk_wstate lk (Some Sleeper) c RUNNING ch S_on f)
  | st_on lk pl c st ch f :
      wstep (Mk_wstate lk pl c st ch S_on f) (Mk_wstate lk None c st false S_acquire f)
  | st_unlock lk pl c st ch f :
      wstep (Mk_wstate lk pl c st ch S_unlock f) (Mk_wstate None pl c st ch S_acquire f)
  (* a waking thread *)
  | wk_acquire w pl c st ch s f :
      f w = W_out →
      wstep (Mk_wstate None pl c st ch s f) (Mk_wstate (Some (Waker w)) pl c st ch s (w_goto f w W_set))
  | wk_set w lk pl c st ch s f :
      f w = W_set →
      wstep (Mk_wstate lk pl c st ch s f) (Mk_wstate lk pl true st ch s (w_goto f w W_lock_p))
  | wk_lock_p w lk c st ch s f :
      f w = W_lock_p →
      wstep (Mk_wstate lk None c st ch s f) (Mk_wstate lk (Some (Waker w)) c st ch s (w_goto f w W_check))
  | wk_check w lk pl c st ch s f :
      f w = W_check →
      wstep (Mk_wstate lk pl c st ch s f)
        (Mk_wstate lk pl c (if bool_decide (st = SLEEPING) && ch then RUNNABLE else st) ch s
           (w_goto f w W_unlock_p))
  | wk_unlock_p w lk pl c st ch s f :
      f w = W_unlock_p →
      wstep (Mk_wstate lk pl c st ch s f) (Mk_wstate lk None c st ch s (w_goto f w W_unlock))
  | wk_unlock w lk pl c st ch s f :
      f w = W_unlock →
      wstep (Mk_wstate lk pl c st ch s f) (Mk_wstate None pl c st ch s (w_goto f w W_out)).

Definition winit : wstate := Mk_wstate None None false RUNNING false S_acquire (λ _, W_out).

(** ** The invariant *)

Definition s_holds_lk (s : spc) : bool :=
  match s with S_test | S_lock_p | S_unlock_lk | S_unlock => true | _ => false end.
Definition s_holds_pl (s : spc) : bool :=
  match s with S_unlock_lk | S_go | S_sched | S_on => true | _ => false end.
Definition w_holds_lk (w : wpc) : bool :=
  match w with W_out => false | _ => true end.
Definition w_holds_pl (w : wpc) : bool :=
  match w with W_check | W_unlock_p => true | _ => false end.

(** A waker that has set the condition and has not yet looked at the process. *)
Definition w_coming (w : wpc) : bool :=
  match w with W_lock_p | W_check => true | _ => false end.

Definition some_coming (f : Z → wpc) : Prop := ∃ w, w_coming (f w) = true.

Record winv (x : wstate) : Prop := {
  wi_s_lk : w_lk x = Some Sleeper ↔ s_holds_lk (w_spc x) = true;
  wi_w_lk w : w_lk x = Some (Waker w) ↔ w_holds_lk (w_wpc x w) = true;
  wi_s_pl : w_pl x = Some Sleeper ↔ s_holds_pl (w_spc x) = true;
  wi_w_pl w : w_pl x = Some (Waker w) ↔ w_holds_pl (w_wpc x w) = true;
  wi_state : match w_spc x with
    | S_sched => w_state x = SLEEPING ∧ w_chan x = true
    | S_off => (w_state x = SLEEPING ∧ w_chan x = true) ∨ w_state x = RUNNABLE
    | _ => w_state x = RUNNING
    end;
  wi_cond : match w_spc x with
    | S_lock_p | S_unlock_lk => w_cond x = false
    | S_go | S_sched => w_cond x = true → some_coming (w_wpc x)
    | S_off => w_state x = SLEEPING → w_cond x = true → some_coming (w_wpc x)
    | _ => True
    end
}.

Lemma w_goto_eq f w pc : w_goto f w pc w = pc.
Proof. unfold w_goto. by rewrite decide_True. Qed.
Lemma w_goto_ne f w pc w' : w' ≠ w → w_goto f w pc w' = f w'.
Proof. intros. unfold w_goto. by rewrite decide_False. Qed.

Ltac split_waker w0 :=
  match goal with
  | |- context [w_goto ?f ?w ?pc w0] =>
      destruct (decide (w0 = w)) as [->|?]; [rewrite ?w_goto_eq|rewrite ?w_goto_ne by done]
  end.

(** Steps of the process itself: the wakers do not move. *)
Lemma winv_init : winv winit.
Proof. split; naive_solver. Qed.

Lemma coming_goto f w pc :
  (w_coming (f w) = true → w_coming pc = true) → some_coming f → some_coming (w_goto f w pc).
Proof.
  intros Hpc [w' Hw']. exists w'. split_waker w'; [|done]. auto.
Qed.
Lemma coming_here f w pc : w_coming pc = true → some_coming (w_goto f w pc).
Proof. intros H. exists w. by rewrite w_goto_eq. Qed.

Lemma iff_false (P : Prop) (b : bool) : (P ↔ b = true) → ¬ P → b = false.
Proof. destruct b; naive_solver. Qed.

Lemma winv_step x y : winv x → wstep x y → winv y.
Proof.
  intros [H1 H2 H3 H4 H5 H6] Hstep. destruct Hstep; cbn in *.
  1-10: split; cbn; first [done | intros w0; rewrite <- H2; clear -H1; naive_solver
    | intros w0; rewrite <- H4; clear - H3; naive_solver | clear -H5 H6; naive_solver].
  - pose proof (iff_false _ _ H1 ltac:(done)) as Hs.
    split; cbn; [by rewrite Hs| | done | | done |].
    + intros w0. split_waker w0; [done|]. rewrite <- H2. split; [congruence|done].
    + intros w0. split_waker w0; [|done]. by rewrite H4, H.
    + assert (some_coming f → some_coming (w_goto f w W_set)) as Hg
        by (apply coming_goto; by rewrite H).
      destruct s; cbn in *; try done; auto.
  - pose proof (proj2 (H2 w) ltac:(by rewrite H)) as ->.
    pose proof (iff_false _ _ H1 ltac:(done)) as Hs.
    split; cbn; [done| |done| |done|].
    + intros w0. split_waker w0; [done|]. done.
    + intros w0. split_waker w0; [|done]. by rewrite H4, H.
    + pose proof (coming_here f w W_lock_p eq_refl). destruct s; cbn in *; try done; auto.
  - pose proof (iff_false _ _ H3 ltac:(done)) as Hs.
    split; cbn; [done| |by rewrite Hs| |done|].
    + intros w0. split_waker w0; [|done]. by rewrite H2, H.
    + intros w0. split_waker w0; [done|]. rewrite <- H4. split; [congruence|done].
    + assert (some_coming f → some_coming (w_goto f w W_check)) as Hg by (by apply coming_goto).
      destruct s; cbn in *; try done; auto.
  - pose proof (proj2 (H4 w) ltac:(by rewrite H)) as ->.
    pose proof (iff_false _ _ H3 ltac:(done)) as Hs.
    split; cbn; [done| |done| | |].
    + intros w0. split_waker w0; [|done]. by rewrite H2, H.
    + intros w0. split_waker w0; [done|]. done.
    + destruct s; cbn in *; try done; try (subst st; done). destruct H5 as [[-> ->]| ->]; auto.
    + destruct s; cbn in *; try done. destruct H5 as [[-> ->]| ->]; done.
  - pose proof (proj2 (H4 w) ltac:(by rewrite H)) as ->.
    pose proof (iff_false _ _ H3 ltac:(done)) as Hs.
    split; cbn; [done| |by rewrite Hs| |done|].
    + intros w0. split_waker w0; [|done]. by rewrite H2, H.
    + intros w0. split_waker w0; [done|]. rewrite <- H4. split; [done|congruence].
    + assert (some_coming f → some_coming (w_goto f w W_unlock)) as Hg
        by (apply coming_goto; by rewrite H).
      destruct s; cbn in *; try done; auto.
  - pose proof (proj2 (H2 w) ltac:(by rewrite H)) as ->.
    pose proof (iff_false _ _ H1 ltac:(done)) as Hs.
    split; cbn; [by rewrite Hs| |done| |done|].
    + intros w0. split_waker w0; [done|]. rewrite <- H2. split; [done|congruence].
    + intros w0. split_waker w0; [|done]. by rewrite H4, H.
    + assert (some_coming f → some_coming (w_goto f w W_out)) as Hg
        by (apply coming_goto; by rewrite H).
      destruct s; cbn in *; try done; auto.
Qed.

Lemma winv_reachable x : rtc wstep winit x → winv x.
Proof.
  intros H. remember winit as x0 eqn:E. assert (winv x0) as H0 by (subst; apply winv_init).
  clear E. induction H; eauto using winv_step.
Qed.

(** A waker on its way finds [p->lock] free, or holds it. *)
Lemma coming_wakes x w :
  winv x → w_spc x = S_off → w_state x = SLEEPING → w_coming (w_wpc x w) = true →
  ∃ y, rtc wstep x y ∧ w_spc y = S_off ∧ w_state y = RUNNABLE.
Proof.
  intros Hi Hs Hst Hw. pose proof (wi_state _ Hi) as Hch. rewrite Hs in Hch.
  destruct Hch as [[_ Hch]|Hr]; [|congruence].
  assert (∀ pl f, f w = W_check → let x' := Mk_wstate (w_lk x) pl (w_cond x) (w_state x) (w_chan x) (w_spc x) f in
    ∃ y, wstep x' y ∧ w_spc y = S_off ∧ w_state y = RUNNABLE) as Hcheck.
  { intros pl f Hf. eexists. split; [by apply (wk_check w)|]. cbn. by rewrite Hst, Hch. }
  destruct (w_wpc x w) eqn:E; try done.
  - assert (w_pl x = None) as Hpl.
    { destruct (w_pl x) as [[|w']|] eqn:Hpl; [| |done].
      - apply (wi_s_pl _ Hi) in Hpl. by rewrite Hs in Hpl.
      - pose proof Hpl as Hh. apply (wi_w_pl _ Hi) in Hh.
        assert (w_lk x = Some (Waker w')) as H' by (apply (wi_w_lk _ Hi); by destruct (w_wpc x w')).
        assert (w_lk x = Some (Waker w)) as H by (apply (wi_w_lk _ Hi); by rewrite E).
        rewrite H in H'. injection H' as <-. by rewrite E in Hh. }
    destruct (Hcheck (Some (Waker w)) (w_goto (w_wpc x) w W_check)) as (y & Hy & ? & ?);
      [apply w_goto_eq|].
    exists y. split; [|done]. eapply rtc_l; [|by apply rtc_once].
    destruct x; cbn in *; subst. by apply (wk_lock_p w).
  - destruct (Hcheck (w_pl x) (w_wpc x) E) as (y & Hy & ? & ?).
    exists y. split; [|done]. apply rtc_once. by destruct x.
Qed.

(** ** Property *)

(** C18. No wakeup is lost: whenever the waiting process has been switched out and still
    sleeps although the condition holds, some thread that set the condition is inside
    [wakeup], has not yet looked at the process, and its next steps make the process
    RUNNABLE. In particular, once no thread is inside [wakeup], a process that sleeps
    does so with the condition false. *)
Theorem no_lost_wakeup x :
  rtc wstep winit x → w_spc x = S_off → w_state x = SLEEPING → w_cond x = true →
  (∃ w, w_coming (w_wpc x w) = true) ∧
  (∃ y, rtc wstep x y ∧ w_spc y = S_off ∧ w_state y = RUNNABLE).
Proof.
  intros Hr Hs Hst Hc. pose proof (winv_reachable _ Hr) as Hi.
  pose proof (wi_cond _ Hi) as Hw. rewrite Hs in Hw. destruct (Hw Hst Hc) as [w Hcom].
  split; [by exists w|]. by apply (coming_wakes x w).
Qed.

(** The process tests the condition and sleeps; thread 7 then sets the condition. *)
Definition wdemo : wstate :=
  Mk_wstate (Some (Waker 7)) None true SLEEPING true S_off
    (w_goto (w_goto (λ _, W_out) 7 W_set) 7 W_lock_p).

Lemma no_lost_wakeup_witness :
  rtc wstep winit wdemo ∧ (∃ y, rtc wstep wdemo y ∧ w_spc y = S_off ∧ w_state y = RUNNABLE).
Proof.
  assert (rtc wstep winit wdemo) as R.
  { eapply rtc_l; [apply st_acquire|]. eapply rtc_l; [apply st_test_sleep|].
    eapply rtc_l; [apply st_lock_p|]. eapply rtc_l; [apply st_unlock_lk|].
    eapply rtc_l; [apply st_go|]. eapply rtc_l; [apply st_sched|].
    eapply rtc_l; [apply (wk_acquire 7); reflexivity|].
    eapply rtc_l; [apply (wk_set 7); reflexivity|]. apply rtc_refl. }
  split; [exact R|]. exact (proj2 (no_lost_wakeup wdemo R eq_refl eq_refl eq_refl)).
Defined.
