(* ===== verification/Uart.v ===== *)
(** * The UART driver: kernel/uart.c without its interrupt handler

    [uartintr] is in Console, with [consoleintr] that it calls. The device: [tx_out]
    are the bytes that went into THR, [rx_in] those waiting in RHR, [tx_busy] the
    answers the device will give when LSR is asked whether THR is free. *)

From S2P Require Import Prelude Machine State Spinlock KString Kalloc Vm Proc.

Definition IER : Z := 1.
Definition IER_RX_ENABLE : Z := 1.
Definition IER_TX_ENABLE : Z := 2.
Definition FCR : Z := 2.
Definition FCR_FIFO_ENABLE : Z := 1.
Definition FCR_FIFO_CLEAR : Z := 6.
Definition LCR : Z := 3.
Definition LCR_EIGHT_BITS : Z := 3.
Definition LCR_BAUD_LATCH : Z := 128.
Definition UART_TX_BUF_SIZE : Z := 32.

(** ** The registers *)

Definition upd_uart (f : uart_state → uart_state) : K unit := modify (λ s, set_uart (f (uart s)) s).

(** [WriteReg] of a control register. *)
Definition WriteReg (reg v : Z) : K unit := upd_uart (λ u, set_u_regs (<[reg := u8 v]> (u_regs u)) u).
(** [WriteReg(THR, c)] *)
Definition write_thr (c : Z) : K unit := upd_uart (λ u, set_tx_out (tx_out u ++ [u8 c]) u).
(** [ReadReg(LSR) & LSR_TX_IDLE] *)
Definition lsr_tx_idle : K bool := λ s,
  match tx_busy (uart s) with
  | [] => Ret true s
  | b :: l => Ret (negb b) (set_uart (set_tx_busy l (uart s)) s)
  end.

Section uart.
Context `{L : Layout} `{Oth : Others}.

Definition uartinit : K unit :=
  WriteReg IER 0x00;;
  WriteReg LCR LCR_BAUD_LATCH;;
  WriteReg 0 0x03;;
  WriteReg 1 0x00;;
  WriteReg LCR LCR_EIGHT_BITS;;
  WriteReg FCR (Z.lor FCR_FIFO_ENABLE FCR_FIFO_CLEAR);;
  WriteReg IER (Z.lor IER_TX_ENABLE IER_RX_ENABLE);;
  lift_cs (initlock L_uart_tx "uart").

Fixpoint uartstart_loop (fuel : nat) : K unit :=
  match fuel with
  | O => hang
  | S f =>
      u ← gets uart;
      if tx_w u =? tx_r u then mret tt
      else
        idle ← lsr_tx_idle;
        if negb idle then mret tt
        else
          let c := nthZ 0 (tx_buf u) (tx_r u mod UART_TX_BUF_SIZE) in
          upd_uart (λ u, set_tx_r (u64 (tx_r u + 1)) u);;
          wakeup (Some C_uart_tx_r);;
          write_thr c;;
          uartstart_loop f
  end.
(** Each round sends one of the bytes between [uart_tx_r] and [uart_tx_w]. *)
Definition uartstart : K unit :=
  u ← gets uart;
  uartstart_loop (S (Z.to_nat (u64 (tx_w u - tx_r u)))).

(** The wait for space in [uartputc]. *)
Fixpoint uartputc_wait (fuel : nat) : K unit :=
  match fuel with
  | O => hang
  | S f =>
      u ← gets uart;
      if tx_w u =? u64 (tx_r u + UART_TX_BUF_SIZE) then
        sleep C_uart_tx_r L_uart_tx;;
        uartputc_wait f
      else mret tt
  end.

Definition uartputc (c : Z) : K unit :=
  lift_cs (acquire L_uart_tx);;
  pk ← gets panicked;
  if c_bool pk then hang
  else
    n ← gets sched_left;
    uartputc_wait (S n);;
    upd_uart (λ u, set_tx_buf (setZ (tx_buf u) (tx_w u mod UART_TX_BUF_SIZE) (u8 c)) u);;
    upd_uart (λ u, set_tx_w (u64 (tx_w u + 1)) u);;
    uartstart;;
    lift_cs (release L_uart_tx).

(** The spin on LSR in [uartputc_sync]. *)
Fixpoint uartputc_spin (fuel : nat) : K unit :=
  match fuel with
  | O => hang
  | S f => idle ← lsr_tx_idle; if (idle : bool) then mret tt else uartputc_spin f
  end.

Definition uartputc_sync (c : Z) : K unit :=
  lift_cs push_off;;
  pk ← gets panicked;
  if c_bool pk then hang
  else
    n ← gets (λ s, length (tx_busy (uart s)));
    uartputc_spin (S n);;
    write_thr c;;
    lift_cs pop_off.

Definition uartgetc : K Z := λ s,
  match rx_in (uart s) with
  | [] => Ret (-1) s
  | c :: l => Ret (u8 c) (set_uart (set_rx_in l (uart s)) s)
  end.
End uart.
