(* ===== verification/Printf.v ===== *)
(** * Formatted output: kernel/printf.c, and [consputc] of kernel/console.c

    The variable arguments are a list of [arg]s. A store outside [char buf[16]] of
    [printint] is undefined behaviour in C: the outcome is then a [Panic] whose text
    says so. *)

From S2P Require Import Prelude Machine State Spinlock KString Kalloc Vm Proc Uart.

Definition BACKSPACE : Z := 0x100.

(** What a caller passes after the format. *)
Inductive arg := AInt (z : Z) | AStr (s : option (list Z)).

Definition va_int (ap : list arg) : Z * list arg :=
  match ap with
  | AInt z :: ap' => (s32 z, ap')
  | _ :: ap' => (0, ap')
  | [] => (0, [])
  end.
Definition va_u64 (ap : list arg) : Z * list arg :=
  match ap with
  | AInt z :: ap' => (u64 z, ap')
  | _ :: ap' => (0, ap')
  | [] => (0, [])
  end.
Definition va_str (ap : list arg) : option (list Z) * list arg :=
  match ap with
  | AStr s :: ap' => (s, ap')
  | _ :: ap' => (None, ap')
  | [] => (None, [])
  end.

Definition digits : list Z := bytes_of_string "0123456789abcdef".

Section printf.
Context `{L : Layout} `{Oth : Others}.

Definition consputc (c : Z) : K unit :=
  if c =? BACKSPACE then
    uartputc_sync 8;; uartputc_sync 32;; uartputc_sync 8
  else uartputc_sync c.

Definition PRINTINT_BUF : nat := 16.

(** The do-while loop: the bytes stored, lowest digit first. [x] is below 2^64 and
    [base] at least 10, so 20 rounds are enough. *)
Fixpoint printint_digits (fuel : nat) (x base : Z) : list Z :=
  match fuel with
  | O => []
  | S f =>
      nthZ 0 digits (x mod base) ::
      (if x / base =? 0 then [] else printint_digits f (x / base) base)
  end.

(** The contents of [buf] when the second loop starts. *)
Definition printint_buf (xx base : Z) (sign : bool) : list Z :=
  let neg := sign && (xx <? 0) in
  let x := if neg then u64 (- xx) else u64 xx in
  printint_digits 64 x base ++ (if neg then [chr "-"] else []).

Definition printint (xx base : Z) (sign : bool) : K unit :=
  let buf := printint_buf (s64 xx) base sign in
  if (PRINTINT_BUF <? length buf)%nat then panic "printint: write past buf[16]"
  else mfor (rev buf) consputc.

Fixpoint printptr_loop (n : nat) (x : Z) : K unit :=
  match n with
  | O => mret tt
  | S n' => consputc (nthZ 0 digits (Z.shiftr x 60));; printptr_loop n' (u64 (Z.shiftl x 4))
  end.
Definition printptr (x : Z) : K unit :=
  consputc (chr "0");; consputc (chr "x");; printptr_loop 16 (u64 x).

(** The bytes of a string up to its NUL. *)
Fixpoint until_nul (s : list Z) : list Z :=
  match s with
  | [] => []
  | c :: s' => if c =? 0 then [] else c :: until_nul s'
  end.

(** The loop of [printf] from index [i]. *)
Fixpoint printf_loop (fuel : nat) (fmt : cstr) (i : Z) (ap : list arg) : K unit :=
  match fuel with
  | O => hang
  | S f =>
      let cx := fmt i in
      if cx =? 0 then mret tt
      else if negb (cx =? chr "%") then consputc cx;; printf_loop f fmt (i + 1) ap
      else
        let i := i + 1 in
        let c0 := fmt i in
        let c1 := if c0 =? 0 then 0 else fmt (i + 1) in
        let c2 := if c1 =? 0 then 0 else fmt (i + 2) in
        let is_ c k := c =? chr k in
        if is_ c0 "d"%char then
          let '(z, ap) := va_int ap in printint z 10 true;; printf_loop f fmt (i + 1) ap
        else if is_ c0 "l"%char && is_ c1 "d"%char then
          let '(z, ap) := va_u64 ap in printint z 10 true;; printf_loop f fmt (i + 2) ap
        else if is_ c0 "l"%char && is_ c1 "l"%char && is_ c2 "d"%char then
          let '(z, ap) := va_u64 ap in printint z 10 true;; printf_loop f fmt (i + 3) ap
        else if is_ c0 "u"%char then
          let '(z, ap) := va_int ap in printint z 10 false;; printf_loop f fmt (i + 1) ap
        else if is_ c0 "l"%char && is_ c1 "u"%char then
          let '(z, ap) := va_u64 ap in printint z 10 false;; printf_loop f fmt (i + 2) ap
        else if is_ c0 "l"%char && is_ c1 "l"%char && is_ c2 "u"%char then
          let '(z, ap) := va_u64 ap in printint z 10 false;; printf_loop f fmt (i + 3) ap
        else if is_ c0 "x"%char then
          let '(z, ap) := va_int ap in printint z 16 false;; printf_loop f fmt (i + 1) ap
        else if is_ c0 "l"%char && is_ c1 "x"%char then
          let '(z, ap) := va_u64 ap in printint z 16 false;; printf_loop f fmt (i + 2) ap
        else if is_ c0 "l"%char && is_ c1 "l"%char && is_ c2 "x"%char then
          let '(z, ap) := va_u64 ap in printint z 16 false;; printf_loop f fmt (i + 3) ap
        else if is_ c0 "p"%char then
          let '(z, ap) := va_u64 ap in printptr z;; printf_loop f fmt (i + 1) ap
        else if is_ c0 "s"%char then
          let '(str, ap) := va_str ap in
          mfor (until_nul (default (bytes_of_string "(null)") str)) consputc;;
          printf_loop f fmt (i + 1) ap
        else if is_ c0 "%"%char then consputc (chr "%");; printf_loop f fmt (i + 1) ap
        else if c0 =? 0 then mret tt
        else consputc (chr "%");; consputc c0;; printf_loop f fmt (i + 1) ap
  end.

(** [fmt] is the format without its NUL. *)
Definition printf (fmt : list Z) (ap : list arg) : K Z :=
  locking ← gets pr_locking;
  when (c_bool locking) (lift_cs (acquire L_pr));;
  printf_loop (S (length fmt)) (at_list fmt) 0 ap;;
  when (c_bool locking) (lift_cs (release L_pr));;
  mret 0.

(** [panic] itself. The other definitions write [panic s] for the outcome [Panic s];
    this is what the machine does then, before it stops for good. *)
Definition panic_prints (msg : list Z) : K unit :=
  modify (set_pr_locking 0);;
  printf (bytes_of_string "panic: ") [];;
  printf (bytes_of_string "%s" ++ [10]) [AStr (Some msg)];;
  modify (set_panicked 1);;
  hang.

Definition printfinit : K unit :=
  lift_cs (initlock L_pr "pr");;
  modify (set_pr_locking 1).
End printf.
