(* ===== verification/PrintfProofs.v ===== *)
(** * Printing numbers: proofs about kernel/printf.c and [uartputc_sync] of kernel/uart.c *)

From S2P Require Import Prelude Machine State Spinlock KString Kalloc Vm Proc Sched Uart Printf.

(** [s'] is [s] after the UART has been given the bytes [bs]; reading its status
    register may have used up answers of the device. *)
Definition printed (bs : list Z) (s s' : kstate) : Prop :=
  ∃ busy, s' = set_uart (set_tx_busy busy (set_tx_out (tx_out (uart s) ++ bs) (uart s))) s.

(** What [consputc] sends. *)
Definition cons_bytes (c : Z) : list Z := if c =? BACKSPACE then [8; 32; 8] else [u8 c].

(** ** Reading numerals *)

(** The value of a digit, by its place in "0123456789abcdef". *)
Definition digit_val (c : Z) : Z :=
  match list_find (λ d, d = c) digits with
  | Some (i, _) => Z.of_nat i
  | None => -1
  end.

(** The number a numeral denotes. *)
Definition numeral_val (base : Z) (l : list Z) : Z := foldl (λ acc c, acc * base + digit_val c) 0 l.

(** A numeral as people write them: digits of the base, no leading zero. *)
Definition numeral_ok (base : Z) (l : list Z) : Prop :=
  l ≠ [] ∧ Forall (λ c, 0 ≤ digit_val c < base) l ∧ (1 < length l → head l ≠ Some (chr "0"))%nat.

Lemma digit_val_digits d : 0 ≤ d < 16 → digit_val (nthZ 0 digits d) = d.
Proof.
  intros Hd. assert (Forall (λ d, digit_val (nthZ 0 digits d) = d) (zrange 0 16)) as H
    by (vm_compute; repeat constructor).
  rewrite Forall_forall in H. apply H, elem_of_zrange. lia.
Qed.

Lemma numeral_val_snoc base l c : numeral_val base (l ++ [c]) = numeral_val base l * base + digit_val c.
Proof. unfold numeral_val. by rewrite foldl_app. Qed.

Section digits.
Context (base : Z) (Hb : 2 ≤ base ≤ 16).

Lemma printint_digits_S f x :
  printint_digits (S f) x base =
  nthZ 0 digits (x mod base) :: (if x / base =? 0 then [] else printint_digits f (x / base) base).
Proof. done. Qed.

Lemma printint_digits_spec f x :
  0 ≤ x < base ^ Z.of_nat f → f ≠ O →
  let l := printint_digits f x base in
  numeral_val base (rev l) = x ∧ Forall (λ c, 0 ≤ digit_val c < base) l ∧
  (1 ≤ length l)%nat ∧ x < base ^ Z.of_nat (length l) ∧
  ((1 < length l)%nat → base ^ Z.of_nat (length l - 1) ≤ x ∧ last l ≠ Some (chr "0")) ∧
  (last l = Some (chr "0") → x = 0).
Proof.
  revert x. induction f as [|f IH]; intros x Hx Hf; [done|].
  cbv zeta. rewrite printint_digits_S.
  pose proof (Z.mod_pos_bound x base ltac:(lia)) as Hm.
  pose proof (Z.div_mod x base ltac:(lia)) as Hdm.
  pose proof (digit_val_digits (x mod base) ltac:(lia)) as Hd.
  destruct (Z.eqb_spec (x / base) 0) as [H0|H0].
  - cbn [rev app length last]. rewrite H0 in Hdm. split_and!.
    + unfold numeral_val. cbn [foldl]. rewrite Hd. lia.
    + constructor; [rewrite Hd; lia|constructor].
    + lia.
    + change (Z.of_nat 1) with 1. rewrite Z.pow_1_r. lia.
    + lia.
    + intros [= E]. rewrite E in Hd. change (digit_val (chr "0")) with 0 in Hd. lia.
  - assert (0 < x / base) as Hpos. { pose proof (Z.div_pos x base ltac:(lia) ltac:(lia)). lia. }
    rewrite Nat2Z.inj_succ, Z.pow_succ_r in Hx by lia.
    assert (x / base < base ^ Z.of_nat f) as Hlt by (apply Z.div_lt_upper_bound; lia).
    assert (f ≠ O) as Hf'. { intros ->. change (base ^ Z.of_nat 0) with 1 in Hlt. lia. }
    destruct (IH (x / base) ltac:(lia) Hf') as (Hv & Hall & Hlen & Hup & Hlow & Hz).
    set (l := printint_digits f (x / base) base) in *. cbn [rev]. split_and!.
    + rewrite numeral_val_snoc, Hv, Hd. lia.
    + constructor; [rewrite Hd; lia|done].
    + simpl. lia.
    + cbn [length]. rewrite Nat2Z.inj_succ, Z.pow_succ_r by lia. nia.
    + intros _. cbn [length]. replace (S (length l) - 1)%nat with (length l) by lia.
      assert (last (nthZ 0 digits (x mod base) :: l) = last l) as ->.
      { destruct l; [simpl in Hlen; lia|done]. }
      split; [|intros E; apply Hz in E; lia].
      destruct (decide (length l = 1)%nat) as [->|].
      * change (Z.of_nat 1) with 1. rewrite Z.pow_1_r. nia.
      * destruct (Hlow ltac:(lia)) as [Hlow' _].
        replace (length l) with (S (length l - 1)) by lia.
        rewrite Nat2Z.inj_succ, Z.pow_succ_r by lia. nia.
    + assert (last (nthZ 0 digits (x mod base) :: l) = last l) as ->.
      { destruct l; [simpl in Hlen; lia|done]. }
      intros E. apply Hz in E. lia.
Qed.

(** The number of digits. *)
Lemma printint_digits_length f x k :
  0 ≤ x < base ^ Z.of_nat f → f ≠ O → (1 ≤ k)%nat →
  (length (printint_digits f x base) ≤ k)%nat ↔ x < base ^ Z.of_nat k.
Proof.
  intros Hx Hf Hk. destruct (printint_digits_spec f x Hx Hf) as (_ & _ & Hlen & Hup & Hlow & _).
  set (l := printint_digits f x base) in *. split; intros H.
  - eapply Z.lt_le_trans; [exact Hup|]. apply Z.pow_le_mono_r; lia.
  - destruct (decide (length l ≤ k)%nat) as [|Hn]; [done|]. exfalso.
    destruct (Hlow ltac:(lia)) as [Hlow' _].
    assert (base ^ Z.of_nat k ≤ base ^ Z.of_nat (length l - 1)) by (apply Z.pow_le_mono_r; lia). lia.
Qed.

Lemma printint_digits_ok f x :
  0 ≤ x < base ^ Z.of_nat f → f ≠ O → numeral_ok base (rev (printint_digits f x base)).
Proof.
  intros Hx Hf. destruct (printint_digits_spec f x Hx Hf) as (_ & Hall & Hlen & _ & Hlow & _).
  set (l := printint_digits f x base) in *. split_and!.
  - intros E. apply (f_equal length) in E. rewrite length_rev in E. simpl in E. lia.
  - apply Forall_forall. intros c Hc. rewrite elem_of_rev in Hc. rewrite Forall_forall in Hall. by apply Hall.
  - rewrite length_rev. intros H. destruct (Hlow H) as [_ Hlast].
    rewrite rev_alt. change (rev_append l []) with (reverse l). by rewrite head_reverse.
Qed.
End digits.

(** ** The console *)

Section console.
Context `{Oth : Others}.

Lemma printed_nil s : printed [] s s.
Proof. exists (tx_busy (uart s)). rewrite app_nil_r. destruct s as [? ? ? ? ? ? ? ? ? ? ? ? ? ? ? ? ? ? ? ? [] ? ? ? ?]. done. Qed.

Lemma printed_app a b s1 s2 s3 : printed a s1 s2 → printed b s2 s3 → printed (a ++ b) s1 s3.
Proof. intros [x ->] [y ->]. exists y. destruct s1. cbn. by rewrite app_assoc. Qed.

Lemma printed_cs bs s s' : printed bs s s' → cs s' = cs s ∧ panicked s' = panicked s.
Proof. intros [x ->]. done. Qed.

Lemma uartputc_spin_ok k s :
  (length (tx_busy (uart s)) < k)%nat →
  wp (uartputc_spin k) (λ _ s', printed [] s s') s.
Proof.
  revert s. induction k as [|k IH]; intros s Hk; [lia|]. cbn [uartputc_spin].
  apply wp_bind. unfold wp at 1, lsr_tx_idle. destruct (tx_busy (uart s)) as [|b l] eqn:E.
  - apply wp_ret, printed_nil.
  - set (s1 := set_uart (set_tx_busy l (uart s)) s).
    assert (printed [] s s1) as Hp by (exists l; rewrite app_nil_r; by destruct s as [? ? ? ? ? ? ? ? ? ? ? ? ? ? ? ? ? ? ? ? [] ? ? ? ?]).
    destruct b; cbn [negb].
    + eapply wp_mono; [apply IH; cbn; simpl in Hk; lia|].
      intros ? s2 H2. by eapply (printed_app [] []).
    + by apply wp_ret.
Qed.

Lemma uartputc_sync_ok n c s :
  cs_ok n (cs s) → panicked s = 0 → wp (uartputc_sync c) (λ _ s', printed [u8 c] s s') s.
Proof.
  intros Hc Hp. unfold uartputc_sync. apply wp_bind.
  eapply wp_eq; [unfold lift_cs; by rewrite (push_off_ok Hc)|].
  apply wp_bind, wp_gets. cbn [panicked set_cs]. rewrite Hp. cbn [c_bool Z.eqb negb].
  apply wp_bind, wp_gets. apply wp_bind. eapply wp_mono; [apply uartputc_spin_ok; lia|].
  intros ? s2 [busy ->]; cbn beta. apply wp_bind, wp_modify. cbn [uart set_uart set_cs].
  unfold wp, lift_cs. cbn [cs set_uart set_cs].
  pose proof (pop_off_ok Hc (locks (cs s))) as Hpop. rewrite <- surjective_cstate in Hpop.
  change (set_locks (locks (cs s)) (pushed (cs s))) with (pushed (cs s)) in Hpop. rewrite Hpop.
  exists busy. destruct s. cbn. by rewrite app_nil_r.
Qed.

Lemma consputc_ok n c s :
  cs_ok n (cs s) → panicked s = 0 → wp (consputc c) (λ _ s', printed (cons_bytes c) s s') s.
Proof.
  intros Hc Hp. unfold consputc, cons_bytes. destruct (Z.eqb_spec c BACKSPACE).
  - apply wp_bind. eapply wp_mono; [by apply (uartputc_sync_ok n)|]. intros ? s1 H1; cbn beta.
    destruct (printed_cs _ _ _ H1) as [Hc1 Hp1].
    apply wp_bind. eapply wp_mono; [apply (uartputc_sync_ok n); [by rewrite Hc1|congruence]|]. intros ? s2 H2; cbn beta.
    destruct (printed_cs _ _ _ H2) as [Hc2 Hp2].
    eapply wp_mono; [apply (uartputc_sync_ok n); [by rewrite Hc2, Hc1|congruence]|]. intros ? s3 H3.
    apply (printed_app [8] [32; 8] _ _ _ H1), (printed_app [32] [8] _ _ _ H2 H3).
  - by apply (uartputc_sync_ok n).
Qed.

Lemma mfor_consputc_ok n l s :
  cs_ok n (cs s) → panicked s = 0 → wp (mfor l consputc) (λ _ s', printed (l ≫= cons_bytes) s s') s.
Proof.
  intros Hc Hp. revert s Hc Hp. induction l as [|c l IH]; intros s Hc Hp; cbn [mfor].
  - apply wp_ret, printed_nil.
  - apply wp_bind. eapply wp_mono; [by apply (consputc_ok n)|]. intros ? s1 H1; cbn beta.
    destruct (printed_cs _ _ _ H1) as [Hc1 Hp1].
    eapply wp_mono; [apply IH; [by rewrite Hc1|congruence]|]. intros ? s2 H2. exact (printed_app (cons_bytes c) (l ≫= cons_bytes) s s1 s2 H1 H2).
Qed.
End console.

Lemma digits_bytes base l :
  Forall (λ c, 0 ≤ digit_val c < base) l → l ≫= cons_bytes = l.
Proof.
  induction 1 as [|c l Hc _ IH]; [done|]. cbn. rewrite IH.
  assert (c ∈ digits) as Hin.
  { unfold digit_val in Hc. destruct (list_find _ _) as [[i d]|] eqn:E; [|lia].
    apply list_find_Some in E as (Hi & -> & _). by eapply list_elem_of_lookup_2. }
  assert (Forall (λ c, cons_bytes c = [c]) digits) as H by (vm_compute; repeat constructor).
  rewrite Forall_forall in H. by rewrite (H c Hin).
Qed.

(** ** Property *)

(** C30. [printint] prints every number it has room for: for a number whose digits in the
    base, with the minus sign, fit in [char buf[16]], it sends exactly the sign (for a
    negative number printed as signed) and a numeral without leading zeros whose value
    is the absolute value, and changes nothing else; for every other number it stores
    outside [buf]. So decimal output is right exactly below 10^16 (10^15 after a minus
    sign), although the argument has 64 bits. *)
Theorem printint_correct n xx base sign s :
  cs_ok n (cs s) → panicked s = 0 → base = 10 ∨ base = 16 → - 2 ^ 63 ≤ xx < 2 ^ 63 →
  let neg := sign && (xx <? 0) in
  let x := if neg then - xx else u64 xx in
  if decide (x < base ^ (if neg then 15 else 16)) then
    ∃ ds, numeral_ok base ds ∧ numeral_val base ds = x ∧
      wp (printint xx base sign) (λ _ s', printed ((if neg then [chr "-"] else []) ++ ds) s s') s
  else printint xx base sign s = Panic "printint: write past buf[16]".
Proof.
  intros Hc Hp Hb Hx neg x. unfold printint. rewrite s64_small by lia.
  unfold printint_buf. fold neg.
  assert (0 ≤ x < 2 ^ 64) as Hx64.
  { unfold x, neg. destruct (sign && (xx <? 0)) eqn:E; [|apply u64_range].
    apply andb_prop in E as [_ E]. apply Z.ltb_lt in E. lia. }
  replace (if neg then u64 (- xx) else u64 xx) with x.
  2:{ unfold x in *. clear -Hx64. destruct neg; [|done]. symmetry. by apply u64_small. }
  assert (2 ≤ base ≤ 16) as Hb' by lia.
  assert (0 ≤ x < base ^ Z.of_nat 64) as Hx'.
  { split; [lia|]. eapply Z.lt_le_trans; [apply Hx64|]. apply Z.pow_le_mono_l. lia. }
  set (l := printint_digits 64 x base).
  assert ((PRINTINT_BUF <? length (l ++ (if neg then [chr "-"] else [])))%nat =
          negb (bool_decide (x < base ^ (if neg then 15 else 16)))) as ->.
  { rewrite length_app. pose proof (printint_digits_length base Hb' 64 x (if neg then 15 else 16) Hx'
      ltac:(done) ltac:(destruct neg; lia)) as Hl. fold l in Hl. generalize dependent (length l). intros k Hl.
    replace (Z.of_nat (if neg then 15 else 16)%nat) with (if neg then 15 else 16) in Hl by (by destruct neg).
    destruct (bool_decide_reflect (x < base ^ (if neg then 15 else 16))) as [H|H].
    - apply Hl in H. apply Nat.ltb_ge. unfold PRINTINT_BUF. destruct neg; cbn [length]; lia.
    - apply Nat.ltb_lt. unfold PRINTINT_BUF. destruct (decide (k ≤ if neg then 15 else 16)%nat).
      + exfalso. apply H. by apply Hl.
      + destruct neg; cbn [length]; lia. }
  destruct (decide (x < base ^ (if neg then 15 else 16))) as [H|H].
  - rewrite bool_decide_eq_true_2 by done. cbn [negb].
    exists (rev l). split_and!.
    + by apply printint_digits_ok.
    + by apply (printint_digits_spec base Hb' 64 x Hx').
    + eapply wp_mono; [by apply (mfor_consputc_ok n)|]. intros ? s' Hs'; cbn beta in Hs'.
      rewrite rev_app_distr, bind_app in Hs'.
      rewrite (digits_bytes base (rev l)) in Hs' by (by apply (printint_digits_ok base Hb' 64 x Hx')).
      by destruct neg.
  - by rewrite bool_decide_eq_false_2.
Qed.

Lemma printint_correct_witness :
  (∃ ds, numeral_ok 10 ds ∧ numeral_val 10 ds = 2026 ∧
    wp (printint (-2026) 10 true) (λ _ s', printed ([chr "-"] ++ ds) pdemo s') pdemo) ∧
  printint (s64 (2 ^ 64 - 1)) 10 false pdemo = Panic "printint: write past buf[16]".
Proof.
  split.
  - pose proof (printint_correct 0 (-2026) 10 true pdemo pdemo_cs eq_refl (or_introl eq_refl)
      ltac:(lia)) as H. exact H.
  - pose proof (printint_correct 0 (-1) 10 false pdemo pdemo_cs eq_refl (or_introl eq_refl)
      ltac:(lia)) as H. exact H.
Defined.
