(* ===== verification/Console.v ===== *)
(** * The console: kernel/console.c, [procdump] of kernel/proc.c and [uartintr] *)

From S2P Require Import Prelude Machine State Spinlock KString Kalloc Vm Proc Uart Printf.

Definition INPUT_BUF_SIZE : Z := 128.
(** [C(x)]: Control-x *)
Definition Ctrl (x : ascii) : Z := chr x - chr "@".
Definition CONSOLE : Z := 1.

Definition upd_cons (f : cons_state → cons_state) : K unit := modify (λ s, set_kcons (f (kcons s)) s).

Section console.
Context `{L : Layout} `{Oth : Others}.

Definition state_name (st : procstate) : list Z :=
  bytes_of_string
    match st with
    | UNUSED => "unused" | USED => "used" | SLEEPING => "sleep "
    | RUNNABLE => "runble" | RUNNING => "run   " | ZOMBIE => "zombie"
    end.

Definition procdump : K unit :=
  printf [10] [];;
  mfor all_procs (λ p,
    pr ← get_proc p;
    if decide (p_state pr = UNUSED) then mret tt
    else
      printf (bytes_of_string "%d %s %s")
        [AInt (p_pid pr); AStr (Some (state_name (p_state pr))); AStr (Some (p_name pr))];;
      printf [10] [];;
      mret tt).

(** The loop over the bytes in [consolewrite], from index [i] of [n]; the result is
    the number of bytes written. *)
Fixpoint consolewrite_loop (k : nat) (src : Z → source) (i : Z) : K Z :=
  match k with
  | O => mret i
  | S k' =>
      rc ← either_copyin (src i) 1;
      if fst rc =? -1 then mret i
      else
        uartputc (nthZ 0 (snd rc) 0);;
        consolewrite_loop k' src (i + 1)
  end.
Definition src_at (sr : source) (i : Z) : source :=
  match sr with
  | UserSrc va => UserSrc (u64 (va + i))
  | KernSrc pa => KernSrc (pa + i)
  | VarSrc bs => VarSrc (drop (Z.to_nat i) bs)
  end.
Definition consolewrite (sr : source) (n : Z) : K Z :=
  consolewrite_loop (Z.to_nat n) (src_at sr) 0.

(** The wait for input in [consoleread]; [false] when the process was killed. *)
Fixpoint consoleread_wait (fuel : nat) : K bool :=
  match fuel with
  | O => hang
  | S f =>
      c ← gets kcons;
      if c_r c =? c_w c then
        p ← myproc; p ← deref p;
        k ← killed p;
        if c_bool k then
          lift_cs (release L_cons);; mret false
        else
          sleep C_cons_r L_cons;;
          consoleread_wait f
      else mret true
  end.

Definition dst_next (d : dest) : dest :=
  match d with
  | UserDst va => UserDst (u64 (va + 1))
  | KernDst pa => KernDst (pa + 1)
  | VarDst => VarDst
  end.

(** The loop of [consoleread]: [n] bytes left of [target]; [None] when the process was
    killed (the lock is released already), else the value of [n] at the end. *)
Fixpoint consoleread_loop (k : nat) (d : dest) (n target : Z) : K (option Z) :=
  match k with
  | O => mret (Some n)
  | S k' =>
      f ← gets sched_left;
      ok ← consoleread_wait (S f);
      if negb ok then mret None
      else
        st ← gets kcons;
        let c := nthZ 0 (c_buf st) (c_r st mod INPUT_BUF_SIZE) in
        upd_cons (λ st, set_c_r (u32 (c_r st + 1)) st);;
        if c =? Ctrl "D" then
          when (n <? target) (upd_cons (λ st, set_c_r (u32 (c_r st - 1)) st));;
          mret (Some n)
        else
          r ← either_copyout d [c];
          if r =? -1 then mret (Some n)
          else if c =? 10 then mret (Some (n - 1))
          else consoleread_loop k' (dst_next d) (n - 1) target
  end.
Definition consoleread (d : dest) (n : Z) : K Z :=
  lift_cs (acquire L_cons);;
  r ← consoleread_loop (Z.to_nat n) d n n;
  match r with
  | None => mret (-1)
  | Some n' => lift_cs (release L_cons);; mret (n - n')
  end.

(** [case C('U')]: erase back to the start of the line. *)
Fixpoint kill_line (fuel : nat) : K unit :=
  match fuel with
  | O => hang
  | S f =>
      c ← gets kcons;
      if negb (c_e c =? c_w c)
         && negb (nthZ 0 (c_buf c) (u32 (c_e c - 1) mod INPUT_BUF_SIZE) =? 10)
      then
        upd_cons (λ c, set_c_e (u32 (c_e c - 1)) c);;
        consputc BACKSPACE;;
        kill_line f
      else mret tt
  end.

Definition consoleintr (c : Z) : K unit :=
  lift_cs (acquire L_cons);;
  (if c =? Ctrl "P" then procdump
   else if c =? Ctrl "U" then
     st ← gets kcons;
     kill_line (S (Z.to_nat (u32 (c_e st - c_w st))))
   else if (c =? Ctrl "H") || (c =? 0x7f) then
     st ← gets kcons;
     when (negb (c_e st =? c_w st))
       (upd_cons (λ st, set_c_e (u32 (c_e st - 1)) st);; consputc BACKSPACE)
   else
     st ← gets kcons;
     when (negb (c =? 0) && (u32 (c_e st - c_r st) <? INPUT_BUF_SIZE))
       (let c := if c =? 13 then 10 else c in
        consputc c;;
        upd_cons (λ st, set_c_buf (setZ (c_buf st) (c_e st mod INPUT_BUF_SIZE) (u8 c)) st);;
        upd_cons (λ st, set_c_e (u32 (c_e st + 1)) st);;
        st ← gets kcons;
        when ((c =? 10) || (c =? Ctrl "D") || (u32 (c_e st - c_r st) =? INPUT_BUF_SIZE))
          (upd_cons (λ st, set_c_w (c_e st) st);;
           wakeup (Some C_cons_r))));;
  lift_cs (release L_cons).

Definition consoleinit : K unit :=
  lift_cs (initlock L_cons "cons");;
  uartinit;;
  modify (λ s, set_devsw
    (setZ (devsw s) CONSOLE (Mk_devsw (Some FN_consoleread) (d_write (nthZ (Mk_devsw None None) (devsw s) CONSOLE)))) s);;
  modify (λ s, set_devsw
    (setZ (devsw s) CONSOLE (Mk_devsw (d_read (nthZ (Mk_devsw None None) (devsw s) CONSOLE)) (Some FN_consolewrite))) s).

(** kernel/uart.c *)
Fixpoint uartintr_loop (fuel : nat) : K unit :=
  match fuel with
  | O => hang
  | S f => c ← uartgetc; if c =? -1 then mret tt else consoleintr c;; uartintr_loop f
  end.
Definition uartintr : K unit :=
  n ← gets (λ s, length (rx_in (uart s)));
  uartintr_loop (S n);;
  lift_cs (acquire L_uart_tx);;
  uartstart;;
  lift_cs (release L_uart_tx).
End console.
