(* ===== verification/ConsoleProofs.v ===== *)
(** * The line discipline: proofs about kernel/console.c

    The ring buffer of the console holds the bytes that are ready for [consoleread]
    and the line being edited. [consoleintr] is shown to implement an editor on those
    two lists. *)

From S2P Require Import Prelude Machine State Spinlock KString Kalloc Vm Proc Sched Uart Printf PrintfProofs Console.

(** ** The abstract editor *)

Record line := Mk_line { l_ready : list Z; l_edit : list Z }.

(** What a byte from the keyboard does: the new state, the bytes echoed, and whether
    a reader is woken up. *)
Definition line_input (c : Z) (l : line) : line * list Z * bool :=
  if c =? Ctrl "U" then
    (Mk_line (l_ready l) [], mjoin (replicate (length (l_edit l)) [8; 32; 8]), false)
  else if (c =? Ctrl "H") || (c =? 0x7f) then
    (Mk_line (l_ready l) (removelast (l_edit l)),
     match l_edit l with [] => [] | _ => [8; 32; 8] end, false)
  else if (c =? 0) || (128 <=? length (l_ready l) + length (l_edit l))%nat then (l, [], false)
  else
    let c := if c =? 13 then 10 else c in
    let edit := l_edit l ++ [c] in
    if (c =? 10) || (c =? Ctrl "D") || (length (l_ready l) + length edit =? 128)%nat
    then (Mk_line (l_ready l ++ edit) [], [c], true)
    else (Mk_line (l_ready l) edit, [c], false).

(** The ring buffer [st] holds [l]. *)
Record line_view (st : cons_state) (l : line) : Prop := {
  lv_buf : length (c_buf st) = 128%nat;
  lv_r : 0 ≤ c_r st < 2 ^ 32;
  lv_w : c_w st = u32 (c_r st + Z.of_nat (length (l_ready l)));
  lv_e : c_e st = u32 (c_r st + Z.of_nat (length (l_ready l) + length (l_edit l)));
  lv_len : (length (l_ready l) + length (l_edit l) ≤ 128)%nat;
  lv_data : ∀ i c, (l_ready l ++ l_edit l) !! i = Some c →
    nthZ 0 (c_buf st) ((c_r st + Z.of_nat i) mod 128) = c;
  lv_edit : Forall (λ c, c ≠ 10 ∧ c ≠ Ctrl "D") (l_edit l)
}.

(** ** Ring arithmetic *)

Lemma u32_mod128 x : u32 x mod 128 = x mod 128.
Proof. unfold u32. apply eq_sym, Znumtheory.Zmod_div_mod; [lia|lia|]. by exists (2 ^ 25). Qed.

Lemma u32_sub_l x y : u32 (u32 x - y) = u32 (x - y).
Proof. unfold u32. by rewrite Zminus_mod_idemp_l. Qed.
Lemma u32_add_l x y : u32 (u32 x + y) = u32 (x + y).
Proof. unfold u32. by rewrite Zplus_mod_idemp_l. Qed.
Lemma u32_sub_r x y : u32 (x - u32 y) = u32 (x - y).
Proof. unfold u32. by rewrite Zminus_mod_idemp_r. Qed.

Lemma u32_dist r a b :
  0 ≤ b ≤ a → a < 2 ^ 32 → u32 (u32 (r + a) - u32 (r + b)) = a - b.
Proof.
  intros Hb Ha. rewrite u32_sub_l, u32_sub_r. replace (r + a - (r + b)) with (a - b) by lia.
  apply u32_small. lia.
Qed.

Lemma u32_eq_iff r a b :
  0 ≤ b ≤ a → a < 2 ^ 32 → u32 (r + a) = u32 (r + b) ↔ a = b.
Proof.
  intros Hb Ha. split; [|by intros ->]. intros E.
  pose proof (u32_dist r a b Hb Ha) as H. rewrite E, Z.sub_diag in H. change (u32 0) with 0 in H. lia.
Qed.

Lemma mod128_ne r i j : 0 ≤ i < 128 → 0 ≤ j < 128 → i ≠ j → (r + i) mod 128 ≠ (r + j) mod 128.
Proof. intros. dlia. Qed.

Section view.
Context {st : cons_state} {l : line} (V : line_view st l).

Lemma view_e_w : c_e st = c_w st ↔ l_edit l = [].
Proof.
  rewrite (lv_e _ _ V), (lv_w _ _ V). pose proof (lv_len _ _ V) as Hl.
  rewrite u32_eq_iff by lia. destruct (l_edit l); simpl in *; split; try done; lia.
Qed.

Lemma view_used : u32 (c_e st - c_r st) = Z.of_nat (length (l_ready l) + length (l_edit l)).
Proof.
  rewrite (lv_e _ _ V), u32_sub_l. pose proof (lv_len _ _ V). rewrite u32_small by lia. lia.
Qed.

Lemma view_last c edit :
  l_edit l = edit ++ [c] → nthZ 0 (c_buf st) (u32 (c_e st - 1) mod 128) = c.
Proof.
  intros He. rewrite u32_mod128, (lv_e _ _ V).
  rewrite <- Zminus_mod_idemp_l, u32_mod128, Zminus_mod_idemp_l.
  rewrite He, length_app. cbn [length].
  replace (c_r st + Z.of_nat (length (l_ready l) + (length edit + 1)) - 1)
    with (c_r st + Z.of_nat (length (l_ready l) + length edit)) by lia.
  apply (lv_data _ _ V). rewrite He, app_assoc.
  rewrite lookup_app_r by (rewrite length_app; lia). rewrite length_app.
  by replace (_ - _)%nat with O by lia.
Qed.

(** Erasing the last byte of the line. *)
Lemma view_erase c edit :
  l_edit l = edit ++ [c] → line_view (set_c_e (u32 (c_e st - 1)) st) (Mk_line (l_ready l) edit).
Proof.
  intros He. pose proof (lv_len _ _ V) as Hlen. rewrite He, length_app in Hlen. cbn in Hlen.
  split; cbn.
  - apply V.
  - apply V.
  - apply V.
  - rewrite (lv_e _ _ V), u32_sub_l, He, length_app. f_equal. cbn. lia.
  - lia.
  - intros i x Hx. apply (lv_data _ _ V). rewrite He, app_assoc. by apply lookup_app_l_Some.
  - pose proof (lv_edit _ _ V) as H. rewrite He, Forall_app in H. naive_solver.
Qed.

(** Storing a byte at the end of the line: the buffer has room. *)
Lemma view_store c :
  (length (l_ready l) + length (l_edit l) < 128)%nat →
  let st' := set_c_e (u32 (c_e st + 1)) (set_c_buf (setZ (c_buf st) (c_e st mod 128) c) st) in
  (c ≠ 10 → c ≠ Ctrl "D" → line_view st' (Mk_line (l_ready l) (l_edit l ++ [c]))) ∧
  line_view (set_c_w (c_e st') st') (Mk_line (l_ready l ++ l_edit l ++ [c]) []).
Proof.
  intros Hroom st'.
  assert (∀ i x, (l_ready l ++ l_edit l ++ [c]) !! i = Some x →
     nthZ 0 (setZ (c_buf st) (c_e st mod 128) c) ((c_r st + Z.of_nat i) mod 128) = x) as Hdata.
  { intros i x. rewrite app_assoc. rewrite (lv_e _ _ V), u32_mod128.
    set (k := (length (l_ready l) + length (l_edit l))%nat) in *. intros Hx.
    destruct (decide (i = k)) as [->|Hne].
    - rewrite lookup_app_r in Hx by (rewrite length_app; unfold k; lia).
      rewrite length_app in Hx. fold k in Hx. rewrite Nat.sub_diag in Hx. injection Hx as <-.
      rewrite nthZ_setZ_eq; [done|]. rewrite (lv_buf _ _ V). pose proof (Z.mod_pos_bound (c_r st + Z.of_nat k) 128). lia.
    - assert (i < k)%nat as Hi.
      { apply lookup_lt_Some in Hx. rewrite !length_app in Hx. cbn in Hx. unfold k in *. lia. }
      rewrite lookup_app_l in Hx by (rewrite length_app; fold k; lia).
      rewrite nthZ_setZ_ne; [by apply (lv_data _ _ V)|]. apply mod128_ne; lia. }
  assert (u32 (c_e st + 1) = u32 (c_r st + Z.of_nat (length (l_ready l) + length (l_edit l ++ [c])))) as He.
  { rewrite (lv_e _ _ V), u32_add_l, length_app. f_equal. cbn. lia. }
  pose proof (lv_buf _ _ V) as Hbuf.
  split.
  - intros H1 H2. split; cbn; try apply V.
    + by rewrite setZ_length.
    + exact He.
    + rewrite length_app. cbn. lia.
    + done.
    + apply Forall_app. split; [apply V|by constructor].
  - split; cbn; try apply V.
    + by rewrite setZ_length.
    + rewrite He. f_equal. rewrite !length_app. cbn. lia.
    + rewrite He. f_equal. rewrite !length_app. cbn. lia.
    + rewrite !length_app. cbn. lia.
    + intros i x. rewrite app_nil_r. apply Hdata.
    + constructor.
Qed.
End view.

(** ** The interrupt handler *)

(** [s'] is [s] with the ring buffer [st] and [echo] sent to the UART. *)
Definition edited (echo : list Z) (st : cons_state) (s s' : kstate) : Prop :=
  ∃ busy, s' = set_kcons st (set_uart (set_tx_busy busy (set_tx_out (tx_out (uart s) ++ echo) (uart s))) s).

Lemma edited_refl s : edited [] (kcons s) s s.
Proof.
  exists (tx_busy (uart s)). rewrite app_nil_r.
  destruct s as [? ? ? ? ? ? ? ? ? ? ? ? ? ? ? ? ? ? ? ? [] ? ? ? ?]. done.
Qed.

Lemma edited_cons st s : edited [] st s (set_kcons st s).
Proof.
  exists (tx_busy (uart s)). rewrite app_nil_r.
  destruct s as [? ? ? ? ? ? ? ? ? ? ? ? ? ? ? ? ? ? ? ? [] ? ? ? ?]. done.
Qed.

Lemma edited_printed bs s s' : printed bs s s' → edited bs (kcons s) s s'.
Proof. intros [b ->]. exists b. by destruct s. Qed.

Lemma edited_app a b st1 st2 s1 s2 s3 :
  edited a st1 s1 s2 → edited b st2 s2 s3 → edited (a ++ b) st2 s1 s3.
Proof. intros [x ->] [y ->]. exists y. destruct s1. cbn. by rewrite app_assoc. Qed.

Lemma edited_facts a st s s' :
  edited a st s s' → cs s' = cs s ∧ panicked s' = panicked s ∧ kcons s' = st ∧ proc_tab s' = proc_tab s.
Proof. intros [x ->]. done. Qed.

Lemma join_replicate_comm {A} (w : list A) m :
  mjoin (replicate m w) ++ w = w ++ mjoin (replicate m w).
Proof.
  induction m as [|m IH]; simpl; [by rewrite app_nil_r|]. by rewrite <- app_assoc, IH.
Qed.

Lemma kill_line_ok n k l s :
  cs_ok n (cs s) → panicked s = 0 → line_view (kcons s) l → (length (l_edit l) < k)%nat →
  wp (kill_line k) (λ _ s', ∃ st, edited (mjoin (replicate (length (l_edit l)) [8; 32; 8])) st s s' ∧
    line_view st (Mk_line (l_ready l) [])) s.
Proof.
  revert l s. induction k as [|k IH]; intros l s Hc Hp V Hk; [lia|]. cbn [kill_line].
  apply wp_bind, wp_gets. destruct (l_edit l) as [|c edit _] eqn:He using rev_ind.
  - rewrite (proj2 (view_e_w V) He), Z.eqb_refl. cbn [negb andb].
    apply wp_ret. exists (kcons s). split; [apply edited_refl|]. by destruct l; cbn in *; subst.
  - rewrite (proj2 (Z.eqb_neq _ _)).
    2:{ rewrite (view_e_w V), He. by destruct edit. }
    change INPUT_BUF_SIZE with 128. rewrite (view_last V c edit He). pose proof (lv_edit _ _ V) as Hed. rewrite He, Forall_app in Hed.
    destruct Hed as [_ [[Hc10 _] _]%Forall_cons]. rewrite (proj2 (Z.eqb_neq _ _) Hc10). cbn [negb andb].
    apply wp_bind, wp_modify. apply wp_bind.
    pose proof (view_erase V c edit He) as V'.
    set (st1 := set_c_e (u32 (c_e (kcons s) - 1)) (kcons s)) in *.
    eapply wp_mono; [by apply (consputc_ok n)|]. intros ? s2 H2; cbn beta in H2.
    apply edited_printed in H2. destruct (edited_facts _ _ _ _ H2) as (Hc2 & Hp2 & Hk2 & _).
    cbn [kcons set_kcons cs panicked] in Hc2, Hp2, Hk2.
    eapply wp_mono; [apply (IH (Mk_line (l_ready l) edit) s2)|].
    + by rewrite Hc2.
    + by rewrite Hp2.
    + by rewrite Hk2.
    + rewrite length_app in Hk. cbn in *. lia.
    + intros ? s3 (st3 & H3 & V3). cbn [l_edit l_ready] in *. exists st3. split; [|done].
      rewrite length_app, replicate_add, join_app. cbn [length replicate].
      assert (mjoin (replicate (length edit) [8; 32; 8]) ++ mjoin [[8; 32; 8]] =
              [8; 32; 8] ++ mjoin (replicate (length edit) [8; 32; 8])) as ->.
      { change (mjoin [[8; 32; 8]]) with ([8; 32; 8] ++ []). rewrite app_nil_r. apply join_replicate_comm. }
      eapply (edited_app []); [apply edited_cons|]. exact (edited_app [8; 32; 8] _ _ _ _ _ _ H2 H3).
Qed.

Section intr.
Context `{L : Layout} `{Oth : Others}.

(** The handler between [acquire] and [release], for a byte other than Control-P. *)
Lemma consoleintr_body_ok n c l s :
  cs_ok n (cs s) → procs_free (cur_proc s) (cs s) → length (proc_tab s) = Z.to_nat NPROC →
  panicked s = 0 → line_view (kcons s) l → 0 ≤ c < 256 → c ≠ Ctrl "P" →
  wp (if c =? Ctrl "P" then procdump
   else if c =? Ctrl "U" then
     st ← gets kcons;
     kill_line (S (Z.to_nat (u32 (c_e st - c_w st))))
   else if (c =? Ctrl "H") || (c =? 0x7f) then
     st ← gets kcons;
     when (negb (c_e st =? c_w st))
       (upd_cons (λ st, set_c_e (u32 (c_e st - 1)) st);; consputc BACKSPACE)
   else
     st ← gets kcons;
     when (negb (c =? 0) && (u32 (c_e st - c_r st) <? INPUT_BUF_SIZE))
       (let c := if c =? 13 then 10 else c in
        consputc c;;
        upd_cons (λ st, set_c_buf (setZ (c_buf st) (c_e st mod INPUT_BUF_SIZE) (u8 c)) st);;
        upd_cons (λ st, set_c_e (u32 (c_e st + 1)) st);;
        st ← gets kcons;
        when ((c =? 10) || (c =? Ctrl "D") || (u32 (c_e st - c_r st) =? INPUT_BUF_SIZE))
          (upd_cons (λ st, set_c_w (c_e st) st);;
           wakeup (Some C_cons_r))))
    (λ _ s', let '(l', echo, wake) := line_input c l in
       ∃ st, line_view st l' ∧
         edited echo st (set_proc_tab (if wake then woken (Some C_cons_r) (cur_proc s) (proc_tab s)
                                       else proc_tab s) s) s') s.
Proof.
  intros Hc Hf Hlen Hp V Hr HP. rewrite (proj2 (Z.eqb_neq _ _) HP). unfold line_input.
  destruct (c =? Ctrl "U").
  { apply wp_bind, wp_gets. eapply wp_mono; [apply (kill_line_ok n _ l); try done|].
    - rewrite (lv_e _ _ V), (lv_w _ _ V). pose proof (lv_len _ _ V). rewrite u32_dist by lia. lia.
    - intros ? s' (st & He & V'). exists st. by rewrite set_proc_tab_id. }
  destruct ((c =? Ctrl "H") || (c =? 127)).
  { apply wp_bind, wp_gets. destruct (l_edit l) as [|x edit _] eqn:He using rev_ind.
    - rewrite (proj2 (view_e_w V) He), Z.eqb_refl. cbn [negb when].
      apply wp_ret. exists (kcons s). rewrite set_proc_tab_id. split; [|apply edited_refl].
      by destruct l; cbn in *; subst.
    - rewrite (proj2 (Z.eqb_neq _ _)).
      2:{ rewrite (view_e_w V), He. by destruct edit. }
      cbn [negb when]. apply wp_bind, wp_modify.
      eapply wp_mono; [by apply (consputc_ok n)|]. intros ? s' H'; cbn beta in H'.
      apply edited_printed in H'. cbn [kcons set_kcons] in H'.
      exists (set_c_e (u32 (c_e (kcons s) - 1)) (kcons s)). rewrite set_proc_tab_id, removelast_last. split.
      + by apply (view_erase V x edit).
      + replace (match edit ++ [x] with [] => _ | _ => _ end) with [8; 32; 8] by (by destruct edit).
        eapply (edited_app []); [apply edited_cons|exact H']. }
  apply wp_bind, wp_gets. rewrite (view_used V). change INPUT_BUF_SIZE with 128.
  replace (negb (c =? 0) && (Z.of_nat (length (l_ready l) + length (l_edit l)) <? 128))
    with (negb ((c =? 0) || (128 <=? length (l_ready l) + length (l_edit l))%nat)).
  2:{ rewrite negb_orb. f_equal. rewrite Nat.leb_antisym, negb_involutive.
      destruct (Nat.ltb_spec (length (l_ready l) + length (l_edit l)) 128), (Z.ltb_spec (Z.of_nat (length (l_ready l) + length (l_edit l))) 128); lia. }
  destruct ((c =? 0) || _) eqn:Hfull; cbn [negb when].
  { apply wp_ret. exists (kcons s). rewrite set_proc_tab_id. split; [done|apply edited_refl]. }
  apply orb_false_iff in Hfull as [_ Hroom]. apply Nat.leb_gt in Hroom.
  cbv zeta. set (c' := if c =? 13 then 10 else c).
  assert (0 ≤ c' < 256) as Hc' by (unfold c'; destruct (c =? 13); lia).
  apply wp_bind. eapply wp_mono; [by apply (consputc_ok n)|]. intros ? s1 H1; cbn beta in H1.
  assert (cons_bytes c' = [c']) as Hb.
  { unfold cons_bytes. rewrite (proj2 (Z.eqb_neq c' BACKSPACE)) by (unfold BACKSPACE; lia).
    by rewrite u8_small by lia. }
  rewrite Hb in H1. apply edited_printed in H1.
  destruct (edited_facts _ _ _ _ H1) as (Hc1 & Hp1 & Hk1 & Ht1).
  apply wp_bind, wp_modify, wp_bind, wp_modify, wp_bind, wp_gets. cbn [kcons set_kcons].
  rewrite Hk1, (u8_small c') by lia.
  destruct (view_store V c' Hroom) as [V1 V2].
  set (st2 := set_c_e (u32 (c_e (kcons s) + 1))
     (set_c_buf (setZ (c_buf (kcons s)) (c_e (kcons s) mod 128) c') (kcons s))) in *.
  change (set_c_e _ _) with st2.
  assert (u32 (c_e st2 - c_r st2) = Z.of_nat (length (l_ready l) + length (l_edit l ++ [c']))) as Hused.
  { unfold st2. cbn. rewrite u32_sub_l, (lv_e _ _ V), length_app. cbn [length].
    rewrite <- Z.add_sub_assoc, u32_add_l, u32_small by lia. lia. }
  rewrite Hused.
  replace (Z.of_nat (length (l_ready l) + length (l_edit l ++ [c'])) =? 128)
    with (length (l_ready l) + length (l_edit l ++ [c']) =? 128)%nat.
  2:{ destruct (Nat.eqb_spec (length (l_ready l) + length (l_edit l ++ [c'])) 128),
        (Z.eqb_spec (Z.of_nat (length (l_ready l) + length (l_edit l ++ [c']))) 128); lia. }
  destruct ((c' =? 10) || (c' =? Ctrl "D") || _) eqn:Hcommit; cbn [when].
  - apply wp_bind, wp_modify. cbn [kcons set_kcons].
    eapply wp_eq.
    { apply (wakeup_eq n); cbn [cs proc_tab set_kcons].
      - by rewrite Hc1.
      - unfold cur_proc. cbn [cs set_kcons]. rewrite Hc1. exact Hf.
      - by rewrite Ht1. }
    unfold cur_proc. cbn [cs set_kcons proc_tab]. rewrite Hc1, Ht1. fold (cur_proc s).
    exists (set_c_w (c_e st2) st2). split; [exact V2|].
    destruct H1 as [busy ->]. exists busy. by destruct s.
  - apply orb_false_iff in Hcommit as [Hcommit _]. apply orb_false_iff in Hcommit as [H10 H4].
    apply wp_ret. exists st2. rewrite set_proc_tab_id. split.
    + apply V1; by apply Z.eqb_neq.
    + destruct H1 as [busy ->]. exists busy. by destruct s.
Qed.
End intr.

(** ** Property *)

(** C29. The console's interrupt handler implements the line editor [line_input]: from a
    ring buffer that holds the ready bytes and the line being edited, [consoleintr]
    returns with a ring buffer that holds what the editor makes of them, echoes what
    the editor echoes, wakes the readers up exactly when a line is complete (newline,
    end of file, or the buffer is full), and changes nothing else. It never overwrites
    a byte that has not been read. *)
Theorem consoleintr_refines `{L : Layout} `{Oth : Others} n c l s :
  cs_ok n (cs s) → n < 2 ^ 31 - 2 → lock_free L_cons (cs s) →
  procs_free (cur_proc s) (cs s) → length (proc_tab s) = Z.to_nat NPROC →
  panicked s = 0 → line_view (kcons s) l → 0 ≤ c < 256 → c ≠ Ctrl "P" →
  wp (consoleintr c) (λ _ s', let '(l', echo, wake) := line_input c l in
    ∃ st, line_view st l' ∧
      edited echo st (set_proc_tab (if wake then woken (Some C_cons_r) (cur_proc s) (proc_tab s)
                                    else proc_tab s) s) s') s.
Proof.
  intros Hc Hn Hl Hf Hlen Hp V Hr HP. unfold consoleintr. apply wp_bind.
  eapply wp_acquire; [done|done|]. apply wp_bind.
  assert (cur_proc (set_cs (taken L_cons (cs s)) s) = cur_proc s) as Hcur
    by (by apply (cur_proc_taken n L_cons)).
  eapply wp_mono; [apply (consoleintr_body_ok (n + 1) c l); try done|].
  - by apply taken_ok.
  - rewrite Hcur. intros p Hp' Hme. apply taken_free; [done|by apply Hf].
  - intros ? s' H. rewrite Hcur in H. destruct (line_input c l) as [[l' echo] wk].
    destruct H as (st & V' & busy & ->).
    eapply (wp_release n L_cons (cs s)); [done|done|by destruct s|].
    exists st. split; [done|]. exists busy. by destruct s.
Qed.

Lemma consoleintr_refines_witness :
  wp (consoleintr (chr "a")) (λ _ s', ∃ st, line_view st (Mk_line [] [97]) ∧
    edited [97] st (set_proc_tab (proc_tab pdemo) pdemo) s') pdemo.
Proof.
  apply (consoleintr_refines (L := layout_ex) (Oth := λ _ s, s) 0 (chr "a") (Mk_line [] []) pdemo pdemo_cs ltac:(lia)
    (pdemo_lock L_cons ltac:(set_solver)) (pdemo_free _)); [reflexivity|reflexivity| |vm_compute; split; congruence|done].
  split; [reflexivity|vm_compute; split; congruence|reflexivity|reflexivity|cbn; lia|done|constructor].
Defined.
