(* ===== verification/Sleeplock.v ===== *)
(** * Sleeping locks: kernel/sleeplock.c

    The functions, and equations for the calls of their clients. *)

From S2P Require Import Prelude Machine State Spinlock KString Kalloc Vm Proc.
From S2P Require Import Sched.

Definition get_slock (l : sleepid) (s : kstate) : sleeplock := default sleeplock0 (slocks s !! l).
Definition upd_slock (l : sleepid) (f : sleeplock → sleeplock) : K unit :=
  modify (λ s, set_slocks (<[l := f (get_slock l s)]> (slocks s)) s).

Section sleeplock.
Context `{L : Layout} `{Oth : Others}.

Definition initsleeplock (l : sleepid) (name : string) : K unit :=
  lift_cs (initlock (L_sleep l) "sleep lock");;
  upd_slock l (λ k, Mk_sleeplock (sl_locked k) name (sl_pid k));;
  upd_slock l (λ k, Mk_sleeplock 0 (sl_name k) (sl_pid k));;
  upd_slock l (λ k, Mk_sleeplock (sl_locked k) (sl_name k) 0).

(** [while (lk->locked) sleep(lk, &lk->lk);] *)
Fixpoint acquiresleep_wait (fuel : nat) (l : sleepid) : K unit :=
  match fuel with
  | O => hang
  | S f =>
      k ← gets (get_slock l);
      if c_bool (sl_locked k) then
        sleep (C_sleeplock l) (L_sleep l);;
        acquiresleep_wait f l
      else mret tt
  end.

Definition acquiresleep (l : sleepid) : K unit :=
  lift_cs (acquire (L_sleep l));;
  n ← gets sched_left;
  acquiresleep_wait (S n) l;;
  upd_slock l (λ k, Mk_sleeplock 1 (sl_name k) (sl_pid k));;
  p ← myproc; p ← deref p;
  pr ← get_proc p;
  upd_slock l (λ k, Mk_sleeplock (sl_locked k) (sl_name k) (p_pid pr));;
  lift_cs (release (L_sleep l)).

Definition releasesleep (l : sleepid) : K unit :=
  lift_cs (acquire (L_sleep l));;
  upd_slock l (λ k, Mk_sleeplock 0 (sl_name k) (sl_pid k));;
  upd_slock l (λ k, Mk_sleeplock (sl_locked k) (sl_name k) 0);;
  wakeup (Some (C_sleeplock l));;
  lift_cs (release (L_sleep l)).

Definition holdingsleep (l : sleepid) : K bool :=
  lift_cs (acquire (L_sleep l));;
  k ← gets (get_slock l);
  r ← (if c_bool (sl_locked k) then
         p ← myproc; p ← deref p;
         pr ← get_proc p;
         mret (sl_pid k =? p_pid pr)
       else mret false);
  lift_cs (release (L_sleep l));;
  mret r.
End sleeplock.

(** ** What the sleeping locks do: proofs about kernel/sleeplock.c

    Equations for the calls that the buffer cache makes: taking a lock that nobody
    holds, giving it back, asking whether the current process holds it. *)

(** The lock [l] as the process with pid [pid] leaves it. *)
Definition sl_held (pid : Z) (k : sleeplock) : sleeplock := Mk_sleeplock 1 (sl_name k) pid.
Definition sl_freed (k : sleeplock) : sleeplock := Mk_sleeplock 0 (sl_name k) 0.

Lemma get_slock_insert l k m s : get_slock l (set_slocks (<[l := k]> m) s) = k.
Proof. unfold get_slock. cbn. by rewrite lookup_insert_eq. Qed.

Lemma procs_free_taken me l c : (∀ p, l ≠ L_proc p) → procs_free me c → procs_free me (taken l c).
Proof. intros Hl Hf p Hp Hne. apply taken_free; [done|]. by apply Hf. Qed.

Lemma cur_proc_set_taken n l s :
  cs_ok n (cs s) → cur_proc (set_cs (taken l (cs s)) s) = cur_proc s.
Proof. intros Hc. by rewrite (cur_proc_taken n l (cs s)). Qed.

Section sleep.
Context `{L : Layout} `{Oth : Others}.

(** A body that runs with a spinlock held and leaves the control state alone. *)
Lemma critical_eq {A B} n l (m : K A) (k : A → K B) a s s' :
  cs_ok n (cs s) → lock_free l (cs s) →
  m (set_cs (taken l (cs s)) s) = Ret a s' → cs s' = taken l (cs s) →
  (lift_cs (acquire l);; x ← m; lift_cs (release l);; k x) s = k a (set_cs (cs s) s').
Proof.
  intros Hc Hl Hm Hs'. erewrite bind_ret; [|by eapply k_acquire].
  erewrite bind_ret; [|exact Hm].
  by erewrite bind_ret; [|by eapply (k_release n l (cs s))].
Qed.

Lemma acquiresleep_eq n l p s :
  cs_ok n (cs s) → n < 2 ^ 31 - 2 → lock_free (L_sleep l) (cs s) → cur_proc s = Some p → sl_locked (get_slock l s) = 0 →
  acquiresleep l s
  = Ret tt (set_slocks (<[l := sl_held (p_pid (nth p (proc_tab s) proc0)) (get_slock l s)]> (slocks s)) s).
Proof.
  intros Hc Hn Hl Hp Hk. unfold acquiresleep.
  erewrite bind_ret; [|by eapply k_acquire].
  erewrite bind_ret; [|reflexivity].
  erewrite bind_ret.
  2:{ cbn [acquiresleep_wait]. erewrite bind_ret; [|reflexivity].
      change (get_slock l (set_cs _ s)) with (get_slock l s). rewrite Hk. reflexivity. }
  erewrite bind_ret; [|reflexivity].
  erewrite bind_ret.
  2:{ apply (myproc_eq (n + 1)). apply (taken_ok Hc); lia. }
  change (cur_proc (set_slocks _ (set_cs (taken (L_sleep l) (cs s)) s)))
    with (cur_proc (set_cs (taken (L_sleep l) (cs s)) s)).
  rewrite (cur_proc_set_taken n), Hp by done.
  erewrite bind_ret; [|reflexivity].
  erewrite bind_ret; [|reflexivity].
  erewrite bind_ret; [|reflexivity].
  rewrite (k_release n (L_sleep l) (cs s)) by done.
  change (slocks (set_cs (taken (L_sleep l) (cs s)) s)) with (slocks s).
  rewrite get_slock_insert. cbn [slocks set_slocks proc_tab sl_locked sl_name].
  rewrite insert_insert_eq. by destruct s.
Qed.

Lemma releasesleep_eq n l s :
  cs_ok n (cs s) → n < 2 ^ 31 - 2 → lock_free (L_sleep l) (cs s) → procs_free (cur_proc s) (cs s) →
  length (proc_tab s) = Z.to_nat NPROC →
  releasesleep l s
  = Ret tt (set_proc_tab (woken (Some (C_sleeplock l)) (cur_proc s) (proc_tab s))
      (set_slocks (<[l := sl_freed (get_slock l s)]> (slocks s)) s)).
Proof.
  intros Hc Hn Hl Hf Hlen. unfold releasesleep.
  erewrite bind_ret; [|by eapply k_acquire].
  erewrite bind_ret; [|reflexivity].
  erewrite bind_ret; [|reflexivity].
  change (slocks (set_cs (taken (L_sleep l) (cs s)) s)) with (slocks s).
  rewrite get_slock_insert. cbn [slocks set_slocks sl_locked sl_name]. rewrite insert_insert_eq.
  change (get_slock l (set_cs (taken (L_sleep l) (cs s)) s)) with (get_slock l s).
  fold (sl_freed (get_slock l s)).
  set (s1 := set_slocks _ _).
  assert (cur_proc s1 = cur_proc s) as Hcur by (by apply (cur_proc_set_taken n)).
  erewrite bind_ret.
  2:{ apply (wakeup_eq (n + 1)); [apply (taken_ok Hc); lia| |done].
      rewrite Hcur. by apply procs_free_taken. }
  rewrite Hcur. rewrite (k_release n (L_sleep l) (cs s)) by done.
  unfold s1. by destruct s.
Qed.

Lemma holdingsleep_eq n l p s :
  cs_ok n (cs s) → n < 2 ^ 31 - 2 → lock_free (L_sleep l) (cs s) → cur_proc s = Some p →
  holdingsleep l s
  = Ret (c_bool (sl_locked (get_slock l s)) &&
         (sl_pid (get_slock l s) =? p_pid (nth p (proc_tab s) proc0))) s.
Proof.
  intros Hc Hn Hl Hp. unfold holdingsleep.
  erewrite bind_ret; [|by eapply k_acquire].
  erewrite bind_ret; [|reflexivity].
  change (get_slock l (set_cs _ s)) with (get_slock l s).
  erewrite bind_ret.
  2:{ transitivity (Ret (c_bool (sl_locked (get_slock l s)) &&
        (sl_pid (get_slock l s) =? p_pid (nth p (proc_tab s) proc0))) (set_cs (taken (L_sleep l) (cs s)) s));
        [|reflexivity].
      destruct (c_bool (sl_locked (get_slock l s))); [|done].
      erewrite bind_ret; [|apply (myproc_eq (n + 1)); apply (taken_ok Hc); lia].
      rewrite (cur_proc_set_taken n), Hp by done. done. }
  erewrite bind_ret; [|by eapply (k_release n (L_sleep l) (cs s))].
  by destruct s.
Qed.
End sleep.
