(* ===== verification/Virtio.v ===== *)
(** * The disk driver: kernel/virtio_disk.c

    The descriptor table and the rings are lists here, in [vdisk]. The device is
    not part of the repository: what it makes of a write to one of its registers is
    the parameter [mmio_write], and what it does to the rings, the buffers and the
    disk while the driver sleeps is part of [others]. *)

From S2P Require Import Prelude Machine State Spinlock KString Kalloc Vm Proc.

Definition NUM : Z := 8.
Definition BSIZE : Z := 1024.
Definition VRING_DESC_F_NEXT : Z := 1.
Definition VRING_DESC_F_WRITE : Z := 2.
Definition VIRTIO_BLK_T_IN : Z := 0.
Definition VIRTIO_BLK_T_OUT : Z := 1.
Definition sizeof_virtio_blk_req : Z := 16.

Definition VIRTIO_MMIO_MAGIC_VALUE : Z := 0x000.
Definition VIRTIO_MMIO_VERSION : Z := 0x004.
Definition VIRTIO_MMIO_DEVICE_ID : Z := 0x008.
Definition VIRTIO_MMIO_VENDOR_ID : Z := 0x00c.
Definition VIRTIO_MMIO_DEVICE_FEATURES : Z := 0x010.
Definition VIRTIO_MMIO_DRIVER_FEATURES : Z := 0x020.
Definition VIRTIO_MMIO_QUEUE_SEL : Z := 0x030.
Definition VIRTIO_MMIO_QUEUE_NUM_MAX : Z := 0x034.
Definition VIRTIO_MMIO_QUEUE_NUM : Z := 0x038.
Definition VIRTIO_MMIO_QUEUE_READY : Z := 0x044.
Definition VIRTIO_MMIO_QUEUE_NOTIFY : Z := 0x050.
Definition VIRTIO_MMIO_INTERRUPT_STATUS : Z := 0x060.
Definition VIRTIO_MMIO_INTERRUPT_ACK : Z := 0x064.
Definition VIRTIO_MMIO_STATUS : Z := 0x070.
Definition VIRTIO_MMIO_QUEUE_DESC_LOW : Z := 0x080.
Definition VIRTIO_MMIO_QUEUE_DESC_HIGH : Z := 0x084.
Definition VIRTIO_MMIO_DRIVER_DESC_LOW : Z := 0x090.
Definition VIRTIO_MMIO_DRIVER_DESC_HIGH : Z := 0x094.
Definition VIRTIO_MMIO_DEVICE_DESC_LOW : Z := 0x0a0.
Definition VIRTIO_MMIO_DEVICE_DESC_HIGH : Z := 0x0a4.
Definition VIRTIO_CONFIG_S_ACKNOWLEDGE : Z := 1.
Definition VIRTIO_CONFIG_S_DRIVER : Z := 2.
Definition VIRTIO_CONFIG_S_DRIVER_OK : Z := 4.
Definition VIRTIO_CONFIG_S_FEATURES_OK : Z := 8.
Definition VIRTIO_BLK_F_RO : Z := 5.
Definition VIRTIO_BLK_F_SCSI : Z := 7.
Definition VIRTIO_BLK_F_CONFIG_WCE : Z := 11.
Definition VIRTIO_BLK_F_MQ : Z := 12.
Definition VIRTIO_F_ANY_LAYOUT : Z := 27.
Definition VIRTIO_RING_F_INDIRECT_DESC : Z := 28.
Definition VIRTIO_RING_F_EVENT_IDX : Z := 29.

(** The device's registers after a write of a value to one of them. *)
Class VirtioDev := mmio_write : Z → Z → gmap Z Z → gmap Z Z.

Definition upd_vdisk (f : vdisk_state → vdisk_state) : K unit := modify (λ s, set_vdisk (f (vdisk s)) s).

(** ** The buffers of kernel/bio.c, as far as the driver touches them *)

Definition get_buf (i : nat) : K buf := gets (λ s, nth i (bufs (bcache s)) buf0).
Definition set_bufs (v : list buf) (c : bcache_state) : bcache_state :=
  Mk_bcache v (head_prev c) (head_next c).
Definition upd_buf (i : nat) (f : buf → buf) : K unit :=
  modify (λ s, set_bcache (set_bufs (alter f i (bufs (bcache s))) (bcache s)) s).

Section virtio.
Context `{L : Layout} `{Oth : Others} `{VD : VirtioDev}.

Definition vreg (r : Z) : K Z := gets (λ s, default 0 (vd_regs (vdisk s) !! r)).
Definition vreg_write (r v : Z) : K unit :=
  upd_vdisk (λ d, set_vd_regs (mmio_write r (u32 v) (vd_regs d)) d).

(** [features &= ~(1 << bit)] *)
Definition clear_bit (features bit : Z) : Z := Z.land features (u64 (Z.lnot (Z.shiftl 1 bit))).

Definition virtio_disk_init : K unit :=
  lift_cs (initlock L_vdisk "virtio_disk");;
  magic ← vreg VIRTIO_MMIO_MAGIC_VALUE;
  version ← vreg VIRTIO_MMIO_VERSION;
  devid ← vreg VIRTIO_MMIO_DEVICE_ID;
  vendor ← vreg VIRTIO_MMIO_VENDOR_ID;
  if negb (magic =? 0x74726976) || negb (version =? 2) || negb (devid =? 2) || negb (vendor =? 0x554d4551)
  then panic "could not find virtio disk"
  else
    let status := 0 in
    vreg_write VIRTIO_MMIO_STATUS status;;
    let status := Z.lor status VIRTIO_CONFIG_S_ACKNOWLEDGE in
    vreg_write VIRTIO_MMIO_STATUS status;;
    let status := Z.lor status VIRTIO_CONFIG_S_DRIVER in
    vreg_write VIRTIO_MMIO_STATUS status;;
    features ← vreg VIRTIO_MMIO_DEVICE_FEATURES;
    let features := clear_bit features VIRTIO_BLK_F_RO in
    let features := clear_bit features VIRTIO_BLK_F_SCSI in
    let features := clear_bit features VIRTIO_BLK_F_CONFIG_WCE in
    let features := clear_bit features VIRTIO_BLK_F_MQ in
    let features := clear_bit features VIRTIO_F_ANY_LAYOUT in
    let features := clear_bit features VIRTIO_RING_F_EVENT_IDX in
    let features := clear_bit features VIRTIO_RING_F_INDIRECT_DESC in
    vreg_write VIRTIO_MMIO_DRIVER_FEATURES features;;
    let status := Z.lor status VIRTIO_CONFIG_S_FEATURES_OK in
    vreg_write VIRTIO_MMIO_STATUS status;;
    status ← vreg VIRTIO_MMIO_STATUS;
    if Z.land status VIRTIO_CONFIG_S_FEATURES_OK =? 0 then panic "virtio disk FEATURES_OK unset"
    else
      vreg_write VIRTIO_MMIO_QUEUE_SEL 0;;
      ready ← vreg VIRTIO_MMIO_QUEUE_READY;
      if c_bool ready then panic "virtio disk should not be ready"
      else
        max ← vreg VIRTIO_MMIO_QUEUE_NUM_MAX;
        if max =? 0 then panic "virtio disk has no queue 0"
        else if max <? NUM then panic "virtio disk max queue too short"
        else
          desc ← kalloc;
          avail ← kalloc;
          used ← kalloc;
          if (desc =? 0) || (avail =? 0) || (used =? 0) then panic "virtio disk kalloc"
          else
            k_memset desc 0 PGSIZE;;
            k_memset avail 0 PGSIZE;;
            k_memset used 0 PGSIZE;;
            upd_vdisk (set_vd_desc (replicate 8 (Mk_virtq_desc DA_null 0 0 0)));;
            upd_vdisk (set_vd_avail_idx 0);;
            upd_vdisk (set_vd_avail_ring (replicate 8 0));;
            upd_vdisk (set_vd_used_dev_idx 0);;
            upd_vdisk (set_vd_used_ring (replicate 8 0));;
            vreg_write VIRTIO_MMIO_QUEUE_NUM NUM;;
            vreg_write VIRTIO_MMIO_QUEUE_DESC_LOW desc;;
            vreg_write VIRTIO_MMIO_QUEUE_DESC_HIGH (Z.shiftr desc 32);;
            vreg_write VIRTIO_MMIO_DRIVER_DESC_LOW avail;;
            vreg_write VIRTIO_MMIO_DRIVER_DESC_HIGH (Z.shiftr avail 32);;
            vreg_write VIRTIO_MMIO_DEVICE_DESC_LOW used;;
            vreg_write VIRTIO_MMIO_DEVICE_DESC_HIGH (Z.shiftr used 32);;
            vreg_write VIRTIO_MMIO_QUEUE_READY 1;;
            mfor (zrange 0 (Z.to_nat NUM)) (λ i, upd_vdisk (λ d, set_vd_free (setZ (vd_free d) i 1) d));;
            let status := Z.lor status VIRTIO_CONFIG_S_DRIVER_OK in
            vreg_write VIRTIO_MMIO_STATUS status.

(** ** Descriptors *)

Definition alloc_desc : K Z :=
  mfor_return (zrange 0 (Z.to_nat NUM)) (λ i,
    d ← gets vdisk;
    if c_bool (nthZ 0 (vd_free d) i) then
      upd_vdisk (λ d, set_vd_free (setZ (vd_free d) i 0) d);; mret (Some i)
    else mret None)
    (mret (-1)).

Definition desc0 : virtq_desc := Mk_virtq_desc DA_null 0 0 0.
Definition get_desc (i : Z) : K virtq_desc := gets (λ s, nthZ desc0 (vd_desc (vdisk s)) i).
Definition set_desc (i : Z) (v : virtq_desc) : K unit :=
  upd_vdisk (λ d, set_vd_desc (setZ (vd_desc d) i v) d).

Definition free_desc (i : Z) : K unit :=
  if NUM <=? i then panic "free_desc 1"
  else
    d ← gets vdisk;
    if c_bool (nthZ 0 (vd_free d) i) then panic "free_desc 2"
    else
      set_desc i (Mk_virtq_desc DA_null 0 0 0);;
      upd_vdisk (λ d, set_vd_free (setZ (vd_free d) i 1) d);;
      wakeup (Some C_disk_free).

(** [fuel] bounds the chain; [free_desc] panics if it comes back to a descriptor, so
    more than [NUM] rounds cannot happen. *)
Fixpoint free_chain_loop (fuel : nat) (i : Z) : K unit :=
  match fuel with
  | O => hang
  | S f =>
      d ← get_desc i;
      let flag := vd_flags d in
      let nxt := vd_next d in
      free_desc i;;
      if negb (Z.land flag VRING_DESC_F_NEXT =? 0) then free_chain_loop f nxt else mret tt
  end.
Definition free_chain (i : Z) : K unit := free_chain_loop (S (Z.to_nat NUM)) i.

(** [alloc3_desc]: [Some idx], or [None] for -1. *)
Definition alloc3_desc : K (option (Z * Z * Z)) :=
  i0 ← alloc_desc;
  if i0 <? 0 then mret None
  else
    i1 ← alloc_desc;
    if i1 <? 0 then free_desc i0;; mret None
    else
      i2 ← alloc_desc;
      if i2 <? 0 then free_desc i0;; free_desc i1;; mret None
      else mret (Some (i0, i1, i2)).

(** ** Requests *)

Fixpoint alloc3_wait (fuel : nat) : K (Z * Z * Z) :=
  match fuel with
  | O => hang
  | S f =>
      r ← alloc3_desc;
      match r with
      | Some idx => mret idx
      | None => sleep C_disk_free L_vdisk;; alloc3_wait f
      end
  end.

(** Formats the three descriptors of a request and hands it to the device. *)
Definition disk_submit (b : nat) (write : bool) (idx : Z * Z * Z) : K unit :=
  let '(i0, i1, i2) := idx in
  bf ← get_buf b;
  let sector := u64 (u32 (b_blockno bf * (BSIZE / 512))) in
  upd_vdisk (λ d, set_vd_ops
    (setZ (vd_ops d) i0 (Mk_blk_req (if write then VIRTIO_BLK_T_OUT else VIRTIO_BLK_T_IN) 0 sector)) d);;
  set_desc i0 (Mk_virtq_desc (DA_ops i0) sizeof_virtio_blk_req VRING_DESC_F_NEXT i1);;
  set_desc i1 (Mk_virtq_desc (DA_data b) BSIZE
                 (Z.lor (if write then 0 else VRING_DESC_F_WRITE) VRING_DESC_F_NEXT) i2);;
  upd_vdisk (λ d, set_vd_info_status (setZ (vd_info_status d) i0 0xff) d);;
  set_desc i2 (Mk_virtq_desc (DA_status i0) 1 VRING_DESC_F_WRITE 0);;
  upd_buf b (set_b_disk 1);;
  upd_vdisk (λ d, set_vd_info_b (setZ (vd_info_b d) i0 (Some b)) d);;
  upd_vdisk (λ d, set_vd_avail_ring (setZ (vd_avail_ring d) (vd_avail_idx d mod NUM) i0) d);;
  upd_vdisk (λ d, set_vd_avail_idx (u16 (vd_avail_idx d + 1)) d);;
  vreg_write VIRTIO_MMIO_QUEUE_NOTIFY 0.

(** [while(b->disk == 1) sleep(b, &disk.vdisk_lock);] *)
Fixpoint disk_wait (fuel : nat) (b : nat) : K unit :=
  match fuel with
  | O => hang
  | S f =>
      bf ← get_buf b;
      if b_disk bf =? 1 then
        sleep (C_buf b) L_vdisk;;
        disk_wait f b
      else mret tt
  end.

Definition virtio_disk_rw (b : nat) (write : bool) : K unit :=
  lift_cs (acquire L_vdisk);;
  n ← gets sched_left;
  idx ← alloc3_wait (S n);
  disk_submit b write idx;;
  n ← gets sched_left;
  disk_wait (S n) b;;
  let '(i0, _, _) := idx in
  upd_vdisk (λ d, set_vd_info_b (setZ (vd_info_b d) i0 None) d);;
  free_chain i0;;
  lift_cs (release L_vdisk).

Fixpoint disk_intr_loop (fuel : nat) : K unit :=
  match fuel with
  | O => hang
  | S f =>
      d ← gets vdisk;
      if vd_used_idx d =? vd_used_dev_idx d then mret tt
      else
        let id := nthZ 0 (vd_used_ring d) (vd_used_idx d mod NUM) in
        if negb (nthZ 0 (vd_info_status d) id =? 0) then panic "virtio_disk_intr status"
        else
          b ← deref (nthZ None (vd_info_b d) id);
          upd_buf b (set_b_disk 0);;
          wakeup (Some (C_buf b));;
          upd_vdisk (λ d, set_vd_used_idx (u16 (vd_used_idx d + 1)) d);;
          disk_intr_loop f
  end.
Definition virtio_disk_intr : K unit :=
  lift_cs (acquire L_vdisk);;
  st ← vreg VIRTIO_MMIO_INTERRUPT_STATUS;
  vreg_write VIRTIO_MMIO_INTERRUPT_ACK (Z.land st 3);;
  d ← gets vdisk;
  disk_intr_loop (S (Z.to_nat (u16 (vd_used_dev_idx d - vd_used_idx d))));;
  lift_cs (release L_vdisk).
End virtio.
