(* ===== verification/VirtioProofs.v ===== *)
(** * What the disk driver does: proofs about kernel/virtio_disk.c

    A request goes from [virtio_disk_rw] through the descriptor table and the rings to
    the device and comes back through [virtio_disk_intr], which wakes the sleeping
    process up. [DiskEnv] is what is assumed of the rest of the machine while the
    process sleeps: the scheduler goes on, the device serves the request as the virtio
    specification says if it was notified and the descriptors have the lengths and flags
    of a block request, its interrupt runs [virtio_disk_intr], and the scheduler switches
    back to the process if that has made it RUNNABLE. *)

From S2P Require Import Prelude Machine State Spinlock KString Kalloc Vm Proc Sched Sleeplock Virtio.

(** ** States of the block layer *)

(** The state [s] with the components that the block layer changes. *)
Definition kst (c : cstate) (t : list proc) (bc : bcache_state) (vd : vdisk_state) (n : nat) (s : kstate) : kstate :=
  set_cs c (set_proc_tab t (set_bcache bc (set_vdisk vd (set_sched_left n s)))).

Lemma kst_id s : s = kst (cs s) (proc_tab s) (bcache s) (vdisk s) (sched_left s) s.
Proof. by destruct s. Qed.

(** ** The device *)

Definition zero_block : list Z := replicate (Z.to_nat BSIZE) 0.

(** The contents of a block of the disk. *)
Definition block_of (d : vdisk_state) (b : Z) : list Z := default zero_block (vd_blocks d !! b).

(** Its registers when it has done a request: the notification is used up, and an interrupt
    is pending. *)
Definition dev_regs (m : gmap Z Z) : gmap Z Z :=
  <[VIRTIO_MMIO_INTERRUPT_STATUS := Z.lor (default 0 (m !! VIRTIO_MMIO_INTERRUPT_STATUS)) 1]> (delete VIRTIO_MMIO_QUEUE_NOTIFY m).

(** The device has done the request at the head [h] of a descriptor chain: its status is
    0 and it is in the used ring. *)
Definition dev_done (h st : Z) (d : vdisk_state) : vdisk_state :=
  let d := set_vd_info_status (setZ (vd_info_status d) st 0) d in
  let d := set_vd_used_ring (setZ (vd_used_ring d) (vd_used_dev_idx d mod NUM) h) d in
  let d := set_vd_regs (dev_regs (vd_regs d)) d in
  set_vd_used_dev_idx (u16 (vd_used_dev_idx d + 1)) d.

Definition dev_store (blk : Z) (data : list Z) (d : vdisk_state) : vdisk_state :=
  set_vd_hist (vd_hist d ++ [(blk, data)]) (set_vd_blocks (<[blk := data]> (vd_blocks d)) d).

(** A block request of the virtio specification has three descriptors: a header that the
    device reads, the data, which it reads or writes, and a status that it writes. *)
Definition has_flag (f : Z) (d : virtq_desc) : bool := negb (Z.land (vd_flags d) f =? 0).
Definition chain_ok (write : bool) (d0 d1 d2 : virtq_desc) : bool :=
  (vd_len d0 =? sizeof_virtio_blk_req) && has_flag VRING_DESC_F_NEXT d0 && negb (has_flag VRING_DESC_F_WRITE d0) &&
  (vd_len d1 =? BSIZE) && has_flag VRING_DESC_F_NEXT d1 && Bool.eqb (has_flag VRING_DESC_F_WRITE d1) (negb write) &&
  (vd_len d2 =? 1) && negb (has_flag VRING_DESC_F_NEXT d2) && has_flag VRING_DESC_F_WRITE d2.

(** What the device does with the next request in the available ring when it has been
    notified of the queue 0. Nothing is assumed of what it does without a notification or a
    request, or with one that is not as specified or not for a whole block: [None]. *)
Definition dev_serve (s : kstate) : option kstate :=
  let d := vdisk s in
  if negb (bool_decide (vd_regs d !! VIRTIO_MMIO_QUEUE_NOTIFY = Some 0)) || (vd_used_dev_idx d =? vd_avail_idx d) then None
  else
    let h := nthZ 0 (vd_avail_ring d) (vd_used_dev_idx d mod NUM) in
    let d0 := nthZ desc0 (vd_desc d) h in
    let d1 := nthZ desc0 (vd_desc d) (vd_next d0) in
    let d2 := nthZ desc0 (vd_desc d) (vd_next d1) in
    match vd_addr d0, vd_addr d1, vd_addr d2 with
    | DA_ops o, DA_data b, DA_status st =>
        let rq := nthZ (Mk_blk_req 0 0 0) (vd_ops d) o in
        let blk := rq_sector rq / (BSIZE / 512) in
        if negb (rq_sector rq mod (BSIZE / 512) =? 0) then None
        else if (rq_type rq =? VIRTIO_BLK_T_OUT) && chain_ok true d0 d1 d2 then
          Some (set_vdisk (dev_done h st (dev_store blk (b_data (nth b (bufs (bcache s)) buf0)) d)) s)
        else if (rq_type rq =? VIRTIO_BLK_T_IN) && chain_ok false d0 d1 d2 then
          Some (set_bcache (set_bufs (alter (set_b_data (block_of d blk)) b (bufs (bcache s))) (bcache s))
            (set_vdisk (dev_done h st d) s))
        else None
    | _, _, _ => None
    end.
Definition dev_run : K unit := λ s, match dev_serve s with Some s' => Ret tt s' | None => Hang end.

(** The registers of the device: a notification stays until the device has seen it, an
    acknowledgement takes back the interrupts that it names. *)
Class DevLaws `{VD : VirtioDev} : Prop := {
  dl_notify v m : mmio_write VIRTIO_MMIO_QUEUE_NOTIFY v m !! VIRTIO_MMIO_QUEUE_NOTIFY = Some v;
  dl_notify_int v m :
    mmio_write VIRTIO_MMIO_QUEUE_NOTIFY v m !! VIRTIO_MMIO_INTERRUPT_STATUS = m !! VIRTIO_MMIO_INTERRUPT_STATUS;
  dl_ack v m : mmio_write VIRTIO_MMIO_INTERRUPT_ACK v m !! VIRTIO_MMIO_QUEUE_NOTIFY = m !! VIRTIO_MMIO_QUEUE_NOTIFY;
  dl_ack_int v m :
    default 0 (mmio_write VIRTIO_MMIO_INTERRUPT_ACK v m !! VIRTIO_MMIO_INTERRUPT_STATUS)
    = Z.land (default 0 (m !! VIRTIO_MMIO_INTERRUPT_STATUS)) (Z.lnot v)
}.

Section service.
Context `{L : Layout} `{Oth : Others} `{VD : VirtioDev}.

(** The rest of the machine while process [p] waits for the disk. The first two lines
    are the end of the scheduler's loop body for [p], the last five its beginning. *)
Definition disk_service (p : nat) : K unit :=
  lift_cs (upd_mycpu (set_cpu_proc None));;
  lift_cs (release (L_proc p));;
  dev_run;;
  virtio_disk_intr;;
  lift_cs (acquire (L_proc p));;
  pr ← get_proc p;
  if decide (p_state pr = RUNNABLE) then
    upd_proc p (set_p_state RUNNING);;
    lift_cs (upd_mycpu (set_cpu_proc (Some p)))
  else hang.

Class DiskEnv : Prop := {
  disk_dev :: DevLaws;
  disk_env n s s' p b :
    cur_proc s = Some p → p_state (nth p (proc_tab s) proc0) = SLEEPING →
    p_chan (nth p (proc_tab s) proc0) = Some (C_buf b) →
    disk_service p s = Ret tt s' → others n s = s'
}.
End service.

(** ** A driver without requests *)

Record vd_ready (d : vdisk_state) : Prop := {
  vr_free : vd_free d = replicate 8 1;
  vr_desc : length (vd_desc d) = 8%nat;
  vr_avail : length (vd_avail_ring d) = 8%nat;
  vr_used : length (vd_used_ring d) = 8%nat;
  vr_info_b : length (vd_info_b d) = 8%nat;
  vr_status : length (vd_info_status d) = 8%nat;
  vr_ops : length (vd_ops d) = 8%nat;
  vr_idx : vd_used_dev_idx d = vd_used_idx d;
  vr_range : 0 ≤ vd_used_idx d < 2 ^ 16;
  vr_avail_idx : vd_avail_idx d = vd_used_idx d;
  vr_quiet : vd_regs d !! VIRTIO_MMIO_QUEUE_NOTIFY = None;
  vr_no_intr : default 0 (vd_regs d !! VIRTIO_MMIO_INTERRUPT_STATUS) = 0
}.

(** ** Descriptors *)

Lemma alloc_desc_eq s i :
  0 ≤ i < NUM → (∀ j, 0 ≤ j < i → nthZ 0 (vd_free (vdisk s)) j = 0) → nthZ 0 (vd_free (vdisk s)) i ≠ 0 →
  alloc_desc s = Ret i (set_vdisk (set_vd_free (setZ (vd_free (vdisk s)) i 0) (vdisk s)) s).
Proof.
  intros Hi Hz Hnz. unfold alloc_desc.
  cut (∀ k a, 0 ≤ a ≤ i → a + Z.of_nat k = NUM →
    mfor_return (zrange a k) (λ i, d ← gets vdisk;
      if c_bool (nthZ 0 (vd_free d) i) then
        upd_vdisk (λ d, set_vd_free (setZ (vd_free d) i 0) d);; mret (Some i)
      else mret None) (mret (-1)) s
    = Ret i (set_vdisk (set_vd_free (setZ (vd_free (vdisk s)) i 0) (vdisk s)) s)).
  { intros H. apply H; [lia|done]. }
  induction k as [|k IH]; intros a Ha Hk; [lia|]. cbn [zrange mfor_return].
  destruct (decide (a = i)) as [->|Hne].
  - erewrite bind_ret.
    2:{ erewrite bind_ret; [|reflexivity]. unfold c_bool. apply Z.eqb_neq in Hnz. rewrite Hnz. reflexivity. }
    reflexivity.
  - erewrite bind_ret.
    2:{ erewrite bind_ret; [|reflexivity]. rewrite (Hz a) by lia. reflexivity. }
    cbn beta iota. apply IH; lia.
Qed.

(** The three descriptors that a driver without requests hands out. *)
Definition vd_three (d : vdisk_state) : vdisk_state := set_vd_free [0; 0; 0; 1; 1; 1; 1; 1] d.

Lemma alloc3_eq s :
  vd_free (vdisk s) = replicate 8 1 → alloc3_desc s = Ret (Some (0, 1, 2)) (set_vdisk (vd_three (vdisk s)) s).
Proof.
  intros Hf. unfold alloc3_desc.
  erewrite bind_ret; [|apply (alloc_desc_eq s 0); [done|lia|by rewrite Hf]].
  rewrite Hf. cbn [Z.ltb Z.compare].
  erewrite bind_ret; [|apply (alloc_desc_eq _ 1); [done| |done]].
  2:{ intros j Hj. by replace j with 0 by lia. }
  cbn [Z.ltb Z.compare].
  erewrite bind_ret; [|apply (alloc_desc_eq _ 2); [done| |done]].
  2:{ intros j Hj. destruct (decide (j = 0)) as [->|]; [done|]. by replace j with 1 by lia. }
  cbn [Z.ltb Z.compare]. by destruct s.
Qed.

Lemma alloc3_wait_eq `{L : Layout} `{Oth : Others} f s :
  vd_free (vdisk s) = replicate 8 1 → alloc3_wait (S f) s = Ret (0, 1, 2) (set_vdisk (vd_three (vdisk s)) s).
Proof.
  intros Hf. cbn [alloc3_wait]. erewrite bind_ret; [|by apply alloc3_eq]. done.
Qed.

(** ** A request *)

Section request.
Context `{L : Layout} `{Oth : Others} `{VD : VirtioDev}.

(** The steps of [disk_submit]. *)
Definition vd_put_op (i : Z) (r : virtio_blk_req) (d : vdisk_state) : vdisk_state :=
  set_vd_ops (setZ (vd_ops d) i r) d.
Definition vd_put_desc (i : Z) (v : virtq_desc) (d : vdisk_state) : vdisk_state :=
  set_vd_desc (setZ (vd_desc d) i v) d.
Definition vd_put_status (i st : Z) (d : vdisk_state) : vdisk_state :=
  set_vd_info_status (setZ (vd_info_status d) i st) d.
Definition vd_put_info (i : Z) (b : option nat) (d : vdisk_state) : vdisk_state :=
  set_vd_info_b (setZ (vd_info_b d) i b) d.
Definition vd_put_avail (h : Z) (d : vdisk_state) : vdisk_state :=
  set_vd_avail_ring (setZ (vd_avail_ring d) (vd_avail_idx d mod NUM) h) d.
Definition vd_bump_avail (d : vdisk_state) : vdisk_state :=
  set_vd_avail_idx (u16 (vd_avail_idx d + 1)) d.
Definition vd_reg (r v : Z) (d : vdisk_state) : vdisk_state :=
  set_vd_regs (mmio_write r (u32 v) (vd_regs d)) d.

Definition req_op (write : bool) (blockno : Z) : virtio_blk_req :=
  Mk_blk_req (if write then VIRTIO_BLK_T_OUT else VIRTIO_BLK_T_IN) 0 (u64 (u32 (blockno * (BSIZE / 512)))).
Definition req_desc0 : virtq_desc := Mk_virtq_desc (DA_ops 0) sizeof_virtio_blk_req VRING_DESC_F_NEXT 1.
Definition req_desc1 (b : nat) (write : bool) : virtq_desc :=
  Mk_virtq_desc (DA_data b) BSIZE (Z.lor (if write then 0 else VRING_DESC_F_WRITE) VRING_DESC_F_NEXT) 2.
Definition req_desc2 : virtq_desc := Mk_virtq_desc (DA_status 0) 1 VRING_DESC_F_WRITE 0.

(** The driver's state after [disk_submit] on the descriptors 0, 1, 2. *)
Definition vd_submit (b : nat) (write : bool) (blockno : Z) (d : vdisk_state) : vdisk_state :=
  vd_reg VIRTIO_MMIO_QUEUE_NOTIFY 0 (vd_bump_avail (vd_put_avail 0 (vd_put_info 0 (Some b)
    (vd_put_desc 2 req_desc2 (vd_put_status 0 0xff (vd_put_desc 1 (req_desc1 b write)
      (vd_put_desc 0 req_desc0 (vd_put_op 0 (req_op write blockno) d)))))))).

(** The buffers with one of them changed. *)
Definition bc_alter (f : buf → buf) (b : nat) (bc : bcache_state) : bcache_state :=
  set_bufs (alter f b (bufs bc)) bc.

Lemma upd_vdisk_kst f c t bc vd n s : upd_vdisk f (kst c t bc vd n s) = Ret tt (kst c t bc (f vd) n s).
Proof. reflexivity. Qed.
Lemma upd_buf_kst f b c t bc vd n s :
  upd_buf b f (kst c t bc vd n s) = Ret tt (kst c t (bc_alter f b bc) vd n s).
Proof. reflexivity. Qed.
Lemma set_desc_kst i v c t bc vd n s :
  set_desc i v (kst c t bc vd n s) = Ret tt (kst c t bc (vd_put_desc i v vd) n s).
Proof. reflexivity. Qed.
Lemma vreg_write_kst r v c t bc vd n s :
  vreg_write r v (kst c t bc vd n s) = Ret tt (kst c t bc (vd_reg r v vd) n s).
Proof. reflexivity. Qed.
Lemma vdisk_kst c t bc vd n s : vdisk (kst c t bc vd n s) = vd.
Proof. reflexivity. Qed.
Lemma bcache_kst c t bc vd n s : bcache (kst c t bc vd n s) = bc.
Proof. reflexivity. Qed.

Ltac kstep l := erewrite bind_ret; [|eapply l].

Lemma disk_submit_eq b write c t bc vd n s :
  disk_submit b write (0, 1, 2) (kst c t bc vd n s)
  = Ret tt (kst c t (bc_alter (set_b_disk 1) b bc)
      (vd_submit b write (b_blockno (nth b (bufs bc) buf0)) vd) n s).
Proof.
  unfold disk_submit. erewrite bind_ret; [|reflexivity]. cbv zeta.
  kstep (upd_vdisk_kst (vd_put_op 0 (req_op write (b_blockno (nth b (bufs bc) buf0))))).
  kstep (set_desc_kst 0 req_desc0).
  kstep (set_desc_kst 1 (req_desc1 b write)).
  kstep (upd_vdisk_kst (vd_put_status 0 0xff)).
  kstep (set_desc_kst 2 req_desc2).
  kstep upd_buf_kst.
  kstep (upd_vdisk_kst (vd_put_info 0 (Some b))).
  kstep (upd_vdisk_kst (vd_put_avail 0)).
  kstep (upd_vdisk_kst vd_bump_avail).
  apply vreg_write_kst.
Qed.

(** A driver with one request, at the head 0. *)
Record inflight (b : nat) (write : bool) (blk : Z) (d d1 : vdisk_state) : Prop := {
  if_free : vd_free d1 = [0; 0; 0; 1; 1; 1; 1; 1];
  if_desc_len : length (vd_desc d1) = 8%nat;
  if_desc0 : nthZ desc0 (vd_desc d1) 0 = req_desc0;
  if_desc1 : nthZ desc0 (vd_desc d1) 1 = req_desc1 b write;
  if_desc2 : nthZ desc0 (vd_desc d1) 2 = req_desc2;
  if_ops_len : length (vd_ops d1) = 8%nat;
  if_op : nthZ (Mk_blk_req 0 0 0) (vd_ops d1) 0 = req_op write blk;
  if_avail_len : length (vd_avail_ring d1) = 8%nat;
  if_avail : nthZ 0 (vd_avail_ring d1) (vd_used_idx d mod NUM) = 0;
  if_avail_idx : vd_avail_idx d1 = u16 (vd_used_idx d + 1);
  if_range : 0 ≤ vd_used_idx d < 2 ^ 16;
  if_notify : vd_regs d1 !! VIRTIO_MMIO_QUEUE_NOTIFY = Some 0;
  if_no_intr : default 0 (vd_regs d1 !! VIRTIO_MMIO_INTERRUPT_STATUS) = 0;
  if_info_len : length (vd_info_b d1) = 8%nat;
  if_info : nthZ None (vd_info_b d1) 0 = Some b;
  if_status_len : length (vd_info_status d1) = 8%nat;
  if_used_len : length (vd_used_ring d1) = 8%nat;
  if_used_dev : vd_used_dev_idx d1 = vd_used_idx d;
  if_used_idx : vd_used_idx d1 = vd_used_idx d;
  if_blocks : vd_blocks d1 = vd_blocks d;
  if_hist : vd_hist d1 = vd_hist d
}.

Lemma submit_inflight {DL : DevLaws} b write blk d :
  vd_ready d → inflight b write blk d (vd_submit b write blk (vd_three d)).
Proof.
  intros R. pose proof (vr_avail_idx _ R) as Hai. pose proof (vr_desc _ R) as Hd.
  unfold vd_submit, vd_reg, vd_bump_avail, vd_put_avail, vd_put_info, vd_put_desc, vd_put_status, vd_put_op, vd_three.
  split; cbn [vd_free vd_desc vd_ops vd_avail_ring vd_avail_idx vd_info_b vd_info_status vd_used_ring
      vd_used_dev_idx vd_used_idx vd_blocks vd_hist vd_regs set_vd_regs set_vd_avail_idx set_vd_avail_ring
      set_vd_info_b set_vd_desc set_vd_info_status set_vd_ops set_vd_free];
    rewrite ?setZ_length; try apply R; try done.
  - rewrite !nthZ_setZ_ne by done. apply nthZ_setZ_eq. lia.
  - rewrite nthZ_setZ_ne by done. apply nthZ_setZ_eq. rewrite setZ_length. lia.
  - apply nthZ_setZ_eq. rewrite !setZ_length. lia.
  - apply nthZ_setZ_eq. rewrite (vr_ops _ R). lia.
  - rewrite Hai. apply nthZ_setZ_eq. rewrite (vr_avail _ R). unfold NUM. pose proof (Z.mod_pos_bound (vd_used_idx d) 8). lia.
  - by rewrite Hai.
  - apply dl_notify.
  - rewrite dl_notify_int. apply R.
  - apply nthZ_setZ_eq. rewrite (vr_info_b _ R). lia.
Qed.

Lemma u16_succ_ne u : 0 ≤ u < 2 ^ 16 → u16 (u + 1) ≠ u.
Proof. intros H. unfold u16. dlia. Qed.
Lemma u16_succ_sub u : 0 ≤ u < 2 ^ 16 → u16 (u16 (u + 1) - u) = 1.
Proof. intros H. unfold u16. dlia. Qed.

(** The device finds the request. *)
Lemma dev_serve_eq b write blk c t bc d d1 n s :
  inflight b write blk d d1 → 0 ≤ blk < 2 ^ 31 →
  dev_serve (kst c t bc d1 n s)
  = Some (if write
    then kst c t bc (dev_done 0 0 (dev_store blk (b_data (nth b (bufs bc) buf0)) d1)) n s
    else kst c t (bc_alter (set_b_data (block_of d blk)) b bc) (dev_done 0 0 d1) n s).
Proof.
  intros F Hblk. unfold dev_serve. rewrite !vdisk_kst, !bcache_kst. cbv zeta.
  rewrite (if_notify _ _ _ _ _ F), bool_decide_true by done. rewrite (if_used_dev _ _ _ _ _ F), (if_avail_idx _ _ _ _ _ F).
  rewrite (proj2 (Z.eqb_neq _ _)) by (intros E; by apply (u16_succ_ne (vd_used_idx d)); [apply F|]). cbn [negb orb].
  rewrite (if_avail _ _ _ _ _ F), (if_desc0 _ _ _ _ _ F). cbn [req_desc0 vd_next vd_addr].
  rewrite (if_desc1 _ _ _ _ _ F). cbn [req_desc1 vd_next vd_addr].
  rewrite (if_desc2 _ _ _ _ _ F). cbn [req_desc2 vd_next vd_addr].
  rewrite (if_op _ _ _ _ _ F). cbn [req_op rq_type rq_sector].
  assert (u64 (u32 (blk * (BSIZE / 512))) = blk * 2) as ->.
  { change (BSIZE / 512) with 2. unfold u64, u32. rewrite (Z.mod_small (blk * 2)) by lia. by rewrite Z.mod_small by lia. }
  change (BSIZE / 512) with 2. rewrite Z.mod_mul, Z.div_mul by lia. cbn [Z.eqb negb].
  unfold block_of. rewrite (if_blocks _ _ _ _ _ F). by destruct write.
Qed.

Lemma acquire_kst m l c t bc vd n s :
  cs_ok m c → lock_free l c →
  lift_cs (acquire l) (kst c t bc vd n s) = Ret tt (kst (taken l c) t bc vd n s).
Proof. intros Hc Hl. by rewrite (k_acquire m l). Qed.
Lemma release_kst m l c t bc vd n s :
  cs_ok m c → lock_free l c →
  lift_cs (release l) (kst (taken l c) t bc vd n s) = Ret tt (kst c t bc vd n s).
Proof. intros Hc Hl. by rewrite (k_release m l c). Qed.
Lemma wakeup_kst m ch c t bc vd n s :
  cs_ok m c → procs_free (cpu_proc (cur_cpu c)) c → length t = Z.to_nat NPROC →
  wakeup ch (kst c t bc vd n s) = Ret tt (kst c (woken ch (cpu_proc (cur_cpu c)) t) bc vd n s).
Proof. intros Hc Hf Hl. by rewrite (wakeup_eq m). Qed.

Lemma cpu_proc_taken m l c : cs_ok m c → cpu_proc (cur_cpu (taken l c)) = cpu_proc (cur_cpu c).
Proof. intros Hc. by apply (cur_proc_taken m l c (set_cs (taken l c) (kstate0 0))). Qed.

(** A request that the device has done. *)
Record completed (b : nat) (u : Z) (d : vdisk_state) : Prop := {
  cp_idx : vd_used_idx d = u;
  cp_dev : vd_used_dev_idx d = u16 (u + 1);
  cp_ring : nthZ 0 (vd_used_ring d) (u mod NUM) = 0;
  cp_status : nthZ 0 (vd_info_status d) 0 = 0;
  cp_info : nthZ None (vd_info_b d) 0 = Some b
}.

Definition vd_bump_used (d : vdisk_state) : vdisk_state := set_vd_used_idx (u16 (vd_used_idx d + 1)) d.

(** The state of the driver after the interrupt for [d]. *)
Definition vd_intr (d : vdisk_state) : vdisk_state :=
  vd_bump_used (vd_reg VIRTIO_MMIO_INTERRUPT_ACK
    (Z.land (default 0 (vd_regs d !! VIRTIO_MMIO_INTERRUPT_STATUS)) 3) d).

Lemma disk_intr_eq m b u c t bc d n s :
  cs_ok m c → m < 2 ^ 31 - 2 → lock_free L_vdisk c → procs_free (cpu_proc (cur_cpu c)) c →
  length t = Z.to_nat NPROC → completed b u d → 0 ≤ u < 2 ^ 16 →
  virtio_disk_intr (kst c t bc d n s)
  = Ret tt (kst c (woken (Some (C_buf b)) (cpu_proc (cur_cpu c)) t) (bc_alter (set_b_disk 0) b bc) (vd_intr d) n s).
Proof.
  intros Hc Hm Hl Hf Ht C Hu. unfold virtio_disk_intr.
  kstep (acquire_kst m); [|done|done].
  erewrite bind_ret; [|reflexivity]. rewrite vdisk_kst.
  kstep vreg_write_kst. erewrite bind_ret; [|reflexivity]. rewrite vdisk_kst.
  cbn [vd_reg set_vd_regs vd_used_dev_idx vd_used_idx].
  rewrite (cp_dev _ _ _ C), (cp_idx _ _ _ C), (u16_succ_sub u Hu).
  change (S (Z.to_nat 1)) with 2%nat.
  set (d1 := vd_reg _ _ d).
  assert (vd_used_idx d1 = u) as H1 by apply C. assert (vd_used_dev_idx d1 = u16 (u + 1)) as H2 by apply C.
  erewrite bind_ret.
  2:{ cbn [disk_intr_loop]. erewrite bind_ret; [|reflexivity]. rewrite vdisk_kst, H1, H2.
      rewrite (proj2 (Z.eqb_neq _ _)) by (intros E; by apply (u16_succ_ne u)).
      change (vd_used_ring d1) with (vd_used_ring d). rewrite (cp_ring _ _ _ C).
      change (vd_info_status d1) with (vd_info_status d). rewrite (cp_status _ _ _ C). cbn [Z.eqb negb].
      change (vd_info_b d1) with (vd_info_b d). rewrite (cp_info _ _ _ C).
      erewrite bind_ret; [|reflexivity]. kstep upd_buf_kst.
      kstep (wakeup_kst (m + 1)); [|apply (taken_ok Hc); lia| |done].
      2:{ rewrite (cpu_proc_taken m) by done. by apply procs_free_taken. }
      kstep (upd_vdisk_kst vd_bump_used). erewrite bind_ret; [|reflexivity].
      rewrite vdisk_kst. unfold vd_bump_used at 1 2. cbn [set_vd_used_idx vd_used_idx vd_used_dev_idx].
      rewrite H1, H2, Z.eqb_refl. reflexivity. }
  rewrite (cpu_proc_taken m) by done. by rewrite (release_kst m).
Qed.

(** ** The process that runs on the current hart *)

Definition on_cpu (v : option nat) (c : cstate) : cstate :=
  set_cpus (setZ (cpus c) (tp c) (set_cpu_proc v (cur_cpu c))) c.

Section on_cpu.
Context {m : Z} {c : cstate} (Hc : cs_ok m c).

Lemma on_cpu_cur v : cur_cpu (on_cpu v c) = set_cpu_proc v (cur_cpu c).
Proof. unfold cur_cpu at 1. cbn. apply (nthZ_pushed Hc). Qed.

Lemma on_cpu_ok v : cs_ok m (on_cpu v c).
Proof.
  destruct Hc as []. split; rewrite ?on_cpu_cur; try done. cbn. by rewrite setZ_length.
Qed.

Lemma on_cpu_again v v' : on_cpu v' (on_cpu v c) = on_cpu v' c.
Proof.
  unfold on_cpu at 1. rewrite on_cpu_cur. unfold on_cpu. cbn [cpus tp set_cpus].
  rewrite (setZ_setZ Hc). reflexivity.
Qed.

Lemma on_cpu_same : on_cpu (cpu_proc (cur_cpu c)) c = c.
Proof.
  unfold on_cpu. replace (set_cpu_proc _ _) with (cur_cpu c) by by destruct (cur_cpu c).
  rewrite (setZ_cur Hc). by destruct c.
Qed.

Lemma upd_cpu_proc_taken l v : upd_mycpu (set_cpu_proc v) (taken l c) = Ret tt (taken l (on_cpu v c)).
Proof.
  unfold upd_mycpu, modify. cbv zeta. change (tp (taken l c)) with (tp c). rewrite (tp_s32 Hc).
  change (nthZ cpu0 (cpus (taken l c)) (tp c)) with (cur_cpu (pushed c)). rewrite (pushed_cur Hc).
  unfold taken. rewrite on_cpu_cur. cbn [set_cpus locks cpus tp sstatus on_cpu].
  rewrite !(setZ_setZ Hc). cbn [noff set_cpu_proc].
  rewrite (cs_noff _ _ Hc). reflexivity.
Qed.
End on_cpu.

Lemma lock_free_on_cpu l v c : lock_free l c → lock_free l (on_cpu v c).
Proof. by intros [name H]; exists name. Qed.
Lemma procs_free_on_cpu me v c : procs_free me c → procs_free me (on_cpu v c).
Proof. intros Hf p Hp Hne. by apply lock_free_on_cpu, Hf. Qed.

Lemma upd_cpu_proc_kst m l v c t bc vd n s :
  cs_ok m c →
  lift_cs (upd_mycpu (set_cpu_proc v)) (kst (taken l c) t bc vd n s) = Ret tt (kst (taken l (on_cpu v c)) t bc vd n s).
Proof. intros Hc. unfold lift_cs. change (cs (kst _ _ _ _ _ _)) with (taken l c). by rewrite (upd_cpu_proc_taken Hc). Qed.

(** The rest of the machine, while [p] waits for the request. *)
Lemma disk_service_eq p q b u c t bc d bc2 d2 n s :
  cs_ok 0 c → cpu_proc (cur_cpu c) = Some p → procs_free None c → lock_free L_vdisk c →
  length t = Z.to_nat NPROC → t !! p = Some q → p_state q = SLEEPING → p_chan q = Some (C_buf b) →
  (∀ c, dev_serve (kst c t bc d n s) = Some (kst c t bc2 d2 n s)) → completed b u d2 → 0 ≤ u < 2 ^ 16 →
  ∃ t', disk_service p (kst (taken (L_proc p) c) t bc d n s)
        = Ret tt (kst (taken (L_proc p) c) t' (bc_alter (set_b_disk 0) b bc2) (vd_intr d2) n s) ∧
    length t' = Z.to_nat NPROC ∧ t' !! p = Some (set_p_state RUNNING q).
Proof.
  intros Hc Hp Hf Hv Ht Hq Hst Hch Hdev C Hu. unfold disk_service.
  assert (p < Z.to_nat NPROC)%nat as Hlt by (rewrite <- Ht; by eapply lookup_lt_Some).
  pose proof (on_cpu_ok Hc None) as Hc0. pose proof (on_cpu_cur Hc None) as Hcur.
  kstep (upd_cpu_proc_kst 0 (L_proc p) None); [|done].
  kstep (release_kst 0); [|done|by apply lock_free_on_cpu, Hf].
  erewrite bind_ret; [|unfold dev_run; rewrite Hdev; reflexivity].
  kstep (disk_intr_eq 0 b u); try done.
  2:{ rewrite Hcur. by apply procs_free_on_cpu. }
  rewrite Hcur. cbn [cpu_proc set_cpu_proc].
  kstep (acquire_kst 0); [|done|by apply lock_free_on_cpu, Hf].
  set (t2 := woken (Some (C_buf b)) None t).
  assert (t2 !! p = Some (set_p_state RUNNABLE q)) as Hq2.
  { unfold t2, woken. rewrite list_lookup_imap, Hq. cbn. unfold wake_at, wake. rewrite decide_False by done.
    by rewrite decide_True. }
  assert (length t2 = Z.to_nat NPROC) as Ht2 by (unfold t2, woken; by rewrite length_imap).
  erewrite bind_ret; [|reflexivity].
  change (proc_tab (kst (taken (L_proc p) (on_cpu None c)) t2 (bc_alter (set_b_disk 0) b bc2) (vd_intr d2) n s)) with t2.
  rewrite (nth_lookup_Some _ _ proc0 _ Hq2). rewrite decide_True by done.
  erewrite bind_ret; [|apply upd_proc_eq; change (p < length t2)%nat; by rewrite Ht2].
  change (proc_tab (kst (taken (L_proc p) (on_cpu None c)) t2 (bc_alter (set_b_disk 0) b bc2) (vd_intr d2) n s)) with t2.
  rewrite (nth_lookup_Some _ _ proc0 _ Hq2).
  exists (<[p := set_p_state RUNNING q]> t2). split_and!.
  - change (set_proc_tab (<[p := set_p_state RUNNING (set_p_state RUNNABLE q)]> t2) (kst _ _ _ _ _ _))
      with (kst (taken (L_proc p) (on_cpu None c)) (<[p := set_p_state RUNNING q]> t2)
              (bc_alter (set_b_disk 0) b bc2) (vd_intr d2) n s).
    rewrite (upd_cpu_proc_kst 0) by done. rewrite (on_cpu_again Hc), <- Hp, (on_cpu_same Hc). done.
  - by rewrite length_insert.
  - rewrite list_lookup_insert_eq; [done|by rewrite Ht2].
Qed.

Lemma nth_alter_eq {A} (f : A → A) (l : list A) i d :
  (i < length l)%nat → nth i (alter f i l) d = f (nth i l d).
Proof. intros Hi. rewrite (alter_nth f l i d) by done. by apply nth_insert_eq. Qed.

Lemma disk_wait_eq {DE : DiskEnv} f p q b u c t bc d bc2 d2 n s :
  cs_ok 0 c → cpu_proc (cur_cpu c) = Some p → procs_free None c → lock_free L_vdisk c →
  length t = Z.to_nat NPROC → t !! p = Some q → p_state q = RUNNING → p_chan q = None →
  (∀ c t, dev_serve (kst c t bc d (S n) s) = Some (kst c t bc2 d2 (S n) s)) → completed b u d2 → 0 ≤ u < 2 ^ 16 →
  b_disk (nth b (bufs bc) buf0) = 1 → (b < length (bufs bc2))%nat →
  ∃ t', disk_wait (S (S f)) b (kst (taken L_vdisk c) t bc d (S n) s)
        = Ret tt (kst (taken L_vdisk c) t' (bc_alter (set_b_disk 0) b bc2) (vd_intr d2) n s) ∧
    length t' = Z.to_nat NPROC ∧ t' !! p = Some q.
Proof.
  intros Hc Hp Hf Hv Ht Hq Hst Hch Hdev C Hu Hb1 Hblen.
  assert (p < Z.to_nat NPROC)%nat as Hlt by (rewrite <- Ht; by eapply lookup_lt_Some).
  set (q1 := set_p_state SLEEPING (set_p_chan (Some (C_buf b)) q)).
  destruct (disk_service_eq p q1 b u c (<[p := q1]> t) bc d bc2 d2 (S n) s) as (t1 & E & Ht1 & Hq1); try done.
  { by rewrite length_insert. }
  { by rewrite list_lookup_insert_eq by lia. }
  set (s1 := kst (taken L_vdisk c) t bc d (S n) s).
  assert (asleep (C_buf b) p c s1 = kst (taken (L_proc p) c) (<[p := q1]> t) bc d (S n) s) as Has.
  { unfold asleep, s1. change (proc_tab (kst _ _ _ _ _ _)) with t. by rewrite (nth_lookup_Some _ _ proc0 _ Hq). }
  assert (others n (asleep (C_buf b) p c s1)
    = kst (taken (L_proc p) c) t1 (bc_alter (set_b_disk 0) b bc2) (vd_intr d2) (S n) s) as Hot.
  { rewrite Has. eapply (disk_env n _ _ p b); [|..|exact E].
    - unfold cur_proc. change (cs (kst _ _ _ _ _ _)) with (taken (L_proc p) c). by rewrite (cpu_proc_taken 0).
    - change (proc_tab (kst _ _ _ _ _ _)) with (<[p := q1]> t). by rewrite nth_insert_eq by lia.
    - change (proc_tab (kst _ _ _ _ _ _)) with (<[p := q1]> t). by rewrite nth_insert_eq by lia. }
  exists (<[p := q]> t1). split_and!; [|by rewrite length_insert|by rewrite list_lookup_insert_eq by lia].
  cbn [disk_wait]. erewrite bind_ret; [|reflexivity]. change (bcache s1) with bc. rewrite Hb1. cbn [Z.eqb Pos.eqb].
  erewrite bind_ret.
  2:{ apply (sleep_eq (C_buf b) L_vdisk p n c c s1); try done.
      - by apply Hf.
      - change (proc_tab s1) with t. lia.
      - rewrite Hot. split; try done; [by apply Hf|]. change (proc_tab (kst _ _ _ _ _ _)) with t1. lia. }
  rewrite Hot. unfold awake. change (proc_tab (kst _ t1 _ _ _ _)) with t1.
  rewrite (nth_lookup_Some _ _ proc0 _ Hq1).
  assert (set_p_chan None (set_p_state RUNNING q1) = q) as Eq.
  { unfold q1. destruct q. cbn in *. by subst. }
  rewrite Eq. erewrite bind_ret; [|reflexivity].
  change (nth b (bufs (bcache _)) buf0) with (nth b (alter (set_b_disk 0) b (bufs bc2)) buf0).
  rewrite nth_alter_eq by done. reflexivity.
Qed.

(** ** Giving the descriptors back *)

Definition vd_free_desc (i : Z) (d : vdisk_state) : vdisk_state :=
  set_vd_free (setZ (vd_free d) i 1) (vd_put_desc i desc0 d).

Lemma free_desc_ne i j d : i ≠ j → nthZ desc0 (vd_desc (vd_free_desc i d)) j = nthZ desc0 (vd_desc d) j.
Proof. intros Hne. cbn. by apply nthZ_setZ_ne. Qed.

Lemma free_desc_kst m i c t bc d n s :
  cs_ok m c → procs_free (cpu_proc (cur_cpu c)) c → length t = Z.to_nat NPROC →
  i < NUM → nthZ 0 (vd_free d) i = 0 →
  free_desc i (kst c t bc d n s)
  = Ret tt (kst c (woken (Some C_disk_free) (cpu_proc (cur_cpu c)) t) bc (vd_free_desc i d) n s).
Proof.
  intros Hc Hf Ht Hi Hz. unfold free_desc. rewrite (proj2 (Z.leb_gt _ _)) by done.
  erewrite bind_ret; [|reflexivity]. rewrite vdisk_kst, Hz. cbn [c_bool Z.eqb negb].
  kstep (set_desc_kst i desc0). kstep upd_vdisk_kst. by apply (wakeup_kst m).
Qed.

Definition vd_freed (d : vdisk_state) : vdisk_state :=
  vd_free_desc 2 (vd_free_desc 1 (vd_free_desc 0 d)).

Lemma free_chain_kst m p b write c t bc d n s :
  cs_ok m c → procs_free (cpu_proc (cur_cpu c)) c → length t = Z.to_nat NPROC →
  cpu_proc (cur_cpu c) = Some p →
  vd_free d = [0; 0; 0; 1; 1; 1; 1; 1] →
  nthZ desc0 (vd_desc d) 0 = req_desc0 → nthZ desc0 (vd_desc d) 1 = req_desc1 b write →
  nthZ desc0 (vd_desc d) 2 = req_desc2 →
  ∃ t', free_chain 0 (kst c t bc d n s) = Ret tt (kst c t' bc (vd_freed d) n s) ∧
    length t' = Z.to_nat NPROC ∧ t' !! p = t !! p.
Proof.
  intros Hc Hf Ht Hp Hfr H0 H1 H2.
  set (w := woken (Some C_disk_free) (cpu_proc (cur_cpu c))).
  assert (∀ t, length t = Z.to_nat NPROC → length (w t) = Z.to_nat NPROC) as Hw
    by (intros; unfold w, woken; by rewrite length_imap).
  assert (∀ t, w t !! p = t !! p) as Hwp.
  { intros t'. unfold w, woken. rewrite list_lookup_imap, Hp. destruct (t' !! p); [|done]. cbn.
    unfold wake_at. by rewrite decide_True. }
  exists (w (w (w t))). split_and!; [|auto|by rewrite !Hwp].
  unfold free_chain. change (S (Z.to_nat NUM)) with 9%nat. cbn [free_chain_loop].
  erewrite bind_ret; [|reflexivity]. rewrite vdisk_kst, H0. cbv zeta. cbn [req_desc0 vd_flags vd_next].
  kstep (free_desc_kst m); try done; [|by rewrite Hfr].
  change (negb (Z.land VRING_DESC_F_NEXT VRING_DESC_F_NEXT =? 0)) with true. cbn iota.
  erewrite bind_ret; [|reflexivity]. rewrite vdisk_kst.
  rewrite free_desc_ne, H1 by done. cbv zeta. cbn [req_desc1 vd_flags vd_next].
  kstep (free_desc_kst m); try done; [|by auto|by cbn; rewrite Hfr].
  assert (negb (Z.land (Z.lor (if write then 0 else VRING_DESC_F_WRITE) VRING_DESC_F_NEXT) VRING_DESC_F_NEXT =? 0) = true)
    as -> by (by destruct write). cbn iota.
  erewrite bind_ret; [|reflexivity]. rewrite vdisk_kst.
  rewrite free_desc_ne, free_desc_ne, H2 by done. cbv zeta. cbn [req_desc2 vd_flags vd_next].
  kstep (free_desc_kst m); try done; [by apply Hw, Hw|by cbn; rewrite Hfr].
Qed.

(** ** A whole request *)

(** The buffer, the disk and the history of its writes after a request. *)
Definition served_buf (write : bool) (data : list Z) (bf : buf) : buf :=
  set_b_disk 0 (if write then bf else set_b_data data bf).
Definition served_disk (write : bool) (blk : Z) (data : list Z) (d d2 : vdisk_state) : Prop :=
  if write
  then (∀ x, block_of d2 x = if decide (x = blk) then data else block_of d x) ∧
       vd_hist d2 = vd_hist d ++ [(blk, data)]
  else (∀ x, block_of d2 x = block_of d x) ∧ vd_hist d2 = vd_hist d.

(** The driver's state when the device is done. *)
Definition vd_serve (write : bool) (blk : Z) (data : list Z) (d1 : vdisk_state) : vdisk_state :=
  dev_done 0 0 (if write then dev_store blk data d1 else d1).

Lemma serve_completed b write blk data d d1 :
  inflight b write blk d d1 → completed b (vd_used_idx d) (vd_serve write blk data d1).
Proof.
  intros F. unfold vd_serve, dev_done, dev_store.
  destruct write; (split; cbn;
    [apply F|by rewrite (if_used_dev _ _ _ _ _ F)| | |apply F]).
  1,3: rewrite (if_used_dev _ _ _ _ _ F); apply nthZ_setZ_eq; rewrite (if_used_len _ _ _ _ _ F);
    unfold NUM; pose proof (Z.mod_pos_bound (vd_used_idx d) 8); lia.
  all: apply nthZ_setZ_eq; rewrite (if_status_len _ _ _ _ _ F); lia.
Qed.

Lemma serve_desc write blk data d1 :
  vd_desc (vd_put_info 0 None (vd_intr (vd_serve write blk data d1))) = vd_desc d1 ∧
  vd_free (vd_put_info 0 None (vd_intr (vd_serve write blk data d1))) = vd_free d1.
Proof. by destruct write. Qed.

(** The state of the driver at the end. *)
Definition vd_finish (d : vdisk_state) : vdisk_state := vd_freed (vd_put_info 0 None (vd_intr d)).

(** The registers after the interrupt has been acknowledged. *)
Lemma acked_quiet {DL : DevLaws} m :
  default 0 (m !! VIRTIO_MMIO_INTERRUPT_STATUS) = 0 →
  let m' := mmio_write VIRTIO_MMIO_INTERRUPT_ACK (u32 (Z.land (default 0 (dev_regs m !! VIRTIO_MMIO_INTERRUPT_STATUS)) 3)) (dev_regs m) in
  m' !! VIRTIO_MMIO_QUEUE_NOTIFY = None ∧ default 0 (m' !! VIRTIO_MMIO_INTERRUPT_STATUS) = 0.
Proof.
  intros H m'. unfold m'. rewrite dl_ack, dl_ack_int. unfold dev_regs. rewrite lookup_insert_eq, H.
  rewrite lookup_insert_ne by done. by rewrite lookup_delete_eq.
Qed.

Lemma finish_ready {DL : DevLaws} b write blk data d d1 :
  inflight b write blk d d1 → vd_ready d → vd_ready (vd_finish (vd_serve write blk data d1)).
Proof.
  intros F R. pose proof (vr_range _ R). destruct (acked_quiet (vd_regs d1) (if_no_intr _ _ _ _ _ F)) as [Hq Hi].
  assert (0 ≤ u16 (vd_used_idx d + 1) < 2 ^ 16) by (unfold u16; apply Z.mod_pos_bound; lia).
  unfold vd_finish, vd_freed, vd_free_desc, vd_put_info, vd_intr, vd_bump_used, vd_reg, vd_put_desc,
    vd_serve, dev_done, dev_store.
  destruct write; (split; cbn; rewrite ?setZ_length; try apply F;
    try exact Hq; try exact Hi;
    rewrite ?(if_free _ _ _ _ _ F), ?(if_used_dev _ _ _ _ _ F), ?(if_used_idx _ _ _ _ _ F), ?(if_avail_idx _ _ _ _ _ F); done).
Qed.

Lemma finish_disk b write blk data d d1 :
  inflight b write blk d d1 → served_disk write blk data d (vd_finish (vd_serve write blk data d1)).
Proof.
  intros F. unfold served_disk, block_of. destruct write; cbn;
    rewrite (if_blocks _ _ _ _ _ F), (if_hist _ _ _ _ _ F); (split; [|done]); [|done].
  intros x. case_decide as E; [by rewrite E, lookup_insert_eq|by rewrite lookup_insert_ne].
Qed.

Lemma bc_alter_alter f g b bc : bc_alter f b (bc_alter g b bc) = bc_alter (λ bf, f (g bf)) b bc.
Proof.
  unfold bc_alter, set_bufs. cbn. f_equal. apply list_eq. intros j.
  rewrite !list_lookup_alter. destruct (decide (b = j)) as [<-|]; [|done].
  rewrite decide_True by done. by destruct (bufs bc !! b).
Qed.

Lemma bc_alter_ext f g b bc : (∀ bf, f bf = g bf) → bc_alter f b bc = bc_alter g b bc.
Proof.
  intros H. unfold bc_alter. f_equal. apply list_eq. intros j. rewrite !list_lookup_alter.
  destruct (decide (b = j)) as [<-|]; [|done]. destruct (bufs bc !! b); cbn; [by rewrite H|done].
Qed.

Lemma disk_rw_eq {DE : DiskEnv} p q b (write : bool) s n :
  cs_ok 0 (cs s) → cur_proc s = Some p → procs_free None (cs s) → lock_free L_vdisk (cs s) →
  length (proc_tab s) = Z.to_nat NPROC → proc_tab s !! p = Some q → p_state q = RUNNING → p_chan q = None →
  vd_ready (vdisk s) → (b < length (bufs (bcache s)))%nat → sched_left s = S n →
  let bf := nth b (bufs (bcache s)) buf0 in
  0 ≤ b_blockno bf < 2 ^ 31 →
  let data := if write then b_data bf else block_of (vdisk s) (b_blockno bf) in
  ∃ t vd, virtio_disk_rw b write s
          = Ret tt (kst (cs s) t (bc_alter (served_buf write data) b (bcache s)) vd n s) ∧
    length t = Z.to_nat NPROC ∧ t !! p = Some q ∧ vd_ready vd ∧
    served_disk write (b_blockno bf) data (vdisk s) vd.
Proof.
  intros Hc Hp Hf Hv Ht Hq Hst Hch R Hb Hn bf Hblk data.
  set (c := cs s). set (d := vdisk s) in *. set (bc := bcache s) in *. set (blk := b_blockno bf) in *.
  pose proof (disk_submit_eq b write (taken L_vdisk c) (proc_tab s) bc (vd_three d) (S n) s) as Esub.
  fold bf blk in Esub. pose proof (submit_inflight b write blk d R) as F.
  set (d1 := vd_submit b write blk (vd_three d)) in *. clearbody d1.
  set (d2 := vd_serve write blk data d1).
  set (bc1 := bc_alter (set_b_disk 1) b bc).
  set (bc2 := if write then bc1 else bc_alter (set_b_data data) b bc1).
  assert (nth b (bufs bc1) buf0 = set_b_disk 1 bf) as Hbf1 by (by apply nth_alter_eq).
  destruct (disk_wait_eq n p q b (vd_used_idx d) c (proc_tab s) bc1 d1 bc2 d2 n s)
    as (t1 & E & Ht1 & Hq1); try done.
  { intros c' t'. rewrite (dev_serve_eq b write blk _ _ _ d) by done. rewrite Hbf1.
    unfold d2, vd_serve, bc2, data. by destruct write. }
  { by apply serve_completed. }
  { apply R. }
  { by rewrite Hbf1. }
  { unfold bc2, bc1, bc_alter. destruct write; cbn; by rewrite ?length_alter. }
  pose proof (serve_completed b write blk data d d1 F) as C. fold d2 in C.
  assert (cs_ok 1 (taken L_vdisk c)) as Hc1 by (apply (taken_ok Hc); lia).
  destruct (free_chain_kst 1 p b write (taken L_vdisk c) t1 (bc_alter (set_b_disk 0) b bc2)
    (vd_put_info 0 None (vd_intr d2)) n s) as (t2 & E2 & Ht2 & Hq2); try done.
  { rewrite (cpu_proc_taken 0) by done. apply procs_free_taken; [done|]. intros r Hr _. by apply Hf. }
  { by rewrite (cpu_proc_taken 0). }
  1-4: unfold d2; rewrite ?(proj1 (serve_desc write blk data d1)), ?(proj2 (serve_desc write blk data d1)); apply F.
  exists t2, (vd_finish d2). split_and!; [|done|by rewrite Hq2| |].
  - unfold virtio_disk_rw. erewrite bind_ret; [|by eapply k_acquire].
    erewrite bind_ret; [|reflexivity]. change (sched_left (set_cs _ s)) with (sched_left s). rewrite Hn.
    erewrite bind_ret; [|by apply alloc3_wait_eq, R].
    replace (set_vdisk _ (set_cs (taken L_vdisk (cs s)) s))
      with (kst (taken L_vdisk c) (proc_tab s) bc (vd_three d) (S n) s) by (rewrite <- Hn; by destruct s).
    erewrite bind_ret; [|exact Esub]. fold bc1. erewrite bind_ret; [|reflexivity].
    change (sched_left (kst _ _ _ _ _ _)) with (S n). erewrite bind_ret; [|exact E].
    cbn iota. kstep (upd_vdisk_kst (vd_put_info 0 None)). erewrite bind_ret; [|exact E2].
    rewrite (release_kst 0) by done. do 2 f_equal. unfold bc2, bc1, served_buf.
    destruct write; rewrite !bc_alter_alter; apply bc_alter_ext; by intros [].
  - by apply (finish_ready b write blk data d).
  - by apply (finish_disk b write blk data d).
Qed.
End request.
