(* ===== verification/Bio.v ===== *)
(** * The buffer cache: kernel/bio.c

    The list of buffers goes through the [prev] and [next] fields, as in the code:
    index [NBUF] stands for [&bcache.head]. [BlockIO] is the interface of this file
    to the log and the file system. *)

From S2P Require Import Prelude Machine State Spinlock KString Kalloc Vm Proc Sleeplock Virtio.

(** What log.c and fs.c use of bio.c. *)
Class BlockIO := {
  bread : Z → Z → K nat;
  bwrite : nat → K unit;
  brelse : nat → K unit;
  bpin : nat → K unit;
  bunpin : nat → K unit;
}.

Definition HEAD : nat := Z.to_nat NBUF.

(** [b->next], [b->prev] and assignments to them, where [b] may be [&bcache.head]. *)
Definition next_of (c : bcache_state) (b : nat) : nat :=
  if decide (b = HEAD) then head_next c else b_next (nth b (bufs c) buf0).
Definition prev_of (c : bcache_state) (b : nat) : nat :=
  if decide (b = HEAD) then head_prev c else b_prev (nth b (bufs c) buf0).
Definition set_next (b v : nat) (c : bcache_state) : bcache_state :=
  if decide (b = HEAD) then Mk_bcache (bufs c) (head_prev c) v
  else set_bufs (alter (set_b_next v) b (bufs c)) c.
Definition set_prev (b v : nat) (c : bcache_state) : bcache_state :=
  if decide (b = HEAD) then Mk_bcache (bufs c) v (head_next c)
  else set_bufs (alter (set_b_prev v) b (bufs c)) c.

Definition upd_bcache (f : bcache_state → bcache_state) : K unit := modify (λ s, set_bcache (f (bcache s)) s).

(** [b->next = head.next; b->prev = &head; head.next->prev = b; head.next = b] *)
Definition push_front (b : nat) (c : bcache_state) : bcache_state :=
  let c := set_next b (head_next c) c in
  let c := set_prev b HEAD c in
  let c := set_prev (head_next c) b c in
  set_next HEAD b c.

(** [b->next->prev = b->prev; b->prev->next = b->next] *)
Definition unlink (b : nat) (c : bcache_state) : bcache_state :=
  let c := set_prev (next_of c b) (prev_of c b) c in
  set_next (prev_of c b) (next_of c b) c.

(** The search along [next] from the front for a cached block, and along [prev] from the
    back for an unused buffer. The list has [NBUF] buffers. *)
Fixpoint find_cached (fuel : nat) (c : bcache_state) (b : nat) (dev blockno : Z) : option nat :=
  match fuel with
  | O => None
  | S f =>
      if decide (b = HEAD) then None
      else
        let bf := nth b (bufs c) buf0 in
        if (b_dev bf =? dev) && (b_blockno bf =? blockno) then Some b
        else find_cached f c (next_of c b) dev blockno
  end.
Fixpoint find_unused (fuel : nat) (c : bcache_state) (b : nat) : option nat :=
  match fuel with
  | O => None
  | S f =>
      if decide (b = HEAD) then None
      else if b_refcnt (nth b (bufs c) buf0) =? 0 then Some b
      else find_unused f c (prev_of c b)
  end.

Section bio.
Context `{L : Layout} `{Oth : Others} `{VD : VirtioDev}.

Definition binit : K unit :=
  lift_cs (initlock L_bcache "bcache");;
  upd_bcache (set_prev HEAD HEAD);;
  upd_bcache (set_next HEAD HEAD);;
  mfor (seq 0 (Z.to_nat NBUF)) (λ b,
    upd_bcache (λ c, set_next b (head_next c) c);;
    upd_bcache (set_prev b HEAD);;
    initsleeplock (SL_buf b) "buffer";;
    upd_bcache (λ c, set_prev (head_next c) b c);;
    upd_bcache (set_next HEAD b)).

Definition bget (dev blockno : Z) : K nat :=
  lift_cs (acquire L_bcache);;
  c ← gets bcache;
  match find_cached (S HEAD) c (head_next c) dev blockno with
  | Some b =>
      upd_buf b (λ bf, set_b_refcnt (u32 (b_refcnt bf + 1)) bf);;
      lift_cs (release L_bcache);;
      acquiresleep (SL_buf b);;
      mret b
  | None =>
      match find_unused (S HEAD) c (head_prev c) with
      | Some b =>
          upd_buf b (set_b_dev dev);;
          upd_buf b (set_b_blockno blockno);;
          upd_buf b (set_b_valid 0);;
          upd_buf b (set_b_refcnt 1);;
          lift_cs (release L_bcache);;
          acquiresleep (SL_buf b);;
          mret b
      | None => panic "bget: no buffers"
      end
  end.

Definition bio_bread (dev blockno : Z) : K nat :=
  b ← bget dev blockno;
  bf ← get_buf b;
  when (negb (c_bool (b_valid bf))) (
    virtio_disk_rw b false;;
    upd_buf b (set_b_valid 1));;
  mret b.

Definition bio_bwrite (b : nat) : K unit :=
  h ← holdingsleep (SL_buf b);
  if negb h then panic "bwrite" else virtio_disk_rw b true.

Definition bio_brelse (b : nat) : K unit :=
  h ← holdingsleep (SL_buf b);
  if negb h then panic "brelse"
  else
    releasesleep (SL_buf b);;
    lift_cs (acquire L_bcache);;
    upd_buf b (λ bf, set_b_refcnt (u32 (b_refcnt bf - 1)) bf);;
    bf ← get_buf b;
    when (b_refcnt bf =? 0) (upd_bcache (unlink b);; upd_bcache (push_front b));;
    lift_cs (release L_bcache).

Definition bio_bpin (b : nat) : K unit :=
  lift_cs (acquire L_bcache);;
  upd_buf b (λ bf, set_b_refcnt (u32 (b_refcnt bf + 1)) bf);;
  lift_cs (release L_bcache).

Definition bio_bunpin (b : nat) : K unit :=
  lift_cs (acquire L_bcache);;
  upd_buf b (λ bf, set_b_refcnt (u32 (b_refcnt bf - 1)) bf);;
  lift_cs (release L_bcache).
End bio.

Global Instance bio `{L : Layout} `{Oth : Others} `{VD : VirtioDev} : BlockIO :=
  {| bread := bio_bread; bwrite := bio_bwrite; brelse := bio_brelse;
     bpin := bio_bpin; bunpin := bio_bunpin |}.
