(* ===== verification/LruProofs.v ===== *)
(** * The list of buffers: proofs about the links of kernel/bio.c

    [lru c l]: from [&bcache.head], the [next] links lead through the buffers of [l] in
    order and back, and the [prev] links the other way. [find_cached] is a search of
    [l], [find_unused] a search of [reverse l], and [brelse] moves a buffer to the
    front. *)

From S2P Require Import Prelude Machine State Spinlock KString Kalloc Vm Proc Sched Sleeplock Virtio VirtioProofs Bio.

(** ** Doubly linked segments *)

Fixpoint seg (nx pv : nat → nat) (x : nat) (l : list nat) (z : nat) : Prop :=
  match l with
  | [] => nx x = z ∧ pv z = x
  | y :: l' => (nx x = y ∧ pv y = x) ∧ seg nx pv y l' z
  end.

Lemma seg_app nx pv x l1 y l2 z :
  seg nx pv x (l1 ++ y :: l2) z ↔ seg nx pv x l1 y ∧ seg nx pv y l2 z.
Proof.
  revert x. induction l1 as [|a l1 IH]; intros x; cbn; [done|]. rewrite IH. tauto.
Qed.

Lemma seg_ext nx pv nx' pv' x l z :
  (∀ a, a ∈ x :: l → nx' a = nx a) → (∀ a, a ∈ l ++ [z] → pv' a = pv a) →
  seg nx pv x l z → seg nx' pv' x l z.
Proof.
  revert x. induction l as [|y l IH]; intros x Hn Hp; cbn.
  - rewrite Hn, Hp by set_solver. done.
  - rewrite Hn by set_solver. rewrite Hp by set_solver. intros [? ?]. split; [done|].
    apply IH; [set_solver..|done].
Qed.

Lemma seg_first nx pv x l z : seg nx pv x l z → nx x = hd z l.
Proof. by destruct l; cbn; [intros [? ?]|intros [[? ?] ?]]. Qed.
Lemma seg_last nx pv x l z : seg nx pv x l z → pv z = List.last l x.
Proof.
  revert x. induction l as [|y l IH]; intros x; cbn; [by intros [? ?]|].
  intros [[? ?] Hs]. rewrite (IH _ Hs). destruct l; [done|]. cbn.
  clear. revert n y x. induction l as [|a l IH]; intros; [done|]. apply (IH a).
Qed.

Lemma last_elem_of (l : list nat) x : List.last l x ∈ x :: l.
Proof.
  induction l as [|a l IH]; [set_solver|]. cbn [List.last]. destruct l; set_solver.
Qed.

(** Leaving out the element between two segments. *)
Lemma seg_join nx pv nx' pv' x l1 b l2 z :
  seg nx pv x l1 b → seg nx pv b l2 z → NoDup (x :: l1 ++ b :: l2) → z ∉ l1 ++ b :: l2 →
  nx' (pv b) = nx b → pv' (nx b) = pv b →
  (∀ a, a ≠ pv b → nx' a = nx a) → (∀ a, a ≠ nx b → pv' a = pv a) →
  seg nx' pv' x (l1 ++ l2) z.
Proof.
  revert x. induction l1 as [|y l1 IH]; intros x H1 H2 Hnd Hz En Ep Hn Hp; cbn [app] in *.
  - destruct H1 as [H1 H1']. rewrite H1' in *.
    destruct l2 as [|c l2]; cbn in *.
    + destruct H2 as [H2 _]. rewrite H2 in *. done.
    + destruct H2 as [[Hc _] H2]. rewrite Hc in *. split; [done|].
      apply NoDup_cons in Hnd as [Hx Hnd]. apply NoDup_cons in Hnd as [Hb Hnd]. apply NoDup_cons in Hnd as [Hcl Hnd].
      revert H2. apply seg_ext.
      * intros a Ha. apply Hn. intros ->. set_solver.
      * intros a Ha. apply Hp. intros ->. apply elem_of_app in Ha as [?|Ha]; [done|].
        apply list_elem_of_singleton in Ha as ->. apply Hz. set_solver.
  - destruct H1 as [[Hxy Hyx] H1]. apply NoDup_cons in Hnd as [Hx Hnd].
    assert (y ≠ nx b) as Hyb.
    { intros ->. apply seg_first in H2. rewrite H2 in *. destruct l2 as [|c l2]; cbn in *.
      - apply Hz. set_solver.
      - apply NoDup_cons in Hnd as [Hy _]. set_solver. }
    assert (x ≠ pv b) as Hxb.
    { intros ->. apply seg_last in H1. rewrite H1 in *. apply Hx.
      pose proof (last_elem_of l1 y). set_solver. }
    split; [rewrite Hn, Hp by done; done|]. apply IH; try done. set_solver.
Qed.

(** Putting an element in front. *)
Lemma seg_push nx pv nx' pv' x b l :
  seg nx pv x l x → NoDup (b :: l) → x ∉ l → x ≠ b →
  nx' x = b → nx' b = nx x → pv' (nx x) = b → pv' b = x →
  (∀ a, a ≠ x → a ≠ b → nx' a = nx a) → (∀ a, a ≠ nx x → a ≠ b → pv' a = pv a) →
  seg nx' pv' x (b :: l) x.
Proof.
  intros Hs [Hb Hnd]%NoDup_cons Hx Hxb E1 E2 E3 E4 Hn Hp. split; [done|].
  destruct l as [|y l]; cbn in *.
  - destruct Hs as [Hs _]. rewrite Hs in *. done.
  - destruct Hs as [[Hy _] Hs]. rewrite Hy in *. split; [done|].
    apply NoDup_cons in Hnd as [Hyl Hnd]. revert Hs. apply seg_ext.
    + intros a Ha. apply Hn; intros ->; set_solver.
    + intros a Ha. apply Hp; intros ->; set_solver.
Qed.

(** ** The links of the buffers *)

Record lru (c : bcache_state) (l : list nat) : Prop := {
  lru_seg : seg (next_of c) (prev_of c) HEAD l HEAD;
  lru_perm : l ≡ₚ seq 0 HEAD;
  lru_len : length (bufs c) = HEAD
}.

Lemma lru_in c l i : lru c l → i ∈ l ↔ (i < HEAD)%nat.
Proof. intros H. rewrite (lru_perm _ _ H). rewrite elem_of_seq. lia. Qed.
Lemma lru_nodup c l : lru c l → NoDup l.
Proof. intros H. rewrite (lru_perm _ _ H). apply NoDup_seq. Qed.
Lemma lru_head c l : lru c l → HEAD ∉ l.
Proof. intros H Hin. apply (lru_in _ _ _ H) in Hin. lia. Qed.

(** The fields of a buffer other than its links. *)
Definition core (bf : buf) : buf := set_b_next O (set_b_prev O bf).
Definition same_core (c c' : bcache_state) : Prop :=
  length (bufs c') = length (bufs c) ∧ ∀ i, core (nth i (bufs c') buf0) = core (nth i (bufs c) buf0).

Lemma same_core_trans c c' c'' : same_core c c' → same_core c' c'' → same_core c c''.
Proof. intros [H1 H2] [H3 H4]. split; [congruence|]. intros i. by rewrite H4. Qed.

Lemma nth_alter {A} (f : A → A) (l : list A) i j d :
  (i < length l)%nat → nth j (alter f i l) d = if decide (j = i) then f (nth j l d) else nth j l d.
Proof.
  intros Hi. case_decide as E; [subst; by apply nth_alter_eq|].
  rewrite (alter_nth f l i d) by done. rewrite !nth_lookup. by rewrite list_lookup_insert_ne.
Qed.

Section links.
Context (c : bcache_state) (Hlen : length (bufs c) = HEAD).

Lemma next_set_next x v y :
  (x ≤ HEAD)%nat → next_of (set_next x v c) y = if decide (y = x) then v else next_of c y.
Proof.
  intros Hx. unfold next_of, set_next. destruct (decide (x = HEAD)) as [->|Hne]; cbn.
  - by repeat case_decide.
  - rewrite nth_alter by lia. repeat case_decide; congruence || done.
Qed.
Lemma prev_set_prev x v y :
  (x ≤ HEAD)%nat → prev_of (set_prev x v c) y = if decide (y = x) then v else prev_of c y.
Proof.
  intros Hx. unfold prev_of, set_prev. destruct (decide (x = HEAD)) as [->|Hne]; cbn.
  - by repeat case_decide.
  - rewrite nth_alter by lia. repeat case_decide; congruence || done.
Qed.
Lemma prev_set_next x v y : (x ≤ HEAD)%nat → prev_of (set_next x v c) y = prev_of c y.
Proof.
  intros Hx. unfold prev_of, set_next. destruct (decide (x = HEAD)) as [->|Hne]; cbn; [done|].
  rewrite nth_alter by lia. by repeat case_decide.
Qed.
Lemma next_set_prev x v y : (x ≤ HEAD)%nat → next_of (set_prev x v c) y = next_of c y.
Proof.
  intros Hx. unfold next_of, set_prev. destruct (decide (x = HEAD)) as [->|Hne]; cbn; [done|].
  rewrite nth_alter by lia. by repeat case_decide.
Qed.
Lemma core_set_next x v : (x ≤ HEAD)%nat → same_core c (set_next x v c).
Proof.
  intros Hx. unfold set_next. destruct (decide (x = HEAD)) as [->|Hne]; [done|]. split; cbn.
  - by rewrite length_alter.
  - intros i. rewrite nth_alter by lia. by repeat case_decide.
Qed.
Lemma core_set_prev x v : (x ≤ HEAD)%nat → same_core c (set_prev x v c).
Proof.
  intros Hx. unfold set_prev. destruct (decide (x = HEAD)) as [->|Hne]; [done|]. split; cbn.
  - by rewrite length_alter.
  - intros i. rewrite nth_alter by lia. by repeat case_decide.
Qed.
End links.

Lemma unlink_links c b :
  length (bufs c) = HEAD → (next_of c b ≤ HEAD)%nat → (prev_of c b ≤ HEAD)%nat →
  same_core c (unlink b c) ∧
  (∀ y, next_of (unlink b c) y = if decide (y = prev_of c b) then next_of c b else next_of c y) ∧
  (∀ y, prev_of (unlink b c) y = if decide (y = next_of c b) then prev_of c b else prev_of c y).
Proof.
  intros Hl Hn Hp. unfold unlink. set (c1 := set_prev (next_of c b) (prev_of c b) c).
  destruct (core_set_prev c Hl (next_of c b) (prev_of c b) Hn) as [Hl1 Hc1]. fold c1 in Hl1, Hc1.
  assert (prev_of c1 b = prev_of c b) as E1.
  { unfold c1. rewrite prev_set_prev by done. by case_decide. }
  assert (next_of c1 b = next_of c b) as E2 by (unfold c1; by rewrite next_set_prev).
  rewrite E1, E2. rewrite Hl in Hl1. split_and!.
  - apply (same_core_trans _ c1); [split; [congruence|exact Hc1]|]. by apply core_set_next.
  - intros y. rewrite next_set_next by done. unfold c1. by rewrite next_set_prev.
  - intros y. rewrite prev_set_next by done. unfold c1. by rewrite prev_set_prev.
Qed.

Lemma push_front_links c b :
  length (bufs c) = HEAD → (b < HEAD)%nat → (next_of c HEAD ≤ HEAD)%nat →
  same_core c (push_front b c) ∧
  (∀ y, next_of (push_front b c) y = if decide (y = HEAD) then b else if decide (y = b) then next_of c HEAD else next_of c y) ∧
  (∀ y, prev_of (push_front b c) y = if decide (y = next_of c HEAD) then b else if decide (y = b) then HEAD else prev_of c y).
Proof.
  intros Hl Hb Hn. unfold push_front.
  assert (head_next c = next_of c HEAD) as E by (unfold next_of; by rewrite decide_True).
  rewrite E. set (h := next_of c HEAD) in *. set (c1 := set_next b h c). set (c2 := set_prev b HEAD c1).
  destruct (core_set_next c Hl b h ltac:(lia)) as [Hl1 Hc1]. fold c1 in Hl1, Hc1. rewrite Hl in Hl1.
  destruct (core_set_prev c1 Hl1 b HEAD ltac:(lia)) as [Hl2 Hc2]. fold c2 in Hl2, Hc2. rewrite Hl1 in Hl2.
  assert (head_next c2 = h) as E2.
  { unfold c2, c1, set_prev, set_next. rewrite !decide_False by lia. exact E. }
  rewrite E2. set (c3 := set_prev h b c2).
  destruct (core_set_prev c2 Hl2 h b Hn) as [Hl3 Hc3]. fold c3 in Hl3, Hc3. rewrite Hl2 in Hl3.
  split_and!.
  - apply (same_core_trans _ c1); [split; [congruence|done]|].
    apply (same_core_trans _ c2); [split; [congruence|done]|].
    apply (same_core_trans _ c3); [split; [congruence|done]|]. by apply core_set_next.
  - intros y. rewrite next_set_next by done. case_decide; [done|]. unfold c3, c2.
    rewrite !next_set_prev by (done || lia). unfold c1. by rewrite next_set_next by lia.
  - intros y. rewrite prev_set_next by done. unfold c3. rewrite prev_set_prev by done. case_decide; [done|].
    unfold c2. rewrite prev_set_prev by (done || lia). case_decide; [done|]. unfold c1. by rewrite prev_set_next by lia.
Qed.

(** The buffer [b] goes to the front of the list. *)
Lemma lru_move c l1 b l2 :
  lru c (l1 ++ b :: l2) →
  lru (push_front b (unlink b c)) (b :: l1 ++ l2) ∧ same_core c (push_front b (unlink b c)).
Proof.
  intros H. pose proof (lru_seg _ _ H) as Hs. pose proof (lru_nodup _ _ H) as Hnd.
  pose proof (lru_head _ _ H) as Hh. pose proof (lru_len _ _ H) as Hl.
  apply seg_app in Hs as [H1 H2].
  assert (b < HEAD)%nat as Hb by (apply (lru_in _ _ _ H); set_solver).
  assert (∀ a, a ∈ HEAD :: l1 ++ b :: l2 → (a ≤ HEAD)%nat) as Hin.
  { intros a [->|Ha]%elem_of_cons; [done|]. apply (lru_in _ _ _ H) in Ha. lia. }
  assert (next_of c b ≤ HEAD)%nat as Hn.
  { rewrite (seg_first _ _ _ _ _ H2). destruct l2; [done|]. apply Hin. cbn. set_solver. }
  assert (prev_of c b ≤ HEAD)%nat as Hp.
  { rewrite (seg_last _ _ _ _ _ H1). apply Hin. pose proof (last_elem_of l1 HEAD). set_solver. }
  destruct (unlink_links c b Hl Hn Hp) as (C1 & N1 & P1). set (c1 := unlink b c) in *.
  assert (length (bufs c1) = HEAD) as Hl1 by (rewrite (proj1 C1); done).
  assert (seg (next_of c1) (prev_of c1) HEAD (l1 ++ l2) HEAD) as Hs1.
  { eapply (seg_join (next_of c) (prev_of c) _ _ _ _ b); try done.
    - by apply NoDup_cons.
    - rewrite N1. by rewrite decide_True.
    - rewrite P1. by rewrite decide_True.
    - intros a Ha. rewrite N1. by rewrite decide_False.
    - intros a Ha. rewrite P1. by rewrite decide_False. }
  assert (NoDup (b :: l1 ++ l2)) as Hnd' by (by rewrite Permutation_middle).
  assert (next_of c1 HEAD ≤ HEAD)%nat as Hn1.
  { rewrite (seg_first _ _ _ _ _ Hs1). destruct (l1 ++ l2) as [|x r] eqn:E; [done|]. cbn. apply Hin.
    assert (x ∈ l1 ++ l2) by (rewrite E; set_solver). set_solver. }
  destruct (push_front_links c1 b Hl1 Hb Hn1) as (C2 & N2 & P2). split.
  - split.
    + assert (HEAD ≠ b) by lia. assert (HEAD ∉ l1 ++ l2) as Hh' by set_solver.
      assert (next_of c1 HEAD ≠ b) as Hnb.
      { rewrite (seg_first _ _ _ _ _ Hs1). apply NoDup_cons in Hnd' as [Hb' _].
        destruct (l1 ++ l2); cbn; [done|]. set_solver. }
      eapply (seg_push (next_of c1) (prev_of c1)); try done.
      * rewrite N2. by rewrite decide_False, decide_True by congruence.
      * rewrite P2. by rewrite decide_True.
      * rewrite P2. by rewrite decide_False, decide_True by congruence.
      * intros a Ha Ha'. rewrite N2. by rewrite !decide_False.
      * intros a Ha Ha'. rewrite P2. by rewrite !decide_False.
    + rewrite Permutation_middle. apply H.
    + by rewrite (proj1 C2).
  - by eapply same_core_trans.
Qed.

(** ** The searches *)

Definition has_block (c : bcache_state) (dev blockno : Z) (i : nat) : bool :=
  let bf := nth i (bufs c) buf0 in (b_dev bf =? dev) && (b_blockno bf =? blockno).
Definition unused (c : bcache_state) (i : nat) : bool := b_refcnt (nth i (bufs c) buf0) =? 0.

Lemma find_cached_seg c dev blockno x l fuel :
  seg (next_of c) (prev_of c) x l HEAD → HEAD ∉ l → (length l < fuel)%nat →
  find_cached fuel c (next_of c x) dev blockno = List.find (has_block c dev blockno) l.
Proof.
  revert x fuel. induction l as [|y l IH]; intros x fuel Hs Hh Hf; (destruct fuel as [|f]; [cbn in *; lia|]).
  - destruct Hs as [-> _]. cbn. by rewrite decide_True.
  - destruct Hs as [[-> _] Hs]. cbn [find_cached List.find]. rewrite decide_False by set_solver.
    unfold has_block at 1. cbv zeta. destruct (_ && _); [done|].
    apply IH; [done|set_solver|cbn in *; lia].
Qed.

Lemma find_unused_seg c z l fuel :
  seg (next_of c) (prev_of c) HEAD l z → HEAD ∉ l → (length l < fuel)%nat →
  find_unused fuel c (prev_of c z) = List.find (unused c) (reverse l).
Proof.
  revert z fuel. induction l as [|y l IH] using rev_ind; intros z fuel Hs Hh Hf;
    (destruct fuel as [|f]; [rewrite ?length_app in *; cbn in *; lia|]).
  - destruct Hs as [_ ->]. cbn. by rewrite decide_True.
  - apply seg_app in Hs as [Hs [_ ->]]. rewrite reverse_app. cbn [find_unused List.find reverse app].
    rewrite decide_False by set_solver. change (reverse [y] ++ reverse l) with (y :: reverse l).
    cbn [List.find]. fold (unused c y). destruct (unused c y); [done|].
    apply IH; [done|set_solver|rewrite length_app in Hf; cbn in *; lia].
Qed.

Lemma lru_find_cached c l dev blockno :
  lru c l → find_cached (S HEAD) c (head_next c) dev blockno = List.find (has_block c dev blockno) l.
Proof.
  intros H. replace (head_next c) with (next_of c HEAD) by (unfold next_of; by rewrite decide_True).
  apply find_cached_seg; [apply H|by eapply lru_head|].
  rewrite (lru_perm _ _ H), length_seq. lia.
Qed.

Lemma lru_find_unused c l :
  lru c l → find_unused (S HEAD) c (head_prev c) = List.find (unused c) (reverse l).
Proof.
  intros H. replace (head_prev c) with (prev_of c HEAD) by (unfold prev_of; by rewrite decide_True).
  apply find_unused_seg; [apply H|by eapply lru_head|].
  rewrite (lru_perm _ _ H), length_seq. lia.
Qed.
