(* ===== verification/BlockSpec.v ===== *)
(** * What the buffer cache promises to the log and the file system

    A [bview] is the state of the block layer as its clients see it: the contents of
    the blocks as [bread] delivers them, the contents of the disk, the writes the disk
    has done, the buffers the running thread holds, and the reference counts of the
    blocks in use. [BlockLaws] gives each operation of [BlockIO] as an operation on
    views. The buffer cache of kernel/bio.c is shown to satisfy it in BioProofs. *)

From S2P Require Import Prelude Machine State Spinlock KString Kalloc Vm Proc Sched Sleeplock Virtio Bio.

Record bview := Mk_bview {
  v_content : Z → list Z;
  v_disk : Z → list Z;
  v_hist : list (Z * list Z);
  v_held : gmap nat Z;          (** buffer ↦ block *)
  v_ref : gmap Z nat            (** block ↦ references, for the blocks in use *)
}.

(** A function changed at one argument. *)
Definition upd {A} (f : Z → A) (b : Z) (x : A) : Z → A := λ b', if decide (b' = b) then x else f b'.

Definition ref_inc (b : Z) (r : gmap Z nat) : gmap Z nat := <[b := S (default O (r !! b))]> r.
Definition ref_dec (b : Z) (r : gmap Z nat) : gmap Z nat :=
  match r !! b with
  | Some (S (S n)) => <[b := S n]> r
  | _ => delete b r
  end.

(** Reference counts that can grow by [k] without wrapping around. *)
Definition small (k : Z) (r : gmap Z nat) : Prop := ∀ b n, r !! b = Some n → Z.of_nat n + k < 2 ^ 32.

Definition v_bread (i : nat) (b : Z) (V : bview) : bview :=
  Mk_bview (v_content V) (v_disk V) (v_hist V) (<[i := b]> (v_held V)) (ref_inc b (v_ref V)).
Definition v_brelse (i : nat) (b : Z) (V : bview) : bview :=
  Mk_bview (v_content V) (v_disk V) (v_hist V) (delete i (v_held V)) (ref_dec b (v_ref V)).
Definition v_bwrite (b : Z) (V : bview) : bview :=
  Mk_bview (v_content V) (upd (v_disk V) b (v_content V b)) (v_hist V ++ [(b, v_content V b)])
    (v_held V) (v_ref V).
Definition v_store (b : Z) (d : list Z) (V : bview) : bview :=
  Mk_bview (upd (v_content V) b d) (v_disk V) (v_hist V) (v_held V) (v_ref V).
Definition v_pin (b : Z) (V : bview) : bview :=
  Mk_bview (v_content V) (v_disk V) (v_hist V) (v_held V) (ref_inc b (v_ref V)).
Definition v_unpin (b : Z) (V : bview) : bview :=
  Mk_bview (v_content V) (v_disk V) (v_hist V) (v_held V) (ref_dec b (v_ref V)).

(** The parts of the kernel's state that the block layer leaves alone; [k] bounds how
    often the thread was switched out. *)
Definition bframe (k : nat) (s s' : kstate) : Prop :=
  ∃ sl bc vd pt n,
    s' = set_slocks sl (set_bcache bc (set_vdisk vd (set_proc_tab pt (set_sched_left n s)))) ∧
    (∀ j, sl !! SL_inode j = slocks s !! SL_inode j) ∧ length pt = length (proc_tab s) ∧
    (∀ p, cur_proc s = Some p → pt !! p = proc_tab s !! p) ∧
    (sched_left s ≤ n + k)%nat.

(** Block numbers that fit in the 32-bit sector computation of the driver. *)
Definition blk_ok (b : Z) : Prop := 0 ≤ b < 2 ^ 31.

(** Views that say the same. *)
Record v_equiv (V V' : bview) : Prop := {
  ve_content b : v_content V b = v_content V' b;
  ve_disk b : v_disk V b = v_disk V' b;
  ve_hist : v_hist V = v_hist V';
  ve_held : v_held V = v_held V';
  ve_ref : v_ref V = v_ref V'
}.
Global Instance v_equiv_instance : Equiv bview := v_equiv.
Global Instance v_equiv_equivalence : Equivalence (≡@{bview}).
Proof.
  split.
  - by intros V.
  - intros V V' []; split; intros; symmetry; auto.
  - intros V V' V'' [] []; split; intros; etrans; eauto.
Qed.

Class BlockLaws (B : BlockIO) := {
  binv : bview → kstate → Prop;
  binv_proper :: Proper ((≡) ==> (=) ==> iff) binv;
  (** What a view says. *)
  law_held V s i b : binv V s → v_held V !! i = Some b →
    let bf := nth i (bufs (bcache s)) buf0 in
    b_blockno bf = b ∧ b_data bf = v_content V b;
  law_held_ref V s i b : binv V s → v_held V !! i = Some b → is_Some (v_ref V !! b);
  law_held_inj V s i j b : binv V s → v_held V !! i = Some b → v_held V !! j = Some b → i = j;
  law_ref_pos V s b n : binv V s → v_ref V !! b = Some n → n ≠ O;
  law_clean V s b : binv V s → v_ref V !! b = None → v_content V b = v_disk V b;
  law_len V s b : binv V s → length (v_content V b) = Z.to_nat BSIZE;
  law_klog V s lg : binv V s → binv V (set_klog lg s);
  law_itable V s t : binv V s → binv V (set_itable t s);
  law_pmem V s m : binv V s → binv V (set_pmem m s);
  law_ftable V s t : binv V s → binv V (set_ftable t s);
  law_slock V s j k : binv V s → binv V (set_slocks (<[SL_inode j := k]> (slocks s)) s);
  law_me V s : binv V s → is_Some (cur_proc s);
  law_env V s : binv V s → cs_ok 0 (cs s) ∧ procs_free None (cs s) ∧ length (proc_tab s) = Z.to_nat NPROC;
  law_wake V s ch : binv V s → binv V (set_proc_tab (woken ch (cur_proc s) (proc_tab s)) s);
  law_store V s i b d : binv V s → v_held V !! i = Some b → length d = Z.to_nat BSIZE →
    wp (upd_buf i (set_b_data d)) (λ _ s', binv (v_store b d V) s' ∧ bframe 0 s s') s;
  (** The operations. *)
  law_bread V s b :
    binv V s → blk_ok b → (∀ i, v_held V !! i ≠ Some b) →
    (is_Some (v_ref V !! b) ∨ (size (v_ref V) < Z.to_nat NBUF)%nat) → small 1 (v_ref V) →
    (0 < sched_left s)%nat →
    wp (bread ROOTDEV b) (λ i s', v_held V !! i = None ∧ binv (v_bread i b V) s' ∧ bframe 1 s s') s;
  law_bwrite V s i b :
    binv V s → v_held V !! i = Some b → (0 < sched_left s)%nat →
    wp (bwrite i) (λ _ s', binv (v_bwrite b V) s' ∧ bframe 1 s s') s;
  law_brelse V s i b :
    binv V s → v_held V !! i = Some b →
    (v_ref V !! b = Some 1%nat → v_content V b = v_disk V b) →
    wp (brelse i) (λ _ s', binv (v_brelse i b V) s' ∧ bframe 0 s s') s;
  (** [log_write] pins a block with [log.lock] held. *)
  law_bpin V s i b :
    binv V s → v_held V !! i = Some b → small 1 (v_ref V) →
    wp (bpin i) (λ _ s', ∃ s1, s' = set_cs (taken L_log (cs s)) s1 ∧ binv (v_pin b V) s1 ∧ bframe 0 s s1)
      (set_cs (taken L_log (cs s)) s);
  law_bunpin V s i b :
    binv V s → v_held V !! i = Some b → v_ref V !! b ≠ Some 1%nat →
    wp (bunpin i) (λ _ s', binv (v_unpin b V) s' ∧ bframe 0 s s') s;
}.

(** ** Frames *)

Lemma bframe_refl s : bframe 0 s s.
Proof.
  exists (slocks s), (bcache s), (vdisk s), (proc_tab s), (sched_left s).
  split_and!; [by destruct s|done|done|done|lia].
Qed.

Lemma bframe_trans k1 k2 s1 s2 s3 : bframe k1 s1 s2 → bframe k2 s2 s3 → bframe (k1 + k2) s1 s3.
Proof.
  intros (sl & bc & vd & pt & n & -> & Hk & Hl & Hp & Hn) (sl' & bc' & vd' & pt' & n' & -> & Hk' & Hl' & Hp' & Hn').
  exists sl', bc', vd', pt', n'. cbn in *. split_and!; [by destruct s1|intros j; by rewrite Hk'|congruence| |lia].
  intros p Hc. rewrite Hp' by done. by apply Hp.
Qed.

Lemma bframe_weaken k k' s s' : bframe k s s' → (k ≤ k')%nat → bframe k' s s'.
Proof.
  intros (sl & bc & vd & pt & n & -> & Hj & Hl & Hp & Hn) Hk.
  exists sl, bc, vd, pt, n. split_and!; [done|done|done|done|lia].
Qed.

Lemma bframe_facts k s s' :
  bframe k s s' → klog s' = klog s ∧ cs s' = cs s ∧ sb s' = sb s ∧ itable s' = itable s ∧
    (sched_left s ≤ sched_left s' + k)%nat.
Proof. intros (sl & bc & vd & pt & n & -> & Hj & Hl & Hp & Hn). done. Qed.

Lemma upd_eq {A} (f : Z → A) b x : upd f b x b = x.
Proof. unfold upd. by rewrite decide_True. Qed.
Lemma upd_ne {A} (f : Z → A) b x b' : b' ≠ b → upd f b x b' = f b'.
Proof. intros. unfold upd. by rewrite decide_False. Qed.

(** References. *)
Lemma ref_dec_inc b r : (∀ n, r !! b = Some n → n ≠ O) → ref_dec b (ref_inc b r) = r.
Proof.
  intros Hpos. unfold ref_dec, ref_inc. rewrite lookup_insert_eq.
  destruct (r !! b) as [n|] eqn:E; cbn.
  - destruct n as [|n]; [by destruct (Hpos O)|]. rewrite insert_insert_eq. by apply insert_id.
  - by rewrite delete_insert_id.
Qed.

Lemma ref_inc_ne b b' r : b ≠ b' → ref_inc b r !! b' = r !! b'.
Proof. intros. unfold ref_inc. by rewrite lookup_insert_ne. Qed.
Lemma ref_dec_ne b b' r : b ≠ b' → ref_dec b r !! b' = r !! b'.
Proof.
  intros. unfold ref_dec. destruct (r !! b) as [[|[|n]]|]; by rewrite ?lookup_insert_ne, ?lookup_delete_ne.
Qed.

Lemma small_empty k : small k ∅.
Proof. intros b n. by rewrite lookup_empty. Qed.
Lemma small_weaken k k' r : small k r → k' ≤ k → small k' r.
Proof. intros H Hk b n Hb. pose proof (H b n Hb). lia. Qed.
Lemma small_inc k b r : 0 ≤ k < 2 ^ 32 - 1 → small (k + 1) r → small k (ref_inc b r).
Proof.
  intros Hk H b' n. unfold ref_inc. destruct (decide (b = b')) as [<-|Hne].
  - rewrite lookup_insert_eq. intros [= <-]. destruct (r !! b) as [m|] eqn:E; cbn; [|lia].
    pose proof (H _ _ E). lia.
  - rewrite lookup_insert_ne by done. intros Hb. pose proof (H _ _ Hb). lia.
Qed.
Lemma small_dec k b r : small k r → small k (ref_dec b r).
Proof.
  intros H b' n. destruct (decide (b = b')) as [<-|Hne]; [|rewrite ref_dec_ne by done; apply H].
  unfold ref_dec. destruct (r !! b) as [[|[|m]]|] eqn:E; try (by rewrite lookup_delete_eq).
  rewrite lookup_insert_eq. intros [= <-]. pose proof (H _ _ E). lia.
Qed.
