(* ===== verification/BioInv.v ===== *)
(** * The invariant of the buffer cache

    How the state of kernel/bio.c and of the disk driver represents a view of the
    blocks: which buffer holds which block, what its reference count and its data are,
    who holds its lock. *)

From S2P Require Import Prelude Machine State Spinlock KString Kalloc Vm Proc Sched Sleeplock Virtio VirtioProofs Bio LruProofs BlockSpec.

Notation bufn bc i := (nth i (bufs bc) buf0).

(** Buffer [i] holds block [b] of the root device. *)
Definition cached (bc : bcache_state) (i : nat) (b : Z) : Prop :=
  (i < HEAD)%nat ∧ b_dev (bufn bc i) = ROOTDEV ∧ b_blockno (bufn bc i) = b.

Definition refs (V : bview) (b : Z) : Z := Z.of_nat (default O (v_ref V !! b)).

(** A buffer [bf] with block [b]; [fresh]: it is being filled by [bread]. *)
Record buf_ok (fresh : bool) (V : bview) (b : Z) (bf : buf) : Prop := {
  bo_blk : blk_ok b;
  bo_refcnt : b_refcnt bf = refs V b;
  bo_empty : b_valid bf = 0 → v_ref V !! b = None ∨ (fresh = true ∧ v_content V b = v_disk V b);
  bo_full : b_valid bf ≠ 0 → b_data bf = v_content V b
}.

(** [x] is the buffer that [bread] is about to fill. *)
Record bc_inv (x : option nat) (V : bview) (bc : bcache_state) : Prop := {
  bc_lru : ∃ l, lru bc l;
  bc_held i b : v_held V !! i = Some b → cached bc i b ∧ is_Some (v_ref V !! b);
  bc_uniq i j b : cached bc i b → cached bc j b → i = j;
  bc_refs b n : v_ref V !! b = Some n → n ≠ O ∧ ∃ i, cached bc i b;
  bc_cached i b : cached bc i b → buf_ok (bool_decide (x = Some i)) V b (bufn bc i);
  bc_other i : (i < HEAD)%nat → b_dev (bufn bc i) ≠ ROOTDEV → b_refcnt (bufn bc i) = 0;
  bc_small : small 0 (v_ref V);
  bc_clean b : v_ref V !! b = None → v_content V b = v_disk V b
}.

Lemma core_fields bf bf' :
  core bf' = core bf →
  b_valid bf' = b_valid bf ∧ b_dev bf' = b_dev bf ∧ b_blockno bf' = b_blockno bf ∧
  b_refcnt bf' = b_refcnt bf ∧ b_data bf' = b_data bf.
Proof. destruct bf, bf'. unfold core. cbn. by intros [= -> -> -> -> -> ->]. Qed.

Lemma buf_ok_core f V V' b bf bf' :
  core bf' = core bf → v_content V' b = v_content V b → v_disk V' b = v_disk V b →
  v_ref V' !! b = v_ref V !! b → buf_ok f V b bf → buf_ok f V' b bf'.
Proof.
  intros (Hv & Hd & Hb & Hr & Hda)%core_fields Hc Hdi Hre [H1 H2 H3 H4].
  split; unfold refs in *; rewrite ?Hv, ?Hr, ?Hda, ?Hc, ?Hdi, ?Hre; done.
Qed.

(** A change of the buffer [i], which holds block [b] afterwards. *)
Lemma bc_inv_at x x' V V' bc bc' i b :
  bc_inv x V bc → (x = None ∨ x = Some i) → (x' = None ∨ x' = Some i) →
  (∃ l, lru bc' l) →
  (∀ j, j ≠ i → core (bufn bc' j) = core (bufn bc j)) →
  cached bc' i b → (∀ j, cached bc j b → j = i) →
  (∀ b', cached bc i b' → b' ≠ b → v_ref V !! b' = None) →
  (∀ b', b' ≠ b → v_content V' b' = v_content V b' ∧ v_disk V' b' = v_disk V b' ∧ v_ref V' !! b' = v_ref V !! b') →
  (∀ j b', v_held V' !! j = Some b' →
     (j = i ∧ b' = b ∧ is_Some (v_ref V' !! b)) ∨ (j ≠ i ∧ v_held V !! j = Some b')) →
  buf_ok (bool_decide (x' = Some i)) V' b (bufn bc' i) →
  (∀ n, v_ref V' !! b = Some n → n ≠ O ∧ Z.of_nat n < 2 ^ 32) →
  (v_ref V' !! b = None → v_content V' b = v_disk V' b) →
  bc_inv x' V' bc'.
Proof.
  intros I Hx Hx' Hl Hcore Hi Hb Hold HV Hheld Hok Href Hclean.
  assert (∀ j b', j ≠ i → cached bc' j b' ↔ cached bc j b') as Hca.
  { intros j b' Hj. destruct (core_fields _ _ (Hcore j Hj)) as (_ & E1 & E2 & _).
    unfold cached. by rewrite E1, E2. }
  assert (∀ b', cached bc' i b' → b' = b) as Hib by (intros b' [_ [_ <-]]; by destruct Hi as [_ [_ <-]]).
  assert (∀ j b', j ≠ i → cached bc' j b' → b' ≠ b) as Hjb.
  { intros j b' Hj Hc ->. apply Hj, Hb. by apply Hca. }
  split; [done|..].
  - intros j b' [(-> & -> & ?)|[Hj Hj']]%Hheld; [done|].
    destruct (bc_held _ _ _ I _ _ Hj') as [Hc Hs]. apply (Hca j b' Hj) in Hc. split; [done|].
    by rewrite (proj2 (proj2 (HV b' (Hjb _ _ Hj Hc)))).
  - intros j k b' Hj Hk. destruct (decide (j = i)) as [->|Hji], (decide (k = i)) as [->|Hki]; try done.
    + apply Hib in Hj as ->. by destruct (Hjb _ _ Hki Hk).
    + apply Hib in Hk as ->. by destruct (Hjb _ _ Hji Hj).
    + apply (bc_uniq _ _ _ I _ _ b'); by apply Hca.
  - intros b' n Hn. destruct (decide (b' = b)) as [->|Hne]; [split; [by apply (Href n)|by exists i]|].
    rewrite (proj2 (proj2 (HV b' Hne))) in Hn. destruct (bc_refs _ _ _ I _ _ Hn) as [? [j Hj]].
    split; [done|]. exists j. apply Hca; [|done]. intros ->.
    rewrite (Hold b' Hj Hne) in Hn. done.
  - intros j b' Hj. destruct (decide (j = i)) as [->|Hji]; [by apply Hib in Hj as ->|].
    pose proof (Hjb _ _ Hji Hj) as Hne. destruct (HV b' Hne) as (E1 & E2 & E3).
    apply Hca in Hj; [|done]. pose proof (bc_cached _ _ _ I _ _ Hj) as Hbo.
    rewrite bool_decide_eq_false_2 in Hbo by (destruct Hx; congruence).
    rewrite bool_decide_eq_false_2 by (destruct Hx'; congruence).
    revert Hbo. apply buf_ok_core; auto.
  - intros j Hj Hd. destruct (decide (j = i)) as [->|Hji]; [by destruct Hi as (_ & ? & _)|].
    destruct (core_fields _ _ (Hcore j Hji)) as (_ & E1 & _ & E2 & _).
    rewrite E2. apply (bc_other _ _ _ I); [done|]. by rewrite <- E1.
  - intros b' n Hn. destruct (decide (b' = b)) as [->|Hne]; [destruct (Href n Hn); lia|].
    rewrite (proj2 (proj2 (HV b' Hne))) in Hn. by apply (bc_small _ _ _ I b').
  - intros b' Hn. destruct (decide (b' = b)) as [->|Hne]; [by apply Hclean|].
    destruct (HV b' Hne) as (-> & -> & E). rewrite E in Hn. by apply (bc_clean _ _ _ I).
Qed.

(** ** The operations on the buffers *)

Definition keeps_links (f : buf → buf) : Prop := ∀ bf, b_next (f bf) = b_next bf ∧ b_prev (f bf) = b_prev bf.

Lemma lru_alter f i bc l : keeps_links f → (i < HEAD)%nat → lru bc l → lru (bc_alter f i bc) l.
Proof.
  intros Hf Hi [Hs Hp Hl]. split; [|done|].
  - revert Hs. apply seg_ext; intros a _; unfold next_of, prev_of, bc_alter; cbn;
      case_decide; [done| |done|]; rewrite nth_alter by lia; case_decide; try done; apply Hf.
  - unfold bc_alter. cbn. by rewrite length_alter.
Qed.

Lemma bufn_alter f i j bc :
  (i < length (bufs bc))%nat → bufn (bc_alter f i bc) j = if decide (j = i) then f (bufn bc j) else bufn bc j.
Proof. intros Hi. unfold bc_alter. cbn. by rewrite nth_alter. Qed.

Lemma bc_len x V bc : bc_inv x V bc → length (bufs bc) = HEAD.
Proof. intros I. destruct (bc_lru _ _ _ I) as [l Hl]. apply Hl. Qed.

Lemma refs_inc b V i : refs (v_bread i b V) b = refs V b + 1.
Proof. unfold refs. cbn. unfold ref_inc. rewrite lookup_insert_eq. cbn. lia. Qed.

Lemma refs_range V b : small 0 (v_ref V) → 0 ≤ refs V b < 2 ^ 32.
Proof.
  intros H. unfold refs. destruct (v_ref V !! b) as [n|] eqn:E; cbn; [pose proof (H _ _ E)|]; lia.
Qed.
Lemma refs_small V b : small 1 (v_ref V) → 0 ≤ refs V b + 1 < 2 ^ 32.
Proof.
  intros H. unfold refs. destruct (v_ref V !! b) as [n|] eqn:E; cbn; [pose proof (H _ _ E)|]; lia.
Qed.

(** Reading of other blocks in a view with one more reference to [b]. *)
Lemma ref_inc_some b r n : ref_inc b r !! b = Some n → n = S (default O (r !! b)).
Proof. unfold ref_inc. rewrite lookup_insert_eq. by intros [= <-]. Qed.

Lemma bc_inv_self x V bc i b b' : bc_inv x V bc → cached bc i b → cached bc i b' → b' = b.
Proof. intros _ (_ & _ & <-) (_ & _ & <-). done. Qed.

(** [bget], when the block is cached. *)
Lemma bc_hit V bc i b :
  bc_inv None V bc → cached bc i b → small 1 (v_ref V) →
  bc_inv (Some i) (v_bread i b V) (bc_alter (λ bf, set_b_refcnt (u32 (b_refcnt bf + 1)) bf) i bc).
Proof.
  intros I Hi Hsm. pose proof (bc_len _ _ _ I) as Hl. pose proof (bc_cached _ _ _ I _ _ Hi) as [Ho1 Ho2 Ho3 Ho4].
  assert (i < HEAD)%nat as Hlt by apply Hi. pose proof (refs_small V b Hsm) as Hr.
  assert (bufn (bc_alter (λ bf, set_b_refcnt (u32 (b_refcnt bf + 1)) bf) i bc) i =
    set_b_refcnt (refs V b + 1) (bufn bc i)) as Ei.
  { rewrite bufn_alter, decide_True by lia. rewrite Ho2. unfold u32. by rewrite Z.mod_small. }
  apply (bc_inv_at None (Some i) V _ bc _ i b I); [by left|by right|..].
  - destruct (bc_lru _ _ _ I) as [l ?]. exists l. by apply lru_alter.
  - intros j Hj. by rewrite bufn_alter, decide_False by lia.
  - unfold cached. rewrite Ei. destruct Hi as (? & ? & ?). by split_and!.
  - intros j Hj. by apply (bc_uniq _ _ _ I _ _ b).
  - intros b' Hb' Hne. by destruct (Hne (bc_inv_self _ _ _ _ _ _ I Hi Hb')).
  - intros b' Hne. cbn. by rewrite ref_inc_ne.
  - intros j b'. cbn. destruct (decide (i = j)) as [<-|Hij].
    + rewrite lookup_insert_eq. intros [= <-]. left. unfold ref_inc. rewrite lookup_insert_eq. eauto.
    + rewrite lookup_insert_ne by done. right. by split.
  - rewrite Ei. split; cbn -[refs]; [done|by rewrite refs_inc| |done].
    intros Hv. right. split; [by rewrite bool_decide_eq_true_2|].
    destruct (Ho3 Hv) as [Hn|[[=] _]]. by apply (bc_clean _ _ _ I).
  - intros n Hn. cbn in Hn. apply ref_inc_some in Hn as ->. unfold refs in Hr. split; [done|lia].
  - cbn. unfold ref_inc. by rewrite lookup_insert_eq.
Qed.

Definition recycle (b : Z) (bf : buf) : buf :=
  set_b_refcnt 1 (set_b_valid 0 (set_b_blockno b (set_b_dev ROOTDEV bf))).

(** [bget], when an unused buffer is recycled. *)
Lemma bc_miss V bc i b :
  bc_inv None V bc → (i < HEAD)%nat → b_refcnt (bufn bc i) = 0 → (∀ j, ¬ cached bc j b) → blk_ok b →
  bc_inv (Some i) (v_bread i b V) (bc_alter (recycle b) i bc).
Proof.
  intros I Hlt Hz Hno Hb. pose proof (bc_len _ _ _ I) as Hl.
  assert (v_ref V !! b = None) as Hnone.
  { destruct (v_ref V !! b) as [n|] eqn:E; [|done]. destruct (bc_refs _ _ _ I _ _ E) as [_ [j Hj]]. by destruct (Hno j). }
  assert (∀ b', cached bc i b' → v_ref V !! b' = None) as Hold.
  { intros b' Hb'. pose proof (bo_refcnt _ _ _ _ (bc_cached _ _ _ I _ _ Hb')) as Hr. rewrite Hz in Hr.
    unfold refs in Hr. destruct (v_ref V !! b') as [n|] eqn:E; [|done]. cbn in Hr.
    destruct (bc_refs _ _ _ I _ _ E). lia. }
  assert (bufn (bc_alter (recycle b) i bc) i = recycle b (bufn bc i)) as Ei
    by (rewrite bufn_alter, decide_True by lia; done).
  apply (bc_inv_at None (Some i) V _ bc _ i b I); [by left|by right|..].
  - destruct (bc_lru _ _ _ I) as [l ?]. exists l. by apply lru_alter.
  - intros j Hj. by rewrite bufn_alter, decide_False by lia.
  - unfold cached. rewrite Ei. by split_and!.
  - intros j Hj. by destruct (Hno j).
  - intros b' Hb' _. by apply Hold.
  - intros b' Hne. cbn. by rewrite ref_inc_ne.
  - intros j b'. cbn. destruct (decide (i = j)) as [<-|Hij].
    + rewrite lookup_insert_eq. intros [= <-]. left. unfold ref_inc. rewrite lookup_insert_eq. eauto.
    + rewrite lookup_insert_ne by done. right. by split.
  - rewrite Ei. split; cbn -[refs]; [done| | |done].
    + rewrite refs_inc. unfold refs. by rewrite Hnone.
    + intros _. right. split; [by rewrite bool_decide_eq_true_2|]. by apply (bc_clean _ _ _ I).
  - intros n Hn. cbn in Hn. apply ref_inc_some in Hn as ->. rewrite Hnone. cbn. split; [done|lia].
  - cbn. unfold ref_inc. by rewrite lookup_insert_eq.
Qed.

(** A change of the buffer that a thread holds, by which the view of its block changes
    to [V']. *)
Lemma bc_change x V V' bc f i b :
  bc_inv x V bc → (x = None ∨ x = Some i) → cached bc i b → keeps_links f →
  (∀ bf, b_dev (f bf) = b_dev bf ∧ b_blockno (f bf) = b_blockno bf) →
  (∀ b', b' ≠ b → v_content V' b' = v_content V b' ∧ v_disk V' b' = v_disk V b' ∧ v_ref V' !! b' = v_ref V !! b') →
  (∀ j b', v_held V' !! j = Some b' →
     (j = i ∧ b' = b ∧ is_Some (v_ref V' !! b)) ∨ (j ≠ i ∧ v_held V !! j = Some b')) →
  buf_ok false V' b (f (bufn bc i)) →
  (∀ n, v_ref V' !! b = Some n → n ≠ O ∧ Z.of_nat n < 2 ^ 32) →
  (v_ref V' !! b = None → v_content V' b = v_disk V' b) →
  bc_inv None V' (bc_alter f i bc).
Proof.
  intros I Hx Hi Hf Hfd HV Hheld Hok Href Hclean. pose proof (bc_len _ _ _ I) as Hl.
  assert (i < HEAD)%nat as Hlt by apply Hi.
  assert (bufn (bc_alter f i bc) i = f (bufn bc i)) as Ei by (by rewrite bufn_alter, decide_True by lia).
  apply (bc_inv_at x None V _ bc _ i b I); try done; [by left|..].
  - destruct (bc_lru _ _ _ I) as [l ?]. exists l. by apply lru_alter.
  - intros j Hj. by rewrite bufn_alter, decide_False by lia.
  - unfold cached. rewrite Ei. destruct (Hfd (bufn bc i)) as [-> ->]. apply Hi.
  - intros j Hj. by apply (bc_uniq _ _ _ I _ _ b).
  - intros b' Hb' Hne. by destruct (Hne (bc_inv_self _ _ _ _ _ _ I Hi Hb')).
  - by rewrite Ei.
Qed.

(** Moving a buffer in the list. *)
Lemma bc_inv_core x V bc bc' :
  bc_inv x V bc → same_core bc bc' → (∃ l, lru bc' l) → bc_inv x V bc'.
Proof.
  intros I [Hl Hcore] Hlru.
  assert (∀ j b, cached bc' j b ↔ cached bc j b) as Hca.
  { intros j b. destruct (core_fields _ _ (Hcore j)) as (_ & E1 & E2 & _). unfold cached. by rewrite E1, E2. }
  split; [done|..].
  - intros i b Hi. rewrite Hca. by apply (bc_held _ _ _ I).
  - intros i j b. rewrite !Hca. apply (bc_uniq _ _ _ I).
  - intros b n Hn. destruct (bc_refs _ _ _ I _ _ Hn) as [? [i Hi]]. split; [done|]. exists i. by apply Hca.
  - intros i b Hi%Hca. apply (buf_ok_core _ V V b (bufn bc i)); auto. by apply (bc_cached _ _ _ I).
  - intros i Hi. destruct (core_fields _ _ (Hcore i)) as (_ & -> & _ & -> & _). by apply (bc_other _ _ _ I).
  - apply I.
  - apply (bc_clean _ _ _ I).
Qed.
