(* ===== verification/BioProofs.v ===== *)
(** * The buffer cache keeps its promises: proofs about kernel/bio.c

    [bio_laws] shows that the operations of kernel/bio.c, on top of the disk driver and
    of a machine that serves the disk ([DiskEnv]), are the operations on views that
    [BlockLaws] promises to the log and the file system. *)

From S2P Require Import Prelude Machine State Spinlock KString Kalloc Vm Proc Sched Sleeplock Virtio VirtioProofs Bio LruProofs BlockSpec BioInv.

(** The thread: no spinlock is held, the process runs and holds the locks of the buffers
    of the view. *)
Record env_inv (V : bview) (s : kstate) : Prop := {
  ei_cs : cs_ok 0 (cs s);
  ei_procs : procs_free None (cs s);
  ei_vdisk : lock_free L_vdisk (cs s);
  ei_bcache : lock_free L_bcache (cs s);
  ei_sleep i : (i < HEAD)%nat → lock_free (L_sleep (SL_buf i)) (cs s);
  ei_tab : length (proc_tab s) = Z.to_nat NPROC;
  ei_me : ∃ p q, cur_proc s = Some p ∧ proc_tab s !! p = Some q ∧ p_state q = RUNNING ∧ p_chan q = None ∧
    ∀ i b, v_held V !! i = Some b →
      sl_locked (get_slock (SL_buf i) s) = 1 ∧ sl_pid (get_slock (SL_buf i) s) = p_pid q;
  ei_free i : (i < HEAD)%nat → v_held V !! i = None → sl_locked (get_slock (SL_buf i) s) = 0
}.

(** The driver is idle and the disk holds the blocks of the view. *)
Record vd_inv (V : bview) (d : vdisk_state) : Prop := {
  vi_ready : vd_ready d;
  vi_disk b : v_disk V b = block_of d b;
  vi_hist : v_hist V = vd_hist d
}.

Record bio_inv (V : bview) (s : kstate) : Prop := {
  bi_bc : bc_inv None V (bcache s);
  bi_env : env_inv V s;
  bi_vd : vd_inv V (vdisk s);
  bi_len b : length (v_content V b) = Z.to_nat BSIZE
}.

Lemma env_inv_ext V V' s s' :
  env_inv V s → cs s' = cs s → length (proc_tab s') = length (proc_tab s) →
  (∀ p, cur_proc s = Some p → proc_tab s' !! p = proc_tab s !! p) → slocks s' = slocks s →
  v_held V' = v_held V → env_inv V' s'.
Proof.
  intros [H1 H2 H3 H4 H5 H6 H7 H8] Hcs Htab Hme Hsl Hh.
  assert (∀ i, get_slock i s' = get_slock i s) as Hg by (intros; unfold get_slock; by rewrite Hsl).
  split; rewrite ?Hcs; try done.
  - congruence.
  - destruct H7 as (p & q & Hp & Hq & ? & ? & Hl). exists p, q. split_and!; try done.
    + unfold cur_proc. by rewrite Hcs.
    + by rewrite Hme.
    + intros i b. rewrite Hg, Hh. apply Hl.
  - intros i. rewrite Hg, Hh. apply H8.
Qed.

(** The lock of an inode. *)
Lemma env_inv_slock V s j k : env_inv V s → env_inv V (set_slocks (<[SL_inode j := k]> (slocks s)) s).
Proof.
  intros [H1 H2 H3 H4 H5 H6 H7 H8].
  assert (∀ i, get_slock (SL_buf i) (set_slocks (<[SL_inode j := k]> (slocks s)) s) = get_slock (SL_buf i) s) as Hg.
  { intros i. unfold get_slock. cbn. by rewrite lookup_insert_ne. }
  split; try done.
  - destruct H7 as (p & q & Hp & Hq & ? & ? & Hl). exists p, q. split_and!; try done. intros i b. rewrite Hg. apply Hl.
  - intros i. rewrite Hg. apply H8.
Qed.

Lemma vd_inv_ext V V' d : v_disk V' = v_disk V → v_hist V' = v_hist V → vd_inv V d → vd_inv V' d.
Proof. intros Hd Hh [H1 H2 H3]. split; [done|intros b; by rewrite Hd|congruence]. Qed.

(** Taking the lock of a buffer. *)
Lemma env_inv_hold V s i b p q bc :
  env_inv V s → cur_proc s = Some p → proc_tab s !! p = Some q →
  env_inv (v_bread i b V)
    (set_slocks (<[SL_buf i := sl_held (p_pid q) (get_slock (SL_buf i) s)]> (slocks s)) (set_bcache bc s)).
Proof.
  intros E Hp Hq. destruct E as [H1 H2 H3 H4 H5 H6 (p' & q' & Hp' & Hq' & ? & ? & Hl) H8]. split; try done.
  - rewrite Hp in Hp'. injection Hp' as <-. rewrite Hq in Hq'. injection Hq' as <-. exists p, q. split_and!; try done. intros j b'. cbn.
    destruct (decide (i = j)) as [<-|Hij].
    + intros _. by rewrite get_slock_insert.
    + rewrite lookup_insert_ne by done. unfold get_slock. cbn. rewrite lookup_insert_ne by congruence.
      apply Hl.
  - intros j. cbn. destruct (decide (i = j)) as [<-|Hij]; [by rewrite lookup_insert_eq|].
    rewrite lookup_insert_ne by done. unfold get_slock. cbn. rewrite lookup_insert_ne by congruence. apply H8.
Qed.

(** Giving it back. *)
Lemma env_inv_unhold V s i b t :
  env_inv V s → length t = length (proc_tab s) → (∀ p, cur_proc s = Some p → t !! p = proc_tab s !! p) →
  env_inv (v_brelse i b V)
    (set_proc_tab t (set_slocks (<[SL_buf i := sl_freed (get_slock (SL_buf i) s)]> (slocks s)) s)).
Proof.
  intros E Ht Hme. destruct E as [H1 H2 H3 H4 H5 H6 (p & q & Hp & Hq & ? & ? & Hl) H8]. split; try done.
  - cbn. congruence.
  - exists p, q. split_and!; try done.
    + cbn. by rewrite Hme.
    + intros j b'. cbn. destruct (decide (i = j)) as [<-|Hij]; [by rewrite lookup_delete_eq|].
      rewrite lookup_delete_ne by done. unfold get_slock. cbn. rewrite lookup_insert_ne by congruence. apply Hl.
  - intros j. cbn. unfold get_slock. cbn. destruct (decide (i = j)) as [<-|Hij].
    + intros _ _. by rewrite lookup_insert_eq.
    + rewrite lookup_delete_ne by done. rewrite lookup_insert_ne by congruence. apply H8.
Qed.

Lemma woken_me ch p (t : list proc) : woken ch (Some p) t !! p = t !! p.
Proof.
  unfold woken. rewrite list_lookup_imap. destruct (t !! p); [|done]. cbn. unfold wake_at. by rewrite decide_True.
Qed.

Section bio.
Context `{L : Layout} `{Oth : Others} `{VD : VirtioDev}.

(** An update of the buffers under [bcache.lock]. *)
Lemma bcache_locked_eq f i s n :
  cs_ok n (cs s) → lock_free L_bcache (cs s) →
  (lift_cs (acquire L_bcache);; upd_buf i f;; lift_cs (release L_bcache)) s
  = Ret tt (set_bcache (bc_alter f i (bcache s)) s).
Proof.
  intros Hc Hl. erewrite bind_ret; [|by eapply k_acquire]. erewrite bind_ret; [|reflexivity].
  rewrite (k_release n L_bcache (cs s)) by done. by destruct s.
Qed.

(** Some buffer is unused if fewer than [NBUF] blocks are. *)
Lemma find_room V bc l :
  bc_inv None V bc → lru bc l → (size (v_ref V) < Z.to_nat NBUF)%nat →
  ∃ i, List.find (unused bc) (reverse l) = Some i ∧ (i < HEAD)%nat ∧ b_refcnt (bufn bc i) = 0.
Proof.
  intros I Hl Hsz. destruct (List.find (unused bc) (reverse l)) as [i|] eqn:E.
  - apply find_some in E as [Hin Hu]. exists i. split_and!; [done| |].
    + apply (lru_in _ _ _ Hl). apply elem_of_reverse. by apply list_elem_of_In.
    + unfold unused in Hu. by apply Z.eqb_eq.
  - exfalso. assert (∀ i, (i < HEAD)%nat → b_refcnt (bufn bc i) ≠ 0) as Hall.
    { intros i Hi. apply (lru_in _ _ _ Hl) in Hi. apply elem_of_reverse, list_elem_of_In in Hi.
      pose proof (find_none _ _ E i Hi) as Hu. unfold unused in Hu. by apply Z.eqb_neq in Hu. }
    assert (∀ i, (i < HEAD)%nat → is_Some (v_ref V !! b_blockno (bufn bc i))) as Hsome.
    { intros i Hi. destruct (decide (b_dev (bufn bc i) = ROOTDEV)) as [Hd|Hd].
      - pose proof (Hall i Hi) as Hr. rewrite (bo_refcnt _ _ _ _ (bc_cached _ _ _ I i _ (conj Hi (conj Hd eq_refl)))) in Hr.
        unfold refs in Hr. destruct (v_ref V !! _); [by eexists|done].
      - by destruct (Hall i Hi); apply (bc_other _ _ _ I). }
    assert (NoDup ((λ i, b_blockno (bufn bc i)) <$> seq 0 HEAD)) as Hnd.
    { apply NoDup_fmap_2_strong; [|apply NoDup_seq]. intros i j Hi%elem_of_seq Hj%elem_of_seq Hij.
      apply (bc_uniq _ _ _ I i j (b_blockno (bufn bc i))).
      - split_and!; [lia| |done]. apply dec_stable. intros Hd. apply (Hall i); [lia|]. apply (bc_other _ _ _ I); [lia|done].
      - split_and!; [lia| |done]. apply dec_stable. intros Hd. apply (Hall j); [lia|]. apply (bc_other _ _ _ I); [lia|done]. }
    pose proof (size_list_to_set (C := gset Z) _ Hnd) as Hs. rewrite length_fmap, length_seq in Hs.
    assert (size (list_to_set ((λ i, b_blockno (bufn bc i)) <$> seq 0 HEAD) : gset Z) ≤ size (v_ref V))%nat as Hle.
    { rewrite <- size_dom. apply subseteq_size. intros b Hb%elem_of_list_to_set.
      apply list_elem_of_fmap in Hb as (i & -> & Hi%elem_of_seq). apply elem_of_dom, Hsome. lia. }
    rewrite Hs in Hle. change (Z.to_nat NBUF) with HEAD in Hsz. lia.
Qed.

(** The state after [bget] has found or recycled buffer [i]. *)
Definition got (i : nat) (pid : Z) (bc : bcache_state) (s : kstate) : kstate :=
  set_slocks (<[SL_buf i := sl_held pid (get_slock (SL_buf i) s)]> (slocks s)) (set_bcache bc s).

(** The end of [bget]: [release(&bcache.lock); acquiresleep(&b->lock); return b;] *)
Lemma bget_tail_eq V s i bc p q :
  env_inv V s → (i < HEAD)%nat → v_held V !! i = None → cur_proc s = Some p → proc_tab s !! p = Some q →
  (lift_cs (release L_bcache);; acquiresleep (SL_buf i);; mret i)
    (set_bcache bc (set_cs (taken L_bcache (cs s)) s)) = Ret i (got i (p_pid q) bc s).
Proof.
  intros E Hi Hh Hp Hq.
  erewrite bind_ret; [|apply (k_release 0 L_bcache (cs s)); [apply E|apply E|done]].
  replace (set_cs (cs s) (set_bcache bc (set_cs (taken L_bcache (cs s)) s))) with (set_bcache bc s) by by destruct s.
  erewrite bind_ret.
  2:{ apply (acquiresleep_eq 0 (SL_buf i) p); [apply E|lia|by apply E|done|]. by apply (ei_free _ _ E). }
  cbn [proc_tab set_bcache slocks]. rewrite (nth_lookup_Some _ _ proc0 _ Hq). done.
Qed.

Lemma upd_buf_set_bcache i f bc s : upd_buf i f (set_bcache bc s) = Ret tt (set_bcache (bc_alter f i bc) s).
Proof. reflexivity. Qed.

Lemma recycle_eq b i bc :
  bc_alter (set_b_refcnt 1) i (bc_alter (set_b_valid 0) i (bc_alter (set_b_blockno b) i (bc_alter (set_b_dev ROOTDEV) i bc)))
  = bc_alter (recycle b) i bc.
Proof. by rewrite !bc_alter_alter. Qed.

Lemma bget_ok V s b p q :
  bio_inv V s → blk_ok b → (∀ i, v_held V !! i ≠ Some b) →
  (is_Some (v_ref V !! b) ∨ (size (v_ref V) < Z.to_nat NBUF)%nat) → small 1 (v_ref V) →
  cur_proc s = Some p → proc_tab s !! p = Some q →
  ∃ i bc, bget ROOTDEV b s = Ret i (got i (p_pid q) bc s) ∧ v_held V !! i = None ∧
    bc_inv (Some i) (v_bread i b V) bc ∧ cached bc i b.
Proof.
  intros I Hb Hh Hroom Hsm Hp Hq. destruct I as [Ib Ie Iv _]. destruct (bc_lru _ _ _ Ib) as [l Hl].
  unfold bget. erewrite bind_ret; [|eapply k_acquire; apply Ie].
  erewrite bind_ret; [|reflexivity]. change (bcache (set_cs _ s)) with (bcache s).
  rewrite (lru_find_cached _ l) by done.
  destruct (List.find (has_block (bcache s) ROOTDEV b) l) as [i|] eqn:Ef.
  - apply find_some in Ef as [Hin Hbl]. apply list_elem_of_In, (lru_in _ _ _ Hl) in Hin.
    unfold has_block in Hbl. apply andb_true_iff in Hbl as [Hd%Z.eqb_eq Hbn%Z.eqb_eq].
    assert (cached (bcache s) i b) as Hc by done.
    assert (v_held V !! i = None) as Hi.
    { destruct (v_held V !! i) as [b'|] eqn:E; [|done]. destruct (bc_held _ _ _ Ib _ _ E) as [Hc' _].
      apply (bc_inv_self _ _ _ _ _ _ Ib Hc) in Hc' as ->. by destruct (Hh i). }
    eexists i, _. split_and!; [|done|by apply bc_hit|].
    + erewrite bind_ret; [|reflexivity]. by eapply bget_tail_eq.
    + unfold cached. rewrite bufn_alter, decide_True by (done || rewrite (bc_len _ _ _ Ib); done). done.
  - assert (∀ j, ¬ cached (bcache s) j b) as Hno.
    { intros j (Hj & Hd & Hbn). apply (lru_in _ _ _ Hl), list_elem_of_In in Hj.
      pose proof (find_none _ _ Ef j Hj) as Hf. unfold has_block in Hf. rewrite Hd, Hbn, !Z.eqb_refl in Hf. done. }
    assert (size (v_ref V) < Z.to_nat NBUF)%nat as Hsz.
    { destruct Hroom as [[n Hn]|?]; [|done]. destruct (bc_refs _ _ _ Ib _ _ Hn) as [_ [j Hj]]. by destruct (Hno j). }
    destruct (find_room V (bcache s) l Ib Hl Hsz) as (i & Ef' & Hi & Hz).
    rewrite (lru_find_unused _ l), Ef' by done.
    assert (v_held V !! i = None) as Hi'.
    { destruct (v_held V !! i) as [b'|] eqn:E; [|done]. destruct (bc_held _ _ _ Ib _ _ E) as [Hc [n Hn]].
      rewrite (bo_refcnt _ _ _ _ (bc_cached _ _ _ Ib _ _ Hc)) in Hz. unfold refs in Hz. rewrite Hn in Hz. cbn in Hz.
      destruct (bc_refs _ _ _ Ib _ _ Hn). lia. }
    exists i, (bc_alter (recycle b) i (bcache s)). split_and!; [|done|by apply bc_miss|].
    + erewrite bind_ret; [|reflexivity].
      change (set_bcache _ (set_cs (taken L_bcache (cs s)) s))
        with (set_bcache (bc_alter (set_b_dev ROOTDEV) i (bcache s)) (set_cs (taken L_bcache (cs s)) s)).
      do 3 (erewrite bind_ret; [|apply upd_buf_set_bcache]). rewrite recycle_eq. by apply (bget_tail_eq V _ _ _ p).
    + unfold cached. rewrite bufn_alter, decide_True by (done || rewrite (bc_len _ _ _ Ib); done). done.
Qed.

Lemma bc_filled V bc i : bc_inv (Some i) V bc → b_valid (bufn bc i) ≠ 0 → bc_inv None V bc.
Proof.
  intros [H1 H2 H3 H4 H5 H6 H7 H8] Hv. split; try done. intros j b Hj. destruct (H5 j b Hj) as [G1 G2 G3 G4].
  split; try done. intros Hz. destruct (decide (i = j)) as [<-|Hij]; [done|].
  rewrite bool_decide_eq_false_2 in G3 by congruence. auto.
Qed.

Lemma c_bool_false z : c_bool z = false → z = 0.
Proof. unfold c_bool. intros H%negb_false_iff%Z.eqb_eq. done. Qed.
Lemma c_bool_true z : c_bool z = true → z ≠ 0.
Proof. unfold c_bool. intros H%negb_true_iff%Z.eqb_neq. done. Qed.

(** The end of [bread]: reading the block into a buffer that is not valid. *)
Lemma bc_read V bc i b :
  bc_inv (Some i) V bc → cached bc i b → b_valid (bufn bc i) = 0 →
  (∀ j b', v_held V !! j = Some b' → j = i → b' = b ∧ is_Some (v_ref V !! b)) →
  bc_inv None V (bc_alter (λ bf, set_b_valid 1 (served_buf false (v_disk V b) bf)) i bc).
Proof.
  intros I Hc Hv Hh. pose proof (bc_cached _ _ _ I _ _ Hc) as [Ho1 Ho2 Ho3 Ho4].
  assert (v_content V b = v_disk V b) as Hcd.
  { destruct (Ho3 Hv) as [Hn|[_ ?]]; [by apply (bc_clean _ _ _ I)|done]. }
  apply (bc_change (Some i) V _ bc _ i b); try done.
  - by right.
  - intros j b' Hj. destruct (decide (j = i)) as [->|]; [|by right]. left. by destruct (Hh i b' Hj).
  - intros n Hn. split; [by apply (bc_refs _ _ _ I b)|]. pose proof (bc_small _ _ _ I b n Hn). lia.
Qed.

Context {DE : DiskEnv}.

Lemma bread_ok V s b :
  bio_inv V s → blk_ok b → (∀ i, v_held V !! i ≠ Some b) →
  (is_Some (v_ref V !! b) ∨ (size (v_ref V) < Z.to_nat NBUF)%nat) → small 1 (v_ref V) → (0 < sched_left s)%nat →
  wp (bio_bread ROOTDEV b) (λ i s', v_held V !! i = None ∧ bio_inv (v_bread i b V) s' ∧ bframe 1 s s') s.
Proof.
  intros I Hb Hh Hroom Hsm Hs. pose proof (bi_env _ _ I) as Ie. destruct (ei_me _ _ Ie) as (p & q & Hp & Hq & Hst & Hch & _).
  destruct (bget_ok V s b p q I Hb Hh Hroom Hsm Hp Hq) as (i & bc & E & Hi & Ib & Hc).
  pose proof (env_inv_hold V s i b p q bc Ie Hp Hq) as Ie1. fold (got i (p_pid q) bc s) in Ie1.
  set (s1 := got i (p_pid q) bc s) in *.
  unfold bio_bread, wp. erewrite bind_ret; [|exact E]. erewrite bind_ret; [|reflexivity].
  change (bcache s1) with bc.
  destruct (c_bool (b_valid (bufn bc i))) eqn:Hv; cbn [negb when].
  - erewrite bind_ret; [|reflexivity]. cbn. split_and!; [done| |].
    + split; [|done|by apply (vd_inv_ext V), I|apply I]. apply (bc_filled _ _ i); [done|]. by apply c_bool_true.
    + exists (slocks s1), bc, (vdisk s), (proc_tab s), (sched_left s). split_and!; [by destruct s|by intros; apply lookup_insert_ne|done|done|lia].
  - apply c_bool_false in Hv. destruct (sched_left s) as [|n] eqn:Hn; [lia|].
    destruct (disk_rw_eq p q i false s1 n) as (t & vd & E2 & Ht & Hq2 & Hr & Hd & Hhist); try done; try apply Ie1.
    { apply I. }
    { change (bcache s1) with bc. rewrite (bc_len _ _ _ Ib). apply Hc. }
    { change (bcache s1) with bc. destruct Hc as (_ & _ & ->). exact Hb. }
    change (bcache s1) with bc in E2, Hd, Hhist. change (vdisk s1) with (vdisk s) in E2, Hd, Hhist.
    replace (b_blockno (bufn bc i)) with b in E2 by (by destruct Hc as (_ & _ & <-)).
    erewrite bind_ret; [|erewrite bind_ret; [|exact E2]; reflexivity]. cbn. split_and!; [done| |].
    + assert (block_of (vdisk s) b = v_disk V b) as Eb by (by rewrite (vi_disk _ _ (bi_vd _ _ I))).
      split.
      * change (bc_inv None (v_bread i b V) (bc_alter (set_b_valid 1) i
          (bc_alter (served_buf false (block_of (vdisk s) b)) i bc))).
        rewrite bc_alter_alter, Eb. apply (bc_read (v_bread i b V)); try done.
        intros j b' Hj ->. cbn in Hj. rewrite lookup_insert_eq in Hj. injection Hj as <-. split; [done|].
        cbn. unfold ref_inc. rewrite lookup_insert_eq. eauto.
      * apply (env_inv_ext _ _ s1 _ Ie1); try done; [cbn; rewrite Ht; symmetry; apply Ie1|].
        intros p' Hp'. change (cur_proc s1) with (cur_proc s) in Hp'. rewrite Hp in Hp'. injection Hp' as <-.
        cbn. by rewrite Hq2.
      * split; [done| |].
        -- intros b'. change (v_disk V b' = block_of vd b'). rewrite Hd. apply (vi_disk _ _ (bi_vd _ _ I)).
        -- change (v_hist V = vd_hist vd). rewrite Hhist. apply (vi_hist _ _ (bi_vd _ _ I)).
      * apply I.
    + unfold modify. eexists (slocks s1), _, vd, t, n. split_and!.
      * unfold s1. destruct s. reflexivity.
      * intros j. by apply lookup_insert_ne.
      * rewrite Ht. symmetry. apply Ie.
      * intros p' Hp'. rewrite Hp in Hp'. injection Hp' as <-. by rewrite Hq2.
      * lia.
Qed.

(** What is known of a buffer that the thread holds. *)
Lemma held_facts V s i b :
  bio_inv V s → v_held V !! i = Some b →
  cached (bcache s) i b ∧ b_valid (bufn (bcache s) i) ≠ 0 ∧ b_data (bufn (bcache s) i) = v_content V b ∧
  ∃ n, v_ref V !! b = Some (S n) ∧ b_refcnt (bufn (bcache s) i) = Z.of_nat (S n) ∧ Z.of_nat (S n) < 2 ^ 32.
Proof.
  intros I Hi. destruct (bc_held _ _ _ (bi_bc _ _ I) _ _ Hi) as [Hc [m Hm]].
  destruct (bc_refs _ _ _ (bi_bc _ _ I) _ _ Hm) as [Hm0 _]. destruct m as [|n]; [done|].
  pose proof (bc_cached _ _ _ (bi_bc _ _ I) _ _ Hc) as [Ho1 Ho2 Ho3 Ho4].
  pose proof (bc_small _ _ _ (bi_bc _ _ I) b _ Hm).
  assert (b_valid (bufn (bcache s) i) ≠ 0) as Hv.
  { intros Hv. destruct (Ho3 Hv) as [?|[[=] _]]. congruence. }
  split_and!; [done|done|by apply Ho4|]. exists n. split_and!; [done| |lia].
  rewrite Ho2. unfold refs. by rewrite Hm.
Qed.

Lemma holdingsleep_held V s i b :
  bio_inv V s → v_held V !! i = Some b → holdingsleep (SL_buf i) s = Ret true s.
Proof.
  intros I Hi. pose proof (bi_env _ _ I) as Ie. destruct (ei_me _ _ Ie) as (p & q & Hp & Hq & _ & _ & Hl).
  destruct (Hl _ _ Hi) as [Hl1 Hl2]. destruct (held_facts V s i b I Hi) as ((Hlt & _) & _).
  rewrite (holdingsleep_eq 0 (SL_buf i) p); [|apply Ie|lia|by apply Ie|done].
  rewrite Hl1, Hl2, (nth_lookup_Some _ _ proc0 _ Hq), Z.eqb_refl. done.
Qed.

(** The references to the other blocks, and the buffers held, when only [b] changes. *)
Lemma held_same V V' i b j b' :
  v_held V' = v_held V → v_held V !! i = Some b → is_Some (v_ref V' !! b) →
  v_held V' !! j = Some b' →
  (j = i ∧ b' = b ∧ is_Some (v_ref V' !! b)) ∨ (j ≠ i ∧ v_held V !! j = Some b').
Proof.
  intros -> Hi Hr Hj. destruct (decide (j = i)) as [->|]; [left|by right]. rewrite Hi in Hj. by injection Hj as <-.
Qed.

Lemma bwrite_ok V s i b :
  bio_inv V s → v_held V !! i = Some b → (0 < sched_left s)%nat →
  wp (bio_bwrite i) (λ _ s', bio_inv (v_bwrite b V) s' ∧ bframe 1 s s') s.
Proof.
  intros I Hi Hs. pose proof (bi_env _ _ I) as Ie. destruct (ei_me _ _ Ie) as (p & q & Hp & Hq & Hst & Hch & _).
  destruct (held_facts V s i b I Hi) as (Hc & Hv & Hdata & n0 & Hn0 & Href & Hlt).
  unfold bio_bwrite, wp. erewrite bind_ret; [|by eapply holdingsleep_held]. cbn [negb].
  destruct (sched_left s) as [|n] eqn:Hn; [lia|].
  destruct (disk_rw_eq p q i true s n) as (t & vd & E2 & Ht & Hq2 & Hr & Hd & Hhist); try done; try apply Ie.
  { apply I. }
  { rewrite (bc_len _ _ _ (bi_bc _ _ I)). apply Hc. }
  { pose proof (bo_blk _ _ _ _ (bc_cached _ _ _ (bi_bc _ _ I) _ _ Hc)) as Hb. destruct Hc as (_ & _ & ->). exact Hb. }
  rewrite Hdata in E2, Hd, Hhist. replace (b_blockno (bufn (bcache s) i)) with b in Hd, Hhist by (by destruct Hc as (_ & _ & <-)).
  rewrite E2. split.
  - split.
    + change (bc_inv None (v_bwrite b V) (bc_alter (served_buf true (v_content V b)) i (bcache s))).
      apply (bc_change None V _ (bcache s) _ i b); try done; [apply I|by left| | | | |].
      * intros b' Hne. cbn. by rewrite upd_ne.
      * intros j b'. by apply held_same.
      * pose proof (bc_cached _ _ _ (bi_bc _ _ I) _ _ Hc) as [Ho1 Ho2 Ho3 Ho4]. by split.
      * intros m Hm. cbn in Hm. rewrite Hn0 in Hm. injection Hm as <-. done.
      * cbn. congruence.
    + apply (env_inv_ext _ _ s _ Ie); try done; [cbn; rewrite Ht; symmetry; apply Ie|].
      intros p' Hp'. rewrite Hp in Hp'. injection Hp' as <-. cbn. by rewrite Hq2.
    + split; [done| |].
      * intros b'. change (upd (v_disk V) b (v_content V b) b' = block_of vd b'). rewrite Hd. unfold upd.
        case_decide; [done|]. apply (vi_disk _ _ (bi_vd _ _ I)).
      * change (v_hist V ++ [(b, v_content V b)] = vd_hist vd). rewrite Hhist. f_equal. apply (vi_hist _ _ (bi_vd _ _ I)).
    + apply I.
  - eexists (slocks s), _, vd, t, n. split_and!; [by destruct s|done|rewrite Ht; symmetry; apply Ie| |lia].
    intros p' Hp'. rewrite Hp in Hp'. injection Hp' as <-. by rewrite Hq2.
Qed.

Lemma store_ok V s i b d :
  bio_inv V s → v_held V !! i = Some b → length d = Z.to_nat BSIZE →
  wp (upd_buf i (set_b_data d)) (λ _ s', bio_inv (v_store b d V) s' ∧ bframe 0 s s') s.
Proof.
  intros I Hi Hd. destruct (held_facts V s i b I Hi) as (Hc & Hv & Hdata & n0 & Hn0 & Href & Hlt).
  apply wp_modify. split.
  - split.
    + change (bc_inv None (v_store b d V) (bc_alter (set_b_data d) i (bcache s))).
      apply (bc_change None V _ (bcache s) _ i b); try done; [apply I|by left| | | | |].
      * intros b' Hne. cbn. by rewrite upd_ne.
      * intros j b'. by apply held_same.
      * pose proof (bc_cached _ _ _ (bi_bc _ _ I) _ _ Hc) as [Ho1 Ho2 Ho3 Ho4]. split; [done|done|done|].
        intros _. cbn. by rewrite upd_eq.
      * intros m Hm. cbn in Hm. rewrite Hn0 in Hm. injection Hm as <-. done.
      * cbn. congruence.
    + by apply (env_inv_ext _ _ s _ (bi_env _ _ I)).
    + apply (vd_inv_ext V); [done..|apply I].
    + intros b'. cbn. unfold upd. case_decide; [done|apply I].
  - exists (slocks s), (bc_alter (set_b_data d) i (bcache s)), (vdisk s), (proc_tab s), (sched_left s). split_and!; [by destruct s|done|done|done|lia].
Qed.

Definition inc_ref (bf : buf) : buf := set_b_refcnt (u32 (b_refcnt bf + 1)) bf.
Definition dec_ref (bf : buf) : buf := set_b_refcnt (u32 (b_refcnt bf - 1)) bf.

Lemma ref_dec_at b r n : r !! b = Some (S n) → ref_dec b r !! b = if decide (n = O) then None else Some n.
Proof.
  intros H. unfold ref_dec. rewrite H. destruct n as [|n]; cbn.
  - by rewrite lookup_delete_eq.
  - by rewrite lookup_insert_eq.
Qed.

(** One reference less, in a view whose held buffers are [h]. *)
Lemma bc_dec V h bc i b n :
  bc_inv None V bc → cached bc i b → b_valid (bufn bc i) ≠ 0 → v_ref V !! b = Some (S n) →
  (∀ j b', h !! j = Some b' → (j = i ∧ b' = b ∧ n ≠ O) ∨ (j ≠ i ∧ v_held V !! j = Some b')) →
  (n = O → v_content V b = v_disk V b) →
  bc_inv None (Mk_bview (v_content V) (v_disk V) (v_hist V) h (ref_dec b (v_ref V))) (bc_alter dec_ref i bc).
Proof.
  intros I Hc Hv Hn Hh Hclean. pose proof (bc_cached _ _ _ I _ _ Hc) as [Ho1 Ho2 Ho3 Ho4].
  pose proof (bc_small _ _ _ I b _ Hn) as Hsm. pose proof (ref_dec_at b _ n Hn) as Hd.
  apply (bc_change None V _ bc _ i b); try done; [by left|..]; cbn.
  - intros b' Hne. by rewrite ref_dec_ne.
  - intros j b' [(-> & -> & Hn0)|?]%Hh; [|by right]. left. rewrite Hd, decide_False by done. eauto.
  - split; [done| |done|done]. cbn. rewrite Ho2. unfold refs. cbn. rewrite Hn, Hd. cbn [default].
    unfold u32. rewrite Z.mod_small by (cbn; lia). destruct (decide (n = O)) as [->|]; cbn; lia.
  - intros m. rewrite Hd. case_decide; [done|]. intros [= <-]. split; [done|]. lia.
  - rewrite Hd. case_decide; [auto|done].
Qed.

Lemma brelse_ok V s i b :
  bio_inv V s → v_held V !! i = Some b → (v_ref V !! b = Some 1%nat → v_content V b = v_disk V b) →
  wp (bio_brelse i) (λ _ s', bio_inv (v_brelse i b V) s' ∧ bframe 0 s s') s.
Proof.
  intros I Hi Hclean. pose proof (bi_env _ _ I) as Ie. destruct (ei_me _ _ Ie) as (p & q & Hp & Hq & _ & _ & Hl).
  destruct (held_facts V s i b I Hi) as (Hc & Hv & Hdata & n & Hn & Href & Hlt).
  set (bc := bcache s) in *. pose proof (bc_len _ _ _ (bi_bc _ _ I)) as Hlen. fold bc in Hlen.
  set (t := woken (Some (C_sleeplock (SL_buf i))) (Some p) (proc_tab s)).
  assert (length t = length (proc_tab s)) as Ht by (unfold t, woken; by rewrite length_imap).
  assert (t !! p = proc_tab s !! p) as Htp by apply woken_me.
  set (s1 := set_proc_tab t (set_slocks (<[SL_buf i := sl_freed (get_slock (SL_buf i) s)]> (slocks s)) s)).
  assert (env_inv (v_brelse i b V) s1) as Ie1.
  { apply env_inv_unhold; [done|done|]. intros p' Hp'. rewrite Hp in Hp'. by injection Hp' as <-. }
  assert (bc_inv None (v_brelse i b V) (bc_alter dec_ref i bc)) as Ib.
  { apply (bc_dec V _ bc i b n); try done; [apply I| |intros ->; by apply Hclean].
    intros j b'. destruct (decide (i = j)) as [<-|]; [by rewrite lookup_delete_eq|].
    rewrite lookup_delete_ne by done. by right. }
  assert (∃ bc2, bc_inv None (v_brelse i b V) bc2 ∧
    bio_brelse i s = Ret tt (set_bcache bc2 s1)) as (bc2 & Ib2 & E).
  { set (bc1 := bc_alter dec_ref i bc) in *.
    destruct (bc_lru _ _ _ Ib) as [l Hlru].
    assert (i ∈ l) as Hin by (apply (lru_in _ _ _ Hlru); apply Hc).
    apply list_elem_of_split in Hin as (l1 & l2 & ->).
    destruct (lru_move bc1 l1 i l2 Hlru) as [Hmove Hcore].
    exists (if b_refcnt (bufn bc1 i) =? 0 then push_front i (unlink i bc1) else bc1). split.
    { case_match; [|done]. eapply bc_inv_core; [done|done|by eexists]. }
    unfold bio_brelse. erewrite bind_ret; [|by eapply holdingsleep_held]. cbn [negb].
    erewrite bind_ret.
    2:{ apply (releasesleep_eq 0); [apply Ie|lia|by apply Ie, Hc| |apply Ie]. intros r Hr _. by apply Ie. }
    rewrite Hp. fold t s1.
    erewrite bind_ret; [|apply (k_acquire 0); apply Ie1].
    erewrite bind_ret; [|reflexivity]. erewrite bind_ret; [|reflexivity].
    change (nth i (bufs (bcache (set_bcache _ _))) buf0) with (bufn bc1 i).
    destruct (b_refcnt (bufn bc1 i) =? 0); cbn [when].
    - erewrite bind_ret; [|erewrite bind_ret; [|reflexivity]; reflexivity].
      rewrite (k_release 0 L_bcache (cs s1)); [|apply Ie1|apply Ie1|done]. unfold s1. by destruct s.
    - erewrite bind_ret; [|reflexivity].
      rewrite (k_release 0 L_bcache (cs s1)); [|apply Ie1|apply Ie1|done]. unfold s1. by destruct s. }
  unfold wp. rewrite E. split.
  - split; [done|by apply (env_inv_ext _ _ s1 _ Ie1)|by apply (vd_inv_ext V), I|apply I].
  - exists (slocks s1), bc2, (vdisk s), t, (sched_left s). split_and!; [by destruct s|by intros; apply lookup_insert_ne|done| |lia].
    intros p' Hp'. rewrite Hp in Hp'. by injection Hp' as <-.
Qed.

Lemma bunpin_ok V s i b :
  bio_inv V s → v_held V !! i = Some b → v_ref V !! b ≠ Some 1%nat →
  wp (bio_bunpin i) (λ _ s', bio_inv (v_unpin b V) s' ∧ bframe 0 s s') s.
Proof.
  intros I Hi H1. pose proof (bi_env _ _ I) as Ie.
  destruct (held_facts V s i b I Hi) as (Hc & Hv & Hdata & n & Hn & Href & Hlt).
  assert (n ≠ O) as Hn0 by (intros ->; congruence).
  unfold wp, bio_bunpin. rewrite (bcache_locked_eq _ _ _ 0); [|apply Ie..]. split.
  - split.
    + apply (bc_dec V (v_held V) _ i b n); try done; [apply I|].
      intros j b' Hj. destruct (decide (j = i)) as [->|]; [left; split_and!; [done|congruence|done]|by right].
    + by apply (env_inv_ext _ _ s _ Ie).
    + by apply (vd_inv_ext V), I.
    + apply I.
  - exists (slocks s), (bc_alter dec_ref i (bcache s)), (vdisk s), (proc_tab s), (sched_left s).
    split_and!; [by destruct s|done|done|done|lia].
Qed.

Lemma bpin_ok V s i b :
  bio_inv V s → v_held V !! i = Some b → small 1 (v_ref V) →
  wp (bio_bpin i) (λ _ s', ∃ s1, s' = set_cs (taken L_log (cs s)) s1 ∧ bio_inv (v_pin b V) s1 ∧ bframe 0 s s1)
    (set_cs (taken L_log (cs s)) s).
Proof.
  intros I Hi Hsm. pose proof (bi_env _ _ I) as Ie.
  destruct (held_facts V s i b I Hi) as (Hc & Hv & Hdata & n & Hn & Href & Hlt).
  pose proof (Hsm b _ Hn) as Hs1. assert (ref_inc b (v_ref V) !! b = Some (S (S n))) as Hinc
    by (unfold ref_inc; by rewrite lookup_insert_eq, Hn).
  unfold wp, bio_bpin. rewrite (bcache_locked_eq _ _ _ 1).
  2:{ apply (taken_ok (ei_cs _ _ Ie)). lia. }
  2:{ apply taken_free; [done|apply Ie]. }
  exists (set_bcache (bc_alter inc_ref i (bcache s)) s). split; [by destruct s|]. split.
  - split.
    + pose proof (bc_cached _ _ _ (bi_bc _ _ I) _ _ Hc) as [Ho1 Ho2 Ho3 Ho4].
      apply (bc_change None V _ (bcache s) inc_ref i b); try done; [apply I|by left| | | | |]; cbn.
      * intros b' Hne. by rewrite ref_inc_ne.
      * intros j b' Hj. apply (held_same V (v_pin b V)); [done|done|cbn; by rewrite Hinc|done].
      * split; [done| |done|done]. cbn -[refs Z.of_nat]. rewrite Href. unfold refs. cbn [v_ref v_pin]. rewrite Hinc. cbn [default].
        unfold u32. rewrite Z.mod_small; cbn [default from_option id]; lia.
      * intros m. rewrite Hinc. intros [= <-]. split; [done|lia].
      * by rewrite Hinc.
    + by apply (env_inv_ext _ _ s _ Ie).
    + by apply (vd_inv_ext V), I.
    + apply I.
  - exists (slocks s), (bc_alter inc_ref i (bcache s)), (vdisk s), (proc_tab s), (sched_left s).
    split_and!; [by destruct s|done|done|done|lia].
Qed.

Lemma buf_ok_proper f V V' b bf : V ≡ V' → buf_ok f V b bf → buf_ok f V' b bf.
Proof.
  intros [Ec Ed _ _ Er] [H1 H2 H3 H4]. split; unfold refs in *; rewrite <- ?Er, <- ?Ec, <- ?Ed; done.
Qed.

Lemma bio_inv_impl V V' s : V ≡ V' → bio_inv V s → bio_inv V' s.
Proof.
  intros HV [[H1 H2 H3 H4 H5 H6 H7 H8] Ie Iv Hl]. pose proof HV as [Ec Ed Eh Ehe Er]. split.
  - split; rewrite <- ?Ehe, <- ?Er; try done.
    + intros i b Hi. eapply buf_ok_proper; [done|]. by apply H5.
    + intros b Hb. rewrite <- Ec, <- Ed. by apply H8.
  - by apply (env_inv_ext _ _ s _ Ie).
  - destruct Iv as [G1 G2 G3]. split; [done|intros b; by rewrite <- Ed|congruence].
  - intros b. by rewrite <- Ec.
Qed.

Global Program Instance bio_laws : BlockLaws bio := {| binv := bio_inv |}.
Next Obligation.
  intros V V' HV s s' <-. split; apply bio_inv_impl; [done|by symmetry].
Qed.
Next Obligation.
  intros V s i b I Hi bf. destruct (held_facts V s i b I Hi) as ((_ & _ & ?) & _ & ? & _). done.
Qed.
Next Obligation.
  intros V s i b I Hi. by apply (bc_held _ _ _ (bi_bc _ _ I) i).
Qed.
Next Obligation.
  intros V s i j b I Hi Hj. apply (bc_uniq _ _ _ (bi_bc _ _ I) _ _ b); by apply (bc_held _ _ _ (bi_bc _ _ I)).
Qed.
Next Obligation.
  intros V s b n I Hn. by apply (bc_refs _ _ _ (bi_bc _ _ I) b).
Qed.
Next Obligation.
  intros V s b I. apply (bc_clean _ _ _ (bi_bc _ _ I)).
Qed.
Next Obligation.
  intros V s b I. apply I.
Qed.
Next Obligation.
  intros V s lg [H1 H2 H3 H4]. split; [done| |done|done]. by apply (env_inv_ext _ _ s _ H2).
Qed.
Next Obligation.
  intros V s t [H1 H2 H3 H4]. split; [done| |done|done]. by apply (env_inv_ext _ _ s _ H2).
Qed.
Next Obligation.
  intros V s m [H1 H2 H3 H4]. split; [done| |done|done]. by apply (env_inv_ext _ _ s _ H2).
Qed.
Next Obligation.
  intros V s t [H1 H2 H3 H4]. split; [done| |done|done]. by apply (env_inv_ext _ _ s _ H2).
Qed.
Next Obligation.
  intros V s j k [H1 H2 H3 H4]. split; [done| |done|done]. by apply env_inv_slock.
Qed.
Next Obligation.
  intros V s I. destruct (ei_me _ _ (bi_env _ _ I)) as (p & _ & Hp & _). by exists p.
Qed.
Next Obligation.
  intros V s I. split_and!; apply (bi_env _ _ I).
Qed.
Next Obligation.
  intros V s ch [H1 H2 H3 H4]. split; [done| |done|done]. apply (env_inv_ext _ _ s _ H2); try done.
  - cbn. unfold woken. by rewrite length_imap.
  - intros p Hp. cbn. rewrite Hp. apply woken_me.
Qed.
Next Obligation.
  intros V s i b d. apply store_ok.
Qed.
Next Obligation.
  intros V s b. apply bread_ok.
Qed.
Next Obligation.
  intros V s i b. apply bwrite_ok.
Qed.
Next Obligation.
  intros V s i b. apply brelse_ok.
Qed.
Next Obligation.
  intros V s i b. apply bpin_ok.
Qed.
Next Obligation.
  intros V s i b. apply bunpin_ok.
Qed.
End bio.
