(* ===== verification/BioBoot.v ===== *)
(** * The buffer cache after boot

    [binit] builds the list of buffers; with it, and with an idle driver, the buffer
    cache represents the blocks of the disk and nothing is in use. A concrete machine
    that serves the disk is given as well. *)

From S2P Require Import Prelude Machine State Spinlock KString Kalloc Vm Proc Sched Sleeplock Virtio VirtioProofs Bio LruProofs BlockSpec BioInv BioProofs.

Section binit.
Context `{L : Layout} `{Oth : Others} `{VD : VirtioDev}.

(** One round of the loop of [binit] is [push_front] and the initialisation of a lock. *)
Definition binit_round (b : nat) : K unit :=
  upd_bcache (λ c, set_next b (head_next c) c);;
  upd_bcache (set_prev b HEAD);;
  initsleeplock (SL_buf b) "buffer";;
  upd_bcache (λ c, set_prev (head_next c) b c);;
  upd_bcache (set_next HEAD b).

(** The other components that [binit] changes. *)
Definition booted (c : cstate) (sl : gmap sleepid sleeplock) (bc : bcache_state) (s : kstate) : kstate :=
  set_cs c (set_slocks sl (set_bcache bc s)).

Lemma binit_round_eq b c sl bc s :
  binit_round b (booted c sl bc s)
  = Ret tt (booted (put_lock (L_sleep (SL_buf b)) (Mk_spinlock 0 "sleep lock" None) c)
      (<[SL_buf b := Mk_sleeplock 0 "buffer" 0]> sl) (push_front b bc) s).
Proof.
  unfold binit_round, initsleeplock. do 2 (erewrite bind_ret; [|reflexivity]).
  erewrite bind_ret.
  2:{ do 3 (erewrite bind_ret; [|reflexivity]). reflexivity. }
  do 1 (erewrite bind_ret; [|reflexivity]). cbn [slocks set_slocks set_cs sl_locked sl_name sl_pid].
  unfold upd_bcache, modify. rewrite !get_slock_insert. cbn [sl_locked sl_name sl_pid].
  rewrite !insert_insert_eq. unfold push_front. reflexivity.
Qed.

(** The list after [k] rounds. *)
Lemma binit_loop k i c sl bc s :
  (i + k = HEAD)%nat → length (bufs bc) = HEAD →
  seg (next_of bc) (prev_of bc) HEAD (reverse (seq 0 i)) HEAD →
  ∃ c' sl' bc', mfor (seq i k) binit_round (booted c sl bc s) = Ret tt (booted c' sl' bc' s) ∧
    seg (next_of bc') (prev_of bc') HEAD (reverse (seq 0 HEAD)) HEAD ∧ same_core bc bc' ∧
    (∀ j, (i ≤ j < HEAD)%nat → lock_free (L_sleep (SL_buf j)) c' ∧ sl' !! SL_buf j = Some (Mk_sleeplock 0 "buffer" 0)) ∧
    (∀ j, (j < i)%nat → locks c' !! L_sleep (SL_buf j) = locks c !! L_sleep (SL_buf j) ∧ sl' !! SL_buf j = sl !! SL_buf j) ∧
    (∃ m, c' = set_locks m c ∧ ∀ l, (∀ j, l ≠ L_sleep (SL_buf j)) → m !! l = locks c !! l).
Proof.
  revert i c sl bc. induction k as [|k IH]; intros i c sl bc Hik Hl Hs.
  - exists c, sl, bc. replace i with HEAD in * by lia. split_and!; try done; [lia|].
    exists (locks c). split; [by destruct c|done].
  - cbn [seq mfor]. erewrite bind_ret; [|apply binit_round_eq].
    set (l := reverse (seq 0 i)) in *.
    assert (∀ a, a ∈ l → (a < i)%nat) as Hin by (intros a Ha; apply elem_of_reverse, elem_of_seq in Ha; lia).
    assert (next_of bc HEAD ≤ HEAD)%nat as Hn.
    { rewrite (seg_first _ _ _ _ _ Hs). destruct l as [|y r]; [done|]. cbn. specialize (Hin y ltac:(set_solver)). lia. }
    destruct (push_front_links bc i Hl ltac:(lia) Hn) as (C & N & P).
    assert (next_of bc HEAD ≠ i) as Hne.
    { rewrite (seg_first _ _ _ _ _ Hs). destruct l as [|y r]; cbn; [lia|]. specialize (Hin y ltac:(set_solver)). lia. }
    assert (NoDup (i :: l)) as Hnd.
    { apply NoDup_cons. split; [intros Ha; apply Hin in Ha; lia|].
      unfold l. rewrite reverse_Permutation. apply NoDup_seq. }
    destruct (IH (S i) (put_lock (L_sleep (SL_buf i)) (Mk_spinlock 0 "sleep lock" None) c)
      (<[SL_buf i := Mk_sleeplock 0 "buffer" 0]> sl) (push_front i bc)) as (c' & sl' & bc' & E & Hs' & C' & H1 & H2 & m & -> & Hm).
    { lia. }
    { by rewrite (proj1 C). }
    { rewrite seq_S, reverse_app. cbn [reverse app Nat.add].
      apply (seg_push (next_of bc) (prev_of bc)); try done; try lia.
      - intros Ha. apply Hin in Ha. lia.
      - rewrite N. by rewrite decide_False, decide_True by lia.
      - rewrite P. by rewrite decide_True.
      - rewrite P. by rewrite decide_False, decide_True by congruence.
      - intros a Ha Ha'. rewrite N. by rewrite !decide_False.
      - intros a Ha Ha'. rewrite P. by rewrite !decide_False. }
    exists (set_locks m c), sl', bc'. split_and!; [exact E|done|by eapply same_core_trans| | |].
    + intros j Hj. destruct (decide (j = i)) as [->|]; [|apply H1; lia].
      destruct (H2 i ltac:(lia)) as [G1 G2]. cbn [put_lock set_locks locks] in G1. rewrite lookup_insert_eq in G1. rewrite lookup_insert_eq in G2.
      split; [by eexists|done].
    + intros j Hj. destruct (H2 j ltac:(lia)) as [G1 G2]. cbn [put_lock set_locks locks] in G1.
      rewrite lookup_insert_ne in G1 by (intros [=]; lia). rewrite lookup_insert_ne in G2 by (intros [=]; lia). done.
    + exists m. split; [done|]. intros l' Hl'. rewrite Hm by done. cbn. by rewrite lookup_insert_ne.
Qed.

(** [binit] links all the buffers, in the order in which they were added, and leaves
    their locks free and their other fields alone. *)
Lemma binit_eq s :
  length (bufs (bcache s)) = HEAD →
  ∃ c sl bc, binit s = Ret tt (booted c sl bc s) ∧
    lru bc (reverse (seq 0 HEAD)) ∧ same_core (bcache s) bc ∧
    (∀ j, (j < HEAD)%nat → lock_free (L_sleep (SL_buf j)) c ∧ sl !! SL_buf j = Some (Mk_sleeplock 0 "buffer" 0)) ∧
    lock_free L_bcache c ∧
    ∃ m, c = set_locks m (cs s) ∧
      ∀ l, (∀ j, l ≠ L_sleep (SL_buf j)) → l ≠ L_bcache → m !! l = locks (cs s) !! l.
Proof.
  intros Hl. unfold binit. do 3 (erewrite bind_ret; [|reflexivity]).
  set (bc0 := set_next HEAD HEAD (set_prev HEAD HEAD (bcache s))).
  destruct (binit_loop HEAD 0 (put_lock L_bcache (Mk_spinlock 0 "bcache" None) (cs s)) (slocks s) bc0 s)
    as (c & sl & bc & E & Hs & C & H1 & _ & m & -> & Hm).
  { lia. }
  { done. }
  { split; unfold bc0, next_of, prev_of, set_next, set_prev; by rewrite !decide_True. }
  exists (set_locks m (cs s)), sl, bc. split_and!.
  - exact E.
  - split; [done|by rewrite reverse_Permutation|]. by rewrite (proj1 C).
  - exact C.
  - intros j Hj. apply H1. lia.
  - exists "bcache"%string. cbn. rewrite Hm by done. cbn. by rewrite lookup_insert_eq.
  - exists m. split; [done|]. intros l Hl1 Hl2. rewrite Hm by done. cbn. by rewrite lookup_insert_ne.
Qed.

Lemma cs_ok_locks n m c : cs_ok n c → cs_ok n (set_locks m c).
Proof. intros []. by split. Qed.

(** The view of a machine in which no block is in use. *)
Definition view_of (d : vdisk_state) : bview := Mk_bview (block_of d) (block_of d) (vd_hist d) ∅ ∅.

(** The machine before [binit]: buffers that were never used, an idle driver, a running
    process. *)
Record prepared (s : kstate) : Prop := {
  pr_len : length (bufs (bcache s)) = HEAD;
  pr_bufs i : b_dev (bufn (bcache s) i) = 0 ∧ b_refcnt (bufn (bcache s) i) = 0;
  pr_cs : cs_ok 0 (cs s);
  pr_procs : procs_free None (cs s);
  pr_vdisk : lock_free L_vdisk (cs s);
  pr_tab : length (proc_tab s) = Z.to_nat NPROC;
  pr_me : ∃ p q, cur_proc s = Some p ∧ proc_tab s !! p = Some q ∧ p_state q = RUNNING ∧ p_chan q = None;
  pr_ready : vd_ready (vdisk s);
  pr_blocks b : length (block_of (vdisk s) b) = Z.to_nat BSIZE
}.

Lemma bc_inv_fresh d bc l :
  lru bc l → (∀ i, b_dev (bufn bc i) = 0 ∧ b_refcnt (bufn bc i) = 0) → bc_inv None (view_of d) bc.
Proof.
  intros Hl Hb. assert (∀ i b, ¬ cached bc i b) as Hno.
  { intros i b (_ & Hd & _). destruct (Hb i) as [E _]. rewrite E in Hd. done. }
  split; cbn; try done.
  - by exists l.
  - intros i j b Hi. by destruct (Hno i b).
  - intros i b Hi. by destruct (Hno i b).
  - intros i _ _. apply Hb.
Qed.

Lemma binit_inv s :
  prepared s →
  wp binit (λ _ s', bio_inv (view_of (vdisk s)) s' ∧ (∃ m sl bc, s' = booted (set_locks m (cs s)) sl bc s) ∧
    ∀ l, (∀ j, l ≠ L_sleep (SL_buf j)) → lock_free l (cs s) → l ≠ L_bcache → lock_free l (cs s')) s.
Proof.
  intros P. destruct (binit_eq s (pr_len _ P)) as (c & sl & bc & E & Hl & C & Hsl & Hbl & m & -> & Hm).
  assert (∀ l, (∀ j, l ≠ L_sleep (SL_buf j)) → lock_free l (cs s) → l ≠ L_bcache →
    lock_free l (set_locks m (cs s))) as Hfree.
  { intros l H1 [name Hn] H2. exists name. cbn. by rewrite Hm. }
  unfold wp. rewrite E. split; [|split; [by eexists _, sl, bc|exact Hfree]]. split.
  - apply (bc_inv_fresh _ _ _ Hl). intros i. destruct (core_fields _ _ (proj2 C i)) as (_ & -> & _ & -> & _). apply P.
  - destruct (pr_me _ P) as (p & q & Hp & Hq & Hst & Hch).
    split; cbn [cs booted set_cs proc_tab].
    + apply cs_ok_locks, P.
    + intros r Hr _. apply Hfree; [done| |done]. by apply P.
    + apply Hfree; [done| |done]. apply P.
    + exact Hbl.
    + intros i Hi. by apply Hsl.
    + apply P.
    + exists p, q. split_and!; [exact Hp|exact Hq|done|done|]. intros i b Hi. cbn in Hi. by rewrite lookup_empty in Hi.
    + intros i Hi _. unfold get_slock. cbn [slocks booted set_cs set_slocks].
      by rewrite (proj2 (Hsl i Hi)).
  - split; [apply P|done|done].
  - apply P.
Qed.
End binit.

(** ** A machine that serves the disk *)

(** A device whose registers hold what was written to them, but for acknowledgements. *)
Definition plain_dev : VirtioDev := λ r v m,
  if r =? VIRTIO_MMIO_INTERRUPT_ACK then
    <[VIRTIO_MMIO_INTERRUPT_STATUS := Z.land (default 0 (m !! VIRTIO_MMIO_INTERRUPT_STATUS)) (Z.lnot v)]> m
  else <[r := v]> m.

(** The rest of the machine only serves the disk. *)
Definition disk_others : Others := λ _ s,
  match cur_proc s with
  | Some p => match disk_service (VD := plain_dev) p s with Ret _ s' => s' | _ => s end
  | None => s
  end.

Lemma disk_others_env : DiskEnv (Oth := disk_others) (VD := plain_dev).
Proof.
  split.
  - split; intros v m; unfold mmio_write, plain_dev; cbn [Z.eqb Pos.eqb VIRTIO_MMIO_QUEUE_NOTIFY VIRTIO_MMIO_INTERRUPT_ACK];
      [by rewrite lookup_insert_eq|by rewrite lookup_insert_ne|by rewrite lookup_insert_ne|by rewrite lookup_insert_eq].
  - intros n s s' p b Hp _ _ E. unfold others, disk_others. rewrite Hp. by rewrite E.
Qed.

(** Process 1 of [pdemo], with an empty disk and [n] switches ahead. *)
Definition bdemo0 (n : nat) : kstate :=
  set_bcache (Mk_bcache (replicate HEAD buf0) O O)
    (set_vdisk (Mk_vdisk_state (replicate 8 desc0) 0 (replicate 8 0) 0 (replicate 8 0) (replicate 8 1) 0
      (replicate 8 None) (replicate 8 0) (replicate 8 (Mk_blk_req 0 0 0)) ∅ ∅ [])
    (set_sched_left n pdemo)).

Lemma bdemo0_prepared n : prepared (bdemo0 n).
Proof.
  split.
  - reflexivity.
  - intros i. cbn [bcache bdemo0 set_bcache bufs]. rewrite nth_lookup.
    destruct (replicate HEAD buf0 !! i) as [x|] eqn:E; [|done]. apply lookup_replicate_1 in E as [-> _]. done.
  - exact pdemo_cs.
  - exact (pdemo_free None).
  - apply pdemo_lock. unfold pdemo_locks. set_solver.
  - reflexivity.
  - exists 1%nat. eexists. split_and!; reflexivity.
  - by split.
  - intros b. unfold block_of. cbn [vdisk bdemo0 set_bcache set_vdisk vd_blocks]. by rewrite lookup_empty.
Qed.
