(* ===== verification/BioSafe.v ===== *)
(** * Properties of the disk driver and of the buffer cache

    The theorems about kernel/virtio_disk.c and kernel/bio.c, with the machine of
    BioBoot as the example. *)

From S2P Require Import Prelude Machine State Spinlock KString Kalloc Vm Proc Sched Sleeplock Virtio VirtioProofs Bio LruProofs BlockSpec BioInv BioProofs BioBoot.

Lemma find_first {A} (f : A → bool) l x :
  List.find f l = Some x → ∃ l1 l2, l = l1 ++ x :: l2 ∧ f x = true ∧ ∀ y, y ∈ l1 → f y = false.
Proof.
  induction l as [|a l IH]; [done|]. cbn. destruct (f a) eqn:E.
  - intros [= ->]. exists [], l. split_and!; [done|done|]. intros y Hy. by apply not_elem_of_nil in Hy.
  - intros (l1 & l2 & -> & Hx & Hl1)%IH. exists (a :: l1), l2. split_and!; [done|done|].
    intros y [->|Hy]%elem_of_cons; [done|auto].
Qed.

(** C22. The linked list of buffers implements a list ordered by last use. [lru c l] says that
    the [next] links go through [l] and the [prev] links through its reverse. Then the
    backward search of [bget] finds the buffer that is the least recently used of those
    with no reference, or none if all are referenced; the forward search finds a buffer
    with the wanted device and block if there is one; and what [brelse] does to the links
    moves the buffer to the front of the list and changes no other field. *)
Theorem bcache_lru c l dev blockno i :
  lru c l → (i < HEAD)%nat →
  match find_unused (S HEAD) c (head_prev c) with
  | Some j => ∃ l1 l2, l = l1 ++ j :: l2 ∧ b_refcnt (bufn c j) = 0 ∧ ∀ k, k ∈ l2 → b_refcnt (bufn c k) ≠ 0
  | None => ∀ k, (k < HEAD)%nat → b_refcnt (bufn c k) ≠ 0
  end ∧
  match find_cached (S HEAD) c (head_next c) dev blockno with
  | Some j => (j < HEAD)%nat ∧ b_dev (bufn c j) = dev ∧ b_blockno (bufn c j) = blockno
  | None => ∀ k, (k < HEAD)%nat → ¬ (b_dev (bufn c k) = dev ∧ b_blockno (bufn c k) = blockno)
  end ∧
  ∃ l1 l2, l = l1 ++ i :: l2 ∧ lru (push_front i (unlink i c)) (i :: l1 ++ l2) ∧
    same_core c (push_front i (unlink i c)).
Proof.
  intros Hl Hi. split_and!.
  - rewrite (lru_find_unused c l Hl). destruct (List.find _ _) as [j|] eqn:E.
    + apply find_first in E as (r1 & r2 & Hr & Hu & Hr1). exists (reverse r2), (reverse r1).
      assert (l = reverse (r1 ++ j :: r2)) as -> by (by rewrite <- Hr, reverse_involutive).
      rewrite reverse_app, reverse_cons, <- app_assoc. split_and!; [done|by apply Z.eqb_eq|].
      intros k Hk. rewrite elem_of_reverse in Hk. apply Z.eqb_neq. exact (Hr1 k Hk).
    + intros k Hk. apply (lru_in _ _ _ Hl), elem_of_reverse, list_elem_of_In in Hk.
      by apply Z.eqb_neq, (find_none _ _ E).
  - rewrite (lru_find_cached c l dev blockno Hl). destruct (List.find _ _) as [j|] eqn:E.
    + apply find_some in E as [Hj%list_elem_of_In Hb]. apply (lru_in _ _ _ Hl) in Hj.
      unfold has_block in Hb. apply andb_true_iff in Hb as [?%Z.eqb_eq ?%Z.eqb_eq]. done.
    + intros k Hk [H1 H2]. apply (lru_in _ _ _ Hl), list_elem_of_In in Hk.
      pose proof (find_none _ _ E k Hk) as Hf. unfold has_block in Hf. by rewrite H1, H2, !Z.eqb_refl in Hf.
  - apply (lru_in _ _ _ Hl) in Hi. apply list_elem_of_split in Hi as (l1 & l2 & ->). exists l1, l2.
    by destruct (lru_move c l1 i l2 Hl).
Qed.

Lemma bcache_lru_witness :
  ∃ c l l1 l2, lru c l ∧ l = l1 ++ 3%nat :: l2 ∧ lru (push_front 3 (unlink 3 c)) (3%nat :: l1 ++ l2).
Proof.
  destruct (binit_eq (bdemo0 0) eq_refl) as (c & sl & bc & E & Hl & _).
  destruct (bcache_lru bc (reverse (seq 0 HEAD)) 1 0 3 Hl ltac:(vm_compute; lia)) as (_ & _ & l1 & l2 & H1 & H2 & _).
  exists bc, (reverse (seq 0 HEAD)), l1, l2. split; [exact Hl|]. split; [exact H1|exact H2].
Defined.

Section properties.
Context `{L : Layout} `{Oth : Others} `{VD : VirtioDev} {DE : DiskEnv}.

(** C21. A disk request does what it was asked to, and [virtio_disk_rw] returns. With an
    idle driver and a process that runs, [virtio_disk_rw] puts the request into the
    descriptors and the available ring, with the lengths and flags without which the device
    does nothing that can be relied on, notifies the device, sleeps, is woken up by
    [virtio_disk_intr] when the device is done, which acknowledges the interrupt, and gives
    its three descriptors back: the driver is idle again.
    After a write the block on the disk is the buffer's data, every other block is as
    before and one write has been added to the disk's history; after a read the buffer
    holds the block and the disk has not changed. No other buffer and no other part of
    the control state changes. *)
Theorem virtio_disk_rw_correct p q b (write : bool) s :
  cs_ok 0 (cs s) → cur_proc s = Some p → procs_free None (cs s) → lock_free L_vdisk (cs s) →
  length (proc_tab s) = Z.to_nat NPROC → proc_tab s !! p = Some q → p_state q = RUNNING → p_chan q = None →
  vd_ready (vdisk s) → (b < length (bufs (bcache s)))%nat → (0 < sched_left s)%nat →
  blk_ok (b_blockno (bufn (bcache s) b)) →
  let bf := bufn (bcache s) b in
  wp (virtio_disk_rw b write) (λ _ s',
    vd_ready (vdisk s') ∧ cs s' = cs s ∧ proc_tab s' !! p = Some q ∧
    (∀ x, block_of (vdisk s') x = if decide (write = true ∧ x = b_blockno bf) then b_data bf else block_of (vdisk s) x) ∧
    vd_hist (vdisk s') = vd_hist (vdisk s) ++ (if write then [(b_blockno bf, b_data bf)] else []) ∧
    b_data (bufn (bcache s') b) = (if write then b_data bf else block_of (vdisk s) (b_blockno bf)) ∧
    ∀ j, j ≠ b → bufn (bcache s') j = bufn (bcache s) j) s.
Proof.
  intros Hc Hp Hf Hv Ht Hq Hst Hch R Hb Hs Hblk bf. destruct (sched_left s) as [|n] eqn:Hn; [lia|].
  destruct (disk_rw_eq p q b write s n Hc Hp Hf Hv Ht Hq Hst Hch R Hb Hn Hblk) as (t & vd & E & Ht' & Hq' & R' & Hd).
  fold bf in E, Hd. unfold wp. rewrite E. rewrite vdisk_kst, bcache_kst. unfold served_disk in Hd.
  split_and!; try done.
  - intros x. destruct write; destruct Hd as [Hd _]; rewrite Hd.
    + destruct (decide (x = b_blockno bf)); [by rewrite decide_True|by rewrite decide_False by naive_solver].
    + by rewrite decide_False by naive_solver.
  - destruct write; destruct Hd as [_ Hd]; rewrite Hd; [done|by rewrite app_nil_r].
  - rewrite bufn_alter, decide_True by done. by destruct write.
  - intros j Hj. by rewrite bufn_alter, decide_False.
Qed.

(** Reading blocks and letting go of them. *)
Definition touch (bs : list Z) : K unit := mfor bs (λ x, i ← bread ROOTDEV x; brelse i).

Lemma touch_ok V s bs :
  binv V s → v_held V = ∅ → v_ref V = ∅ → (∀ b, b ∈ bs → blk_ok b) → (length bs ≤ sched_left s)%nat →
  wp (touch bs) (λ _ s', binv V s' ∧ bframe (length bs) s s') s.
Proof.
  revert s. induction bs as [|b bs IH]; intros s HV Hh Hr Hbs Hs; cbn [touch mfor length] in *.
  - apply wp_ret. split; [done|apply bframe_refl].
  - apply wp_bind, wp_bind. eapply wp_mono.
    { apply (law_bread V); [done|apply Hbs, elem_of_cons; by left|intros i; by rewrite Hh, lookup_empty| | |lia].
      - right. rewrite Hr, map_size_empty. apply Nat.ltb_lt. by vm_compute.
      - rewrite Hr. apply small_empty. }
    intros i s1 (Hi & HV1 & F1); cbn beta in *. destruct (bframe_facts _ _ _ F1) as (_ & _ & _ & _ & Hs1).
    eapply wp_mono.
    { apply (law_brelse _ _ i b HV1); [cbn; by rewrite lookup_insert_eq|]. intros _.
      apply (law_clean V s b HV). by rewrite Hr. }
    intros ? s2 [HV2 F2]; cbn beta in *. destruct (bframe_facts _ _ _ F2) as (_ & _ & _ & _ & Hs2).
    assert (v_brelse i b (v_bread i b V) = V) as EV.
    { destruct V as [c d h he r]. unfold v_brelse, v_bread. cbn in *. subst. f_equal; [by apply delete_insert_id|].
      apply ref_dec_inc. intros n. by rewrite lookup_empty. }
    rewrite EV in HV2. eapply wp_mono.
    { apply (IH s2); try done; [|lia]. intros x Hx. apply Hbs, elem_of_cons. by right. }
    intros ? s3 [HV3 F3]; cbn beta in *. split; [done|].
    replace (S (length bs)) with (1 + (0 + length bs))%nat by lia.
    eapply bframe_trans; [exact F1|]. by eapply bframe_trans.
Qed.

(** C20. What is written is read back. A block is read with [bread], its data replaced,
    and written with [bwrite]; then any blocks, however many, are read and released, so
    that its buffer may be recycled; then [bread] of the block gives a buffer with the
    data that were written, and the disk holds them. Every call returns. *)
Theorem bwrite_bread V s b d bs :
  bio_inv V s → v_held V = ∅ → v_ref V = ∅ → blk_ok b → (∀ x, x ∈ bs → blk_ok x) →
  length d = Z.to_nat BSIZE → (length bs + 3 ≤ sched_left s)%nat →
  wp (i ← bread ROOTDEV b; upd_buf i (set_b_data d);; bwrite i;; brelse i;;
      touch bs;;
      bread ROOTDEV b)
    (λ i s', b_data (bufn (bcache s') i) = d ∧ b_blockno (bufn (bcache s') i) = b ∧ block_of (vdisk s') b = d) s.
Proof.
  intros HV Hh Hr Hb Hbs Hd Hs. assert (binv V s) as HVb by exact HV.
  assert (∀ V, v_ref V = ∅ → is_Some (v_ref V !! b) ∨ (size (v_ref V) < Z.to_nat NBUF)%nat) as Hroom.
  { intros V' ->. right. rewrite map_size_empty. apply Nat.ltb_lt. by vm_compute. }
  apply wp_bind. eapply wp_mono.
  { apply (law_bread V); [done|done|intros i; by rewrite Hh, lookup_empty|by apply Hroom| |lia].
    rewrite Hr. apply small_empty. }
  intros i s1 (Hi & HV1 & F1); cbn beta in *. destruct (bframe_facts _ _ _ F1) as (_ & _ & _ & _ & Hs1).
  apply wp_bind. eapply wp_mono; [apply (law_store _ _ i b d HV1); [cbn; by rewrite lookup_insert_eq|done]|].
  intros ? s2 [HV2 F2]; cbn beta in *. destruct (bframe_facts _ _ _ F2) as (_ & _ & _ & _ & Hs2).
  apply wp_bind. eapply wp_mono; [apply (law_bwrite _ _ i b HV2); [cbn; by rewrite lookup_insert_eq|lia]|].
  intros ? s3 [HV3 F3]; cbn beta in *. destruct (bframe_facts _ _ _ F3) as (_ & _ & _ & _ & Hs3).
  apply wp_bind. eapply wp_mono.
  { apply (law_brelse _ _ i b HV3); [cbn; by rewrite lookup_insert_eq|]. intros _. cbn. by rewrite !upd_eq. }
  intros ? s4 [HV4 F4]; cbn beta in *. destruct (bframe_facts _ _ _ F4) as (_ & _ & _ & _ & Hs4).
  set (V4 := v_brelse i b _) in HV4.
  assert (v_held V4 = ∅ ∧ v_ref V4 = ∅ ∧ v_content V4 b = d ∧ v_disk V4 b = d) as (Hh4 & Hr4 & Hc4 & Hd4).
  { cbn. rewrite Hh, Hr, !upd_eq. split_and!; [by apply delete_insert_id| |done|done].
    apply ref_dec_inc. intros n. by rewrite lookup_empty. }
  clearbody V4. apply wp_bind. eapply wp_mono; [apply (touch_ok V4 s4 bs); try done; lia|].
  intros ? s5 [HV5 F5]; cbn beta in *. destruct (bframe_facts _ _ _ F5) as (_ & _ & _ & _ & Hs5).
  eapply wp_mono.
  { apply (law_bread V4); [done|done|intros j; by rewrite Hh4, lookup_empty|by apply Hroom| |lia].
    rewrite Hr4. apply small_empty. }
  intros j s6 (Hj & HV6 & F6); cbn beta in *.
  destruct (law_held _ _ j b HV6 ltac:(cbn; by rewrite lookup_insert_eq)) as [E1 E2].
  split_and!; [by rewrite E2|done|].
  rewrite <- (vi_disk _ _ (bi_vd _ _ HV6)). exact Hd4.
Qed.

(** After boot the cache delivers the disk. From a machine with unused buffers and an
    idle driver, [binit] builds the list of buffers, frees their locks and establishes
    the invariant of the cache, and a first [bread] of any block gives a buffer with
    that block's contents. *)
Theorem binit_bread s b :
  prepared s → blk_ok b → (0 < sched_left s)%nat →
  wp (binit;; bread ROOTDEV b) (λ i s', b_data (bufn (bcache s') i) = block_of (vdisk s) b ∧
    b_blockno (bufn (bcache s') i) = b ∧ bio_inv (v_bread i b (view_of (vdisk s))) s') s.
Proof.
  intros P Hb Hs. apply wp_bind. eapply wp_mono; [by apply binit_inv|].
  intros ? s1 (I & (c & sl & bc & ->) & _); cbn beta in *.
  set (V := view_of (vdisk s)) in *. set (s1 := booted (set_locks c (cs s)) sl bc s) in *. assert (binv V s1) as HV by exact I.
  eapply wp_mono.
  { apply (law_bread V); [done|done|done| |apply small_empty|done].
    right. cbn. apply Nat.ltb_lt. by vm_compute. }
  intros i s2 (Hi & HV2 & _); cbn beta in *.
  destruct (law_held _ _ i b HV2 ltac:(cbn; by rewrite lookup_insert_eq)) as [E1 E2]. done.
Qed.
End properties.

#[local] Existing Instances layout_ex disk_others plain_dev disk_others_env.

Lemma virtio_disk_rw_correct_witness :
  ∃ s', wp (virtio_disk_rw 3 false) (λ _ s1, s1 = s') (bdemo0 1) ∧ b_data (bufn (bcache s') 3) = zero_block.
Proof.
  pose proof (bdemo0_prepared 1) as P.
  pose proof (virtio_disk_rw_correct 1 (nth 1 (proc_tab (bdemo0 1)) proc0) 3 false (bdemo0 1) (pr_cs _ P) eq_refl
    (pr_procs _ P) (pr_vdisk _ P) (pr_tab _ P) eq_refl eq_refl eq_refl (pr_ready _ P)
    ltac:(apply Nat.ltb_lt; reflexivity) ltac:(apply Nat.ltb_lt; reflexivity)
    ltac:(split; vm_compute; congruence)) as H.
  apply wp_elim in H as ([] & s' & E & _ & _ & _ & _ & _ & H & _).
  exists s'. split; [by apply (wp_eq _ _ _ _ _ E)|]. exact H.
Defined.

Lemma bwrite_bread_witness :
  ∃ s, wp (i ← bread ROOTDEV 7; upd_buf i (set_b_data (replicate 1024 5));; bwrite i;; brelse i;;
           touch (zrange 100 40);; bread ROOTDEV 7) (λ i s', b_data (bufn (bcache s') i) = replicate 1024 5) s.
Proof.
  pose proof (binit_inv (bdemo0 50) (bdemo0_prepared 50)) as H.
  apply wp_elim in H as ([] & s & _ & I & (c & sl & bc & ->) & _).
  exists (booted (set_locks c (cs (bdemo0 50))) sl bc (bdemo0 50)). eapply wp_mono.
  { apply (bwrite_bread (view_of (vdisk (bdemo0 50))) (booted (set_locks c (cs (bdemo0 50))) sl bc (bdemo0 50)) 7 (replicate 1024 5) (zrange 100 40)).
    - exact I.
    - reflexivity.
    - reflexivity.
    - unfold blk_ok. lia.
    - intros x Hx%elem_of_zrange. unfold blk_ok. lia.
    - reflexivity.
    - apply Nat.leb_le. reflexivity. }
  intros i s' (H & _). exact H.
Defined.

Lemma binit_bread_witness :
  wp (binit;; bread ROOTDEV 9) (λ i s', b_data (bufn (bcache s') i) = zero_block) (bdemo0 1).
Proof.
  eapply wp_mono.
  { apply (binit_bread (bdemo0 1) 9); [apply bdemo0_prepared|unfold blk_ok; lia|apply Nat.ltb_lt; reflexivity]. }
  intros i s' (H & _). exact H.
Defined.
