(* ===== verification/Log.v ===== *)
(** * The log: kernel/log.c

    Written against the interface [BlockIO] of the buffer cache. *)

From S2P Require Import Prelude Machine State Spinlock KString Kalloc Vm Proc Sleeplock Virtio Bio.

(** [sizeof(struct logheader)]: [n] and [block[LOGSIZE]], 4 bytes each. *)
Definition sizeof_logheader : Z := 4 * (1 + LOGSIZE).

Definition upd_log (f : log_state → log_state) : K unit := modify (λ s, set_klog (f (klog s)) s).

(** The [i]-th int of a block: [((int* )data)[i]]. *)
Definition int_at (data : list Z) (i : Z) : Z :=
  s32 (le_val (take 4 (drop (Z.to_nat (4 * i)) data))).
Definition put_int (data : list Z) (i v : Z) : list Z :=
  take (Z.to_nat (4 * i)) data ++ le_bytes 4 v ++ drop (Z.to_nat (4 * i + 4)) data.

Section log.
Context `{L : Layout} `{Oth : Others} `{B : BlockIO}.

(** [for (tail = 0; tail < log.lh.n; tail++)], [log.lh.n] being read in each round. *)
Fixpoint for_tail (fuel : nat) (tail : Z) (body : Z → K unit) : K unit :=
  match fuel with
  | O => hang
  | S f =>
      lg ← gets klog;
      if tail <? lh_n lg then body tail;; for_tail f (tail + 1) body else mret tt
  end.

Definition install_trans (recovering : bool) : K unit :=
  lg ← gets klog;
  for_tail (S (Z.to_nat (lh_n lg))) 0 (λ tail,
    lg ← gets klog;
    lbuf ← bread (u32 (l_dev lg)) (u32 (l_start lg + tail + 1));
    lg ← gets klog;
    dbuf ← bread (u32 (l_dev lg)) (u32 (nthZ 0 (lh_block lg) tail));
    lb ← get_buf lbuf;
    upd_buf dbuf (set_b_data (b_data lb));;
    bwrite dbuf;;
    when (negb recovering) (bunpin dbuf);;
    brelse lbuf;;
    brelse dbuf).

Definition read_head : K unit :=
  lg ← gets klog;
  b ← bread (u32 (l_dev lg)) (u32 (l_start lg));
  bf ← get_buf b;
  let lh := b_data bf in
  upd_log (set_lh_n (int_at lh 0));;
  lg ← gets klog;
  mfor (zrange 0 (Z.to_nat (lh_n lg))) (λ i,
    upd_log (λ lg, set_lh_block (setZ (lh_block lg) i (int_at lh (1 + i))) lg));;
  brelse b.

Definition write_head : K unit :=
  lg ← gets klog;
  b ← bread (u32 (l_dev lg)) (u32 (l_start lg));
  lg ← gets klog;
  upd_buf b (λ bf, set_b_data (put_int (b_data bf) 0 (lh_n lg)) bf);;
  mfor (zrange 0 (Z.to_nat (lh_n lg))) (λ i,
    lg ← gets klog;
    upd_buf b (λ bf, set_b_data (put_int (b_data bf) (1 + i) (nthZ 0 (lh_block lg) i)) bf));;
  bwrite b;;
  brelse b.

Definition recover_from_log : K unit :=
  read_head;;
  install_trans true;;
  upd_log (set_lh_n 0);;
  write_head.

Definition initlog (dev : Z) (super : superblock) : K unit :=
  if BSIZE <=? sizeof_logheader then panic "initlog: too big logheader"
  else
    lift_cs (initlock L_log "log");;
    upd_log (set_l_start (s32 (sb_logstart super)));;
    upd_log (set_l_size (s32 (sb_nlog super)));;
    upd_log (set_l_dev dev);;
    recover_from_log.

Fixpoint begin_op_loop (fuel : nat) : K unit :=
  match fuel with
  | O => hang
  | S f =>
      lg ← gets klog;
      if c_bool (l_committing lg) then
        sleep C_log L_log;; begin_op_loop f
      else if LOGSIZE <? lh_n lg + (l_outstanding lg + 1) * MAXOPBLOCKS then
        sleep C_log L_log;; begin_op_loop f
      else
        upd_log (λ lg, set_l_outstanding (l_outstanding lg + 1) lg);;
        lift_cs (release L_log)
  end.
Definition begin_op : K unit :=
  lift_cs (acquire L_log);;
  n ← gets sched_left;
  begin_op_loop (S n).

Definition write_log : K unit :=
  lg ← gets klog;
  for_tail (S (Z.to_nat (lh_n lg))) 0 (λ tail,
    lg ← gets klog;
    to ← bread (u32 (l_dev lg)) (u32 (l_start lg + tail + 1));
    lg ← gets klog;
    from ← bread (u32 (l_dev lg)) (u32 (nthZ 0 (lh_block lg) tail));
    fb ← get_buf from;
    upd_buf to (set_b_data (b_data fb));;
    bwrite to;;
    brelse from;;
    brelse to).

Definition commit : K unit :=
  lg ← gets klog;
  when (0 <? lh_n lg) (
    write_log;;
    write_head;;
    install_trans false;;
    upd_log (set_lh_n 0);;
    write_head).

Definition end_op : K unit :=
  lift_cs (acquire L_log);;
  upd_log (λ lg, set_l_outstanding (l_outstanding lg - 1) lg);;
  lg ← gets klog;
  if c_bool (l_committing lg) then panic "log.committing"
  else
    let do_commit := l_outstanding lg =? 0 in
    (if do_commit then upd_log (set_l_committing 1) else wakeup (Some C_log));;
    lift_cs (release L_log);;
    when do_commit (
      commit;;
      lift_cs (acquire L_log);;
      upd_log (set_l_committing 0);;
      wakeup (Some C_log);;
      lift_cs (release L_log)).

(** The index where [log_write] stores the block number: the first equal entry, or [n]. *)
Fixpoint absorb (block : list Z) (n : nat) (i : Z) (blockno : Z) : Z :=
  match n with
  | O => i
  | S n' => if nthZ 0 block i =? blockno then i else absorb block n' (i + 1) blockno
  end.

Definition log_write (b : nat) : K unit :=
  lift_cs (acquire L_log);;
  lg ← gets klog;
  if (LOGSIZE <=? lh_n lg) || (l_size lg - 1 <=? lh_n lg) then panic "too big a transaction"
  else if l_outstanding lg <? 1 then panic "log_write outside of trans"
  else
    bf ← get_buf b;
    let i := absorb (lh_block lg) (Z.to_nat (lh_n lg)) 0 (s32 (b_blockno bf)) in
    upd_log (λ lg, set_lh_block (setZ (lh_block lg) i (s32 (b_blockno bf))) lg);;
    when (i =? lh_n lg) (
      bpin b;;
      upd_log (λ lg, set_lh_n (lh_n lg + 1) lg));;
    lift_cs (release L_log).
End log.
