(* ===== verification/LogOps.v ===== *)
(** * The operations of the log on the block layer: proofs about kernel/log.c

    Against the laws of [BlockLaws], each function of kernel/log.c is an operation on
    views: [write_log] and [install_trans] copy blocks, [write_head] writes the header
    block. *)

From S2P Require Import Prelude Machine State Spinlock KString Kalloc Vm Proc Sched Sleeplock Virtio Bio BlockSpec Log.

(** ** The header block *)

(** The header that [write_head] makes of [d] for the first [n] of [blocks]. *)
Definition header_bytes (n : Z) (blocks d : list Z) : list Z :=
  foldl (λ d i, put_int d (1 + i) (nthZ 0 blocks i)) (put_int d 0 n) (zrange 0 (Z.to_nat n)).

Lemma put_int_length d i v :
  0 ≤ i → (Z.to_nat (4 * i) + 4 ≤ length d)%nat → length (put_int d i v) = length d.
Proof.
  intros Hi Hl. unfold put_int. rewrite !length_app, length_take, le_bytes_length, length_drop. lia.
Qed.

Lemma put_int_lookup d i v k :
  0 ≤ i → (Z.to_nat (4 * i) + 4 ≤ length d)%nat →
  put_int d i v !! k =
  if decide (Z.to_nat (4 * i) ≤ k < Z.to_nat (4 * i) + 4)%nat then le_bytes 4 v !! (k - Z.to_nat (4 * i))%nat
  else d !! k.
Proof.
  intros Hi Hl. unfold put_int. destruct (decide (k < Z.to_nat (4 * i))%nat).
  - rewrite lookup_app_l by (rewrite length_take; lia). rewrite lookup_take_lt by done.
    by rewrite decide_False by lia.
  - rewrite lookup_app_r by (rewrite length_take; lia). rewrite length_take, Nat.min_l by lia.
    destruct (decide (k < Z.to_nat (4 * i) + 4)%nat).
    + rewrite lookup_app_l by (rewrite le_bytes_length; lia). by rewrite decide_True by lia.
    + rewrite lookup_app_r by (rewrite le_bytes_length; lia). rewrite le_bytes_length.
      rewrite lookup_drop, decide_False by lia. f_equal. lia.
Qed.

Lemma int_at_ext d d' i :
  (∀ k, (Z.to_nat (4 * i) ≤ k < Z.to_nat (4 * i) + 4)%nat → d !! k = d' !! k) → int_at d i = int_at d' i.
Proof.
  intros H. unfold int_at. do 2 f_equal. apply list_eq. intros k.
  destruct (decide (k < 4)%nat).
  - rewrite !lookup_take_lt, !lookup_drop by done. apply H. lia.
  - by rewrite !lookup_take_ge by lia.
Qed.

Lemma int_at_put_eq d i v :
  0 ≤ i → (Z.to_nat (4 * i) + 4 ≤ length d)%nat → - 2 ^ 31 ≤ v < 2 ^ 31 → int_at (put_int d i v) i = v.
Proof.
  intros Hi Hl Hv. unfold int_at, put_int.
  rewrite drop_app_ge by (rewrite length_take; lia). rewrite length_take, Nat.min_l, Nat.sub_diag, drop_0 by lia.
  rewrite take_app_le by (rewrite le_bytes_length; lia).
  rewrite take_ge by (by rewrite le_bytes_length). rewrite le_val_bytes.
  change (256 ^ Z.of_nat 4) with (2 ^ 32). unfold s32. rewrite Zplus_mod_idemp_l, Z.mod_small; lia.
Qed.

Lemma int_at_put_ne d i j v :
  0 ≤ i → 0 ≤ j → i ≠ j → (Z.to_nat (4 * i) + 4 ≤ length d)%nat → int_at (put_int d i v) j = int_at d j.
Proof.
  intros Hi Hj Hne Hl. apply int_at_ext. intros k Hk. rewrite put_int_lookup by done.
  by rewrite decide_False by lia.
Qed.

(** What the header says, and that it is all in the first 512 bytes. *)
Lemma header_bytes_spec n blocks d :
  0 ≤ n ≤ LOGSIZE → length d = 1024%nat → (∀ i, 0 ≤ i < n → - 2 ^ 31 ≤ nthZ 0 blocks i < 2 ^ 31) →
  length (header_bytes n blocks d) = 1024%nat ∧
  int_at (header_bytes n blocks d) 0 = n ∧
  (∀ i, 0 ≤ i < n → int_at (header_bytes n blocks d) (1 + i) = nthZ 0 blocks i) ∧
  (∀ k, (512 ≤ k)%nat → header_bytes n blocks d !! k = d !! k).
Proof.
  intros Hn Hd Hr. unfold LOGSIZE, MAXOPBLOCKS in Hn. unfold header_bytes.
  cut (∀ m, (m ≤ Z.to_nat n)%nat →
    let d' := foldl (λ d i, put_int d (1 + i) (nthZ 0 blocks i)) (put_int d 0 n) (zrange 0 m) in
    length d' = 1024%nat ∧ int_at d' 0 = n ∧
    (∀ i, 0 ≤ i < Z.of_nat m → int_at d' (1 + i) = nthZ 0 blocks i) ∧
    (∀ k, (512 ≤ k)%nat → d' !! k = d !! k)).
  { intros H. specialize (H (Z.to_nat n) ltac:(lia)). rewrite Z2Nat.id in H by lia. exact H. }
  induction m as [|m IH]; intros Hm d'.
  - unfold d'. cbn [zrange foldl]. split_and!.
    + rewrite put_int_length; lia.
    + apply int_at_put_eq; lia.
    + intros i Hi. lia.
    + intros k Hk. rewrite put_int_lookup by lia. by rewrite decide_False by lia.
  - unfold d'. rewrite zrange_S_r, foldl_app. cbn [foldl]. destruct (IH ltac:(lia)) as (H1 & H2 & H3 & H4).
    set (d1 := foldl _ _ _) in *. rewrite Z.add_0_l. split_and!.
    + rewrite put_int_length; lia.
    + rewrite int_at_put_ne; [done|lia..].
    + intros i Hi. destruct (decide (i = Z.of_nat m)) as [->|].
      * apply int_at_put_eq; [lia|lia|]. apply Hr. lia.
      * rewrite int_at_put_ne; [apply H3; lia|lia..].
    + intros k Hk. rewrite put_int_lookup by lia. rewrite decide_False by lia. by apply H4.
Qed.

(** ** Copying blocks *)

(** Block [b] gets [d], in the cache and on disk. *)
Definition v_put (b : Z) (d : list Z) (V : bview) : bview :=
  Mk_bview (upd (v_content V) b d) (upd (v_disk V) b d) (v_hist V ++ [(b, d)]) (v_held V) (v_ref V).

Section logops.
Context `{L : Layout} `{Oth : Others} {B : BlockIO} {BL : BlockLaws B}.

Lemma upd_buf_ext i f g s :
  f (nth i (bufs (bcache s)) buf0) = g (nth i (bufs (bcache s)) buf0) → upd_buf i f s = upd_buf i g s.
Proof.
  intros H. unfold upd_buf, modify.
  enough (alter f i (bufs (bcache s)) = alter g i (bufs (bcache s))) as -> by done. apply list_eq. intros j. rewrite !list_lookup_alter.
  destruct (decide (i = j)) as [<-|]; [|done].
  destruct (bufs (bcache s) !! i) as [x|] eqn:E; [|done]. simpl. f_equal.
  by rewrite (nth_lookup_Some _ _ buf0 _ E) in H.
Qed.

(** Storing into a held buffer. *)
Lemma wp_store V s i b (f : list Z → list Z) (Q : unit → kstate → Prop) :
  binv V s → v_held V !! i = Some b → length (f (v_content V b)) = Z.to_nat BSIZE →
  (∀ s', binv (v_store b (f (v_content V b)) V) s' → bframe 0 s s' → Q tt s') →
  wp (upd_buf i (λ bf, set_b_data (f (b_data bf)) bf)) Q s.
Proof.
  intros HV Hh Hl HQ. destruct (law_held V s i b HV Hh) as [_ Hd].
  pose proof (law_store V s i b (f (v_content V b)) HV Hh Hl) as Hs.
  unfold wp in *. rewrite (upd_buf_ext _ _ (set_b_data (f (v_content V b)))).
  - destruct (upd_buf _ _ s) as [[] s'| |]; [|done|done]. by apply HQ; apply Hs.
  - by rewrite Hd.
Qed.

(** The loop of log.c. *)
Lemma wp_for_tail (body : Z → K unit) (I : Z → kstate → Prop) n s :
  0 ≤ n → (∀ t s, I t s → lh_n (klog s) = n) → I 0 s →
  (∀ t s, 0 ≤ t < n → I t s → wp (body t) (λ _ s', I (t + 1) s') s) →
  wp (for_tail (S (Z.to_nat n)) 0 body) (λ _ s', I n s') s.
Proof.
  intros Hn Hlh H0 Hb.
  cut (∀ k t s, 0 ≤ t ≤ n → n - t < Z.of_nat k → I t s → wp (for_tail k t body) (λ _ s', I n s') s).
  { intros H. apply H; [lia|lia|done]. }
  induction k as [|k IH]; intros t s' Ht Hk HI; [lia|]. cbn [for_tail].
  apply wp_bind, wp_gets. rewrite (Hlh t s' HI). destruct (Z.ltb_spec t n) as [Hlt|Hge].
  - apply wp_bind. eapply wp_mono; [apply Hb; [lia|done]|]. intros ? s'' HI'; cbn beta in HI'.
    apply IH; [lia|lia|done].
  - apply wp_ret. by replace n with t by lia.
Qed.

Lemma u32_blk b : blk_ok b → u32 b = b.
Proof. unfold blk_ok. intros. apply u32_small. lia. Qed.

Lemma ref_inc_one b r : ref_inc b r !! b = Some 1%nat → r !! b = None ∨ r !! b = Some O.
Proof. unfold ref_inc. rewrite lookup_insert_eq. destruct (r !! b) as [[|n]|]; cbn; naive_solver. Qed.

Lemma ref_inc_comm b b' r : b ≠ b' → ref_inc b (ref_inc b' r) = ref_inc b' (ref_inc b r).
Proof.
  intros Hne. unfold ref_inc. rewrite !lookup_insert_ne by done. by rewrite insert_insert_ne.
Qed.

Lemma held_twice (h : gmap nat Z) i j a c :
  h !! i = None → <[i := a]> h !! j = None → delete i (delete j (<[j := c]> (<[i := a]> h))) = h.
Proof.
  intros Hi Hj. rewrite delete_insert_id by done. by rewrite delete_insert_id.
Qed.

(** [write_log] copies a pinned block [c] to a log block [a]. *)
Lemma write_log_body V s (dev home : log_state → Z) a c :
  binv V s → dev (klog s) = ROOTDEV → home (klog s) = c → blk_ok a → blk_ok c → a ≠ c →
  (∀ i, v_held V !! i ≠ Some a) → (∀ i, v_held V !! i ≠ Some c) →
  (is_Some (v_ref V !! a) ∨ (size (v_ref V) < Z.to_nat NBUF)%nat) → is_Some (v_ref V !! c) →
  small 2 (v_ref V) →
  (3 ≤ sched_left s)%nat →
  wp (to ← bread ROOTDEV a;
      lg ← gets klog;
      from ← bread (dev lg) (home lg);
      fb ← get_buf from;
      upd_buf to (set_b_data (b_data fb));;
      bwrite to;;
      brelse from;;
      brelse to)
    (λ _ s', binv (v_put a (v_content V c) V) s' ∧ bframe 3 s s') s.
Proof.
  intros HV Hdev Hhome Ha Hc Hne Hha Hhc Hra [m Hm] Hsm Hs. pose proof (small_weaken 2 1 _ Hsm ltac:(lia)) as Hsm1.
  pose proof (law_ref_pos _ _ _ _ HV Hm) as Hm0.
  apply wp_bind. eapply wp_mono; [apply (law_bread V); try done; lia|].
  intros i s1 (Hi & HV1 & F1); cbn beta in *.
  destruct (bframe_facts _ _ _ F1) as (Hk1 & _ & _ & _ & Hs1).
  apply wp_bind, wp_gets. rewrite Hk1, Hdev, Hhome. apply wp_bind. eapply wp_mono.
  { apply (law_bread _ _ c HV1); [done| | |apply small_inc; [lia|done]|lia].
    - intros j. cbn. destruct (decide (i = j)) as [->|]; [rewrite lookup_insert_eq; congruence|].
      rewrite lookup_insert_ne by done. apply Hhc.
    - left. cbn. rewrite ref_inc_ne by done. eauto. }
  intros j s2 (Hj & HV2 & F2); cbn beta in *.
  destruct (bframe_facts _ _ _ F2) as (_ & _ & _ & _ & Hs2).
  assert (i ≠ j) as Hij. { intros <-. cbn in Hj. by rewrite lookup_insert_eq in Hj. }
  apply wp_bind, wp_gets.
  destruct (law_held _ _ j c HV2 ltac:(cbn; by rewrite lookup_insert_eq)) as [_ Hdata].
  change (v_content (v_bread j c (v_bread i a V))) with (v_content V) in Hdata. rewrite Hdata.
  apply wp_bind. eapply wp_mono.
  { apply (law_store _ _ i a (v_content V c) HV2).
    - cbn. by rewrite lookup_insert_ne, lookup_insert_eq.
    - apply (law_len V s c HV). }
  intros ? s3 (HV3 & F3); cbn beta in *.
  destruct (bframe_facts _ _ _ F3) as (_ & _ & _ & _ & Hs3).
  apply wp_bind. eapply wp_mono.
  { apply (law_bwrite _ _ i a HV3); [cbn; by rewrite lookup_insert_ne, lookup_insert_eq|lia]. }
  intros ? s4 (HV4 & F4); cbn beta in *.
  assert (v_content (v_store a (v_content V c) (v_bread j c (v_bread i a V))) a = v_content V c) as Hcont
    by (cbn; apply upd_eq).
  apply wp_bind. eapply wp_mono.
  { apply (law_brelse _ _ j c HV4); [cbn; by rewrite lookup_insert_eq|].
    cbn. unfold ref_inc at 1. rewrite lookup_insert_eq, ref_inc_ne, Hm by done. cbn. intros [= ->]. done. }
  intros ? s5 (HV5 & F5); cbn beta in *.
  eapply wp_mono.
  { apply (law_brelse _ _ i a HV5); [cbn; by rewrite lookup_delete_ne, lookup_insert_ne, lookup_insert_eq|].
    intros _. unfold v_brelse, v_bwrite. cbn [v_content v_disk]. by rewrite upd_eq. }
  intros ? s6 (HV6 & F6); cbn beta in *. split.
  - assert (v_brelse i a (v_brelse j c (v_bwrite a (v_store a (v_content V c) (v_bread j c (v_bread i a V)))))
      = v_put a (v_content V c) V) as <-; [|exact HV6].
    unfold v_brelse, v_bwrite, v_put. rewrite Hcont. cbn [v_content v_disk v_hist v_held v_ref v_store v_bread].
    f_equal.
    + cbn in Hj. by apply held_twice.
    + rewrite ref_dec_inc.
      * apply ref_dec_inc. intros n Hn. by apply (law_ref_pos V s a n).
      * intros n. rewrite ref_inc_ne by done. intros Hn. by apply (law_ref_pos V s c n).
  - apply (bframe_weaken (1 + (1 + (0 + (1 + (0 + 0)))))); [|lia].
    repeat (eapply bframe_trans; [eassumption|]). done.
Qed.

(** [install_trans] copies a log block [a] to its home [c] and, in a running system,
    takes away the pin. *)
Definition v_install (rec : bool) (a c : Z) (V : bview) : bview :=
  Mk_bview (upd (v_content V) c (v_content V a)) (upd (v_disk V) c (v_content V a))
    (v_hist V ++ [(c, v_content V a)]) (v_held V) (if rec then v_ref V else ref_dec c (v_ref V)).

Lemma ref_inc_size b r : (size (ref_inc b r) ≤ S (size r))%nat.
Proof.
  unfold ref_inc. rewrite map_size_insert. destruct (r !! b); simpl; lia.
Qed.

Lemma install_body rec V s (dev home : log_state → Z) a c :
  binv V s → dev (klog s) = ROOTDEV → home (klog s) = c → blk_ok a → blk_ok c → a ≠ c →
  (∀ i, v_held V !! i ≠ Some a) → (∀ i, v_held V !! i ≠ Some c) →
  (is_Some (v_ref V !! a) ∨ (size (v_ref V) < Z.to_nat NBUF)%nat) →
  (is_Some (v_ref V !! c) ∨ (rec = true ∧ (S (size (v_ref V)) < Z.to_nat NBUF)%nat)) →
  small 2 (v_ref V) →
  (3 ≤ sched_left s)%nat →
  wp (lbuf ← bread ROOTDEV a;
      lg ← gets klog;
      dbuf ← bread (dev lg) (home lg);
      lb ← get_buf lbuf;
      upd_buf dbuf (set_b_data (b_data lb));;
      bwrite dbuf;;
      when (negb rec) (bunpin dbuf);;
      brelse lbuf;;
      brelse dbuf)
    (λ _ s', binv (v_install rec a c V) s' ∧ bframe 3 s s') s.
Proof.
  intros HV Hdev Hhome Ha Hc Hne Hha Hhc Hra Hrc Hsm Hs. pose proof (small_weaken 2 1 _ Hsm ltac:(lia)) as Hsm1.
  assert (∀ n, v_ref V !! a = Some n → n ≠ O) as Hpa by (intros n; by apply (law_ref_pos V s)).
  assert (∀ n, v_ref V !! c = Some n → n ≠ O) as Hpc by (intros n; by apply (law_ref_pos V s)).
  apply wp_bind. eapply wp_mono; [apply (law_bread V); try done; lia|].
  intros i s1 (Hi & HV1 & F1); cbn beta in *.
  destruct (bframe_facts _ _ _ F1) as (Hk1 & _ & _ & _ & Hs1).
  apply wp_bind, wp_gets. rewrite Hk1, Hdev, Hhome. apply wp_bind. eapply wp_mono.
  { apply (law_bread _ _ c HV1); [done| | |apply small_inc; [lia|done]|lia].
    - intros j. cbn. destruct (decide (i = j)) as [->|]; [rewrite lookup_insert_eq; congruence|].
      rewrite lookup_insert_ne by done. apply Hhc.
    - cbn. rewrite ref_inc_ne by done. destruct Hrc as [?|[_ ?]]; [by left|right].
      pose proof (ref_inc_size a (v_ref V)). lia. }
  intros j s2 (Hj & HV2 & F2); cbn beta in *.
  destruct (bframe_facts _ _ _ F2) as (_ & _ & _ & _ & Hs2).
  assert (i ≠ j) as Hij. { intros <-. cbn in Hj. by rewrite lookup_insert_eq in Hj. }
  apply wp_bind, wp_gets.
  destruct (law_held _ _ i a HV2 ltac:(cbn; by rewrite lookup_insert_ne, lookup_insert_eq)) as [_ Hdata].
  change (v_content (v_bread j c (v_bread i a V))) with (v_content V) in Hdata. rewrite Hdata.
  apply wp_bind. eapply wp_mono.
  { apply (law_store _ _ j c (v_content V a) HV2); [cbn; by rewrite lookup_insert_eq|].
    apply (law_len V s a HV). }
  intros ? s3 (HV3 & F3); cbn beta in *.
  destruct (bframe_facts _ _ _ F3) as (_ & _ & _ & _ & Hs3).
  apply wp_bind. eapply wp_mono.
  { apply (law_bwrite _ _ j c HV3); [cbn; by rewrite lookup_insert_eq|lia]. }
  intros ? s4 (HV4 & F4); cbn beta in *.
  set (V4 := v_bwrite c _) in HV4.
  assert (V4 = Mk_bview (upd (v_content V) c (v_content V a)) (upd (v_disk V) c (v_content V a))
    (v_hist V ++ [(c, v_content V a)]) (<[j := c]> (<[i := a]> (v_held V)))
    (ref_inc c (ref_inc a (v_ref V)))) as EV4.
  { unfold V4, v_bwrite, v_store, v_bread. cbn. by rewrite upd_eq. }
  clearbody V4. subst V4.
  set (r := if rec then ref_inc c (ref_inc a (v_ref V)) else ref_inc a (v_ref V)).
  assert (wp (when (negb rec) (bunpin j)) (λ _ s', binv (Mk_bview (upd (v_content V) c (v_content V a))
    (upd (v_disk V) c (v_content V a)) (v_hist V ++ [(c, v_content V a)])
    (<[j := c]> (<[i := a]> (v_held V))) r) s' ∧ bframe 0 s4 s') s4) as Hunpin.
  { destruct rec; cbn [negb when]; [apply wp_ret; split; [done|apply bframe_refl]|].
    eapply wp_mono; [apply (law_bunpin _ _ j c HV4); [cbn; by rewrite lookup_insert_eq|]|].
    - cbn. intros H. apply ref_inc_one in H. rewrite ref_inc_ne in H by done.
      destruct Hrc as [[m Hm]|[? _]]; [|done]. rewrite Hm in H. destruct H as [|[= ->]]; [done|].
      by apply (Hpc O).
    - intros ? s' [H F]. split; [|done]. unfold v_unpin in H. cbn in H. rewrite ref_dec_inc in H; [done|].
      intros n. rewrite ref_inc_ne by done. apply Hpc. }
  apply wp_bind. eapply wp_mono; [exact Hunpin|]. intros ? s5 (HV5 & F5); cbn beta in *.
  assert (r !! a = ref_inc a (v_ref V) !! a) as Hra'.
  { unfold r. destruct rec; [|done]. by rewrite ref_inc_ne. }
  apply wp_bind. eapply wp_mono.
  { apply (law_brelse _ _ i a HV5); [cbn; by rewrite lookup_insert_ne, lookup_insert_eq|].
    cbn. rewrite Hra', !upd_ne by done. intros H. apply ref_inc_one in H as [H|H].
    - by apply (law_clean V s a).
    - by destruct (Hpa O). }
  intros ? s6 (HV6 & F6); cbn beta in *.
  eapply wp_mono.
  { apply (law_brelse _ _ j c HV6); [cbn; by rewrite lookup_delete_ne, lookup_insert_eq|].
    intros _. cbn. by rewrite !upd_eq. }
  intros ? s7 (HV7 & F7); cbn beta in *. split.
  - unfold v_brelse in HV7. cbn in HV7. unfold v_install.
    rewrite (delete_delete _ j i), held_twice in HV7 by done.
    assert (ref_dec c (ref_dec a r) = (if rec then v_ref V else ref_dec c (v_ref V))) as <-; [|done].
    unfold r. destruct rec.
    + rewrite ref_inc_comm by done. rewrite (ref_dec_inc a).
      * by apply ref_dec_inc.
      * intros n. rewrite ref_inc_ne by done. apply Hpa.
    + by rewrite (ref_dec_inc a).
  - apply (bframe_weaken (1 + (1 + (0 + (1 + (0 + (0 + 0))))))); [|lia].
    repeat (eapply bframe_trans; [eassumption|]). done.
Qed.

(** [write_head] *)
Lemma write_head_ok V s n blocks b :
  binv V s → lh_n (klog s) = n → lh_block (klog s) = blocks → l_dev (klog s) = ROOTDEV →
  l_start (klog s) = b → blk_ok b → 0 ≤ n ≤ LOGSIZE →
  (∀ i, v_held V !! i ≠ Some b) →
  (is_Some (v_ref V !! b) ∨ (size (v_ref V) < Z.to_nat NBUF)%nat) → small 1 (v_ref V) →
  (2 ≤ sched_left s)%nat →
  wp write_head (λ _ s', binv (v_put b (header_bytes n blocks (v_content V b)) V) s' ∧ bframe 2 s s') s.
Proof.
  intros HV Hn Hb Hd Hst Hok Hr Hh Hroom Hsm Hs. unfold write_head.
  apply wp_bind, wp_gets. rewrite Hd, Hst, (u32_blk b Hok). change (u32 ROOTDEV) with ROOTDEV.
  apply wp_bind. eapply wp_mono; [apply (law_bread V); try done; lia|].
  intros i s1 (Hi & HV1 & F1); cbn beta in *.
  destruct (bframe_facts _ _ _ F1) as (Hk1 & _ & _ & _ & Hs1).
  apply wp_bind, wp_gets. rewrite Hk1, Hn.
  assert (v_held (v_bread i b V) !! i = Some b) as Hhi by (cbn; by rewrite lookup_insert_eq).
  pose proof (law_len V s b HV) as Hlen. change (Z.to_nat BSIZE) with 1024%nat in Hlen.
  unfold LOGSIZE, MAXOPBLOCKS in Hr.
  apply wp_bind. eapply (wp_store _ _ i b (λ d, put_int d 0 n)); [exact HV1|done| |].
  { cbn. change (Z.to_nat BSIZE) with 1024%nat. rewrite put_int_length; lia. }
  intros s2 HV2 F2. change (v_content (v_bread i b V) b) with (v_content V b) in HV2.
  set (d0 := put_int (v_content V b) 0 n) in *.
  assert (∀ m, (m ≤ Z.to_nat n)%nat →
    length (foldl (λ d i, put_int d (1 + i) (nthZ 0 blocks i)) d0 (zrange 0 m)) = 1024%nat) as Hfold.
  { induction m as [|m IH]; intros Hm.
    - cbn [foldl zrange]. unfold d0. rewrite put_int_length; lia.
    - rewrite zrange_S_r, foldl_app. cbn [foldl]. specialize (IH ltac:(lia)). rewrite put_int_length; lia. }
  apply wp_bind. eapply wp_mono.
  { apply (wp_mfor_zrange _ _ (λ t s', binv (v_store b
        (foldl (λ d i, put_int d (1 + i) (nthZ 0 blocks i)) d0 (zrange 0 (Z.to_nat t)))
        (v_bread i b V)) s' ∧ bframe 0 s2 s')).
    - split; [done|apply bframe_refl].
    - intros t s' Ht [HV' F']. destruct (bframe_facts _ _ _ F') as (Hk' & _).
      destruct (bframe_facts _ _ _ F2) as (Hk2 & _).
      apply wp_bind, wp_gets. rewrite Hk', Hk2, Hk1, Hb.
      specialize (Hfold (Z.to_nat t) ltac:(lia)). set (dd := foldl _ d0 _) in *.
      assert (v_content (v_store b dd (v_bread i b V)) b = dd) as Hc by (cbn; apply upd_eq).
      eapply (wp_store _ _ i b (λ d, put_int d (1 + t) (nthZ 0 blocks t))); [exact HV'|done| |].
      + rewrite Hc. change (Z.to_nat BSIZE) with 1024%nat. rewrite put_int_length; lia.
      + intros s'' HV'' F''. rewrite Hc in HV''. split; [|by apply (bframe_trans 0 0 _ s')].
        replace (Z.to_nat (t + 1)) with (S (Z.to_nat t)) by lia.
        rewrite zrange_S_r, foldl_app. cbn [foldl]. rewrite Z.add_0_l, Z2Nat.id by lia. fold dd.
        revert HV''. apply binv_proper; [|done]. split; try done. intros x. cbn. unfold upd.
        by case_decide. }
  intros ? s3 [HV3 F3]. rewrite Nat2Z.id in HV3. fold (header_bytes n blocks (v_content V b)) in HV3.
  destruct (bframe_facts _ _ _ F2) as (_ & _ & _ & _ & Hs2).
  destruct (bframe_facts _ _ _ F3) as (_ & _ & _ & _ & Hs3).
  apply wp_bind. eapply wp_mono; [apply (law_bwrite _ _ i b HV3); [done|lia]|].
  intros ? s4 (HV4 & F4); cbn beta in *.
  eapply wp_mono.
  { apply (law_brelse _ _ i b HV4); [done|]. intros _. cbn. by rewrite !upd_eq. }
  intros ? s5 (HV5 & F5); cbn beta in *. split.
  - unfold v_brelse, v_bwrite, v_store, v_bread in HV5. cbn in HV5. rewrite upd_eq in HV5.
    rewrite delete_insert_id, ref_dec_inc in HV5; [exact HV5| |done].
    intros m Hm. by apply (law_ref_pos V s b m).
  - apply (bframe_weaken (1 + (0 + (0 + (1 + 0))))); [|lia].
    repeat (eapply bframe_trans; [eassumption|]). done.
Qed.
End logops.
