(* ===== verification/LogCommit.v ===== *)
(** * Committing a transaction: [write_log], [install_trans] and [commit] of kernel/log.c *)

From S2P Require Import Prelude Machine State Spinlock KString Kalloc Vm Proc Sched Sleeplock Virtio Bio BlockSpec Log LogOps.

(** ** Sequences of block writes *)

Definition apply_writes (f : Z → list Z) (W : list (Z * list Z)) : Z → list Z :=
  foldl (λ f w, upd f w.1 w.2) f W.

Lemma apply_writes_app f W W' : apply_writes f (W ++ W') = apply_writes (apply_writes f W) W'.
Proof. apply foldl_app. Qed.

Lemma apply_writes_ne f W b : b ∉ W.*1 → apply_writes f W b = f b.
Proof.
  revert f. induction W as [|[b' d] W IH]; intros f Hb; [done|]. cbn. rewrite IH.
  - apply upd_ne. cbn in Hb. set_solver.
  - cbn in Hb. set_solver.
Qed.

Lemma apply_writes_in f W b d : NoDup W.*1 → (b, d) ∈ W → apply_writes f W b = d.
Proof.
  revert f. induction W as [|[b' d'] W IH]; intros f Hnd Hin; [by apply not_elem_of_nil in Hin|].
  cbn in Hnd. apply NoDup_cons in Hnd as [Hni Hnd]. cbn.
  apply elem_of_cons in Hin as [[= <- <-]|Hin].
  - change (apply_writes (upd f b d) W b = d). rewrite apply_writes_ne by done. apply upd_eq.
  - by apply (IH (upd f b' d')).
Qed.

(** The functions agree after the same writes, where they agreed or were written. *)
Lemma apply_writes_ext f g W b : (b ∉ W.*1 → f b = g b) → apply_writes f W b = apply_writes g W b.
Proof.
  revert f g. induction W as [|[b' d] W IH]; intros f g H; [apply H, not_elem_of_nil|].
  cbn. apply (IH (upd f b' d) (upd g b' d)). intros Hb. unfold upd. case_decide; [done|].
  apply H. cbn. set_solver.
Qed.

(** The view after the writes [W]. *)
Definition v_puts (W : list (Z * list Z)) (r : gmap Z nat) (V : bview) : bview :=
  Mk_bview (apply_writes (v_content V) W) (apply_writes (v_disk V) W) (v_hist V ++ W) (v_held V) r.

Lemma v_puts_nil V : v_puts [] (v_ref V) V ≡ V.
Proof. split; try done. cbn. by rewrite app_nil_r. Qed.

Lemma v_put_puts b d W r V : v_put b d (v_puts W r V) = v_puts (W ++ [(b, d)]) r V.
Proof. unfold v_put, v_puts. cbn. by rewrite !apply_writes_app, <- app_assoc. Qed.

Lemma v_install_puts rec a c W r V :
  v_install rec a c (v_puts W r V) =
  v_puts (W ++ [(c, apply_writes (v_content V) W a)]) (if rec then r else ref_dec c r) V.
Proof. unfold v_install, v_puts. cbn. by rewrite !apply_writes_app, <- app_assoc. Qed.

(** ** A transaction in memory *)

(** The writes to the log blocks after [S], and to the homes, of the blocks [bl] with
    contents [c]. *)
Definition log_writes (S : Z) (c : Z → list Z) (bl : list Z) : list (Z * list Z) :=
  imap (λ k b, (S + 1 + Z.of_nat k, c b)) bl.
Definition home_writes (c : Z → list Z) (bl : list Z) : list (Z * list Z) := (λ b, (b, c b)) <$> bl.

Lemma log_writes_app S c bl b :
  log_writes S c (bl ++ [b]) = log_writes S c bl ++ [(S + 1 + Z.of_nat (length bl), c b)].
Proof. unfold log_writes. rewrite imap_app. cbn. by rewrite Nat.add_0_r. Qed.

Lemma log_writes_keys S c bl x : x ∈ (log_writes S c bl).*1 ↔ S + 1 ≤ x < S + 1 + Z.of_nat (length bl).
Proof.
  induction bl as [|b bl IH] using rev_ind.
  - cbn. split; [by intros ?%not_elem_of_nil|lia].
  - rewrite log_writes_app, fmap_app, elem_of_app, IH, length_app. cbn.
    rewrite list_elem_of_singleton. lia.
Qed.

Lemma log_writes_nodup S c bl : NoDup (log_writes S c bl).*1.
Proof.
  induction bl as [|b bl IH] using rev_ind; [constructor|].
  rewrite log_writes_app, fmap_app. apply NoDup_app. split_and!; [done| |apply NoDup_singleton].
  intros x Hx%log_writes_keys. cbn. rewrite list_elem_of_singleton. lia.
Qed.

Lemma log_writes_lookup S c bl k b :
  bl !! k = Some b → (S + 1 + Z.of_nat k, c b) ∈ log_writes S c bl.
Proof.
  intros Hk. apply (list_elem_of_lookup_2 _ k). unfold log_writes. by rewrite list_lookup_imap, Hk.
Qed.

Lemma home_writes_keys c bl : (home_writes c bl).*1 = bl.
Proof. unfold home_writes. rewrite <- list_fmap_compose. apply list_fmap_id. Qed.

(** The log header in memory names the blocks [bl]; they are distinct, lie outside the
    log area, and are pinned in the cache. *)
Record trans (lg : log_state) (bl : list Z) (V : bview) : Prop := {
  tr_dev : l_dev lg = ROOTDEV;
  tr_start : 0 ≤ l_start lg;
  tr_end : l_start lg + l_size lg < 2 ^ 31;
  tr_n : lh_n lg = Z.of_nat (length bl);
  tr_fits : lh_n lg ≤ l_size lg - 1;
  tr_block k b : bl !! k = Some b → nthZ 0 (lh_block lg) (Z.of_nat k) = b;
  tr_ok b : b ∈ bl → blk_ok b ∧ (b < l_start lg ∨ l_start lg + l_size lg ≤ b);
  tr_nodup : NoDup bl;
  tr_pinned b : b ∈ bl → is_Some (v_ref V !! b);
  tr_small : small 2 (v_ref V);
  tr_room : (size (v_ref V) < Z.to_nat NBUF)%nat;
  tr_held : v_held V = ∅
}.

Lemma trans_n_bound lg bl V : trans lg bl V → lh_n lg < LOGSIZE.
Proof.
  intros T. rewrite (tr_n _ _ _ T). pose proof (tr_room _ _ _ T) as Hroom.
  assert (length bl ≤ size (v_ref V))%nat as H.
  { rewrite <- (size_list_to_set (C := gset Z) bl) by apply T. rewrite <- size_dom.
    apply subseteq_size. intros b Hb%elem_of_list_to_set. apply elem_of_dom. by apply (tr_pinned _ _ _ T). }
  change (Z.to_nat NBUF) with 30%nat in Hroom. change LOGSIZE with 30. lia.
Qed.

Section commit.
Context `{L : Layout} `{Oth : Others} {B : BlockIO} {BL : BlockLaws B}.

Lemma bframe_klog k lg s s' : bframe k s s' → bframe k (set_klog lg s) (set_klog lg s').
Proof.
  intros (sl & bc & vd & pt & n & -> & Hj & Hl & Hp & Hn). exists sl, bc, vd, pt, n.
  split_and!; [by destruct s|done|done|done|done].
Qed.

Lemma no_held (V : bview) b i : v_held V = ∅ → v_held V !! i ≠ Some b.
Proof. intros ->. by rewrite lookup_empty. Qed.

Lemma write_log_ok lg bl V s :
  binv V s → klog s = lg → trans lg bl V → (3 * length bl ≤ sched_left s)%nat →
  wp write_log (λ _ s', binv (v_puts (log_writes (l_start lg) (v_content V) bl) (v_ref V) V) s' ∧
    bframe (3 * length bl) s s') s.
Proof.
  intros HV Hlg T Hs. unfold write_log. apply wp_bind, wp_gets. rewrite Hlg.
  pose proof (tr_n _ _ _ T) as Hn. pose proof (tr_start _ _ _ T). pose proof (tr_end _ _ _ T).
  pose proof (tr_fits _ _ _ T).
  eapply wp_mono.
  { apply (wp_for_tail _ (λ t s', binv (v_puts (log_writes (l_start lg) (v_content V) (take (Z.to_nat t) bl))
        (v_ref V) V) s' ∧ bframe (3 * Z.to_nat t) s s')).
    - lia.
    - intros t s' [_ F]. destruct (bframe_facts _ _ _ F) as (-> & _). by rewrite Hlg.
    - split; [|apply bframe_refl]. revert HV. apply binv_proper; [|done]. apply v_puts_nil.
    - intros t s' Ht [HV' F]. destruct (bframe_facts _ _ _ F) as (Hk & _ & _ & _ & Hsl).
      destruct (lookup_lt_is_Some_2 bl (Z.to_nat t)) as [b Hb]; [lia|].
      pose proof (tr_block _ _ _ T _ _ Hb) as Hblk. rewrite Z2Nat.id in Hblk by lia.
      pose proof (list_elem_of_lookup_2 _ _ _ Hb) as Hin.
      destruct (tr_ok _ _ _ T b Hin) as [Hbok Hout].
      apply wp_bind, wp_gets. rewrite Hk, Hlg, (tr_dev _ _ _ T). change (u32 ROOTDEV) with ROOTDEV.
      rewrite (u32_blk (l_start lg + t + 1)) by (unfold blk_ok; lia).
      eapply wp_mono.
      { apply (write_log_body (v_puts (log_writes (l_start lg) (v_content V) (take (Z.to_nat t) bl)) (v_ref V) V)
          s' (λ lg, u32 (l_dev lg)) (λ lg, u32 (nthZ 0 (lh_block lg) t)) (l_start lg + t + 1) b HV').
        - by rewrite Hk, Hlg, (tr_dev _ _ _ T).
        - by rewrite Hk, Hlg, Hblk, u32_blk.
        - unfold blk_ok; lia.
        - done.
        - lia.
        - intros i. apply no_held, T.
        - intros i. apply no_held, T.
        - right. apply T.
        - by apply (tr_pinned _ _ _ T).
        - apply T.
        - lia. }
      intros ? s'' [HV'' F'']; cbn beta in *. split.
      + rewrite v_put_puts in HV''. replace (Z.to_nat (t + 1)) with (S (Z.to_nat t)) by lia.
        rewrite (take_S_r _ _ b) by done. rewrite log_writes_app, length_take, Nat.min_l by lia.
        rewrite Z2Nat.id by lia. cbn [v_puts v_content] in HV''. rewrite apply_writes_ne in HV''.
        * by replace (l_start lg + 1 + t) with (l_start lg + t + 1) by lia.
        * rewrite log_writes_keys, length_take. lia.
      + replace (3 * Z.to_nat (t + 1))%nat with (3 * Z.to_nat t + 3)%nat by lia.
        by eapply bframe_trans. }
  intros ? s' [HV' F']. rewrite Hn, Nat2Z.id in *. by rewrite take_ge in HV' by lia.
Qed.

Lemma ref_dec_size b r : (size (ref_dec b r) ≤ size r)%nat.
Proof.
  unfold ref_dec. destruct (r !! b) as [[|[|n]]|] eqn:E;
    rewrite ?map_size_insert, ?map_size_delete, E; cbn; lia.
Qed.

(** Taking the pins off. *)
Definition unpin_all (bl : list Z) (r : gmap Z nat) : gmap Z nat := foldl (λ r b, ref_dec b r) r bl.

Lemma unpin_all_ne bl r b : b ∉ bl → unpin_all bl r !! b = r !! b.
Proof.
  revert r. induction bl as [|b' bl IH]; intros r Hb; [done|]. cbn. fold (unpin_all bl (ref_dec b' r)).
  rewrite IH by set_solver. apply ref_dec_ne. set_solver.
Qed.
Lemma unpin_all_size bl r : (size (unpin_all bl r) ≤ size r)%nat.
Proof.
  revert r. induction bl as [|b bl IH]; intros r; [done|]. cbn. fold (unpin_all bl (ref_dec b r)).
  etrans; [apply IH|apply ref_dec_size].
Qed.

Lemma unpin_all_small k bl r : small k r → small k (unpin_all bl r).
Proof.
  revert r. induction bl as [|b bl IH]; intros r Hr; [done|]. cbn. fold (unpin_all bl (ref_dec b r)).
  by apply IH, small_dec.
Qed.

(** The writes of [install_trans] when the blocks hold [f]. *)
Definition install_writes (S : Z) (f : Z → list Z) (bl : list Z) : list (Z * list Z) :=
  imap (λ k b, (b, f (S + 1 + Z.of_nat k))) bl.

Lemma install_writes_app S f bl b :
  install_writes S f (bl ++ [b]) = install_writes S f bl ++ [(b, f (S + 1 + Z.of_nat (length bl)))].
Proof. unfold install_writes. rewrite imap_app. cbn. by rewrite Nat.add_0_r. Qed.

Lemma install_writes_keys S f bl : (install_writes S f bl).*1 = bl.
Proof.
  unfold install_writes. rewrite fmap_imap. apply list_eq. intros k.
  rewrite list_lookup_imap. by destruct (bl !! k).
Qed.

(** [install_trans], after the writes [W0]: while the system runs the blocks are pinned,
    in recovery they need not be in the cache. *)
Lemma install_ok rec lg bl W0 V s :
  binv (v_puts W0 (v_ref V) V) s → klog s = lg → l_dev lg = ROOTDEV → 0 ≤ l_start lg →
  lh_n lg = Z.of_nat (length bl) → l_start lg + lh_n lg < 2 ^ 31 - 1 →
  (∀ k b, bl !! k = Some b → nthZ 0 (lh_block lg) (Z.of_nat k) = b ∧ blk_ok b ∧
     (b ≤ l_start lg ∨ l_start lg + lh_n lg < b)) →
  NoDup bl → v_held V = ∅ → small 2 (v_ref V) → (size (v_ref V) < Z.to_nat NBUF)%nat →
  (∀ b, b ∈ bl → is_Some (v_ref V !! b) ∨ (rec = true ∧ (S (size (v_ref V)) < Z.to_nat NBUF)%nat)) →
  (3 * length bl ≤ sched_left s)%nat →
  wp (install_trans rec) (λ _ s',
    binv (v_puts (W0 ++ install_writes (l_start lg) (apply_writes (v_content V) W0) bl)
      (if rec then v_ref V else unpin_all bl (v_ref V)) V) s' ∧
    bframe (3 * length bl) s s') s.
Proof.
  intros HV Hlg Hdev Hst Hn Hend Hbl Hnd Hheld Hsm Hsize Hpin Hs.
  unfold install_trans. apply wp_bind, wp_gets. rewrite Hlg.
  set (f := apply_writes (v_content V) W0).
  set (r := λ t, if rec then v_ref V else unpin_all (take t bl) (v_ref V)).
  eapply wp_mono.
  { apply (wp_for_tail _ (λ t s',
      binv (v_puts (W0 ++ install_writes (l_start lg) f (take (Z.to_nat t) bl)) (r (Z.to_nat t)) V) s' ∧
      bframe (3 * Z.to_nat t) s s')).
    - lia.
    - intros t s' [_ F]. destruct (bframe_facts _ _ _ F) as (-> & _). by rewrite Hlg.
    - split; [|apply bframe_refl]. cbn [take install_writes imap]. rewrite app_nil_r.
      unfold r. destruct rec; exact HV.
    - intros t s' Ht [HV' F]. destruct (bframe_facts _ _ _ F) as (Hk & _ & _ & _ & Hsl).
      destruct (lookup_lt_is_Some_2 bl (Z.to_nat t)) as [b Hb]; [lia|].
      destruct (Hbl _ _ Hb) as (Hblk & Hbok & Hout). rewrite Z2Nat.id in Hblk by lia.
      pose proof (list_elem_of_lookup_2 _ _ _ Hb) as Hin.
      assert (b ∉ take (Z.to_nat t) bl) as Hnin.
      { intros (j & Hj & Hlt)%elem_of_take. pose proof (NoDup_lookup _ _ _ _ Hnd Hb Hj). lia. }
      assert (size (r (Z.to_nat t)) ≤ size (v_ref V))%nat as Hrs
        by (unfold r; destruct rec; [done|apply unpin_all_size]).
      apply wp_bind, wp_gets. rewrite Hk, Hlg, Hdev. change (u32 ROOTDEV) with ROOTDEV.
      rewrite (u32_blk (l_start lg + t + 1)) by (unfold blk_ok; lia).
      eapply wp_mono.
      { apply (install_body rec _ s' (λ lg, u32 (l_dev lg)) (λ lg, u32 (nthZ 0 (lh_block lg) t))
          (l_start lg + t + 1) b HV').
        - by rewrite Hk, Hlg, Hdev.
        - by rewrite Hk, Hlg, Hblk, u32_blk.
        - unfold blk_ok; lia.
        - done.
        - lia.
        - intros i. by apply no_held.
        - intros i. by apply no_held.
        - right. cbn. lia.
        - cbn [v_ref v_puts]. destruct (Hpin b Hin) as [Hsome|[-> ?]].
          + left. unfold r. destruct rec; [done|]. by rewrite unpin_all_ne.
          + right. cbn. unfold r in *. lia.
        - cbn. unfold r. destruct rec; [done|]. by apply unpin_all_small.
        - lia. }
      intros ? s'' [HV'' F'']; cbn beta in *. split.
      + rewrite v_install_puts in HV''. replace (Z.to_nat (t + 1)) with (S (Z.to_nat t)) by lia.
        rewrite (take_S_r _ _ b) by done.
        rewrite install_writes_app, length_take, Nat.min_l by lia. rewrite Z2Nat.id by lia.
        rewrite apply_writes_app in HV''. fold f in HV''. rewrite (apply_writes_ne f) in HV''.
        2:{ rewrite install_writes_keys. intros (j & Hj & Hlt)%elem_of_take.
            destruct (Hbl _ _ Hj) as (_ & _ & Ho). lia. }
        rewrite <- app_assoc in HV''. replace (l_start lg + 1 + t) with (l_start lg + t + 1) by lia.
        assert (r (S (Z.to_nat t)) = (if rec then r (Z.to_nat t) else ref_dec b (r (Z.to_nat t)))) as ->; [|done].
        unfold r. destruct rec; [done|]. rewrite (take_S_r _ _ b) by done.
        unfold unpin_all. by rewrite foldl_app.
      + replace (3 * Z.to_nat (t + 1))%nat with (3 * Z.to_nat t + 3)%nat by lia.
        by eapply bframe_trans. }
  intros ? s' [HV' F']. rewrite Hn, Nat2Z.id in *. unfold r in HV'.
  rewrite take_ge in HV' by lia. done.
Qed.

(** All the writes of a commit, in order. *)
Definition commit_header (lg : log_state) (c : Z → list Z) : list Z :=
  header_bytes (lh_n lg) (lh_block lg) (c (l_start lg)).
Definition commit_writes (lg : log_state) (c : Z → list Z) (bl : list Z) : list (Z * list Z) :=
  (log_writes (l_start lg) c bl ++ [(l_start lg, commit_header lg c)]) ++ home_writes c bl ++
  [(l_start lg, header_bytes 0 (lh_block lg) (commit_header lg c))].

Lemma trans_install lg bl V :
  trans lg bl V →
  install_writes (l_start lg)
    (apply_writes (v_content V) (log_writes (l_start lg) (v_content V) bl ++ [(l_start lg, commit_header lg (v_content V))])) bl
  = home_writes (v_content V) bl.
Proof.
  intros T. apply list_eq. intros k. unfold install_writes, home_writes.
  rewrite list_lookup_imap, list_lookup_fmap. destruct (bl !! k) as [b|] eqn:Hk; [|done].
  cbn. do 2 f_equal. rewrite apply_writes_app. cbn. rewrite upd_ne by lia.
  apply apply_writes_in; [apply log_writes_nodup|by apply log_writes_lookup].
Qed.

Lemma klog_set_klog lg s : klog (set_klog lg s) = lg.
Proof. done. Qed.

Lemma commit_ok lg bl V s :
  binv V s → klog s = lg → trans lg bl V → bl ≠ [] → (6 * length bl + 4 ≤ sched_left s)%nat →
  wp commit (λ _ s', binv (v_puts (commit_writes lg (v_content V) bl) (unpin_all bl (v_ref V)) V) s' ∧
    bframe (6 * length bl + 4) (set_klog (set_lh_n 0 lg) s) s') s.
Proof.
  intros HV Hlg T Hne Hs. unfold commit. apply wp_bind, wp_gets. rewrite Hlg.
  pose proof (tr_n _ _ _ T) as Hn. pose proof (tr_start _ _ _ T) as H0. pose proof (tr_end _ _ _ T) as He.
  pose proof (tr_fits _ _ _ T) as Hfit. pose proof (trans_n_bound _ _ _ T) as Hnb.
  assert (0 < length bl)%nat as Hpos by (destruct bl; [done|cbn; lia]).
  assert (l_start lg ∉ (log_writes (l_start lg) (v_content V) bl).*1) as Hnin
    by (rewrite log_writes_keys; lia).
  assert (l_start lg ∉ (home_writes (v_content V) bl).*1) as Hnin'.
  { rewrite home_writes_keys. intros Hin. destruct (tr_ok _ _ _ T _ Hin) as [_ ?]. lia. }
  apply wp_when; [intros _|intros H; apply Z.ltb_ge in H; lia].
  apply wp_bind. eapply wp_mono; [apply (write_log_ok lg bl V); try done; lia|].
  intros ? s1 [HV1 F1]; cbn beta in *. destruct (bframe_facts _ _ _ F1) as (Hk1 & _ & _ & _ & Hs1).
  apply wp_bind. eapply wp_mono.
  { apply (write_head_ok _ s1 (lh_n lg) (lh_block lg) (l_start lg) HV1); rewrite ?Hk1, ?Hlg; try done.
    - apply T.
    - unfold blk_ok. lia.
    - lia.
    - intros i. apply no_held, T.
    - right. apply T.
    - apply (small_weaken 2); [apply T|lia].
    - lia. }
  intros ? s2 [HV2 F2]; cbn beta in *. destruct (bframe_facts _ _ _ F2) as (Hk2 & _ & _ & _ & Hs2).
  rewrite v_put_puts in HV2. cbn [v_puts v_content] in HV2. rewrite apply_writes_ne in HV2 by done.
  fold (commit_header lg (v_content V)) in HV2.
  apply wp_bind. eapply wp_mono.
  { apply (install_ok false lg bl _ V s2 HV2); try done.
    - congruence.
    - apply T.
    - lia.
    - intros k b Hb. pose proof (list_elem_of_lookup_2 _ _ _ Hb) as Hin.
      destruct (tr_ok _ _ _ T b Hin) as [? ?]. split_and!; [by apply (tr_block _ _ _ T)|done|lia].
    - apply T.
    - apply T.
    - apply T.
    - apply T.
    - intros b Hb. left. by apply (tr_pinned _ _ _ T).
    - lia. }
  rewrite (trans_install lg bl V T).
  intros ? s3 [HV3 F3]; cbn beta in *. destruct (bframe_facts _ _ _ F3) as (Hk3 & _ & _ & _ & Hs3).
  apply wp_bind, wp_modify.
  assert (klog s3 = lg) as Hk by congruence. rewrite Hk.
  eapply wp_mono.
  { apply (write_head_ok _ (set_klog (set_lh_n 0 lg) s3) 0 (lh_block lg) (l_start lg)
      (law_klog _ _ (set_lh_n 0 lg) HV3)); try done.
    - apply T.
    - unfold blk_ok. lia.
    - intros i. apply no_held, T.
    - right. cbn. pose proof (unpin_all_size bl (v_ref V)). pose proof (tr_room _ _ _ T). lia.
    - apply (small_weaken 2); [apply unpin_all_small, T|lia].
    - cbn. lia. }
  intros ? s4 [HV4 F4]; cbn beta in *. split.
  - rewrite v_put_puts in HV4. unfold commit_writes. rewrite app_assoc. revert HV4.
    apply binv_proper; [|done].
    assert (apply_writes (v_content V) ((log_writes (l_start lg) (v_content V) bl ++
      [(l_start lg, commit_header lg (v_content V))]) ++ home_writes (v_content V) bl) (l_start lg)
      = commit_header lg (v_content V)) as Hc.
    { rewrite apply_writes_app, apply_writes_ne by done. rewrite apply_writes_app. cbn. apply upd_eq. }
    cbn [v_puts v_content]. by rewrite Hc.
  - apply (bframe_weaken (3 * length bl + (2 + (3 * length bl + 2)))); [|lia].
    eapply bframe_trans; [by apply bframe_klog|]. eapply bframe_trans; [by apply bframe_klog|].
    eapply bframe_trans; [by apply bframe_klog|]. done.
Qed.
End commit.
