(* ===== verification/LogTrans.v ===== *)
(** * Transactions: [begin_op], [log_write] and [end_op] of kernel/log.c, and crashes *)

From S2P Require Import Prelude Machine State Spinlock KString Kalloc Vm Proc Sched Sleeplock Virtio Bio BlockSpec Log LogOps LogCommit.

(** The log in memory names the blocks [bl] of the running transaction, all pinned. *)
Record tlog (lg : log_state) (bl : list Z) (V : bview) : Prop := {
  tl_dev : l_dev lg = ROOTDEV;
  tl_start : 0 ≤ l_start lg;
  tl_end : l_start lg + l_size lg < 2 ^ 31;
  tl_n : lh_n lg = Z.of_nat (length bl);
  tl_fits : lh_n lg ≤ l_size lg - 1;
  tl_len : length (lh_block lg) = Z.to_nat LOGSIZE;
  tl_block k b : bl !! k = Some b → nthZ 0 (lh_block lg) (Z.of_nat k) = b;
  tl_ok b : b ∈ bl → blk_ok b ∧ (b < l_start lg ∨ l_start lg + l_size lg ≤ b);
  tl_nodup : NoDup bl;
  tl_pinned b : b ∈ bl → is_Some (v_ref V !! b)
}.

Lemma tlog_trans lg bl V :
  tlog lg bl V → small 2 (v_ref V) → (size (v_ref V) < Z.to_nat NBUF)%nat → v_held V = ∅ → trans lg bl V.
Proof. intros [] H1 H2 H3. by split. Qed.

(** ** Absorption *)

Lemma absorb_spec block bl n i b :
  (∀ k x, bl !! k = Some x → nthZ 0 block (i + Z.of_nat k) = x) → length bl = n →
  (b ∉ bl ∧ absorb block n i b = i + Z.of_nat n) ∨
  (∃ k, bl !! k = Some b ∧ absorb block n i b = i + Z.of_nat k).
Proof.
  revert i bl. induction n as [|n IH]; intros i bl Hb Hl.
  - apply nil_length_inv in Hl as ->. left. split; [set_solver|]. cbn. lia.
  - destruct bl as [|x bl]; [done|]. cbn in Hl. cbn [absorb].
    pose proof (Hb O x eq_refl) as Hx. rewrite Z.add_0_r in Hx. rewrite Hx.
    destruct (Z.eqb_spec x b) as [->|Hne].
    + right. exists O. split; [done|]. cbn. lia.
    + destruct (IH (i + 1) bl) as [[Hnin ->]|(k & Hk & ->)].
      * intros k y Hk. rewrite <- (Hb (S k) y Hk). f_equal. lia.
      * lia.
      * left. split; [set_solver|]. lia.
      * right. exists (S k). split; [done|]. lia.
Qed.

(** The blocks of the transaction, and the view, after [log_write] of block [b]. *)
Definition add_block (bl : list Z) (b : Z) : list Z := if decide (b ∈ bl) then bl else bl ++ [b].
Definition v_log (bl : list Z) (b : Z) (V : bview) : bview := if decide (b ∈ bl) then V else v_pin b V.

Section trans.
Context `{L : Layout} `{Oth : Others} {B : BlockIO} {BL : BlockLaws B}.

Lemma log_unlock c lg s0 s :
  cs_ok 0 c → lock_free L_log c → cs s = taken L_log c → set_cs c s = set_klog lg s0 →
  lift_cs (release L_log) s = Ret tt (set_klog lg s0).
Proof. intros Hc Hl Hs <-. by rewrite (k_release 0 L_log c). Qed.

Lemma log_write_ok V s i b lg bl :
  binv V s → klog s = lg → lock_free L_log (cs s) → v_held V !! i = Some b → tlog lg bl V →
  small 1 (v_ref V) → 1 ≤ l_outstanding lg → lh_n lg < l_size lg - 1 → lh_n lg < LOGSIZE →
  blk_ok b → (b < l_start lg ∨ l_start lg + l_size lg ≤ b) →
  wp (log_write i) (λ _ s', binv (v_log bl b V) s' ∧ tlog (klog s') (add_block bl b) (v_log bl b V) ∧
    l_outstanding (klog s') = l_outstanding lg ∧ l_committing (klog s') = l_committing lg ∧
    l_start (klog s') = l_start lg ∧ l_size (klog s') = l_size lg ∧
    bframe 0 (set_klog (klog s') s) s') s.
Proof.
  intros HV Hlg Hl Hi T Hsm Hout Hn1 Hn2 Hb Ho. destruct (law_env _ _ HV) as (Hc & _).
  destruct (law_held _ _ _ _ HV Hi) as [Hbn _].
  unfold log_write, wp. erewrite bind_ret; [|by eapply (k_acquire 0)].
  erewrite bind_ret; [|reflexivity]. change (klog (set_cs _ s)) with (klog s). rewrite Hlg.
  rewrite (proj2 (Z.leb_gt _ _)), (proj2 (Z.leb_gt _ _)) by done. cbn [orb].
  rewrite (proj2 (Z.ltb_ge _ _)) by lia.
  erewrite bind_ret; [|reflexivity]. change (bcache (set_cs _ s)) with (bcache s). rewrite Hbn. cbv zeta.
  assert (s32 b = b) as -> by (apply s32_small; unfold blk_ok in Hb; lia).
  pose proof (tl_n _ _ _ T) as Hn.
  destruct (absorb_spec (lh_block lg) bl (Z.to_nat (lh_n lg)) 0 b) as [[Hnin ->]|(k & Hk & ->)].
  { intros k x Hk. rewrite Z.add_0_l. by apply (tl_block _ _ _ T). }
  { lia. }
  - rewrite Z.add_0_l, Z2Nat.id by lia. set (lg1 := set_lh_block (setZ (lh_block lg) (lh_n lg) b) lg).
    erewrite bind_ret; [|unfold upd_log, modify; cbn [klog set_cs]; rewrite Hlg; fold lg1; reflexivity].
    rewrite Z.eqb_refl. cbn [when].
    pose proof (law_bpin V (set_klog lg1 s) i b (law_klog _ _ lg1 HV) Hi Hsm) as Hpin.
    change (set_cs (taken L_log (cs (set_klog lg1 s))) (set_klog lg1 s))
      with (set_klog lg1 (set_cs (taken L_log (cs s)) s)) in Hpin.
    apply wp_elim in Hpin as ([] & s' & Epin & s2 & -> & HV2 & F2).
    destruct (bframe_facts _ _ _ F2) as (Hk2 & Hcs2 & _).
    erewrite bind_ret; [|erewrite bind_ret; [|exact Epin]; reflexivity].
    change (klog (set_cs _ s2)) with (klog s2). rewrite Hk2. cbn [klog set_klog].
    rewrite (log_unlock (cs s) (set_lh_n (lh_n lg1 + 1) lg1) s2); [|done|done|done|].
    2:{ change (cs (set_klog lg1 s)) with (cs s) in Hcs2. rewrite <- Hcs2. by destruct s2. }
    cbn [klog set_klog]. unfold v_log, add_block. rewrite !decide_False by done. split_and!; try done.
    + by apply law_klog.
    + destruct T. split; cbn; try done.
      * rewrite length_app. cbn. lia.
      * lia.
      * by rewrite setZ_length.
      * intros k x Hk. destruct (decide (k < length bl)%nat) as [Hlt|Hge].
        -- rewrite lookup_app_l in Hk by done. rewrite nthZ_setZ_ne by lia. by apply tl_block0.
        -- rewrite lookup_app_r in Hk by lia. pose proof (lookup_lt_Some _ _ _ Hk) as Hlt'. cbn in Hlt'.
           replace k with (length bl) in * by lia. rewrite Nat.sub_diag in Hk. injection Hk as <-.
           rewrite <- Hn. apply nthZ_setZ_eq. rewrite tl_len0. change LOGSIZE with 30 in *. lia.
      * intros x [Hx|Hx]%elem_of_app; [by apply tl_ok0|]. apply list_elem_of_singleton in Hx as ->. done.
      * apply NoDup_app. split_and!; [done| |apply NoDup_singleton]. intros x Hx Hx'.
        apply list_elem_of_singleton in Hx' as ->. done.
      * intros x Hx. destruct (decide (b = x)) as [<-|Hne].
        -- unfold ref_inc. rewrite lookup_insert_eq. eauto.
        -- rewrite ref_inc_ne by done. apply tl_pinned0. set_solver.
    + apply (bframe_klog 0 (set_lh_n (lh_n lg1 + 1) lg1)) in F2. exact F2.
  - assert (b ∈ bl) as Hin by (by eapply list_elem_of_lookup_2). rewrite Z.add_0_l.
    pose proof (tl_block _ _ _ T k b Hk) as Hkb. pose proof (lookup_lt_Some _ _ _ Hk) as Hklt.
    assert (setZ (lh_block lg) (Z.of_nat k) b = lh_block lg) as Hset.
    { unfold setZ, nthZ in *. rewrite decide_True in Hkb by lia. rewrite decide_True by lia. rewrite Nat2Z.id in *.
      rewrite nth_lookup in Hkb. apply list_insert_id.
      destruct (lookup_lt_is_Some_2 (lh_block lg) k) as [x Hx]; [rewrite (tl_len _ _ _ T); change LOGSIZE with 30 in *; lia|].
      rewrite Hx in Hkb. cbn in Hkb. by subst. }
    erewrite bind_ret; [|unfold upd_log, modify; cbn [klog set_cs]; rewrite Hlg, Hset; reflexivity].
    replace (set_lh_block (lh_block lg) lg) with lg by (by destruct lg).
    rewrite (proj2 (Z.eqb_neq _ _)) by lia. cbn [when]. erewrite bind_ret; [|reflexivity].
    rewrite (log_unlock (cs s) lg s); [|done|done|done|by destruct s].
    cbn [klog set_klog]. unfold v_log, add_block. rewrite !decide_True by done. split_and!; try done.
    + by apply law_klog.
    + apply bframe_refl.
Qed.

(** ** The start and the end of an operation *)

Lemma begin_op_eq s n :
  cs_ok n (cs s) → lock_free L_log (cs s) → l_committing (klog s) = 0 →
  lh_n (klog s) + (l_outstanding (klog s) + 1) * MAXOPBLOCKS ≤ LOGSIZE →
  begin_op s = Ret tt (set_klog (set_l_outstanding (l_outstanding (klog s) + 1) (klog s)) s).
Proof.
  intros Hc Hl Hcom Hroom. unfold begin_op. erewrite bind_ret; [|by eapply k_acquire].
  erewrite bind_ret; [|reflexivity]. cbn [begin_op_loop]. erewrite bind_ret; [|reflexivity].
  change (klog (set_cs _ s)) with (klog s). rewrite Hcom. cbn [c_bool Z.eqb negb].
  rewrite (proj2 (Z.ltb_ge _ _)) by done. erewrite bind_ret; [|reflexivity].
  rewrite (k_release n L_log (cs s)) by done. by destruct s.
Qed.

(** [end_op] while other operations are running. *)
Lemma end_op_others_eq s :
  cs_ok 0 (cs s) → lock_free L_log (cs s) → procs_free None (cs s) → length (proc_tab s) = Z.to_nat NPROC →
  l_committing (klog s) = 0 → l_outstanding (klog s) ≠ 1 →
  end_op s = Ret tt (set_proc_tab (woken (Some C_log) (cur_proc s) (proc_tab s))
    (set_klog (set_l_outstanding (l_outstanding (klog s) - 1) (klog s)) s)).
Proof.
  intros Hc Hl Hf Ht Hcom Hout. unfold end_op. erewrite bind_ret; [|by eapply k_acquire].
  erewrite bind_ret; [|reflexivity]. erewrite bind_ret; [|reflexivity].
  cbn [klog set_klog set_cs l_committing set_l_outstanding l_outstanding]. rewrite Hcom. cbn [c_bool Z.eqb negb].
  cbv zeta. rewrite (proj2 (Z.eqb_neq _ _)) by lia. cbn iota.
  set (s1 := set_klog _ _). assert (cur_proc s1 = cur_proc s) as Hcur by (by apply (cur_proc_set_taken 0)).
  erewrite bind_ret.
  2:{ apply (wakeup_eq 1); [apply (taken_ok Hc); lia| |done]. apply procs_free_taken; [done|].
      intros r Hr _. by apply Hf. }
  erewrite bind_ret; [|by eapply (k_release 0 L_log (cs s))]. cbn [when].
  rewrite Hcur. unfold s1. by destruct s.
Qed.

(** The last [end_op]: the log before and after the commit. *)
Definition closing (lg : log_state) : log_state := set_l_committing 1 (set_l_outstanding 0 lg).
Definition idle (lg : log_state) : log_state := set_l_committing 0 (set_lh_n 0 (closing lg)).

Lemma end_op_ok V s lg bl :
  binv V s → klog s = lg → lock_free L_log (cs s) → trans lg bl V → bl ≠ [] →
  l_outstanding lg = 1 → l_committing lg = 0 → (6 * length bl + 4 ≤ sched_left s)%nat →
  wp end_op (λ _ s',
    binv (v_puts (commit_writes lg (v_content V) bl) (unpin_all bl (v_ref V)) V) s' ∧
    klog s' = idle lg ∧ bframe (6 * length bl + 4) (set_klog (idle lg) s) s') s.
Proof.
  intros HV Hlg Hl T Hne Hout Hcom Hs. destruct (law_env _ _ HV) as (Hc & _).
  unfold end_op. apply wp_bind. eapply wp_eq; [by eapply (k_acquire 0)|].
  apply wp_bind, wp_modify. apply wp_bind, wp_gets.
  cbn [klog set_klog set_cs]. rewrite Hlg. cbn [l_committing set_l_outstanding l_outstanding]. rewrite Hcom, Hout.
  cbn [c_bool Z.eqb negb]. cbv zeta. change (1 - 1 =? 0) with true. cbn iota.
  apply wp_bind, wp_modify. cbn [klog set_klog]. apply wp_bind.
  eapply wp_eq; [by eapply (log_unlock (cs s) (closing lg) s); [..|by destruct s]|].
  cbn [when]. change (1 - 1) with 0.
  assert (trans (closing lg) bl V) as T' by (destruct T; by split).
  apply wp_bind. eapply wp_mono.
  { apply (commit_ok (closing lg) bl V (set_klog (closing lg) s)); try done. by apply law_klog. }
  intros ? s1 [HV1 F1]; cbn beta in *.
  replace (set_klog (set_lh_n 0 (closing lg)) (set_klog (closing lg) s))
    with (set_klog (set_lh_n 0 (closing lg)) s) in F1 by (by destruct s).
  destruct (bframe_facts _ _ _ F1) as (Hk1 & Hcs1 & _). cbn in Hk1, Hcs1.
  destruct (law_env _ _ HV1) as (Hc1 & Hf1 & Ht1).
  assert (lock_free L_log (cs s1)) as Hl1 by (by rewrite Hcs1).
  apply wp_bind. eapply wp_eq; [by eapply (k_acquire 0)|]. apply wp_bind, wp_modify.
  cbn [klog set_klog set_cs]. rewrite Hk1. fold (idle lg).
  set (s2 := set_klog (idle lg) (set_cs (taken L_log (cs s1)) s1)).
  assert (cur_proc s2 = cur_proc s1) as Hcur by (by apply (cur_proc_set_taken 0)).
  apply wp_bind. eapply wp_eq.
  { apply (wakeup_eq 1); [apply (taken_ok Hc1); lia| |done]. apply procs_free_taken; [done|].
    intros r Hr _. by apply Hf1. }
  rewrite Hcur. change (proc_tab s2) with (proc_tab s1).
  eapply wp_eq.
  { eapply (log_unlock (cs s1) (idle lg) (set_proc_tab (woken (Some C_log) (cur_proc s1) (proc_tab s1)) s1));
      [done|done|done|]. unfold s2. by destruct s1. }
  split_and!; [|done|].
  - apply law_klog, law_wake. exact HV1.
  - apply (bframe_klog _ (idle lg)) in F1.
    replace (set_klog (idle lg) (set_klog (set_lh_n 0 (closing lg)) s)) with (set_klog (idle lg) s) in F1 by (by destruct s).
    replace (6 * length bl + 4)%nat with (6 * length bl + 4 + 0)%nat by lia.
    eapply bframe_trans; [exact F1|]. apply bframe_klog.
    exists (slocks s1), (bcache s1), (vdisk s1), (woken (Some C_log) (cur_proc s1) (proc_tab s1)), (sched_left s1).
    split_and!; [by destruct s1|done|unfold woken; by rewrite length_imap| |lia].
    intros p Hp. rewrite Hp. unfold woken. rewrite list_lookup_imap. destruct (proc_tab s1 !! p); [|done].
    cbn. unfold wake_at. by rewrite decide_True.
Qed.
End trans.

(** ** Crashes: what recovery makes of a disk whose commit was cut short

    The disk writes sectors of 512 bytes atomically, two per block. A crash leaves the
    writes done so far, and of the next block any of its two sectors. *)

(** A block of which a write got through for the first or the second sector. *)
Definition tear (t1 t2 : bool) (old new : list Z) : list Z :=
  take 512 (if t1 then new else old) ++ drop 512 (if t2 then new else old).

(** The disks that a crash during the writes [W] can leave, starting from [D]. *)
Definition crash_disk (D : Z → list Z) (W : list (Z * list Z)) (D' : Z → list Z) : Prop :=
  ∃ k t1 t2, let D1 := apply_writes D (take k W) in
    ∀ b, D' b = match W !! k with
                | Some (b0, d) => upd D1 b0 (tear t1 t2 (D1 b0) d) b
                | None => D1 b
                end.

(** The home blocks that the header on the disk names, and the disk after recovery. *)
Definition log_blocks (S : Z) (D : Z → list Z) : list Z :=
  (λ i, int_at (D S) (1 + i)) <$> zrange 0 (Z.to_nat (int_at (D S) 0)).
Definition recovered (S : Z) (D : Z → list Z) : Z → list Z :=
  apply_writes D (install_writes S D (log_blocks S D)).

(** ** Torn headers *)

Lemma int_at_tear t1 t2 old new i :
  0 ≤ i ≤ LOGSIZE → length old = 1024%nat → length new = 1024%nat →
  int_at (tear t1 t2 old new) i = int_at (if t1 then new else old) i.
Proof.
  intros Hi Ho Hn. change LOGSIZE with 30 in Hi. apply int_at_ext. intros k Hk. unfold tear.
  rewrite lookup_app_l by (rewrite length_take; destruct t1; lia).
  by rewrite lookup_take_lt by lia.
Qed.

(** ** Recovery as a function of the disk *)

Lemma recovered_empty S D b : int_at (D S) 0 = 0 → recovered S D b = D b.
Proof. intros H. unfold recovered, log_blocks. by rewrite H. Qed.

(** A header that says what the log holds. *)
Definition header_says (S : Z) (D : Z → list Z) (bl : list Z) : Prop :=
  int_at (D S) 0 = Z.of_nat (length bl) ∧
  ∀ k b, bl !! k = Some b → int_at (D S) (1 + Z.of_nat k) = b.

Lemma header_says_nil S D : int_at (D S) 0 = 0 → header_says S D [].
Proof. intros H0. split; [done|]. intros k b. by rewrite lookup_nil. Qed.

Lemma header_says_blocks S D bl : header_says S D bl → log_blocks S D = bl.
Proof.
  intros [Hn Hb]. unfold log_blocks. rewrite Hn, Nat2Z.id. apply list_eq. intros k.
  rewrite list_lookup_fmap. destruct (zrange 0 (length bl) !! k) as [x|] eqn:E.
  - apply zrange_lookup in E as [Hk ->]. destruct (lookup_lt_is_Some_2 bl k Hk) as [b Hkb].
    rewrite Hkb. cbn. f_equal. by apply Hb.
  - apply lookup_ge_None in E. rewrite zrange_length in E. by rewrite lookup_ge_None_2.
Qed.

Lemma recovered_full S D bl b :
  header_says S D bl → NoDup bl →
  (b ∉ bl → recovered S D b = D b) ∧
  (∀ k, bl !! k = Some b → recovered S D b = D (S + 1 + Z.of_nat k)).
Proof.
  intros Hh Hnd. unfold recovered. rewrite (header_says_blocks S D bl Hh). split.
  - intros Hb. apply apply_writes_ne. by rewrite install_writes_keys.
  - intros k Hk. apply apply_writes_in; [by rewrite install_writes_keys|].
    apply (list_elem_of_lookup_2 _ k). unfold install_writes. by rewrite list_lookup_imap, Hk.
Qed.

(** ** The commit *)

(** The disk with the transaction. *)
Definition committed (V : bview) (bl : list Z) : Z → list Z :=
  λ b, if decide (b ∈ bl) then v_content V b else v_disk V b.

(** Blocks outside the log. *)
Definition outside (lg : log_state) (b : Z) : Prop := b < l_start lg ∨ l_start lg + l_size lg ≤ b.

Section crash.
Context (lg : log_state) (bl : list Z) (V : bview) (T : trans lg bl V).
Context (Hlen_c : ∀ b, length (v_content V b) = 1024%nat) (Hlen_d : length (v_disk V (l_start lg)) = 1024%nat).
Context (Hclean : int_at (v_disk V (l_start lg)) 0 = 0).

Let S0 := l_start lg.
Let c0 := v_content V.
Let hdr := commit_header lg c0.
Let hdr0 := header_bytes 0 (lh_block lg) hdr.

Lemma trans_blocks_range i : 0 ≤ i < lh_n lg → - 2 ^ 31 ≤ nthZ 0 (lh_block lg) i < 2 ^ 31.
Proof.
  intros Hi. rewrite (tr_n _ _ _ T) in Hi. destruct (lookup_lt_is_Some_2 bl (Z.to_nat i)) as [b Hb]; [lia|].
  pose proof (tr_block _ _ _ T _ _ Hb) as H. rewrite Z2Nat.id in H by lia. rewrite H.
  destruct (tr_ok _ _ _ T b (list_elem_of_lookup_2 _ _ _ Hb)) as [Hok _]. unfold blk_ok in Hok. lia.
Qed.

Lemma hdr_spec :
  length hdr = 1024%nat ∧ int_at hdr 0 = lh_n lg ∧
  (∀ k b, bl !! k = Some b → int_at hdr (1 + Z.of_nat k) = b) ∧
  length hdr0 = 1024%nat ∧ int_at hdr0 0 = 0.
Proof.
  pose proof (trans_n_bound _ _ _ T) as Hn. pose proof (tr_n _ _ _ T) as Hl.
  destruct (header_bytes_spec (lh_n lg) (lh_block lg) (c0 S0) ltac:(lia) (Hlen_c _) trans_blocks_range)
    as (H1 & H2 & H3 & _).
  change (header_bytes (lh_n lg) (lh_block lg) (c0 S0)) with hdr in H1, H2, H3.
  destruct (header_bytes_spec 0 (lh_block lg) hdr ltac:(lia) H1 ltac:(lia)) as (H4 & H5 & _).
  split_and!; [done|done| |done|done].
  intros k b Hk. pose proof (lookup_lt_Some _ _ _ Hk). rewrite H3 by lia. by apply (tr_block _ _ _ T).
Qed.

(** The disks between which a commit moves: without the transaction, with the transaction
    in the log (whatever the home blocks hold), and with the transaction at home. *)
Inductive commit_stage (D : Z → list Z) : Prop :=
| StageOld : header_says S0 D [] → (∀ b, outside lg b → D b = v_disk V b) → commit_stage D
| StageLogged :
    header_says S0 D bl → (∀ k b, bl !! k = Some b → D (S0 + 1 + Z.of_nat k) = c0 b) →
    (∀ b, outside lg b → b ∉ bl → D b = v_disk V b) → commit_stage D
| StageHome : header_says S0 D [] → (∀ b, outside lg b → D b = committed V bl b) → commit_stage D.

Lemma recovered_logged D :
  header_says S0 D bl → (∀ k b, bl !! k = Some b → D (S0 + 1 + Z.of_nat k) = c0 b) →
  (∀ b, outside lg b → b ∉ bl → D b = v_disk V b) →
  ∀ b, outside lg b → recovered S0 D b = committed V bl b.
Proof.
  intros Hh Hlog HD b Hb. destruct (recovered_full S0 D bl b Hh (tr_nodup _ _ _ T)) as [H1 H2].
  unfold committed. case_decide as Hin.
  - apply list_elem_of_lookup in Hin as [k Hk]. rewrite (H2 k Hk). by apply Hlog.
  - rewrite H1 by done. by apply HD.
Qed.

(** Recovery from each of them gives all of the transaction or nothing of it. *)
Lemma commit_stage_recovered D :
  commit_stage D →
  (header_says S0 D [] ∨ header_says S0 D bl) ∧
  ((∀ b, outside lg b → recovered S0 D b = v_disk V b) ∨
   (∀ b, outside lg b → recovered S0 D b = committed V bl b)).
Proof.
  intros [Hh HD|Hh Hlog HD|Hh HD].
  - split; [by left|]. left. intros b Hb. rewrite recovered_empty by apply Hh. by apply HD.
  - split; [by right|]. right. by apply recovered_logged.
  - split; [by left|]. right. intros b Hb. rewrite recovered_empty by apply Hh. by apply HD.
Qed.

Let A := log_writes S0 c0 bl.
Let H := home_writes c0 bl.

(** The contents of a disk after some of the writes of the commit. *)
Lemma after_log k b : outside lg b ∨ b = S0 → apply_writes (v_disk V) (take k A) b = v_disk V b.
Proof.
  intros Hb. apply apply_writes_ne. rewrite fmap_take. intros Hin.
  assert (b ∈ A.*1) as Hin' by (apply elem_of_take in Hin as (? & ? & _); by eapply list_elem_of_lookup_2).
  apply log_writes_keys in Hin'. pose proof (tr_n _ _ _ T). pose proof (tr_fits _ _ _ T).
  unfold outside in Hb. fold S0 in Hb. lia.
Qed.

Lemma after_log_log k b : bl !! k = Some b → apply_writes (v_disk V) A (S0 + 1 + Z.of_nat k) = c0 b.
Proof.
  intros Hk. apply apply_writes_in; [apply log_writes_nodup|by apply log_writes_lookup].
Qed.

Lemma home_not_log j b : b ∈ (take j H).*1 → b ∈ bl ∧ outside lg b.
Proof.
  intros Hin. assert (b ∈ H.*1) as Hin'.
  { rewrite fmap_take in Hin. apply elem_of_take in Hin as (? & ? & _). by eapply list_elem_of_lookup_2. }
  unfold H in Hin'. rewrite home_writes_keys in Hin'. split; [done|].
  by destruct (tr_ok _ _ _ T b Hin') as [_ ?].
Qed.

(** After the header: [D] differs from the disk with the log only in home blocks. *)
Lemma stage_after_header D :
  (∀ b, b ≠ S0 → outside lg b ∧ b ∈ bl ∨ D b = apply_writes (v_disk V) A b) →
  header_says S0 D bl → commit_stage D.
Proof.
  intros HD Hh. pose proof (tr_n _ _ _ T) as Hn. pose proof (tr_fits _ _ _ T) as Hf.
  apply StageLogged; [done| |].
  - intros k b Hk. pose proof (lookup_lt_Some _ _ _ Hk) as Hlt.
    destruct (HD (S0 + 1 + Z.of_nat k) ltac:(lia)) as [[Ho _]| ->]; [|by apply after_log_log].
    unfold outside in Ho. fold S0 in Ho. lia.
  - intros b Ho Hnin. destruct (HD b) as [[_ ?]|E]; [|done|].
    + unfold outside in Ho. fold S0 in Ho. lia.
    + rewrite E. rewrite <- (take_ge A (length A)) by lia. apply after_log. by left.
Qed.

Lemma hdr_says D : (∀ i, 0 ≤ i ≤ LOGSIZE → int_at (D S0) i = int_at hdr i) → header_says S0 D bl.
Proof.
  intros HD. destruct hdr_spec as (_ & H1 & H2 & _). pose proof (tr_n _ _ _ T) as Hn.
  pose proof (trans_n_bound _ _ _ T) as Hb. split.
  - rewrite HD, H1 by (split; [lia|done]). done.
  - intros k b Hk. pose proof (lookup_lt_Some _ _ _ Hk) as Hlt. rewrite HD by lia. by apply H2.
Qed.

(** The home writes, done up to [j], and what they leave. *)
Lemma after_home j b :
  b ≠ S0 →
  outside lg b ∧ b ∈ bl ∨
  apply_writes (v_disk V) ((A ++ [(S0, hdr)]) ++ take j H) b = apply_writes (v_disk V) A b.
Proof.
  intros Hb. destruct (decide (b ∈ (take j H).*1)) as [Hin|Hnin].
  - left. destruct (home_not_log _ _ Hin). done.
  - right. rewrite apply_writes_app, apply_writes_ne by done. rewrite apply_writes_app. cbn.
    by rewrite upd_ne.
Qed.

Lemma after_home_hdr j : apply_writes (v_disk V) ((A ++ [(S0, hdr)]) ++ take j H) S0 = hdr.
Proof.
  rewrite apply_writes_app, apply_writes_ne.
  - rewrite apply_writes_app. cbn. apply upd_eq.
  - intros Hin. destruct (home_not_log _ _ Hin) as [_ Ho]. unfold outside in Ho. fold S0 in Ho.
    pose proof (tr_fits _ _ _ T). pose proof (tr_n _ _ _ T). lia.
Qed.

Lemma after_all b : outside lg b → apply_writes (v_disk V) ((A ++ [(S0, hdr)]) ++ H) b = committed V bl b.
Proof.
  intros Ho. unfold committed. rewrite apply_writes_app. case_decide as Hin.
  - apply apply_writes_in.
    + unfold H. rewrite home_writes_keys. apply T.
    + unfold H, home_writes. apply list_elem_of_fmap. by exists b.
  - rewrite apply_writes_ne by (unfold H; by rewrite home_writes_keys).
    rewrite apply_writes_app. cbn. pose proof (tr_fits _ _ _ T). pose proof (tr_n _ _ _ T).
    rewrite upd_ne by (unfold outside in Ho; fold S0 in Ho; lia).
    rewrite <- (take_ge A (length A)) by lia. apply after_log. by left.
Qed.

Lemma start_not_outside : ¬ outside lg S0.
Proof. pose proof (tr_n _ _ _ T). pose proof (tr_fits _ _ _ T). unfold outside. fold S0. lia. Qed.

(** A crash while a log block is being written. *)
Lemma crash_in_log k b0 d D' t1 t2 :
  A !! k = Some (b0, d) →
  (∀ b, D' b = upd (apply_writes (v_disk V) (take k A)) b0
                 (tear t1 t2 (apply_writes (v_disk V) (take k A) b0) d) b) →
  commit_stage D'.
Proof.
  intros Hd HD. pose proof (tr_n _ _ _ T) as Hn. pose proof (tr_fits _ _ _ T) as Hf.
  assert (b0 ∈ A.*1) as Hb0 by (apply list_elem_of_fmap; exists (b0, d); split; [done|by eapply list_elem_of_lookup_2]).
  apply log_writes_keys in Hb0. apply StageOld.
  - apply header_says_nil. rewrite HD, upd_ne by lia. rewrite after_log by (by right). exact Hclean.
  - intros b Ho. rewrite HD, upd_ne by (unfold outside in Ho; fold S0 in Ho; lia). apply after_log. by left.
Qed.

(** A crash while the header is being written: the first sector decides. *)
Lemma crash_in_header D' t1 t2 :
  (∀ b, D' b = upd (apply_writes (v_disk V) A) S0 (tear t1 t2 (apply_writes (v_disk V) A S0) hdr) b) →
  commit_stage D'.
Proof.
  intros HD. destruct hdr_spec as (Hl1 & _).
  assert (∀ b, outside lg b ∨ b = S0 → apply_writes (v_disk V) A b = v_disk V b) as HA.
  { intros b Hb. rewrite <- (take_ge A (length A)) by lia. by apply after_log. }
  assert (∀ i, 0 ≤ i ≤ LOGSIZE → int_at (D' S0) i = int_at (if t1 then hdr else v_disk V S0) i) as Hi.
  { intros i Hi. rewrite HD, upd_eq, HA by (by right). by apply int_at_tear. }
  assert (∀ b, b ≠ S0 → D' b = apply_writes (v_disk V) A b) as Hother
    by (intros b Hb; by rewrite HD, upd_ne).
  destruct t1.
  - apply stage_after_header; [|by apply hdr_says]. intros b Hb. right. by apply Hother.
  - apply StageOld.
    + apply header_says_nil. rewrite Hi by (split; [lia|done]). exact Hclean.
    + intros b Ho. rewrite Hother by (intros ->; by apply start_not_outside). apply HA. by left.
Qed.

(** A crash while a home block is being written. *)
Lemma crash_in_home j b0 d D' t1 t2 :
  H !! j = Some (b0, d) →
  (∀ b, let D1 := apply_writes (v_disk V) ((A ++ [(S0, hdr)]) ++ take j H) in
        D' b = upd D1 b0 (tear t1 t2 (D1 b0) d) b) →
  commit_stage D'.
Proof.
  intros Hd HD. cbn zeta in HD.
  assert (b0 ∈ bl ∧ outside lg b0) as [Hb0 Ho0].
  { apply (home_not_log (S j)). rewrite (take_S_r _ _ (b0, d)) by done. rewrite fmap_app. cbn. set_solver. }
  assert (b0 ≠ S0) as Hne by (intros ->; by apply start_not_outside).
  apply stage_after_header.
  - intros b Hb. rewrite HD. destruct (decide (b = b0)) as [->|]; [by left|].
    rewrite upd_ne by done. by apply after_home.
  - apply hdr_says. intros i Hi. rewrite HD, upd_ne by done. by rewrite after_home_hdr.
Qed.

(** A crash while the empty header is being written. *)
Lemma crash_in_clear D' t1 t2 :
  (∀ b, let D1 := apply_writes (v_disk V) ((A ++ [(S0, hdr)]) ++ H) in
        D' b = upd D1 S0 (tear t1 t2 (D1 S0) hdr0) b) →
  commit_stage D'.
Proof.
  intros HD. cbn zeta in HD. destruct hdr_spec as (Hl1 & _ & _ & Hl0 & Hn0).
  pose proof (after_home_hdr (length H)) as Hh. rewrite take_ge in Hh by lia.
  assert (∀ i, 0 ≤ i ≤ LOGSIZE → int_at (D' S0) i = int_at (if t1 then hdr0 else hdr) i) as Hi.
  { intros i Hi. rewrite HD, upd_eq, Hh. by apply int_at_tear. }
  destruct t1.
  - apply StageHome; [apply header_says_nil; rewrite Hi by (split; [lia|done]); exact Hn0|]. intros b Ho.
    rewrite HD, upd_ne by (intros ->; by apply start_not_outside). by apply after_all.
  - apply stage_after_header; [|by apply hdr_says]. intros b Hb. rewrite HD, upd_ne by done.
    pose proof (after_home (length H) b Hb) as Hah. rewrite take_ge in Hah by lia. done.
Qed.

(** After the last write. *)
Lemma crash_after_all D' :
  (∀ b, D' b = apply_writes (v_disk V) (commit_writes lg c0 bl) b) → commit_stage D'.
Proof.
  intros HD. destruct hdr_spec as (_ & _ & _ & _ & Hn0).
  assert (∀ b, D' b = upd (apply_writes (v_disk V) ((A ++ [(S0, hdr)]) ++ H)) S0 hdr0 b) as HD2.
  { intros b. rewrite HD. change (commit_writes lg c0 bl) with ((A ++ [(S0, hdr)]) ++ H ++ [(S0, hdr0)]).
    by rewrite !app_assoc, (apply_writes_app _ _ [(S0, hdr0)]). }
  apply StageHome.
  - apply header_says_nil. by rewrite HD2, upd_eq.
  - intros b Ho. rewrite HD2, upd_ne by (intros ->; by apply start_not_outside). by apply after_all.
Qed.

(** Every crash during the commit is in one of the stages. *)
Lemma commit_crash D' : crash_disk (v_disk V) (commit_writes lg c0 bl) D' → commit_stage D'.
Proof.
  intros (k & t1 & t2 & HD). cbn zeta in HD.
  destruct (decide (length (commit_writes lg c0 bl) ≤ k)%nat) as [Hend|Hlt].
  { rewrite (lookup_ge_None_2 (commit_writes lg c0 bl)), take_ge in HD by lia. by apply crash_after_all. }
  change (commit_writes lg c0 bl) with ((A ++ [(S0, hdr)]) ++ H ++ [(S0, hdr0)]) in HD, Hlt.
  rewrite !length_app in Hlt. cbn [length] in Hlt.
  destruct (decide (k < length A)%nat) as [Hk|Hk].
  { rewrite <- app_assoc, take_app_le, lookup_app_l in HD by lia.
    destruct (lookup_lt_is_Some_2 A k Hk) as [[b0 d] Hd]. rewrite Hd in HD. by eapply crash_in_log. }
  destruct (decide (k = length A)) as [->|Hk'].
  { rewrite <- app_assoc, take_app_length, lookup_app_r, Nat.sub_diag in HD by lia.
    by apply (crash_in_header D' t1 t2). }
  rewrite take_app_ge, lookup_app_r in HD by (rewrite length_app; cbn; lia).
  rewrite length_app in HD. cbn [length] in HD.
  destruct (decide (k - (length A + 1) < length H)%nat) as [Hj|Hj].
  - rewrite lookup_app_l, take_app_le in HD by lia.
    destruct (lookup_lt_is_Some_2 H _ Hj) as [[b0 d] Hd]. rewrite Hd in HD. by eapply crash_in_home.
  - replace (k - (length A + 1))%nat with (length H) in HD by lia.
    rewrite lookup_app_r, Nat.sub_diag, take_app_length in HD by lia.
    by apply (crash_in_clear D' t1 t2).
Qed.
End crash.

(** ** Crashes during recovery *)

(** Two disks with the same header and the same log, equal outside the home blocks. *)
Lemma recovered_agree S bl D D' :
  header_says S D bl → header_says S D' bl → NoDup bl →
  (∀ b, b ∈ bl → b < S ∨ S + Z.of_nat (length bl) < b) →
  (∀ b, b ∉ bl → b ≠ S → D' b = D b) →
  ∀ b, b ≠ S → recovered S D' b = recovered S D b.
Proof.
  intros Hh Hh' Hnd Hbl Heq b Hb.
  destruct (recovered_full S D bl b Hh Hnd) as [H1 H2].
  destruct (recovered_full S D' bl b Hh' Hnd) as [H1' H2'].
  destruct (decide (b ∈ bl)) as [Hin|Hin].
  - apply list_elem_of_lookup in Hin as [k Hk]. rewrite (H2 k Hk), (H2' k Hk).
    pose proof (lookup_lt_Some _ _ _ Hk). apply Heq; [|lia].
    intros Hin. destruct (Hbl _ Hin); lia.
  - rewrite H1, H1' by done. by apply Heq.
Qed.
