(* ===== verification/LogRecover.v ===== *)
(** * Recovery: [recover_from_log] of kernel/log.c, and the theorems of the log *)

From S2P Require Import LogTrans Prelude Machine State Spinlock KString Kalloc Vm Proc Sched Sleeplock Virtio Bio BlockSpec Log LogOps LogCommit.

(** A header that recovery can use: distinct home blocks outside the log. *)
Record header_wf (S : Z) (bl : list Z) : Prop := {
  hw_start : 0 ≤ S;
  hw_end : S + Z.of_nat (length bl) < 2 ^ 31 - 1;
  hw_len : (length bl ≤ Z.to_nat LOGSIZE)%nat;
  hw_block b : b ∈ bl → blk_ok b ∧ (b < S ∨ S + Z.of_nat (length bl) < b);
  hw_nodup : NoDup bl
}.

(** The writes of recovery. *)
Definition recover_writes (S : Z) (D : Z → list Z) (bl : list Z) : list (Z * list Z) :=
  install_writes S D bl ++ [(S, header_bytes 0 [] (D S))].

Lemma header_bytes_0 blocks d : header_bytes 0 blocks d = header_bytes 0 [] d.
Proof. done. Qed.

Lemma cache_room (V : bview) : v_ref V = ∅ → (S (size (v_ref V)) < Z.to_nat NBUF)%nat.
Proof. intros ->. rewrite map_size_empty. apply Nat.ltb_lt. by vm_compute. Qed.

Section recover.
Context `{L : Layout} `{Oth : Others} {B : BlockIO} {BL : BlockLaws B}.

(** The kernel after a reboot: nothing is cached, the disk is [D]. *)
Record rebooted (S : Z) (D : Z → list Z) (V : bview) (s : kstate) : Prop := {
  rb_inv : binv V s;
  rb_ref : v_ref V = ∅;
  rb_held : v_held V = ∅;
  rb_disk b : v_disk V b = D b;
  rb_dev : l_dev (klog s) = ROOTDEV;
  rb_start : l_start (klog s) = S;
  rb_block : length (lh_block (klog s)) = Z.to_nat LOGSIZE;
  rb_sched : (3 * Z.to_nat LOGSIZE + 3 ≤ sched_left s)%nat
}.

Lemma read_head_ok S bl V s :
  rebooted S (v_disk V) V s → header_says S (v_disk V) bl → header_wf S bl →
  wp read_head (λ _ s', binv V s' ∧ bframe 1 (set_klog (klog s') s) s' ∧
    lh_n (klog s') = Z.of_nat (length bl) ∧ l_dev (klog s') = ROOTDEV ∧ l_start (klog s') = S ∧
    ∀ k b, bl !! k = Some b → nthZ 0 (lh_block (klog s')) (Z.of_nat k) = b) s.
Proof.
  intros R [Hn Hb] Hwf. pose proof (rb_inv _ _ _ _ R) as HV. pose proof (hw_len _ _ Hwf) as Hlen.
  unfold read_head. apply wp_bind, wp_gets. rewrite (rb_dev _ _ _ _ R), (rb_start _ _ _ _ R).
  change (u32 ROOTDEV) with ROOTDEV.
  assert (blk_ok S) as Hok. { pose proof (hw_start _ _ Hwf). pose proof (hw_end _ _ Hwf). unfold blk_ok. lia. }
  rewrite u32_blk by done.
  pose proof (rb_sched _ _ _ _ R) as Hs.
  apply wp_bind. eapply wp_mono.
  { apply (law_bread V); [done|done|intros i; apply no_held, R| | |lia].
    2:{ rewrite (rb_ref _ _ _ _ R). apply small_empty. }
    right. pose proof (cache_room V (rb_ref _ _ _ _ R)). lia. }
  intros i s1 (Hi & HV1 & F1); cbn beta in *.
  destruct (bframe_facts _ _ _ F1) as (Hk1 & _).
  apply wp_bind, wp_gets.
  destruct (law_held _ _ i S HV1 ltac:(cbn; by rewrite lookup_insert_eq)) as [_ Hdata].
  change (v_content (v_bread i S V)) with (v_content V) in Hdata. rewrite Hdata.
  rewrite (law_clean V s S HV) by (by rewrite (rb_ref _ _ _ _ R)).
  set (d := v_disk V S) in *. cbv zeta.
  apply wp_bind, wp_modify. apply wp_bind, wp_gets. cbn [klog set_klog lh_n set_lh_n].
  rewrite Hn, Nat2Z.id.
  set (lg1 := set_lh_n (Z.of_nat (length bl)) (klog s1)).
  apply wp_bind. eapply wp_mono.
  { apply (wp_mfor_zrange _ _ (λ t s', ∃ lg, s' = set_klog lg s1 ∧
      lh_n lg = Z.of_nat (length bl) ∧ l_dev lg = ROOTDEV ∧ l_start lg = S ∧
      length (lh_block lg) = Z.to_nat LOGSIZE ∧
      ∀ k b, Z.of_nat k < t → bl !! k = Some b → nthZ 0 (lh_block lg) (Z.of_nat k) = b)).
    - exists lg1. unfold lg1. rewrite Hk1. cbn. split_and!; try apply R; try done. lia.
    - intros t s' Ht (lg & -> & H1 & H2 & H3 & H4 & H5). apply wp_modify. cbn [klog set_klog].
      exists (set_lh_block (setZ (lh_block lg) t (int_at d (1 + t))) lg). cbn. split_and!; try done.
      + by rewrite setZ_length.
      + intros k b Hk Hkb. destruct (decide (Z.of_nat k = t)) as [<-|Hne].
        * rewrite nthZ_setZ_eq by (rewrite H4; lia). by apply Hb.
        * rewrite nthZ_setZ_ne by done. apply H5; [lia|done]. }
  intros ? s2 (lg & -> & H1 & H2 & H3 & H4 & H5); cbn beta in *.
  eapply wp_mono.
  { apply (law_brelse _ _ i S (law_klog _ _ lg HV1)); [cbn; by rewrite lookup_insert_eq|].
    intros _. cbn. apply (law_clean V s S HV). by rewrite (rb_ref _ _ _ _ R). }
  intros ? s3 [HV3 F3]; cbn beta in *. destruct (bframe_facts _ _ _ F3) as (Hk3 & _). cbn in Hk3.
  split_and!.
  - unfold v_brelse, v_bread in HV3. cbn in HV3.
    rewrite delete_insert_id, ref_dec_inc in HV3; [by destruct V| |done].
    intros n. by rewrite (rb_ref _ _ _ _ R), lookup_empty.
  - rewrite Hk3. replace 1%nat with (1 + 0)%nat by lia.
    eapply bframe_trans; [|exact F3]. by apply bframe_klog.
  - by rewrite Hk3.
  - by rewrite Hk3.
  - by rewrite Hk3.
  - intros k b Hkb. rewrite Hk3. apply H5; [|done]. apply lookup_lt_Some in Hkb. lia.
Qed.

Lemma install_writes_ext S f g bl : (∀ b, f b = g b) → install_writes S f bl = install_writes S g bl.
Proof.
  intros H. apply list_eq. intros k. unfold install_writes. rewrite !list_lookup_imap.
  destruct (bl !! k); [|done]. cbn. by rewrite H.
Qed.

Lemma recover_ok S bl V s :
  rebooted S (v_disk V) V s → header_says S (v_disk V) bl → header_wf S bl →
  wp recover_from_log (λ _ s',
    binv (v_puts (recover_writes S (v_disk V) bl) ∅ V) s' ∧ lh_n (klog s') = 0 ∧
    bframe (3 * length bl + 3) (set_klog (klog s') s) s') s.
Proof.
  intros R Hsay Hwf. pose proof (hw_start _ _ Hwf). pose proof (hw_end _ _ Hwf).
  pose proof (hw_len _ _ Hwf) as Hlen. pose proof (rb_sched _ _ _ _ R) as Hs.
  unfold recover_from_log. apply wp_bind. eapply wp_mono; [by apply (read_head_ok S bl V)|].
  intros ? s1 (HV1 & F1 & Hn & Hd & Hst & Hblk); cbn beta in *.
  destruct (bframe_facts _ _ _ F1) as (_ & _ & _ & _ & Hs1). cbn in Hs1.
  apply wp_bind. eapply wp_mono.
  { apply (install_ok true (klog s1) bl [] V s1); try done.
    - revert HV1. apply binv_proper; [|done]. apply v_puts_nil.
    - lia.
    - lia.
    - intros k b Hk. destruct (hw_block _ _ Hwf b) as [? ?]; [by eapply list_elem_of_lookup_2|].
      split_and!; [by apply Hblk|done|lia].
    - apply Hwf.
    - apply R.
    - rewrite (rb_ref _ _ _ _ R). apply small_empty.
    - pose proof (cache_room V (rb_ref _ _ _ _ R)). lia.
    - intros b _. right. split; [done|]. apply cache_room, R.
    - lia. }
  intros ? s2 [HV2 F2]; cbn beta in *. destruct (bframe_facts _ _ _ F2) as (Hk2 & _ & _ & _ & Hs2).
  rewrite (rb_ref _ _ _ _ R), Hst in HV2. cbn [app apply_writes foldl] in HV2.
  apply wp_bind, wp_modify. rewrite Hk2.
  eapply wp_mono.
  { apply (write_head_ok _ (set_klog (set_lh_n 0 (klog s1)) s2) 0 (lh_block (klog s1)) S
      (law_klog _ _ (set_lh_n 0 (klog s1)) HV2)); try done.
    - unfold blk_ok. lia.
    - intros i. apply no_held, R.
    - right. pose proof (cache_room V (rb_ref _ _ _ _ R)) as Hr. rewrite (rb_ref _ _ _ _ R) in Hr. cbn. lia.
    - cbn. lia. }
  intros ? s3 [HV3 F3]; cbn beta in *. destruct (bframe_facts _ _ _ F3) as (Hk3 & _).
  cbn [klog set_klog] in Hk3. split_and!.
  - rewrite v_put_puts in HV3. unfold recover_writes.
    assert (∀ b, v_content V b = v_disk V b) as Hcd.
    { intros b. apply (law_clean V s b); [apply R|]. by rewrite (rb_ref _ _ _ _ R). }
    rewrite (install_writes_ext S (v_content V) (v_disk V)) in HV3 by done.
    cbn [v_puts v_content] in HV3. rewrite apply_writes_ne, Hcd, header_bytes_0 in HV3; [done|].
    rewrite install_writes_keys. intros Hin. destruct (hw_block _ _ Hwf _ Hin) as [_ ?]. lia.
  - by rewrite Hk3.
  - rewrite Hk3. apply (bframe_weaken (1 + (3 * length bl + 2))); [|lia].
    eapply bframe_trans; [|eapply bframe_trans; [|exact F3]].
    + apply (bframe_klog _ (set_lh_n 0 (klog s1))) in F1.
      replace (set_klog (set_lh_n 0 (klog s1)) (set_klog (klog s1) s))
        with (set_klog (set_lh_n 0 (klog s1)) s) in F1 by (by destruct s). exact F1.
    + by apply bframe_klog.
Qed.
End recover.

(** The disks that a crash during recovery leaves: the header is still there and only home
    blocks differ, or it was cleared after all of them were installed. *)
Definition recovering (S : Z) (bl : list Z) (D D' : Z → list Z) : Prop :=
  (header_says S D' bl ∧ ∀ b, b ∉ bl → b ≠ S → D' b = D b) ∨
  (header_says S D' [] ∧ ∀ b, b ≠ S → D' b = recovered S D b).

Lemma recovering_recovered S bl D D' :
  header_says S D bl → header_wf S bl → recovering S bl D D' →
  (header_says S D' [] ∨ header_says S D' bl) ∧ ∀ b, b ≠ S → recovered S D' b = recovered S D b.
Proof.
  intros Hh Hwf [[Hh' Heq]|[Hh' Heq]].
  - split; [by right|]. apply (recovered_agree S bl); try done; [apply Hwf|].
    intros b Hb. by destruct (hw_block _ _ Hwf b Hb).
  - split; [by left|]. intros b Hb. by rewrite recovered_empty, Heq by (done || apply Hh').
Qed.

Lemma header_says_ext S D D' bl :
  header_says S D bl → (length bl ≤ Z.to_nat LOGSIZE)%nat →
  (∀ i, 0 ≤ i ≤ LOGSIZE → int_at (D' S) i = int_at (D S) i) → header_says S D' bl.
Proof.
  intros [Hn Hb] Hl Hi. split.
  - rewrite Hi; [done|split; [lia|done]].
  - intros j b Hj. pose proof (lookup_lt_Some _ _ _ Hj). rewrite Hi by lia. by apply Hb.
Qed.

Lemma recover_crash S bl D D' :
  header_says S D bl → header_wf S bl → length (D S) = 1024%nat →
  crash_disk D (recover_writes S D bl) D' → recovering S bl D D'.
Proof.
  intros Hh Hwf Hlen (k & t1 & t2 & HD). cbn zeta in HD. unfold recover_writes in HD.
  destruct (header_bytes_spec 0 [] (D S) ltac:(done) Hlen ltac:(lia)) as (Hl0 & Hn0 & _).
  set (h0 := header_bytes 0 [] (D S)) in *. set (W := install_writes S D bl) in *.
  assert (∀ b, recovered S D b = apply_writes D W b) as HW
    by (intros b; unfold recovered; by rewrite (header_says_blocks _ _ _ Hh)).
  assert (∀ j b, b ∉ bl → apply_writes D (take j W) b = D b) as Hkeep.
  { intros j b Hb. apply apply_writes_ne. rewrite fmap_take. unfold W. rewrite install_writes_keys.
    intros (? & ? & _)%elem_of_take. apply Hb. by eapply list_elem_of_lookup_2. }
  assert (∀ b, b ∉ bl → apply_writes D W b = D b) as Hkeep'.
  { intros b Hb. rewrite <- (take_ge W (length W)) by lia. by apply Hkeep. }
  assert (S ∉ bl) as HS by (intros Hin; destruct (hw_block _ _ Hwf _ Hin) as [_ ?]; lia).
  destruct (decide (k < length W)%nat) as [Hk|Hk].
  { rewrite take_app_le, lookup_app_l in HD by lia.
    destruct (lookup_lt_is_Some_2 W k Hk) as [[b0 d] Hd]. rewrite Hd in HD.
    assert (b0 ∈ bl) as Hb0.
    { rewrite <- (install_writes_keys S D bl). apply list_elem_of_fmap. exists (b0, d).
      split; [done|by eapply list_elem_of_lookup_2]. }
    left. split.
    - apply (header_says_ext S D); [done|apply Hwf|]. intros i Hi. rewrite HD, upd_ne by (by intros ->). by rewrite Hkeep.
    - intros b Hb Hne. rewrite HD, upd_ne by (by intros ->). by apply Hkeep. }
  destruct (decide (k = length W)) as [->|Hk'].
  { rewrite take_app_length, lookup_app_r, Nat.sub_diag in HD by lia. cbn in HD.
    rewrite (Hkeep' S HS) in HD. destruct t1; [right|left]; split.
    - apply header_says_nil. rewrite HD, upd_eq, int_at_tear; done.
    - intros b Hb. rewrite HD, HW. by apply upd_ne.
    - apply (header_says_ext S D); [done|apply Hwf|]. intros i Hi. rewrite HD, upd_eq. by apply int_at_tear.
    - intros b Hb Hne. rewrite HD, upd_ne by done. by apply Hkeep'. }
  rewrite (lookup_ge_None_2 (W ++ _)), take_ge in HD by (rewrite length_app; cbn; lia). right. split.
  - apply header_says_nil. rewrite HD, apply_writes_app. cbn. by rewrite upd_eq.
  - intros b Hb. rewrite HD, HW, apply_writes_app. cbn. by apply upd_ne.
Qed.

Lemma header_wf_nil S : 0 ≤ S < 2 ^ 31 - 1 → header_wf S [].
Proof.
  intros H. split; cbn; [lia|lia|lia| |constructor]. intros b Hb. by apply elem_of_nil in Hb.
Qed.

Lemma trans_header_wf lg bl V : trans lg bl V → header_wf (l_start lg) bl.
Proof.
  intros T. pose proof (tr_n _ _ _ T). pose proof (tr_fits _ _ _ T). pose proof (tr_end _ _ _ T).
  pose proof (trans_n_bound _ _ _ T) as Hb. change LOGSIZE with 30 in Hb. split; try apply T.
  - lia.
  - change (Z.to_nat LOGSIZE) with 30%nat. lia.
  - intros b Hin. destruct (tr_ok _ _ _ T b Hin). split; [done|lia].
Qed.

Section log.
Context `{L : Layout} `{Oth : Others} {B : BlockIO} {BL : BlockLaws B}.

Lemma rebooted_self S D V s : rebooted S D V s → rebooted S (v_disk V) V s.
Proof. intros R. destruct R. by split. Qed.

(** What a recovery that is not cut short leaves. *)
Lemma recover_disk S bl D V s :
  rebooted S D V s → header_says S D bl → header_wf S bl →
  wp recover_from_log (λ _ s', ∃ V' W, binv V' s' ∧ lh_n (klog s') = 0 ∧ v_hist V' = v_hist V ++ W ∧
    W = recover_writes S (v_disk V) bl ∧
    header_says S (v_disk V') [] ∧ ∀ b, b ≠ S → v_disk V' b = recovered S D b) s.
Proof.
  intros R Hh Hwf. pose proof (rb_disk _ _ _ _ R) as HD.
  assert (header_says S (v_disk V) bl) as Hh' by (destruct Hh as [H1 H2]; split; rewrite HD; done).
  assert (length (v_disk V S) = 1024%nat) as Hlen.
  { rewrite <- (law_clean V s S (rb_inv _ _ _ _ R)) by (by rewrite (rb_ref _ _ _ _ R)).
    apply (law_len V s), R. }
  eapply wp_mono; [by eapply recover_ok; [eapply rebooted_self|..]|].
  intros ? s' (HV & Hn & _). exists (v_puts (recover_writes S (v_disk V) bl) ∅ V), (recover_writes S (v_disk V) bl).
  destruct (header_bytes_spec 0 [] (v_disk V S) ltac:(done) Hlen ltac:(lia)) as (_ & Hn0 & _).
  split_and!; try done; cbn; unfold recover_writes.
  - apply header_says_nil. rewrite apply_writes_app. cbn. by rewrite upd_eq.
  - intros b Hb. rewrite apply_writes_app. cbn. rewrite upd_ne by done. unfold recovered.
    rewrite (header_says_blocks _ _ _ Hh), (install_writes_ext S D (v_disk V)) by done.
    by apply apply_writes_ext.
Qed.
End log.
