(* ===== verification/LogSafe.v ===== *)
(** * The log makes operations atomic

    The log (kernel/log.c) on top of the buffer cache (kernel/bio.c) on top of the disk
    driver (kernel/virtio_disk.c): the updates between [begin_op] and [end_op] reach the
    disk together, whatever moment the machine stops at, once [recover_from_log] has
    run. *)

From S2P Require Import Prelude Machine State Spinlock KString Kalloc Vm Proc Sched Sleeplock Virtio VirtioProofs Bio LruProofs BlockSpec BioInv BioProofs BioBoot Log LogOps LogCommit LogTrans LogRecover.

(** Block updates of an operation, as the file system makes them: [bread], a change of
    the data, [log_write], [brelse]. *)
Definition update_blocks `{L : Layout} `{Oth : Others} `{B : BlockIO} (ups : list (Z * list Z)) : K unit :=
  mfor ups (λ '(b, d),
    i ← bread ROOTDEV b;
    upd_buf i (set_b_data d);;
    log_write i;;
    brelse i).

(** ** The view during a transaction *)

Definition pins (bl : list Z) : gmap Z nat := list_to_map ((λ b, (b, 1%nat)) <$> bl).

Lemma pins_lookup bl b : pins bl !! b = if decide (b ∈ bl) then Some 1%nat else None.
Proof.
  unfold pins. case_decide as Hb.
  - apply elem_of_list_to_map_1'.
    + intros y Hy. apply list_elem_of_fmap in Hy as (x & [= _ ->] & _). done.
    + apply list_elem_of_fmap. by exists b.
  - apply not_elem_of_list_to_map_1. intros Hin. apply list_elem_of_fmap in Hin as ((x & y) & -> & Hx).
    apply list_elem_of_fmap in Hx as (z & [= -> _] & ?). done.
Qed.

Lemma pins_snoc bl b : b ∉ bl → pins (bl ++ [b]) = ref_inc b (pins bl).
Proof.
  intros Hb. apply map_eq. intros x. rewrite pins_lookup. unfold ref_inc. rewrite pins_lookup.
  rewrite (decide_False (P := b ∈ bl)) by done. destruct (decide (b = x)) as [<-|Hne].
  - rewrite lookup_insert_eq, decide_True by set_solver. done.
  - rewrite lookup_insert_ne, pins_lookup by done. destruct (decide (x ∈ bl)).
    + by rewrite decide_True by set_solver.
    + by rewrite decide_False by set_solver.
Qed.

Lemma pins_small bl k : k < 2 ^ 32 - 1 → small k (pins bl).
Proof. intros Hk b n. rewrite pins_lookup. case_decide; [intros [= <-]; lia|done]. Qed.

Lemma pins_size bl : (size (pins bl) ≤ length bl)%nat.
Proof.
  induction bl as [|b bl IH]; [done|]. unfold pins. cbn. fold (pins bl).
  rewrite map_size_insert. destruct (pins bl !! b); cbn; lia.
Qed.

Definition v_tx (V : bview) (ups : list (Z * list Z)) (bl : list Z) : bview :=
  Mk_bview (apply_writes (v_content V) ups) (v_disk V) (v_hist V) ∅ (pins bl).

(** The blocks of the updates, each once. *)
Definition tx_blocks (ups : list (Z * list Z)) : list Z := foldl add_block [] ups.*1.

Lemma tx_blocks_snoc ups b d : tx_blocks (ups ++ [(b, d)]) = add_block (tx_blocks ups) b.
Proof. unfold tx_blocks. rewrite fmap_app, foldl_app. done. Qed.

Lemma tx_blocks_elem ups b : b ∈ tx_blocks ups ↔ b ∈ ups.*1.
Proof.
  induction ups as [|[b' d] ups IH] using rev_ind; [done|]. rewrite tx_blocks_snoc, fmap_app. unfold add_block.
  case_decide; rewrite ?elem_of_app, IH; cbn; set_solver.
Qed.
Lemma tx_blocks_length ups : (length (tx_blocks ups) ≤ length ups)%nat.
Proof.
  induction ups as [|[b' d] ups IH] using rev_ind; [done|]. rewrite tx_blocks_snoc, length_app. cbn. unfold add_block.
  case_decide; rewrite ?length_app; cbn; lia.
Qed.

Section safe.
Context `{L : Layout} `{Oth : Others} {B : BlockIO} {BL : BlockLaws B}.

(** A transaction that has the blocks of [ups] so far. *)
Record in_tx (V : bview) (lg0 : log_state) (ups : list (Z * list Z)) (s : kstate) : Prop := {
  it_inv : binv (v_tx V ups (tx_blocks ups)) s;
  it_lock : lock_free L_log (cs s);
  it_log : tlog (klog s) (tx_blocks ups) (v_tx V ups (tx_blocks ups));
  it_out : l_outstanding (klog s) = 1;
  it_com : l_committing (klog s) = 0;
  it_start : l_start (klog s) = l_start lg0;
  it_size : l_size (klog s) = l_size lg0
}.

(** One update. *)
Lemma update_step V lg0 ups b d s :
  in_tx V lg0 ups s → blk_ok b → (b < l_start lg0 ∨ l_start lg0 + l_size lg0 ≤ b) →
  length d = Z.to_nat BSIZE → Z.of_nat (length ups) < l_size lg0 - 1 → Z.of_nat (length ups) < LOGSIZE →
  (0 < sched_left s)%nat →
  wp (i ← bread ROOTDEV b; upd_buf i (set_b_data d);; log_write i;; brelse i)
    (λ _ s', in_tx V lg0 (ups ++ [(b, d)]) s' ∧ bframe 1 (set_klog (klog s') s) s') s.
Proof.
  intros [HV Hl T Hout Hcom Hst Hsz] Hb Ho Hd Hn1 Hn2 Hs. set (bl := tx_blocks ups) in *.
  pose proof (tx_blocks_length ups) as Hlen. fold bl in Hlen. pose proof (tl_n _ _ _ T) as Hn.
  apply wp_bind. eapply wp_mono.
  { apply (law_bread _ _ b HV); [done|intros i; by apply no_held| |by apply pins_small|done].
    right. cbn. pose proof (pins_size bl). change (Z.to_nat NBUF) with 30%nat. change LOGSIZE with 30 in Hn2. lia. }
  intros i s1 (Hi & HV1 & F1); cbn beta in *. destruct (bframe_facts _ _ _ F1) as (Hk1 & Hc1 & _).
  apply wp_bind. eapply wp_mono.
  { apply (law_store _ _ i b d HV1); [cbn; by rewrite lookup_insert_eq|done]. }
  intros ? s2 (HV2 & F2); cbn beta in *. destruct (bframe_facts _ _ _ F2) as (Hk2 & Hc2 & _).
  assert (klog s2 = klog s) as Hk by congruence.
  set (V2 := v_store b d (v_bread i b (v_tx V ups bl))) in *.
  apply wp_bind. eapply wp_mono.
  { apply (log_write_ok V2 s2 i b (klog s) bl); try done; try lia.
    - by rewrite Hc2, Hc1.
    - cbn. by rewrite lookup_insert_eq.
    - destruct T. split; try done. intros x Hx. cbn. destruct (decide (b = x)) as [<-|Hne].
      + unfold ref_inc. rewrite lookup_insert_eq. eauto.
      + rewrite ref_inc_ne by done. by apply tl_pinned.
    - apply small_inc; [lia|]. by apply pins_small. }
  intros ? s3 (HV3 & T3 & Ho3 & Hcm3 & Hst3 & Hsz3 & F3); cbn beta in *.
  destruct (bframe_facts _ _ _ F3) as (_ & Hc3 & _). cbn in Hc3.
  assert (v_ref (v_log bl b V2) !! b = Some 2%nat ∧ v_held (v_log bl b V2) = <[i := b]> ∅ ∧
    ref_dec b (v_ref (v_log bl b V2)) = pins (add_block bl b)) as (Hr & Hh & Hdec).
  { unfold v_log, V2, add_block. case_decide as Hin; cbn.
    - split_and!; [|done|].
      + unfold ref_inc. by rewrite lookup_insert_eq, pins_lookup, decide_True.
      + apply ref_dec_inc. intros n. rewrite pins_lookup. case_decide; [by intros [= <-]|done].
    - split_and!; [|done|].
      + unfold ref_inc. by rewrite !lookup_insert_eq, pins_lookup, decide_False.
      + rewrite ref_dec_inc; [by rewrite pins_snoc|]. intros n.
        unfold ref_inc. rewrite lookup_insert_eq. by intros [= <-]. }
  eapply wp_mono.
  { apply (law_brelse _ _ i b HV3); [by rewrite Hh, lookup_insert_eq|]. by rewrite Hr. }
  intros ? s4 [HV4 F4]; cbn beta in *. destruct (bframe_facts _ _ _ F4) as (Hk4 & Hc4 & _). split.
  - assert (v_brelse i b (v_log bl b V2) = v_tx V (ups ++ [(b, d)]) (add_block bl b)) as EV.
    { unfold v_brelse, v_tx. rewrite Hh, Hdec, delete_insert_id, apply_writes_app by done.
      unfold v_log. by case_decide. }
    rewrite EV in HV4. split; rewrite ?tx_blocks_snoc, ?Hk4; fold bl; try done; try congruence.
    destruct T3. split; try done. intros x Hx. cbn. rewrite pins_lookup, decide_True by done. eauto.
  - rewrite Hk4. apply (bframe_klog _ (klog s3)) in F1. apply (bframe_klog _ (klog s3)) in F2.
    apply (bframe_weaken (1 + (0 + (0 + 0)))); [|lia].
    eapply bframe_trans; [exact F1|]. eapply bframe_trans; [exact F2|]. by eapply bframe_trans.
Qed.

(** All the updates. *)
Lemma updates_ok V lg0 ups0 ups s :
  in_tx V lg0 ups0 s →
  (∀ b d, (b, d) ∈ ups → blk_ok b ∧ (b < l_start lg0 ∨ l_start lg0 + l_size lg0 ≤ b) ∧ length d = Z.to_nat BSIZE) →
  Z.of_nat (length ups0 + length ups) ≤ l_size lg0 - 1 → Z.of_nat (length ups0 + length ups) ≤ LOGSIZE →
  (length ups ≤ sched_left s)%nat →
  wp (update_blocks ups) (λ _ s', in_tx V lg0 (ups0 ++ ups) s' ∧ bframe (length ups) (set_klog (klog s') s) s') s.
Proof.
  revert ups0 s. induction ups as [|[b d] ups IH]; intros ups0 s HI Hups Hn1 Hn2 Hs; cbn [length] in *.
  - apply wp_ret. rewrite app_nil_r. split; [done|].
    replace (set_klog (klog s) s) with s by (by destruct s). apply bframe_refl.
  - unfold update_blocks. cbn [mfor]. fold (update_blocks ups). apply wp_bind.
    destruct (Hups b d ltac:(apply elem_of_cons; by left)) as (Hb & Ho & Hd).
    eapply wp_mono; [apply (update_step V lg0 ups0 b d); try done; lia|].
    intros ? s1 [HI1 F1]; cbn beta in *. destruct (bframe_facts _ _ _ F1) as (_ & _ & _ & _ & Hs1). cbn in Hs1.
    eapply wp_mono.
    { apply (IH (ups0 ++ [(b, d)])); [done|intros b' d' Hin; apply Hups, elem_of_cons; by right|rewrite length_app; cbn; lia|rewrite length_app; cbn; lia|lia]. }
    intros ? s2 [HI2 F2]; cbn beta in *. split; [by rewrite <- app_assoc in HI2|].
    apply (bframe_klog _ (klog s2)) in F1.
    replace (set_klog (klog s2) (set_klog (klog s1) s)) with (set_klog (klog s2) s) in F1 by (by destruct s).
    by apply (bframe_trans 1 _ _ _ _ F1).
Qed.

(** An idle log: no operation is running, and nothing is to be installed. *)
Record log_idle (lg : log_state) : Prop := {
  li_dev : l_dev lg = ROOTDEV;
  li_start : 0 ≤ l_start lg;
  li_size : 2 ≤ l_size lg;
  li_end : l_start lg + l_size lg < 2 ^ 31;
  li_n : lh_n lg = 0;
  li_block : length (lh_block lg) = Z.to_nat LOGSIZE;
  li_out : l_outstanding lg = 0;
  li_com : l_committing lg = 0
}.

(** No block is in use. *)
Definition quiet (V : bview) : Prop := v_held V = ∅ ∧ v_ref V = ∅.

Lemma in_tx_start V s :
  binv V s → quiet V → lock_free L_log (cs s) → log_idle (klog s) →
  in_tx V (klog s) [] (set_klog (set_l_outstanding 1 (klog s)) s).
Proof.
  intros HV [Hh Hr] Hl [H1 H2 H3 H4 H5 H6 H7 H8]. split; try done.
  - apply law_klog. revert HV. apply binv_proper; [|done]. by split; cbn.
  - split; cbn; try done; try lia; [|constructor|]; intros b Hb; by apply not_elem_of_nil in Hb.
Qed.

(** The commit of the updates, as a transaction. *)
Lemma in_tx_trans V lg0 ups s :
  in_tx V lg0 ups s → (length ups < Z.to_nat NBUF)%nat →
  trans (klog s) (tx_blocks ups) (v_tx V ups (tx_blocks ups)).
Proof.
  intros [HV Hl T Hout Hcom Hst Hsz] Hn. apply tlog_trans; [done|by apply pins_small| |done].
  pose proof (pins_size (tx_blocks ups)). pose proof (tx_blocks_length ups). cbn. lia.
Qed.

Lemma tx_committed V ups b :
  (∀ b, v_content V b = v_disk V b) →
  committed (v_tx V ups (tx_blocks ups)) (tx_blocks ups) b = apply_writes (v_disk V) ups b.
Proof.
  intros Hcd. unfold committed. cbn. case_decide as Hin.
  - by apply apply_writes_ext.
  - rewrite apply_writes_ne; [done|]. by rewrite <- tx_blocks_elem.
Qed.

Lemma commit_final lg bl V b :
  trans lg bl V → length (v_disk V (l_start lg)) = 1024%nat → outside lg b →
  apply_writes (v_disk V) (commit_writes lg (v_content V) bl) b = committed V bl b.
Proof.
  intros T Hld Ho. unfold commit_writes. rewrite app_assoc, apply_writes_app. cbn [apply_writes foldl].
  rewrite upd_ne; [by apply (after_all lg bl V T Hld)|]. intros ->. by apply (start_not_outside lg bl V T Hld).
Qed.

(** What a recovery leaves when a transaction was committing at the crash. *)
Definition all_or_nothing (S : Z) (size : Z) (old new : Z → list Z) (D : Z → list Z) : Prop :=
  (∀ b, b < S ∨ S + size ≤ b → D b = old b) ∨ (∀ b, b < S ∨ S + size ≤ b → D b = new b).

Lemma commit_recovery lg bl V s V2 s2 D :
  binv V s → trans lg bl V → v_ref V !! l_start lg = None → int_at (v_disk V (l_start lg)) 0 = 0 →
  crash_disk (v_disk V) (commit_writes lg (v_content V) bl) D → rebooted (l_start lg) D V2 s2 →
  wp recover_from_log (λ _ s3, ∃ V3, binv V3 s3 ∧ lh_n (klog s3) = 0 ∧
    all_or_nothing (l_start lg) (l_size lg) (v_disk V) (committed V bl) (v_disk V3)) s2.
Proof.
  intros HV T Href Hclean Hcr R.
  assert (∀ b, length (v_content V b) = 1024%nat) as Hlc by (intros b; by apply (law_len V s)).
  assert (length (v_disk V (l_start lg)) = 1024%nat) as Hld by (by rewrite <- (law_clean V s)).
  pose proof (commit_crash lg bl V T Hlc Hld Hclean D Hcr) as Hst.
  destruct (commit_stage_recovered lg bl V T D Hst) as [Hhdr Hrec].
  pose proof (tr_start _ _ _ T). pose proof (tr_end _ _ _ T). pose proof (tr_fits _ _ _ T). pose proof (tr_n _ _ _ T).
  assert (∃ bl', header_says (l_start lg) D bl' ∧ header_wf (l_start lg) bl') as (bl' & Hh & Hwf).
  { destruct Hhdr as [Hh|Hh]; [exists []|exists bl]; (split; [done|]).
    - apply header_wf_nil. lia.
    - by apply (trans_header_wf lg bl V). }
  eapply wp_mono; [by apply (recover_disk (l_start lg) bl' D V2 s2)|].
  intros ? s3 (V3 & W & HV3 & Hn3 & _ & _ & _ & Hd3). exists V3. split_and!; [done|done|].
  assert (∀ b, outside lg b → v_disk V3 b = recovered (l_start lg) D b) as Ho.
  { intros b Hb. apply Hd3. intros ->. by apply (start_not_outside lg bl V T Hld). }
  destruct Hrec as [Hr|Hr]; [left|right]; intros b Hb; rewrite Ho by done; by apply Hr.
Qed.
End safe.

(** ** Properties *)

Section properties.
Context `{L : Layout} `{Oth : Others} `{VD : VirtioDev} {DE : DiskEnv}.

(** C1. A file system operation is atomic with respect to crashes. From an idle log, the
    operation [begin_op; ups; end_op], where [ups] updates at most [MAXOPBLOCKS] blocks
    outside the log through [bread], [log_write] and [brelse], returns; afterwards the
    disk holds all the updates and the log is idle again. If instead the machine stops
    at any moment of the commit, possibly in the middle of the two sectors of a block,
    and boots again, then [recover_from_log] returns and the disk holds, outside the
    log, either all of the updates or none of them. The disk behaves as [DiskEnv]
    says. *)
Theorem transaction_atomic V s ups :
  bio_inv V s → quiet V → lock_free L_log (cs s) → log_idle (klog s) →
  int_at (v_disk V (l_start (klog s))) 0 = 0 →
  ups ≠ [] → Z.of_nat (length ups) ≤ MAXOPBLOCKS → Z.of_nat (length ups) ≤ l_size (klog s) - 1 →
  (∀ b d, (b, d) ∈ ups → blk_ok b ∧ outside (klog s) b ∧ length d = Z.to_nat BSIZE) →
  (7 * length ups + 4 ≤ sched_left s)%nat →
  wp (begin_op;; update_blocks ups;; end_op) (λ _ s', ∃ V' W,
    bio_inv V' s' ∧ log_idle (klog s') ∧ v_hist V' = v_hist V ++ W ∧
    (∀ b, outside (klog s) b → v_disk V' b = apply_writes (v_disk V) ups b) ∧
    ∀ D V2 s2, crash_disk (v_disk V) W D → rebooted (l_start (klog s)) D V2 s2 →
      wp recover_from_log (λ _ s3, ∃ V3, bio_inv V3 s3 ∧ lh_n (klog s3) = 0 ∧
        all_or_nothing (l_start (klog s)) (l_size (klog s)) (v_disk V) (apply_writes (v_disk V) ups) (v_disk V3)) s2) s.
Proof.
  intros HV [Hh Hr] Hl Hidle Hclean Hne Hn1 Hn2 Hups Hs. change MAXOPBLOCKS with 10 in Hn1.
  assert (binv V s) as HVb by exact HV.
  set (lg0 := klog s) in *. pose proof Hidle as [I1 I2 I3 I4 I5 I6 I7 I8].
  apply wp_bind. eapply wp_eq.
  { apply (begin_op_eq s 0); [apply HV|done|done|]. fold lg0. rewrite I5, I7. done. }
  fold lg0. rewrite I7. change (0 + 1) with 1.
  pose proof (in_tx_start V s HVb (conj Hh Hr) Hl Hidle) as HI. fold lg0 in HI.
  apply wp_bind. eapply wp_mono.
  { apply (updates_ok V lg0 [] ups _ HI); [done|cbn; lia|cbn; change LOGSIZE with 30; lia|cbn; lia]. }
  intros ? s1 [HI1 F1]; cbn beta in *. cbn [app] in HI1.
  destruct (bframe_facts _ _ _ F1) as (_ & _ & _ & _ & Hs1). cbn in Hs1.
  pose proof (tx_blocks_length ups) as Hlen.
  pose proof (in_tx_trans V lg0 ups s1 HI1 ltac:(change (Z.to_nat NBUF) with 30%nat; lia)) as T.
  destruct HI1 as [HV1 Hl1 TL Hout Hcom Hst Hsz].
  assert (tx_blocks ups ≠ []) as Hne'.
  { destruct ups as [|[b d] ups]; [done|]. intros E.
    assert (b ∈ tx_blocks ((b, d) :: ups)) as Hin by (apply tx_blocks_elem; cbn; apply elem_of_cons; by left).
    rewrite E in Hin. by apply not_elem_of_nil in Hin. }
  assert (∀ b, v_content V b = v_disk V b) as Hcd.
  { intros b. apply (law_clean V s b HVb). by rewrite Hr. }
  set (V1 := v_tx V ups (tx_blocks ups)) in *.
  eapply wp_mono; [apply (end_op_ok V1 s1 (klog s1) (tx_blocks ups)); try done; lia|].
  intros ? s' (HV' & Hk' & _); cbn beta in *.
  eexists _, (commit_writes (klog s1) (v_content V1) (tx_blocks ups)). split_and!; [exact HV'| |done| |].
  - rewrite Hk'. destruct TL. split; cbn; try done; lia.
  - intros b Hb. cbn [v_disk v_puts]. change (v_disk V) with (v_disk V1). rewrite commit_final; [|done| |].
    + exact (tx_committed V ups b Hcd).
    + cbn. rewrite <- Hcd. apply (law_len V s _ HVb).
    + unfold outside in *. by rewrite Hst, Hsz.
  - intros D V2 s2 Hcr R. rewrite <- Hst in R. eapply wp_mono.
    { eapply (commit_recovery (klog s1) (tx_blocks ups) V1 s1 V2 s2 D); try done.
      - cbn. rewrite pins_lookup, decide_False; [done|]. intros Hin.
        destruct (tr_ok _ _ _ T _ Hin) as [_ ?]. lia.
      - by rewrite Hst. }
    intros ? s3 (V3 & HV3 & Hn3 & H3). exists V3. split_and!; [done|done|]. rewrite Hst, Hsz in H3.
    destruct H3 as [H3|H3]; [left|right]; intros b Hb; rewrite H3 by done; [done|]. exact (tx_committed V ups b Hcd).
Qed.

(** C15. Recovery is correct and can be repeated. When the header on the disk names
    distinct home blocks outside the log, [recover_from_log] returns, the log is empty,
    and every block but the header is as the log says: a home block has the contents of
    its log block, the others are unchanged. If the machine stops during recovery, at
    any write, a second recovery gives the same disk. *)
Theorem recovery_repeatable S D bl V s :
  rebooted S D V s → header_says S D bl → header_wf S bl →
  wp recover_from_log (λ _ s', ∃ V' W,
    bio_inv V' s' ∧ lh_n (klog s') = 0 ∧ v_hist V' = v_hist V ++ W ∧ int_at (v_disk V' S) 0 = 0 ∧
    (∀ b, b ≠ S → b ∉ bl → v_disk V' b = D b) ∧
    (∀ k b, bl !! k = Some b → v_disk V' b = D (S + 1 + Z.of_nat k)) ∧
    ∀ D' V2 s2, crash_disk D W D' → rebooted S D' V2 s2 →
      wp recover_from_log (λ _ s3, ∃ V3, bio_inv V3 s3 ∧ lh_n (klog s3) = 0 ∧
        ∀ b, b ≠ S → v_disk V3 b = v_disk V' b) s2) s.
Proof.
  intros R Hh Hwf. pose proof (hw_nodup _ _ Hwf) as Hnd.
  assert (length (D S) = 1024%nat) as Hlen.
  { rewrite <- (rb_disk _ _ _ _ R), <- (law_clean V s S (rb_inv _ _ _ _ R)) by (by rewrite (rb_ref _ _ _ _ R)).
    apply (law_len V s), R. }
  eapply wp_mono; [by apply (recover_disk S bl D V s)|].
  intros ? s' (V' & W & HV' & Hn & Hhist & HW & Hh0 & Hd); cbn beta in *. exists V', W. split_and!; try done.
  - apply Hh0.
  - intros b Hb Hin. rewrite Hd by done. by apply (recovered_full S D bl b Hh Hnd).
  - intros k b Hk. assert (b ≠ S) as Hb.
    { intros ->. destruct (hw_block _ _ Hwf S) as [_ ?]; [by eapply list_elem_of_lookup_2|lia]. }
    rewrite Hd by done. by apply (recovered_full S D bl b Hh Hnd).
  - intros D' V2 s2 Hcr R2.
    assert (crash_disk D (recover_writes S D bl) D') as Hcr'.
    { subst W. unfold recover_writes in *.
      by rewrite (install_writes_ext S (v_disk V) D), (rb_disk _ _ _ _ R) in Hcr by apply R. }
    destruct (recovering_recovered S bl D D' Hh Hwf (recover_crash S bl D D' Hh Hwf Hlen Hcr')) as [Hhdr Hrec].
    assert (∃ bl', header_says S D' bl' ∧ header_wf S bl') as (bl' & Hh' & Hwf').
    { destruct Hhdr as [?|?]; [exists []|by exists bl]. split; [done|]. apply header_wf_nil.
      pose proof (hw_start _ _ Hwf). pose proof (hw_end _ _ Hwf). lia. }
    eapply wp_mono; [by apply (recover_disk S bl' D' V2 s2)|].
    intros ? s3 (V3 & W3 & HV3 & Hn3 & _ & _ & _ & Hd3). exists V3. split_and!; [done|done|].
    intros b Hb. by rewrite Hd3, Hrec, Hd.
Qed.
End properties.

(** ** A machine with a log *)

Definition demo_log (n : Z) (blocks : list Z) : log_state :=
  Mk_log_state 2 30 0 0 ROOTDEV n (blocks ++ replicate (Z.to_nat LOGSIZE - length blocks) 0).

(** Process 1 of [pdemo] after boot, with the log in the blocks from 2 to 31. *)
Lemma demo_boot n d :
  vd_ready d → (∀ b, length (block_of d b) = Z.to_nat BSIZE) →
  ∃ s, bio_inv (view_of d) s ∧ klog s = demo_log 0 [] ∧ lock_free L_log (cs s) ∧ sched_left s = n.
Proof.
  intros Hd Hlen.
  pose proof (bdemo0_prepared n) as [P1 P2 P3 P4 P5 P6 P7 _ _].
  set (s0 := set_vdisk d (set_klog (demo_log 0 []) (bdemo0 n))).
  assert (prepared s0) as P by (split; [exact P1|exact P2|exact P3|exact P4|exact P5|exact P6|exact P7|exact Hd|exact Hlen]).
  pose proof (binit_inv s0 P) as H. apply wp_elim in H as ([] & s & _ & I & (c & sl & bc & ->) & Hfree).
  eexists. split_and!; [exact I|reflexivity| |reflexivity].
  apply Hfree; [done| |done]. apply pdemo_lock. unfold pdemo_locks. set_solver.
Qed.

(** A disk with one block that is not zero, and the driver's idle state. *)
Definition demo_disk (blocks : gmap Z (list Z)) : vdisk_state :=
  set_vd_blocks blocks (vdisk (bdemo0 0)).

Lemma demo_disk_ready blocks : vd_ready (demo_disk blocks).
Proof. by split. Qed.

#[local] Existing Instances layout_ex disk_others plain_dev disk_others_env.

Lemma transaction_atomic_witness :
  ∃ V s, klog s = demo_log 0 [] ∧ v_disk V 50 = zero_block ∧
    wp (begin_op;; update_blocks [(50, replicate 1024 7); (40, replicate 1024 8)];; end_op)
      (λ _ s', ∃ V', bio_inv V' s' ∧ v_disk V' 50 = replicate 1024 7) s.
Proof.
  destruct (demo_boot 20 (demo_disk ∅)) as (s & I & Hk & Hl & Hs).
  { apply demo_disk_ready. }
  { intros b. unfold block_of. cbn [demo_disk vd_blocks set_vd_blocks]. by rewrite lookup_empty. }
  exists (view_of (demo_disk ∅)), s. split; [exact Hk|]. split; [reflexivity|].
  eapply wp_mono.
  { apply (transaction_atomic (view_of (demo_disk ∅)) s [(50, replicate 1024 7); (40, replicate 1024 8)]);
      rewrite ?Hk, ?Hs.
    - exact I.
    - done.
    - exact Hl.
    - by split.
    - reflexivity.
    - done.
    - done.
    - done.
    - intros b d Hin. rewrite !elem_of_cons in Hin. unfold blk_ok, outside, demo_log. cbn [l_start l_size].
      destruct Hin as [[= -> ->]|[[= -> ->]|Hin]]; [split_and!; [lia|lia|lia|done]..|].
      by apply not_elem_of_nil in Hin.
    - cbn. lia. }
  intros ? s' (V' & W & I' & _ & _ & Hd & _). exists V'. split; [exact I'|].
  rewrite Hd; [|rewrite Hk; unfold outside, demo_log; cbn [l_start l_size]; lia]. vm_compute. reflexivity.
Defined.

(** A disk whose log holds block 50, in log block 3. *)
Definition crashed_disk : vdisk_state :=
  demo_disk (<[2 := header_bytes 1 [50] zero_block]> (<[3 := replicate 1024 7]> ∅)).

Lemma crashed_disk_len b : length (block_of crashed_disk b) = Z.to_nat BSIZE.
Proof.
  unfold block_of, crashed_disk. cbn [demo_disk vd_blocks set_vd_blocks].
  destruct (decide (b = 2)) as [->|H2]; [rewrite lookup_insert_eq; by vm_compute|].
  rewrite lookup_insert_ne by done. destruct (decide (b = 3)) as [->|H3]; [by rewrite lookup_insert_eq|].
  by rewrite lookup_insert_ne, lookup_empty.
Qed.

Lemma recovery_repeatable_witness :
  ∃ V s, v_disk V = block_of crashed_disk ∧ v_disk V 50 = zero_block ∧
    wp recover_from_log (λ _ s', ∃ V', bio_inv V' s' ∧ v_disk V' 50 = replicate 1024 7) s.
Proof.
  destruct (demo_boot 100 crashed_disk) as (s & I & Hk & Hl & Hs).
  { apply demo_disk_ready. }
  { apply crashed_disk_len. }
  exists (view_of crashed_disk), s. split; [reflexivity|]. split; [reflexivity|].
  eapply wp_mono.
  { apply (recovery_repeatable 2 (block_of crashed_disk) [50] (view_of crashed_disk) s).
    - split; rewrite ?Hk, ?Hs; try done. change (Z.to_nat LOGSIZE) with 30%nat. lia.
    - split; [by vm_compute|]. intros [|k] b; cbn [lookup list_lookup]; [intros [= <-]; by vm_compute|done].
    - split; [lia|cbn; lia|apply Nat.leb_le; by vm_compute| |apply NoDup_singleton].
      intros b Hb. apply list_elem_of_singleton in Hb as ->. unfold blk_ok. cbn. lia. }
  intros ? s' (V' & W & I' & _ & _ & _ & _ & Hd & _). exists V'. split; [exact I'|].
  rewrite (Hd O 50 eq_refl). vm_compute. reflexivity.
Defined.
