(* ===== verification/Fs.v ===== *)
(** * The file system: kernel/fs.c

    Written against the interface [BlockIO] of the buffer cache; blocks, inodes,
    directories and path names as in the code. A [struct inode *] is an index into
    [itable], a path is the list of its bytes without the NUL. *)

From S2P Require Import Prelude Machine State Spinlock KString Kalloc Vm Proc Sleeplock Virtio Bio Log.
From S2P Require Import Uart Printf Console.

(** ** kernel/fs.h, kernel/stat.h *)

Definition ROOTINO : Z := 1.
Definition FSMAGIC : Z := 0x10203040.
Definition NDIRECT : Z := 12.
Definition NINDIRECT : Z := BSIZE / 4.
Definition MAXFILE : Z := NDIRECT + NINDIRECT.
Definition sizeof_dinode : Z := 64.
Definition IPB : Z := BSIZE / sizeof_dinode.
Definition IBLOCK (i : Z) (sb : superblock) : Z := u32 (i / IPB + sb_inodestart sb).
Definition BPB : Z := BSIZE * 8.
Definition BBLOCK (b : Z) (sb : superblock) : Z := u32 (b / BPB + sb_bmapstart sb).
Definition DIRSIZ : Z := 14.
Definition sizeof_dirent : Z := 16.
Definition T_DIR : Z := 1.
Definition T_FILE : Z := 2.
Definition T_DEVICE : Z := 3.

(** ** Bytes of a block *)

(** [bytes] stored at offset [off] of [data]. *)
Definition splice (data : list Z) (off : Z) (bytes : list Z) : list Z :=
  take (Z.to_nat off) data ++ bytes ++ drop (Z.to_nat off + length bytes) data.
Definition sub (data : list Z) (off len : Z) : list Z := take (Z.to_nat len) (drop (Z.to_nat off) data).

Definition uint_at (data : list Z) (off : Z) : Z := le_val (sub data off 4).
Definition short_at (data : list Z) (off : Z) : Z := s16 (le_val (sub data off 2)).

(** [struct superblock] as its bytes. *)
Definition sb_of_bytes (d : list Z) : superblock :=
  Mk_superblock (uint_at d 0) (uint_at d 4) (uint_at d 8) (uint_at d 12)
    (uint_at d 16) (uint_at d 20) (uint_at d 24) (uint_at d 28).

(** [struct dinode]: type, major, minor, nlink, size, addrs. *)
Record dinode := Mk_dinode {
  di_type : Z; di_major : Z; di_minor : Z; di_nlink : Z; di_size : Z; di_addrs : list Z }.
Definition dinode_of_bytes (d : list Z) (o : Z) : dinode :=
  Mk_dinode (short_at d o) (short_at d (o + 2)) (short_at d (o + 4)) (short_at d (o + 6))
    (uint_at d (o + 8)) ((λ k, uint_at d (o + 12 + 4 * k)) <$> zrange 0 13).
Definition bytes_of_dinode (i : dinode) : list Z :=
  le_bytes 2 (di_type i) ++ le_bytes 2 (di_major i) ++ le_bytes 2 (di_minor i) ++
  le_bytes 2 (di_nlink i) ++ le_bytes 4 (di_size i) ++ mjoin (le_bytes 4 <$> di_addrs i).

(** [struct dirent] *)
Record dirent := Mk_dirent { de_inum : Z; de_name : list Z }.
Definition dirent_of_bytes (d : list Z) : dirent := Mk_dirent (le_val (take 2 d)) (take 14 (drop 2 d)).
Definition bytes_of_dirent (e : dirent) : list Z := le_bytes 2 (de_inum e) ++ de_name e.

Definition get_inode (i : nat) : K inode := gets (λ s, nth i (itable s) inode0).
Definition upd_inode (i : nat) (f : inode → inode) : K unit :=
  modify (λ s, set_itable (alter f i (itable s)) s).

(** Is block [b + bi] free in the bitmap block [data], and the byte with its bit set, cleared. *)
Definition bit_mask (bi : Z) : Z := Z.shiftl 1 (bi mod 8).
Definition bit_free (data : list Z) (bi : Z) : bool := Z.land (nthZ 0 data (bi / 8)) (bit_mask bi) =? 0.
Definition set_bit (data : list Z) (bi : Z) : list Z :=
  setZ data (bi / 8) (u8 (Z.lor (nthZ 0 data (bi / 8)) (bit_mask bi))).
Definition clr_bit (data : list Z) (bi : Z) : list Z :=
  setZ data (bi / 8) (u8 (Z.land (nthZ 0 data (bi / 8)) (Z.lnot (bit_mask bi)))).

(** The inner loop of [balloc]: the first free bit from [bi] on. *)
Fixpoint find_free_bit (fuel : nat) (data : list Z) (b bi size : Z) : option Z :=
  match fuel with
  | O => None
  | S f =>
      if (bi <? BPB) && (b + bi <? size) then
        if bit_free data bi then Some bi else find_free_bit f data b (bi + 1) size
      else None
  end.

Section fs.
Context `{L : Layout} `{Oth : Others} `{B : BlockIO}.

Definition readsb (dev : Z) : K superblock :=
  bp ← bread (u32 dev) 1;
  bf ← get_buf bp;
  let r := sb_of_bytes (b_data bf) in
  brelse bp;;
  mret r.

Definition fsinit (dev : Z) : K unit :=
  r ← readsb dev;
  modify (set_sb r);;
  if negb (sb_magic r =? FSMAGIC) then panic "invalid file system"
  else initlog dev r.

Definition bzero (dev bno : Z) : K unit :=
  bp ← bread (u32 dev) (u32 bno);
  upd_buf bp (set_b_data (replicate (Z.to_nat BSIZE) 0));;
  log_write bp;;
  brelse bp.

(** ** Blocks *)

Fixpoint balloc_loop (fuel : nat) (dev b : Z) : K Z :=
  match fuel with
  | O => hang
  | S f =>
      s ← gets sb;
      if b <? sb_size s then
        bp ← bread dev (BBLOCK b s);
        bf ← get_buf bp;
        s ← gets sb;
        match find_free_bit (S (Z.to_nat BPB)) (b_data bf) b 0 (sb_size s) with
        | Some bi =>
            upd_buf bp (λ bf, set_b_data (set_bit (b_data bf) bi) bf);;
            log_write bp;;
            brelse bp;;
            bzero dev (b + bi);;
            mret (u32 (b + bi))
        | None =>
            brelse bp;;
            balloc_loop f dev (b + BPB)
        end
      else
        printf (bytes_of_string "balloc: out of blocks" ++ [10]) [];; mret 0
  end.
Definition balloc (dev : Z) : K Z :=
  s ← gets sb;
  balloc_loop (S (Z.to_nat (sb_size s / BPB + 1))) dev 0.

Definition bfree (dev b : Z) : K unit :=
  s ← gets sb;
  bp ← bread (u32 dev) (BBLOCK b s);
  let bi := b mod BPB in
  bf ← get_buf bp;
  if bit_free (b_data bf) bi then panic "freeing free block"
  else
    upd_buf bp (λ bf, set_b_data (clr_bit (b_data bf) bi) bf);;
    log_write bp;;
    brelse bp.

(** ** Inodes *)

Definition iinit : K unit :=
  lift_cs (initlock L_itable "itable");;
  mfor (seq 0 (Z.to_nat NINODE)) (λ i, initsleeplock (SL_inode i) "inode").

(** The scan of [iget]: the entry of (dev, inum), or the first empty one. *)
Fixpoint iget_scan (l : list inode) (i : nat) (dev inum : Z) (empty : option nat) : nat + option nat :=
  match l with
  | [] => inr empty
  | ip :: l' =>
      if (0 <? i_ref ip) && (i_dev ip =? dev) && (i_inum ip =? inum) then inl i
      else
        iget_scan l' (S i) dev inum
          (match empty with None => if i_ref ip =? 0 then Some i else None | Some _ => empty end)
  end.

Definition iget (dev inum : Z) : K nat :=
  lift_cs (acquire L_itable);;
  tab ← gets itable;
  match iget_scan tab 0 dev inum None with
  | inl ip =>
      upd_inode ip (λ i, set_i_ref (s32 (i_ref i + 1)) i);;
      lift_cs (release L_itable);;
      mret ip
  | inr None => panic "iget: no inodes"
  | inr (Some ip) =>
      upd_inode ip (set_i_dev dev);;
      upd_inode ip (set_i_inum inum);;
      upd_inode ip (set_i_ref 1);;
      upd_inode ip (set_i_valid 0);;
      lift_cs (release L_itable);;
      mret ip
  end.

Fixpoint ialloc_loop (fuel : nat) (dev type inum : Z) : K (option nat) :=
  match fuel with
  | O => hang
  | S f =>
      s ← gets sb;
      if inum <? sb_ninodes s then
        bp ← bread dev (IBLOCK inum s);
        bf ← get_buf bp;
        let o := (inum mod IPB) * sizeof_dinode in
        if di_type (dinode_of_bytes (b_data bf) o) =? 0 then
          upd_buf bp (λ bf, set_b_data
            (splice (b_data bf) o (bytes_of_dinode (Mk_dinode type 0 0 0 0 (replicate 13 0)))) bf);;
          log_write bp;;
          brelse bp;;
          ip ← iget dev (u32 inum);
          mret (Some ip)
        else
          brelse bp;;
          ialloc_loop f dev type (inum + 1)
      else
        printf (bytes_of_string "ialloc: no inodes" ++ [10]) [];; mret None
  end.
Definition ialloc (dev type : Z) : K (option nat) :=
  s ← gets sb;
  ialloc_loop (S (Z.to_nat (sb_ninodes s))) dev type 1.

Definition iupdate (ip : nat) : K unit :=
  i ← get_inode ip;
  s ← gets sb;
  bp ← bread (i_dev i) (IBLOCK (i_inum i) s);
  i ← get_inode ip;
  upd_buf bp (λ bf, set_b_data (splice (b_data bf) ((i_inum i mod IPB) * sizeof_dinode)
    (bytes_of_dinode (Mk_dinode (i_type i) (i_major i) (i_minor i) (i_nlink i) (i_size i) (i_addrs i)))) bf);;
  log_write bp;;
  brelse bp.

Definition idup (ip : nat) : K nat :=
  lift_cs (acquire L_itable);;
  upd_inode ip (λ i, set_i_ref (s32 (i_ref i + 1)) i);;
  lift_cs (release L_itable);;
  mret ip.

Definition ilock (ip : option nat) : K unit :=
  match ip with
  | None => panic "ilock"
  | Some ip =>
      i ← get_inode ip;
      if i_ref i <? 1 then panic "ilock"
      else
        acquiresleep (SL_inode ip);;
        i ← get_inode ip;
        when (i_valid i =? 0) (
          s ← gets sb;
          bp ← bread (i_dev i) (IBLOCK (i_inum i) s);
          bf ← get_buf bp;
          i ← get_inode ip;
          let d := dinode_of_bytes (b_data bf) ((i_inum i mod IPB) * sizeof_dinode) in
          upd_inode ip (set_i_type (di_type d));;
          upd_inode ip (set_i_major (di_major d));;
          upd_inode ip (set_i_minor (di_minor d));;
          upd_inode ip (set_i_nlink (di_nlink d));;
          upd_inode ip (set_i_size (di_size d));;
          upd_inode ip (set_i_addrs (di_addrs d));;
          brelse bp;;
          upd_inode ip (set_i_valid 1);;
          i ← get_inode ip;
          if i_type i =? 0 then panic "ilock: no type" else mret tt)
  end.

Definition iunlock (ip : option nat) : K unit :=
  match ip with
  | None => panic "iunlock"
  | Some ip =>
      h ← holdingsleep (SL_inode ip);
      i ← get_inode ip;
      if negb h || (i_ref i <? 1) then panic "iunlock"
      else releasesleep (SL_inode ip)
  end.

(** ** Inode content *)

Definition bmap (ip : nat) (bn : Z) : K Z :=
  i ← get_inode ip;
  if bn <? NDIRECT then
    let addr := nthZ 0 (i_addrs i) bn in
    if addr =? 0 then
      addr ← balloc (i_dev i);
      if addr =? 0 then mret 0
      else
        upd_inode ip (λ i, set_i_addrs (setZ (i_addrs i) bn addr) i);;
        mret addr
    else mret addr
  else
    let bn := bn - NDIRECT in
    if bn <? NINDIRECT then
      let addr := nthZ 0 (i_addrs i) NDIRECT in
      addr ← (if addr =? 0 then
                addr ← balloc (i_dev i);
                when (negb (addr =? 0)) (upd_inode ip (λ i, set_i_addrs (setZ (i_addrs i) NDIRECT addr) i));;
                mret addr
              else mret addr);
      if addr =? 0 then mret 0
      else
        i ← get_inode ip;
        bp ← bread (i_dev i) addr;
        bf ← get_buf bp;
        let addr := uint_at (b_data bf) (4 * bn) in
        addr ← (if addr =? 0 then
                  i ← get_inode ip;
                  addr ← balloc (i_dev i);
                  when (negb (addr =? 0)) (
                    upd_buf bp (λ bf, set_b_data (splice (b_data bf) (4 * bn) (le_bytes 4 addr)) bf);;
                    log_write bp);;
                  mret addr
                else mret addr);
        brelse bp;;
        mret addr
    else panic "bmap: out of range".

Definition itrunc (ip : nat) : K unit :=
  mfor (zrange 0 (Z.to_nat NDIRECT)) (λ k,
    i ← get_inode ip;
    when (c_bool (nthZ 0 (i_addrs i) k)) (
      bfree (i_dev i) (nthZ 0 (i_addrs i) k);;
      upd_inode ip (λ i, set_i_addrs (setZ (i_addrs i) k 0) i)));;
  i ← get_inode ip;
  when (c_bool (nthZ 0 (i_addrs i) NDIRECT)) (
    bp ← bread (i_dev i) (nthZ 0 (i_addrs i) NDIRECT);
    mfor (zrange 0 (Z.to_nat NINDIRECT)) (λ j,
      bf ← get_buf bp;
      let a := uint_at (b_data bf) (4 * j) in
      when (c_bool a) (i ← get_inode ip; bfree (i_dev i) a));;
    brelse bp;;
    i ← get_inode ip;
    bfree (i_dev i) (nthZ 0 (i_addrs i) NDIRECT);;
    upd_inode ip (λ i, set_i_addrs (setZ (i_addrs i) NDIRECT 0) i));;
  upd_inode ip (set_i_size 0);;
  iupdate ip.

Definition iput (ip : nat) : K unit :=
  lift_cs (acquire L_itable);;
  i ← get_inode ip;
  when ((i_ref i =? 1) && c_bool (i_valid i) && (i_nlink i =? 0)) (
    acquiresleep (SL_inode ip);;
    lift_cs (release L_itable);;
    itrunc ip;;
    upd_inode ip (set_i_type 0);;
    iupdate ip;;
    upd_inode ip (set_i_valid 0);;
    releasesleep (SL_inode ip);;
    lift_cs (acquire L_itable));;
  upd_inode ip (λ i, set_i_ref (s32 (i_ref i - 1)) i);;
  lift_cs (release L_itable).

Definition iunlockput (ip : nat) : K unit := iunlock (Some ip);; iput ip.

(** [struct stat] as its bytes: dev, ino, type, nlink, 4 bytes of padding, size. *)
Definition stati (ip : nat) : K (list Z) :=
  i ← get_inode ip;
  mret (le_bytes 4 (i_dev i) ++ le_bytes 4 (i_inum i) ++ le_bytes 2 (i_type i) ++
        le_bytes 2 (i_nlink i) ++ replicate 4 0 ++ le_bytes 8 (i_size i)).

Definition dst_at (d : dest) (i : Z) : dest :=
  match d with
  | UserDst va => UserDst (u64 (va + i))
  | KernDst pa => KernDst (pa + i)
  | VarDst => VarDst
  end.

(** The loop of [readi]; [acc] are the bytes delivered so far. *)
Fixpoint readi_loop (fuel : nat) (ip : nat) (d : dest) (off n tot : Z) (acc : list Z)
  : K (Z * list Z) :=
  match fuel with
  | O => hang
  | S f =>
      if tot <? n then
        addr ← bmap ip (off / BSIZE);
        if addr =? 0 then mret (tot, acc)
        else
          i ← get_inode ip;
          bp ← bread (i_dev i) addr;
          let m := Z.min (n - tot) (BSIZE - off mod BSIZE) in
          bf ← get_buf bp;
          let bytes := sub (b_data bf) (off mod BSIZE) m in
          r ← either_copyout (dst_at d tot) bytes;
          if r =? -1 then brelse bp;; mret (-1, acc)
          else
            brelse bp;;
            readi_loop f ip d (off + m) n (tot + m) (acc ++ bytes)
      else mret (tot, acc)
  end.

(** The value returned and the bytes read. *)
Definition readi (ip : nat) (d : dest) (off n : Z) : K (Z * list Z) :=
  i ← get_inode ip;
  if (i_size i <? off) || (u32 (off + n) <? off) then mret (0, [])
  else
    let n := if i_size i <? u32 (off + n) then u32 (i_size i - off) else n in
    readi_loop (S (Z.to_nat n)) ip d off n 0 [].

(** The loop of [writei]: the final values of [tot] and [off]. What a failing
    [either_copyin] has stored before the failure stays in the buffer. *)
Fixpoint writei_loop (fuel : nat) (ip : nat) (sr : source) (off n tot : Z) : K (Z * Z) :=
  match fuel with
  | O => hang
  | S f =>
      if tot <? n then
        addr ← bmap ip (off / BSIZE);
        if addr =? 0 then mret (tot, off)
        else
          i ← get_inode ip;
          bp ← bread (i_dev i) addr;
          let m := Z.min (n - tot) (BSIZE - off mod BSIZE) in
          rb ← either_copyin (src_at sr tot) m;
          upd_buf bp (λ bf, set_b_data (splice (b_data bf) (off mod BSIZE) (snd rb)) bf);;
          if fst rb =? -1 then brelse bp;; mret (tot, off)
          else
            log_write bp;;
            brelse bp;;
            writei_loop f ip sr (off + m) n (tot + m)
      else mret (tot, off)
  end.

Definition writei (ip : nat) (sr : source) (off n : Z) : K Z :=
  i ← get_inode ip;
  if (i_size i <? off) || (u32 (off + n) <? off) then mret (-1)
  else if MAXFILE * BSIZE <? u32 (off + n) then mret (-1)
  else
    to ← writei_loop (S (Z.to_nat n)) ip sr off n 0;
    i ← get_inode ip;
    when (i_size i <? snd to) (upd_inode ip (set_i_size (snd to)));;
    iupdate ip;;
    mret (s32 (fst to)).

(** ** Directories *)

Definition namecmp (s t : cstr) : Z := strncmp s t DIRSIZ.

(** The loop of [dirlookup]: the offset and number of the entry. *)
Fixpoint dirlookup_loop (fuel : nat) (dp : nat) (name : cstr) (off : Z) : K (option (Z * Z)) :=
  match fuel with
  | O => hang
  | S f =>
      i ← get_inode dp;
      if off <? i_size i then
        rb ← readi dp VarDst off sizeof_dirent;
        if negb (fst rb =? sizeof_dirent) then panic "dirlookup read"
        else
          let de := dirent_of_bytes (snd rb) in
          if de_inum de =? 0 then dirlookup_loop f dp name (off + sizeof_dirent)
          else if namecmp name (at_list (de_name de)) =? 0 then mret (Some (off, de_inum de))
          else dirlookup_loop f dp name (off + sizeof_dirent)
      else mret None
  end.

(** The inode of the entry with its offset ([*poff]). *)
Definition dirlookup (dp : nat) (name : cstr) : K (option (nat * Z)) :=
  i ← get_inode dp;
  if negb (i_type i =? T_DIR) then panic "dirlookup not DIR"
  else
    r ← dirlookup_loop (S (Z.to_nat (i_size i / sizeof_dirent + 1))) dp name 0;
    match r with
    | Some (off, inum) =>
        i ← get_inode dp;
        ip ← iget (i_dev i) inum;
        mret (Some (ip, off))
    | None => mret None
    end.

(** The search of [dirlink] for an empty entry. *)
Fixpoint dirlink_loop (fuel : nat) (dp : nat) (off : Z) : K Z :=
  match fuel with
  | O => hang
  | S f =>
      i ← get_inode dp;
      if off <? i_size i then
        rb ← readi dp VarDst off sizeof_dirent;
        if negb (fst rb =? sizeof_dirent) then panic "dirlink read"
        else if de_inum (dirent_of_bytes (snd rb)) =? 0 then mret off
        else dirlink_loop f dp (off + sizeof_dirent)
      else mret off
  end.

Definition dirlink (dp : nat) (name : cstr) (inum : Z) : K Z :=
  r ← dirlookup dp name;
  match r with
  | Some (ip, _) => iput ip;; mret (-1)
  | None =>
      i ← get_inode dp;
      off ← dirlink_loop (S (Z.to_nat (i_size i / sizeof_dirent + 1))) dp 0;
      let de := Mk_dirent inum (strncpy name DIRSIZ) in
      r ← writei dp (VarSrc (bytes_of_dirent de)) off sizeof_dirent;
      if negb (r =? sizeof_dirent) then mret (-1) else mret 0
  end.

(** ** Paths *)

Definition SLASH : Z := chr "/".

Fixpoint skip_slashes (path : list Z) : list Z :=
  match path with
  | c :: path' => if c =? SLASH then skip_slashes path' else path
  | [] => []
  end.
(** The element at the start of [path] and what follows it. *)
Fixpoint span_elem (path : list Z) : list Z * list Z :=
  match path with
  | c :: path' =>
      if c =? SLASH then ([], path)
      else let '(e, rest) := span_elem path' in (c :: e, rest)
  | [] => ([], [])
  end.

(** The rest of the path and the new contents of [name], or [None] for a null pointer. *)
Definition skipelem (path name : list Z) : option (list Z * list Z) :=
  let path := skip_slashes path in
  match path with
  | [] => None
  | _ =>
      let '(e, rest) := span_elem path in
      let len := Z.of_nat (length e) in
      let name :=
        if DIRSIZ <=? len then overlay name (take (Z.to_nat DIRSIZ) e)
        else overlay name (e ++ [0]) in
      Some (skip_slashes rest, name)
  end.

Fixpoint namex_loop (fuel : nat) (ip : nat) (path name : list Z) (parent : bool) : K (option nat * list Z) :=
  match fuel with
  | O => hang
  | S f =>
      match skipelem path name with
      | None =>
          if parent then iput ip;; mret (None, name) else mret (Some ip, name)
      | Some (path, name) =>
          ilock (Some ip);;
          i ← get_inode ip;
          if negb (i_type i =? T_DIR) then iunlockput ip;; mret (None, name)
          else if parent && (match path with [] => true | _ => false end) then
            iunlock (Some ip);; mret (Some ip, name)
          else
            r ← dirlookup ip (at_list name);
            match r with
            | None => iunlockput ip;; mret (None, name)
            | Some (next, _) =>
                iunlockput ip;;
                namex_loop f next path name parent
            end
      end
  end.

(** The inode and the contents of [name]. *)
Definition namex (path : list Z) (parent : bool) (name : list Z) : K (option nat * list Z) :=
  ip ← (if nthZ 0 path 0 =? SLASH then iget ROOTDEV ROOTINO
        else p ← myproc; p ← deref p; pr ← get_proc p; c ← deref (p_cwd pr); idup c);
  namex_loop (S (length path)) ip path name parent.

Definition namei (path : list Z) : K (option nat) :=
  r ← namex path false (replicate (Z.to_nat DIRSIZ) 0); mret (fst r).

Definition nameiparent (path name : list Z) : K (option nat * list Z) := namex path true name.
End fs.
