(* ===== verification/PathProofs.v ===== *)
(** * Path names: proofs about [skipelem] of kernel/fs.c *)

From S2P Require Import Prelude Machine State Spinlock KString Kalloc Vm Proc Sleeplock Virtio Bio Log.
From S2P Require Import Uart Printf Console Fs.

(** ** The elements of a path *)

(** The reference: cut at every slash and drop the empty pieces. *)
Fixpoint split_slash (path : list Z) : list (list Z) :=
  match path with
  | [] => [[]]
  | c :: path' =>
      if c =? SLASH then [] :: split_slash path'
      else match split_slash path' with
           | e :: es => (c :: e) :: es
           | [] => [[c]]
           end
  end.
Definition elements (path : list Z) : list (list Z) := filter (λ e, e ≠ []) (split_slash path).

(** The name that [namecmp] and [strncpy] see in a buffer of [DIRSIZ] bytes. *)
Definition cname (name : list Z) : list Z := until_nul (take 14 name).

(** The names that the loop of [namex] sees, if every lookup succeeds. *)
Fixpoint path_names (fuel : nat) (path name : list Z) : list (list Z) :=
  match fuel with
  | O => []
  | S f =>
      match skipelem path name with
      | None => []
      | Some (path', name') => cname name' :: path_names f path' name'
      end
  end.

Lemma split_slash_nonempty path : split_slash path ≠ [].
Proof.
  destruct path as [|c path]; [done|]. simpl. destruct (c =? SLASH); [done|].
  by destruct (split_slash path).
Qed.

Lemma elements_skip path : elements (skip_slashes path) = elements path.
Proof.
  unfold elements. induction path as [|c path IH]; [done|]. simpl.
  destruct (c =? SLASH) eqn:E; simpl; rewrite ?E; [|done]. by rewrite IH.
Qed.

Lemma skip_slashes_head path c rest : skip_slashes path = c :: rest → c ≠ SLASH.
Proof.
  induction path as [|d path IH]; [done|]. simpl. destruct (Z.eqb_spec d SLASH); [done|].
  by intros [= <- _].
Qed.

(** The first element, when the path does not start with a slash. *)
Lemma split_slash_span path :
  let '(e, rest) := span_elem path in
  split_slash path = e :: match rest with [] => [] | _ :: rest' => split_slash rest' end ∧
  (rest = [] ∨ ∃ rest', rest = SLASH :: rest') ∧ path = e ++ rest.
Proof.
  induction path as [|c path IH]; [simpl; auto|]. cbn [span_elem split_slash].
  destruct (Z.eqb_spec c SLASH) as [->|Hne].
  - split_and!; [done|eauto|done].
  - destruct (span_elem path) as [e rest]. destruct IH as (-> & Hr & ->). auto.
Qed.

Lemma elements_span path :
  path ≠ [] → head path ≠ Some SLASH →
  let '(e, rest) := span_elem path in
  elements path = e :: elements (skip_slashes rest) ∧ e ≠ [] ∧
  (length (skip_slashes rest) < length path)%nat ∧ (∀ c, c ∈ e → c ∈ path) ∧
  (∀ c, c ∈ skip_slashes rest → c ∈ path).
Proof.
  intros Hn Hh. pose proof (split_slash_span path) as Hs.
  destruct (span_elem path) as [e rest] eqn:E. destruct Hs as (Hs & Hr & Hp).
  assert (e ≠ []) as He.
  { intros ->. destruct Hr as [->|[rest' ->]]; subst; done. }
  assert (length (skip_slashes rest) ≤ length rest)%nat as Hl.
  { clear. induction rest as [|c rest IH]; [done|]. simpl. destruct (c =? SLASH); simpl; lia. }
  assert (∀ c, c ∈ skip_slashes rest → c ∈ rest) as Hsub.
  { clear. induction rest as [|d rest IH]; [done|]. simpl. intros c.
    destruct (d =? SLASH); [|done]. intros H. apply elem_of_cons. right. auto. }
  split_and!; [|done| | |].
  - unfold elements at 1. rewrite Hs, filter_cons_True by done. f_equal.
    rewrite elements_skip. unfold elements. destruct Hr as [->|[rest' ->]]; [done|].
    cbn [split_slash]. rewrite Z.eqb_refl. by rewrite filter_cons_False by naive_solver.
  - rewrite Hp, length_app. destruct e; [done|]. simpl. lia.
  - intros c Hc. rewrite Hp. apply elem_of_app. by left.
  - intros c Hc. rewrite Hp. apply elem_of_app. right. auto.
Qed.

Lemma until_nul_app e x : 0 ∉ e → until_nul (e ++ 0 :: x) = e.
Proof.
  induction e as [|c e IH]; intros Hz; [done|]. simpl.
  destruct (Z.eqb_spec c 0) as [->|]; [set_solver|]. f_equal. apply IH. set_solver.
Qed.
Lemma until_nul_id e : 0 ∉ e → until_nul e = e.
Proof.
  induction e as [|c e IH]; intros Hz; [done|]. simpl.
  destruct (Z.eqb_spec c 0) as [->|]; [set_solver|]. f_equal. apply IH. set_solver.
Qed.

Lemma overlay_length {A} (old new : list A) :
  (length new ≤ length old)%nat → length (overlay old new) = length old.
Proof. intros. unfold overlay. rewrite length_app, length_drop. lia. Qed.

(** One call of [skipelem]. *)
Lemma skipelem_spec path name :
  length name = 14%nat → 0 ∉ path →
  match skipelem path name with
  | None => elements path = []
  | Some (rest, name') =>
      ∃ e, elements path = e :: elements rest ∧ cname name' = take 14 e ∧ length name' = 14%nat ∧
        (length rest < length path)%nat ∧ 0 ∉ rest
  end.
Proof.
  intros Hn Hz. unfold skipelem. rewrite <- elements_skip.
  assert (length (skip_slashes path) ≤ length path)%nat as Hl.
  { clear. induction path as [|c path IH]; [done|]. simpl. destruct (c =? SLASH); simpl; lia. }
  assert (∀ c, c ∈ skip_slashes path → c ∈ path) as Hsub.
  { clear. induction path as [|d path IH]; [done|]. simpl. intros c.
    destruct (d =? SLASH); [|done]. intros H. apply elem_of_cons. right. auto. }
  destruct (skip_slashes path) as [|c p] eqn:Ep; [done|].
  pose proof (skip_slashes_head _ _ _ Ep) as Hc.
  pose proof (elements_span (c :: p) ltac:(done) ltac:(simpl; congruence)) as Hs.
  destruct (span_elem (c :: p)) as [e rest]. destruct Hs as (He & Hne & Hlen & He0 & Hr0).
  assert (0 ∉ e) as Hze by (intros H; apply Hz, Hsub, He0, H).
  exists e. split_and!; [done| | |lia|intros H; apply Hz, Hsub, Hr0, H].
  - unfold cname, DIRSIZ. destruct (Z.leb_spec 14 (Z.of_nat (length e))) as [Hge|Hlt].
    + unfold overlay. rewrite take_app_le by (rewrite length_take; lia).
      rewrite take_take, Nat.min_id. apply until_nul_id. intros H. apply Hze.
      apply elem_of_take in H as (i & Hi & _). by eapply list_elem_of_lookup_2.
    + unfold overlay. rewrite <- app_assoc. cbn [app].
      rewrite take_app_ge by lia. rewrite (take_ge e) by lia.
      destruct (14 - length e)%nat eqn:Ek; [lia|]. cbn [take]. by apply until_nul_app.
  - destruct (DIRSIZ <=? _) eqn:Ed; rewrite overlay_length; try done.
    + rewrite length_take. unfold DIRSIZ. lia.
    + rewrite length_app. cbn. apply Z.leb_gt in Ed. unfold DIRSIZ in Ed. lia.
Qed.

(** [skipelem] cuts a path at its slashes: starting from any path without NUL bytes,
    repeated calls deliver, in order, exactly the non-empty pieces between slashes,
    each cut to its first [DIRSIZ] bytes, and then a null pointer; every call shortens
    the path, so that the loop of [namex] ends after at most one round per byte. *)
Theorem skipelem_elements fuel path name :
  length name = Z.to_nat DIRSIZ → 0 ∉ path → (length path < fuel)%nat →
  path_names fuel path name = take (Z.to_nat DIRSIZ) <$> elements path.
Proof.
  revert path name. induction fuel as [|f IH]; intros path name Hn Hz Hf; [lia|].
  cbn [path_names]. pose proof (skipelem_spec path name Hn Hz) as Hs.
  destruct (skipelem path name) as [[rest name']|].
  - destruct Hs as (e & -> & -> & Hn' & Hlen & Hz'). rewrite IH by (done || lia). done.
  - by rewrite Hs.
Qed.

Lemma skipelem_elements_witness :
  path_names 28 (bytes_of_string "///usr//a-very-long-name/x/") (replicate 14 7) =
  take 14 <$> elements (bytes_of_string "///usr//a-very-long-name/x/") ∧
  elements (bytes_of_string "//usr//b/") = [bytes_of_string "usr"; bytes_of_string "b"].
Proof.
  split; [|reflexivity].
  apply (skipelem_elements 28 (bytes_of_string "///usr//a-very-long-name/x/") (replicate 14 7));
    [reflexivity|vm_compute; set_solver|cbn; lia].
Defined.
