(* ===== verification/FsData.v ===== *)
(** * Inodes, directory entries and bitmaps on disk: proofs about the data of kernel/fs.c

    [iupdate] stores a [struct dinode] into a block that holds sixteen of them, [ilock]
    loads it; [balloc] and [bfree] set and clear bits of a bitmap block. *)

From S2P Require Import Prelude Machine State Spinlock KString Kalloc Vm Proc Sleeplock Virtio Bio Log.
From S2P Require Import Uart Printf Console Fs.

(** ** Parts of a block *)

Lemma sub_lookup l o n i :
  sub l o n !! i = if decide (i < Z.to_nat n)%nat then l !! (Z.to_nat o + i)%nat else None.
Proof.
  unfold sub. case_decide.
  - rewrite lookup_take_lt by done. by rewrite lookup_drop.
  - by rewrite lookup_take_ge by lia.
Qed.

Lemma splice_lookup l off bs i :
  0 ≤ off → (Z.to_nat off + length bs ≤ length l)%nat →
  splice l off bs !! i =
  if decide (Z.to_nat off ≤ i < Z.to_nat off + length bs)%nat then bs !! (i - Z.to_nat off)%nat
  else l !! i.
Proof.
  intros Ho Hl. unfold splice. destruct (decide (i < Z.to_nat off)%nat).
  - rewrite lookup_app_l by (rewrite length_take; lia). rewrite lookup_take_lt by done.
    by rewrite decide_False by lia.
  - rewrite lookup_app_r by (rewrite length_take; lia). rewrite length_take, Nat.min_l by lia.
    destruct (decide (i < Z.to_nat off + length bs)%nat).
    + rewrite lookup_app_l by lia. by rewrite decide_True by lia.
    + rewrite lookup_app_r by lia. rewrite lookup_drop, decide_False by lia. f_equal. lia.
Qed.

Lemma splice_length l off bs :
  0 ≤ off → (Z.to_nat off + length bs ≤ length l)%nat → length (splice l off bs) = length l.
Proof.
  intros Ho Hl. unfold splice. rewrite !length_app, length_take, length_drop. lia.
Qed.

Lemma sub_splice_in l off bs o n :
  0 ≤ off → (Z.to_nat off + length bs ≤ length l)%nat → 0 ≤ o → 0 ≤ n →
  (Z.to_nat o + Z.to_nat n ≤ length bs)%nat → sub (splice l off bs) (off + o) n = sub bs o n.
Proof.
  intros Hoff Hl Ho Hn Hb. apply list_eq. intros i. rewrite !sub_lookup. case_decide; [|done].
  rewrite splice_lookup, decide_True by lia. f_equal. lia.
Qed.

Lemma sub_splice_out l off bs o n :
  0 ≤ off → (Z.to_nat off + length bs ≤ length l)%nat → 0 ≤ o → 0 ≤ n →
  (o + n ≤ off ∨ off + Z.of_nat (length bs) ≤ o) → sub (splice l off bs) o n = sub l o n.
Proof.
  intros Hoff Hl Ho Hn Hd. apply list_eq. intros i. rewrite !sub_lookup. case_decide; [|done].
  rewrite splice_lookup, decide_False by lia. done.
Qed.

Lemma sub_app_l a b n : n = Z.of_nat (length a) → sub (a ++ b) 0 n = a.
Proof. intros ->. unfold sub. rewrite Nat2Z.id, drop_0. by rewrite take_app_length. Qed.
Lemma sub_app_r a b o n : Z.of_nat (length a) ≤ o → sub (a ++ b) o n = sub b (o - Z.of_nat (length a)) n.
Proof.
  intros H. unfold sub. rewrite drop_app_ge by lia. do 2 f_equal. lia.
Qed.

Lemma sub_join_le_bytes l k :
  0 ≤ k < Z.of_nat (length l) → sub (mjoin (le_bytes 4 <$> l)) (4 * k) 4 = le_bytes 4 (nthZ 0 l k).
Proof.
  revert k. induction l as [|x l IH]; intros k Hk; [cbn in Hk; lia|]. cbn [fmap list_fmap].
  change (mjoin (le_bytes 4 x :: (le_bytes 4 <$> l))) with (le_bytes 4 x ++ mjoin (le_bytes 4 <$> l)).
  destruct (decide (k = 0)) as [->|Hne].
  - change (4 * 0) with 0. rewrite sub_app_l by (by rewrite le_bytes_length). done.
  - rewrite sub_app_r by (rewrite le_bytes_length; lia). rewrite le_bytes_length.
    replace (4 * k - Z.of_nat 4) with (4 * (k - 1)) by lia.
    rewrite IH by (cbn [length] in Hk; lia). f_equal. unfold nthZ. rewrite !decide_True by lia.
    replace (Z.to_nat k) with (S (Z.to_nat (k - 1))) by lia. done.
Qed.

(** ** Inodes *)

Record dinode_ok (d : dinode) : Prop := {
  do_type : - 2 ^ 15 ≤ di_type d < 2 ^ 15;
  do_major : - 2 ^ 15 ≤ di_major d < 2 ^ 15;
  do_minor : - 2 ^ 15 ≤ di_minor d < 2 ^ 15;
  do_nlink : - 2 ^ 15 ≤ di_nlink d < 2 ^ 15;
  do_size : 0 ≤ di_size d < 2 ^ 32;
  do_addrs : length (di_addrs d) = 13%nat;
  do_range : Forall (λ a, 0 ≤ a < 2 ^ 32) (di_addrs d)
}.

Lemma bytes_of_dinode_length d : length (di_addrs d) = 13%nat → length (bytes_of_dinode d) = 64%nat.
Proof.
  intros H. unfold bytes_of_dinode. rewrite !length_app, !le_bytes_length.
  assert (∀ l, length (mjoin (le_bytes 4 <$> l)) = (4 * length l)%nat) as ->.
  { induction l as [|x l IH]; [done|]. cbn [fmap list_fmap length].
    change (mjoin (le_bytes 4 x :: (le_bytes 4 <$> l))) with (le_bytes 4 x ++ mjoin (le_bytes 4 <$> l)).
    rewrite length_app, le_bytes_length, IH. lia. }
  rewrite H. done.
Qed.

Lemma s16_le_val v : - 2 ^ 15 ≤ v < 2 ^ 15 → s16 (le_val (le_bytes 2 v)) = v.
Proof.
  intros Hv. rewrite le_val_bytes. change (256 ^ Z.of_nat 2) with (2 ^ 16). unfold s16.
  rewrite Zplus_mod_idemp_l, Z.mod_small; lia.
Qed.
Lemma u32_le_val v : 0 ≤ v < 2 ^ 32 → le_val (le_bytes 4 v) = v.
Proof. intros Hv. rewrite le_val_bytes. apply Z.mod_small. exact Hv. Qed.

(** The fields of a stored inode. *)
Lemma sub_dinode d :
  length (di_addrs d) = 13%nat →
  sub (bytes_of_dinode d) 0 2 = le_bytes 2 (di_type d) ∧
  sub (bytes_of_dinode d) 2 2 = le_bytes 2 (di_major d) ∧
  sub (bytes_of_dinode d) 4 2 = le_bytes 2 (di_minor d) ∧
  sub (bytes_of_dinode d) 6 2 = le_bytes 2 (di_nlink d) ∧
  sub (bytes_of_dinode d) 8 4 = le_bytes 4 (di_size d) ∧
  (∀ k, 0 ≤ k < 13 → sub (bytes_of_dinode d) (12 + 4 * k) 4 = le_bytes 4 (nthZ 0 (di_addrs d) k)).
Proof.
  intros Hlen. unfold bytes_of_dinode.
  assert (∀ v b o n, Z.of_nat 2 ≤ o → sub (le_bytes 2 v ++ b) o n = sub b (o - 2) n) as H2.
  { intros. rewrite sub_app_r; rewrite le_bytes_length; done. }
  assert (∀ v b o n, Z.of_nat 4 ≤ o → sub (le_bytes 4 v ++ b) o n = sub b (o - 4) n) as H4.
  { intros. rewrite sub_app_r; rewrite le_bytes_length; done. }
  assert (∀ v b, sub (le_bytes 2 v ++ b) 0 2 = le_bytes 2 v) as H0.
  { intros. rewrite sub_app_l; [done|]. by rewrite le_bytes_length. }
  split_and!.
  - apply H0.
  - rewrite H2 by lia. apply H0.
  - rewrite !H2 by lia. apply H0.
  - rewrite !H2 by lia. apply H0.
  - rewrite !H2 by lia. rewrite sub_app_l; [done|]. by rewrite le_bytes_length.
  - intros k Hk. rewrite !H2, H4 by lia.
    replace (12 + 4 * k - 2 - 2 - 2 - 2 - 4) with (4 * k) by lia.
    apply sub_join_le_bytes. lia.
Qed.

Lemma fmap_nthZ_zrange {A} (d : A) l :
  (λ k, nthZ d l k) <$> zrange 0 (length l) = l.
Proof.
  apply list_eq. intros i. rewrite list_lookup_fmap.
  destruct (zrange 0 (length l) !! i) as [x|] eqn:E.
  - apply zrange_lookup in E as [Hi ->]. cbn [fmap option_fmap option_map].
    destruct (lookup_lt_is_Some_2 l i Hi) as [y Hy]. rewrite Hy. f_equal.
    apply nthZ_lookup; [lia|]. rewrite Z.add_0_l, Nat2Z.id. done.
  - apply lookup_ge_None in E. rewrite zrange_length in E. by rewrite lookup_ge_None_2.
Qed.

(** ** Bitmaps *)

Definition bytes_ok (data : list Z) : Prop := Forall (λ b, 0 ≤ b < 256) data.

Lemma bit_free_testbit data bi :
  0 ≤ bi → bit_free data bi = negb (Z.testbit (nthZ 0 data (bi / 8)) (bi mod 8)).
Proof.
  intros Hb. unfold bit_free, bit_mask. pose proof (Z.mod_pos_bound bi 8 ltac:(lia)) as Hm.
  rewrite Z.shiftl_1_l. set (x := nthZ 0 data (bi / 8)). set (k := bi mod 8) in *.
  assert (Z.land x (2 ^ k) = if Z.testbit x k then 2 ^ k else 0) as ->.
  { apply Z.bits_inj'. intros j Hj. rewrite Z.land_spec, Z.pow2_bits_eqb by lia.
    destruct (Z.eqb_spec k j) as [<-|Hne].
    - destruct (Z.testbit x k) eqn:E; [|by rewrite Z.bits_0]. by rewrite Z.pow2_bits_true by lia.
    - rewrite andb_false_r. destruct (Z.testbit x k); [|by rewrite Z.bits_0].
      by rewrite Z.pow2_bits_false. }
  destruct (Z.testbit x k); [|done]. apply Z.eqb_neq. pose proof (Z.pow_pos_nonneg 2 k). lia.
Qed.

Lemma nthZ_byte data i : bytes_ok data → 0 ≤ nthZ 0 data i < 256.
Proof.
  intros H. unfold nthZ. case_decide; [|lia]. rewrite nth_lookup.
  destruct (data !! Z.to_nat i) as [x|] eqn:E; [|simpl; lia].
  unfold bytes_ok in H. rewrite Forall_forall in H. apply H. by eapply list_elem_of_lookup_2.
Qed.

Lemma u8_testbit x k : 0 ≤ k < 8 → Z.testbit (u8 x) k = Z.testbit x k.
Proof. intros Hk. unfold u8. by rewrite Z.mod_pow2_bits_low by lia. Qed.

(** Replacing the byte that holds bit [bi]. *)
Lemma bit_upd data bi bj v :
  length data = 1024%nat → 0 ≤ bi < BPB → 0 ≤ bj < BPB →
  (∀ k, 0 ≤ k < 8 → k ≠ bi mod 8 → Z.testbit v k = Z.testbit (nthZ 0 data (bi / 8)) k) →
  bit_free (setZ data (bi / 8) (u8 v)) bj =
  if decide (bi = bj) then negb (Z.testbit v (bi mod 8)) else bit_free data bj.
Proof.
  intros Hl Hi Hj Hv. change BPB with 8192 in *. rewrite !bit_free_testbit by lia.
  assert (0 ≤ bi / 8 < 1024) as Hd by dlia.
  pose proof (Z.mod_pos_bound bj 8 ltac:(lia)) as Hm.
  destruct (decide (bi / 8 = bj / 8)) as [E|E].
  - rewrite <- E, nthZ_setZ_eq by lia. rewrite u8_testbit by lia.
    case_decide as Hd'; [by rewrite Hd'|]. rewrite Hv; [done|lia|dlia].
  - rewrite nthZ_setZ_ne by done. rewrite decide_False; [done|]. by intros ->.
Qed.

Lemma set_bit_free data bi bj :
  length data = 1024%nat → 0 ≤ bi < BPB → 0 ≤ bj < BPB →
  bit_free (set_bit data bi) bj = if decide (bi = bj) then false else bit_free data bj.
Proof.
  intros Hl Hi Hj. pose proof (Z.mod_pos_bound bi 8 ltac:(lia)) as Hm. unfold set_bit, bit_mask.
  rewrite Z.shiftl_1_l, bit_upd; [|done|done|done|].
  - case_decide; [|done]. rewrite Z.lor_spec, Z.pow2_bits_true by lia. by rewrite orb_true_r.
  - intros k Hk Hne. rewrite Z.lor_spec, Z.pow2_bits_false by done. by rewrite orb_false_r.
Qed.

Lemma clr_bit_free data bi bj :
  length data = 1024%nat → 0 ≤ bi < BPB → 0 ≤ bj < BPB →
  bit_free (clr_bit data bi) bj = if decide (bi = bj) then true else bit_free data bj.
Proof.
  intros Hl Hi Hj. pose proof (Z.mod_pos_bound bi 8 ltac:(lia)) as Hm. unfold clr_bit, bit_mask.
  rewrite Z.shiftl_1_l, bit_upd; [|done|done|done|].
  - case_decide; [|done]. rewrite Z.land_spec, Z.lnot_spec, Z.pow2_bits_true by lia.
    by rewrite andb_false_r.
  - intros k Hk Hne. rewrite Z.land_spec, Z.lnot_spec, Z.pow2_bits_false by done || lia.
    by rewrite andb_true_r.
Qed.

Lemma set_bit_ok data bi :
  bytes_ok data → length data = 1024%nat → bytes_ok (set_bit data bi) ∧ length (set_bit data bi) = 1024%nat.
Proof.
  intros Hb Hl. unfold set_bit. rewrite setZ_length. split; [|done]. unfold setZ. case_decide; [|done].
  apply Forall_insert; [done|]. pose proof (u8_range (Z.lor (nthZ 0 data (bi / 8)) (bit_mask bi))). lia.
Qed.

Lemma find_free_bit_spec f data b bi size :
  0 ≤ bi → BPB - bi < Z.of_nat f →
  match find_free_bit f data b bi size with
  | Some r => bi ≤ r < BPB ∧ b + r < size ∧ bit_free data r = true ∧
      ∀ j, bi ≤ j < r → bit_free data j = false
  | None => ∀ j, bi ≤ j < BPB → b + j < size → bit_free data j = false
  end.
Proof.
  revert bi. induction f as [|f IH]; intros bi Hb Hf; [cbn; intros; exfalso; lia|]. cbn [find_free_bit].
  destruct (Z.ltb_spec bi BPB); cbn [andb]; [|intros; exfalso; lia].
  destruct (Z.ltb_spec (b + bi) size); [|intros; exfalso; lia].
  destruct (bit_free data bi) eqn:E; [split_and!; try done; lia|].
  specialize (IH (bi + 1) ltac:(lia) ltac:(lia)).
  destruct (find_free_bit f data b (bi + 1) size) as [r|].
  - destruct IH as (H1 & H2 & H3 & H4). split_and!; try lia; [done|].
    intros j Hj. destruct (decide (j = bi)) as [->|]; [done|]. apply H4. lia.
  - intros j Hj Hs. destruct (decide (j = bi)) as [->|]; [done|]. apply IH; lia.
Qed.

(** ** An inode stored in a block *)

Lemma stored_length data k d :
  length (di_addrs d) = 13%nat → length data = Z.to_nat BSIZE → 0 ≤ k < IPB →
  length (splice data (k * sizeof_dinode) (bytes_of_dinode d)) = Z.to_nat BSIZE.
Proof.
  intros Hd Hl Hk. pose proof (bytes_of_dinode_length d Hd) as Hlen. change (Z.to_nat BSIZE) with 1024%nat in *.
  change IPB with 16 in *. unfold sizeof_dinode. rewrite splice_length; [done|lia|]. rewrite Hlen. lia.
Qed.

Lemma load_stored data k d :
  dinode_ok d → length data = Z.to_nat BSIZE → 0 ≤ k < IPB →
  dinode_of_bytes (splice data (k * sizeof_dinode) (bytes_of_dinode d)) (k * sizeof_dinode) = d.
Proof.
  intros Hd Hl Hk. change (Z.to_nat BSIZE) with 1024%nat in *. change IPB with 16 in *. unfold sizeof_dinode in *.
  pose proof (bytes_of_dinode_length d (do_addrs _ Hd)) as Hlen.
  destruct (sub_dinode d (do_addrs _ Hd)) as (S0 & S2 & S4 & S6 & S8 & S12).
  assert (∀ o n, 0 ≤ o → 0 ≤ n → o + n ≤ 64 →
    sub (splice data (k * 64) (bytes_of_dinode d)) (k * 64 + o) n = sub (bytes_of_dinode d) o n) as Hin.
  { intros. apply sub_splice_in; rewrite ?Hlen; lia. }
  unfold dinode_of_bytes, short_at, uint_at.
  replace (k * 64) with (k * 64 + 0) at 2 by lia.
  rewrite !Hin, S0, S2, S4, S6, S8 by lia.
  rewrite !s16_le_val by apply Hd. rewrite u32_le_val by apply Hd.
  transitivity (Mk_dinode (di_type d) (di_major d) (di_minor d) (di_nlink d) (di_size d) (di_addrs d));
    [|by destruct d]. f_equal.
  transitivity ((λ k, nthZ 0 (di_addrs d) k) <$> zrange 0 (length (di_addrs d)));
    [|apply fmap_nthZ_zrange].
  rewrite (do_addrs _ Hd). apply list_fmap_ext. intros i x Hx. apply zrange_lookup in Hx as [Hi ->].
  rewrite <- Z.add_assoc, Hin by lia. rewrite S12 by lia. apply u32_le_val.
  pose proof (do_range _ Hd) as Hr. rewrite Forall_forall in Hr. apply Hr.
  destruct (lookup_lt_is_Some_2 (di_addrs d) i) as [y Hy]; [rewrite (do_addrs _ Hd); lia|].
  rewrite (nthZ_lookup 0 (di_addrs d) (0 + Z.of_nat i) y); [|lia|by rewrite Z.add_0_l, Nat2Z.id].
  by eapply list_elem_of_lookup_2.
Qed.

Lemma load_other data k k' d :
  length (di_addrs d) = 13%nat → length data = Z.to_nat BSIZE → 0 ≤ k < IPB → 0 ≤ k' < IPB → k' ≠ k →
  dinode_of_bytes (splice data (k * sizeof_dinode) (bytes_of_dinode d)) (k' * sizeof_dinode) =
  dinode_of_bytes data (k' * sizeof_dinode).
Proof.
  intros Hd Hl Hk Hk' Hne. pose proof (bytes_of_dinode_length d Hd) as Hlen.
  change (Z.to_nat BSIZE) with 1024%nat in *. change IPB with 16 in *. unfold sizeof_dinode in *.
  unfold dinode_of_bytes, short_at, uint_at.
  assert (∀ o n, 0 ≤ o → 0 ≤ n → o + n ≤ 64 →
    sub (splice data (k * 64) (bytes_of_dinode d)) (k' * 64 + o) n = sub data (k' * 64 + o) n) as Hout.
  { intros. apply sub_splice_out; rewrite ?Hlen; lia. }
  pose proof (Hout 0 2 ltac:(lia) ltac:(lia) ltac:(lia)) as H0. rewrite Z.add_0_r in H0.
  rewrite H0, !Hout by lia. f_equal. apply list_fmap_ext. intros i x Hx.
  apply zrange_lookup in Hx as [Hi ->]. rewrite <- Z.add_assoc, Hout by lia. done.
Qed.

(** ** Properties *)

(** Inodes survive the disk: storing an inode in slot [k] of an inode block, as
    [iupdate] does, and loading slot [k] back, as [ilock] does, gives the inode; the
    fifteen other inodes of the block are as they were. *)
Theorem dinode_store_load data k k' d :
  dinode_ok d → length data = Z.to_nat BSIZE → 0 ≤ k < IPB → 0 ≤ k' < IPB →
  let data' := splice data (k * sizeof_dinode) (bytes_of_dinode d) in
  length data' = Z.to_nat BSIZE ∧
  dinode_of_bytes data' (k * sizeof_dinode) = d ∧
  (k' ≠ k → dinode_of_bytes data' (k' * sizeof_dinode) = dinode_of_bytes data (k' * sizeof_dinode)).
Proof.
  intros Hd Hl Hk Hk'. split_and!.
  - by apply stored_length; [apply Hd|..].
  - by apply load_stored.
  - intros Hne. by apply load_other; [apply Hd|..].
Qed.

Definition dinode_ex : dinode :=
  Mk_dinode T_FILE 0 0 1 5000 [45; 46; 47; 48; 49; 0; 0; 0; 0; 0; 0; 0; 0].

Lemma dinode_store_load_witness :
  let data := splice (replicate 1024 170) (3 * 64) (bytes_of_dinode dinode_ex) in
  dinode_of_bytes data (3 * 64) = dinode_ex ∧
  dinode_of_bytes data (5 * 64) = dinode_of_bytes (replicate 1024 170) (5 * 64).
Proof.
  assert (dinode_ok dinode_ex) as Hok.
  { split; try done; cbn; repeat constructor; lia. }
  destruct (dinode_store_load (replicate 1024 170) 3 5 dinode_ex Hok eq_refl
    ltac:(vm_compute; split; congruence) ltac:(vm_compute; split; congruence)) as (_ & H1 & H2).
  split; [exact H1|exact (H2 ltac:(lia))].
Defined.

(** The bitmap operations of [balloc] and [bfree]: the search returns the lowest
    free bit below the size of the disk, and none only if all are used; setting a bit
    marks that block used, clearing it marks it free, and no other block's bit
    changes. *)
Theorem bitmap_correct data b size bi bj :
  length data = Z.to_nat BSIZE → 0 ≤ bi < BPB → 0 ≤ bj < BPB →
  (match find_free_bit (S (Z.to_nat BPB)) data b 0 size with
   | Some r => 0 ≤ r < BPB ∧ b + r < size ∧ bit_free data r = true ∧
       ∀ j, 0 ≤ j < r → bit_free data j = false
   | None => ∀ j, 0 ≤ j < BPB → b + j < size → bit_free data j = false
   end) ∧
  bit_free (set_bit data bi) bj = (if decide (bi = bj) then false else bit_free data bj) ∧
  bit_free (clr_bit data bi) bj = (if decide (bi = bj) then true else bit_free data bj).
Proof.
  intros Hl Hi Hj. split_and!.
  - apply find_free_bit_spec; [lia|]. change BPB with 8192. lia.
  - by apply set_bit_free.
  - by apply clr_bit_free.
Qed.

Lemma bitmap_correct_witness :
  bit_free (set_bit (replicate 1024 255) 9) 9 = false ∧
  bit_free (clr_bit (replicate 1024 255) 9) 9 = true ∧
  bit_free (clr_bit (replicate 1024 255) 9) 10 = false.
Proof.
  destruct (bitmap_correct (replicate 1024 255) 0 2000 9 9 eq_refl
    ltac:(vm_compute; split; congruence) ltac:(vm_compute; split; congruence)) as (_ & H1 & H2).
  destruct (bitmap_correct (replicate 1024 255) 0 2000 9 10 eq_refl
    ltac:(vm_compute; split; congruence) ltac:(vm_compute; split; congruence)) as (_ & _ & H3).
  split; [exact H1|]. split; [exact H2|]. rewrite H3. vm_compute. reflexivity.
Defined.
