(* ===== verification/FsTx.v ===== *)
(** * Block operations inside a transaction, and [balloc]

    The file system (kernel/fs.c) runs between [begin_op] and [end_op]. [tx C H bl s]:
    the blocks have the contents [C], the thread holds the buffers [H] and the
    transaction has the blocks [bl] so far. The lemmas give [bread], a change of a
    buffer followed by [log_write], and [brelse] as operations on [C], [H] and [bl]. *)

From S2P Require Import Prelude Machine State Spinlock KString Kalloc Vm Proc Sched Sleeplock Virtio VirtioProofs Bio LruProofs BlockSpec BioInv BioProofs BioBoot Log LogOps LogCommit LogTrans LogRecover LogSafe.
From S2P Require Import Uart Printf Console Fs FsData.

(** ** What the file system leaves alone *)

(** The block layer's parts of the state, the log and the inode table may change. *)
Definition txframe (k : nat) (s s' : kstate) : Prop :=
  ∃ lg t, bframe k (set_itable t (set_klog lg s)) s'.

Lemma bframe_itable k t s s' : bframe k s s' → bframe k (set_itable t s) (set_itable t s').
Proof.
  intros (sl & bc & vd & pt & n & -> & Hj & Hl & Hp & Hn).
  exists sl, bc, vd, pt, n. split_and!; [by destruct s|done|done|done|done].
Qed.

Lemma txframe_of k s s' lg : bframe k (set_klog lg s) s' → txframe k s s'.
Proof. intros F. exists lg, (itable s). by replace (set_itable (itable s) (set_klog lg s)) with (set_klog lg s) by (by destruct s). Qed.

Lemma txframe_bframe k s s' : bframe k s s' → txframe k s s'.
Proof. intros F. apply (txframe_of _ _ _ (klog s)). by replace (set_klog (klog s) s) with s by (by destruct s). Qed.

Lemma txframe_trans k1 k2 s1 s2 s3 : txframe k1 s1 s2 → txframe k2 s2 s3 → txframe (k1 + k2) s1 s3.
Proof.
  intros (lg & t & F1) (lg' & t' & F2). exists lg', t'.
  apply (bframe_klog _ lg') in F1. apply (bframe_itable _ t') in F1.
  replace (set_itable t' (set_klog lg' (set_itable t (set_klog lg s1)))) with (set_itable t' (set_klog lg' s1)) in F1 by (by destruct s1).
  by eapply bframe_trans.
Qed.

Lemma txframe_weaken k k' s s' : txframe k s s' → (k ≤ k')%nat → txframe k' s s'.
Proof. intros (lg & t & F) Hk. exists lg, t. by eapply bframe_weaken. Qed.

Lemma txframe_refl s : txframe 0 s s.
Proof. apply txframe_bframe, bframe_refl. Qed.

Lemma txframe_itable t s : txframe 0 s (set_itable t s).
Proof. exists (klog s), t. replace (set_itable t (set_klog (klog s) s)) with (set_itable t s) by (by destruct s). apply bframe_refl. Qed.

Lemma txframe_facts k s s' :
  txframe k s s' → cs s' = cs s ∧ sb s' = sb s ∧ pmem s' = pmem s ∧ (sched_left s ≤ sched_left s' + k)%nat.
Proof. intros (lg & t & sl & bc & vd & pt & n & -> & Hj & Hl & Hp & Hn). done. Qed.

(** ** Transactions with held buffers *)

(** Buffers and their blocks, the last one taken first. *)
Definition held_refs (H : list (nat * Z)) (r : gmap Z nat) : gmap Z nat := foldr (λ ib r, ref_inc ib.2 r) r H.

Lemma held_refs_size H r : (size (held_refs H r) ≤ length H + size r)%nat.
Proof.
  induction H as [|[i b] H IH]; [done|]. cbn [held_refs foldr length]. unfold ref_inc at 1.
  rewrite map_size_insert. fold (held_refs H r). destruct (held_refs H r !! _); cbn; lia.
Qed.

Lemma held_refs_small H r k : 0 ≤ k → k + Z.of_nat (length H) < 2 ^ 32 - 1 → small (k + Z.of_nat (length H)) r → small k (held_refs H r).
Proof.
  revert k. induction H as [|[i b] H IH]; intros k Hk Hb Hs.
  - by replace (k + Z.of_nat (length (@nil (nat * Z)))) with k in Hs by (cbn; lia).
  - cbn [held_refs foldr length] in *. apply small_inc; [lia|]. apply IH; [lia|lia|].
    by replace (k + 1 + Z.of_nat (length H)) with (k + Z.of_nat (S (length H))) by lia.
Qed.

Lemma held_refs_pos H r b n : (∀ b n, r !! b = Some n → n ≠ O) → held_refs H r !! b = Some n → n ≠ O.
Proof.
  intros Hr. revert b n. induction H as [|[i b'] H IH]; intros b n; [apply Hr|]. cbn [held_refs foldr snd].
  unfold ref_inc. destruct (decide (b' = b)) as [->|Hne].
  - rewrite lookup_insert_eq. by intros [= <-].
  - rewrite lookup_insert_ne by done. apply IH.
Qed.

Lemma held_refs_mono H r b : is_Some (r !! b) → is_Some (held_refs H r !! b).
Proof.
  intros Hb. induction H as [|[i b'] H IH]; [done|]. cbn [held_refs foldr snd]. unfold ref_inc.
  destruct (decide (b' = b)) as [->|Hne]; [rewrite lookup_insert_eq; eauto|by rewrite lookup_insert_ne].
Qed.

(** Pinning and holding commute. *)
Lemma held_refs_inc H b r : held_refs H (ref_inc b r) = ref_inc b (held_refs H r).
Proof.
  induction H as [|[i b'] H IH]; [done|]. cbn [held_refs foldr snd]. fold (held_refs H (ref_inc b r)). rewrite IH.
  destruct (decide (b = b')) as [->|]; [done|]. by apply ref_inc_comm.
Qed.

Section tx.
Context `{L : Layout} `{Oth : Others} {B : BlockIO} {BL : BlockLaws B}.
(** The log and the disk as they were when the transaction began. *)
Context (lg0 : log_state) (D : Z → list Z) (hist : list (Z * list Z)).

Definition tview (C : Z → list Z) (H : list (nat * Z)) (bl : list Z) : bview :=
  Mk_bview C D hist (list_to_map H) (held_refs H (pins bl)).

Record tx (C : Z → list Z) (H : list (nat * Z)) (bl : list Z) (s : kstate) : Prop := {
  tx_inv : binv (tview C H bl) s;
  tx_lock : lock_free L_log (cs s);
  tx_log : tlog (klog s) bl (tview C H bl);
  tx_out : 1 ≤ l_outstanding (klog s) ∧ l_outstanding (klog s) = l_outstanding lg0;
  tx_com : l_committing (klog s) = l_committing lg0;
  tx_start : l_start (klog s) = l_start lg0;
  tx_size : l_size (klog s) = l_size lg0;
  tx_clean b : b ∉ bl → C b = D b;
  tx_nodup : NoDup H.*1 ∧ NoDup H.*2
}.

(** A block that a transaction may change: outside the log. *)
Definition tx_block (b : Z) : Prop := blk_ok b ∧ (b < l_start lg0 ∨ l_start lg0 + l_size lg0 ≤ b).
(** Room for [n] more blocks in the log and for the buffers in use. *)
Definition tx_room (n : nat) (bl : list Z) : Prop :=
  Z.of_nat (length bl + n) ≤ l_size lg0 - 1 ∧ (length bl + n < 30)%nat.

Lemma add_block_length bl b : (length (add_block bl b) ≤ S (length bl))%nat.
Proof. unfold add_block. case_decide; rewrite ?length_app; cbn; lia. Qed.

Lemma add_block_elem bl b x : x ∈ add_block bl b ↔ x ∈ bl ∨ x = b.
Proof. unfold add_block. case_decide; rewrite ?elem_of_app, ?list_elem_of_singleton; naive_solver. Qed.

Lemma pins_pos bl b n : pins bl !! b = Some n → n ≠ O.
Proof. rewrite pins_lookup. case_decide; [by intros [= <-]|done]. Qed.

Lemma tlog_view lg bl V V' : tlog lg bl V → (∀ b, b ∈ bl → is_Some (v_ref V' !! b)) → tlog lg bl V'.
Proof. intros [] H. by split. Qed.

Lemma tview_pinned C H bl b : b ∈ bl → is_Some (v_ref (tview C H bl) !! b).
Proof. intros Hb. cbn. apply held_refs_mono. rewrite pins_lookup, decide_True by done. eauto. Qed.

Lemma held_lookup (H : list (nat * Z)) i b : NoDup H.*1 → list_to_map (M := gmap nat Z) H !! i = Some b ↔ (i, b) ∈ H.
Proof. intros Hn. symmetry. apply elem_of_list_to_map. done. Qed.

Lemma tview_bread C H bl i b : v_bread i b (tview C H bl) = tview C ((i, b) :: H) bl.
Proof. done. Qed.

(** [bread] *)
Lemma tx_bread C H bl s b :
  tx C H bl s → blk_ok b → b ∉ H.*2 → (length bl + length H < 30)%nat → (0 < sched_left s)%nat →
  wp (bread ROOTDEV b) (λ i s', tx C ((i, b) :: H) bl s' ∧ bframe 1 s s') s.
Proof.
  intros T Hb Hnh Hroom Hs. destruct (T) as [HV Hl Tl Hout Hcm Hst Hsz Hcl [Hn1 Hn2]].
  eapply wp_mono.
  { apply (law_bread _ _ b HV); [done| |right| |done].
    - intros i Hi. cbn in Hi. apply held_lookup in Hi; [|done]. apply Hnh. apply list_elem_of_fmap. by exists (i, b).
    - cbn. pose proof (held_refs_size H (pins bl)). pose proof (pins_size bl). change (Z.to_nat NBUF) with 30%nat. lia.
    - cbn. apply held_refs_small; [lia|lia|]. apply pins_small. lia. }
  intros i s' (Hi & HV' & F); cbn beta in *. split; [|done]. destruct (bframe_facts _ _ _ F) as (Hk & Hc & _).
  rewrite tview_bread in HV'. split; rewrite ?Hk, ?Hc; try done.
  - eapply tlog_view; [exact Tl|]. intros x Hx. by apply (tview_pinned C ((i, b) :: H)).
  - split; cbn; constructor; try done. cbn in Hi. by apply not_elem_of_list_to_map in Hi.
Qed.

(** What a held buffer holds. *)
Lemma tx_buf C H bl s i b : tx C H bl s → (i, b) ∈ H → b_data (nth i (bufs (bcache s)) buf0) = C b.
Proof.
  intros T Hi. destruct (T) as [HV Hl Tl Hout Hcm Hst Hsz Hcl [Hn1 Hn2]].
  apply (law_held (tview C H bl) s i b HV). cbn. by apply held_lookup.
Qed.

Lemma tx_len C H bl s b : tx C H bl s → length (C b) = Z.to_nat BSIZE.
Proof. intros T. apply (law_len _ _ b (tx_inv _ _ _ _ T)). Qed.

(** A change of the data of the buffer taken last, and [log_write]. *)
Lemma tx_write C H bl s i b f d :
  tx C ((i, b) :: H) bl s → tx_block b → tx_room 1 bl → (length H < 30)%nat → d = f (C b) → length d = Z.to_nat BSIZE →
  wp (upd_buf i (λ bf, set_b_data (f (b_data bf)) bf);; log_write i)
    (λ _ s', tx (upd C b d) ((i, b) :: H) (add_block bl b) s' ∧ txframe 0 s s' ∧ itable s' = itable s) s.
Proof.
  intros T [Hb Ho] [Hr1 Hr2] HH -> Hd. destruct (T) as [HV Hl Tl Hout Hcm Hst Hsz Hcl [Hn1 Hn2]].
  set (d := f (C b)) in *. pose proof (tl_n _ _ _ Tl) as Hn.
  assert (v_held (tview C ((i, b) :: H) bl) !! i = Some b) as Hi by (cbn; by rewrite lookup_insert_eq).
  apply wp_bind. unfold wp at 1. rewrite (upd_buf_ext i _ (set_b_data d)).
  2:{ rewrite (tx_buf _ _ _ _ i b T) by (apply elem_of_cons; by left). done. }
  change (wp (upd_buf i (set_b_data d)) (λ _ s', wp (log_write i) (λ _ s',
    tx (upd C b d) ((i, b) :: H) (add_block bl b) s' ∧ txframe 0 s s' ∧ itable s' = itable s) s') s).
  eapply wp_mono; [by apply (law_store _ _ i b d HV)|].
  intros ? s1 (HV1 & F1); cbn beta in *. destruct (bframe_facts _ _ _ F1) as (Hk1 & Hc1 & _ & Hit1 & _).
  assert (v_store b d (tview C ((i, b) :: H) bl) = tview (upd C b d) ((i, b) :: H) bl) as E by done.
  rewrite E in HV1.
  eapply wp_mono.
  { apply (log_write_ok _ s1 i b (klog s) bl HV1); [done| |done| | |apply Hout| | |done|].
    - by rewrite Hc1.
    - eapply tlog_view; [exact Tl|]. intros x Hx. by apply (tview_pinned (upd C b d) ((i, b) :: H)).
    - cbn. apply small_inc; [lia|]. apply held_refs_small; [lia|lia|]. apply pins_small. lia.
    - rewrite Hsz. lia.
    - change LOGSIZE with 30. lia.
    - by rewrite Hsz, Hst. }
  intros ? s2 (HV2 & T2 & Ho2 & Hcm2 & Hst2 & Hsz2 & F2); cbn beta in *.
  destruct (bframe_facts _ _ _ F2) as (_ & Hc2 & _ & Hit2 & _). cbn in Hc2, Hit2.
  assert (v_log bl b (tview (upd C b d) ((i, b) :: H) bl) = tview (upd C b d) ((i, b) :: H) (add_block bl b)) as E2.
  { unfold v_log, add_block. case_decide as Hin; [done|]. unfold v_pin, tview. f_equal.
    rewrite pins_snoc by done. rewrite held_refs_inc. done. }
  rewrite E2 in HV2, T2. split_and!.
  - split; [done|by rewrite Hc2, Hc1|done|lia|congruence|congruence|congruence| |done].
    intros x Hx. rewrite add_block_elem in Hx. rewrite upd_ne by tauto. apply Hcl. tauto.
  - apply (txframe_of _ _ _ (klog s2)). replace 0%nat with (0 + 0)%nat by lia.
    eapply bframe_trans; [apply bframe_klog; exact F1|exact F2].
  - congruence.
Qed.

(** [brelse] *)
Lemma tx_brelse C H bl s i b :
  tx C ((i, b) :: H) bl s → wp (brelse i) (λ _ s', tx C H bl s' ∧ bframe 0 s s') s.
Proof.
  intros T. destruct (T) as [HV Hl Tl Hout Hcm Hst Hsz Hcl [Hn1 Hn2]].
  cbn in Hn1, Hn2. inversion Hn1 as [|? ? Hni Hn1']; inversion Hn2 as [|? ? Hnb Hn2']; subst.
  assert (list_to_map (M := gmap nat Z) H !! i = None) as Hno by (by apply not_elem_of_list_to_map).
  eapply wp_mono.
  { apply (law_brelse _ _ i b HV); [cbn; by rewrite lookup_insert_eq|].
    change (v_ref (tview C ((i, b) :: H) bl)) with (ref_inc b (held_refs H (pins bl))).
    change (v_content (tview C ((i, b) :: H) bl) b) with (C b).
    change (v_disk (tview C ((i, b) :: H) bl) b) with (D b). intros Hr. apply Hcl. intros Hin.
    unfold ref_inc in Hr. rewrite lookup_insert_eq in Hr. injection Hr as Hr.
    destruct (tview_pinned C H bl b Hin) as [n Hn]. change (v_ref (tview C H bl)) with (held_refs H (pins bl)) in Hn. rewrite Hn in Hr. cbn in Hr. subst n.
    apply held_refs_pos in Hn; [done|]. apply pins_pos. }
  intros ? s' (HV' & F); cbn beta in *. split; [|done]. destruct (bframe_facts _ _ _ F) as (Hk & Hc & _).
  assert (v_brelse i b (tview C ((i, b) :: H) bl) = tview C H bl) as E.
  { unfold v_brelse, tview. cbn. rewrite delete_insert_id by done. f_equal. apply ref_dec_inc.
    intros n. apply held_refs_pos. apply pins_pos. }
  rewrite E in HV'. split; rewrite ?Hk, ?Hc; try done.
  eapply tlog_view; [exact Tl|]. intros x Hx. by apply (tview_pinned C H).
Qed.

(** A change of the inode table. *)
Lemma tx_itable C H bl s t : tx C H bl s → tx C H bl (set_itable t s).
Proof. intros []. split; try done. by apply law_itable. Qed.
End tx.

(** ** Allocating blocks: [bzero], [balloc] and [bmap] of kernel/fs.c

    [balloc] takes the lowest free block of the bitmap and clears it. [bmap] finds the
    block of a file that holds a given part of it and allocates it, and the indirect
    block, if there is none yet. Blocks are changed inside a transaction (FsTx). *)

Lemma wp_seq2 {S A B C} (m1 : M S A) (m2 : M S B) (k : M S C) Q R s :
  wp (m1;; m2) R s → (∀ b s', R b s' → wp k Q s') → wp (m1;; m2;; k) Q s.
Proof.
  unfold wp, mbind, M_bind. intros H Hk. destruct (m1 s) as [a s1| |]; [|done|done].
  destruct (m2 s1) as [b s2| |]; [|done|done]. apply (Hk b s2 H).
Qed.

(** ** The layout of the disk *)

Section alloc.
Context `{L : Layout} `{Oth : Others} {B : BlockIO} {BL : BlockLaws B}.
Context (lg0 : log_state) (D : Z → list Z) (hist : list (Z * list Z)) (S : superblock).
Abbreviation tx := (tx lg0 D hist).

(** The log, then the inodes, the bitmap, and from [d0] on the data. *)
Record geometry (d0 : Z) : Prop := {
  g_size : d0 ≤ sb_size S < 2 ^ 31;
  g_log : 0 ≤ l_start lg0 ∧ l_start lg0 + l_size lg0 ≤ d0;
  g_bmap b : 0 ≤ b < sb_size S → l_start lg0 + l_size lg0 ≤ BBLOCK b S < d0;
  g_inode i : 0 ≤ i < sb_ninodes S → l_start lg0 + l_size lg0 ≤ IBLOCK i S < d0;
  g_apart b i : 0 ≤ b < sb_size S → 0 ≤ i < sb_ninodes S → BBLOCK b S ≠ IBLOCK i S;
  g_inum : 0 ≤ sb_inodestart S ∧ sb_inodestart S + sb_ninodes S / IPB < 2 ^ 31;
  g_low : 0 ≤ l_size lg0;
  g_data : 0 < d0
}.

(** Block [b] is free in the bitmap. *)
Definition is_free (C : Z → list Z) (b : Z) : bool := bit_free (C (BBLOCK b S)) (b mod BPB).
(** The contents after [balloc] of block [b]. *)
Definition alloc_content (C : Z → list Z) (b : Z) : Z → list Z :=
  upd (upd C (BBLOCK b S) (set_bit (C (BBLOCK b S)) (b mod BPB))) b zero_block.
Definition alloc_blocks (bl : list Z) (b : Z) : list Z := add_block (add_block bl (BBLOCK b S)) b.

Lemma bzero_ok C H bl s b :
  tx C H bl s → tx_block lg0 b → b ∉ H.*2 → tx_room lg0 1 bl → (length bl + length H < 30)%nat → (0 < sched_left s)%nat →
  wp (bzero ROOTDEV b) (λ _ s', tx (upd C b zero_block) H (add_block bl b) s' ∧ txframe 1 s s' ∧ itable s' = itable s) s.
Proof.
  intros T Hb Hnh Hroom HlH Hs. unfold bzero. change (u32 ROOTDEV) with ROOTDEV.
  assert (u32 b = b) as -> by (apply u32_small; destruct Hb as [Hb _]; unfold blk_ok in Hb; lia).
  apply wp_bind. eapply wp_mono; [apply (tx_bread lg0 D hist C H bl s b T); [apply Hb|done|done|done]|].
  intros i s1 [T1 F1]; cbn beta in *. destruct (bframe_facts _ _ _ F1) as (_ & _ & _ & Hit1 & _).
  eapply wp_seq2.
  { apply (tx_write lg0 D hist C H bl s1 i b (λ _, zero_block)); [done|done|done|lia|reflexivity|done]. }
  intros ? s2 (T2 & F2 & Hit2); cbn beta in *.
  eapply wp_mono; [by apply tx_brelse in T2|]. intros ? s3 [T3 F3]; cbn beta in *.
  destruct (bframe_facts _ _ _ F3) as (_ & _ & _ & Hit3 & _). split_and!; [done| |congruence].
  apply (txframe_weaken (1 + (0 + 0))); [|lia].
  eapply txframe_trans; [by apply txframe_bframe|]. eapply txframe_trans; [exact F2|by apply txframe_bframe].
Qed.

Lemma bblock_base b bi : 0 ≤ b → 0 ≤ bi < BPB → BBLOCK (b * BPB + bi) S = BBLOCK (b * BPB) S ∧ (b * BPB + bi) mod BPB = bi.
Proof.
  intros Hb Hbi. unfold BBLOCK. change BPB with 8192 in *.
  rewrite Z.div_add_l, Z.div_small, Z.div_mul, Z.add_0_r by lia. split; [done|].
  rewrite Z.add_comm, Z.mod_add, Z.mod_small by lia. done.
Qed.

(** The outer loop, from bitmap block [k] on. *)
Lemma balloc_loop_ok d0 f k C H bl s b0 :
  geometry d0 → tx C H bl s → sb s = S → d0 ≤ b0 < sb_size S →
  is_free C b0 = true → (∀ b, k * BPB ≤ b < b0 → is_free C b = false) → 0 ≤ k → k * BPB ≤ b0 →
  (∀ b, 0 ≤ b < sb_size S → BBLOCK b S ∉ H.*2) → b0 ∉ H.*2 → tx_room lg0 2 bl → (length bl + length H < 29)%nat →
  (Z.to_nat (b0 / BPB - k) < f)%nat → (Z.to_nat (b0 / BPB - k) + 2 ≤ sched_left s)%nat →
  wp (balloc_loop f ROOTDEV (k * BPB)) (λ r s', r = b0 ∧ tx (alloc_content C b0) H (alloc_blocks bl b0) s' ∧
    txframe (Z.to_nat (b0 / BPB - k) + 2) s s' ∧ itable s' = itable s) s.
Proof.
  intros G. revert k s. induction f as [|f IH]; intros k s T HS Hb0 Hfree Hlow Hk Hkb Hbh Hb0h [Hr1 Hr2] HlH Hf Hs; [lia|].
  cbn [balloc_loop]. apply wp_bind, wp_gets. rewrite HS. rewrite (proj2 (Z.ltb_lt _ _)) by lia.
  change BPB with 8192 in *.
  assert (0 ≤ k * 8192 < sb_size S) as Hkr by lia.
  pose proof (g_bmap _ G (k * 8192) Hkr) as Hbm. pose proof (g_size _ G) as Hsz. pose proof (g_log _ G) as Hlog.
  apply wp_bind. eapply wp_mono.
  { apply (tx_bread lg0 D hist C H bl s _ T); [unfold blk_ok; lia|by apply Hbh|lia|lia]. }
  intros i s1 [T1 F1]; cbn beta in *. destruct (bframe_facts _ _ _ F1) as (_ & _ & HS1 & Hit1 & Hsl1).
  apply wp_bind, wp_gets. apply wp_bind, wp_gets. rewrite HS1, HS.
  rewrite (tx_buf _ _ _ _ _ _ _ i (BBLOCK (k * 8192) S) T1) by (apply elem_of_cons; by left).
  set (N := Datatypes.S (Z.to_nat 8192)).
  pose proof (find_free_bit_spec N (C (BBLOCK (k * 8192) S)) (k * 8192) 0 (sb_size S) ltac:(lia)) as Hfind.
  change BPB with 8192 in Hfind. specialize (Hfind ltac:(subst N; lia)).
  destruct (find_free_bit N (C (BBLOCK (k * 8192) S)) (k * 8192) 0 (sb_size S)) as [bi|].
  - destruct Hfind as (Hbi & Hbs & Hbf & Hbl).
    destruct (bblock_base k bi Hk Hbi) as [EB EM]. change BPB with 8192 in EB, EM.
    assert (b0 = k * 8192 + bi) as ->.
    { destruct (Z.lt_trichotomy b0 (k * 8192 + bi)) as [Hlt|[->|Hgt]]; [|done|].
      - specialize (Hbl (b0 - k * 8192) ltac:(lia)). unfold is_free in Hfree. change BPB with 8192 in Hfree.
        destruct (bblock_base k (b0 - k * 8192) Hk ltac:(change BPB with 8192; lia)) as [EB' EM'].
        change BPB with 8192 in EB', EM'. replace (k * 8192 + (b0 - k * 8192)) with b0 in EB', EM' by lia.
        rewrite EB', EM' in Hfree. congruence.
      - specialize (Hlow (k * 8192 + bi) ltac:(lia)). unfold is_free in Hlow. change BPB with 8192 in Hlow.
        rewrite EB, EM in Hlow. congruence. }
    clear Hbl Hlow IH N. set (b0 := k * 8192 + bi) in *. set (bb := BBLOCK (k * 8192) S) in *.
    assert (tx_block lg0 bb) as Htb by (split; [unfold blk_ok; lia|right; lia]).
    eapply wp_seq2.
    { apply (tx_write lg0 D hist C H bl s1 i bb (λ d, set_bit d bi)); [done|done|split; lia|lia|reflexivity|].
      unfold set_bit. rewrite setZ_length. by eapply tx_len. }
    intros ? s2 (T2 & F2 & Hit2); cbn beta in *. destruct (txframe_facts _ _ _ F2) as (_ & _ & _ & Hsl2).
    apply wp_bind. eapply wp_mono; [by apply tx_brelse in T2|]. intros ? s3 [T3 F3]; cbn beta in *.
    destruct (bframe_facts _ _ _ F3) as (_ & _ & _ & Hit3 & Hsl3).
    pose proof (add_block_length bl bb) as Hal.
    apply wp_bind. eapply wp_mono.
    { apply (bzero_ok _ H (add_block bl bb) s3 b0 T3); [split; [unfold blk_ok; lia|right; lia]|done|split; lia|lia|lia]. }
    intros ? s4 (T4 & F4 & Hit4); cbn beta in *. apply wp_ret. split_and!.
    + apply u32_small. lia.
    + unfold alloc_content, alloc_blocks. change BPB with 8192. rewrite EB, EM. exact T4.
    + apply (txframe_weaken (1 + (0 + (0 + 1)))); [|lia].
      eapply txframe_trans; [by apply txframe_bframe|]. eapply txframe_trans; [exact F2|].
      eapply txframe_trans; [by apply txframe_bframe|exact F4].
    + congruence.
  - assert ((k + 1) * 8192 ≤ b0) as Hge.
    { destruct (decide (b0 < (k + 1) * 8192)) as [Hlt|]; [|lia]. exfalso.
      specialize (Hfind (b0 - k * 8192) ltac:(lia) ltac:(lia)). unfold is_free in Hfree. change BPB with 8192 in Hfree.
      destruct (bblock_base k (b0 - k * 8192) Hk ltac:(change BPB with 8192; lia)) as [EB' EM'].
      change BPB with 8192 in EB', EM'. replace (k * 8192 + (b0 - k * 8192)) with b0 in EB', EM' by lia.
      rewrite EB', EM' in Hfree. congruence. }
    apply wp_bind. eapply wp_mono; [by apply tx_brelse in T1|]. intros ? s3 [T3 F3]; cbn beta in *.
    destruct (bframe_facts _ _ _ F3) as (_ & _ & HS3 & Hit3 & Hsl3).
    assert (k + 1 ≤ b0 / 8192) as Hq by (apply Z.div_le_lower_bound; lia).
    replace (k * 8192 + 8192) with ((k + 1) * 8192) by lia.
    eapply wp_mono.
    { apply (IH (k + 1) s3); try done; try lia; [congruence|]. intros b Hb. apply Hlow. lia. }
    intros r s4 (-> & T4 & F4 & Hit4); cbn beta in *. split_and!; [done|done| |congruence].
    apply (txframe_weaken (1 + (0 + (Z.to_nat (b0 / 8192 - (k + 1)) + 2)))); [|lia].
    eapply txframe_trans; [by apply txframe_bframe|]. eapply txframe_trans; [by apply txframe_bframe|exact F4].
Qed.

Lemma balloc_ok d0 C H bl s b0 :
  geometry d0 → tx C H bl s → sb s = S → d0 ≤ b0 < sb_size S →
  is_free C b0 = true → (∀ b, 0 ≤ b < b0 → is_free C b = false) →
  (∀ b, 0 ≤ b < sb_size S → BBLOCK b S ∉ H.*2) → b0 ∉ H.*2 → tx_room lg0 2 bl → (length bl + length H < 29)%nat →
  (Z.to_nat (sb_size S / BPB) + 2 ≤ sched_left s)%nat →
  wp (balloc ROOTDEV) (λ r s', r = b0 ∧ tx (alloc_content C b0) H (alloc_blocks bl b0) s' ∧
    txframe (Z.to_nat (sb_size S / BPB) + 2) s s' ∧ itable s' = itable s) s.
Proof.
  intros G T HS Hb0 Hfree Hlow Hbh Hb0h Hr HlH Hs. unfold balloc. apply wp_bind, wp_gets. rewrite HS.
  pose proof (g_log _ G) as Hlog. pose proof (g_low _ G) as Hsl.
  assert (0 ≤ b0 / BPB ≤ sb_size S / BPB) as Hq.
  { split; [apply Z.div_pos; [lia|done]|apply Z.div_le_mono; [done|lia]]. }
  change 0 with (0 * BPB) at 1. eapply wp_mono.
  { apply (balloc_loop_ok d0 _ 0 C H bl s b0 G T); try done; try lia. }
  intros r s' (-> & T' & F & Hit); cbn beta in *. split_and!; [done|done| |done].
  eapply txframe_weaken; [exact F|]. lia.
Qed.
End alloc.
