(* ===== verification/FsMap.v ===== *)
(** * The blocks of a file: [bmap] of kernel/fs.c

    [fblock C a bn] is the block that holds part [bn] of the file whose inode has the
    addresses [a], 0 if there is none; [fbyte C a o] is the byte at offset [o], 0 where
    there is no block. [bmap] makes sure that there is a block and changes no byte. *)

From S2P Require Import Prelude Machine State Spinlock KString Kalloc Vm Proc Sched Sleeplock Virtio VirtioProofs Bio LruProofs BlockSpec BioInv BioProofs BioBoot Log LogOps LogCommit LogTrans LogRecover LogSafe.
From S2P Require Import Uart Printf Console Fs FsData FsTx.

Definition indirect (a : list Z) : Z := nthZ 0 a NDIRECT.
Definition fblock (C : Z → list Z) (a : list Z) (bn : Z) : Z :=
  if bn <? NDIRECT then nthZ 0 a bn
  else if indirect a =? 0 then 0 else uint_at (C (indirect a)) (4 * (bn - NDIRECT)).
(** The first [e] bytes of the file have blocks. *)
Definition mapped (C : Z → list Z) (a : list Z) (e : Z) : Prop := ∀ bn, 0 ≤ bn → bn * BSIZE < e → fblock C a bn ≠ 0.
Definition fbyte (C : Z → list Z) (a : list Z) (o : Z) : Z :=
  let x := fblock C a (o / BSIZE) in if x =? 0 then 0 else nthZ 0 (C x) (o mod BSIZE).

Section map.
Context `{L : Layout} `{Oth : Others} {B : BlockIO} {BL : BlockLaws B}.
Context (lg0 : log_state) (D : Z → list Z) (hist : list (Z * list Z)) (S : superblock) (d0 : Z).
Abbreviation tx := (tx lg0 D hist).
Abbreviation is_free := (is_free S).
Abbreviation alloc_content := (alloc_content S).

Record disk_ok (C : Z → list Z) : Prop := {
  do_geom : geometry lg0 S d0;
  do_bmap : 0 ≤ sb_bmapstart S ∧ sb_bmapstart S + sb_size S / BPB < 2 ^ 31;
  do_low b : 0 ≤ b < d0 → is_free C b = false;
  do_len b : length (C b) = Z.to_nat BSIZE
}.

(** At least [k] blocks are free. *)
Definition has_free (k : nat) (C : Z → list Z) : Prop :=
  ∃ fl, NoDup fl ∧ length fl = k ∧ ∀ b, b ∈ fl → d0 ≤ b < sb_size S ∧ is_free C b = true.

(** A file's blocks are in the data area, marked as used, and all different. *)
Record file_ok (C : Z → list Z) (a : list Z) : Prop := {
  fo_len : length a = 13%nat;
  fo_range bn : 0 ≤ bn < MAXFILE → fblock C a bn ≠ 0 → d0 ≤ fblock C a bn < sb_size S ∧ is_free C (fblock C a bn) = false;
  fo_inj bn bn' : 0 ≤ bn < MAXFILE → 0 ≤ bn' < MAXFILE → fblock C a bn ≠ 0 → fblock C a bn = fblock C a bn' → bn = bn';
  fo_ind : indirect a ≠ 0 → d0 ≤ indirect a < sb_size S ∧ is_free C (indirect a) = false;
  fo_apart bn : 0 ≤ bn < MAXFILE → indirect a ≠ 0 → fblock C a bn ≠ indirect a
}.

(** ** The bitmap *)

Lemma bblock_eq C b : disk_ok C → 0 ≤ b < sb_size S → BBLOCK b S = b / BPB + sb_bmapstart S.
Proof.
  intros K Hb. unfold BBLOCK. apply u32_small. destruct (do_bmap _ K) as [H1 H2].
  assert (0 ≤ b / BPB ≤ sb_size S / BPB) by (split; [apply Z.div_pos; [lia|done]|apply Z.div_le_mono; [done|lia]]). lia.
Qed.

Lemma alloc_content_ne C b0 b : disk_ok C → d0 ≤ b0 < sb_size S →
  b ≠ b0 → b ≠ BBLOCK b0 S → alloc_content C b0 b = C b.
Proof. intros _ _ H1 H2. unfold FsTx.alloc_content. by rewrite !upd_ne. Qed.

Lemma alloc_content_new C b0 : alloc_content C b0 b0 = zero_block.
Proof. unfold FsTx.alloc_content. by rewrite upd_eq. Qed.

Lemma g_pos C : disk_ok C → 0 < d0.
Proof. intros K. apply (g_data _ _ _ (do_geom _ K)). Qed.

(** A change of a data block leaves the bitmap alone. *)
Lemma is_free_upd C b d b' : disk_ok C → d0 ≤ b → 0 ≤ b' < sb_size S → is_free (upd C b d) b' = is_free C b'.
Proof.
  intros K Hb Hb'. unfold FsTx.is_free. pose proof (g_bmap _ _ _ (do_geom _ K) b' Hb'). by rewrite upd_ne by lia.
Qed.

Lemma is_free_alloc C b0 b :
  disk_ok C → d0 ≤ b0 < sb_size S → 0 ≤ b < sb_size S →
  is_free (alloc_content C b0) b = if decide (b = b0) then false else is_free C b.
Proof.
  intros K Hb0 Hb. pose proof (g_pos C K) as Hd. pose proof (g_bmap _ _ _ (do_geom _ K) b Hb) as Hbb.
  unfold FsTx.alloc_content. rewrite is_free_upd.
  2:{ destruct K as [K1 K2 K3 K4]. split; [done|done| |].
      - intros x Hx. unfold FsTx.is_free. destruct (decide (BBLOCK x S = BBLOCK b0 S)) as [E|E].
        + rewrite E, upd_eq. rewrite set_bit_free; [|apply K4|apply Z.mod_pos_bound; done..].
          case_decide; [done|]. specialize (K3 x Hx). unfold FsTx.is_free in K3. by rewrite E in K3.
        + rewrite upd_ne by done. by apply K3.
      - intros x. unfold upd. case_decide; [|apply K4]. unfold set_bit. rewrite setZ_length. apply K4. }
  2:{ lia. }
  2:{ done. }
  unfold FsTx.is_free. destruct (decide (BBLOCK b S = BBLOCK b0 S)) as [E|E].
  - rewrite E, upd_eq. rewrite set_bit_free; [|apply K|apply Z.mod_pos_bound; done..].
    rewrite (bblock_eq C b K Hb), (bblock_eq C b0 K ltac:(lia)) in E.
    pose proof (Z.div_mod b BPB ltac:(done)) as E1. pose proof (Z.div_mod b0 BPB ltac:(done)) as E2.
    destruct (decide (b0 mod BPB = b mod BPB)) as [Em|Em].
    + rewrite decide_True; [done|]. rewrite E1, E2, Em. f_equal. f_equal. lia.
    + rewrite decide_False; [done|]. intros ->. done.
  - rewrite upd_ne by done. rewrite decide_False; [done|]. by intros ->.
Qed.

Lemma disk_ok_upd C b d : disk_ok C → d0 ≤ b → length d = Z.to_nat BSIZE → disk_ok (upd C b d).
Proof.
  intros K Hb Hd. pose proof (g_size _ _ _ (do_geom _ K)) as Hs. destruct (K) as [K1 K2 K3 K4]. split; [done|done| |].
  - intros x Hx. rewrite is_free_upd by (done || lia). by apply K3.
  - intros x. unfold upd. case_decide; [done|apply K4].
Qed.

Lemma disk_ok_alloc C b0 : disk_ok C → d0 ≤ b0 < sb_size S → disk_ok (alloc_content C b0).
Proof.
  intros K Hb0. pose proof (g_size _ _ _ (do_geom _ K)) as Hs. destruct (K) as [K1 K2 K3 K4]. split; [done|done| |].
  - intros x Hx. rewrite is_free_alloc by (done || lia). case_decide; [done|by apply K3].
  - intros x. unfold FsTx.alloc_content, upd. repeat case_decide; [done| |apply K4]. unfold set_bit. rewrite setZ_length. apply K4.
Qed.

(** The block that [balloc] takes. *)
Lemma lowest_or_none (P : Z → bool) n :
  (∃ b, 0 ≤ b < Z.of_nat n ∧ P b = true ∧ ∀ b', 0 ≤ b' < b → P b' = false) ∨ (∀ b, 0 ≤ b < Z.of_nat n → P b = false).
Proof.
  induction n as [|n [(b & Hb & HP & Hl)|Hno]].
  - right. intros b Hb. lia.
  - left. exists b. split_and!; [lia|lia|done|done].
  - destruct (P (Z.of_nat n)) eqn:E.
    + left. exists (Z.of_nat n). split_and!; [lia|lia|done|done].
    + right. intros b Hb. destruct (decide (b = Z.of_nat n)) as [->|]; [done|]. apply Hno. lia.
Qed.

Lemma filter_without (b : Z) l : NoDup l → (length l ≤ Datatypes.S (length (filter (λ y, y ≠ b) l)))%nat.
Proof.
  induction 1 as [|x l Hx Hl IH]; [cbn; lia|]. rewrite filter_cons. case_decide as E; cbn [length]; [lia|].
  subst x.
  assert (filter (λ y, y ≠ b) l = l) as ->; [|lia]. clear IH Hl.
  induction l as [|y l IH]; [done|]. rewrite not_elem_of_cons in Hx. destruct Hx as [Hy Hx].
  rewrite filter_cons, decide_True by congruence. f_equal. by apply IH.
Qed.

Lemma next_free k C :
  disk_ok C → has_free (Datatypes.S k) C →
  ∃ b0, d0 ≤ b0 < sb_size S ∧ is_free C b0 = true ∧ (∀ b, 0 ≤ b < b0 → is_free C b = false) ∧
    has_free k (alloc_content C b0).
Proof.
  intros K (fl & Hnd & Hl & Hfl). destruct fl as [|x fl]; [done|].
  destruct (Hfl x) as [Hx Hxf]; [apply elem_of_cons; by left|]. pose proof (g_pos C K) as Hd.
  destruct (lowest_or_none (is_free C) (Z.to_nat (sb_size S))) as [(b & Hb & Hbf & Hlow)|Hno].
  2:{ rewrite Hno in Hxf by lia. done. }
  assert (d0 ≤ b) as Hdb. { destruct (decide (b < d0)); [|lia]. rewrite (do_low _ K) in Hbf by lia. done. }
  exists b. split_and!; [lia|lia|done|done|].
  assert (∃ fl', NoDup fl' ∧ length fl' = k ∧ ∀ y, y ∈ fl' → y ∈ x :: fl ∧ y ≠ b) as (fl' & Hnd' & Hl' & Hin).
  { exists (take k (filter (λ y, y ≠ b) (x :: fl))). pose proof (filter_without b (x :: fl) Hnd) as Hlen. split_and!.
    - assert (NoDup (filter (λ y, y ≠ b) (x :: fl))) as Hn by (by apply NoDup_filter).
      rewrite <- (take_drop k) in Hn. by apply NoDup_app in Hn as [Hn _].
    - rewrite length_take. lia.
    - intros y Hy. apply elem_of_take in Hy as (j & Hy & _). apply list_elem_of_lookup_2 in Hy.
      apply list_elem_of_filter in Hy. tauto. }
  exists fl'. split_and!; [done|done|]. intros y Hy. destruct (Hin y Hy) as [Hy1 Hy2].
  destruct (Hfl y Hy1) as [Hr Hf]. split; [done|]. rewrite is_free_alloc by (done || lia). by rewrite decide_False.
Qed.

Lemma has_free_weaken k k' C : has_free k C → (k' ≤ k)%nat → has_free k' C.
Proof.
  intros (fl & Hn & Hl & Hf) Hk. exists (take k' fl). split_and!.
  - rewrite <- (take_drop k') in Hn. by apply NoDup_app in Hn as [Hn _].
  - rewrite length_take. lia.
  - intros b Hb. apply elem_of_take in Hb as (j & Hb & _). apply list_elem_of_lookup_2 in Hb. by apply Hf.
Qed.

(** A change of a used data block keeps the free blocks. *)
Lemma has_free_upd k C b d : disk_ok C → d0 ≤ b → has_free k C → has_free k (upd C b d).
Proof.
  intros K Hb (fl & Hn & Hl & Hf). pose proof (g_pos C K). exists fl. split_and!; [done|done|].
  intros x Hx. destruct (Hf x Hx) as [Hr Hfx]. split; [done|]. rewrite is_free_upd by (done || lia). done.
Qed.

(** ** Files *)

Lemma fbyte_same C a C' a' :
  (∀ bn, 0 ≤ bn < MAXFILE → fblock C' a' bn = fblock C a bn) →
  (∀ bn, 0 ≤ bn < MAXFILE → fblock C a bn ≠ 0 → C' (fblock C a bn) = C (fblock C a bn)) →
  ∀ o, 0 ≤ o < MAXFILE * BSIZE → fbyte C' a' o = fbyte C a o.
Proof.
  intros Hb Hc o Ho. unfold fbyte. change BSIZE with 1024 in *.
  assert (0 ≤ o / 1024 < MAXFILE) as Hr by (split; [apply Z.div_pos; lia|apply Z.div_lt_upper_bound; lia]).
  rewrite Hb by done. case_match eqn:E; [done|]. apply Z.eqb_neq in E. by rewrite Hc.
Qed.

(** A new data block, cleared, in place [bn]. *)
Lemma file_step C a C' a' bn r :
  file_ok C a → disk_ok C → 0 ≤ bn < MAXFILE → fblock C a bn = 0 → length a' = 13%nat →
  fblock C' a' bn = r → (∀ bn', 0 ≤ bn' < MAXFILE → bn' ≠ bn → fblock C' a' bn' = fblock C a bn') →
  d0 ≤ r < sb_size S → is_free C r = true → is_free C' r = false →
  (∀ b, 0 ≤ b < sb_size S → is_free C b = false → is_free C' b = false) → indirect a' = indirect a →
  C' r = zero_block → (∀ b, d0 ≤ b < sb_size S → is_free C b = false → b ≠ indirect a → C' b = C b) →
  file_ok C' a' ∧ ∀ o, 0 ≤ o < MAXFILE * BSIZE → fbyte C' a' o = fbyte C a o.
Proof.
  intros F K Hbn H0 Hl Hr Hoth Hrr Hrf Hru Hfree Hind Hz Hkeep. pose proof (g_pos C K) as Hd.
  assert (∀ bn', 0 ≤ bn' < MAXFILE → fblock C a bn' ≠ r) as Hne.
  { intros bn' Hb' E. destruct (fo_range _ _ F bn' Hb') as [_ Hf]; [lia|]. congruence. }
  assert (∀ bn', 0 ≤ bn' < MAXFILE → fblock C a bn' ≠ 0 → C' (fblock C a bn') = C (fblock C a bn')) as Hsame.
  { intros bn' Hb' Hnz. destruct (fo_range _ _ F bn' Hb' Hnz) as [Hr' Hf']. apply Hkeep; [done|done|].
    destruct (decide (indirect a = 0)) as [->|Hi]; [done|]. by apply (fo_apart _ _ F). }
  split.
  - split; [done| | | |].
    + intros bn' Hb' Hnz. destruct (decide (bn' = bn)) as [->|Hbb]; [by rewrite Hr|].
      rewrite Hoth in * by done. destruct (fo_range _ _ F bn' Hb' Hnz) as [Hr' Hf']. split; [done|]. apply Hfree; [lia|done].
    + intros bn1 bn2 H1 H2 Hnz E. destruct (decide (bn1 = bn)) as [->|E1], (decide (bn2 = bn)) as [->|E2]; try done.
      * rewrite Hr, (Hoth bn2) in E by done. by apply Hne in H2.
      * rewrite Hr, (Hoth bn1) in E by done. by apply Hne in H1.
      * rewrite !Hoth in * by done. by apply (fo_inj _ _ F).
    + rewrite Hind. intros Hi. destruct (fo_ind _ _ F Hi) as [Hri Hfi]. split; [done|]. apply Hfree; [lia|done].
    + rewrite Hind. intros bn' Hb' Hi. destruct (fo_ind _ _ F Hi) as [Hri Hfi].
      destruct (decide (bn' = bn)) as [->|Hbb]; [rewrite Hr; congruence|]. rewrite Hoth by done. by apply (fo_apart _ _ F).
  - intros o Ho. unfold fbyte. change BSIZE with 1024 in *.
    assert (0 ≤ o / 1024 < MAXFILE) as Hor by (split; [apply Z.div_pos; lia|apply Z.div_lt_upper_bound; lia]).
    destruct (decide (o / 1024 = bn)) as [->|Hbb].
    + rewrite Hr, H0, Hz. cbn [Z.eqb]. case_match; [done|]. unfold zero_block, nthZ.
      case_decide; [|done].
      rewrite nth_lookup. destruct (replicate _ 0 !! _) eqn:E; [|done]. by apply lookup_replicate in E as [-> _].
    + rewrite Hoth by done. case_match eqn:E; [done|]. apply Z.eqb_neq in E. by rewrite Hsame.
Qed.

(** A new indirect block, cleared. *)
Lemma file_indirect C a C' a' r :
  file_ok C a → disk_ok C → indirect a = 0 → length a' = 13%nat → indirect a' = r →
  (∀ bn, 0 ≤ bn < NDIRECT → nthZ 0 a' bn = nthZ 0 a bn) →
  d0 ≤ r < sb_size S → is_free C r = true → is_free C' r = false →
  (∀ b, 0 ≤ b < sb_size S → is_free C b = false → is_free C' b = false) →
  C' r = zero_block → (∀ b, d0 ≤ b < sb_size S → is_free C b = false → C' b = C b) →
  file_ok C' a' ∧ (∀ bn, 0 ≤ bn < MAXFILE → fblock C' a' bn = fblock C a bn) ∧
  ∀ o, 0 ≤ o < MAXFILE * BSIZE → fbyte C' a' o = fbyte C a o.
Proof.
  intros F K Hi0 Hl Hi' Hdir Hrr Hrf Hru Hfree Hz Hkeep. pose proof (g_pos C K) as Hd.
  assert (∀ bn, 0 ≤ bn < MAXFILE → fblock C' a' bn = fblock C a bn) as Hsame.
  { intros bn Hbn. unfold fblock. rewrite Hi0, Hi'. destruct (Z.ltb_spec bn NDIRECT); [apply Hdir; lia|].
    rewrite (proj2 (Z.eqb_neq r 0)) by lia. cbn [Z.eqb]. rewrite Hz. unfold uint_at, sub, zero_block.
    rewrite drop_replicate, take_replicate. change (Z.to_nat 4) with 4%nat.
    destruct (_ `min` _)%nat as [|[|[|[|[|n]]]]] eqn:E; try done. lia. }
  assert (∀ bn, 0 ≤ bn < MAXFILE → fblock C a bn ≠ 0 → C' (fblock C a bn) = C (fblock C a bn)) as Hcont.
  { intros bn Hb Hnz. destruct (fo_range _ _ F bn Hb Hnz) as [Hr Hf]. by apply Hkeep. }
  split_and!; [|done|by apply fbyte_same]. split; [done| | | |].
  - intros bn Hb Hnz. rewrite Hsame in * by done. destruct (fo_range _ _ F bn Hb Hnz) as [Hr Hf]. split; [done|]. apply Hfree; [lia|done].
  - intros bn1 bn2 H1 H2. rewrite !Hsame by done. by apply (fo_inj _ _ F).
  - rewrite Hi'. done.
  - intros bn Hb _. rewrite Hi', Hsame by done. intros E. destruct (fo_range _ _ F bn Hb) as [_ Hf]; [lia|]. congruence.
Qed.

(** ** [bmap] *)

(** How often [balloc] may switch. *)
Definition ballocs : nat := (Z.to_nat (sb_size S / BPB) + 2)%nat.
Definition not_bitmap (b : Z) : Prop := ∀ b', 0 ≤ b' < sb_size S → b ≠ BBLOCK b' S.

Lemma data_not_bitmap C b : disk_ok C → d0 ≤ b → not_bitmap b.
Proof. intros K Hb b' Hb' ->. pose proof (g_bmap _ _ _ (do_geom _ K) b' Hb'). lia. Qed.

(** The state of a file's inode: the addresses are [a']. *)
Definition ino_at (ip : nat) (i : inode) (a' : list Z) (s s' : kstate) : Prop :=
  itable s' = <[ip := set_i_addrs a' i]> (itable s).

Lemma get_ino ip i a s s' : itable s !! ip = Some i → ino_at ip i a s s' → nth ip (itable s') inode0 = set_i_addrs a i.
Proof.
  intros Hi E. apply nth_lookup_Some. rewrite E. apply list_lookup_insert_eq. by apply lookup_lt_Some in Hi.
Qed.

Lemma ino_at_refl ip i s s' : itable s !! ip = Some i → itable s' = itable s → ino_at ip i (i_addrs i) s s'.
Proof. intros Hi E. unfold ino_at. rewrite E, list_insert_id; [done|]. rewrite Hi. by destruct i. Qed.

(** The blocks of a file, the indirect block included. *)
Definition owns (C : Z → list Z) (a : list Z) (b : Z) : Prop :=
  b ≠ 0 ∧ (b = indirect a ∨ ∃ bn, 0 ≤ bn < MAXFILE ∧ b = fblock C a bn).

(** How a file operation changes the blocks [C], the addresses [a] and the transaction
    [bl]: the bytes are [w] afterwards, at most [k] blocks join the transaction, used
    blocks stay used, and those of other files keep their contents. *)
Record evolve (C : Z → list Z) (a : list Z) (bl : list Z) (C' : Z → list Z) (a' : list Z) (bl' : list Z) (k : nat) (w : Z → Z) : Prop := {
  ev_disk : disk_ok C';
  ev_file : file_ok C' a';
  ev_byte o : 0 ≤ o < MAXFILE * BSIZE → fbyte C' a' o = w o;
  ev_used b : 0 ≤ b < sb_size S → is_free C b = false → is_free C' b = false;
  ev_keep b : 0 ≤ b < sb_size S → is_free C b = false → not_bitmap b → ¬ owns C a b → C' b = C b;
  ev_own b : 0 ≤ b < sb_size S → is_free C b = false → owns C' a' b → owns C a b;
  ev_block bn : 0 ≤ bn < MAXFILE → fblock C a bn ≠ 0 → fblock C' a' bn = fblock C a bn;
  ev_len : (length bl' ≤ length bl + k)%nat
}.
Abbreviation grown C a bl C' a' bl' k := (evolve C a bl C' a' bl' k (fbyte C a)).

Lemma evolve_refl C a bl k : disk_ok C → file_ok C a → grown C a bl C a bl k.
Proof. intros K F. split; try done; lia. Qed.

Lemma evolve_trans C a bl C1 a1 bl1 k1 w1 C2 a2 bl2 k2 w2 :
  evolve C a bl C1 a1 bl1 k1 w1 → evolve C1 a1 bl1 C2 a2 bl2 k2 w2 → evolve C a bl C2 a2 bl2 (k1 + k2) w2.
Proof.
  intros [K1 F1 B1 U1 P1 O1 M1 L1] [K2 F2 B2 U2 P2 O2 M2 L2]. split; try done.
  - intros b Hb Hf. by apply U2, U1.
  - intros b Hb Hf Hnb Hno. rewrite P2; [by apply P1|done|by apply U1|done|]. intros Ho. by apply Hno, O1.
  - intros b Hb Hf Ho. apply O1, O2; [done|done|done|by apply U1|done].
  - intros bn Hb Hz. rewrite M2, M1; [done|done|done|done|by rewrite M1].
  - lia.
Qed.

Lemma evolve_weaken C a bl C' a' bl' k k' w w' :
  evolve C a bl C' a' bl' k w → (k ≤ k')%nat → (∀ o, 0 ≤ o < MAXFILE * BSIZE → w o = w' o) → evolve C a bl C' a' bl' k' w'.
Proof. intros [] Hk Hw. split; try done; [|lia]. intros o Ho. rewrite <- Hw by done. auto. Qed.

(** The blocks of a file after one of them was added. *)
Lemma owns_step C a C' a' b r :
  (indirect a' = indirect a ∨ indirect a' = r) →
  (∀ bn, 0 ≤ bn < MAXFILE → fblock C' a' bn = fblock C a bn ∨ fblock C' a' bn = r) →
  is_free C r = true → is_free C b = false → owns C' a' b → owns C a b.
Proof.
  intros Hi Hb Hr Hf [Hnz [->|(bn & Hbn & ->)]].
  - destruct Hi as [E|E]; rewrite E in *; [|congruence]. split; [done|by left].
  - destruct (Hb bn Hbn) as [E|E]; rewrite E in *; [|congruence]. split; [done|right; eauto].
Qed.

Lemma setZ_13 (a : list Z) j v : length a = 13%nat → length (setZ a j v) = 13%nat.
Proof. intros H. by rewrite setZ_length. Qed.

Lemma ino_at_alter ip i a bn b s s1 t :
  itable s !! ip = Some i → i_addrs i = a → itable s1 = itable s →
  t = alter (λ i, set_i_addrs (setZ (i_addrs i) bn b) i) ip (itable s1) →
  ino_at ip i (setZ a bn b) s (set_itable t s1).
Proof.
  intros Hi Ha Hit ->. unfold ino_at. cbn. rewrite Hit. apply list_eq. intros j. destruct (decide (j = ip)) as [->|Hj].
  - rewrite list_lookup_alter_eq, Hi. cbn. rewrite list_lookup_insert_eq by (by apply lookup_lt_Some in Hi). by rewrite Ha.
  - by rewrite list_lookup_alter_ne, list_lookup_insert_ne by done.
Qed.

(** A new indirect block of the inode. *)
Lemma indirect_grown C a bl b0 :
  disk_ok C → file_ok C a → indirect a = 0 → d0 ≤ b0 < sb_size S → is_free C b0 = true →
  let C' := alloc_content C b0 in let a' := setZ a NDIRECT b0 in
  b0 = indirect a' ∧ grown C a bl C' a' (alloc_blocks S bl b0) 2 ∧
  ∀ bn, 0 ≤ bn < MAXFILE → fblock C' a' bn = fblock C a bn.
Proof.
  intros K F Hi0 Hb0 Hb0f C' a'. pose proof (g_pos C K) as Hd. pose proof (g_size _ _ _ (do_geom _ K)) as Hsz.
  assert (indirect a' = b0) as Hia.
  { unfold indirect, a'. apply nthZ_setZ_eq. rewrite (fo_len _ _ F). change NDIRECT with 12. lia. }
  assert (∀ b, 0 ≤ b < sb_size S → is_free C b = false → is_free C' b = false) as Hused.
  { intros b Hb Hf. unfold C'. rewrite is_free_alloc by (done || lia). by case_decide. }
  destruct (file_indirect C a C' a' b0 F K Hi0) as (Ff & Hfb & Hby); try done.
  - apply setZ_13, (fo_len _ _ F).
  - intros bn Hbn. unfold a'. apply nthZ_setZ_ne. lia.
  - unfold C'. rewrite is_free_alloc by (done || lia). by rewrite decide_True.
  - apply alloc_content_new.
  - intros b Hb Hf. apply alloc_content_ne; [done|done|intros ->; congruence|apply (data_not_bitmap C b K); lia].
  - split_and!; [done| |done]. split; try done.
    + by apply disk_ok_alloc.
    + intros b Hb Hf Hnb _. apply alloc_content_ne; [done|done|intros ->; congruence|apply Hnb; lia].
    + intros b Hb Hf. apply (owns_step C a C' a' b b0); [by right| |done|done]. intros bn Hbn. left. by apply Hfb.
    + intros bn Hbn _. by apply Hfb.
    + unfold alloc_blocks. pose proof (add_block_length bl (BBLOCK b0 S)).
      pose proof (add_block_length (add_block bl (BBLOCK b0 S)) b0). lia.
Qed.

(** The indirect block. *)
Lemma ensure_indirect C a bl s ip i k :
  tx C [] bl s → sb s = S → disk_ok C → file_ok C a → has_free (Datatypes.S k) C → tx_room lg0 2 bl → (length bl < 29)%nat →
  itable s !! ip = Some i → i_dev i = ROOTDEV → i_addrs i = a → (ballocs ≤ sched_left s)%nat →
  wp (if indirect a =? 0 then
        addr ← balloc (i_dev i);
        when (negb (addr =? 0)) (upd_inode ip (λ i, set_i_addrs (setZ (i_addrs i) NDIRECT addr) i));;
        mret addr
      else mret (indirect a))
    (λ r s', ∃ C' a' bl', r = indirect a' ∧ r ≠ 0 ∧ tx C' [] bl' s' ∧ ino_at ip i a' s s' ∧
      grown C a bl C' a' bl' 2 ∧ (∀ bn, 0 ≤ bn < MAXFILE → fblock C' a' bn = fblock C a bn) ∧
      has_free k C' ∧ txframe ballocs s s') s.
Proof.
  intros T HS K F Hfr Hroom Hbl Hi Hdev Ha Hs. pose proof (g_pos C K) as Hd. pose proof (g_size _ _ _ (do_geom _ K)) as Hsz.
  destruct (Z.eqb_spec (indirect a) 0) as [Hi0|Hi0].
  - destruct (next_free k C K Hfr) as (b0 & Hb0 & Hb0f & Hlow & Hfr').
    rewrite Hdev. apply wp_bind. eapply wp_mono.
    { apply (balloc_ok lg0 D hist S d0 C [] bl s b0 (do_geom _ K) T); try done.
      - intros b Hb. apply not_elem_of_nil.
      - apply not_elem_of_nil.
      - cbn. lia. }
    intros r s1 (-> & T1 & F1 & Hit1); cbn beta in *. rewrite (proj2 (Z.eqb_neq b0 0)) by lia. cbn [negb when].
    apply wp_bind, wp_modify, wp_ret. destruct (indirect_grown C a bl b0 K F Hi0 Hb0 Hb0f) as (Hia & G & Hfb).
    exists (alloc_content C b0), (setZ a NDIRECT b0), (alloc_blocks S bl b0). split_and!; try done.
    + lia.
    + by apply tx_itable.
    + by apply ino_at_alter.
    + replace ballocs with (ballocs + 0)%nat by lia. eapply txframe_trans; [exact F1|]. apply txframe_itable.
  - apply wp_ret. exists C, a, bl. split_and!; try done.
    + rewrite <- Ha. by apply ino_at_refl.
    + by apply evolve_refl.
    + eapply has_free_weaken; [exact Hfr|lia].
    + eapply txframe_weaken; [apply txframe_refl|lia].
Qed.

(** The addresses in an indirect block. *)
Lemma uint_at_splice data m m' v :
  length data = Z.to_nat BSIZE → 0 ≤ m < NINDIRECT → 0 ≤ m' < NINDIRECT → 0 ≤ v < 2 ^ 32 →
  uint_at (splice data (4 * m) (le_bytes 4 v)) (4 * m') = if decide (m' = m) then v else uint_at data (4 * m').
Proof.
  intros Hl Hm Hm' Hv. change BSIZE with 1024 in Hl. change NINDIRECT with 256 in *.
  unfold uint_at. rewrite <- (Z.add_0_r (4 * m')). case_decide as E.
  - subst m'. rewrite sub_splice_in by (cbn [length le_bytes]; lia).
    change (sub (le_bytes 4 v) 0 4) with (le_bytes 4 v). by apply u32_le_val.
  - rewrite sub_splice_out; [done|lia|cbn [length le_bytes]; lia|lia|lia|]. cbn [length le_bytes]. lia.
Qed.

(** A new data block in the indirect block. *)
Definition entry_content (C : Z → list Z) (x m b1 : Z) : Z → list Z :=
  upd (alloc_content C b1) x (splice (alloc_content C b1 x) (4 * m) (le_bytes 4 b1)).

Lemma entry_grown C a bl bn b1 bl' :
  disk_ok C → file_ok C a → indirect a ≠ 0 → NDIRECT ≤ bn < MAXFILE → fblock C a bn = 0 →
  d0 ≤ b1 < sb_size S → is_free C b1 = true → (length bl' ≤ length bl + 3)%nat →
  let C' := entry_content C (indirect a) (bn - NDIRECT) b1 in
  fblock C' a bn = b1 ∧ grown C a bl C' a bl' 3 ∧
  ∀ bn', 0 ≤ bn' < MAXFILE → bn' ≠ bn → fblock C' a bn' = fblock C a bn'.
Proof.
  intros K F Hi Hbn H0 Hb1 Hb1f Hbl C'. pose proof (g_pos C K) as Hd. pose proof (g_size _ _ _ (do_geom _ K)) as Hsz.
  destruct (fo_ind _ _ F Hi) as [Hxr Hxf]. set (x := indirect a) in *.
  pose proof (disk_ok_alloc C b1 K Hb1) as K1.
  assert (x ≠ b1) as Hxb by (intros E; rewrite E in Hxf; congruence).
  assert (alloc_content C b1 x = C x) as Ex.
  { apply alloc_content_ne; [done|done|done|]. apply (data_not_bitmap C x K); lia. }
  set (m := bn - NDIRECT) in *. assert (0 ≤ m < NINDIRECT) as Hm by (unfold m; change MAXFILE with (NDIRECT + NINDIRECT) in Hbn; lia).
  assert (C' x = splice (C x) (4 * m) (le_bytes 4 b1)) as EC by (unfold C', entry_content; by rewrite upd_eq, Ex).
  assert (∀ bn', NDIRECT ≤ bn' < MAXFILE → fblock C' a bn' = if decide (bn' = bn) then b1 else fblock C a bn') as Hfb.
  { intros bn' Hb'. unfold fblock. rewrite (proj2 (Z.ltb_ge _ _)) by lia. fold x. rewrite (proj2 (Z.eqb_neq x 0)) by done.
    rewrite EC, uint_at_splice; [|apply K|done| |lia].
    - destruct (decide (bn' = bn)) as [->|Hne]; [by rewrite decide_True|rewrite decide_False; [done|unfold m; lia]].
    - change MAXFILE with (NDIRECT + NINDIRECT) in Hb'. lia. }
  assert (fblock C' a bn = b1) as Hhere by (rewrite Hfb by done; by rewrite decide_True).
  assert (∀ b, 0 ≤ b < sb_size S → is_free C' b = if decide (b = b1) then false else is_free C b) as Hfree.
  { intros b Hb. unfold C', entry_content. rewrite is_free_upd by (done || lia). by apply is_free_alloc. }
  assert (∀ b, b ≠ b1 → b ≠ BBLOCK b1 S → b ≠ x → C' b = C b) as Hkeep.
  { intros b E1 E2 E3. unfold C', entry_content. rewrite upd_ne by done. by apply alloc_content_ne. }
  assert (0 ≤ NDIRECT) as Hnd by done.
  assert (∀ bn', 0 ≤ bn' < MAXFILE → bn' ≠ bn → fblock C' a bn' = fblock C a bn') as Hoth.
  { intros bn' Hb' Hne. destruct (decide (bn' < NDIRECT)).
    - unfold fblock. by rewrite (proj2 (Z.ltb_lt _ _)) by lia.
    - rewrite Hfb by lia. by rewrite decide_False. }
  destruct (file_step C a C' a bn b1 F K ltac:(lia) H0) as [Ff Hby]; try done.
  - apply (fo_len _ _ F).
  - rewrite Hfree by lia. by rewrite decide_True.
  - intros b Hb Hf. rewrite Hfree by lia. by case_decide.
  - unfold C', entry_content. rewrite upd_ne by done. apply alloc_content_new.
  - intros b Hb Hf Hni. apply Hkeep; [intros ->; congruence|apply (data_not_bitmap C b K); lia|done].
  - split_and!; [done| |done]. split; try done.
    + unfold C', entry_content. apply disk_ok_upd; [done|lia|]. rewrite splice_length; [apply K1|lia|].
      rewrite (do_len _ K1). change (Z.to_nat BSIZE) with 1024%nat. change NINDIRECT with 256 in Hm. cbn [length le_bytes]. lia.
    + intros b Hb Hf. rewrite Hfree by lia. by case_decide.
    + intros b Hb Hf Hnb Hni. apply Hkeep; [intros ->; congruence|apply Hnb; lia|].
      intros ->. apply Hni. split; [done|by left].
    + intros b Hb Hf. apply (owns_step C a C' a b b1); [by left| |done|done]. intros bn' Hb'.
      destruct (decide (bn' < NDIRECT)); [left; unfold fblock; by rewrite (proj2 (Z.ltb_lt _ _)) by lia|].
      rewrite Hfb by lia. case_decide; [by right|by left].
    + intros bn' Hb' Hz. destruct (decide (bn' < NDIRECT)); [unfold fblock; by rewrite (proj2 (Z.ltb_lt _ _)) by lia|].
      rewrite Hfb by lia. case_decide; [subst bn'; done|done].
Qed.

(** The second half of [bmap]: the entry of the indirect block. *)
Lemma indirect_entry C a bl s ip i bn k :
  tx C [] bl s → sb s = S → disk_ok C → file_ok C a → has_free (Datatypes.S k) C → tx_room lg0 3 bl → (length bl < 27)%nat →
  nth ip (itable s) inode0 = i → i_dev i = ROOTDEV → indirect a ≠ 0 → NDIRECT ≤ bn < MAXFILE →
  (ballocs + 1 ≤ sched_left s)%nat →
  wp (i ← get_inode ip;
      bp ← bread (i_dev i) (indirect a);
      bf ← get_buf bp;
      let addr := uint_at (b_data bf) (4 * (bn - NDIRECT)) in
      addr ← (if addr =? 0 then
                i ← get_inode ip;
                addr ← balloc (i_dev i);
                when (negb (addr =? 0)) (
                  upd_buf bp (λ bf, set_b_data (splice (b_data bf) (4 * (bn - NDIRECT)) (le_bytes 4 addr)) bf);;
                  log_write bp);;
                mret addr
              else mret addr);
      brelse bp;;
      mret addr)
    (λ r s', ∃ C' bl', r ≠ 0 ∧ r = fblock C' a bn ∧ tx C' [] bl' s' ∧ itable s' = itable s ∧
      grown C a bl C' a bl' 3 ∧ has_free k C' ∧ txframe (ballocs + 1) s s') s.
Proof.
  intros T HS K F Hfr Hroom Hbl Hi Hdev Hind Hbn Hs. pose proof (g_pos C K) as Hd. pose proof (g_size _ _ _ (do_geom _ K)) as Hsz.
  pose proof (g_log _ _ _ (do_geom _ K)) as Hlog.
  destruct (fo_ind _ _ F Hind) as [Hxr Hxf]. set (x := indirect a) in *.
  apply wp_bind, wp_gets. rewrite Hi, Hdev. apply wp_bind. eapply wp_mono.
  { apply (tx_bread lg0 D hist C [] bl s x T); [unfold blk_ok; lia|apply not_elem_of_nil|cbn; lia|lia]. }
  intros j s1 [T1 F1]; cbn beta in *. destruct (bframe_facts _ _ _ F1) as (_ & _ & HS1 & Hit1 & Hsl1).
  apply wp_bind, wp_gets. rewrite (tx_buf _ _ _ _ _ _ _ j x T1) by (apply elem_of_cons; by left).
  cbv zeta. assert (uint_at (C x) (4 * (bn - NDIRECT)) = fblock C a bn) as Efb.
  { unfold fblock. fold x. rewrite (proj2 (Z.ltb_ge _ _)) by lia. by rewrite (proj2 (Z.eqb_neq x 0)). }
  rewrite Efb. destruct (Z.eqb_spec (fblock C a bn) 0) as [H0|H0].
  - destruct (next_free k C K Hfr) as (b1 & Hb1 & Hb1f & Hlow & Hfr').
    apply wp_bind, wp_bind, wp_gets. rewrite Hit1, Hi, Hdev. apply wp_bind. eapply wp_mono.
    { apply (balloc_ok lg0 D hist S d0 C [(j, x)] bl s1 b1 (do_geom _ K) T1); try done.
      - congruence.
      - intros b Hb. cbn. rewrite list_elem_of_singleton. intros E. by apply (data_not_bitmap C x K ltac:(lia) b Hb).
      - cbn. rewrite list_elem_of_singleton. intros E. rewrite <- E in Hxf. congruence.
      - destruct Hroom. split; lia.
      - cbn. lia.
      - unfold ballocs in Hs. lia. }
    intros r s2 (-> & T2 & F2 & Hit2); cbn beta in *. destruct (txframe_facts _ _ _ F2) as (_ & _ & _ & Hsl2).
    rewrite (proj2 (Z.eqb_neq b1 0)) by lia. cbn [negb when].
    pose proof (add_block_length bl (BBLOCK b1 S)) as Hal1. pose proof (add_block_length (add_block bl (BBLOCK b1 S)) b1) as Hal2.
    fold (alloc_blocks S bl b1) in Hal2.
    apply wp_bind. eapply wp_mono.
    { apply (tx_write lg0 D hist _ [] _ s2 j x (λ d, splice d (4 * (bn - NDIRECT)) (le_bytes 4 b1))
        (splice (alloc_content C b1 x) (4 * (bn - NDIRECT)) (le_bytes 4 b1)) T2);
        [split; [unfold blk_ok; lia|right; lia]|destruct Hroom; split; lia|cbn; lia|reflexivity|].
      pose proof (disk_ok_alloc C b1 K Hb1) as K1. rewrite splice_length; [apply K1|lia|].
      rewrite (do_len _ K1). change (Z.to_nat BSIZE) with 1024%nat. change MAXFILE with (NDIRECT + 256) in Hbn. cbn [length le_bytes]. lia. }
    intros ? s3 (T3 & F3 & Hit3); cbn beta in *. apply wp_ret.
    apply wp_bind. eapply wp_mono; [by apply tx_brelse in T3|]. intros ? s4 [T4 F4]; cbn beta in *.
    destruct (bframe_facts _ _ _ F4) as (_ & _ & _ & Hit4 & _). apply wp_ret.
    pose proof (add_block_length (alloc_blocks S bl b1) x) as Hal3.
    destruct (entry_grown C a bl bn b1 (add_block (alloc_blocks S bl b1) x) K F Hind Hbn H0 Hb1 Hb1f) as (Hhere & G & _); [lia|].
    fold x in Hhere, G. exists (entry_content C x (bn - NDIRECT) b1), (add_block (alloc_blocks S bl b1) x).
    split_and!; try done; [lia|congruence| |].
    + unfold entry_content. apply has_free_upd; [by apply disk_ok_alloc|lia|done].
    + apply (txframe_weaken (1 + (ballocs + (0 + 0)))); [|lia].
      eapply txframe_trans; [by apply txframe_bframe|]. eapply txframe_trans; [exact F2|].
      eapply txframe_trans; [exact F3|by apply txframe_bframe].
  - apply wp_bind, wp_ret. apply wp_bind. eapply wp_mono; [by apply tx_brelse in T1|]. intros ? s4 [T4 F4]; cbn beta in *.
    destruct (bframe_facts _ _ _ F4) as (_ & _ & _ & Hit4 & _). apply wp_ret.
    exists C, bl. split_and!; try done; [congruence| | |].
    + by apply evolve_refl.
    + eapply has_free_weaken; [exact Hfr|lia].
    + apply (txframe_weaken (1 + 0)); [|lia]. eapply txframe_trans; by apply txframe_bframe.
Qed.

(** A new block of the inode itself. *)
Lemma direct_grown C a bl bn b0 :
  disk_ok C → file_ok C a → 0 ≤ bn < NDIRECT → fblock C a bn = 0 → d0 ≤ b0 < sb_size S → is_free C b0 = true →
  let C' := alloc_content C b0 in let a' := setZ a bn b0 in
  b0 = fblock C' a' bn ∧ grown C a bl C' a' (alloc_blocks S bl b0) 2 ∧ indirect a' = indirect a ∧
  ∀ bn', 0 ≤ bn' < MAXFILE → bn' ≠ bn → fblock C' a' bn' = fblock C a bn'.
Proof.
  intros K F Hbn H0 Hb0 Hb0f C' a'. pose proof (g_pos C K) as Hd. pose proof (g_size _ _ _ (do_geom _ K)) as Hsz.
  change NDIRECT with 12 in Hbn. pose proof (fo_len _ _ F) as Hla.
  assert (indirect a' = indirect a) as Hia by (unfold indirect, a'; apply nthZ_setZ_ne; change NDIRECT with 12; lia).
  assert (∀ b, d0 ≤ b < sb_size S → is_free C b = false → C' b = C b) as Hkeep.
  { intros b Hb Hf. apply alloc_content_ne; [done|done|intros ->; congruence|apply (data_not_bitmap C b K); lia]. }
  assert (fblock C' a' bn = b0) as Hhere.
  { unfold fblock. rewrite (proj2 (Z.ltb_lt _ _)) by (change NDIRECT with 12; lia). unfold a'. apply nthZ_setZ_eq. lia. }
  assert (0 ≤ bn < MAXFILE) as Hbm by (change MAXFILE with 268; lia).
  assert (∀ bn', 0 ≤ bn' < MAXFILE → bn' ≠ bn → fblock C' a' bn' = fblock C a bn') as Hoth.
  { intros bn' Hb' Hne. unfold fblock. rewrite Hia. destruct (Z.ltb_spec bn' NDIRECT).
    - unfold a'. apply nthZ_setZ_ne. lia.
    - destruct (Z.eqb_spec (indirect a) 0) as [|Hi]; [done|]. destruct (fo_ind _ _ F Hi) as [Hr Hf]. by rewrite Hkeep. }
  destruct (file_step C a C' a' bn b0 F K Hbm H0) as [Ff Hby]; try done.
  - by apply setZ_13.
  - unfold C'. rewrite is_free_alloc by (done || lia). by rewrite decide_True.
  - intros b Hb Hf. unfold C'. rewrite is_free_alloc by (done || lia). by case_decide.
  - apply alloc_content_new.
  - intros b Hb Hf _. by apply Hkeep.
  - split_and!; [done| |done|done]. split; try done.
    + by apply disk_ok_alloc.
    + intros b Hb Hf. unfold C'. rewrite is_free_alloc by (done || lia). by case_decide.
    + intros b Hb Hf Hnb _. apply alloc_content_ne; [done|done|intros ->; congruence|apply Hnb; lia].
    + intros b Hb Hf. apply (owns_step C a C' a' b b0); [by left| |done|done]. intros bn' Hb'.
      destruct (decide (bn' = bn)) as [->|]; [by right|left; by apply Hoth].
    + intros bn' Hb' Hz. apply Hoth; [done|]. by intros ->.
    + unfold alloc_blocks. pose proof (add_block_length bl (BBLOCK b0 S)).
      pose proof (add_block_length (add_block bl (BBLOCK b0 S)) b0). lia.
Qed.

(** [bmap] makes room for block [bn] of the file and changes no byte of it. *)
Lemma bmap_ok C a bl s ip i bn k :
  tx C [] bl s → sb s = S → disk_ok C → file_ok C a → has_free (Datatypes.S (Datatypes.S k)) C → tx_room lg0 5 bl → (length bl < 25)%nat →
  itable s !! ip = Some i → i_dev i = ROOTDEV → i_addrs i = a → 0 ≤ bn < MAXFILE → (2 * ballocs + 1 ≤ sched_left s)%nat →
  wp (bmap ip bn)
    (λ r s', ∃ C' a' bl', r ≠ 0 ∧ r = fblock C' a' bn ∧ tx C' [] bl' s' ∧ ino_at ip i a' s s' ∧
      grown C a bl C' a' bl' 5 ∧ has_free k C' ∧ txframe (2 * ballocs + 1) s s') s.
Proof.
  intros T HS K F Hfr [Hr1 Hr2] Hbl Hi Hdev Ha Hbn Hs. pose proof (g_pos C K) as Hd. pose proof (g_size _ _ _ (do_geom _ K)) as Hsz.
  assert (nth ip (itable s) inode0 = i) as Hino by (by apply nth_lookup_Some).
  unfold bmap. apply wp_bind, wp_gets. rewrite Hino, Ha. destruct (Z.ltb_spec bn NDIRECT) as [Hdir|Hdir].
  - assert (nthZ 0 a bn = fblock C a bn) as Efb by (unfold fblock; by rewrite (proj2 (Z.ltb_lt _ _))).
    cbv zeta. rewrite Efb. destruct (Z.eqb_spec (fblock C a bn) 0) as [H0|H0].
    + destruct (next_free (Datatypes.S k) C K Hfr) as (b0 & Hb0 & Hb0f & Hlow & Hfr').
      rewrite Hdev. apply wp_bind. eapply wp_mono.
      { apply (balloc_ok lg0 D hist S d0 C [] bl s b0 (do_geom _ K) T); try done.
        - intros b Hb. apply not_elem_of_nil.
        - apply not_elem_of_nil.
        - split; lia.
        - cbn. lia.
        - unfold ballocs in Hs. lia. }
      intros r s1 (-> & T1 & F1 & Hit1); cbn beta in *. rewrite (proj2 (Z.eqb_neq b0 0)) by lia.
      apply wp_bind, wp_modify, wp_ret. destruct (direct_grown C a bl bn b0 K F ltac:(lia) H0 Hb0 Hb0f) as (Hhere & G & _).
      exists (alloc_content C b0), (setZ a bn b0), (alloc_blocks S bl b0). split_and!; try done.
      * lia.
      * by apply tx_itable.
      * by apply ino_at_alter.
      * by eapply evolve_weaken; [exact G|lia|].
      * eapply has_free_weaken; [exact Hfr'|lia].
      * apply (txframe_weaken (ballocs + 0)); [|lia]. eapply txframe_trans; [exact F1|]. apply txframe_itable.
    + apply wp_ret. exists C, a, bl. split_and!; try done.
      * rewrite <- Ha. by apply ino_at_refl.
      * by apply evolve_refl.
      * eapply has_free_weaken; [exact Hfr|lia].
      * eapply txframe_weaken; [apply txframe_refl|lia].
  - cbv zeta. change (nthZ 0 a NDIRECT) with (indirect a). rewrite (proj2 (Z.ltb_lt (bn - NDIRECT) NINDIRECT)).
    2:{ change MAXFILE with (NDIRECT + NINDIRECT) in Hbn. lia. }
    apply wp_bind. eapply wp_mono.
    { eapply (ensure_indirect C a bl s ip i (Datatypes.S k)); try done; [split; lia|lia|lia]. }
    intros r s1 (C1 & a1 & bl1 & -> & Hrnz & T1 & I1 & G1 & Hsame & Hfr1 & F1); cbn beta in *.
    destruct (txframe_facts _ _ _ F1) as (_ & HS1 & _ & Hsl1). pose proof (ev_len _ _ _ _ _ _ _ _ G1) as Hl1.
    rewrite (proj2 (Z.eqb_neq (indirect a1) 0)) by done.
    eapply wp_mono.
    { apply (indirect_entry C1 a1 bl1 s1 ip (set_i_addrs a1 i) bn k); try done.
      - congruence.
      - apply G1.
      - apply G1.
      - split; lia.
      - lia.
      - by eapply get_ino.
      - lia.
      - lia. }
    intros r s2 (C2 & bl2 & Hr & Hrf & T2 & Hit2 & G2 & Hfr2 & F2); cbn beta in *.
    exists C2, a1, bl2. split_and!; try done.
    + unfold ino_at in *. congruence.
    + eapply evolve_weaken; [by eapply evolve_trans|lia|]. apply G1.
    + apply (txframe_weaken (ballocs + (ballocs + 1))); [|lia]. by eapply txframe_trans.
Qed.
End map.
