(* ===== verification/FsWrite.v ===== *)
(** * Writing files: [writei] and [iupdate] of kernel/fs.c

    Inside a transaction [writei] stores the bytes of its source at an offset of a file,
    allocates the blocks that are missing, and brings the inode on disk up to date; the
    bytes around them and the blocks of other files stay as they are. *)

From S2P Require Import Prelude Machine State Spinlock KString Kalloc Vm PageTable VmOps UserMem Proc Sched Sleeplock Virtio VirtioProofs Bio LruProofs BlockSpec BioInv BioProofs BioBoot Log LogOps LogCommit LogTrans LogRecover LogSafe.
From S2P Require Import Uart Printf Console Fs FsData FsTx FsMap.

(** ** Overwriting part of a file *)

(** The bytes [w] with [bs] stored at [off]. *)
Definition over (w : Z → Z) (off : Z) (bs : list Z) (o : Z) : Z :=
  if decide (off ≤ o < off + Z.of_nat (length bs)) then nthZ 0 bs (o - off) else w o.

Lemma over_nil w off o : over w off [] o = w o.
Proof. unfold over. rewrite decide_False; [done|]. cbn. lia. Qed.

Lemma over_app w off bs1 bs2 o :
  over (over w off bs1) (off + Z.of_nat (length bs1)) bs2 o = over w off (bs1 ++ bs2) o.
Proof.
  unfold over. rewrite length_app. unfold nthZ. repeat case_decide; try lia; try done.
  - rewrite app_nth2 by lia. f_equal. lia.
  - rewrite app_nth1 by lia. done.
Qed.

Lemma sub_split l o m n :
  0 ≤ o → 0 ≤ m ≤ n → sub l o n = sub l o m ++ sub l (o + m) (n - m).
Proof.
  intros Ho Hm. unfold sub. replace (Z.to_nat n) with (Z.to_nat m + Z.to_nat (n - m))%nat by lia.
  rewrite <- take_take_drop. f_equal. rewrite drop_drop. do 2 f_equal. lia.
Qed.

Lemma sub_len l o n : 0 ≤ o → 0 ≤ n → o + n ≤ Z.of_nat (length l) → length (sub l o n) = Z.to_nat n.
Proof. intros. unfold sub. rewrite length_take, length_drop. lia. Qed.

Lemma sub_all l : sub l 0 (Z.of_nat (length l)) = l.
Proof. unfold sub. rewrite Nat2Z.id, drop_0. by apply take_ge. Qed.

Lemma nthZ_splice l off bs j :
  0 ≤ off → (Z.to_nat off + length bs ≤ length l)%nat → 0 ≤ j →
  nthZ 0 (splice l off bs) j = over (nthZ 0 l) off bs j.
Proof.
  intros Ho Hl Hj. unfold over, nthZ. rewrite decide_True by done. rewrite nth_lookup, splice_lookup by done.
  repeat case_decide; try lia; rewrite nth_lookup; do 2 f_equal. lia.
Qed.

(** ** Where the bytes come from *)

(** The memory that [either_copyin] reads is the same. *)
Definition same_user (s s' : kstate) : Prop :=
  cs s' = cs s ∧ pmem s' = pmem s ∧ ∀ p, cur_proc s = Some p → proc_tab s' !! p = proc_tab s !! p.

Lemma same_user_refl s : same_user s s.
Proof. done. Qed.
Lemma same_user_trans s s1 s2 : same_user s s1 → same_user s1 s2 → same_user s s2.
Proof.
  intros (A1 & A2 & A3) (B1 & B2 & B3). split_and!; [congruence|congruence|]. intros p Hp.
  rewrite B3; [by apply A3|]. unfold cur_proc in *. by rewrite A1.
Qed.
Lemma txframe_user k s s' : txframe k s s' → same_user s s'.
Proof. intros (lg & t & sl & bc & vd & pt & n & -> & Hj & Hl & Hp & Hn). split_and!; [done|done|]. intros p Hc. by apply Hp. Qed.
Lemma bframe_user k s s' : bframe k s s' → same_user s s'.
Proof. intros F. by eapply txframe_user, txframe_bframe. Qed.

Section source.
Context `{L : Layout} `{Oth : Others}.

(** The source [sr] holds [bytes]. *)
Definition supplies (sr : source) (bytes : list Z) (s : kstate) : Prop :=
  ∀ tot m s', 0 ≤ tot → 0 < m → tot + m ≤ Z.of_nat (length bytes) → same_user s s' →
    either_copyin (src_at sr tot) m s' = Ret (0, sub bytes tot m) s'.

Lemma supplies_user s s' sr bytes : same_user s s' → supplies sr bytes s → supplies sr bytes s'.
Proof. intros U H tot m s2 H1 H2 H3 U2. apply H; try done. by eapply same_user_trans. Qed.

(** A variable of the kernel. *)
Lemma supplies_var bytes s : cs_ok 0 (cs s) → supplies (VarSrc bytes) bytes s.
Proof.
  intros Hc tot m s' H1 H2 H3 (U1 & _). unfold either_copyin.
  erewrite bind_ret; [|apply (myproc_eq 0); by rewrite U1]. done.
Qed.

(** A buffer of the kernel. *)
Lemma supplies_kern pa n s : cs_ok 0 (cs s) → supplies (KernSrc pa) (rdn (pmem s) pa n) s.
Proof.
  intros Hc tot m s' H1 H2 H3 (U1 & U2 & _). unfold either_copyin.
  erewrite bind_ret; [|apply (myproc_eq 0); by rewrite U1]. unfold gets. cbn. rewrite U2. do 2 f_equal.
  rewrite rdn_length in H3. apply list_eq. intros j. rewrite sub_lookup. case_decide as Hj.
  - rewrite !rdn_lookup by lia. do 2 f_equal. lia.
  - apply lookup_ge_None. rewrite rdn_length. lia.
Qed.

Lemma uread_length m root va n bs : uread m root va n = Some bs → length bs = n.
Proof.
  revert va bs. induction n as [|n IH]; intros va bs; cbn [uread].
  - by intros [= <-].
  - destruct (rpa m root va); [|done]. cbn [mbind option_bind]. destruct (uread m root (va + 1) n) eqn:E; [|done].
    intros [= <-]. cbn. f_equal. by eapply IH.
Qed.

Lemma uread_sub m root va n bs tot k :
  uread m root va n = Some bs → (tot + k ≤ n)%nat →
  uread m root (va + Z.of_nat tot) k = Some (take k (drop tot bs)).
Proof.
  intros H Hn. replace n with (tot + (k + (n - tot - k)))%nat in H by lia.
  rewrite uread_app in H. destruct (uread m root va tot) as [b1|] eqn:E1; [|done]. cbn [mbind option_bind] in H.
  rewrite uread_app in H. destruct (uread m root (va + Z.of_nat tot) k) as [b2|] eqn:E2; [|done]. cbn [mbind option_bind] in H.
  destruct (uread m root _ (n - tot - k)) as [b3|]; [|done]. injection H as <-. f_equal.
  apply uread_length in E1. apply uread_length in E2. rewrite <- E1, drop_app_length. by rewrite <- E2, take_app_length.
Qed.

(** Memory of the current process. *)
Lemma supplies_uread T root s va bytes p pr :
  T !! root = Some 2%nat → pt_wf (pmem s) T → cs_ok 0 (cs s) → cur_proc s = Some p →
  proc_tab s !! p = Some pr → p_pagetable pr = root → 0 ≤ va → va + Z.of_nat (length bytes) ≤ 2 ^ 64 →
  uread (pmem s) root va (length bytes) = Some bytes → supplies (UserSrc va) bytes s.
Proof.
  intros HT Hwf Hc Hp Hpr Hroot Hva Hend Hrd tot m s' H1 H2 H3 (U1 & U2 & U3). unfold either_copyin, src_at.
  erewrite bind_ret; [|apply (myproc_eq 0); by rewrite U1].
  assert (cur_proc s' = Some p) as -> by (unfold cur_proc in *; by rewrite U1).
  erewrite bind_ret; [|reflexivity]. erewrite bind_ret; [|reflexivity].
  rewrite (nth_lookup_Some _ _ _ _ (eq_trans (U3 p Hp) Hpr)), Hroot. rewrite u64_small by lia.
  assert (pt_wf (pmem s') T) as Hwf' by (by rewrite U2).
  destruct (copyin_loop_eq T root HT s' (Z.to_nat m) (Z.to_nat m) (va + tot) [] Hwf') as (r & bs & E & Hs); [lia|lia|].
  unfold copyin. rewrite Z2Nat.id in E by lia. rewrite E. unfold copyin_spec in Hs. rewrite U2 in Hs.
  replace tot with (Z.of_nat (Z.to_nat tot)) in Hs by lia. rewrite (uread_sub _ _ _ _ _ _ _ Hrd) in Hs by lia.
  destruct Hs as [-> ->]. done.
Qed.
End source.

(** ** Changing a block of a file *)

Section write.
Context `{L : Layout} `{Oth : Others} {B : BlockIO} {BL : BlockLaws B}.
Context (lg0 : log_state) (D : Z → list Z) (hist : list (Z * list Z)) (S : superblock) (d0 : Z).
Abbreviation tx := (tx lg0 D hist).
Abbreviation is_free := (is_free S).
Abbreviation disk_ok := (disk_ok lg0 S d0).
Abbreviation file_ok := (file_ok S d0).
Abbreviation has_free := (has_free S d0).
Abbreviation evolve := (evolve lg0 S d0).
Abbreviation ballocs := (ballocs S).

Lemma div_block o : 0 ≤ o < MAXFILE * BSIZE → 0 ≤ o / BSIZE < MAXFILE.
Proof. change BSIZE with 1024. intros Ho. split; [apply Z.div_pos; lia|apply Z.div_lt_upper_bound; lia]. Qed.

(** New contents [d] for block [bn] of a file. *)
Lemma file_write C a bl bn d k :
  disk_ok C → file_ok C a → 0 ≤ bn < MAXFILE → fblock C a bn ≠ 0 → length d = Z.to_nat BSIZE →
  let x := fblock C a bn in
  evolve C a bl (upd C x d) a (add_block bl x) (Datatypes.S k)
    (λ o, if decide (o / BSIZE = bn) then nthZ 0 d (o mod BSIZE) else fbyte C a o).
Proof.
  intros K F Hbn Hnz Hd x. destruct (fo_range _ _ _ _ F bn Hbn Hnz) as [Hx Hxf]. fold x in Hx, Hxf.
  pose proof (g_pos _ _ _ C K) as Hd0.
  assert (∀ b, 0 ≤ b < sb_size S → is_free (upd C x d) b = is_free C b) as Hfree.
  { intros b Hb. eapply is_free_upd; [exact K|lia|done]. }
  assert (∀ bn', 0 ≤ bn' < MAXFILE → fblock (upd C x d) a bn' = fblock C a bn') as Hsame.
  { intros bn' Hb'. unfold fblock. destruct (bn' <? NDIRECT) eqn:E1; [done|]. destruct (Z.eqb_spec (indirect a) 0) as [|Hi]; [done|].
    rewrite upd_ne; [done|]. intros E. by apply (fo_apart _ _ _ _ F bn Hbn Hi). }
  split.
  - apply disk_ok_upd; [done|lia|done].
  - destruct (F) as [F1 F2 F3 F4 F5]. split; [done| | | |].
    + intros bn' Hb'. rewrite Hsame by done. intros Hz. destruct (F2 bn' Hb' Hz). split; [done|]. rewrite Hfree by lia. done.
    + intros b1 b2 H1 H2. rewrite !Hsame by done. by apply F3.
    + intros Hi. destruct (F4 Hi). split; [done|]. rewrite Hfree by lia. done.
    + intros bn' Hb'. rewrite Hsame by done. by apply F5.
  - intros o Ho. pose proof (div_block o Ho) as Hr. unfold fbyte. rewrite Hsame by done. case_decide as E.
    + rewrite E. fold x. rewrite (proj2 (Z.eqb_neq x 0)) by done. by rewrite upd_eq.
    + case_match eqn:E0; [done|]. apply Z.eqb_neq in E0. rewrite upd_ne; [done|]. intros E1. apply E.
      symmetry. apply (fo_inj _ _ _ _ F bn (o / BSIZE)); try done.
  - intros b Hb. by rewrite Hfree.
  - intros b Hb _ _ Hno. apply upd_ne. intros ->. apply Hno. split; [done|right; eauto].
  - intros b Hb _ [Hz [->|(bn' & Hb' & ->)]]; (split; [done|]); [by left|right; exists bn'; split; [done|by apply Hsame]].
  - intros bn' Hb' _. by apply Hsame.
  - pose proof (add_block_length bl x). lia.
Qed.

(** [bs] stored at [off], within one block. *)
Lemma file_splice C a bl off bs k :
  disk_ok C → file_ok C a → 0 ≤ off < MAXFILE * BSIZE → off mod BSIZE + Z.of_nat (length bs) ≤ BSIZE →
  let x := fblock C a (off / BSIZE) in x ≠ 0 →
  evolve C a bl (upd C x (splice (C x) (off mod BSIZE) bs)) a (add_block bl x) (Datatypes.S k) (over (fbyte C a) off bs).
Proof.
  intros K F Ho Hm x Hx. pose proof (div_block off Ho) as Hr.
  assert (0 ≤ off mod BSIZE < BSIZE) as Hmod by (by apply Z.mod_pos_bound).
  assert (length (C x) = Z.to_nat BSIZE) as HC by apply K.
  eapply evolve_weaken; [apply (file_write C a bl (off / BSIZE) _ k); try done|lia|].
  { fold x. rewrite splice_length; [done|lia|]. rewrite HC. change BSIZE with 1024 in *. lia. }
  intros o Hoo; cbn beta. case_decide as E.
  - fold x. rewrite nthZ_splice; [|lia|rewrite HC; change BSIZE with 1024 in *; lia|by apply Z.mod_pos_bound].
    unfold over. change BSIZE with 1024 in *. pose proof (Z.div_mod o 1024) as D1. pose proof (Z.div_mod off 1024) as D2.
    unfold fbyte. change BSIZE with 1024. rewrite E. fold x. rewrite (proj2 (Z.eqb_neq x 0)) by done.
    repeat case_decide; try lia. f_equal. lia.
  - unfold over. rewrite decide_False; [done|]. change BSIZE with 1024 in *.
    pose proof (Z.div_mod o 1024) as D1. pose proof (Z.div_mod off 1024) as D2. intros Hin. apply E.
    pose proof (Z.mod_pos_bound o 1024). nia.
Qed.

(** ** [writei] *)

(** The inode [ip] with the addresses [a], in a transaction. *)
Record file_tx (C : Z → list Z) (a : list Z) (bl : list Z) (ip : nat) (i : inode) (s : kstate) : Prop := {
  ft_tx : tx C [] bl s;
  ft_sb : sb s = S;
  ft_disk : disk_ok C;
  ft_file : file_ok C a;
  ft_ino : itable s !! ip = Some i;
  ft_dev : i_dev i = ROOTDEV;
  ft_addrs : i_addrs i = a
}.

(** How often one block may make the thread wait. *)
Definition block_waits : nat := (2 * ballocs + 2)%nat.

Lemma room_weaken n n' bl bl' : tx_room lg0 n bl → (length bl' + n' ≤ length bl + n)%nat → tx_room lg0 n' bl'.
Proof. intros [] Hl. split; lia. Qed.

Lemma ino_at_trans ip i a a' s s1 s2 :
  itable s !! ip = Some i → ino_at ip i a s s1 → ino_at ip (set_i_addrs a i) a' s1 s2 → ino_at ip i a' s s2.
Proof. unfold ino_at. intros Hi -> ->. rewrite list_insert_insert_eq. by destruct i. Qed.

Lemma ino_at_lookup ip i a s s' : itable s !! ip = Some i → ino_at ip i a s s' → itable s' !! ip = Some (set_i_addrs a i).
Proof. intros Hi ->. apply list_lookup_insert_eq. by apply lookup_lt_Some in Hi. Qed.

(** One block of [writei]. *)
Lemma write_block {A} C a bl ip i s off bs k (copy : K (Z * list Z)) (E1 Q : K A) (E2 : nat → K A) R :
  file_tx C a bl ip i s → has_free (2 + k) C → tx_room lg0 6 bl → (block_waits ≤ sched_left s)%nat →
  0 ≤ off < MAXFILE * BSIZE → off mod BSIZE + Z.of_nat (length bs) ≤ BSIZE →
  (∀ s', same_user s s' → copy s' = Ret (0, bs) s') →
  (∀ s' C' a' bl', file_tx C' a' bl' ip (set_i_addrs a' i) s' → ino_at ip i a' s s' → has_free k C' →
    fblock C' a' (off / BSIZE) ≠ 0 → evolve C a bl C' a' bl' 6 (over (fbyte C a) off bs) → txframe block_waits s s' → wp Q R s') →
  wp (addr ← bmap ip (off / BSIZE);
      if addr =? 0 then E1
      else
        i ← get_inode ip;
        bp ← bread (i_dev i) addr;
        rb ← copy;
        upd_buf bp (λ bf, set_b_data (splice (b_data bf) (off mod BSIZE) (snd rb)) bf);;
        if fst rb =? -1 then E2 bp else log_write bp;; brelse bp;; Q) R s.
Proof.
  intros [T HS K F Hi Hdev Ha] Hfr Hroom Hs Ho Hm Hcopy HQ. pose proof (div_block off Ho) as Hbn.
  unfold block_waits in *. pose proof Hroom as [Hr1 Hr2].
  apply wp_bind. eapply wp_mono.
  { apply (bmap_ok lg0 D hist S d0 C a bl s ip i (off / BSIZE) k); try done; [split; lia|lia|lia]. }
  intros x s1 (C1 & a1 & bl1 & Hnz & -> & T1 & I1 & G1 & Hfr1 & F1); cbn beta in *.
  set (x := fblock C1 a1 (off / BSIZE)) in *. rewrite (proj2 (Z.eqb_neq x 0)) by done.
  pose proof (ev_disk _ _ _ _ _ _ _ _ _ _ _ G1) as K1. pose proof (ev_file _ _ _ _ _ _ _ _ _ _ _ G1) as Ff1.
  pose proof (ev_len _ _ _ _ _ _ _ _ _ _ _ G1) as Hl1. destruct (txframe_facts _ _ _ F1) as (_ & HS1 & _ & Hsl1).
  destruct (fo_range _ _ _ _ Ff1 _ Hbn Hnz) as [Hxr Hxf]. fold x in Hxr, Hxf.
  pose proof (g_size _ _ _ (do_geom _ _ _ _ K)) as Hsz. pose proof (g_log _ _ _ (do_geom _ _ _ _ K)) as Hlog.
  pose proof (g_low _ _ _ (do_geom _ _ _ _ K)) as Hlow. pose proof (g_pos _ _ _ C K) as Hd0.
  apply wp_bind, wp_gets. rewrite (get_ino _ _ _ _ _ Hi I1). cbn [i_dev set_i_addrs]. rewrite Hdev.
  apply wp_bind. eapply wp_mono.
  { apply (tx_bread lg0 D hist C1 [] bl1 s1 x T1); [unfold blk_ok; lia|apply not_elem_of_nil|cbn; lia|lia]. }
  intros j s2 [T2 F2]; cbn beta in *. destruct (bframe_facts _ _ _ F2) as (_ & _ & HS2 & Hit2 & Hsl2).
  apply wp_bind. eapply wp_eq; [apply Hcopy|]. { eapply same_user_trans; [by eapply txframe_user|by eapply bframe_user]. }
  cbn [fst snd]. change (0 =? -1) with false. cbn iota. eapply wp_seq2.
  { apply (tx_write lg0 D hist C1 [] bl1 s2 j x (λ d, splice d (off mod BSIZE) bs)); [done| | |cbn; lia|reflexivity|].
    - split; [unfold blk_ok; lia|right; lia].
    - split; lia.
    - assert (0 ≤ off mod BSIZE) by (by apply Z.mod_pos_bound). rewrite splice_length; [apply K1|done|].
      rewrite (do_len _ _ _ _ K1). change BSIZE with 1024 in *. lia. }
  intros ? s3 (T3 & F3 & Hit3); cbn beta in *. destruct (txframe_facts _ _ _ F3) as (_ & HS3 & _ & Hsl3).
  apply wp_bind. eapply wp_mono; [by apply tx_brelse in T3|]. intros ? s4 [T4 F4]; cbn beta in *.
  destruct (bframe_facts _ _ _ F4) as (_ & _ & HS4 & Hit4 & Hsl4).
  pose proof (file_splice C1 a1 bl1 off bs 0 K1 Ff1 Ho Hm Hnz) as G2. fold x in G2.
  assert (ino_at ip i a1 s s4) as I4 by (unfold ino_at in *; congruence).
  eapply HQ; [|exact I4| | |..].
  - split; [exact T4|congruence|apply G2|apply G2|by eapply ino_at_lookup|done|done].
  - eapply has_free_upd; [exact K1|lia|done].
  - by rewrite (ev_block _ _ _ _ _ _ _ _ _ _ _ G2).
  - eapply evolve_weaken; [by eapply evolve_trans|lia|]. intros o Hoo. unfold over. case_decide; [done|]. by rewrite (ev_byte _ _ _ _ _ _ _ _ _ _ _ G1).
  - apply (txframe_weaken ((2 * ballocs + 1) + (1 + (0 + 0)))); [|lia].
    eapply txframe_trans; [exact F1|]. eapply txframe_trans; [by apply txframe_bframe|].
    eapply txframe_trans; [exact F3|by apply txframe_bframe].
Qed.

Lemma write_done C a bl ip i s n off tot sr k w bytes q q' :
  file_tx C a bl ip i s → 0 ≤ tot ≤ n → n ≤ tot → has_free q C → (q' ≤ q)%nat →
  wp (mret (tot, off)) (λ r s', r = (n, off + (n - tot)) ∧ ∃ C' a' bl',
    file_tx C' a' bl' ip (set_i_addrs a' i) s' ∧ ino_at ip i a' s s' ∧
    (∀ bn, off / BSIZE ≤ bn → tot < n → bn * BSIZE < off + (n - tot) → fblock C' a' bn ≠ 0) ∧
    evolve C a bl C' a' bl' k (over (fbyte C a) off (sub bytes sr (n - tot))) ∧ has_free q' C' ∧ txframe w s s') s.
Proof.
  intros FT Ht Hge Hfr Hq. apply wp_ret. split; [f_equal; lia|]. replace (n - tot) with 0 by lia.
  exists C, a, bl. destruct (FT) as [T HS K F Hi Hdev Ha].
  assert (set_i_addrs a i = i) as Ei by (rewrite <- Ha; by destruct i). rewrite Ei. split_and!; [done| | | | |].
  - rewrite <- Ha. by apply ino_at_refl.
  - intros bn _ Hlt. lia.
  - eapply evolve_weaken; [by apply (evolve_refl _ _ _ C a bl 0)|lia|]. intros o _. by rewrite over_nil.
  - by eapply has_free_weaken.
  - eapply txframe_weaken; [apply txframe_refl|lia].
Qed.

(** The loop, from byte [tot] of the source on: [c] blocks are enough. *)
Lemma writei_loop_ok ip sr bytes n q c : ∀ fuel C a bl i s tot off,
  file_tx C a bl ip i s → has_free (2 * c + q) C → tx_room lg0 (6 * c) bl → (c * block_waits ≤ sched_left s)%nat →
  0 ≤ off → 0 ≤ tot ≤ n → off + (n - tot) ≤ MAXFILE * BSIZE → (tot < n → off mod BSIZE + (n - tot) ≤ Z.of_nat c * BSIZE) →
  n = Z.of_nat (length bytes) → supplies sr bytes s → n - tot < Z.of_nat fuel →
  wp (writei_loop fuel ip sr off n tot) (λ r s', r = (n, off + (n - tot)) ∧ ∃ C' a' bl',
    file_tx C' a' bl' ip (set_i_addrs a' i) s' ∧ ino_at ip i a' s s' ∧
    (∀ bn, off / BSIZE ≤ bn → tot < n → bn * BSIZE < off + (n - tot) → fblock C' a' bn ≠ 0) ∧
    evolve C a bl C' a' bl' (6 * c) (over (fbyte C a) off (sub bytes tot (n - tot))) ∧ has_free q C' ∧ txframe (c * block_waits) s s') s.
Proof.
  induction c as [|c IH]; intros fuel C a bl i s tot off FT Hfr Hroom Hs Ho Ht Hend Hc Hn Hsup Hf;
    (destruct fuel as [|fuel]; [lia|]); cbn [writei_loop];
    (assert (0 ≤ off mod BSIZE < BSIZE) as Hmod by (by apply Z.mod_pos_bound)).
  - rewrite (proj2 (Z.ltb_ge tot n)) by lia. eapply write_done; [done|done|lia|exact Hfr|lia].
  - destruct (Z.ltb_spec tot n) as [Hlt|Hge]; [|eapply write_done; [done|done|lia|exact Hfr|lia]].
    cbv zeta. set (m := Z.min (n - tot) (BSIZE - off mod BSIZE)) in *. assert (0 < m ≤ n - tot) as Hm by lia.
    assert (length (sub bytes tot m) = Z.to_nat m) as Hsl by (apply sub_len; lia).
    apply (write_block C a bl ip i s off (sub bytes tot m) (2 * c + q)); try done.
    + by replace (2 + (2 * c + q))%nat with (2 * Datatypes.S c + q)%nat by lia.
    + eapply room_weaken; [exact Hroom|lia].
    + lia.
    + lia.
    + lia.
    + intros s' U. apply Hsup; try done; lia.
    + intros s1 C1 a1 bl1 FT1 I1 Hfr1 Hx1 G1 F1. destruct (txframe_facts _ _ _ F1) as (_ & _ & _ & Hsl1).
      pose proof (ev_len _ _ _ _ _ _ _ _ _ _ _ G1) as Hl1.
      eapply wp_mono.
      { apply (IH fuel C1 a1 bl1 (set_i_addrs a1 i) s1 (tot + m) (off + m)); try done; try lia.
        - eapply room_weaken; [exact Hroom|lia].
        - intros Hlt'. change BSIZE with 1024 in *. assert (m = 1024 - off mod 1024) as Em by lia.
          pose proof (Z.div_mod off 1024 ltac:(lia)) as Ed.
          replace (off + m) with ((off / 1024 + 1) * 1024) by lia. rewrite Z.mod_mul by lia. lia.
        - eapply supplies_user; [by eapply txframe_user|done]. }
      intros r s2 (-> & C2 & a2 & bl2 & FT2 & I2 & M2 & G2 & Hfr2 & F2); cbn beta in *. split; [f_equal; lia|].
      exists C2, a2, bl2. split_and!.
      * by destruct i.
      * eapply ino_at_trans; [apply FT|exact I1|done].
      * intros bn Hbn _ Hlast. destruct (decide (bn = off / BSIZE)) as [->|Hne].
        -- rewrite (ev_block _ _ _ _ _ _ _ _ _ _ _ G2); [done|apply div_block; lia|done].
        -- change BSIZE with 1024 in *. pose proof (Z.div_mod off 1024 ltac:(lia)). apply M2; [|lia|lia].
           transitivity (off / 1024 + 1); [|lia]. rewrite <- (Z.div_add off 1 1024) by lia. apply Z.div_le_mono; lia.
      * eapply evolve_weaken; [by eapply evolve_trans|lia|]. intros o Hoo.
        rewrite (sub_split bytes tot m (n - tot)) by lia. rewrite <- over_app, Hsl, Z2Nat.id by lia.
        replace (n - tot - m) with (n - (tot + m)) by lia. unfold over at 1 2. case_decide; [done|].
        by rewrite (ev_byte _ _ _ _ _ _ _ _ _ _ _ G1).
      * done.
      * apply (txframe_weaken (block_waits + c * block_waits)); [|lia]. by eapply txframe_trans.
Qed.

(** ** [iupdate] *)

(** An inode as [iupdate] stores it. *)
Definition dinode_of (i : inode) : dinode :=
  Mk_dinode (i_type i) (i_major i) (i_minor i) (i_nlink i) (i_size i) (i_addrs i).
(** Inode [inum] on disk. *)
Definition dinode_at (C : Z → list Z) (inum : Z) : dinode :=
  dinode_of_bytes (C (IBLOCK inum S)) ((inum mod IPB) * sizeof_dinode).

(** A block outside the bitmap and the data. *)
Lemma meta_upd C a b d :
  disk_ok C → file_ok C a → b < d0 → not_bitmap S b → length d = Z.to_nat BSIZE →
  disk_ok (upd C b d) ∧ file_ok (upd C b d) a ∧ (∀ bn, 0 ≤ bn < MAXFILE → fblock (upd C b d) a bn = fblock C a bn) ∧
  (∀ o, 0 ≤ o < MAXFILE * BSIZE → fbyte (upd C b d) a o = fbyte C a o) ∧
  ∀ b', 0 ≤ b' < sb_size S → is_free (upd C b d) b' = is_free C b'.
Proof.
  intros K F Hb Hnb Hd.
  assert (∀ b', 0 ≤ b' < sb_size S → is_free (upd C b d) b' = is_free C b') as Hfree.
  { intros b' Hb'. unfold FsTx.is_free. rewrite upd_ne; [done|]. intros E. by apply (Hnb b'). }
  assert (∀ bn, 0 ≤ bn < MAXFILE → fblock (upd C b d) a bn = fblock C a bn) as Hsame.
  { intros bn Hbn. unfold fblock. destruct (bn <? NDIRECT); [done|]. destruct (Z.eqb_spec (indirect a) 0) as [|Hi]; [done|].
    destruct (fo_ind _ _ _ _ F Hi). rewrite upd_ne; [done|lia]. }
  pose proof (g_size _ _ _ (do_geom _ _ _ _ K)) as Hsz. pose proof (g_pos _ _ _ C K).
  split_and!; [| |done| |done].
  - destruct (K) as [K1 K2 K3 K4]. split; [done|done| |].
    + intros b' Hb'. rewrite Hfree by lia. by apply K3.
    + intros b'. unfold upd. case_decide; [done|apply K4].
  - destruct (F) as [F1 F2 F3 F4 F5]. split; [done| | | |].
    + intros bn Hbn. rewrite Hsame by done. intros Hz. destruct (F2 bn Hbn Hz). split; [done|]. rewrite Hfree by lia. done.
    + intros b1 b2 H1 H2. rewrite !Hsame by done. by apply F3.
    + intros Hi. destruct (F4 Hi). split; [done|]. rewrite Hfree by lia. done.
    + intros bn Hbn. rewrite Hsame by done. by apply F5.
  - apply fbyte_same; [done|]. intros bn Hbn Hz. destruct (fo_range _ _ _ _ F bn Hbn Hz). rewrite upd_ne; [done|lia].
Qed.

(** The fields of an inode fit. *)
Record inode_fits (i : inode) : Prop := {
  if_inum : 0 ≤ i_inum i < sb_ninodes S;
  if_type : - 2 ^ 15 ≤ i_type i < 2 ^ 15;
  if_major : - 2 ^ 15 ≤ i_major i < 2 ^ 15;
  if_minor : - 2 ^ 15 ≤ i_minor i < 2 ^ 15;
  if_nlink : - 2 ^ 15 ≤ i_nlink i < 2 ^ 15;
  if_size : 0 ≤ i_size i ≤ MAXFILE * BSIZE
}.

Lemma addrs_range C a : disk_ok C → file_ok C a → Forall (λ x, 0 ≤ x < 2 ^ 32) a.
Proof.
  intros K F. apply Forall_lookup. intros k x Hx. pose proof (lookup_lt_Some _ _ _ Hx) as Hk. rewrite (fo_len _ _ _ _ F) in Hk.
  pose proof (g_size _ _ _ (do_geom _ _ _ _ K)). pose proof (g_pos _ _ _ C K).
  assert (nthZ 0 a (Z.of_nat k) = x) as E by (apply nthZ_lookup; [lia|by rewrite Nat2Z.id]).
  destruct (decide (x = 0)) as [->|Hz]; [lia|]. destruct (decide (k = 12%nat)) as [->|Hne].
  - destruct (fo_ind _ _ _ _ F); unfold indirect in *; change NDIRECT with (Z.of_nat 12) in *; lia.
  - assert (fblock C a (Z.of_nat k) = x) as Ef.
    { unfold fblock. rewrite (proj2 (Z.ltb_lt _ _)); [done|]. change NDIRECT with 12. lia. }
    destruct (fo_range _ _ _ _ F (Z.of_nat k)); [change MAXFILE with 268; lia|lia|]. lia.
Qed.

Lemma inode_dinode C a i : disk_ok C → file_ok C a → i_addrs i = a → inode_fits i → dinode_ok (dinode_of i).
Proof.
  intros K F Ha []. split; cbn; try done.
  - change (MAXFILE * BSIZE) with 274432 in *. lia.
  - rewrite Ha. apply F.
  - rewrite Ha. by eapply addrs_range.
Qed.

(** The contents after [iupdate]. *)
Definition updated (C : Z → list Z) (i : inode) : Z → list Z :=
  upd C (IBLOCK (i_inum i) S)
    (splice (C (IBLOCK (i_inum i) S)) ((i_inum i mod IPB) * sizeof_dinode) (bytes_of_dinode (dinode_of i))).

Lemma iblock_meta C inum : disk_ok C → 0 ≤ inum < sb_ninodes S → tx_block lg0 (IBLOCK inum S) ∧ IBLOCK inum S < d0 ∧ not_bitmap S (IBLOCK inum S).
Proof.
  intros K Hi. pose proof (g_inode _ _ _ (do_geom _ _ _ _ K) inum Hi). pose proof (g_size _ _ _ (do_geom _ _ _ _ K)).
  pose proof (g_log _ _ _ (do_geom _ _ _ _ K)). pose proof (g_low _ _ _ (do_geom _ _ _ _ K)).
  split_and!; [split; [unfold blk_ok; lia|right; lia]|lia|]. intros b Hb E.
  by apply (g_apart _ _ _ (do_geom _ _ _ _ K) b inum Hb Hi).
Qed.

Lemma inum_mod inum : 0 ≤ inum mod IPB < IPB.
Proof. by apply Z.mod_pos_bound. Qed.

Lemma iblock_inj C k k' :
  disk_ok C → 0 ≤ k < sb_ninodes S → 0 ≤ k' < sb_ninodes S → IBLOCK k S = IBLOCK k' S → k mod IPB = k' mod IPB → k = k'.
Proof.
  intros K Hk Hk' E Em. destruct (g_inum _ _ _ (do_geom _ _ _ _ K)) as [G1 G2].
  assert (∀ j, 0 ≤ j < sb_ninodes S → IBLOCK j S = j / IPB + sb_inodestart S) as Ej.
  { intros j Hj. apply u32_small.
    assert (0 ≤ j / IPB ≤ sb_ninodes S / IPB) by (split; [apply Z.div_pos; [lia|done]|apply Z.div_le_mono; [done|lia]]). lia. }
  rewrite !Ej in E by done. rewrite (Z.div_mod k IPB), (Z.div_mod k' IPB) by done. rewrite Em. do 2 f_equal. lia.
Qed.

Lemma updated_ok C a i :
  disk_ok C → file_ok C a → i_addrs i = a → inode_fits i →
  disk_ok (updated C i) ∧ file_ok (updated C i) a ∧
  (∀ o, 0 ≤ o < MAXFILE * BSIZE → fbyte (updated C i) a o = fbyte C a o) ∧
  (∀ b, 0 ≤ b < sb_size S → is_free (updated C i) b = is_free C b) ∧
  dinode_at (updated C i) (i_inum i) = dinode_of i ∧
  (∀ k, 0 ≤ k < sb_ninodes S → k ≠ i_inum i → dinode_at (updated C i) k = dinode_at C k).
Proof.
  intros K F Ha Hfits. destruct (iblock_meta C (i_inum i) K (if_inum _ Hfits)) as (Htb & Hlt & Hnb).
  pose proof (inode_dinode C a i K F Ha Hfits) as Hd. pose proof (inum_mod (i_inum i)) as Hm.
  assert (∀ b, length (C b) = Z.to_nat BSIZE) as HC by apply K.
  destruct (meta_upd C a (IBLOCK (i_inum i) S) (splice (C (IBLOCK (i_inum i) S)) ((i_inum i mod IPB) * sizeof_dinode) (bytes_of_dinode (dinode_of i))) K F Hlt Hnb)
    as (K' & F' & _ & B' & U'); [by apply stored_length; [apply Hd|..]|].
  split_and!; try done.
  - unfold dinode_at, updated. rewrite upd_eq. by apply load_stored.
  - intros k Hk Hne. unfold dinode_at, updated. destruct (decide (IBLOCK k S = IBLOCK (i_inum i) S)) as [E|E].
    + rewrite E, upd_eq. apply load_other; [apply Hd|apply HC|done|apply inum_mod|]. intros Em. apply Hne.
      eapply (iblock_inj C); [done|done|apply Hfits|done|done].
    + by rewrite upd_ne.
Qed.

Lemma iupdate_ok C a bl ip i s :
  file_tx C a bl ip i s → inode_fits i → tx_room lg0 1 bl → (0 < sched_left s)%nat →
  wp (iupdate ip) (λ _ s', tx (updated C i) [] (add_block bl (IBLOCK (i_inum i) S)) s' ∧ itable s' = itable s ∧ txframe 1 s s') s.
Proof.
  intros [T HS K F Hi Hdev Ha] Hfits [Hr1 Hr2] Hs.
  destruct (iblock_meta C (i_inum i) K (if_inum _ Hfits)) as (Htb & Hlt & Hnb).
  pose proof (inode_dinode C a i K F Ha Hfits) as Hd.
  assert (∀ s', itable s' = itable s → nth ip (itable s') inode0 = i) as Hino by (intros s' ->; by apply nth_lookup_Some).
  unfold iupdate. apply wp_bind, wp_gets. rewrite Hino by done. apply wp_bind, wp_gets. rewrite Hdev, HS.
  apply wp_bind. eapply wp_mono.
  { apply (tx_bread lg0 D hist C [] bl s (IBLOCK (i_inum i) S) T); [apply Htb|apply not_elem_of_nil|cbn; lia|done]. }
  intros j s1 [T1 F1]; cbn beta in *. destruct (bframe_facts _ _ _ F1) as (_ & _ & _ & Hit1 & _).
  apply wp_bind, wp_gets. rewrite Hino by done. eapply wp_seq2.
  { eapply (tx_write lg0 D hist C [] bl s1 j _ (λ d, splice d (i_inum i mod IPB * sizeof_dinode) (bytes_of_dinode (dinode_of i))) _ T1 Htb);
      [split; lia|cbn; lia|reflexivity|]. apply stored_length; [apply Hd|apply K|apply inum_mod]. }
  intros ? s2 (T2 & F2 & Hit2); cbn beta in *.
  eapply wp_mono; [by apply tx_brelse in T2|]. intros ? s3 [T3 F3]; cbn beta in *.
  destruct (bframe_facts _ _ _ F3) as (_ & _ & _ & Hit3 & _). split_and!; [done|congruence|].
  apply (txframe_weaken (1 + (0 + 0))); [|lia].
  eapply txframe_trans; [by apply txframe_bframe|]. eapply txframe_trans; [exact F2|by apply txframe_bframe].
Qed.

(** The inode after [writei] up to offset [e]. *)
Definition grown_to (e : Z) (a : list Z) (i : inode) : inode := set_i_size (Z.max (i_size i) e) (set_i_addrs a i).

(** What [writei] of [bytes] at [off] has done to inode [ip] and to the disk. *)
Record wrote (C : Z → list Z) (i : inode) (off : Z) (bytes : list Z) (C' : Z → list Z) (i' : inode) : Prop := {
  wr_ino : i' = grown_to (off + Z.of_nat (length bytes)) (i_addrs i') i;
  wr_disk : disk_ok C';
  wr_file : file_ok C' (i_addrs i');
  wr_byte o : 0 ≤ o < MAXFILE * BSIZE → fbyte C' (i_addrs i') o = over (fbyte C (i_addrs i)) off bytes o;
  wr_stored : dinode_at C' (i_inum i) = dinode_of i';
  wr_inodes k : 0 ≤ k < sb_ninodes S → k ≠ i_inum i → dinode_at C' k = dinode_at C k;
  wr_used b : 0 ≤ b < sb_size S → is_free C b = false → is_free C' b = false;
  wr_keep b : d0 ≤ b < sb_size S → is_free C b = false → ¬ owns C (i_addrs i) b → C' b = C b;
  wr_own b : d0 ≤ b < sb_size S → is_free C b = false → owns C' (i_addrs i') b → owns C (i_addrs i) b;
  wr_full : mapped C (i_addrs i) (i_size i) → mapped C' (i_addrs i') (i_size i')
}.

Lemma updated_fblock C a i bn :
  disk_ok C → file_ok C a → i_addrs i = a → inode_fits i → 0 ≤ bn < MAXFILE → fblock (updated C i) a bn = fblock C a bn.
Proof.
  intros K F Ha Hfits. destruct (iblock_meta C (i_inum i) K (if_inum _ Hfits)) as (_ & Hlt & Hnb).
  pose proof (inode_dinode C a i K F Ha Hfits) as Hd. revert bn.
  apply (meta_upd C a (IBLOCK (i_inum i) S)); try done. apply stored_length; [apply Hd|apply K|apply inum_mod].
Qed.

Lemma updated_owns C a i b : disk_ok C → file_ok C a → i_addrs i = a → inode_fits i → owns (updated C i) a b → owns C a b.
Proof.
  intros K F Ha Hfits [Hz Ho]. split; [done|]. destruct Ho as [->|(bn & Hbn & ->)]; [by left|right].
  exists bn. split; [done|]. by apply updated_fblock.
Qed.

Lemma updated_free C a i q : disk_ok C → file_ok C a → i_addrs i = a → inode_fits i → has_free q C → has_free q (updated C i).
Proof.
  intros K F Ha Hfits (fl & Hn & Hl & Hf). destruct (updated_ok C a i K F Ha Hfits) as (_ & _ & _ & U & _).
  exists fl. split_and!; [done|done|]. intros b Hb. destruct (Hf b Hb). pose proof (g_pos _ _ _ C K). by rewrite U by lia.
Qed.

Lemma owns_data C a b : file_ok C a → owns C a b → d0 ≤ b < sb_size S.
Proof. intros F [Hz [->|(bn & Hbn & ->)]]; [by apply F|by apply F]. Qed.

Lemma evolve_wrote C C1 a1 i off bytes bl bl1 k :
  evolve C (i_addrs i) bl C1 a1 bl1 k (over (fbyte C (i_addrs i)) off bytes) → inode_fits i → disk_ok C → file_ok C (i_addrs i) →
  0 ≤ off ≤ i_size i → off + Z.of_nat (length bytes) ≤ MAXFILE * BSIZE →
  (∀ bn, off / BSIZE ≤ bn → 0 < Z.of_nat (length bytes) → bn * BSIZE < off + Z.of_nat (length bytes) → fblock C1 a1 bn ≠ 0) →
  let i' := grown_to (off + Z.of_nat (length bytes)) a1 i in wrote C i off bytes (updated C1 i') i'.
Proof.
  intros G Hfits K F Hoff Hend Hmap i'. assert (inode_fits i') as Hfits'.
  { destruct Hfits. split; try done. cbn. lia. }
  pose proof (ev_disk _ _ _ _ _ _ _ _ _ _ _ G) as K1. pose proof (ev_file _ _ _ _ _ _ _ _ _ _ _ G) as F1.
  destruct (updated_ok C1 a1 i' K1 F1 eq_refl Hfits') as (K2 & F2 & B2 & U2 & S2 & I2).
  destruct (iblock_meta C1 (i_inum i') K1 (if_inum _ Hfits')) as (_ & Hlt & Hnb).
  pose proof (g_pos _ _ _ C1 K1) as Hd0. pose proof (g_size _ _ _ (do_geom _ _ _ _ K1)) as Hsz.
  split; try done.
  - intros o Ho. change (i_addrs i') with a1. rewrite B2 by done. by apply (ev_byte _ _ _ _ _ _ _ _ _ _ _ G).
  - intros j Hj Hne. rewrite I2 by done. unfold dinode_at. f_equal.
    destruct (iblock_meta C j K Hj) as (_ & Hjlt & Hjnb).
    pose proof (g_inode _ _ _ (do_geom _ _ _ _ K) j Hj). pose proof (g_log _ _ _ (do_geom _ _ _ _ K)). pose proof (g_low _ _ _ (do_geom _ _ _ _ K)).
    apply (ev_keep _ _ _ _ _ _ _ _ _ _ _ G); [lia|apply (do_low _ _ _ _ K); lia|done|].
    intros Ho. apply (owns_data _ _ _ F) in Ho. lia.
  - intros b Hb Hf. rewrite U2 by done. by apply (ev_used _ _ _ _ _ _ _ _ _ _ _ G).
  - intros b Hb Hf Hno. unfold updated. rewrite upd_ne by lia.
    apply (ev_keep _ _ _ _ _ _ _ _ _ _ _ G); [lia|done|by eapply data_not_bitmap; [exact K|lia]|done].
  - intros b Hb Hf Ho. apply (ev_own _ _ _ _ _ _ _ _ _ _ _ G); [lia|done|]. exact (updated_owns C1 a1 i' b K1 F1 eq_refl Hfits' Ho).
  - intros Hm bn Hbn Hlast. pose proof (if_size _ Hfits') as Hsz'. change BSIZE with 1024 in *. change MAXFILE with 268 in *.
    rewrite updated_fblock; try done; [|change MAXFILE with 268; lia]. change (i_addrs i') with a1. cbn in Hlast, Hsz'.
    destruct (decide (bn * 1024 < i_size i)).
    + rewrite (ev_block _ _ _ _ _ _ _ _ _ _ _ G); [by apply Hm|change MAXFILE with 268; lia|by apply Hm].
    + apply Hmap; [|lia|lia]. apply Z.div_le_upper_bound; lia.
Qed.

Lemma alter_set {A} (f : A → A) k x y (l : list A) : l !! k = Some x → y = f x → alter f k l = <[k := y]> l.
Proof.
  intros Hx ->. apply list_eq. intros j. rewrite list_lookup_alter. destruct (decide (k = j)) as [<-|Hne].
  - rewrite Hx, list_lookup_insert_eq by (by apply lookup_lt_Some in Hx). done.
  - by rewrite list_lookup_insert_ne.
Qed.

Lemma set_size_ok C a bl ip i s s1 e k :
  itable s !! ip = Some i → file_tx C a bl ip (set_i_addrs a i) s1 → ino_at ip i a s s1 → txframe k s s1 →
  wp (when (i_size i <? e) (upd_inode ip (set_i_size e))) (λ _ s2, file_tx C a bl ip (grown_to e a i) s2 ∧
    itable s2 = <[ip := grown_to e a i]> (itable s) ∧ txframe k s s2) s1.
Proof.
  intros Hi FT I F. destruct (FT) as [T HS K Ff Hi1 Hdev _]. unfold grown_to.
  destruct (Z.ltb_spec (i_size i) e) as [Hgt|Hle]; cbn [when].
  - assert (alter (set_i_size e) ip (itable s1) = <[ip := grown_to e a i]> (itable s)) as E.
    { rewrite (alter_set _ _ _ (grown_to e a i) _ Hi1), I; [by rewrite list_insert_insert_eq|].
      unfold grown_to. by rewrite Z.max_r by lia. }
    apply wp_modify. rewrite E. split_and!; [|done|].
    + split; [by apply tx_itable|done|done|done| |done|done].
      cbn [itable set_itable]. apply list_lookup_insert_eq. by apply lookup_lt_Some in Hi.
    + replace k with (k + 0)%nat by lia. eapply txframe_trans; [exact F|apply txframe_itable].
  - apply wp_ret. assert (set_i_size (Z.max (i_size i) e) (set_i_addrs a i) = set_i_addrs a i) as ->.
    { rewrite Z.max_l by lia. by destruct i. }
    done.
Qed.

(** [writei] stores all the bytes. [c] is the number of blocks that it touches. *)
Lemma writei_ok C bl ip i s sr bytes off c q :
  let n := Z.of_nat (length bytes) in
  file_tx C (i_addrs i) bl ip i s → inode_fits i → supplies sr bytes s →
  0 ≤ off ≤ i_size i → off + n ≤ MAXFILE * BSIZE → off mod BSIZE + n ≤ Z.of_nat c * BSIZE →
  has_free (2 * c + q) C → tx_room lg0 (6 * c + 1) bl → (c * block_waits + 1 ≤ sched_left s)%nat →
  wp (writei ip sr off n) (λ r s', r = n ∧ ∃ C' i' bl',
    tx C' [] bl' s' ∧ itable s' = <[ip := i']> (itable s) ∧ wrote C i off bytes C' i' ∧
    (length bl' ≤ length bl + (6 * c + 1))%nat ∧ bl' ≠ [] ∧ has_free q C' ∧ txframe (c * block_waits + 1) s s') s.
Proof.
  intros n FT Hfits Hsup Hoff Hend Hc Hfr Hroom Hs. destruct (FT) as [T HS K F Hi Hdev _].
  assert (MAXFILE * BSIZE = 274432) as EM by done.
  unfold writei. apply wp_bind, wp_gets. rewrite (nth_lookup_Some _ _ _ _ Hi).
  rewrite u32_small by lia. rewrite (proj2 (Z.ltb_ge (i_size i) off)), (proj2 (Z.ltb_ge (off + n) off)) by lia. cbn [orb].
  rewrite (proj2 (Z.ltb_ge _ _)) by lia. apply wp_bind. eapply wp_mono.
  { apply (writei_loop_ok ip sr bytes n q c _ C (i_addrs i) bl i s 0 off); try done; try lia.
    eapply room_weaken; [exact Hroom|lia]. }
  intros r s1 (-> & C1 & a1 & bl1 & FT1 & I1 & M1 & G1 & Hfr1 & F1); cbn beta in *. rewrite Z.sub_0_r, sub_all in G1. rewrite Z.sub_0_r in *.
  pose proof (ev_len _ _ _ _ _ _ _ _ _ _ _ G1) as Hl1. destruct (txframe_facts _ _ _ F1) as (_ & HS1 & _ & Hsl1).
  apply wp_bind, wp_gets. rewrite (get_ino _ _ _ _ _ Hi I1). cbn [fst snd i_size set_i_addrs].
  set (i' := grown_to (off + n) a1 i). pose proof (evolve_wrote C C1 a1 i off bytes bl bl1 _ G1 Hfits K F ltac:(lia) Hend M1) as W.
  assert (inode_fits i') as Hfits' by (destruct Hfits; split; try done; cbn; lia).
  apply wp_bind. eapply wp_mono; [by apply (set_size_ok C1 a1 bl1 ip i s s1 (off + n) _ Hi FT1 I1 F1)|]. fold i'.
  intros ? s2 (FT2 & Hit2 & F2); cbn beta in *. destruct (txframe_facts _ _ _ F2) as (_ & _ & _ & Hsl2).
  apply wp_bind. eapply wp_mono; [apply (iupdate_ok C1 a1 bl1 ip i' s2 FT2 Hfits')|].
  { eapply room_weaken; [exact Hroom|lia]. }
  { lia. }
  intros ? s3 (T3 & Hit3 & F3); cbn beta in *. apply wp_ret. split; [apply s32_small; lia|].
  exists (updated C1 i'), i', (add_block bl1 (IBLOCK (i_inum i') S)). pose proof (add_block_length bl1 (IBLOCK (i_inum i') S)).
  split_and!; try done.
  - congruence.
  - lia.
  - intros E. assert (IBLOCK (i_inum i') S ∈ add_block bl1 (IBLOCK (i_inum i') S)) as Hin by (apply add_block_elem; by right).
    rewrite E in Hin. by apply not_elem_of_nil in Hin.
  - eapply updated_free; [apply FT1|apply FT1|done|done|done].
  - by eapply txframe_trans.
Qed.
End write.
