(* ===== verification/FsInv.v ===== *)
(** * The file system as a map from inode numbers to files

    [fs_ok C F]: the blocks [C] hold the inodes and files of [F], no block belongs to two
    files, and the bitmap marks the blocks of the files as used. A write to one file
    ([wrote], FsWrite) is an update of [F] at one inode. *)

From S2P Require Import Prelude Machine State Spinlock KString Kalloc Vm Proc Sched Sleeplock Virtio VirtioProofs Bio BlockSpec Log LogOps LogSafe.
From S2P Require Import Uart Printf Console Fs FsData FsTx FsMap FsWrite.

Section fsinv.
Context (lg : log_state) (S : superblock) (d0 : Z).

(** Inode [j] on the blocks [C] is [d], a file with the bytes [bs]. *)
Record holds (C : Z → list Z) (j : Z) (d : dinode) (bs : list Z) : Prop := {
  ho_at : dinode_at S C j = d;
  ho_inum : 0 ≤ j < sb_ninodes S;
  ho_size : di_size d = Z.of_nat (length bs);
  ho_max : di_size d ≤ MAXFILE * BSIZE;
  ho_file : file_ok S d0 C (di_addrs d);
  ho_full : mapped C (di_addrs d) (di_size d);
  ho_bytes k x : bs !! k = Some x → fbyte C (di_addrs d) (Z.of_nat k) = x
}.

Definition apart (C : Z → list Z) (a a' : list Z) : Prop := ∀ b, owns C a b → ¬ owns C a' b.

Record fs_ok (C : Z → list Z) (F : gmap Z (dinode * list Z)) : Prop := {
  fk_disk : disk_ok lg S d0 C;
  fk_file j d bs : F !! j = Some (d, bs) → holds C j d bs;
  fk_apart j k d bs d' bs' : j ≠ k → F !! j = Some (d, bs) → F !! k = Some (d', bs') → apart C (di_addrs d) (di_addrs d')
}.

Lemma owns_used C a b : file_ok S d0 C a → owns C a b → d0 ≤ b < sb_size S ∧ is_free S C b = false.
Proof. intros F [Hz [->|(bn & Hbn & ->)]]; by apply F. Qed.

(** A file whose blocks are untouched. *)
Lemma untouched C C' a :
  disk_ok lg S d0 C → file_ok S d0 C a → (∀ b, owns C a b → C' b = C b) →
  (∀ b, 0 ≤ b < sb_size S → is_free S C b = false → is_free S C' b = false) →
  file_ok S d0 C' a ∧ (∀ bn, 0 ≤ bn < MAXFILE → fblock C' a bn = fblock C a bn) ∧
  ∀ o, 0 ≤ o < MAXFILE * BSIZE → fbyte C' a o = fbyte C a o.
Proof.
  intros K F Hkeep Hused. pose proof (g_pos _ _ _ C K) as Hd.
  assert (∀ bn, 0 ≤ bn < MAXFILE → fblock C' a bn = fblock C a bn) as Hsame.
  { intros bn Hbn. unfold fblock. destruct (bn <? NDIRECT); [done|]. destruct (Z.eqb_spec (indirect a) 0) as [|Hi]; [done|].
    rewrite Hkeep; [done|]. split; [done|by left]. }
  assert (∀ o, 0 ≤ o < MAXFILE * BSIZE → fbyte C' a o = fbyte C a o) as Hbyte.
  { apply fbyte_same; [done|]. intros bn Hbn Hz. apply Hkeep. split; [done|right; eauto]. }
  split_and!; [|done|done]. destruct F as [F1 F2 F3 F4 F5]. split; [done| | | |].
  - intros bn Hbn. rewrite Hsame by done. intros Hz. destruct (F2 bn Hbn Hz). split; [done|]. apply Hused; [lia|done].
  - intros b1 b2 H1 H2. rewrite !Hsame by done. by apply F3.
  - intros Hi. destruct (F4 Hi). split; [done|]. apply Hused; [lia|done].
  - intros bn Hbn. rewrite Hsame by done. by apply F5.
Qed.

Lemma untouched_owns C C' a b :
  (∀ bn, 0 ≤ bn < MAXFILE → fblock C' a bn = fblock C a bn) → owns C' a b ↔ owns C a b.
Proof.
  intros H. split; intros [Hz [->|(bn & Hbn & ->)]]; (split; [done|]); [by left| |by left|]; right; exists bn; (split; [done|]).
  - by apply H.
  - symmetry. by apply H.
Qed.

Lemma owns_nonzero C a : ¬ owns C a 0.
Proof. by intros [? _]. Qed.

(** The bytes of a file after a write. *)
Lemma splice_bytes w bs off bytes k x :
  0 ≤ off ≤ Z.of_nat (length bs) → (∀ k x, bs !! k = Some x → w (Z.of_nat k) = x) →
  splice bs off bytes !! k = Some x → over w off bytes (Z.of_nat k) = x.
Proof.
  intros Ho Hw. unfold splice, over. destruct (decide (k < Z.to_nat off)%nat) as [H1|H1].
  - rewrite lookup_app_l by (rewrite length_take; lia). rewrite lookup_take_lt by done. intros Hx.
    rewrite decide_False by lia. by apply Hw.
  - rewrite lookup_app_r by (rewrite length_take; lia). rewrite length_take, Nat.min_l by lia.
    destruct (decide (k < Z.to_nat off + length bytes)%nat) as [H2|H2].
    + rewrite lookup_app_l by lia. intros Hx. rewrite decide_True by lia. apply nthZ_lookup; [lia|].
      by replace (Z.to_nat (Z.of_nat k - off)) with (k - Z.to_nat off)%nat by lia.
    + rewrite lookup_app_r by lia. rewrite lookup_drop. intros Hx. rewrite decide_False by lia. apply Hw.
      rewrite <- Hx. f_equal. lia.
Qed.

Lemma splice_len bs off (bytes : list Z) :
  0 ≤ off ≤ Z.of_nat (length bs) → Z.of_nat (length (splice bs off bytes)) = Z.max (Z.of_nat (length bs)) (off + Z.of_nat (length bytes)).
Proof. intros Ho. unfold splice. rewrite !length_app, length_take, length_drop. lia. Qed.

(** The abstract write: bytes [bytes] at offset [off] of file [j], whose inode becomes [d]. *)
Definition put_file (j : Z) (d : dinode) (off : Z) (bytes : list Z) (F : gmap Z (dinode * list Z)) : gmap Z (dinode * list Z) :=
  match F !! j with Some (_, bs) => <[j := (d, splice bs off bytes)]> F | None => F end.

Lemma wrote_holds C i off bytes C' i' bs :
  wrote lg S d0 C i off bytes C' i' → holds C (i_inum i) (dinode_of i) bs → 0 ≤ off ≤ Z.of_nat (length bs) →
  off + Z.of_nat (length bytes) ≤ MAXFILE * BSIZE →
  holds C' (i_inum i) (dinode_of i') (splice bs off bytes).
Proof.
  intros W [Hat Hin Hsz Hmax Hf Hm Hby] Ho He. cbn [di_size di_addrs dinode_of] in *. split.
  - apply W.
  - done.
  - rewrite (wr_ino _ _ _ _ _ _ _ _ _ W). rewrite splice_len by done. cbn. lia.
  - rewrite (wr_ino _ _ _ _ _ _ _ _ _ W). cbn. lia.
  - apply W.
  - by apply (wr_full _ _ _ _ _ _ _ _ _ W).
  - intros k x Hx. cbn [di_addrs dinode_of].
    pose proof (lookup_lt_Some _ _ _ Hx) as Hk. pose proof (splice_len bs off bytes Ho).
    rewrite (wr_byte _ _ _ _ _ _ _ _ _ W) by lia. by eapply splice_bytes.
Qed.

Lemma wrote_untouched C i off bytes C' i' a :
  wrote lg S d0 C i off bytes C' i' → disk_ok lg S d0 C → file_ok S d0 C a → apart C a (i_addrs i) →
  file_ok S d0 C' a ∧ (∀ bn, 0 ≤ bn < MAXFILE → fblock C' a bn = fblock C a bn) ∧
  ∀ o, 0 ≤ o < MAXFILE * BSIZE → fbyte C' a o = fbyte C a o.
Proof.
  intros W K Hf Hap. apply untouched; [done|done| |apply (wr_used _ _ _ _ _ _ _ _ _ W)].
  intros b Hb. destruct (owns_used C _ b Hf Hb). apply (wr_keep _ _ _ _ _ _ _ _ _ W); [done|done|by apply Hap].
Qed.

Lemma wrote_owns C i off bytes C' i' a b :
  wrote lg S d0 C i off bytes C' i' → disk_ok lg S d0 C → file_ok S d0 C a → apart C a (i_addrs i) → owns C' a b → owns C a b.
Proof. intros W K Hf Hap. destruct (wrote_untouched _ _ _ _ _ _ _ W K Hf Hap) as (_ & H & _). apply (untouched_owns C C' a b H). Qed.

Lemma wrote_other C i off bytes C' i' bs j d bs' :
  wrote lg S d0 C i off bytes C' i' → disk_ok lg S d0 C → holds C (i_inum i) (dinode_of i) bs →
  holds C j d bs' → j ≠ i_inum i → apart C (di_addrs d) (i_addrs i) →
  holds C' j d bs' ∧ apart C' (di_addrs d) (i_addrs i').
Proof.
  intros W K Hi [Hat Hin Hsz Hmax Hf Hm Hby] Hj Hap. pose proof (g_pos _ _ _ C K) as Hd.
  destruct (wrote_untouched _ _ _ _ _ _ _ W K Hf Hap) as (F' & Hbl & Hbt). split.
  - split; [|done|done|done|done| |].
    + by rewrite (wr_inodes _ _ _ _ _ _ _ _ _ W).
    + intros bn H1 H2. rewrite Hbl; [by apply Hm|]. change BSIZE with 1024 in *. lia.
    + intros k x Hx. pose proof (lookup_lt_Some _ _ _ Hx). rewrite Hbt by lia. by apply Hby.
  - intros b Hb Hb'. apply (untouched_owns _ _ _ _ Hbl) in Hb. destruct (owns_used C _ b Hf Hb).
    apply (wr_own _ _ _ _ _ _ _ _ _ W) in Hb'; [|done..]. by apply (Hap b).
Qed.

Lemma apart_sym C a a' : apart C a a' → apart C a' a.
Proof. intros H b H1 H2. by apply (H b). Qed.

(** A write to one file is an update of the map at that file. *)
Lemma fs_ok_wrote C F i off bytes C' i' bs :
  fs_ok C F →
  F !! i_inum i = Some (dinode_of i, bs) → wrote lg S d0 C i off bytes C' i' →
  0 ≤ off ≤ Z.of_nat (length bs) → off + Z.of_nat (length bytes) ≤ MAXFILE * BSIZE →
  fs_ok C' (put_file (i_inum i) (dinode_of i') off bytes F).
Proof.
  intros [K Hf Ha] Hi W Ho He. unfold put_file. rewrite Hi. pose proof (Hf _ _ _ Hi) as Hhi.
  assert (∀ j d bs', j ≠ i_inum i → F !! j = Some (d, bs') → holds C' j d bs' ∧ apart C' (di_addrs d) (i_addrs i')) as Hoth.
  { intros j d bs' Hj HF. eapply wrote_other; [exact W|exact K|exact Hhi|by apply Hf|done|].
    by apply (Ha j (i_inum i) d bs' (dinode_of i) bs). }
  split; [apply W| |].
  - intros j d bs'. destruct (decide (j = i_inum i)) as [->|Hj].
    + rewrite lookup_insert_eq. intros [= <- <-]. eapply wrote_holds; [exact W|exact Hhi|done|done].
    + rewrite lookup_insert_ne by done. intros HF. by apply (Hoth j).
  - intros j k d bs1 d' bs2 Hjk Hj Hk. destruct (decide (j = i_inum i)) as [->|Hji].
    + rewrite lookup_insert_eq in Hj. injection Hj as <- <-. rewrite lookup_insert_ne in Hk by done.
      apply apart_sym. by apply (Hoth k d' bs2).
    + rewrite lookup_insert_ne in Hj by done. destruct (decide (k = i_inum i)) as [->|Hki].
      * rewrite lookup_insert_eq in Hk. injection Hk as <- <-. by apply (Hoth j d bs1).
      * rewrite lookup_insert_ne in Hk by done. destruct (Hoth j d bs1 Hji Hj) as [H1 _]. destruct (Hoth k d' bs2 Hki Hk) as [H2 _].
        pose proof (Hf _ _ _ Hj) as Hhj. pose proof (Hf _ _ _ Hk) as Hhk.
        intros b Hb1 Hb2. apply (Ha j k d bs1 d' bs2 Hjk Hj Hk b).
        -- eapply wrote_owns; [exact W|exact K|apply Hhj|exact (Ha _ _ _ _ _ _ Hji Hj Hi)|done].
        -- eapply wrote_owns; [exact W|exact K|apply Hhk|exact (Ha _ _ _ _ _ _ Hki Hk Hi)|done].
Qed.

(** Two contents that differ in the bitmap only, and agree on what it says. *)
Lemma holds_ext C C' j d bs :
  disk_ok lg S d0 C → (∀ b, 0 ≤ b < sb_size S → not_bitmap S b → C' b = C b) →
  (∀ b, 0 ≤ b < sb_size S → is_free S C' b = is_free S C b) → holds C j d bs →
  holds C' j d bs ∧ (∀ b, owns C' (di_addrs d) b ↔ owns C (di_addrs d) b).
Proof.
  intros K He Hf [Hat Hin Hsz Hmax F Hm Hby]. pose proof (g_pos _ _ _ C K) as Hd. pose proof (g_size _ _ _ (do_geom _ _ _ _ K)) as Hs.
  destruct (untouched C C' (di_addrs d) K F) as (F' & Hbl & Hbt).
  { intros b Hb. destruct (owns_used C _ b F Hb). apply He; [lia|]. eapply data_not_bitmap; [exact K|lia]. }
  { intros b Hb. by rewrite Hf. }
  split; [|intros b; by apply untouched_owns]. split; [|done|done|done|done| |].
  - rewrite <- Hat. unfold dinode_at. f_equal. destruct (iblock_meta lg S d0 C j K Hin) as (_ & Hlt & Hnb).
    pose proof (g_inode _ _ _ (do_geom _ _ _ _ K) j Hin). pose proof (g_log _ _ _ (do_geom _ _ _ _ K)).
    pose proof (g_low _ _ _ (do_geom _ _ _ _ K)). apply He; [lia|done].
  - intros bn H1 H2. rewrite Hbl; [by apply Hm|]. change BSIZE with 1024 in *. lia.
  - intros k x Hx. pose proof (lookup_lt_Some _ _ _ Hx). rewrite Hbt by lia. by apply Hby.
Qed.

Lemma fs_ok_ext C C' F :
  fs_ok C F → (∀ b, 0 ≤ b < sb_size S → not_bitmap S b → C' b = C b) →
  (∀ b, 0 ≤ b < sb_size S → is_free S C' b = is_free S C b) → (∀ b, length (C' b) = Z.to_nat BSIZE) → fs_ok C' F.
Proof.
  intros [K Hh Ha] He Hf Hl. split.
  - pose proof (g_size _ _ _ (do_geom _ _ _ _ K)) as Hs. destruct (K) as [K1 K2 K3 _]. split; [done|done| |done].
    intros b Hb. rewrite Hf by lia. by apply K3.
  - intros j d bs HF. by eapply (holds_ext C C' j d bs K He Hf), Hh.
  - intros j k d bs d' bs' Hjk Hj Hk b Hb Hb'. apply (Ha j k d bs d' bs' Hjk Hj Hk b).
    + by apply (holds_ext C C' j d bs K He Hf (Hh _ _ _ Hj)).
    + by apply (holds_ext C C' k d' bs' K He Hf (Hh _ _ _ Hk)).
Qed.

(** A new inode on disk: a file is created or its inode changed. *)
Lemma fs_ok_updated C F i bs :
  fs_ok C F → inode_fits S i → file_ok S d0 C (i_addrs i) → mapped C (i_addrs i) (i_size i) →
  i_size i = Z.of_nat (length bs) → (∀ k x, bs !! k = Some x → fbyte C (i_addrs i) (Z.of_nat k) = x) →
  (∀ j d bs', j ≠ i_inum i → F !! j = Some (d, bs') → apart C (di_addrs d) (i_addrs i)) →
  fs_ok (updated S C i) (<[i_inum i := (dinode_of i, bs)]> F).
Proof.
  intros [K Hh Ha] Hfits Hf Hm Hsz Hby Hap.
  destruct (updated_ok lg S d0 C (i_addrs i) i K Hf eq_refl Hfits) as (K' & F' & B' & U' & S' & I').
  destruct (iblock_meta lg S d0 C (i_inum i) K (if_inum _ _ Hfits)) as (_ & Hlt & Hnb).
  assert (∀ b, d0 ≤ b → updated S C i b = C b) as Hkeep by (intros b Hb; unfold updated; rewrite upd_ne; [done|lia]).
  assert (∀ a, file_ok S d0 C a → file_ok S d0 (updated S C i) a ∧
    (∀ bn, 0 ≤ bn < MAXFILE → fblock (updated S C i) a bn = fblock C a bn) ∧
    ∀ o, 0 ≤ o < MAXFILE * BSIZE → fbyte (updated S C i) a o = fbyte C a o) as Hun.
  { intros a Hfa. apply untouched; [done|done| |].
    - intros b Hb. apply Hkeep. destruct (owns_used C a b Hfa Hb). lia.
    - intros b Hb. by rewrite U'. }
  assert (∀ a b, file_ok S d0 C a → owns (updated S C i) a b ↔ owns C a b) as Hown.
  { intros a b Hfa. exact (untouched_owns C _ a b (proj1 (proj2 (Hun a Hfa)))). }
  split; [done| |].
  - intros j d bs'. destruct (decide (j = i_inum i)) as [->|Hj].
    + rewrite lookup_insert_eq. intros [= <- <-]. destruct (Hun _ Hf) as (_ & Hbl & Hbt).
      split; cbn [di_size di_addrs dinode_of]; [done|apply Hfits|done|apply Hfits|done| |].
      * pose proof (if_size _ _ Hfits). intros bn H1 H2. rewrite Hbl; [by apply Hm|]. change BSIZE with 1024 in *. lia.
      * pose proof (if_size _ _ Hfits). intros k x Hx. pose proof (lookup_lt_Some _ _ _ Hx). rewrite Hbt by lia. by apply Hby.
    + rewrite lookup_insert_ne by done. intros HF. destruct (Hh _ _ _ HF) as [Hat Hin Hsz' Hmax Hf' Hm' Hby'].
      destruct (Hun _ Hf') as (Hf2 & Hbl & Hbt). split; [|done|done|done|done| |].
      * by rewrite I'.
      * intros bn H1 H2. rewrite Hbl; [by apply Hm'|]. change BSIZE with 1024 in *. lia.
      * intros k x Hx. pose proof (lookup_lt_Some _ _ _ Hx). rewrite Hbt by lia. by apply Hby'.
  - assert (∀ j d bs', j ≠ i_inum i → F !! j = Some (d, bs') → apart (updated S C i) (di_addrs d) (i_addrs i)) as Hap'.
    { intros j d bs' Hj HF b. rewrite !Hown by (done || by apply (Hh _ _ _ HF)). by apply (Hap j d bs'). }
    intros j k d bs1 d' bs2 Hjk. destruct (decide (j = i_inum i)) as [->|Hji].
    + rewrite lookup_insert_eq, lookup_insert_ne by done. intros [= <- <-] HF. apply apart_sym. by apply (Hap' k d' bs2).
    + rewrite lookup_insert_ne by done. intros HF. destruct (decide (k = i_inum i)) as [->|Hki].
      * rewrite lookup_insert_eq. intros [= <- <-]. by apply (Hap' j d bs1).
      * rewrite lookup_insert_ne by done. intros HF2 b. rewrite !Hown by (by apply (Hh _ _ _ HF) || by apply (Hh _ _ _ HF2)).
        by apply (Ha j k d bs1 d' bs2).
Qed.

(** The inode of [holds], as the kernel has it in memory. *)
Definition inode_of (j : Z) (d : dinode) : inode :=
  Mk_inode ROOTDEV j 1 1 (di_type d) (di_major d) (di_minor d) (di_nlink d) (di_size d) (di_addrs d).

Lemma short_range d o : - 2 ^ 15 ≤ short_at d o < 2 ^ 15.
Proof. unfold short_at, s16. pose proof (Z.mod_pos_bound (le_val (sub d o 2) + 2 ^ 15) (2 ^ 16) ltac:(done)). lia. Qed.

Lemma holds_fits C j d bs : holds C j d bs → inode_fits S (inode_of j d) ∧ dinode_of (inode_of j d) = d.
Proof.
  intros H. split; [|by destruct d]. pose proof (ho_size _ _ _ _ H). pose proof (ho_max _ _ _ _ H).
  split; cbn; [apply H| | | | |lia]; rewrite <- (ho_at _ _ _ _ H); apply short_range.
Qed.
End fsinv.
