(* ===== verification/FsRead.v ===== *)
(** * Reading files: [readi] of kernel/fs.c

    Outside and inside of transactions, [readi] copies the bytes of a file to its
    destination; it changes no block. *)

From S2P Require Import Prelude Machine State Spinlock KString Kalloc Vm PageTable VmOps UserMem Proc Sched Sleeplock Virtio VirtioProofs Bio LruProofs BlockSpec BioInv BioProofs BioBoot Log LogOps LogCommit LogTrans LogRecover LogSafe.
From S2P Require Import Uart Printf Console Fs FsData FsTx FsMap FsWrite.

(** ** Where the bytes go *)

Section dest.
Context `{L : Layout} `{Oth : Others}.

(** The destination [d] takes [bytes]; after [tot] of them the memory is [mm tot]. *)
Record receives (d : dest) (bytes : list Z) (mm : Z → mem) (s : kstate) : Prop := {
  rc_start : mm 0 = pmem s;
  rc_copy tot m s' : 0 ≤ tot → 0 < m → tot + m ≤ Z.of_nat (length bytes) → cs s' = cs s →
    (∀ p, cur_proc s = Some p → proc_tab s' !! p = proc_tab s !! p) → pmem s' = mm tot →
    either_copyout (dst_at d tot) (sub bytes tot m) s' = Ret 0 (set_pmem (mm (tot + m)) s')
}.

(** A variable of the kernel. *)
Lemma receives_var bytes s : cs_ok 0 (cs s) → receives VarDst bytes (λ _, pmem s) s.
Proof.
  intros Hc. split; [done|]. intros tot m s' _ _ _ Hcs _ Hm. unfold either_copyout.
  erewrite bind_ret; [|apply (myproc_eq 0); by rewrite Hcs]. rewrite <- Hm. cbn. by destruct s'.
Qed.

Lemma take_sub bytes tot m : 0 ≤ tot → 0 ≤ m → take (Z.to_nat (tot + m)) bytes = take (Z.to_nat tot) bytes ++ sub bytes tot m.
Proof. intros H1 H2. unfold sub. rewrite Z2Nat.inj_add by lia. by rewrite take_take_drop. Qed.

Lemma blit_app m a b1 b2 : blit m a (b1 ++ b2) = blit (blit m a b1) (a + Z.of_nat (length b1)) b2.
Proof.
  revert m a. induction b1 as [|x b1 IH]; intros m a; cbn [app blit length]; [by rewrite Z.add_0_r|].
  rewrite IH. f_equal. lia.
Qed.

(** A buffer of the kernel. *)
Lemma receives_kern pa bytes s :
  cs_ok 0 (cs s) → receives (KernDst pa) bytes (λ tot, blit (pmem s) pa (take (Z.to_nat tot) bytes)) s.
Proof.
  intros Hc. split; [done|]. intros tot m s' H1 H2 H3 Hcs _ Hm. unfold either_copyout.
  erewrite bind_ret; [|apply (myproc_eq 0); by rewrite Hcs]. cbn [dst_at].
  erewrite bind_ret; [|reflexivity]. rewrite Hm, take_sub by lia. rewrite blit_app. rewrite length_take.
  by replace (Z.of_nat (Z.to_nat tot `min` length bytes)) with tot by lia.
Qed.

(** Memory of the current process. *)
Lemma receives_uwrite T root s va bytes p pr m' :
  T !! root = Some 2%nat → user_data T root (pmem s) → cs_ok 0 (cs s) → cur_proc s = Some p →
  proc_tab s !! p = Some pr → p_pagetable pr = root → 0 ≤ va → va + Z.of_nat (length bytes) ≤ 2 ^ 64 →
  uwrite (pmem s) root va bytes = Some m' →
  receives (UserDst va) bytes (λ tot, default (pmem s) (uwrite (pmem s) root va (take (Z.to_nat tot) bytes))) s.
Proof.
  intros HT Hud Hc Hp Hpr Hroot Hva Hend Hw. split; [done|]. intros tot m s' H1 H2 H3 Hcs Hpt Hm.
  assert (∀ k : nat, is_Some (uwrite (pmem s) root va (take k bytes))) as Hpre.
  { intros k. rewrite <- (take_drop k bytes), uwrite_app in Hw. destruct (uwrite _ _ _ (take k bytes)); [eauto|done]. }
  destruct (Hpre (Z.to_nat tot)) as [m1 E1]. rewrite E1 in Hm. cbn in Hm.
  destruct (Hpre (Z.to_nat (tot + m))) as [m2 E2]. rewrite E2. cbn [default].
  unfold either_copyout, dst_at. erewrite bind_ret; [|apply (myproc_eq 0); by rewrite Hcs].
  assert (cur_proc s' = Some p) as -> by (unfold cur_proc in *; by rewrite Hcs).
  erewrite bind_ret; [|reflexivity]. erewrite bind_ret; [|reflexivity].
  rewrite (nth_lookup_Some _ _ _ _ (eq_trans (Hpt p Hp) Hpr)), Hroot. rewrite u64_small by lia.
  destruct (uwrite_user_data T root HT _ _ _ _ Hva Hud E1) as [Hud1 _]. rewrite <- Hm in Hud1.
  destruct (copyout_loop_eq T root HT s' (sub bytes tot m) (length (sub bytes tot m)) (va + tot) Hud1) as (r & m3 & E & Hs); [lia|lia|].
  unfold copyout. rewrite E. unfold copyout_spec in Hs. rewrite take_sub, uwrite_app, E1 in E2 by lia. cbn [mbind option_bind] in E2.
  rewrite length_take in E2. replace (Z.of_nat (Z.to_nat tot `min` length bytes)) with tot in E2 by lia.
  rewrite Hm, E2 in Hs. destruct Hs as [-> ->]. done.
Qed.
End dest.

(** ** The bytes of a file *)

Definition file_bytes (C : Z → list Z) (a : list Z) (off : Z) (n : nat) : list Z := fbyte C a <$> zrange off n.

Lemma file_bytes_length C a off n : length (file_bytes C a off n) = n.
Proof. unfold file_bytes. by rewrite length_fmap, zrange_length. Qed.

Lemma file_bytes_lookup C a off n k :
  file_bytes C a off n !! k = if decide (k < n)%nat then Some (fbyte C a (off + Z.of_nat k)) else None.
Proof.
  unfold file_bytes. case_decide as Hk.
  - rewrite list_lookup_fmap. by rewrite (proj2 (zrange_lookup off n k (off + Z.of_nat k))).
  - apply lookup_ge_None. rewrite length_fmap, zrange_length. lia.
Qed.

Lemma file_bytes_sub C a off n tot m :
  0 ≤ tot → 0 ≤ m → tot + m ≤ Z.of_nat n → sub (file_bytes C a off n) tot m = file_bytes C a (off + tot) (Z.to_nat m).
Proof.
  intros H1 H2 H3. apply list_eq. intros k. rewrite sub_lookup, !file_bytes_lookup.
  repeat case_decide; try lia; try done. do 2 f_equal. lia.
Qed.

(** Within one block. *)
Lemma block_bytes C a off m :
  let x := fblock C a (off / BSIZE) in
  0 ≤ off → 0 ≤ m → off mod BSIZE + m ≤ BSIZE → x ≠ 0 → length (C x) = Z.to_nat BSIZE →
  sub (C x) (off mod BSIZE) m = file_bytes C a off (Z.to_nat m).
Proof.
  intros x Ho Hm Hb Hx Hl. apply list_eq. intros k. rewrite sub_lookup, file_bytes_lookup. case_decide as Hk; [|done].
  change BSIZE with 1024 in *. pose proof (Z.mod_pos_bound off 1024 ltac:(lia)) as Hmod.
  assert (off + Z.of_nat k = Z.of_nat k + off mod 1024 + (off / 1024) * 1024) as Eo by (pose proof (Z.div_mod off 1024 ltac:(lia)); lia).
  destruct (lookup_lt_is_Some_2 (C x) (Z.to_nat (off mod 1024) + k)) as [y Hy]; [lia|].
  rewrite Hy. f_equal. unfold fbyte. change BSIZE with 1024.
  rewrite Eo, Z.div_add, Z.mod_add, Z.div_small, Z.add_0_l, Z.mod_small by lia. fold x.
  rewrite (proj2 (Z.eqb_neq x 0)) by done. symmetry. apply nthZ_lookup; [lia|].
  by replace (Z.to_nat (Z.of_nat k + off mod 1024)) with (Z.to_nat (off mod 1024) + k)%nat by lia.
Qed.

Lemma bframe_pmem k m s s' : bframe k s s' → bframe k (set_pmem m s) (set_pmem m s').
Proof.
  intros (sl & bc & vd & pt & n & -> & Hj & Hl & Hp & Hn).
  exists sl, bc, vd, pt, n. split_and!; [by destruct s|done|done|done|done].
Qed.

(** ** One block *)

Section read.
Context `{L : Layout} `{Oth : Others} {B : BlockIO} {BL : BlockLaws B}.
Context (V : bview) (S : superblock) (d0 : Z).
Abbreviation C := (v_content V).

(** The thread holds no buffer and there is one to be had. *)
Record can_read : Prop := {
  cr_held : v_held V = ∅;
  cr_room : (size (v_ref V) < Z.to_nat NBUF)%nat;
  cr_small : small 1 (v_ref V)
}.

Lemma read_bread s b :
  can_read → binv V s → blk_ok b → (0 < sched_left s)%nat →
  wp (bread ROOTDEV b) (λ j s', binv (v_bread j b V) s' ∧ b_data (nth j (bufs (bcache s')) buf0) = C b ∧ bframe 1 s s') s.
Proof.
  intros [H1 H2 H3] HV Hb Hs. eapply wp_mono.
  { apply (law_bread V s b HV Hb); [|by right|done|done]. intros i. by rewrite H1. }
  intros j s' (Hj & HV' & F); cbn beta in *. split_and!; [done| |done].
  apply (law_held _ _ j b HV'). cbn. by rewrite lookup_insert_eq.
Qed.

Lemma read_brelse s0 s j b :
  can_read → binv V s0 → binv (v_bread j b V) s → wp (brelse j) (λ _ s', binv V s' ∧ bframe 0 s s') s.
Proof.
  intros [H1 H2 H3] HV0 HV. eapply wp_mono.
  { apply (law_brelse _ s j b HV); [cbn; by rewrite lookup_insert_eq|]. cbn. intros Hr.
    apply (law_clean V s0 b HV0). apply ref_inc_one in Hr as [Hr|Hr]; [done|].
    by apply (law_ref_pos V s0) in Hr. }
  intros ? s' [HV' F]; cbn beta in *. split; [|done].
  assert (v_brelse j b (v_bread j b V) = V) as <-; [|done].
  unfold v_brelse, v_bread. cbn. rewrite H1, delete_insert_id by done. rewrite <- H1.
  rewrite ref_dec_inc; [by destruct V|]. intros n Hn. by apply (law_ref_pos V s0) in Hn.
Qed.

(** [bmap] of a block that is there. *)
Lemma bmap_read s ip i bn :
  can_read → binv V s → file_ok S d0 C (i_addrs i) → 0 ≤ d0 → sb_size S ≤ 2 ^ 31 →
  nth ip (itable s) inode0 = i → i_dev i = ROOTDEV → 0 ≤ bn < MAXFILE → fblock C (i_addrs i) bn ≠ 0 → (0 < sched_left s)%nat →
  wp (bmap ip bn) (λ r s', r = fblock C (i_addrs i) bn ∧ binv V s' ∧ bframe 1 s s') s.
Proof.
  intros R HV F Hd Hsz Hi Hdev Hbn Hnz Hs. unfold bmap. apply wp_bind, wp_gets. rewrite Hi. cbv zeta.
  destruct (Z.ltb_spec bn NDIRECT) as [Hdir|Hdir].
  - assert (nthZ 0 (i_addrs i) bn = fblock C (i_addrs i) bn) as -> by (unfold fblock; by rewrite (proj2 (Z.ltb_lt _ _))).
    rewrite (proj2 (Z.eqb_neq _ _)) by done. apply wp_ret. split_and!; [done|done|]. eapply bframe_weaken; [apply bframe_refl|lia].
  - rewrite (proj2 (Z.ltb_lt (bn - NDIRECT) NINDIRECT)) by (change MAXFILE with (NDIRECT + NINDIRECT) in Hbn; lia).
    change (nthZ 0 (i_addrs i) NDIRECT) with (indirect (i_addrs i)). set (x := indirect (i_addrs i)).
    assert (fblock C (i_addrs i) bn = if x =? 0 then 0 else uint_at (C x) (4 * (bn - NDIRECT))) as Efb.
    { unfold fblock. by rewrite (proj2 (Z.ltb_ge _ _)). }
    destruct (Z.eqb_spec x 0) as [|Hx]; [congruence|]. destruct (fo_ind _ _ _ _ F Hx) as [Hxr _]. fold x in Hxr.
    apply wp_bind, wp_ret. rewrite (proj2 (Z.eqb_neq x 0)) by done. apply wp_bind, wp_gets. rewrite Hi, Hdev.
    apply wp_bind. eapply wp_mono; [apply (read_bread s x R HV); [unfold blk_ok; lia|done]|].
    intros j s1 (HV1 & Hd1 & F1); cbn beta in *. apply wp_bind, wp_gets. rewrite Hd1, <- Efb.
    rewrite (proj2 (Z.eqb_neq _ _)) by done. apply wp_bind, wp_ret.
    apply wp_bind. eapply wp_mono; [by apply (read_brelse s s1 j x)|]. intros ? s2 [HV2 F2]; cbn beta in *.
    apply wp_ret. split_and!; [done|done|]. replace 1%nat with (1 + 0)%nat by lia. by eapply bframe_trans.
Qed.

(** ** [readi] *)

(** The state [s'] is [s] but for the block layer and the destination's memory. *)
Definition rframe (k : nat) (m : mem) (s s' : kstate) : Prop := bframe k (set_pmem m s) s'.

Lemma rframe_facts k m s s' : rframe k m s s' →
  cs s' = cs s ∧ itable s' = itable s ∧ pmem s' = m ∧ (∀ p, cur_proc s = Some p → proc_tab s' !! p = proc_tab s !! p) ∧
  (sched_left s ≤ sched_left s' + k)%nat.
Proof. intros (sl & bc & vd & pt & n & -> & Hj & Hl & Hp & Hn). split_and!; try done. Qed.

Lemma rframe_trans k1 k2 m1 m2 s s1 s2 : rframe k1 m1 s s1 → rframe k2 m2 s1 s2 → rframe (k1 + k2) m2 s s2.
Proof.
  unfold rframe. intros F1 F2. eapply bframe_trans; [|exact F2].
  apply (bframe_pmem _ m2) in F1. by replace (set_pmem m2 (set_pmem m1 s)) with (set_pmem m2 s) in F1 by (by destruct s).
Qed.

Lemma set_pmem_id s : set_pmem (pmem s) s = s.
Proof. by destruct s. Qed.

(** One block of [readi]. *)
Lemma read_block {A} s ip i d bytes mm off tot m (E1 : K A) (E2 : nat → K A) (Q : list Z → K A) R :
  can_read → binv V s → file_ok S d0 C (i_addrs i) → 0 ≤ d0 → sb_size S ≤ 2 ^ 31 →
  nth ip (itable s) inode0 = i → i_dev i = ROOTDEV → (2 ≤ sched_left s)%nat →
  0 ≤ off < MAXFILE * BSIZE → 0 < m → off mod BSIZE + m ≤ BSIZE → fblock C (i_addrs i) (off / BSIZE) ≠ 0 →
  pmem s = mm tot → sub bytes tot m = file_bytes C (i_addrs i) off (Z.to_nat m) →
  (∀ s', cs s' = cs s → (∀ p, cur_proc s = Some p → proc_tab s' !! p = proc_tab s !! p) → pmem s' = mm tot →
    either_copyout (dst_at d tot) (sub bytes tot m) s' = Ret 0 (set_pmem (mm (tot + m)) s')) →
  (∀ s', binv V s' → rframe 2 (mm (tot + m)) s s' → wp (Q (sub bytes tot m)) R s') →
  wp (addr ← bmap ip (off / BSIZE);
      if addr =? 0 then E1
      else
        i ← get_inode ip;
        bp ← bread (i_dev i) addr;
        bf ← get_buf bp;
        r ← either_copyout (dst_at d tot) (sub (b_data bf) (off mod BSIZE) m);
        if r =? -1 then E2 bp else brelse bp;; Q (sub (b_data bf) (off mod BSIZE) m)) R s.
Proof.
  intros CR HV F Hd Hsz Hi Hdev Hs Ho Hm Hb Hnz Hpm Hby Hcopy HQ. pose proof (div_block off Ho) as Hbn.
  destruct (fo_range _ _ _ _ F _ Hbn Hnz) as [Hxr _].
  apply wp_bind. eapply wp_mono; [apply (bmap_read s ip i (off / BSIZE)); try done; lia|].
  intros x s1 (-> & HV1 & F1); cbn beta in *. set (x := fblock C (i_addrs i) (off / BSIZE)) in *.
  destruct (bframe_facts _ _ _ F1) as (_ & Hc1 & _ & Hit1 & Hsl1).
  rewrite (proj2 (Z.eqb_neq x 0)) by done. apply wp_bind, wp_gets. rewrite Hit1, Hi, Hdev.
  apply wp_bind. eapply wp_mono; [apply (read_bread s1 x CR HV1); [unfold blk_ok; lia|lia]|].
  intros j s2 (HV2 & Hd2 & F2); cbn beta in *. apply wp_bind, wp_gets. rewrite Hd2.
  assert (sub (C x) (off mod BSIZE) m = sub bytes tot m) as ->.
  { rewrite Hby. apply block_bytes; [lia|lia|done|done|by eapply law_len]. }
  pose proof (bframe_trans _ _ _ _ _ F1 F2) as F12. apply wp_bind. eapply wp_eq.
  { destruct (bframe_user _ _ _ F12) as (U1 & U2 & U3). apply Hcopy; [done|done|congruence]. }
  change (0 =? -1) with false. cbn iota. apply (law_pmem _ _ (mm (tot + m))) in HV2.
  apply wp_bind. eapply wp_mono; [by apply (read_brelse s1 _ j x)|].
  intros ? s3 [HV3 F3]; cbn beta in *. apply HQ; [done|]. unfold rframe. replace 2%nat with (2 + 0)%nat by lia.
  eapply bframe_trans; [|exact F3]. by apply bframe_pmem.
Qed.

Lemma readi_loop_ok ip i d mm off0 n c (bytes := file_bytes C (i_addrs i) off0 n) : ∀ fuel s tot,
  can_read → binv V s → file_ok S d0 C (i_addrs i) → 0 ≤ d0 → sb_size S ≤ 2 ^ 31 →
  nth ip (itable s) inode0 = i → i_dev i = ROOTDEV → (2 * c ≤ sched_left s)%nat →
  0 ≤ off0 → 0 ≤ tot ≤ Z.of_nat n → off0 + Z.of_nat n ≤ MAXFILE * BSIZE → mapped C (i_addrs i) (off0 + Z.of_nat n) →
  (tot < Z.of_nat n → (off0 + tot) mod BSIZE + (Z.of_nat n - tot) ≤ Z.of_nat c * BSIZE) →
  pmem s = mm tot →
  (∀ tot m s', 0 ≤ tot → 0 < m → tot + m ≤ Z.of_nat n → cs s' = cs s →
    (∀ p, cur_proc s = Some p → proc_tab s' !! p = proc_tab s !! p) → pmem s' = mm tot →
    either_copyout (dst_at d tot) (sub bytes tot m) s' = Ret 0 (set_pmem (mm (tot + m)) s')) →
  Z.of_nat n - tot < Z.of_nat fuel →
  wp (readi_loop fuel ip d (off0 + tot) (Z.of_nat n) tot (take (Z.to_nat tot) bytes))
    (λ r s', r = (Z.of_nat n, bytes) ∧ binv V s' ∧ rframe (2 * c) (mm (Z.of_nat n)) s s') s.
Proof.
  pose proof (file_bytes_length C (i_addrs i) off0 n) as Hlen. fold bytes in Hlen.
  induction c as [|c IH]; intros fuel s tot CR HV F Hd Hsz Hi Hdev Hs Ho Ht Hend Hmap Hc Hpm Hcopy Hf;
    (destruct fuel as [|fuel]; [lia|]); cbn [readi_loop]; (destruct (Z.ltb_spec tot (Z.of_nat n)) as [Hlt|Hge]);
    (assert (0 ≤ (off0 + tot) mod BSIZE < BSIZE) as Hmod by (by apply Z.mod_pos_bound)); try lia.
  1,3: (apply wp_ret; assert (tot = Z.of_nat n) as -> by lia; rewrite Nat2Z.id, take_ge by lia; split_and!; [done|done|];
    unfold rframe; rewrite <- Hpm, set_pmem_id; eapply bframe_weaken; [apply bframe_refl|lia]).
  cbv zeta. set (m := Z.min (Z.of_nat n - tot) (BSIZE - (off0 + tot) mod BSIZE)) in *.
  assert (0 < m ≤ Z.of_nat n - tot) as Hm by lia.
  assert (sub bytes tot m = file_bytes C (i_addrs i) (off0 + tot) (Z.to_nat m)) as Esub by (apply file_bytes_sub; lia).
  assert (tot + m < Z.of_nat n → (off0 + (tot + m)) mod BSIZE = 0) as Hnext.
  { intros Hlt'. assert (m = BSIZE - (off0 + tot) mod BSIZE) as Em by lia. change BSIZE with 1024 in *.
    pose proof (Z.div_mod (off0 + tot) 1024 ltac:(lia)) as Ed.
    replace (off0 + (tot + m)) with (((off0 + tot) / 1024 + 1) * 1024) by lia. by rewrite Z.mod_mul. }
  apply (read_block s ip i d bytes mm (off0 + tot) tot m _ _ (λ bs, readi_loop fuel ip d (off0 + tot + m) (Z.of_nat n) (tot + m) (take (Z.to_nat tot) bytes ++ bs)));
    try done; try lia.
  - apply Hmap; [apply Z.div_pos; [lia|done]|]. change BSIZE with 1024 in *. pose proof (Z.div_mod (off0 + tot) 1024). lia.
  - intros s' H1 H2 H3. apply Hcopy; try done; lia.
  - intros s1 HV1 F1. destruct (rframe_facts _ _ _ _ F1) as (Hc1 & Hit1 & Hpm1 & Hpt1 & Hsl1).
    rewrite <- take_sub, <- Z.add_assoc by lia. eapply wp_mono.
    { apply (IH fuel s1 (tot + m)); try done; try lia; [congruence|]. intros tot' m' s' H1 H2 H3 H4 H5 H6.
      apply Hcopy; [done|done|done|congruence| |done]. intros p Hp. rewrite <- Hpt1 by done. apply H5. unfold cur_proc in *. by rewrite Hc1. }
    intros r s2 (-> & HV2 & F2); cbn beta in *. split_and!; [done|done|].
    replace (2 * Datatypes.S c)%nat with (2 + 2 * c)%nat by lia. by eapply rframe_trans.
Qed.

(** [readi] of [n] bytes at [off]: as many as the file has. [c] is the number of blocks
    that it touches. *)
Lemma readi_ok ip i d mm off n c s :
  let k := Z.to_nat (Z.min n (i_size i - off)) in let bytes := file_bytes C (i_addrs i) off k in
  can_read → binv V s → file_ok S d0 C (i_addrs i) → 0 ≤ d0 → sb_size S ≤ 2 ^ 31 →
  nth ip (itable s) inode0 = i → i_dev i = ROOTDEV → (2 * c ≤ sched_left s)%nat →
  0 ≤ off ≤ i_size i → 0 ≤ n < 2 ^ 31 → i_size i ≤ MAXFILE * BSIZE → mapped C (i_addrs i) (i_size i) →
  off mod BSIZE + Z.of_nat k ≤ Z.of_nat c * BSIZE → receives d bytes mm s →
  wp (readi ip d off n) (λ r s', r = (Z.of_nat k, bytes) ∧ binv V s' ∧ rframe (2 * c) (mm (Z.of_nat k)) s s') s.
Proof.
  intros k bytes CR HV F Hd Hsz Hi Hdev Hs Ho Hn Hmax Hmap Hc [Hrc0 Hrc].
  assert (MAXFILE * BSIZE = 274432) as EM by done.
  unfold readi. apply wp_bind, wp_gets. rewrite Hi, u32_small by lia.
  rewrite (proj2 (Z.ltb_ge _ _)), (proj2 (Z.ltb_ge _ _)) by lia. cbn [orb]. cbv zeta.
  assert ((if i_size i <? off + n then u32 (i_size i - off) else n) = Z.of_nat k) as ->.
  { destruct (Z.ltb_spec (i_size i) (off + n)); [rewrite u32_small by lia|]; lia. }
  pose proof (readi_loop_ok ip i d mm off k c (Datatypes.S (Z.to_nat (Z.of_nat k))) s 0) as Hl.
  rewrite Z.add_0_r in Hl. apply Hl; try done; try lia.
  - intros bn Hbn Hlt. apply Hmap; [done|lia].
  - intros tot m s' H1 H2 H3. apply Hrc; try done. unfold bytes. rewrite file_bytes_length. done.
Qed.
End read.
