(* ===== verification/FsSafe.v ===== *)
(** * Writing a file is atomic

    The file system (kernel/fs.c) on the log: [begin_op], [writei], [end_op] store bytes
    in a file; after a crash at any moment the file system is the one before the write or
    the one after it, and [readi] reads the bytes back. *)

From S2P Require Import Prelude Machine State Spinlock KString Kalloc Vm PageTable VmOps UserMem VmDemo Proc Sched Sleeplock Virtio VirtioProofs Bio LruProofs BlockSpec BioInv BioProofs BioBoot Log LogOps LogCommit LogTrans LogRecover LogSafe.
From S2P Require Import Uart Printf Console Fs FsData FsTx FsMap FsWrite FsRead.

Section commit.
Context `{L : Layout} `{Oth : Others} {B : BlockIO} {BL : BlockLaws B}.

(** ** The beginning and the end of a transaction *)

Lemma tx_begin V s :
  binv V s → quiet V → lock_free L_log (cs s) → log_idle (klog s) →
  let lg := set_l_outstanding 1 (klog s) in
  tx lg (v_disk V) (v_hist V) (v_disk V) [] [] (set_klog lg s).
Proof.
  intros HV [Hh Hr] Hl [H1 H2 H3 H4 H5 H6 H7 H8] lg.
  assert (∀ b, v_content V b = v_disk V b) as Hcd by (intros b; apply (law_clean V s b HV); by rewrite Hr).
  split; try done.
  - apply law_klog. revert HV. apply binv_proper; [|done]. by split; cbn.
  - split; cbn; try done; try lia; [|constructor|]; intros b Hb; by apply not_elem_of_nil in Hb.
  - split; constructor.
Qed.

Lemma unpin_pins bl : NoDup bl → unpin_all bl (pins bl) = ∅.
Proof.
  intros Hn. apply map_eq. intros x. rewrite lookup_empty. destruct (decide (x ∈ bl)) as [Hx|Hx].
  2:{ rewrite unpin_all_ne by done. by rewrite pins_lookup, decide_False. }
  assert (∀ r, r !! x = Some 1%nat → unpin_all bl r !! x = None) as H.
  { induction Hn as [|y bl Hy Hn IH]; intros r Hr; [by apply not_elem_of_nil in Hx|].
    cbn. fold (unpin_all bl (ref_dec y r)). destruct (decide (x = y)) as [->|Hne].
    - rewrite unpin_all_ne by done. unfold ref_dec. rewrite Hr. apply lookup_delete_eq.
    - apply elem_of_cons in Hx as [->|Hx]; [done|]. apply IH; [done|]. by rewrite ref_dec_ne. }
  apply H. by rewrite pins_lookup, decide_True.
Qed.

(** [end_op] commits: the disk outside the log is [C]; after a crash it is [D] or [C]. *)
Lemma tx_end lg0 D hist C bl s :
  tx lg0 D hist C [] bl s → bl ≠ [] → (length bl < 30)%nat → l_outstanding lg0 = 1 → l_committing lg0 = 0 →
  int_at (D (l_start lg0)) 0 = 0 → (6 * length bl + 4 ≤ sched_left s)%nat →
  wp end_op (λ _ s', ∃ V' W,
    binv V' s' ∧ quiet V' ∧ log_idle (klog s') ∧ l_start (klog s') = l_start lg0 ∧ l_size (klog s') = l_size lg0 ∧
    v_hist V' = hist ++ W ∧ (∀ b, outside lg0 b → v_disk V' b = C b) ∧ int_at (v_disk V' (l_start lg0)) 0 = 0 ∧
    bframe (6 * length bl + 4) (set_klog (klog s') s) s' ∧
    ∀ D' V2 s2, crash_disk D W D' → rebooted (l_start lg0) D' V2 s2 →
      wp recover_from_log (λ _ s3, ∃ V3, binv V3 s3 ∧ lh_n (klog s3) = 0 ∧
        all_or_nothing (l_start lg0) (l_size lg0) D C (v_disk V3)) s2) s.
Proof.
  intros [HV Hl TL [Hout1 Hout] Hcm Hst Hsz Hcl _] Hne Hlen Ho0 Hc0 Hhdr Hs.
  set (V := tview D hist C [] bl) in *. pose proof (pins_size bl) as Hps.
  assert (trans (klog s) bl V) as T.
  { apply tlog_trans; [done|by apply pins_small| |done]. cbn. change (Z.to_nat NBUF) with 30%nat. lia. }
  assert (∀ b, committed V bl b = C b) as Hcomm.
  { intros b. unfold committed. cbn. case_decide; [done|]. symmetry. by apply Hcl. }
  assert (v_ref V !! l_start (klog s) = None) as Href.
  { cbn. rewrite pins_lookup, decide_False; [done|]. intros Hin. destruct (tr_ok _ _ _ T _ Hin) as [_ ?].
    pose proof (tr_fits _ _ _ T). pose proof (tr_n _ _ _ T). lia. }
  assert (length (D (l_start (klog s))) = 1024%nat) as HlD.
  { change (D (l_start (klog s))) with (v_disk V (l_start (klog s))). rewrite <- (law_clean V s) by done. by apply (law_len V s). }
  eapply wp_mono; [apply (end_op_ok V s (klog s) bl); try done; lia|].
  intros ? s' (HV' & Hk' & F'); cbn beta in *.
  exists (v_puts (commit_writes (klog s) (v_content V) bl) (unpin_all bl (v_ref V)) V), (commit_writes (klog s) (v_content V) bl).
  split_and!; try done.
  - split; [done|]. apply unpin_pins, (tl_nodup _ _ _ TL).
  - rewrite Hk'. destruct TL. split; cbn; try done; try lia. pose proof (tr_fits _ _ _ T). pose proof (tr_n _ _ _ T).
    assert (0 < length bl)%nat by (by destruct bl; cbn; [|lia]). lia.
  - by rewrite Hk'.
  - by rewrite Hk'.
  - intros b Hb. cbn [v_disk v_puts]. rewrite commit_final; [apply Hcomm|done|done|]. unfold outside in *. by rewrite Hst, Hsz.
  - cbn [v_disk v_puts]. unfold commit_writes. rewrite app_assoc, apply_writes_app. cbn [apply_writes foldl].
    rewrite Hst, upd_eq. rewrite <- Hst. by destruct (hdr_spec (klog s) bl V T (λ b, law_len V s b HV)) as (_ & _ & _ & _ & ?).
  - by rewrite Hk'.
  - intros D' V2 s2 Hcr R. rewrite <- Hst in R. eapply wp_mono.
    { eapply (commit_recovery (klog s) bl V s V2 s2 D'); try done. cbn. by rewrite Hst. }
    intros ? s3 (V3 & HV3 & Hn3 & H3). exists V3. split_and!; [done|done|]. rewrite Hst, Hsz in H3.
    destruct H3 as [H3|H3]; [left|right]; intros b Hb; rewrite H3 by done; [done|apply Hcomm].
Qed.
End commit.

(** ** File systems that agree outside the log *)

Section agree.
Context `{L : Layout}.
Context (lg lg' : log_state) (S : superblock) (d0 : Z) (C C' : Z → list Z).
Hypothesis Hlg : l_start lg' = l_start lg ∧ l_size lg' = l_size lg.
Hypothesis K : disk_ok lg S d0 C.
Hypothesis Hout : ∀ b, outside lg b → C' b = C b.
Hypothesis Hlen : ∀ b, length (C' b) = Z.to_nat BSIZE.

Lemma outside_high b : l_start lg + l_size lg ≤ b → C' b = C b.
Proof. intros Hb. apply Hout. by right. Qed.

Lemma agree_free b : 0 ≤ b < sb_size S → is_free S C' b = is_free S C b.
Proof. intros Hb. unfold is_free. rewrite outside_high; [done|]. apply (g_bmap _ _ _ (do_geom _ _ _ _ K) b Hb). Qed.

Lemma agree_has_free q : has_free S d0 q C → has_free S d0 q C'.
Proof.
  intros (fl & Hn & Hl & Hf). exists fl. split_and!; [done|done|]. intros b Hb. destruct (Hf b Hb).
  pose proof (g_pos _ _ _ C K). by rewrite agree_free by lia.
Qed.

Lemma agree_geometry : geometry lg' S d0.
Proof. destruct Hlg as [E1 E2]. destruct (do_geom _ _ _ _ K). split; rewrite ?E1, ?E2; done. Qed.

Lemma agree_disk : disk_ok lg' S d0 C'.
Proof.
  pose proof (g_size _ _ _ (do_geom _ _ _ _ K)). split; [apply agree_geometry|apply K| |done].
  intros b Hb. rewrite agree_free by lia. by apply (do_low _ _ _ _ K).
Qed.

Lemma agree_data b : d0 ≤ b → C' b = C b.
Proof. intros Hb. apply outside_high. pose proof (g_log _ _ _ (do_geom _ _ _ _ K)). lia. Qed.

Context (a : list Z) (F : file_ok S d0 C a).

Lemma agree_fblock bn : fblock C' a bn = fblock C a bn.
Proof.
  unfold fblock. destruct (bn <? NDIRECT); [done|]. destruct (Z.eqb_spec (indirect a) 0) as [|Hi]; [done|].
  rewrite agree_data; [done|]. apply (fo_ind _ _ _ _ F Hi).
Qed.

Lemma agree_file : file_ok S d0 C' a.
Proof.
  pose proof (g_pos _ _ _ C K). destruct (F) as [F1 F2 F3 F4 F5]. split; [done| | | |].
  - intros bn Hbn. rewrite agree_fblock. intros Hz. destruct (F2 bn Hbn Hz). split; [done|]. by rewrite agree_free by lia.
  - intros b1 b2. rewrite !agree_fblock. apply F3.
  - intros Hi. destruct (F4 Hi). split; [done|]. by rewrite agree_free by lia.
  - intros bn. rewrite agree_fblock. apply F5.
Qed.

Lemma agree_byte o : 0 ≤ o < MAXFILE * BSIZE → fbyte C' a o = fbyte C a o.
Proof.
  apply fbyte_same; [intros; apply agree_fblock|]. intros bn Hbn Hz. apply agree_data. by apply (fo_range _ _ _ _ F bn Hbn).
Qed.

Lemma agree_mapped e : mapped C a e → mapped C' a e.
Proof. intros M bn H1 H2. rewrite agree_fblock. by apply M. Qed.

Lemma agree_owns b : owns C' a b → owns C a b.
Proof. intros [Hz [->|(bn & Hbn & ->)]]; (split; [done|]); [by left|right]. exists bn. split; [done|]. by rewrite agree_fblock. Qed.

Lemma agree_dinode k : 0 ≤ k < sb_ninodes S → dinode_at S C' k = dinode_at S C k.
Proof.
  intros Hk. unfold dinode_at. rewrite outside_high; [done|]. apply (g_inode _ _ _ (do_geom _ _ _ _ K) k Hk).
Qed.
End agree.

Lemma wrote_agree lg lg' S d0 C i off bytes C1 C2 i' :
  wrote lg S d0 C i off bytes C1 i' → inode_fits S i → l_start lg' = l_start lg ∧ l_size lg' = l_size lg →
  (∀ b, outside lg b → C2 b = C1 b) → (∀ b, length (C2 b) = Z.to_nat BSIZE) →
  wrote lg' S d0 C i off bytes C2 i'.
Proof.
  intros [W1 K F B2 S1 I1 U1 P1 O1 M1] Hfits Hlg Ho Hl. pose proof (g_pos _ _ _ C1 K).
  assert (0 ≤ i_inum i < sb_ninodes S) as Hi by apply Hfits. split; try done.
  - by eapply agree_disk.
  - by eapply agree_file.
  - intros o Hoo. rewrite <- B2 by done. by eapply agree_byte.
  - rewrite <- S1. by eapply agree_dinode.
  - intros k Hk Hne. rewrite <- I1 by done. by eapply agree_dinode.
  - intros b Hb Hf. erewrite agree_free; [by apply U1|done..].
  - intros b Hb Hf Hno. rewrite <- P1 by done. eapply agree_data; [done|done|lia].
  - intros b Hb Hf Hno. apply O1; [done|done|]. by eapply agree_owns.
  - intros Hm. eapply agree_mapped; [done|done|done|]. by apply M1.
Qed.

(** ** A file of a quiet file system *)

(** The inode [ip] in memory is that of a file on the disk [D]. *)
Record file_on (lg : log_state) (S : superblock) (d0 : Z) (D : Z → list Z) (ip : nat) (i : inode) (s : kstate) : Prop := {
  fn_disk : disk_ok lg S d0 D;
  fn_sb : sb s = S;
  fn_file : file_ok S d0 D (i_addrs i);
  fn_ino : itable s !! ip = Some i;
  fn_dev : i_dev i = ROOTDEV;
  fn_fits : inode_fits S i;
  fn_full : mapped D (i_addrs i) (i_size i);
  fn_stored : dinode_at S D (i_inum i) = dinode_of i
}.

Section files.
Context `{L : Layout} `{Oth : Others} {B : BlockIO} {BL : BlockLaws B}.

(** No operation is running. *)
Record at_rest (V : bview) (s : kstate) : Prop := {
  ar_inv : binv V s;
  ar_quiet : quiet V;
  ar_lock : lock_free L_log (cs s);
  ar_log : log_idle (klog s);
  ar_clean : int_at (v_disk V (l_start (klog s))) 0 = 0
}.

Lemma at_rest_disk V s b : at_rest V s → v_content V b = v_disk V b.
Proof. intros [HV [Hh Hr] _ _ _]. apply (law_clean V s b HV). by rewrite Hr. Qed.

Lemma at_rest_len V s b : at_rest V s → length (v_disk V b) = Z.to_nat BSIZE.
Proof. intros R. rewrite <- (at_rest_disk V s b R). apply (law_len V s), R. Qed.

(** How often a write of [c] blocks may wait. *)
Definition write_waits (S : superblock) (c : nat) : nat := (c * block_waits S + 1 + (6 * (6 * c + 1) + 4))%nat.

(** What a crash during the writes [W] of an operation leaves after recovery: the disk
    [D] before it or the disk [D'] after it. *)
Definition crash_safe (lg : log_state) (W : list (Z * list Z)) (D D' : Z → list Z) : Prop :=
  ∀ Dc V2 s2, crash_disk D W Dc → rebooted (l_start lg) Dc V2 s2 →
    wp recover_from_log (λ _ s3, ∃ V3, binv V3 s3 ∧ lh_n (klog s3) = 0 ∧
      all_or_nothing (l_start lg) (l_size lg) D D' (v_disk V3)) s2.

(** The end of a write: [end_op] after [writei]. *)
Lemma commit_write V s S d0 ip i i' off bytes C bl s1 q :
  let lg := set_l_outstanding 1 (klog s) in
  at_rest V s → tx lg (v_disk V) (v_hist V) C [] bl s1 → bl ≠ [] → (length bl < 30)%nat →
  wrote lg S d0 (v_disk V) i off bytes C i' → inode_fits S i → i_dev i = ROOTDEV → mapped (v_disk V) (i_addrs i) (i_size i) →
  0 ≤ off → off + Z.of_nat (length bytes) ≤ MAXFILE * BSIZE → itable s1 !! ip = Some i' → sb s1 = S →
  has_free S d0 q C → (6 * length bl + 4 ≤ sched_left s1)%nat →
  wp end_op (λ _ s', ∃ V' W,
    at_rest V' s' ∧ l_start (klog s') = l_start (klog s) ∧ l_size (klog s') = l_size (klog s) ∧
    v_hist V' = v_hist V ++ W ∧ file_on (klog s') S d0 (v_disk V') ip i' s' ∧
    wrote (klog s) S d0 (v_disk V) i off bytes (v_disk V') i' ∧ crash_safe (klog s) W (v_disk V) (v_disk V') ∧
    has_free S d0 q (v_disk V') ∧ bframe (6 * length bl + 4) (set_klog (klog s') s1) s') s1.
Proof.
  intros lg R T Hne Hlen W Hfits Hdev Hfull Ho He Hi HS Hfr Hs. pose proof R as [HV [Hh Hr] Hl Hidle Hclean].
  eapply wp_mono.
  { apply (tx_end lg (v_disk V) (v_hist V) C bl s1 T Hne); [done|done|apply Hidle|done|done]. }
  intros ? s2 (V' & W' & HV' & Hq' & Hidle' & Hst' & Hsz' & Hhist & Hdisk & Hclean' & F2 & Hcrash); cbn beta in *.
  destruct (bframe_facts _ _ _ F2) as (_ & Hc2 & HS2 & Hit2 & Hsl2). cbn in Hc2, HS2, Hit2, Hsl2.
  assert (at_rest V' s2) as R' by (split; [done|done|rewrite Hc2; apply T|done|by rewrite Hst']).
  assert (wrote (klog s) S d0 (v_disk V) i off bytes (v_disk V') i') as W2.
  { eapply (wrote_agree lg); [exact W|done|done|done|]. intros b. by eapply at_rest_len. }
  exists V', W'. split_and!; try done.
  - split.
    + eapply (agree_disk (klog s)); [by rewrite Hst', Hsz'|apply W2|done|]. intros b. by eapply at_rest_len.
    + by rewrite HS2.
    + apply W2.
    + by rewrite Hit2.
    + rewrite (wr_ino _ _ _ _ _ _ _ _ _ W2). done.
    + rewrite (wr_ino _ _ _ _ _ _ _ _ _ W2). destruct Hfits. split; try done. cbn. lia.
    + by apply (wr_full _ _ _ _ _ _ _ _ _ W2).
    + rewrite <- (wr_stored _ _ _ _ _ _ _ _ _ W2). by rewrite (wr_ino _ _ _ _ _ _ _ _ _ W2).
  - intros Dc V2 s3 Hcr Rb. eapply wp_mono; [by apply (Hcrash Dc V2 s3)|]. intros ? s4 (V3 & HV3 & Hn3 & A). exists V3.
    split_and!; [done|done|]. destruct A as [A|A]; [left|right]; intros b Hb; rewrite A by done; [done|].
    symmetry. by apply Hdisk.
  - by eapply agree_has_free; [apply W|..].
Qed.

(** The beginning: [begin_op] before [writei]. *)
Lemma begin_write V s :
  at_rest V s → begin_op s = Ret tt (set_klog (set_l_outstanding 1 (klog s)) s).
Proof.
  intros [HV _ Hl Hidle _]. rewrite (begin_op_eq s 0); [by rewrite (li_out _ Hidle)|by apply (law_env V)|done|apply Hidle|].
  by rewrite (li_n _ Hidle), (li_out _ Hidle).
Qed.

Lemma begin_tx V s S d0 ip i :
  at_rest V s → file_on (klog s) S d0 (v_disk V) ip i s → let lg := set_l_outstanding 1 (klog s) in
  file_tx lg (v_disk V) (v_hist V) S d0 (v_disk V) (i_addrs i) [] ip i (set_klog lg s).
Proof.
  intros R [K HS F Hi Hdev Hfits Hfull _] lg. pose proof R as [HV Hq Hl Hidle Hclean]. split; try done.
  - by apply tx_begin.
  - eapply (agree_disk (klog s)); [done|exact K|done|]. intros b. by eapply at_rest_len.
Qed.

(** A write of at most four blocks as a transaction. *)
Lemma write_tx V s S d0 ip i sr bytes off c q :
  let n := Z.of_nat (length bytes) in
  at_rest V s → file_on (klog s) S d0 (v_disk V) ip i s → supplies sr bytes s → 30 ≤ l_size (klog s) →
  0 ≤ off ≤ i_size i → off + n ≤ MAXFILE * BSIZE → off mod BSIZE + n ≤ Z.of_nat c * BSIZE → (c ≤ 4)%nat →
  has_free S d0 (2 * c + q) (v_disk V) → (write_waits S c ≤ sched_left s)%nat →
  wp (begin_op;; r ← writei ip sr off n; end_op;; mret r) (λ r s', r = n ∧ ∃ V' W i',
    at_rest V' s' ∧ v_hist V' = v_hist V ++ W ∧ itable s' = <[ip := i']> (itable s) ∧
    file_on (klog s') S d0 (v_disk V') ip i' s' ∧ wrote (klog s) S d0 (v_disk V) i off bytes (v_disk V') i' ∧
    crash_safe (klog s) W (v_disk V) (v_disk V') ∧ txframe (write_waits S c) s s') s.
Proof.
  intros n R Hf Hsup Hsize Hoff Hend Hc Hc4 Hfree Hs. unfold write_waits in *. set (lg := set_l_outstanding 1 (klog s)).
  apply wp_bind. eapply wp_eq; [by eapply begin_write|]. pose proof (begin_tx V s S d0 ip i R Hf) as FT. fold lg in FT |- *.
  pose proof (fn_fits _ _ _ _ _ _ _ Hf) as Hfits. pose proof (fn_ino _ _ _ _ _ _ _ Hf) as Hi.
  apply wp_bind. eapply wp_mono.
  { apply (writei_ok lg (v_disk V) (v_hist V) S d0 (v_disk V) [] ip i (set_klog lg s) sr bytes off c q FT Hfits); try done.
    - split; cbn [length]; [change (l_size lg) with (l_size (klog s))|]; lia.
    - change (sched_left (set_klog lg s)) with (sched_left s). lia. }
  intros r s1 (-> & C' & i' & bl' & T1 & Hit1 & W & Hbl & Hne & Hfr1 & F1); cbn beta in *. cbn [length Nat.add] in Hbl.
  destruct (txframe_facts _ _ _ F1) as (Hc1 & HS1 & _ & Hsl1). change (sched_left (set_klog lg s)) with (sched_left s) in Hsl1.
  apply wp_bind. eapply wp_mono.
  { apply (commit_write V s S d0 ip i i' off bytes C' bl' s1 q R T1 Hne); try done; try lia.
    - apply (fn_dev _ _ _ _ _ _ _ Hf).
    - apply (fn_full _ _ _ _ _ _ _ Hf).
    - rewrite Hit1. cbn. apply list_lookup_insert_eq. by apply lookup_lt_Some in Hi.
    - rewrite HS1. apply Hf. }
  intros ? s2 (V' & W' & R' & Hst' & Hsz' & Hhist & Hf' & W2 & Hcr & Hfr2 & F2); cbn beta in *.
  destruct (bframe_facts _ _ _ F2) as (_ & _ & _ & Hit2 & _). cbn in Hit2.
  apply wp_ret. split; [done|]. exists V', W', i'. split_and!; try done.
  - by rewrite Hit2, Hit1.
  - apply (txframe_weaken (0 + (c * block_waits S + 1 + (6 * length bl' + 4)))); [|lia].
    eapply txframe_trans; [apply (txframe_of _ _ _ lg), bframe_refl|].
    eapply txframe_trans; [exact F1|by eapply txframe_of].
Qed.

Lemma wp_then {St X Y} (m1 : M St unit) (m2 : M St X) (m3 : M St unit) (k : X → M St Y) R Q s :
  wp (m1;; r ← m2; m3;; mret r) R s → (∀ r s', R r s' → wp (k r) Q s') → wp (m1;; r ← m2; m3;; k r) Q s.
Proof.
  unfold wp, mbind, M_bind. intros Hm Hk. destruct (m1 s) as [[] s1| |]; [|done|done].
  destruct (m2 s1) as [r s2| |]; [|done|done]. destruct (m3 s2) as [[] s3| |]; [|done|done]. by apply Hk.
Qed.

Lemma receives_user d bytes mm s s' : same_user s s' → receives d bytes mm s → receives d bytes mm s'.
Proof.
  intros (U1 & U2 & U3) [H0 Hc]. split; [by rewrite U2|]. intros tot m s2 H1 H2 H3 H4 H5 H6.
  apply Hc; [done|done|done|congruence| |done]. intros p Hp. rewrite H5; [by apply U3|]. unfold cur_proc in *. by rewrite U1.
Qed.

(** A file that has just been written holds the bytes. *)
Lemma over_bytes C a off w bytes :
  0 ≤ off → off + Z.of_nat (length bytes) ≤ MAXFILE * BSIZE →
  (∀ o, 0 ≤ o < MAXFILE * BSIZE → fbyte C a o = over w off bytes o) → file_bytes C a off (length bytes) = bytes.
Proof.
  intros Ho He Hw. apply list_eq. intros k. rewrite file_bytes_lookup. case_decide as Hk.
  - destruct (lookup_lt_is_Some_2 bytes k Hk) as [x Hx]. rewrite Hx. f_equal. rewrite Hw by lia. unfold over.
    rewrite decide_True by lia. apply nthZ_lookup; [lia|]. by replace (Z.to_nat (off + Z.of_nat k - off)) with k by lia.
  - symmetry. apply lookup_ge_None. lia.
Qed.

(** [readi] of a file of a quiet file system. *)
Lemma read_on V s S d0 ip i d mm off n c :
  let k := Z.to_nat (Z.min n (i_size i - off)) in let bytes := file_bytes (v_disk V) (i_addrs i) off k in
  at_rest V s → file_on (klog s) S d0 (v_disk V) ip i s → receives d bytes mm s →
  0 ≤ off ≤ i_size i → 0 ≤ n < 2 ^ 31 → off mod BSIZE + Z.of_nat k ≤ Z.of_nat c * BSIZE → (2 * c ≤ sched_left s)%nat →
  wp (readi ip d off n) (λ r s', r = (Z.of_nat k, bytes) ∧ at_rest V s' ∧ rframe (2 * c) (mm (Z.of_nat k)) s s') s.
Proof.
  intros k bytes R [K HS F Hi Hdev Hfits Hfull _] Hrc Ho Hn Hc Hs. pose proof R as [HV [Hh Hr] Hl Hidle Hclean].
  assert (∀ b, v_content V b = v_disk V b) as Hcd by (intros b; by eapply at_rest_disk).
  assert (∀ b, outside (klog s) b → v_content V b = v_disk V b) as Hcd' by done.
  pose proof (g_size _ _ _ (do_geom _ _ _ _ K)). pose proof (g_pos _ _ _ _ K).
  assert (file_bytes (v_content V) (i_addrs i) off k = bytes) as Eb.
  { apply list_eq. intros j. unfold bytes. rewrite !file_bytes_lookup. case_decide; [|done]. f_equal.
    pose proof (if_size _ _ Hfits). eapply agree_byte; [exact K|done|done|lia]. }
  eapply wp_mono.
  { apply (readi_ok V S d0 ip i d mm off n c s); try done; try lia.
    - split; [done|rewrite Hr, map_size_empty; change (Z.to_nat NBUF) with 30%nat; lia|rewrite Hr; apply small_empty].
    - eapply agree_file; [exact K|done|done].
    - by apply nth_lookup_Some.
    - apply Hfits.
    - eapply agree_mapped; [exact K|done|done|done].
    - fold k. by rewrite Eb. }
  fold k. rewrite Eb. intros r s' (-> & HV' & Fr); cbn beta in *. split_and!; [done| |done].
  destruct Fr as (sl & bc & vd & pt & m & -> & _). by split.
Qed.
End files.

(** ** Properties *)

Section properties.
Context `{L : Layout} `{Oth : Others} `{VD : VirtioDev} {DE : DiskEnv}.

(** C3. Writing to a file is atomic. On a quiet file system, [begin_op; writei; end_op]
    with [n] bytes at an offset up to the file's size, over at most four blocks (the
    limit of [filewrite]), returns [n]. Afterwards the file on disk has the new bytes
    where they were written and the old ones elsewhere, its inode on disk has the new
    size and addresses, its blocks are marked used and belong to it alone; every other
    inode and every block of other files is as before. If the machine stops at any
    moment, recovery leaves the disk as it was before the write or as it is after it. *)
Theorem file_write_atomic V s S d0 ip i sr bytes off c :
  let n := Z.of_nat (length bytes) in
  at_rest V s → file_on (klog s) S d0 (v_disk V) ip i s → supplies sr bytes s → 30 ≤ l_size (klog s) →
  0 ≤ off ≤ i_size i → off + n ≤ MAXFILE * BSIZE → off mod BSIZE + n ≤ Z.of_nat c * BSIZE → (c ≤ 4)%nat →
  has_free S d0 (2 * c) (v_disk V) → (write_waits S c ≤ sched_left s)%nat →
  wp (begin_op;; r ← writei ip sr off n; end_op;; mret r) (λ r s', r = n ∧ ∃ V' W i',
    at_rest V' s' ∧ file_on (klog s') S d0 (v_disk V') ip i' s' ∧ itable s' = <[ip := i']> (itable s) ∧
    wrote (klog s) S d0 (v_disk V) i off bytes (v_disk V') i' ∧
    v_hist V' = v_hist V ++ W ∧ crash_safe (klog s) W (v_disk V) (v_disk V')) s.
Proof.
  intros n R Hf Hsup Hsz Ho He Hc H4 Hfr Hs. rewrite <- (Nat.add_0_r (2 * c)) in Hfr.
  eapply wp_mono; [by apply (write_tx V s S d0 ip i sr bytes off c 0)|].
  intros r s' (-> & V' & W & i' & R' & Hh & Hit & Hf' & Hw & Hcr & _). split; [done|]. by exists V', W, i'.
Qed.

(** What was written is read: [readi] at the same place after the write delivers the
    bytes, whatever the source and the destination are (user memory, kernel memory or a
    variable). *)
Theorem write_read_back V s S d0 ip i sr bytes off c d mm :
  let n := Z.of_nat (length bytes) in
  at_rest V s → file_on (klog s) S d0 (v_disk V) ip i s → supplies sr bytes s → receives d bytes mm s →
  30 ≤ l_size (klog s) → 0 ≤ off ≤ i_size i → off + n ≤ MAXFILE * BSIZE →
  off mod BSIZE + n ≤ Z.of_nat c * BSIZE → (c ≤ 4)%nat →
  has_free S d0 (2 * c) (v_disk V) → (write_waits S c + 2 * c ≤ sched_left s)%nat →
  wp (begin_op;; _ ← writei ip sr off n; end_op;; readi ip d off n)
    (λ r s', r = (n, bytes) ∧ pmem s' = mm n) s.
Proof.
  intros n R Hf Hsup Hrc Hsz Ho He Hc H4 Hfr Hs. rewrite <- (Nat.add_0_r (2 * c)) in Hfr.
  assert (MAXFILE * BSIZE = 274432) as EM by done. pose proof (if_size _ _ (fn_fits _ _ _ _ _ _ _ Hf)).
  eapply wp_then; [apply (write_tx V s S d0 ip i sr bytes off c 0); try done; lia|].
  intros r s' (-> & V' & W & i' & R' & _ & _ & Hf' & Hw & _ & F). cbn beta.
  destruct (txframe_facts _ _ _ F) as (_ & _ & _ & Hsl).
  assert (i_size i' = Z.max (i_size i) (off + n)) as Esz by (by rewrite (wr_ino _ _ _ _ _ _ _ _ _ Hw)).
  assert (Z.to_nat (Z.min n (i_size i' - off)) = length bytes) as Ek by lia.
  pose proof (over_bytes (v_disk V') (i_addrs i') off _ bytes ltac:(lia) He (wr_byte _ _ _ _ _ _ _ _ _ Hw)) as Eb.
  pose proof (read_on V' s' S d0 ip i' d mm off n c R' Hf') as Hread. cbn zeta in Hread. rewrite Ek, Eb in Hread.
  eapply wp_mono; [apply Hread; [by eapply receives_user; [by eapply txframe_user|]|lia|lia|done|lia]|].
  intros r s2 (-> & _ & Fr). split; [done|]. by destruct (rframe_facts _ _ _ _ Fr) as (_ & _ & ? & _).
Qed.
End properties.

(** ** A machine with a file system *)

(** 100 blocks: the log in 2 to 31, 32 inodes in 32 and 33, the bitmap in 34, data from
    35 on. Block 35 belongs to a file, the blocks after it are free. *)
Definition demo_sb : superblock := Mk_superblock FSMAGIC 100 65 32 30 2 32 34.
Definition demo_bitmap : list Z := [255; 255; 255; 255; 15] ++ replicate 1019 0.
(** Inode 5, a file with the five bytes [hello]. *)
Definition demo_inode : inode := Mk_inode ROOTDEV 5 1 1 T_FILE 0 0 1 5 (35 :: replicate 12 0).
Definition demo_hello : list Z := [104; 101; 108; 108; 111] ++ replicate 1019 0.
Definition demo_inodes : list Z := splice zero_block (5 * sizeof_dinode) (bytes_of_dinode (dinode_of demo_inode)).
Definition demo_fs_disk : vdisk_state := demo_disk (<[32 := demo_inodes]> (<[35 := demo_hello]> {[ 34 := demo_bitmap ]})).

Lemma demo_fs_len b : length (block_of demo_fs_disk b) = Z.to_nat BSIZE.
Proof.
  unfold block_of, demo_fs_disk. cbn [demo_disk vd_blocks set_vd_blocks].
  destruct (decide (b = 32)) as [->|H2]; [by rewrite lookup_insert_eq|]. rewrite lookup_insert_ne by done.
  destruct (decide (b = 35)) as [->|H3]; [by rewrite lookup_insert_eq|]. rewrite lookup_insert_ne by done.
  destruct (decide (b = 34)) as [->|Hne]; [by rewrite lookup_singleton_eq|by rewrite lookup_singleton_ne].
Qed.

Lemma demo_bitmap_free b : 0 ≤ b < 100 → is_free demo_sb (block_of demo_fs_disk) b = (36 <=? b).
Proof.
  intros Hb. assert (forallb (λ b, Bool.eqb (is_free demo_sb (block_of demo_fs_disk) b) (36 <=? b)) (zrange 0 100) = true) as H
    by (vm_compute; reflexivity).
  rewrite forallb_forall in H. apply Bool.eqb_prop, H, list_elem_of_In, elem_of_zrange. lia.
Qed.

Lemma demo_geometry : geometry (demo_log 0 []) demo_sb 35.
Proof.
  assert (∀ b, 0 ≤ b < 100 → BBLOCK b demo_sb = 34) as Hb.
  { intros b Hb. unfold BBLOCK. change BPB with 8192. rewrite Z.div_small by lia. done. }
  assert (∀ i, 0 ≤ i < 32 → 32 ≤ IBLOCK i demo_sb ≤ 33) as Hi.
  { intros i Hi. unfold IBLOCK. change IPB with 16. change (sb_inodestart demo_sb) with 32.
    assert (0 ≤ i / 16 < 2) by (split; [apply Z.div_pos; lia|apply Z.div_lt_upper_bound; lia]). rewrite u32_small by lia. lia. }
  split; cbn [sb_size sb_ninodes demo_sb demo_log l_start l_size sb_inodestart]; try lia.
  - intros b Hr. rewrite Hb by done. lia.
  - intros i Hr. pose proof (Hi i Hr). lia.
  - intros b i Hr Hr'. rewrite Hb by done. pose proof (Hi i Hr'). lia.
  - done.
Qed.

Lemma demo_disk_ok : disk_ok (demo_log 0 []) demo_sb 35 (block_of demo_fs_disk).
Proof.
  split.
  - exact demo_geometry.
  - done.
  - intros b Hb. rewrite demo_bitmap_free by lia. apply Z.leb_gt. lia.
  - exact demo_fs_len.
Qed.

Lemma demo_fblock C bn : 0 ≤ bn < MAXFILE → fblock C (i_addrs demo_inode) bn = if decide (bn = 0) then 35 else 0.
Proof.
  intros Hbn. unfold fblock. destruct (Z.ltb_spec bn NDIRECT) as [H|H].
  2:{ change NDIRECT with 12 in H. rewrite decide_False by lia. done. }
  case_decide as E; [by subst bn|]. change NDIRECT with 12 in H. apply nthZ_lookup; [lia|].
  cbn [i_addrs demo_inode]. rewrite lookup_cons_ne_0 by lia. apply lookup_replicate. split; [done|lia].
Qed.

Lemma demo_file_ok : file_ok demo_sb 35 (block_of demo_fs_disk) (i_addrs demo_inode).
Proof.
  split; [done| | |done|done].
  - intros bn Hbn. rewrite demo_fblock by done. case_decide; [|done]. intros _. split; [cbn; lia|]. by rewrite demo_bitmap_free by lia.
  - intros bn bn' Hbn Hbn'. rewrite !demo_fblock by done. repeat case_decide; congruence.
Qed.

Lemma demo_has_free : has_free demo_sb 35 4 (block_of demo_fs_disk).
Proof.
  exists [36; 37; 38; 39]. split_and!; [|done|].
  - repeat constructor; set_solver.
  - intros b Hb. assert (36 ≤ b < 40) by (set_solver by lia). cbn [sb_size demo_sb]. rewrite demo_bitmap_free by lia.
    split; [lia|]. apply Z.leb_le. lia.
Qed.

(** Process 1 of [pdemo] with the memory of [demo], and file 0 open on inode 0 at
    offset 2. *)
Definition demo_file : file := Mk_file FD_INODE 1 1 1 0 (Some 0%nat) 2 0.
Definition demo_me (q : proc) : proc :=
  set_p_trapframe 0x87ffb000 (set_p_ofile (<[3%nat := Some 0%nat]> (p_ofile q)) (set_p_pagetable demo_rootA q)).
Definition demo_user (n : nat) : kstate :=
  set_ftable [demo_file] (set_sb demo_sb (set_itable [demo_inode] (set_pmem demo_mem
    (set_proc_tab (alter demo_me 1%nat (proc_tab pdemo))
      (set_cs (put_lock (L_sleep (SL_inode 0)) (Mk_spinlock 0 "sleep lock" None) (cs pdemo))
        (set_vdisk demo_fs_disk (set_klog (demo_log 0 []) (bdemo0 n)))))))).

Lemma demo_user_free l n : lock_free l (cs pdemo) → lock_free l (cs (demo_user n)).
Proof.
  intros [name Hl]. change (lock_free l (put_lock (L_sleep (SL_inode 0)) (Mk_spinlock 0 "sleep lock" None) (cs pdemo))).
  unfold lock_free, put_lock. cbn. destruct (decide (L_sleep (SL_inode 0) = l)) as [<-|Hne].
  - exists "sleep lock"%string. by rewrite lookup_insert_eq.
  - exists name. by rewrite lookup_insert_ne.
Qed.

Lemma demo_user_log n : lock_free L_log (cs (demo_user n)).
Proof. apply demo_user_free, pdemo_lock. unfold pdemo_locks. set_solver. Qed.

Lemma demo_user_prepared n : prepared (demo_user n).
Proof.
  pose proof (bdemo0_prepared n) as [P1 P2 P3 P4 P5 P6 P7 _ _]. split.
  - exact P1.
  - exact P2.
  - by apply cs_ok_locks.
  - intros p Hp Hne. by apply demo_user_free, P4.
  - by apply demo_user_free.
  - reflexivity.
  - exists 1%nat. eexists. split_and!; reflexivity.
  - apply demo_disk_ready.
  - exact demo_fs_len.
Qed.

#[local] Existing Instances layout_ex disk_others plain_dev disk_others_env.

(** After boot. *)
Lemma demo_fs_boot n :
  ∃ s, at_rest (view_of demo_fs_disk) s ∧ klog s = demo_log 0 [] ∧ sched_left s = n ∧
    file_on (klog s) demo_sb 35 (block_of demo_fs_disk) 0 demo_inode s ∧
    ftable s = [demo_file] ∧ pmem s = demo_mem ∧ cur_proc s = Some 1%nat ∧
    proc_tab s !! 1%nat = demo_me <$> proc_tab pdemo !! 1%nat ∧
    lock_free (L_sleep (SL_inode 0)) (cs s).
Proof.
  pose proof (binit_inv (demo_user n) (demo_user_prepared n)) as H.
  apply wp_elim in H as ([] & s & _ & I & (m & sl & bc & ->) & Hfree).
  exists (booted (set_locks m (cs (demo_user n))) sl bc (demo_user n)).
  split_and!; [|reflexivity|reflexivity| |reflexivity|reflexivity|reflexivity|reflexivity|].
  - split; [exact I|split; reflexivity|apply Hfree; [done|apply demo_user_log|done]|by split|].
    change (int_at (block_of demo_fs_disk 2) 0 = 0). by vm_compute.
  - split; try done.
    + exact demo_disk_ok.
    + exact demo_file_ok.
    + intros bn H1 H2. change (i_size demo_inode) with 5 in H2. change BSIZE with 1024 in H2.
      rewrite demo_fblock by (change MAXFILE with 268; lia). by rewrite decide_True by lia.
  - apply Hfree; [done| |done]. exists "sleep lock"%string. reflexivity.
Qed.

(** 1500 bytes. *)
Definition demo_bytes : list Z := (λ k, k mod 251) <$> zrange 0 1500.

Lemma file_write_atomic_witness :
  ∃ V s, block_of demo_fs_disk = v_disk V ∧
    wp (begin_op;; r ← writei 0 (VarSrc demo_bytes) 0 1500; end_op;; mret r) (λ r s', r = 1500 ∧ ∃ V' i',
      at_rest V' s' ∧ wrote (klog s) demo_sb 35 (v_disk V) demo_inode 0 demo_bytes (v_disk V') i') s.
Proof.
  destruct (demo_fs_boot 100) as (s & R & Hk & Hs & Hf & _). exists (view_of demo_fs_disk), s. split; [reflexivity|].
  eapply wp_mono.
  { apply (file_write_atomic (view_of demo_fs_disk) s demo_sb 35 0 demo_inode (VarSrc demo_bytes) demo_bytes 0 2 R Hf).
    - apply supplies_var, (law_env _ _ (ar_inv _ _ R)).
    - rewrite Hk. cbn. lia.
    - cbn. lia.
    - by vm_compute.
    - by vm_compute.
    - lia.
    - exact demo_has_free.
    - rewrite Hs. vm_compute. lia. }
  intros r s' (-> & V' & W & i' & R' & _ & _ & Hw & _). split; [reflexivity|]. by exists V', i'.
Defined.

Lemma write_read_back_witness :
  ∃ s, klog s = demo_log 0 [] ∧
    wp (begin_op;; _ ← writei 0 (VarSrc demo_bytes) 0 1500; end_op;; readi 0 VarDst 0 1500)
      (λ r s', r = (1500, demo_bytes)) s.
Proof.
  destruct (demo_fs_boot 100) as (s & R & Hk & Hs & Hf & _). exists s. split; [exact Hk|].
  eapply wp_mono.
  { apply (write_read_back (view_of demo_fs_disk) s demo_sb 35 0 demo_inode (VarSrc demo_bytes) demo_bytes 0 2 VarDst (λ _, pmem s) R Hf).
    - apply supplies_var, (law_env _ _ (ar_inv _ _ R)).
    - apply receives_var, (law_env _ _ (ar_inv _ _ R)).
    - rewrite Hk. cbn. lia.
    - cbn. lia.
    - by vm_compute.
    - by vm_compute.
    - lia.
    - exact demo_has_free.
    - rewrite Hs. vm_compute. lia. }
  intros r s' [-> _]. reflexivity.
Defined.
