(* ===== verification/Pipe.v ===== *)
(** * Pipes: kernel/pipe.c, without [pipealloc] (in File, with [fileclose])

    A [struct pipe] fills a page that [kalloc] gave; [pipes] holds the live ones by
    the address of their page. *)

From S2P Require Import Prelude Machine State Spinlock KString Kalloc Vm Proc.

Definition PIPESIZE : Z := 512.

Definition pipe0 : pipe := Mk_pipe (replicate (Z.to_nat PIPESIZE) 0) 0 0 0 0.
Definition get_pipe (pi : Z) : K pipe := gets (λ s, default pipe0 (pipes s !! pi)).
Definition upd_pipe (pi : Z) (f : pipe → pipe) : K unit :=
  modify (λ s, set_pipes (<[pi := f (default pipe0 (pipes s !! pi))]> (pipes s)) s).

Section pipe.
Context `{L : Layout} `{Oth : Others}.

Definition pipeclose (pi writable : Z) : K unit :=
  lift_cs (acquire (L_pipe pi));;
  (if c_bool writable then
     upd_pipe pi (set_pi_writeopen 0);; wakeup (Some (C_nread pi))
   else
     upd_pipe pi (set_pi_readopen 0);; wakeup (Some (C_nwrite pi)));;
  p ← get_pipe pi;
  if (pi_readopen p =? 0) && (pi_writeopen p =? 0) then
    lift_cs (release (L_pipe pi));;
    kfree pi;;
    modify (λ s, set_pipes (delete pi (pipes s)) s)
  else lift_cs (release (L_pipe pi)).

(** The loop of [pipewrite]: [inl i] when it ends with [i] bytes written and the lock
    held, [inr] when the function has returned -1. *)
Fixpoint pipewrite_loop (fuel : nat) (pi addr n : Z) (pr : nat) (i : Z) : K (Z + unit) :=
  match fuel with
  | O => hang
  | S f =>
      if i <? n then
        p ← get_pipe pi;
        k ← (if pi_readopen p =? 0 then mret 1 else killed pr);
        if c_bool k then
          lift_cs (release (L_pipe pi));; mret (inr tt)
        else
          p ← get_pipe pi;
          if pi_nwrite p =? u32 (pi_nread p + PIPESIZE) then
            wakeup (Some (C_nread pi));;
            sleep (C_nwrite pi) (L_pipe pi);;
            pipewrite_loop f pi addr n pr i
          else
            prc ← get_proc pr;
            rc ← copyin (p_pagetable prc) (u64 (addr + i)) 1;
            if fst rc =? -1 then mret (inl i)
            else
              upd_pipe pi (λ p, set_pi_data
                (setZ (pi_data p) (pi_nwrite p mod PIPESIZE) (nthZ 0 (snd rc) 0)) p);;
              upd_pipe pi (λ p, set_pi_nwrite (u32 (pi_nwrite p + 1)) p);;
              pipewrite_loop f pi addr n pr (i + 1)
      else mret (inl i)
  end.

(** A round writes a byte or sleeps. *)
Definition pipewrite (pi addr n : Z) : K Z :=
  pr ← myproc; pr ← deref pr;
  lift_cs (acquire (L_pipe pi));;
  k ← gets sched_left;
  r ← pipewrite_loop (S (Z.to_nat n + k)) pi addr n pr 0;
  match r with
  | inr _ => mret (-1)
  | inl i =>
      wakeup (Some (C_nread pi));;
      lift_cs (release (L_pipe pi));;
      mret i
  end.

(** The wait for data in [piperead]; [false] when the process was killed. *)
Fixpoint piperead_wait (fuel : nat) (pi : Z) (pr : nat) : K bool :=
  match fuel with
  | O => hang
  | S f =>
      p ← get_pipe pi;
      if (pi_nread p =? pi_nwrite p) && c_bool (pi_writeopen p) then
        k ← killed pr;
        if c_bool k then
          lift_cs (release (L_pipe pi));; mret false
        else
          sleep (C_nread pi) (L_pipe pi);;
          piperead_wait f pi pr
      else mret true
  end.

Fixpoint piperead_loop (k : nat) (pi addr : Z) (pr : nat) (i : Z) : K Z :=
  match k with
  | O => mret i
  | S k' =>
      p ← get_pipe pi;
      if pi_nread p =? pi_nwrite p then mret i
      else
        let ch := nthZ 0 (pi_data p) (pi_nread p mod PIPESIZE) in
        upd_pipe pi (λ p, set_pi_nread (u32 (pi_nread p + 1)) p);;
        prc ← get_proc pr;
        r ← copyout (p_pagetable prc) (u64 (addr + i)) [ch];
        if r =? -1 then mret i
        else piperead_loop k' pi addr pr (i + 1)
  end.

Definition piperead (pi addr n : Z) : K Z :=
  pr ← myproc; pr ← deref pr;
  lift_cs (acquire (L_pipe pi));;
  k ← gets sched_left;
  ok ← piperead_wait (S k) pi pr;
  if negb ok then mret (-1)
  else
    i ← piperead_loop (Z.to_nat n) pi addr pr 0;
    wakeup (Some (C_nwrite pi));;
    lift_cs (release (L_pipe pi));;
    mret i.
End pipe.
