(* ===== verification/PipeProofs.v ===== *)
(** * Pipes are queues: proofs about kernel/pipe.c

    A pipe holds the queue of bytes that were written and not yet read ([pipe_view]),
    although its counters wrap around at 2^32. [pipewrite] appends the user's bytes in
    order, sleeping while the pipe is full; [piperead] takes bytes from the front. *)

From S2P Require Import Sleeplock Prelude Machine State Spinlock KString Kalloc Vm PageTable VmDemo VmOps UserMem Proc Sched BioProofs Pipe.

(** The pipe [P] holds the bytes [q]. *)
Record pipe_view (P : pipe) (q : list Z) : Prop := {
  pv_data : length (pi_data P) = 512%nat;
  pv_range : 0 ≤ pi_nread P < 2 ^ 32;
  pv_write : pi_nwrite P = u32 (pi_nread P + Z.of_nat (length q));
  pv_cap : (length q ≤ 512)%nat;
  pv_byte k x : q !! k = Some x → nthZ 0 (pi_data P) ((pi_nread P + Z.of_nat k) mod 512) = x
}.

Lemma u32_mod512 x : u32 x mod 512 = x mod 512.
Proof. unfold u32. change (2 ^ 32) with (512 * 8388608). rewrite Z.rem_mul_r by lia. rewrite Z.mul_comm, Z.mod_add, Z.mod_mod by lia. done. Qed.

Lemma u32_diff x a b : 0 ≤ a < 2 ^ 32 → 0 ≤ b < 2 ^ 32 → u32 (x + a) = u32 (x + b) ↔ a = b.
Proof. intros Ha Hb. split; [|by intros ->]. unfold u32. change (2 ^ 32) with 4294967296 in *. intros E. Z.to_euclidean_division_equations. lia. Qed.

Lemma pv_full P q : pipe_view P q → (pi_nwrite P =? u32 (pi_nread P + PIPESIZE)) = (length q =? 512)%nat.
Proof.
  intros [H1 H2 H3 H4 _]. rewrite H3. unfold PIPESIZE. apply Bool.eq_iff_eq_true. rewrite Z.eqb_eq, Nat.eqb_eq, u32_diff by lia. lia.
Qed.

Lemma pv_empty P q : pipe_view P q → (pi_nread P =? pi_nwrite P) = match q with [] => true | _ => false end.
Proof.
  intros [H1 H2 H3 H4 _]. rewrite H3. replace (pi_nread P) with (u32 (pi_nread P + 0)) at 1 by (rewrite Z.add_0_r; by apply u32_small).
  destruct q as [|x q]; [apply Z.eqb_refl|]. apply Z.eqb_neq. rewrite u32_diff by (cbn in *; lia). cbn. lia.
Qed.

Lemma pv_push P q b :
  pipe_view P q → (length q < 512)%nat →
  pipe_view (set_pi_nwrite (u32 (pi_nwrite P + 1)) (set_pi_data (setZ (pi_data P) (pi_nwrite P mod PIPESIZE) b) P)) (q ++ [b]).
Proof.
  intros [H1 H2 H3 H4 H5] Hq. unfold PIPESIZE. rewrite H3, u32_mod512.
  pose proof (Z.mod_pos_bound (pi_nread P + Z.of_nat (length q)) 512 ltac:(lia)) as Hm.
  split; cbn [pi_data pi_nread pi_nwrite set_pi_nwrite set_pi_data].
  - unfold setZ. rewrite decide_True by lia. by rewrite length_insert.
  - done.
  - rewrite length_app. cbn [length]. unfold u32. rewrite Zplus_mod_idemp_l. f_equal. lia.
  - rewrite length_app. cbn. lia.
  - intros k x Hx. pose proof (Z.mod_pos_bound (pi_nread P + Z.of_nat k) 512 ltac:(lia)) as Hmk.
    unfold setZ, nthZ. rewrite !decide_True by lia. apply nth_lookup_Some. apply lookup_app_Some in Hx as [Hx|[Hk Hx]].
    + pose proof (lookup_lt_Some _ _ _ Hx) as Hlt. rewrite list_lookup_insert_ne.
      * specialize (H5 k x Hx). unfold nthZ in H5. rewrite decide_True in H5 by lia. rewrite <- H5. rewrite nth_lookup.
        destruct (lookup_lt_is_Some_2 (pi_data P) (Z.to_nat ((pi_nread P + Z.of_nat k) mod 512))) as [y ->]; [lia|done].
      * intros E%Z2Nat.inj; [|lia|lia]. Z.to_euclidean_division_equations. lia.
    + assert (k = length q) as -> by (destruct (k - length q)%nat eqn:E; [lia|done]). rewrite Nat.sub_diag in Hx. injection Hx as <-.
      apply list_lookup_insert_eq. lia.
Qed.

Lemma pv_pop P x q :
  pipe_view P (x :: q) →
  nthZ 0 (pi_data P) (pi_nread P mod PIPESIZE) = x ∧ pipe_view (set_pi_nread (u32 (pi_nread P + 1)) P) q.
Proof.
  intros [H1 H2 H3 H4 H5]. split.
  - specialize (H5 0%nat x eq_refl). by rewrite Z.add_0_r in H5.
  - split; cbn [pi_data pi_nread pi_nwrite set_pi_nread]; [done|apply Z.mod_pos_bound; lia| |cbn in H4; lia|].
    + rewrite H3. unfold u32. rewrite Zplus_mod_idemp_l. f_equal. cbn [length]. lia.
    + intros k y Hy. specialize (H5 (S k) y Hy). rewrite <- H5. f_equal. rewrite <- (u32_mod512 (u32 (pi_nread P + 1) + _)).
      unfold u32. rewrite Zplus_mod_idemp_l. fold (u32 (pi_nread P + 1 + Z.of_nat k)). rewrite u32_mod512. f_equal. lia.
Qed.

Section pipes.
Context `{L : Layout} `{Oth : Others}.
Context (pi : Z) (p : nat) (T : gmap Z nat) (root : Z) (HT : T !! root = Some 2%nat).

(** Process [p] runs with the pipe's lock held; without it the control state would be [c].
    The pipe holds [q], and the user's memory reads as [m]. *)
Record in_pipe (m : mem) (c : cstate) (s : kstate) (q : list Z) : Prop := {
  ip_cs : cs s = taken (L_pipe pi) c;
  ip_ok : cs_ok 0 c;
  ip_me : cpu_proc (cur_cpu c) = Some p;
  ip_lock : lock_free (L_pipe pi) c;
  ip_procs : procs_free None c;
  ip_len : length (proc_tab s) = Z.to_nat NPROC;
  ip_proc : ∃ pr, proc_tab s !! p = Some pr ∧ p_pagetable pr = root ∧ p_killed pr = 0;
  ip_pipe : ∃ P, pipes s !! pi = Some P ∧ pipe_view P q ∧ pi_readopen P ≠ 0;
  ip_wf : pt_wf (pmem s) T;
  ip_mem a k : uread (pmem s) root a k = uread m root a k
}.

Lemma in_pipe_ok m c s q : in_pipe m c s q → cs_ok 1 (cs s) ∧ cur_proc s = Some p ∧ lock_free (L_proc p) (cs s) ∧ procs_free (cur_proc s) (cs s).
Proof.
  intros I. pose proof (ip_ok _ _ _ _ I) as Hc. destruct (ip_proc _ _ _ _ I) as (pr & Hpr & _). apply lookup_lt_Some in Hpr. rewrite (ip_len _ _ _ _ I) in Hpr.
  assert (cur_proc s = Some p) as Hp by (rewrite (cur_proc_taken 0 (L_pipe pi) c) by (done || apply I); apply I).
  assert (∀ x, (x < Z.to_nat NPROC)%nat → lock_free (L_proc x) (cs s)) as Hf.
  { intros x Hx. rewrite (ip_cs _ _ _ _ I). apply taken_free; [done|]. by apply (ip_procs _ _ _ _ I). }
  split_and!; [rewrite (ip_cs _ _ _ _ I); apply (taken_ok Hc); lia|done|by apply Hf|]. intros x Hx _. by apply Hf.
Qed.

Lemma in_pipe_me m c s q : in_pipe m c s q → lock_free (L_proc p) c ∧ (p < length (proc_tab s))%nat.
Proof.
  intros I. destruct (ip_proc _ _ _ _ I) as (pr & Hpr%lookup_lt_Some & _). split; [|done]. apply (ip_procs _ _ _ _ I); [|done].
  by rewrite <- (ip_len _ _ _ _ I).
Qed.

Lemma in_pipe_wake m c s q ch : in_pipe m c s q → in_pipe m c (set_proc_tab (woken ch (cur_proc s) (proc_tab s)) s) q.
Proof.
  intros I. destruct (in_pipe_ok _ _ _ _ I) as (_ & Hp & _). destruct I as [I1 I2 I3 I4 I5 I6 I7 I8 I9 I10]. split; try done; cbn [proc_tab set_proc_tab].
  - unfold woken. by rewrite length_imap.
  - by rewrite Hp, woken_me.
Qed.

(** No other process sleeps on [ch]. *)
Definition all_awake (ch : chan) (s : kstate) : Prop :=
  ∀ x pr, x ≠ p → proc_tab s !! x = Some pr → p_state pr = SLEEPING → p_chan pr ≠ Some ch.

Lemma woken_awake m c s q ch : in_pipe m c s q → all_awake ch (set_proc_tab (woken (Some ch) (cur_proc s) (proc_tab s)) s).
Proof.
  intros I x pr Hx. destruct (in_pipe_ok _ _ _ _ I) as (_ & -> & _). cbn [proc_tab set_proc_tab]. unfold woken.
  rewrite list_lookup_imap. destruct (proc_tab s !! x) as [q0|]; [|done]. cbn. intros [= <-]. unfold wake_at, wake.
  rewrite decide_False by congruence. case_decide as E; [done|]. intros Hs Hc. by apply E.
Qed.

(** What readers do while [pipewrite] sleeps on a full pipe: if none of them sleeps and the
    pipe holds [q], they take the first [takes n q] bytes, one at least, and wake the writer
    up, and the scheduler comes back to it; its memory is as before. [n] counts the switches
    to other processes that are still to come. *)
Context (takes : nat → list Z → nat).
Definition ReadersRun : Prop := (∀ n q, length q = 512%nat → (0 < takes n q)%nat) ∧ ∀ m n c s q,
  in_pipe m c s q → length q = 512%nat → all_awake (C_nread pi) s → sched_left s = S n →
  let s2 := others n (asleep (C_nwrite pi) p c s) in
  ∃ c2, resumed p (L_pipe pi) (intena (cur_cpu c)) c2 s2 ∧
    in_pipe m c2 (awake p (L_pipe pi) c2 n s2) (drop (takes n q) q).

(** The queue that a writer of [bytes] leaves. With [n] switches ahead it lets the readers run
    when the queue is full, and only then. The result is what the readers take meanwhile,
    the queue, and the switches that are left. *)
Fixpoint feed (n : nat) (q bytes : list Z) : list Z * list Z * nat :=
  match bytes with
  | [] => ([], q, n)
  | b :: bs =>
      if (length q =? 512)%nat then
        match n with
        | O => ([], q, n)
        | S n' =>
            let r := feed n' (drop (takes n' q) q ++ [b]) bs in
            (take (takes n' q) q ++ fst (fst r), snd (fst r), snd r)
        end
      else feed n (q ++ [b]) bs
  end.

(** Nothing is lost, doubled or reordered. *)
Lemma feed_queue (Hpos : ∀ n q, length q = 512%nat → (0 < takes n q)%nat) bytes : ∀ n q,
  (length q ≤ 512)%nat → (length bytes ≤ n + if (length q =? 512)%nat then 0 else 1)%nat →
  fst (fst (feed n q bytes)) ++ snd (fst (feed n q bytes)) = q ++ bytes.
Proof.
  induction bytes as [|b bs IH]; intros n q Hq Hn; cbn [feed length] in *; [by rewrite app_nil_r|].
  destruct (Nat.eqb_spec (length q) 512) as [Hf|Hf].
  - destruct n as [|n]; [lia|]. pose proof (Hpos n q Hf). cbn [fst snd]. rewrite <- app_assoc, IH.
    + rewrite <- app_assoc, app_assoc, take_drop. done.
    + rewrite length_app, length_drop. cbn. lia.
    + case_match; lia.
  - rewrite IH, <- app_assoc; [done|rewrite length_app; cbn; lia|]. case_match; lia.
Qed.

(** One byte. *)
Lemma copy_byte m c s q a b :
  in_pipe m c s q → 0 ≤ a < 2 ^ 64 → uread m root a 1 = Some [b] → copyin root a 1 s = Ret (0, [b]) s.
Proof.
  intros I Ha Hb. destruct (copyin_loop_eq T root HT s 1 1 a [] (ip_wf _ _ _ _ I) Ha ltac:(lia)) as (r & bs & E & Hs).
  unfold copyin_spec in Hs. rewrite (ip_mem _ _ _ _ I), Hb in Hs. destruct Hs as [-> ->]. exact E.
Qed.

Lemma uread_nth m a bytes i b :
  uread m root a (length bytes) = Some bytes → bytes !! i = Some b → uread m root (a + Z.of_nat i) 1 = Some [b].
Proof.
  intros Hr Hb. pose proof (lookup_lt_Some _ _ _ Hb) as Hi. replace (length bytes) with (i + (1 + (length bytes - i - 1)))%nat in Hr by lia.
  rewrite !uread_app in Hr. destruct (uread m root a i) as [b1|] eqn:E1; [|done]. cbn [mbind option_bind] in Hr.
  destruct (uread m root (a + Z.of_nat i) 1) as [b2|] eqn:E2; [|done]. cbn [mbind option_bind] in Hr.
  destruct (uread m root (a + Z.of_nat i + Z.of_nat 1) (length bytes - i - 1)) as [b3|]; [|done]. injection Hr as <-.
  assert (length b1 = i ∧ length b2 = 1%nat) as [L1 L2].
  { assert (∀ n va bs, uread m root va n = Some bs → length bs = n) as Hlen.
    { clear. induction n as [|n IH]; intros va bs; cbn; [by intros [= <-]|]. destruct (rpa m root va); [|done]. cbn.
      destruct (uread m root (va + 1) n) eqn:E; [|done]. cbn. intros [= <-]. cbn. by rewrite (IH _ _ E). }
    split; by eapply Hlen. }
  destruct b2 as [|x [|? ?]]; try done. rewrite lookup_app_r in Hb by lia. rewrite L1, Nat.sub_diag in Hb. by injection Hb as ->.
Qed.

(** The state with another pipe. *)
Lemma in_pipe_upd m c s q P q' :
  in_pipe m c s q → pipe_view P q' → pi_readopen P ≠ 0 → in_pipe m c (set_pipes (<[pi := P]> (pipes s)) s) q'.
Proof.
  intros [I1 I2 I3 I4 I5 I6 I7 I8 I9 I10] HP Ho. split; try done. exists P. cbn. by rewrite lookup_insert_eq.
Qed.

Lemma pipewrite_loop_ok m addr bytes : ReadersRun → uread m root addr (length bytes) = Some bytes → 0 ≤ addr → addr + Z.of_nat (length bytes) ≤ 2 ^ 64 →
  ∀ fuel c s q i, in_pipe m c s q → (i ≤ length bytes)%nat →
  (length bytes - i ≤ sched_left s + if (length q =? 512)%nat then 0 else 1)%nat → (length bytes - i + sched_left s < fuel)%nat →
  let f := feed (sched_left s) q (drop i bytes) in
  wp (pipewrite_loop fuel pi addr (Z.of_nat (length bytes)) p (Z.of_nat i)) (λ r s', r = inl (Z.of_nat (length bytes)) ∧
    sched_left s' = snd f ∧ ∃ c', in_pipe m c' s' (snd (fst f))) s.
Proof.
  intros [Hpos HE] Hr Ha Hae. induction fuel as [|fuel IH]; intros c s q i I Hi Hs Hf; [lia|]. cbn [pipewrite_loop]. cbv zeta.
  destruct (in_pipe_ok _ _ _ _ I) as (Hc1 & Hp & Hlp & Hpf). destruct (ip_pipe _ _ _ _ I) as (P & HP & HV & Ho). destruct (ip_proc _ _ _ _ I) as (pr & Hpr & Hroot & Hkill).
  destruct (Z.ltb_spec (Z.of_nat i) (Z.of_nat (length bytes))) as [Hlt|Hge].
  2:{ apply wp_ret. assert (i = length bytes) as -> by lia. rewrite drop_all. split_and!; [done|done|]. by exists c. }
  destruct (lookup_lt_is_Some_2 bytes i) as [b Hb]; [lia|]. pose proof (drop_S _ _ _ Hb) as Hdrop.
  apply wp_bind, wp_gets. rewrite HP. change (default pipe0 (Some P)) with P. rewrite (proj2 (Z.eqb_neq _ _)) by done.
  apply wp_bind. eapply wp_eq; [by apply (killed_eq 1)|]. rewrite (nth_lookup_Some _ _ proc0 _ Hpr), Hkill. cbn [c_bool Z.eqb negb].
  apply wp_bind, wp_gets. rewrite HP. change (default pipe0 (Some P)) with P. rewrite (pv_full P q HV).
  destruct (Nat.eqb_spec (length q) 512) as [Hfull|Hroom].
  - apply wp_bind. eapply wp_eq; [by apply (wakeup_eq 1); [..|apply I]|]. pose proof (woken_awake _ _ _ _ (C_nread pi) I) as Haw.
    apply (in_pipe_wake _ _ _ _ (Some (C_nread pi))) in I. set (s1 := set_proc_tab _ s) in *.
    destruct (sched_left s) as [|n] eqn:En; [lia|]. pose proof (Hpos n q Hfull) as Hk.
    destruct (HE m n c s1 q I Hfull Haw En) as (c2 & Hres & I2).
    destruct (in_pipe_me _ _ _ _ I) as [Hlpc Hplen].
    apply wp_bind. eapply wp_eq; [apply (sleep_eq _ _ p n c c2 s1 (ip_cs _ _ _ _ I) (ip_ok _ _ _ _ I) (ip_me _ _ _ _ I) (ip_lock _ _ _ _ I)); done|].
    set (s2 := awake _ _ _ _ _) in *. assert (sched_left s2 = n) as Hn2 by done.
    assert (length (drop (takes n q) q) < 512)%nat as Hd by (rewrite length_drop; lia).
    pose proof (IH c2 s2 (drop (takes n q) q) i I2 Hi) as IH2. cbv zeta in IH2. rewrite Hn2, Hdrop in IH2. cbn [feed] in IH2 |- *.
    rewrite (proj2 (Nat.eqb_neq _ _)) in IH2 by lia. rewrite Hdrop. cbn [feed]. rewrite Hfull, Nat.eqb_refl. cbn [fst snd].
    apply IH2; lia.
  - rewrite Hdrop. cbn [feed]. rewrite (proj2 (Nat.eqb_neq _ _)) by done.
    apply wp_bind, wp_gets. rewrite (nth_lookup_Some _ _ proc0 _ Hpr), Hroot, u64_small by lia.
    apply wp_bind. eapply wp_eq; [apply (copy_byte m c s q _ b I); [lia|by eapply uread_nth]|]. cbn [fst snd]. change (0 =? -1) with false. cbn iota.
    apply wp_bind, wp_modify. apply wp_bind, wp_modify. cbn [pipes set_pipes]. rewrite HP, lookup_insert_eq, insert_insert_eq.
    change (default pipe0 (Some ?x)) with x. change (nthZ 0 [b] 0) with b.
    match goal with |- wp _ _ (set_pipes ?m1 (set_pipes _ s)) => change (set_pipes m1 (set_pipes _ s)) with (set_pipes m1 s) end.
    pose proof (pv_push P q b HV ltac:(pose proof (pv_cap _ _ HV); lia)) as HV'.
    replace (Z.of_nat i + 1) with (Z.of_nat (S i)) by lia. match goal with |- wp _ _ ?s3 => apply (IH c s3 (q ++ [b]) (S i)) end.
    { eapply in_pipe_upd; [exact I|exact HV'|exact Ho]. }
    { lia. }
    { cbn [sched_left set_pipes]. case_match; lia. }
    { cbn [sched_left set_pipes]. lia. }
Qed.

(** ** Reading *)

Lemma in_pipe_pmem m c s q m' : in_pipe m c s q → pt_wf m' T → in_pipe m' c (set_pmem m' s) q.
Proof. intros [I1 I2 I3 I4 I5 I6 I7 I8 I9 I10] Hm. by split. Qed.

Lemma piperead_loop_ok addr : 0 ≤ addr →
  ∀ k c s q i m', in_pipe (pmem s) c s q → user_data T root (pmem s) → addr + Z.of_nat (i + k) ≤ 2 ^ 64 →
  uwrite (pmem s) root (addr + Z.of_nat i) (take k q) = Some m' →
  wp (piperead_loop k pi addr p (Z.of_nat i)) (λ r s', r = Z.of_nat (i + length (take k q)) ∧ pmem s' = m' ∧
    in_pipe m' c s' (drop k q) ∧ user_data T root m' ∧ sched_left s' = sched_left s) s.
Proof.
  intros Ha. induction k as [|k IH]; intros c s q i m' I Hud Hae Hw; cbn [piperead_loop].
  { apply wp_ret. cbn in Hw. injection Hw as <-. cbn. rewrite drop_0, Nat.add_0_r. done. }
  destruct (ip_pipe _ _ _ _ I) as (P & HP & HV & Ho). destruct (ip_proc _ _ _ _ I) as (pr & Hpr & Hroot & _).
  apply wp_bind, wp_gets. rewrite HP. change (default pipe0 (Some P)) with P. rewrite (pv_empty P q HV). destruct q as [|x q].
  { apply wp_ret. cbn in Hw |- *. injection Hw as <-. rewrite Nat.add_0_r. done. }
  destruct (pv_pop P x q HV) as [Ex HV']. cbv zeta. rewrite Ex. apply wp_bind, wp_modify. rewrite HP. change (default pipe0 (Some P)) with P.
  pose proof (in_pipe_upd _ _ _ _ _ _ I HV' Ho) as I1. set (s1 := set_pipes _ s) in *.
  apply wp_bind, wp_gets. change (proc_tab s1) with (proc_tab s). rewrite (nth_lookup_Some _ _ proc0 _ Hpr), Hroot, u64_small by lia.
  cbn [take uwrite] in Hw. destruct (wpa (pmem s) root (addr + Z.of_nat i)) as [pa|] eqn:Epa; [|done]. cbn [mbind option_bind] in Hw.
  assert (uwrite (pmem s) root (addr + Z.of_nat i) [x] = Some (wr (pmem s) pa x)) as E1 by (cbn [uwrite]; by rewrite Epa).
  destruct (uwrite_user_data T root HT (pmem s) (addr + Z.of_nat i) [x] _ ltac:(lia) Hud E1) as [Hud1 _].
  destruct (copyout_loop_eq T root HT s1 [x] 1 (addr + Z.of_nat i) Hud ltac:(lia) ltac:(cbn; lia)) as (r & m1 & E & Hs).
  unfold copyout_spec in Hs. change (pmem s1) with (pmem s) in Hs. rewrite E1 in Hs. destruct Hs as [-> ->].
  apply wp_bind. eapply wp_eq; [exact E|]. change (0 =? -1) with false. cbn iota.
  replace (Z.of_nat i + 1) with (Z.of_nat (S i)) by lia. set (s2 := set_pmem _ s1).
  eapply wp_mono; [apply (IH c s2 q (S i) m')|].
  - apply (in_pipe_pmem (pmem s)); [exact I1|apply Hud1].
  - exact Hud1.
  - lia.
  - by replace (addr + Z.of_nat (S i)) with (addr + Z.of_nat i + 1) by lia.
  - intros r s' (-> & H1 & H2 & H3 & H4); cbn beta in *. split_and!; [|done|done|done|done]. cbn [take length]. lia.
Qed.

(** ** The calls *)

(** Process [p] outside of the lock: taking it leads into [in_pipe]. *)
Definition at_pipe (m : mem) (s : kstate) (q : list Z) : Prop := in_pipe m (cs s) (set_cs (taken (L_pipe pi) (cs s)) s) q.

Lemma enter_pipe m s q : at_pipe m s q → lift_cs (acquire (L_pipe pi)) s = Ret tt (set_cs (taken (L_pipe pi) (cs s)) s) ∧ cs_ok 0 (cs s) ∧ cur_proc s = Some p.
Proof.
  intros I. split_and!; [eapply k_acquire; apply I|apply I|]. apply (ip_me _ _ _ _ I).
Qed.

(** The end of both functions. *)
Lemma leave_pipe {A} m c s q ch (r : A) (Q : A → kstate → Prop) :
  in_pipe m c s q → (∀ s', at_pipe m s' q → pmem s' = pmem s → sched_left s' = sched_left s → all_awake ch s' → Q r s') →
  wp (wakeup (Some ch);; lift_cs (release (L_pipe pi));; mret r) Q s.
Proof.
  intros I HQ. destruct (in_pipe_ok _ _ _ _ I) as (Hc1 & _ & _ & Hpf).
  apply wp_bind. eapply wp_eq; [by apply (wakeup_eq 1); [..|apply I]|]. pose proof (woken_awake _ _ _ _ ch I) as Haw.
  apply (in_pipe_wake _ _ _ _ (Some ch)) in I. set (s1 := set_proc_tab _ s) in *.
  apply wp_bind. eapply wp_eq; [apply (k_release 0 (L_pipe pi) c); apply I|]. apply wp_ret, HQ; [|done|done|exact Haw].
  unfold at_pipe. cbn [cs set_cs]. rewrite set_cs_cs. rewrite <- (ip_cs _ _ _ _ I) at 1. by rewrite set_cs_id.
Qed.
End pipes.

(** ** Properties *)

Section properties.
Context `{L : Layout} `{Oth : Others}.

(** C9. pipewrite is the write end of a bounded queue. The pipe holds [q], the user's memory
    the bytes at [addr], and while the writer sleeps readers take the bytes that [takes] says.
    [pipewrite] returns the number of its bytes. The pipe then holds what [feed] says: the
    bytes went to the end of the queue in their order, and the writer slept exactly when the
    queue was full and each time once, after it had woken up all readers. What readers have
    taken, followed by what the pipe holds, is [q] followed by the bytes: nothing is lost,
    doubled or reordered, although the 32-bit counters may wrap around. At the end no process
    sleeps for data. *)
Theorem pipewrite_queue takes pi p T root m s q addr bytes :
  let n := Z.of_nat (length bytes) in
  let f := feed takes (sched_left s) q bytes in
  T !! root = Some 2%nat → ReadersRun pi p T root takes → at_pipe pi p T root m s q →
  uread m root addr (length bytes) = Some bytes → 0 ≤ addr → addr + n ≤ 2 ^ 64 → (length bytes ≤ sched_left s)%nat →
  wp (pipewrite pi addr n) (λ r s', r = n ∧ at_pipe pi p T root m s' (snd (fst f)) ∧ sched_left s' = snd f ∧
    all_awake p (C_nread pi) s' ∧ fst (fst f) ++ snd (fst f) = q ++ bytes) s.
Proof.
  intros n f HT HE I Hr Ha Hae Hs. destruct (enter_pipe pi p T root m s q I) as (E & Hc & Hp). unfold pipewrite.
  apply wp_bind. eapply wp_eq; [by apply (myproc_eq 0)|]. rewrite Hp. apply wp_bind, wp_ret. apply wp_bind. eapply wp_eq; [exact E|].
  apply wp_bind, wp_gets. apply wp_bind. eapply wp_mono.
  { apply (pipewrite_loop_ok pi p T root HT takes m addr bytes HE Hr Ha Hae _ _ _ q 0 I).
    - lia.
    - cbn [sched_left set_cs]. lia.
    - cbn [sched_left set_cs]. unfold n. lia. }
  cbv zeta. rewrite drop_0. cbn [sched_left set_cs]. fold f. intros r s1 (-> & Hl & c' & I'); cbn beta. cbn iota.
  eapply (leave_pipe pi p T root m c'); [exact I'|]. intros s' I2 _ Hl2 Haw. split_and!; [done|done|congruence|done|].
  destruct (ip_pipe _ _ _ _ _ _ _ _ I) as (P & _ & HV & _). apply feed_queue; [apply HE|apply HV|lia].
Qed.

(** C10. piperead is the read end of the queue. If the pipe is not empty, or its write end is
    closed, [piperead] of [n] bytes returns the number [k] of bytes it took, the smaller of
    [n] and the length of the queue; these bytes are in the user's memory, in the order in
    which they were written, and are gone from the pipe. In particular it returns 0 for
    an empty pipe that nobody can write. *)
Theorem piperead_queue pi p T root s q addr (n : nat) m' P :
  let k := length (take n q) in
  T !! root = Some 2%nat → at_pipe pi p T root (pmem s) s q → user_data T root (pmem s) →
  pipes s !! pi = Some P → q ≠ [] ∨ pi_writeopen P = 0 →
  uwrite (pmem s) root addr (take n q) = Some m' → 0 ≤ addr → addr + Z.of_nat n ≤ 2 ^ 64 →
  wp (piperead pi addr (Z.of_nat n)) (λ r s', r = Z.of_nat k ∧ pmem s' = m' ∧ at_pipe pi p T root m' s' (drop n q)) s.
Proof.
  intros k HT I Hud HP Hq Hw Ha Hae. destruct (enter_pipe pi p T root _ s q I) as (E & Hc & Hp). unfold piperead.
  apply wp_bind. eapply wp_eq; [by apply (myproc_eq 0)|]. rewrite Hp. apply wp_bind, wp_ret. apply wp_bind. eapply wp_eq; [exact E|].
  set (s1 := set_cs _ s). apply wp_bind, wp_gets. cbn [piperead_wait].
  destruct (ip_pipe _ _ _ _ _ _ _ _ I) as (P' & HP' & HV & _). change (pipes s !! pi = Some P') in HP'. rewrite HP in HP'. injection HP' as <-.
  apply wp_bind, wp_bind, wp_gets. change (pipes s1) with (pipes s). rewrite HP. change (default pipe0 (Some P)) with P. rewrite (pv_empty P q HV).
  assert ((match q with [] => true | _ => false end) && c_bool (pi_writeopen P) = false) as ->.
  { destruct q; [|done]. destruct Hq as [?| ->]; done. }
  apply wp_ret. cbn [negb]. rewrite Nat2Z.id. apply wp_bind. eapply wp_mono.
  { apply (piperead_loop_ok pi p T root HT addr Ha n (cs s) s1 q 0 m' I Hud); [lia|]. by rewrite Z.add_0_r. }
  intros r s2 (-> & Hm & I2 & Hud2 & _); cbn beta in *. eapply (leave_pipe pi p T root m'); [exact I2|].
  intros s' I3 Hm3 _ _. split_and!; [done|congruence|done].
Qed.
End properties.

(** ** A machine with a pipe *)

#[local] Existing Instance layout_ex.

Definition demo_pi : Z := 0x87ff6000.
(** The rest of the machine reads two bytes and lets process 1 run again. *)
Definition read_two (P : pipe) : pipe := set_pi_nread (u32 (u32 (pi_nread P + 1) + 1)) (set_pi_nread (u32 (pi_nread P + 1)) P).
Definition reader_others : Others := λ _ s,
  set_pipes (alter read_two demo_pi (pipes s)) (set_proc_tab (alter (set_p_state RUNNING) 1%nat (proc_tab s)) s).

(** The counters are about to wrap around. *)
Definition demo_pipe (q : list Z) : pipe :=
  Mk_pipe (((λ k, nth (Z.to_nat ((k + 100) mod 512)) q 0) <$> zrange 0 512)) (2 ^ 32 - 100) (u32 (2 ^ 32 - 100 + Z.of_nat (length q))) 1 1.
Definition pipe_machine (q : list Z) (n : nat) : kstate :=
  set_pipes {[ demo_pi := demo_pipe q ]} (set_sched_left n (set_pmem demo_mem
    (set_proc_tab (alter (set_p_pagetable demo_rootA) 1%nat (proc_tab pdemo))
      (set_cs (put_lock (L_pipe demo_pi) (Mk_spinlock 0 "pipe" None) (cs pdemo)) pdemo)))).

Lemma demo_pipe_view q : (length q ≤ 512)%nat → pipe_view (demo_pipe q) q.
Proof.
  intros Hq. split; cbn [pi_data pi_nread pi_nwrite demo_pipe]; [|lia|done|done|].
  - by rewrite length_fmap, zrange_length.
  - intros k x Hx. pose proof (lookup_lt_Some _ _ _ Hx) as Hk.
    pose proof (Z.mod_pos_bound (2 ^ 32 - 100 + Z.of_nat k) 512 ltac:(lia)) as Hm. apply nthZ_lookup; [lia|].
    rewrite list_lookup_fmap, (proj2 (zrange_lookup 0 512 _ ((2 ^ 32 - 100 + Z.of_nat k) mod 512))) by (change (Z.of_nat 512) with 512; lia).
    cbn [fmap option_fmap option_map]. f_equal. rewrite Zplus_mod_idemp_l. replace (2 ^ 32 - 100 + Z.of_nat k + 100) with (Z.of_nat k + 8388608 * 512) by lia.
    rewrite Z.mod_add, Z.mod_small, Nat2Z.id by lia. by apply nth_lookup_Some.
Qed.

Lemma demo_at_pipe q n : (length q ≤ 512)%nat → at_pipe demo_pi 1 demo_T demo_rootA demo_mem (pipe_machine q n) q.
Proof.
  intros Hq. assert (cs_ok 0 (put_lock (L_pipe demo_pi) (Mk_spinlock 0 "pipe" None) (cs pdemo))) as Hc.
  { destruct pdemo_cs. by split. }
  split; try done.
  - exists "pipe"%string. apply lookup_insert_eq.
  - intros x Hx _. destruct (pdemo_free None x Hx ltac:(done)) as [name Hn]. exists name. cbn. by rewrite lookup_insert_ne.
  - eexists. split_and!; reflexivity.
  - exists (demo_pipe q). split_and!; [apply lookup_singleton_eq|by apply demo_pipe_view|done].
  - exact demo_pt.
Qed.

Lemma read_two_view P q : pipe_view P q → length q = 512%nat → pipe_view (read_two P) (drop 2 q).
Proof.
  intros HV Hq. destruct q as [|x [|y q]]; [done|done|]. cbn [drop].
  destruct (pv_pop P x (y :: q) HV) as [_ HV1]. by destruct (pv_pop _ y q HV1) as [_ HV2].
Qed.

Lemma readers_run : ReadersRun (Oth := reader_others) demo_pi 1 demo_T demo_rootA (λ _ _, 2%nat).
Proof.
  split; [intros; lia|]. intros m n c s q I Hq _ Hs s2. destruct (in_pipe_me _ _ _ _ _ _ _ _ I) as [Hlp Hlen].
  destruct I as [I1 I2 I3 I4 I5 I6 (pr & Hpr & Hroot & Hk) (P & HP & HV & Ho) I9 I10].
  exists c. split.
  - split; try done. unfold s2, others, reader_others. cbn. by rewrite length_alter, length_insert.
  - split; try done.
    + unfold s2, others, reader_others. cbn. by rewrite length_insert, length_alter, length_insert.
    + eexists. unfold s2, others, reader_others. cbn. rewrite list_lookup_insert_eq by (by rewrite length_alter, length_insert). split; [reflexivity|].
      rewrite nth_lookup, list_lookup_alter_eq, list_lookup_insert_eq by done. cbn. rewrite (nth_lookup_Some _ _ proc0 _ Hpr). done.
    + exists (read_two P). unfold s2, others, reader_others. cbn [pipes awake asleep set_cs set_proc_tab set_sched_left set_pipes].
      rewrite lookup_alter_eq, HP. split_and!; [done|by apply read_two_view|done].
Qed.

(** The process writes the string [hi] with its NUL to a full pipe: it sleeps twice, and
    readers take four bytes. *)
Lemma pipewrite_queue_witness :
  ∃ s, pipes s !! demo_pi = Some (demo_pipe (replicate 512 7)) ∧ sched_left s = 3%nat ∧
    wp (pipewrite (Oth := reader_others) demo_pi 0xffe 3) (λ r s', r = 3 ∧ sched_left s' = 1%nat ∧
      at_pipe demo_pi 1 demo_T demo_rootA demo_mem s' (replicate 508 7 ++ [104; 105; 0])) s.
Proof.
  exists (pipe_machine (replicate 512 7) 3). split; [reflexivity|]. split; [reflexivity|]. eapply wp_mono.
  { apply (pipewrite_queue (Oth := reader_others) (λ _ _, 2%nat) demo_pi 1 demo_T demo_rootA demo_mem (pipe_machine (replicate 512 7) 3) (replicate 512 7) 0xffe [104; 105; 0]).
    - reflexivity.
    - exact readers_run.
    - apply demo_at_pipe. rewrite length_replicate. lia.
    - vm_compute. reflexivity.
    - lia.
    - cbn. lia.
    - cbn. lia. }
  intros r s' (-> & Ha & Hs & _). split; [reflexivity|]. split; [exact Hs|exact Ha].
Defined.

(** Two of three bytes are read. *)
Lemma piperead_queue_witness :
  ∃ m', uwrite demo_mem demo_rootA 0x10 [1; 2] = Some m' ∧
    wp (piperead (Oth := reader_others) demo_pi 0x10 2) (λ r s', r = 2 ∧ pmem s' = m') (pipe_machine [1; 2; 3] 0).
Proof.
  assert (match uwrite demo_mem demo_rootA 0x10 [1; 2] with Some _ => true | None => false end = true) as Hw by (vm_compute; reflexivity).
  destruct (uwrite demo_mem demo_rootA 0x10 [1; 2]) as [m'|] eqn:Hm'; [|discriminate].
  exists m'. split; [reflexivity|]. eapply wp_mono.
  { apply (piperead_queue (Oth := reader_others) demo_pi 1 demo_T demo_rootA (pipe_machine [1; 2; 3] 0) [1; 2; 3] 0x10 2 m' (demo_pipe [1; 2; 3])).
    - reflexivity.
    - apply demo_at_pipe. cbn. lia.
    - exact demo_user_data.
    - reflexivity.
    - left. discriminate.
    - exact Hm'.
    - lia.
    - lia. }
  intros r s' (-> & Hm & _). split; [reflexivity|exact Hm].
Defined.
