(* ===== verification/File.v ===== *)
(** * Open files: kernel/file.c, and [pipealloc] of kernel/pipe.c *)

From S2P Require Import Prelude Machine State Spinlock KString Kalloc Vm Proc Sleeplock Virtio Bio Log.
From S2P Require Import Uart Printf Console Fs Pipe.

Definition get_file (f : nat) : K file := gets (λ s, nth f (ftable s) file0).
Definition upd_file (f : nat) (g : file → file) : K unit :=
  modify (λ s, set_ftable (alter g f (ftable s)) s).

Section file.
Context `{L : Layout} `{Oth : Others} `{B : BlockIO}.

Definition fileinit : K unit := lift_cs (initlock L_ftable "ftable").

Definition all_files : list nat := seq 0 (Z.to_nat NFILE).

Definition filealloc : K (option nat) :=
  lift_cs (acquire L_ftable);;
  mfor_return all_files (λ f,
    fl ← get_file f;
    if f_ref fl =? 0 then
      upd_file f (set_f_ref 1);;
      lift_cs (release L_ftable);;
      mret (Some (Some f))
    else mret None)
    (lift_cs (release L_ftable);; mret None).

Definition filedup (f : nat) : K nat :=
  lift_cs (acquire L_ftable);;
  fl ← get_file f;
  if f_ref fl <? 1 then panic "filedup"
  else
    upd_file f (λ fl, set_f_ref (s32 (f_ref fl + 1)) fl);;
    lift_cs (release L_ftable);;
    mret f.

Definition fileclose (f : nat) : K unit :=
  lift_cs (acquire L_ftable);;
  fl ← get_file f;
  if f_ref fl <? 1 then panic "fileclose"
  else
    upd_file f (λ fl, set_f_ref (s32 (f_ref fl - 1)) fl);;
    fl ← get_file f;
    if 0 <? f_ref fl then lift_cs (release L_ftable)
    else
      let ff := fl in
      upd_file f (set_f_ref 0);;
      upd_file f (set_f_type FD_NONE);;
      lift_cs (release L_ftable);;
      match f_type ff with
      | FD_PIPE => pipeclose (f_pipe ff) (f_writable ff)
      | FD_INODE | FD_DEVICE =>
          begin_op;;
          ip ← deref (f_ip ff);
          iput ip;;
          end_op
      | FD_NONE => mret tt
      end.

Definition filestat (f : nat) (addr : Z) : K Z :=
  p ← myproc;
  fl ← get_file f;
  match f_type fl with
  | FD_INODE | FD_DEVICE =>
      ilock (f_ip fl);;
      ip ← deref (f_ip fl);
      st ← stati ip;
      iunlock (f_ip fl);;
      p ← deref p;
      pr ← get_proc p;
      r ← copyout (p_pagetable pr) addr st;
      if r <? 0 then mret (-1) else mret 0
  | _ => mret (-1)
  end.

Definition devread (fn : devfn) (d : dest) (n : Z) : K Z :=
  match fn with
  | FN_consoleread => consoleread d n
  | FN_consolewrite => panic "kerneltrap"
  end.
Definition devwrite (fn : devfn) (sr : source) (n : Z) : K Z :=
  match fn with
  | FN_consolewrite => consolewrite sr n
  | FN_consoleread => panic "kerneltrap"
  end.

Definition fileread (f : nat) (addr n : Z) : K Z :=
  fl ← get_file f;
  if f_readable fl =? 0 then mret (-1)
  else
    match f_type fl with
    | FD_PIPE => piperead (f_pipe fl) addr n
    | FD_DEVICE =>
        dv ← gets devsw;
        if (f_major fl <? 0) || (NDEV <=? f_major fl) then mret (-1)
        else
          match d_read (nthZ (Mk_devsw None None) dv (f_major fl)) with
          | None => mret (-1)
          | Some fn => devread fn (UserDst addr) n
          end
    | FD_INODE =>
        ilock (f_ip fl);;
        ip ← deref (f_ip fl);
        fl ← get_file f;
        rb ← readi ip (UserDst addr) (f_off fl) (u32 n);
        let r := fst rb in
        when (0 <? r) (upd_file f (λ fl, set_f_off (u32 (f_off fl + r)) fl));;
        iunlock (f_ip fl);;
        mret r
    | FD_NONE => panic "fileread"
    end.

Definition FILEWRITE_MAX : Z := ((MAXOPBLOCKS - 1 - 1 - 2) / 2) * BSIZE.

(** The loop of [filewrite]: the final value of [i]. *)
Fixpoint filewrite_loop (fuel : nat) (f : nat) (addr n i : Z) : K Z :=
  match fuel with
  | O => hang
  | S fu =>
      if i <? n then
        let n1 := if FILEWRITE_MAX <? n - i then FILEWRITE_MAX else n - i in
        begin_op;;
        fl ← get_file f;
        ilock (f_ip fl);;
        ip ← deref (f_ip fl);
        fl ← get_file f;
        r ← writei ip (UserSrc (u64 (addr + i))) (f_off fl) (u32 n1);
        when (0 <? r) (upd_file f (λ fl, set_f_off (u32 (f_off fl + r)) fl));;
        iunlock (f_ip fl);;
        end_op;;
        if negb (r =? n1) then mret i else filewrite_loop fu f addr n (i + r)
      else mret i
  end.

Definition filewrite (f : nat) (addr n : Z) : K Z :=
  fl ← get_file f;
  if f_writable fl =? 0 then mret (-1)
  else
    match f_type fl with
    | FD_PIPE => pipewrite (f_pipe fl) addr n
    | FD_DEVICE =>
        dv ← gets devsw;
        if (f_major fl <? 0) || (NDEV <=? f_major fl) then mret (-1)
        else
          match d_write (nthZ (Mk_devsw None None) dv (f_major fl)) with
          | None => mret (-1)
          | Some fn => devwrite fn (UserSrc addr) n
          end
    | FD_INODE =>
        i ← filewrite_loop (S (Z.to_nat n)) f addr n 0;
        mret (if i =? n then n else -1)
    | FD_NONE => panic "filewrite"
    end.

Definition count_openfile : K Z :=
  lift_cs (acquire L_ftable);;
  total ← (fix go (l : list nat) (total : Z) : K Z :=
     match l with
     | [] => mret total
     | i :: l' =>
         fl ← get_file i;
         go l' (if 0 <? f_ref fl then u64 (total + 1) else total)
     end) all_files 0;
  lift_cs (release L_ftable);;
  mret total.

(** kernel/pipe.c: [Some (f0, f1)], or [None] for -1. *)
Definition pipealloc : K (option (nat * nat)) :=
  let bad (f0 f1 : option nat) : K (option (nat * nat)) :=
    (match f0 with Some f => fileclose f | None => mret tt end);;
    (match f1 with Some f => fileclose f | None => mret tt end);;
    mret None in
  f0 ← filealloc;
  match f0 with
  | None => bad None None
  | Some a =>
      f1 ← filealloc;
      match f1 with
      | None => bad f0 None
      | Some b =>
          pi ← kalloc;
          if pi =? 0 then bad f0 f1
          else
            modify (λ s, set_pipes (<[pi := Mk_pipe (rdn (pmem s) pi (Z.to_nat PIPESIZE)) 0 0 1 1]> (pipes s)) s);;
            lift_cs (initlock (L_pipe pi) "pipe");;
            upd_file a (λ f, set_f_pipe pi (set_f_writable 0 (set_f_readable 1 (set_f_type FD_PIPE f))));;
            upd_file b (λ f, set_f_pipe pi (set_f_writable 1 (set_f_readable 0 (set_f_type FD_PIPE f))));;
            mret (Some (a, b))
      end
  end.
End file.
