(* ===== verification/FileProofs.v ===== *)
(** * Open files: [filewrite] and [fileread] of kernel/file.c

    [filewrite] cuts a write into transactions of at most [FILEWRITE_MAX] bytes. On a
    file system with enough free blocks it stores all the bytes of the user's buffer at
    the offset of the open file and moves the offset; [fileread] copies the bytes at the
    offset to the user. *)

From S2P Require Import Prelude Machine State Spinlock KString Kalloc Vm PageTable VmOps UserMem VmDemo Proc Sched Sleeplock Virtio VirtioProofs Bio LruProofs BlockSpec BioInv BioProofs BioBoot Log LogOps LogCommit LogTrans LogRecover LogSafe.
From S2P Require Import Uart Printf Console Fs FsData FsTx FsMap FsWrite FsInv FsRead FsSafe Pipe File.

Section filep.
Context `{L : Layout} `{Oth : Others} {B : BlockIO} {BL : BlockLaws B}.

(** ** Changes that a transaction does not see *)

Lemma tx_slock lg0 D hist C bl s j k :
  tx lg0 D hist C [] bl s → tx lg0 D hist C [] bl (set_slocks (<[SL_inode j := k]> (slocks s)) s).
Proof. intros []. split; try done. by apply law_slock. Qed.
Lemma tx_ftable lg0 D hist C bl s t : tx lg0 D hist C [] bl s → tx lg0 D hist C [] bl (set_ftable t s).
Proof. intros []. split; try done. by apply law_ftable. Qed.
Lemma tx_wake lg0 D hist C bl s ch :
  tx lg0 D hist C [] bl s → tx lg0 D hist C [] bl (set_proc_tab (woken ch (cur_proc s) (proc_tab s)) s).
Proof. intros []. split; try done. by apply law_wake. Qed.

(** What a step keeps, but for inodes, files and their locks. *)
Record kept (k : nat) (s s' : kstate) : Prop := {
  kp_user : same_user s s';
  kp_sb : sb s' = sb s;
  kp_sched : (sched_left s ≤ sched_left s' + k)%nat
}.

Lemma kept_trans k1 k2 s s1 s2 : kept k1 s s1 → kept k2 s1 s2 → kept (k1 + k2) s s2.
Proof. intros [A1 A2 A3] [B1 B2 B3]. split; [by eapply same_user_trans|congruence|lia]. Qed.
Lemma kept_refl s : kept 0 s s.
Proof. split; [apply same_user_refl|done|lia]. Qed.
Lemma txframe_kept k s s' : txframe k s s' → kept k s s' ∧ ftable s' = ftable s ∧ ∀ j, get_slock (SL_inode j) s' = get_slock (SL_inode j) s.
Proof.
  intros F. pose proof (txframe_user _ _ _ F) as U. destruct F as (lg & t & sl & bc & vd & pt & n & -> & Hj & Hl & Hp & Hn).
  split_and!; [by split|done|]. intros j. unfold get_slock. cbn. by rewrite Hj.
Qed.

(** ** [ilock] and [iunlock] of a cached inode *)

Lemma ilock_eq V s ip i :
  binv V s → lock_free (L_sleep (SL_inode ip)) (cs s) → sl_locked (get_slock (SL_inode ip) s) = 0 →
  nth ip (itable s) inode0 = i → 1 ≤ i_ref i → i_valid i ≠ 0 →
  ∃ p, cur_proc s = Some p ∧ ilock (Some ip) s =
    Ret tt (set_slocks (<[SL_inode ip := sl_held (p_pid (nth p (proc_tab s) proc0)) (get_slock (SL_inode ip) s)]> (slocks s)) s).
Proof.
  intros HV Hl Hk Hi Hr Hv. destruct (law_me V s HV) as [p Hp]. destruct (law_env V s HV) as (Hc & _). exists p. split; [done|].
  unfold ilock. erewrite bind_ret; [|reflexivity]. rewrite Hi, (proj2 (Z.ltb_ge _ _)) by lia.
  erewrite bind_ret; [|by apply (acquiresleep_eq 0 _ p)]. erewrite bind_ret; [|reflexivity].
  cbn [itable set_slocks]. rewrite Hi, (proj2 (Z.eqb_neq _ _)) by done. done.
Qed.

Lemma iunlock_eq V s ip i p :
  binv V s → lock_free (L_sleep (SL_inode ip)) (cs s) → cur_proc s = Some p →
  sl_locked (get_slock (SL_inode ip) s) = 1 → sl_pid (get_slock (SL_inode ip) s) = p_pid (nth p (proc_tab s) proc0) →
  nth ip (itable s) inode0 = i → 1 ≤ i_ref i →
  iunlock (Some ip) s = Ret tt (set_proc_tab (woken (Some (C_sleeplock (SL_inode ip))) (cur_proc s) (proc_tab s))
      (set_slocks (<[SL_inode ip := sl_freed (get_slock (SL_inode ip) s)]> (slocks s)) s)).
Proof.
  intros HV Hl Hp Hk Hpid Hi Hr. destruct (law_env V s HV) as (Hc & Hf & Ht).
  unfold iunlock. erewrite bind_ret; [|by apply (holdingsleep_eq 0 _ p)]. erewrite bind_ret; [|reflexivity].
  rewrite Hi, Hk, Hpid, Z.eqb_refl. cbn [c_bool Z.eqb negb andb orb]. rewrite (proj2 (Z.ltb_ge _ _)) by lia.
  apply (releasesleep_eq 0); try done. intros q Hq Hne. by apply Hf.
Qed.

(** ** An open file *)

(** File [f] of the file table is open on inode [ip], which is in memory and not locked. *)
Record open_file (V : bview) (s : kstate) (S : superblock) (d0 : Z) (f : nat) (fl : file) (ip : nat) (i : inode) : Prop := {
  of_rest : at_rest V s;
  of_on : file_on (klog s) S d0 (v_disk V) ip i s;
  of_file : ftable s !! f = Some fl;
  of_type : f_type fl = FD_INODE;
  of_ip : f_ip fl = Some ip;
  of_off : 0 ≤ f_off fl ≤ i_size i;
  of_ref : 1 ≤ i_ref i;
  of_valid : i_valid i ≠ 0;
  of_lock : lock_free (L_sleep (SL_inode ip)) (cs s);
  of_free : sl_locked (get_slock (SL_inode ip) s) = 0
}.

(** The state with the inode's lock held by process [p]. *)
Definition locked_by (ip p : nat) (s : kstate) : Prop :=
  cur_proc s = Some p ∧ lock_free (L_sleep (SL_inode ip)) (cs s) ∧ sl_locked (get_slock (SL_inode ip) s) = 1 ∧
  sl_pid (get_slock (SL_inode ip) s) = p_pid (nth p (proc_tab s) proc0).

Lemma locked_by_frame ip p s s' k : locked_by ip p s → txframe k s s' → locked_by ip p s'.
Proof.
  intros (H1 & H2 & H3 & H4) F. destruct (txframe_kept _ _ _ F) as ([(U1 & U2 & U3) _ _] & _ & Hg).
  unfold locked_by, cur_proc in *. rewrite U1, !Hg. split_and!; try done. rewrite H4. f_equal.
  rewrite !nth_lookup. by rewrite U3.
Qed.

(** Unlocking, as the rest of the kernel sees it. *)
Lemma unlocked_by ip p s ch :
  locked_by ip p s →
  let s' := set_proc_tab (woken ch (cur_proc s) (proc_tab s)) (set_slocks (<[SL_inode ip := sl_freed (get_slock (SL_inode ip) s)]> (slocks s)) s) in
  kept 0 s s' ∧ sl_locked (get_slock (SL_inode ip) s') = 0.
Proof.
  intros (H1 & H2 & H3 & H4) s'. split; [|unfold s', get_slock; cbn; by rewrite lookup_insert_eq]. split; [|done|unfold s'; cbn; lia].
  split_and!; [done|done|]. intros q Hq. unfold s'. cbn. rewrite Hq. apply woken_me.
Qed.

(** The end of a transaction of [filewrite]: the offset moves, the inode is unlocked, and
    the transaction commits. *)
Lemma finish_chunk {A} V s S d0 f fl ip i i' bytes C bl s1 p q k (Q : Z → K A) R :
  let n := Z.of_nat (length bytes) in let lg := set_l_outstanding 1 (klog s) in
  open_file V s S d0 f fl ip i → 0 < n → f_off fl + n ≤ MAXFILE * BSIZE →
  tx lg (v_disk V) (v_hist V) C [] bl s1 → bl ≠ [] → (length bl ≤ 25)%nat →
  wrote lg S d0 (v_disk V) i (f_off fl) bytes C i' → itable s1 = <[ip := i']> (itable s) → ftable s1 = ftable s →
  locked_by ip p s1 → kept k s s1 → has_free S d0 q C → (154 ≤ sched_left s1)%nat →
  (∀ s' V' i', open_file V' s' S d0 f (set_f_off (f_off fl + n) fl) ip i' →
    wrote (klog s) S d0 (v_disk V) i (f_off fl) bytes (v_disk V') i' → has_free S d0 q (v_disk V') →
    kept (k + 154) s s' → l_start (klog s') = l_start (klog s) → l_size (klog s') = l_size (klog s) → wp (Q n) R s') →
  wp (when (0 <? n) (upd_file f (λ fl, set_f_off (u32 (f_off fl + n)) fl));;
      iunlock (Some ip);;
      end_op;;
      Q n) R s1.
Proof.
  intros n lg [Rs Hon Hf Hty Hip Hoff Href Hval Hlock Hfree] Hn He T Hne Hbl W Hit Hft L1 K1 Hfr Hs HQ.
  assert (MAXFILE * BSIZE = 274432) as EM by done. pose proof (fn_ino _ _ _ _ _ _ _ Hon) as Hi.
  pose proof (lookup_lt_Some _ _ _ Hi) as Hlt. pose proof (fn_fits _ _ _ _ _ _ _ Hon) as Hfits.
  rewrite (proj2 (Z.ltb_lt 0 n)) by lia. cbn [when]. apply wp_bind, wp_modify. set (fl' := set_f_off (f_off fl + n) fl).
  assert (alter (λ fl, set_f_off (u32 (f_off fl + n)) fl) f (ftable s1) = <[f := fl']> (ftable s)) as ->.
  { rewrite Hft. apply (alter_set _ _ fl); [done|]. by rewrite u32_small by lia. }
  set (s2 := set_ftable _ s1). assert (tx lg (v_disk V) (v_hist V) C [] bl s2) as T2 by (by apply tx_ftable).
  assert (i_ref i' = i_ref i ∧ i_valid i' = i_valid i) as [Er Ev] by (by rewrite (wr_ino _ _ _ _ _ _ _ _ _ W)).
  assert (nth ip (itable s2) inode0 = i') as Hi2.
  { apply nth_lookup_Some. change (itable s2) with (itable s1). rewrite Hit. by apply list_lookup_insert_eq. }
  assert (locked_by ip p s2) as L2 by done. destruct L2 as (Hp2 & Hl2 & Hk2 & Hpid2).
  apply wp_bind. eapply wp_eq; [eapply (iunlock_eq _ s2 ip i' p (tx_inv _ _ _ _ _ _ _ T2)); try done; lia|].
  destruct (unlocked_by ip p s2 (Some (C_sleeplock (SL_inode ip))) L1) as [Ku Hu].
  set (s3 := set_proc_tab _ _) in *. assert (tx lg (v_disk V) (v_hist V) C [] bl s3) as T3.
  { by apply (tx_wake _ _ _ _ _ (set_slocks (<[SL_inode ip := sl_freed (get_slock (SL_inode ip) s2)]> (slocks s2)) s2)), tx_slock. }
  apply wp_bind. eapply wp_mono.
  { apply (commit_write V s S d0 ip i i' (f_off fl) bytes C bl s3 q Rs T3 Hne); try done; try lia.
    - apply (fn_dev _ _ _ _ _ _ _ Hon).
    - apply (fn_full _ _ _ _ _ _ _ Hon).
    - change (itable s3) with (itable s1). rewrite Hit. by apply list_lookup_insert_eq.
    - change (sb s3) with (sb s1). rewrite (kp_sb _ _ _ K1). apply Hon.
    - change (sched_left s3) with (sched_left s1). lia. }
  intros ? s4 (V' & W' & R' & Hst' & Hsz' & Hhist & Hf' & W2 & Hcr & Hfr2 & F2); cbn beta in *.
  assert (txframe (6 * length bl + 4) s3 s4) as F3 by (by eapply txframe_of).
  destruct (txframe_kept _ _ _ F3) as (K3 & Hft3 & Hg3). destruct (kp_user _ _ _ K1) as (U1 & _).
  destruct (kp_user _ _ _ K3) as (U3 & _). apply (HQ s4 V' i'); try done.
  - split; try done.
    + rewrite Hft3. change (ftable s3) with (<[f := fl']> (ftable s)). apply list_lookup_insert_eq. by apply lookup_lt_Some in Hf.
    + cbn. rewrite (wr_ino _ _ _ _ _ _ _ _ _ W2). cbn. fold n. lia.
    + lia.
    + congruence.
    + rewrite U3. change (cs s3) with (cs s1). by rewrite U1.
    + by rewrite Hg3.
  - assert (kept 0 s1 s2) as K2 by (split; [done|done|unfold s2; cbn; lia]).
    destruct (kept_trans _ _ _ _ _ K1 (kept_trans _ _ _ _ _ K2 (kept_trans _ _ _ _ _ Ku K3))) as [A1 A2 A3].
    split; [done|done|lia].
Qed.

(** One transaction of [filewrite]. *)
Lemma write_chunk {A} V s S d0 f fl ip i sr bytes q (Q : Z → K A) R :
  let n := Z.of_nat (length bytes) in
  open_file V s S d0 f fl ip i → supplies sr bytes s → 30 ≤ l_size (klog s) → 0 < n ≤ FILEWRITE_MAX →
  f_off fl + n ≤ MAXFILE * BSIZE → has_free S d0 (8 + q) (v_disk V) → (write_waits S 4 ≤ sched_left s)%nat →
  (∀ s' V' i', open_file V' s' S d0 f (set_f_off (f_off fl + n) fl) ip i' →
    wrote (klog s) S d0 (v_disk V) i (f_off fl) bytes (v_disk V') i' → has_free S d0 q (v_disk V') →
    kept (write_waits S 4) s s' → l_start (klog s') = l_start (klog s) → l_size (klog s') = l_size (klog s) → wp (Q n) R s') →
  wp (begin_op;;
      fl ← get_file f;
      ilock (f_ip fl);;
      ip ← deref (f_ip fl);
      fl ← get_file f;
      r ← writei ip sr (f_off fl) (u32 n);
      when (0 <? r) (upd_file f (λ fl, set_f_off (u32 (f_off fl + r)) fl));;
      iunlock (f_ip fl);;
      end_op;;
      Q r) R s.
Proof.
  intros n [Rs Hon Hf Hty Hip Hoff Href Hval Hlock Hfree] Hsup Hsz Hn He Hfr Hs HQ.
  change FILEWRITE_MAX with 3072 in Hn. assert (MAXFILE * BSIZE = 274432) as EM by done.
  set (lg := set_l_outstanding 1 (klog s)). set (s0 := set_klog lg s).
  pose proof (begin_tx V s S d0 ip i Rs Hon) as FT. fold lg in FT. fold s0 in FT.
  pose proof (fn_ino _ _ _ _ _ _ _ Hon) as Hi. pose proof (fn_fits _ _ _ _ _ _ _ Hon) as Hfits.
  assert (nth f (ftable s0) file0 = fl) as Hnth by (by apply nth_lookup_Some).
  apply wp_bind. eapply wp_eq; [by eapply begin_write|]. fold lg. fold s0.
  apply wp_bind, wp_gets. rewrite Hnth, Hip. apply wp_bind.
  destruct (ilock_eq _ s0 ip i (tx_inv _ _ _ _ _ _ _ (ft_tx _ _ _ _ _ _ _ _ _ _ _ FT)) Hlock Hfree) as (p & Hp & El);
    [by apply nth_lookup_Some|done|done|].
  eapply wp_eq; [exact El|]. set (s1 := set_slocks _ s0).
  assert (file_tx lg (v_disk V) (v_hist V) S d0 (v_disk V) (i_addrs i) [] ip i s1) as FT1.
  { destruct FT. split; try done. by apply tx_slock. }
  assert (locked_by ip p s1) as L1 by (unfold locked_by, s1; rewrite get_slock_insert; done).
  apply wp_bind, wp_ret. apply wp_bind, wp_gets. change (ftable s1) with (ftable s0). rewrite Hnth, Hip.
  rewrite u32_small by lia. apply wp_bind. eapply wp_mono.
  { apply (writei_ok lg (v_disk V) (v_hist V) S d0 (v_disk V) [] ip i s1 sr bytes (f_off fl) 4 q FT1 Hfits); try done.
    - change BSIZE with 1024. pose proof (Z.mod_pos_bound (f_off fl) 1024). lia.
    - split; cbn [length]; [change (l_size lg) with (l_size (klog s))|]; lia.
    - change (sched_left s1) with (sched_left s). unfold write_waits in Hs. lia. }
  intros r s2 (-> & C' & i' & bl' & T2 & Hit2 & W & Hbl & Hne & Hfr2 & F2); cbn beta in *. cbn [length Nat.add] in Hbl.
  destruct (txframe_kept _ _ _ F2) as (K2 & Hft2 & _).
  eapply (finish_chunk V s S d0 f fl ip i i' bytes C' bl' s2 p q (4 * block_waits S + 1)); try done.
  - lia.
  - by eapply locked_by_frame.
  - destruct K2 as [(U1 & U2 & U3) K2 K3]. by split.
  - destruct K2 as [_ _ K3]. change (sched_left s1) with (sched_left s) in K3. unfold write_waits in Hs. lia.
Qed.

(** ** [filewrite] *)

Lemma wrote_nil lg S d0 D ip i s off :
  file_on lg S d0 D ip i s → off ≤ i_size i → wrote lg S d0 D i off [] D i.
Proof.
  intros [K HS F Hi Hdev Hfits Hfull Hst] Ho. split; try done.
  - unfold grown_to. cbn. rewrite Z.add_0_r, Z.max_l by done. by destruct i.
  - intros o Hoo. by rewrite over_nil.
Qed.

Lemma grown_to_grown e1 e2 a1 a2 i : e1 ≤ e2 → grown_to e2 a2 (grown_to e1 a1 i) = grown_to e2 a2 i.
Proof. intros He. unfold grown_to. destruct i. cbn. unfold set_i_size. cbn. f_equal. lia. Qed.

Lemma wrote_trans lg S d0 C i off b1 b2 C1 i1 C2 i2 :
  wrote lg S d0 C i off b1 C1 i1 → wrote lg S d0 C1 i1 (off + Z.of_nat (length b1)) b2 C2 i2 → 0 ≤ d0 →
  wrote lg S d0 C i off (b1 ++ b2) C2 i2.
Proof.
  intros [A1 A2 A3 A4 A5 A6 A7 A8 A9 A10] [B1 B2 B3 B4 B5 B6 B7 B8 B9 B10] Hd.
  assert (i_inum i1 = i_inum i) as Ei by (by rewrite A1). rewrite Ei in *. split; try done.
  - rewrite length_app, Nat2Z.inj_add, Z.add_assoc. etransitivity; [exact B1|]. rewrite A1 at 1. apply grown_to_grown. lia.
  - intros o Ho. rewrite B4 by done. rewrite <- over_app. unfold over at 1 2. case_decide; [done|]. by apply A4.
  - intros k Hk Hne. rewrite B6 by done. by apply A6.
  - intros b Hb Hf. by apply B7, A7.
  - intros b Hb Hf Hno. rewrite B8; [by apply A8|done|apply A7; [lia|done]|]. intros Ho. by apply Hno, A9.
  - intros b Hb Hf Ho. apply A9, B9; [done|done|done|apply A7; [lia|done]|done].
  - intros Hm. by apply B10, A10.
Qed.

Lemma u64_add_u64 x y : u64 (u64 x + y) = u64 (x + y).
Proof. unfold u64. by rewrite Zplus_mod_idemp_l. Qed.

Lemma sub_sub l o n o' n' : 0 ≤ o → 0 ≤ o' → 0 ≤ n' → o' + n' ≤ n → sub (sub l o n) o' n' = sub l (o + o') n'.
Proof.
  intros H1 H2 H3 H4. apply list_eq. intros j. rewrite !sub_lookup. case_decide; [|done].
  rewrite decide_True by lia. f_equal. lia.
Qed.

Lemma supplies_shift addr bytes k n s :
  supplies (UserSrc addr) bytes s → 0 ≤ k → 0 ≤ n → k + n ≤ Z.of_nat (length bytes) →
  supplies (UserSrc (u64 (addr + k))) (sub bytes k n) s.
Proof.
  intros H Hk Hn Hl tot m s' H1 H2 H3 U. rewrite sub_len in H3 by lia. rewrite sub_sub by lia.
  pose proof (H (k + tot) m s' ltac:(lia) H2 ltac:(lia) U) as E. cbn [src_at] in *.
  rewrite u64_add_u64. by rewrite <- Z.add_assoc.
Qed.

Lemma filewrite_loop_ok S d0 f ip addr bytes off q c : ∀ fuel V s fl i k,
  let n := Z.of_nat (length bytes) in
  open_file V s S d0 f fl ip i → supplies (UserSrc addr) bytes s → 30 ≤ l_size (klog s) → f_off fl = off + k → 0 ≤ k ≤ n →
  off + n ≤ MAXFILE * BSIZE → n - k ≤ Z.of_nat c * FILEWRITE_MAX → has_free S d0 (8 * c + q) (v_disk V) →
  (c * write_waits S 4 ≤ sched_left s)%nat → n - k < Z.of_nat fuel →
  wp (filewrite_loop fuel f addr n k) (λ r s', r = n ∧ ∃ V' i',
    open_file V' s' S d0 f (set_f_off (off + n) fl) ip i' ∧ has_free S d0 q (v_disk V') ∧
    wrote (klog s) S d0 (v_disk V) i (off + k) (sub bytes k (n - k)) (v_disk V') i' ∧ kept (c * write_waits S 4) s s') s.
Proof.
  induction c as [|c IH]; intros fuel V s fl i k n Hof Hsup Hsz Hoff Hk He Hc Hfr Hs Hf;
    (destruct fuel as [|fuel]; [lia|]); cbn [filewrite_loop]; (destruct (Z.ltb_spec k n) as [Hlt|Hge]);
    try (change FILEWRITE_MAX with 3072 in *; lia).
  1,3: (assert (k = n) as -> by lia; apply wp_ret; split; [done|]; exists V, i; rewrite Z.sub_diag;
    assert (set_f_off (off + n) fl = fl) as -> by (rewrite <- Hoff; by destruct fl);
    split_and!; [done|eapply has_free_weaken; [exact Hfr|lia]| |destruct (kept_refl s); split; [done|done|lia]];
    rewrite <- Hoff; eapply wrote_nil; [apply Hof|apply Hof]).
  cbv zeta. set (n1 := if FILEWRITE_MAX <? n - k then FILEWRITE_MAX else n - k).
  assert (0 < n1 ≤ FILEWRITE_MAX ∧ k + n1 ≤ n ∧ (n1 < FILEWRITE_MAX → k + n1 = n)) as (Hn1 & Hkn & Hlast).
  { unfold n1. change FILEWRITE_MAX with 3072. destruct (Z.ltb_spec 3072 (n - k)); lia. }
  assert (Z.of_nat (length (sub bytes k n1)) = n1) as Hlen by (rewrite sub_len; lia).
  clearbody n1. replace (u32 n1) with (u32 (Z.of_nat (length (sub bytes k n1)))) by (by rewrite Hlen).
  eapply (write_chunk V s S d0 f fl ip i _ (sub bytes k n1) (8 * c + q)); rewrite ?Hlen.
  - done.
  - apply supplies_shift; [done|lia..].
  - done.
  - done.
  - lia.
  - by replace (8 + (8 * c + q))%nat with (8 * Datatypes.S c + q)%nat by lia.
  - lia.
  - intros s1 V1 i1 Hof1 W1 Hfr1 K1 Hst1 Hsz1. rewrite Z.eqb_refl. cbn [negb].
    pose proof (kp_sched _ _ _ K1) as Hsl1. eapply wp_mono.
    { apply (IH fuel V1 s1 (set_f_off (f_off fl + n1) fl) i1 (k + n1)); try done; try lia.
      - by eapply supplies_user; [apply K1|].
      - cbn. lia.
      - change FILEWRITE_MAX with 3072 in *. lia. }
    intros r s2 (-> & V2 & i2 & Hof2 & Hfr2 & W2 & K2); cbn beta in *. split; [done|].
    exists V2, i2. split_and!; [done|done| |by apply (kept_trans _ _ _ _ _ K1)].
    rewrite (sub_split bytes k n1 (n - k)) by lia. rewrite Hoff in W1. eapply wrote_trans; [exact W1| |].
    + rewrite Hlen, <- Z.add_assoc. replace (n - k - n1) with (n - (k + n1)) by lia.
      eapply wrote_agree; [exact W2|apply Hof1|by rewrite Hst1, Hsz1|done|]. intros b. eapply at_rest_len, Hof2.
    + pose proof (g_pos _ _ _ _ (fn_disk _ _ _ _ _ _ _ (of_on _ _ _ _ _ _ _ _ Hof))). lia.
Qed.

(** ** [fileread] *)

Lemma at_rest_slock V s j k : at_rest V s → at_rest V (set_slocks (<[SL_inode j := k]> (slocks s)) s).
Proof. intros []. split; try done. by apply law_slock. Qed.
Lemma at_rest_ftable V s t : at_rest V s → at_rest V (set_ftable t s).
Proof. intros []. split; try done. by apply law_ftable. Qed.
Lemma at_rest_wake V s ch : at_rest V s → at_rest V (set_proc_tab (woken ch (cur_proc s) (proc_tab s)) s).
Proof. intros []. split; try done. by apply law_wake. Qed.

Lemma file_on_state lg S d0 D ip i s s' :
  file_on lg S d0 D ip i s → sb s' = sb s → itable s' = itable s → file_on lg S d0 D ip i s'.
Proof. intros [] E1 E2. split; try done; congruence. Qed.

(** The end of [fileread]: the offset moves, the inode is unlocked. *)
Lemma finish_read V s S d0 f fl ip i s1 p x (r : Z) (R : Z → kstate → Prop) :
  open_file V s S d0 f fl ip i → at_rest V s1 → klog s1 = klog s → sb s1 = sb s → cs s1 = cs s →
  itable s1 = itable s → ftable s1 = ftable s → locked_by ip p s1 →
  0 ≤ r → f_off fl + r ≤ i_size i → x = f_off fl + r →
  (∀ s', open_file V s' S d0 f (set_f_off x fl) ip i → same_user s1 s' → R r s') →
  wp (when (0 <? r) (upd_file f (λ fl, set_f_off (u32 (f_off fl + r)) fl));; iunlock (Some ip);; mret r) R s1.
Proof.
  intros [Rs Hon Hf Hty Hip Hoff Href Hval Hlock Hfree] R1 Hk1 Hsb1 Hcs1 Hit1 Hft1 L1 Hr He -> HR.
  pose proof (if_size _ _ (fn_fits _ _ _ _ _ _ _ Hon)) as Hsz. change (MAXFILE * BSIZE) with 274432 in Hsz.
  assert (wp (when (0 <? r) (upd_file f (λ fl, set_f_off (u32 (f_off fl + r)) fl)))
    (λ _ s2, s2 = set_ftable (<[f := set_f_off (f_off fl + r) fl]> (ftable s)) s1) s1) as Hw.
  { destruct (Z.ltb_spec 0 r) as [Hpos|Hz]; cbn [when].
    - apply wp_modify. f_equal. rewrite Hft1. apply (alter_set _ _ fl); [done|]. by rewrite u32_small by lia.
    - apply wp_ret. replace (f_off fl + r) with (f_off fl) by lia. rewrite list_insert_id.
      + rewrite <- Hft1. by destruct s1.
      + rewrite Hf. by destruct fl. }
  apply wp_bind. eapply wp_mono; [exact Hw|]. intros ? s2 ->; cbn beta. set (s2 := set_ftable _ s1).
  destruct L1 as (Hp & Hl & Hk & Hpid). apply wp_bind. eapply wp_eq.
  { apply (iunlock_eq V s2 ip i p); try done; [apply law_ftable, R1|].
    apply nth_lookup_Some. change (itable s2) with (itable s1). rewrite Hit1. apply Hon. }
  apply wp_ret. set (s3 := set_slocks _ s2).
  apply HR; [|split_and!; [done|done|]; intros x Hx; cbn; unfold cur_proc in Hx |- *; cbn; rewrite Hx; apply woken_me].
  split; try done.
  - apply (at_rest_wake V s3), at_rest_slock, at_rest_ftable, R1.
  - eapply file_on_state; [cbn; rewrite Hk1; exact Hon|done|done].
  - cbn. apply list_lookup_insert_eq. by apply lookup_lt_Some in Hf.
  - cbn. lia.
  - unfold get_slock. cbn. by rewrite lookup_insert_eq.
Qed.

(** [fileread] of an open file. *)
Lemma fileread_ok V s S d0 f fl ip i addr n c mm :
  let k := Z.to_nat (Z.min n (i_size i - f_off fl)) in
  let bytes := file_bytes (v_disk V) (i_addrs i) (f_off fl) k in
  open_file V s S d0 f fl ip i → f_readable fl ≠ 0 → receives (UserDst addr) bytes mm s → 0 ≤ n < 2 ^ 31 →
  f_off fl mod BSIZE + Z.of_nat k ≤ Z.of_nat c * BSIZE → (2 * c ≤ sched_left s)%nat →
  wp (fileread f addr n) (λ r s', r = Z.of_nat k ∧ same_user (set_pmem (mm r) s) s' ∧
    open_file V s' S d0 f (set_f_off (f_off fl + Z.of_nat k) fl) ip i) s.
Proof.
  intros k bytes Hof Hrd Hrc Hn Hc Hs. destruct (Hof) as [Rs Hon Hf Hty Hip Hoff Href Hval Hlock Hfree].
  pose proof (nth_lookup_Some _ _ file0 _ Hf) as Hnth. pose proof (fn_ino _ _ _ _ _ _ _ Hon) as Hi.
  unfold fileread. apply wp_bind, wp_gets. rewrite Hnth, (proj2 (Z.eqb_neq _ _)), Hty, Hip by done.
  destruct (ilock_eq V s ip i (ar_inv _ _ Rs) Hlock Hfree) as (p & Hp & El); [by apply nth_lookup_Some|done|done|].
  apply wp_bind. eapply wp_eq; [exact El|]. set (s1 := set_slocks _ s).
  assert (locked_by ip p s1) as L1 by (unfold locked_by, s1; rewrite get_slock_insert; done).
  apply wp_bind, wp_ret. apply wp_bind, wp_gets. change (ftable s1) with (ftable s). rewrite Hnth, Hip.
  rewrite u32_small by lia. apply wp_bind. eapply wp_mono.
  { apply (read_on V s1 S d0 ip i (UserDst addr) mm (f_off fl) n c); try done.
    - by apply at_rest_slock.
    - by eapply file_on_state.
    - by eapply (receives_user _ _ _ s). }
  fold k. fold bytes. intros r s2 (-> & R2 & Fr); cbn beta in *. cbn [fst].
  assert (txframe (2 * c) (set_pmem (mm (Z.of_nat k)) s1) s2) as F2 by (by apply txframe_bframe).
  destruct (bframe_facts _ _ _ Fr) as (Hk2 & Hc2 & Hsb2 & Hit2 & _). destruct (txframe_kept _ _ _ F2) as (_ & Hft2 & _).
  eapply (finish_read V s S d0 f fl ip i s2 p); try done; try lia.
  - eapply locked_by_frame; [|exact F2]. done.
  - intros s3 Hof3 U. split_and!; [done| |done]. eapply same_user_trans; [|exact U].
    by apply (txframe_user _ (set_pmem (mm (Z.of_nat k)) s1) s2 F2).
Qed.
End filep.

(** The current process [p] has the page table [root]; [T] are the pages of page tables. *)
Record user_space `{L : Layout} (T : gmap Z nat) (root : Z) (s : kstate) : Prop := {
  us_root : T !! root = Some 2%nat;
  us_data : user_data T root (pmem s);
  us_proc : ∃ p pr, cur_proc s = Some p ∧ proc_tab s !! p = Some pr ∧ p_pagetable pr = root
}.

(** ** Properties *)

Section properties.
Context `{L : Layout} `{Oth : Others} `{VD : VirtioDev} {DE : DiskEnv}.

(** [filewrite], to be used for the system call. *)
Lemma filewrite_refines V s S d0 f fl ip i F bs T root addr bytes c :
  let n := Z.of_nat (length bytes) in
  open_file V s S d0 f fl ip i → f_writable fl ≠ 0 → user_space T root s →
  fs_ok (klog s) S d0 (v_disk V) F → F !! i_inum i = Some (dinode_of i, bs) →
  0 ≤ addr → addr + n ≤ 2 ^ 64 → uread (pmem s) root addr (length bytes) = Some bytes →
  30 ≤ l_size (klog s) → f_off fl + n ≤ MAXFILE * BSIZE → n ≤ Z.of_nat c * FILEWRITE_MAX →
  has_free S d0 (8 * c) (v_disk V) → (c * write_waits S 4 ≤ sched_left s)%nat →
  wp (filewrite f addr n) (λ r s', r = n ∧ ∃ V' i',
    open_file V' s' S d0 f (set_f_off (f_off fl + n) fl) ip i' ∧
    wrote (klog s) S d0 (v_disk V) i (f_off fl) bytes (v_disk V') i' ∧
    fs_ok (klog s) S d0 (v_disk V') (put_file (i_inum i) (dinode_of i') (f_off fl) bytes F) ∧ same_user s s') s.
Proof.
  intros n Hof Hwr [HT Hud (p & pr & Hp & Hpr & Hroot)] HFS HF Ha Hae Hrd Hsz He Hc Hfr Hs.
  assert (supplies (UserSrc addr) bytes s) as Hsup.
  { eapply (supplies_uread T root); try done; [apply Hud|]. apply (law_env V), Hof. }
  unfold filewrite. apply wp_bind, wp_gets. rewrite (nth_lookup_Some _ _ _ _ (of_file _ _ _ _ _ _ _ _ Hof)).
  rewrite (proj2 (Z.eqb_neq _ _)), (of_type _ _ _ _ _ _ _ _ Hof) by done. rewrite <- (Nat.add_0_r (8 * c)) in Hfr.
  apply wp_bind. eapply wp_mono.
  { apply (filewrite_loop_ok S d0 f ip addr bytes (f_off fl) 0 c _ V s fl i 0 Hof); try done; lia. }
  intros r s' (-> & V' & i' & Hof' & _ & W & [U _ _]); cbn beta in *. rewrite Z.eqb_refl. apply wp_ret.
  rewrite Z.add_0_r, Z.sub_0_r, sub_all in W by done. split; [done|]. exists V', i'. split_and!; [done|done| |done].
  pose proof (ho_size _ _ _ _ _ _ (fk_file _ _ _ _ _ HFS _ _ _ HF)) as Hsz'. cbn in Hsz'.
  eapply fs_ok_wrote; [done|done|done| |done]. rewrite <- Hsz'. apply Hof.
Qed.

Lemma holds_bytes S d0 C j d bs off k :
  holds S d0 C j d bs → 0 ≤ off → off + Z.of_nat k ≤ Z.of_nat (length bs) →
  file_bytes C (di_addrs d) off k = take k (drop (Z.to_nat off) bs).
Proof.
  intros H Ho Hk. apply list_eq. intros m. unfold file_bytes. rewrite list_lookup_fmap. destruct (decide (m < k)%nat) as [Hm|Hm].
  - assert (zrange off k !! m = Some (off + Z.of_nat m)) as -> by (apply zrange_lookup; lia). cbn [fmap option_fmap option_map].
    rewrite lookup_take_lt, lookup_drop by done. destruct (lookup_lt_is_Some_2 bs (Z.to_nat off + m)) as [x Hx]; [lia|].
    rewrite Hx. f_equal. replace (off + Z.of_nat m) with (Z.of_nat (Z.to_nat off + m)) by lia. by apply (ho_bytes _ _ _ _ _ _ H).
  - rewrite lookup_take_ge by lia. rewrite (proj2 (lookup_ge_None (zrange off k) m)); [done|]. rewrite zrange_length. lia.
Qed.

(** [fileread]. *)
Lemma fileread_refines V s S d0 f fl ip i F bs T root addr n c m' :
  let k := Z.to_nat (Z.min n (Z.of_nat (length bs) - f_off fl)) in
  open_file V s S d0 f fl ip i → f_readable fl ≠ 0 → user_space T root s →
  fs_ok (klog s) S d0 (v_disk V) F → F !! i_inum i = Some (dinode_of i, bs) →
  0 ≤ n < 2 ^ 31 → 0 ≤ addr → addr + Z.of_nat k ≤ 2 ^ 64 →
  uwrite (pmem s) root addr (take k (drop (Z.to_nat (f_off fl)) bs)) = Some m' →
  f_off fl mod BSIZE + Z.of_nat k ≤ Z.of_nat c * BSIZE → (2 * c ≤ sched_left s)%nat →
  wp (fileread f addr n) (λ r s', r = Z.of_nat k ∧ same_user (set_pmem m' s) s' ∧
    open_file V s' S d0 f (set_f_off (f_off fl + Z.of_nat k) fl) ip i) s.
Proof.
  intros k Hof Hrd [HT Hud (p & pr & Hp & Hpr & Hroot)] HFS HF Hn Ha Hae Hw Hc Hs.
  pose proof (fk_file _ _ _ _ _ HFS _ _ _ HF) as Hh. pose proof (ho_size _ _ _ _ _ _ Hh) as Hsz. cbn in Hsz.
  pose proof (of_off _ _ _ _ _ _ _ _ Hof) as Hoff.
  pose proof (holds_bytes S d0 (v_disk V) _ _ bs (f_off fl) k Hh ltac:(lia) ltac:(lia)) as Eb. cbn [di_addrs dinode_of] in Eb.
  rewrite <- Eb in Hw. set (bytes := file_bytes (v_disk V) (i_addrs i) (f_off fl) k) in *.
  assert (length bytes = k) as Hl by apply file_bytes_length.
  assert (receives (UserDst addr) bytes (λ tot, default (pmem s) (uwrite (pmem s) root addr (take (Z.to_nat tot) bytes))) s) as Hrc.
  { eapply (receives_uwrite T root); try done; [|by rewrite Hl]. apply (law_env V), Hof. }
  assert (k = Z.to_nat (Z.min n (i_size i - f_off fl))) as Ek by (by rewrite Hsz).
  pose proof (fileread_ok V s S d0 f fl ip i addr n c (λ tot, default (pmem s) (uwrite (pmem s) root addr (take (Z.to_nat tot) bytes))) Hof Hrd) as Hread.
  cbn zeta in Hread. rewrite <- Ek in Hread. eapply wp_mono; [by apply Hread|].
  intros r s' (-> & Hm & Hof'); cbn beta in *. split_and!; [done| |done].
  rewrite Nat2Z.id, take_ge, Hw in Hm by lia. exact Hm.
Qed.
End properties.

#[local] Existing Instances layout_ex disk_others plain_dev disk_others_env.

(** ** The machine of FsSafe with the lock of inode 0 free *)

Lemma demo_open n :
  ∃ s, open_file (view_of demo_fs_disk) s demo_sb 35 0 demo_file 0 demo_inode ∧ user_space demo_T demo_rootA s ∧
    pmem s = demo_mem ∧ klog s = demo_log 0 [] ∧ sched_left s = n ∧ cur_proc s = Some 1%nat ∧
    proc_tab s !! 1%nat = demo_me <$> proc_tab pdemo !! 1%nat.
Proof.
  destruct (demo_fs_boot n) as (s & R & Hk & Hs & Hf & Hft & Hpm & Hp & Hpt & Hl).
  exists (set_slocks (<[SL_inode 0 := Mk_sleeplock 0 "inode" 0]> (slocks s)) s). split_and!.
  - split; try done.
    + by apply at_rest_slock.
    + by eapply file_on_state.
    + cbn [ftable set_slocks]. by rewrite Hft.
    + by rewrite get_slock_insert.
  - split; [done|cbn [pmem set_slocks]; rewrite Hpm; exact demo_user_data|].
    eexists 1%nat, _. split_and!; [done|cbn [proc_tab set_slocks]; rewrite Hpt; reflexivity|reflexivity].
  - done.
  - done.
  - done.
  - done.
  - done.
Qed.

Lemma demo_has_free8 : has_free demo_sb 35 8 (block_of demo_fs_disk).
Proof.
  exists [36; 37; 38; 39; 40; 41; 42; 43]. split_and!; [|done|].
  - repeat constructor; set_solver.
  - intros b Hb. assert (36 ≤ b < 44) by (set_solver by lia). cbn [sb_size demo_sb]. rewrite demo_bitmap_free by lia.
    split; [lia|]. apply Z.leb_le. lia.
Qed.

(** The file system of this machine: one file, inode 5 with the bytes [hello]. *)
Definition demo_files : gmap Z (dinode * list Z) := {[ 5 := (dinode_of demo_inode, [104; 101; 108; 108; 111]) ]}.

Lemma demo_files_ok s : klog s = demo_log 0 [] →
  file_on (klog s) demo_sb 35 (block_of demo_fs_disk) 0 demo_inode s → fs_ok (klog s) demo_sb 35 (block_of demo_fs_disk) demo_files.
Proof.
  intros Hk Hon. assert (∀ j d bs, demo_files !! j = Some (d, bs) → j = 5 ∧ d = dinode_of demo_inode ∧ bs = [104; 101; 108; 108; 111]) as Hone.
  { intros j d bs. unfold demo_files. rewrite lookup_singleton_Some. by intros [<- [= <- <-]]. }
  split; [apply Hon| |].
  - intros j d bs (-> & -> & ->)%Hone. split; [apply Hon|cbn; lia|reflexivity|by vm_compute|apply Hon|apply Hon|].
    intros k x Hx. do 5 (destruct k as [|k]; [injection Hx as <-; vm_compute; reflexivity|]). discriminate.
  - intros j k d bs d' bs' Hjk (-> & _)%Hone (-> & _)%Hone. done.
Qed.
