(* ===== verification/InodeTab.v ===== *)
(** * The table of inodes in memory: [iget], [idup], [ilock], [iunlock] and [iput] of kernel/fs.c

    [itab_ok F t]: the entries of the table [t] that are in use are inodes of the file
    system [F], each at most once, and an entry that is valid agrees with the disk.
    [ref_of t j] is the number of references that the kernel holds to inode [j]. *)

From S2P Require Import Prelude Machine State Spinlock KString Kalloc Vm PageTable VmOps UserMem VmDemo Proc Sched Sleeplock Virtio VirtioProofs Bio LruProofs BlockSpec BioInv BioProofs BioBoot Log LogOps LogCommit LogTrans LogRecover LogSafe.
From S2P Require Import Uart Printf Console Fs FsData FsTx FsMap FsWrite FsInv FsRead FsSafe Pipe File FileProofs.

(** ** References *)

Definition in_use (i : inode) : Prop := 0 < i_ref i.
Global Instance in_use_dec i : Decision (in_use i).
Proof. unfold in_use. apply _. Defined.

(** What entry [i] contributes to the references to inode [j]. *)
Definition contrib (i : inode) (j : Z) : Z := if decide (in_use i ∧ i_inum i = j) then i_ref i else 0.
Fixpoint ref_of (t : list inode) (j : Z) : Z := match t with [] => 0 | i :: t' => contrib i j + ref_of t' j end.
Definition inums (t : list inode) : list Z := i_inum <$> filter in_use t.

Lemma contrib_nonneg i j : 0 ≤ contrib i j.
Proof. unfold contrib, in_use. case_decide; lia. Qed.

Lemma contrib_same i i' j : i_inum i = i_inum i' → i_ref i = i_ref i' → contrib i j = contrib i' j.
Proof. intros E1 E2. unfold contrib, in_use. repeat case_decide; [done|exfalso; naive_solver lia..|done]. Qed.

Lemma ref_of_insert t k i i' j : t !! k = Some i → ref_of (<[k := i']> t) j = ref_of t j - contrib i j + contrib i' j.
Proof.
  revert k. induction t as [|x t IH]; intros [|k] Hk; cbn in *; [done|done| |].
  - injection Hk as ->. lia.
  - rewrite IH by done. lia.
Qed.

Lemma ref_of_lookup t k i : t !! k = Some i → in_use i → i_ref i ≤ ref_of t (i_inum i).
Proof.
  intros Hk Hu. revert k Hk. induction t as [|x t IH]; intros [|k] Hk; cbn in *; [done|done| |].
  - injection Hk as ->. assert (0 ≤ ref_of t (i_inum i)).
    { clear. induction t as [|y t IH]; cbn; [lia|]. pose proof (contrib_nonneg y (i_inum i)). lia. }
    unfold contrib. rewrite decide_True by done. lia.
  - specialize (IH k Hk). pose proof (contrib_nonneg x (i_inum i)). lia.
Qed.

Lemma ref_of_pos t j : j ∈ inums t ↔ 0 < ref_of t j.
Proof.
  unfold inums. induction t as [|x t IH]; cbn [ref_of]; [split; [by intros ?%not_elem_of_nil|lia]|].
  assert (0 ≤ ref_of t j). { clear. induction t as [|y t IH]; cbn; [lia|]. pose proof (contrib_nonneg y j). lia. }
  unfold contrib. destruct (decide (in_use x)) as [Hx|Hx].
  - rewrite filter_cons_True, fmap_cons, elem_of_cons, IH by done. unfold in_use in Hx. case_decide as E; [destruct E; split; [lia|auto]|].
    split; [intros [-> |?]; [tauto|lia]|intros; right; lia].
  - rewrite filter_cons_False, IH by done. rewrite decide_False by tauto. lia.
Qed.

(** ** The invariant *)

Section table.
Context (F : gmap Z (dinode * list Z)).

(** An entry in use. *)
Definition cached (i : inode) : Prop :=
  i_dev i = ROOTDEV ∧ ∃ d bs, F !! i_inum i = Some (d, bs) ∧ (i_valid i ≠ 0 → dinode_of i = d).

Record itab_ok (t : list inode) : Prop := {
  it_len : length t = Z.to_nat NINODE;
  it_ref k i : t !! k = Some i → 0 ≤ i_ref i;
  it_use k i : t !! k = Some i → in_use i → cached i;
  it_inj : NoDup (inums t)
}.

Lemma inums_insert_out t k i i' x :
  t !! k = Some i → x ∈ inums (<[k := i']> t) → in_use i' ∧ x = i_inum i' ∨ x ∈ inums t.
Proof.
  intros Hk. rewrite !ref_of_pos, (ref_of_insert t k i) by done. unfold contrib at 2. pose proof (contrib_nonneg i x).
  case_decide as E; [destruct E; auto|right; lia].
Qed.

Lemma inums_app t1 t2 : inums (t1 ++ t2) = inums t1 ++ inums t2.
Proof. unfold inums. by rewrite filter_app, fmap_app. Qed.

Lemma inums_cons x t : inums (x :: t) = if decide (in_use x) then i_inum x :: inums t else inums t.
Proof. unfold inums. rewrite filter_cons. by case_decide. Qed.

Lemma insert_split {A} (t : list A) k i i' : t !! k = Some i → t = take k t ++ i :: drop (S k) t ∧ <[k := i']> t = take k t ++ i' :: drop (S k) t.
Proof.
  intros Hk. split; [symmetry; by apply take_drop_middle|]. rewrite insert_take_drop; [done|by apply lookup_lt_Some in Hk].
Qed.

(** An entry changes: it stays the inode that it was, or a free one gets a new inode. *)
Lemma itab_insert t k i i' :
  itab_ok t → t !! k = Some i → 0 ≤ i_ref i' → (in_use i' → cached i') →
  (in_use i → i_inum i' = i_inum i) → (¬ in_use i → in_use i' → i_inum i' ∉ inums t) → itab_ok (<[k := i']> t).
Proof.
  intros [H1 H2 H3 H4] Hk Hr Hc Hs Hn. assert (k < length t)%nat as Hlt by (by apply lookup_lt_Some in Hk). split.
  - by rewrite length_insert.
  - intros k' x [(-> & <- & _)|[_ Hx]]%list_lookup_insert_Some; [done|by eapply H2].
  - intros k' x [(-> & <- & _)|[_ Hx]]%list_lookup_insert_Some; [done|by eapply H3].
  - destruct (insert_split t k i i' Hk) as [E1 E2]. rewrite E2. rewrite E1 in H4, Hn. revert H4 Hn. rewrite !inums_app, !inums_cons. repeat case_decide.
    + rewrite Hs by done. done.
    + intros (N1 & N2 & N3%NoDup_cons)%NoDup_app _. apply NoDup_app. split_and!; [done| |apply N3].
      intros x Hx Hx'. apply (N2 x Hx). apply elem_of_cons. by right.
    + intros (N1 & N2 & N3)%NoDup_app Hni. specialize (Hni ltac:(done) ltac:(done)). rewrite elem_of_app in Hni.
      apply NoDup_app. split_and!; [done| |by apply NoDup_cons; split; [tauto|]].
      intros x Hx [-> |Hx']%elem_of_cons; [tauto|by apply (N2 x)].
    + done.
Qed.

Lemma inums_elem t j : j ∈ inums t ↔ ∃ k i, t !! k = Some i ∧ in_use i ∧ i_inum i = j.
Proof.
  unfold inums. rewrite list_elem_of_fmap. split.
  - intros (i & -> & [Hu [k Hk]%list_elem_of_lookup]%list_elem_of_filter). by exists k, i.
  - intros (k & i & Hk & Hu & <-). exists i. split; [done|]. apply list_elem_of_filter. split; [done|]. by eapply list_elem_of_lookup_2.
Qed.

Lemma itab_unique t k k' i i' :
  NoDup (inums t) → t !! k = Some i → t !! k' = Some i' → in_use i → in_use i' → i_inum i = i_inum i' → k = k'.
Proof.
  revert k k'. induction t as [|x t IH]; intros k k'; [done|]. rewrite inums_cons. intros Hnd Hk Hk' Hu Hu' E.
  assert (NoDup (inums t)) as Hnd' by (case_decide; [by apply NoDup_cons in Hnd as [_ ?]|done]).
  destruct k as [|k], k' as [|k']; cbn in Hk, Hk'; [done| | |].
  - injection Hk as ->. rewrite decide_True in Hnd by done. apply NoDup_cons in Hnd as [Hni _]. exfalso. apply Hni, inums_elem. eauto.
  - injection Hk' as ->. rewrite decide_True in Hnd by done. apply NoDup_cons in Hnd as [Hni _]. exfalso. apply Hni, inums_elem. eauto.
  - f_equal. by eapply IH.
Qed.

(** There is a free entry unless all inodes in the table are in use. *)
Lemma itab_full t : itab_ok t → (∀ k i, t !! k = Some i → in_use i) → length (inums t) = Z.to_nat NINODE.
Proof.
  intros [H1 _ _ _] Hall. unfold inums. rewrite length_fmap. rewrite <- H1. f_equal. clear H1. induction t as [|x t IH]; [done|].
  rewrite filter_cons_True by (by apply (Hall 0%nat)). f_equal. apply IH. intros k i Hk. by apply (Hall (S k)).
Qed.

Lemma inums_bound t (D : gset Z) : itab_ok t → (∀ j, 0 < ref_of t j → j ∈ D) → (length (inums t) ≤ size D)%nat.
Proof.
  intros [_ _ _ H4] HD. rewrite <- (size_list_to_set (C := gset Z) (inums t)) by done. apply subseteq_size.
  intros x. rewrite elem_of_list_to_set, ref_of_pos. apply HD.
Qed.
End table.

Lemma iget_scan_spec dev inum : ∀ t i0 e,
  match iget_scan t i0 dev inum e with
  | inl k => ∃ k' i, k = (i0 + k')%nat ∧ t !! k' = Some i ∧ in_use i ∧ i_dev i = dev ∧ i_inum i = inum
  | inr r =>
      (∀ k i, t !! k = Some i → in_use i → i_dev i = dev → i_inum i = inum → False) ∧
      match r with
      | Some k => e = Some k ∨ e = None ∧ ∃ k' i, k = (i0 + k')%nat ∧ t !! k' = Some i ∧ i_ref i = 0
      | None => e = None ∧ ∀ k i, t !! k = Some i → i_ref i ≠ 0
      end
  end.
Proof.
  induction t as [|x t IH]; intros i0 e; cbn [iget_scan].
  - split; [done|]. destruct e; auto.
  - destruct ((0 <? i_ref x) && (i_dev x =? dev) && (i_inum x =? inum)) eqn:E.
    + exists 0%nat, x. unfold in_use. split_and!; [lia|done|lia..].
    + specialize (IH (S i0) (match e with None => if i_ref x =? 0 then Some i0 else None | Some _ => e end)).
      destruct (iget_scan t (S i0) dev inum _) as [k|r].
      * destruct IH as (k' & i & -> & H). exists (S k'), i. split; [lia|done].
      * destruct IH as [Hno Hr]. split.
        { intros [|k] i; cbn; [intros [= ->]; unfold in_use; lia|by apply Hno]. }
        destruct r as [k|].
        -- destruct e as [e|]; [destruct Hr as [?|[? _]]; [by left|done]|]. right. split; [done|].
           destruct (Z.eqb_spec (i_ref x) 0) as [Hz|].
           ++ destruct Hr as [[= <-]|[? _]]; [|done]. exists 0%nat, x. split_and!; [lia|done|done].
           ++ destruct Hr as [?|(_ & k' & i & -> & H)]; [done|]. exists (S k'), i. split; [lia|done].
        -- destruct Hr as [He Hall]. destruct e; [done|]. split; [done|]. destruct (Z.eqb_spec (i_ref x) 0); [done|].
           intros [|k] i; cbn; [by intros [= <-]|by apply Hall].
Qed.

(** ** Taking and dropping references *)

Definition one (x j : Z) : Z := if decide (x = j) then 1 else 0.

(** Entries in use keep their inode; only reference counts may have grown. *)
Definition more_refs (t t' : list inode) : Prop :=
  ∀ k i, t !! k = Some i → in_use i → ∃ r, t' !! k = Some (set_i_ref r i) ∧ i_ref i ≤ r.

Lemma set_i_ref_id i : set_i_ref (i_ref i) i = i.
Proof. by destruct i. Qed.

Lemma more_refs_insert t k i r : t !! k = Some i → i_ref i ≤ r → more_refs t (<[k := set_i_ref r i]> t).
Proof.
  intros Hk Hr k' x Hx Hu. destruct (decide (k = k')) as [<-|Hne].
  - rewrite Hk in Hx. injection Hx as ->. exists r. rewrite list_lookup_insert_eq by (by apply lookup_lt_Some in Hk). done.
  - exists (i_ref x). rewrite list_lookup_insert_ne, set_i_ref_id by done. done.
Qed.

Lemma more_refs_free t k i i' : t !! k = Some i → ¬ in_use i → more_refs t (<[k := i']> t).
Proof.
  intros Hk Hn k' x Hx Hu. destruct (decide (k = k')) as [<-|Hne].
  - rewrite Hk in Hx. by injection Hx as ->.
  - exists (i_ref x). rewrite list_lookup_insert_ne, set_i_ref_id by done. done.
Qed.

Lemma contrib_set_ref i r x : in_use i → 0 < r → contrib (set_i_ref r i) x = contrib i x + (r - i_ref i) * one x (i_inum i).
Proof.
  intros Hu Hr. unfold contrib, one, in_use in *. cbn [i_inum i_ref set_i_ref].
  repeat case_decide; try lia; (exfalso; naive_solver lia).
Qed.

Lemma alter_twice {A} (f g : A → A) k (l : list A) : alter f k (alter g k l) = alter (f ∘ g) k l.
Proof. revert k. induction l as [|x l IH]; intros [|k]; cbn; [done..|]. f_equal. apply IH. Qed.

Section refs.
Context `{L : Layout} `{Oth : Others} {B : BlockIO} {BL : BlockLaws B}.

(** What a step of the table needs. *)
Definition tab_ready (s : kstate) : Prop := cs_ok 0 (cs s) ∧ lock_free L_itable (cs s).

Lemma ref_up F t k i :
  itab_ok F t → t !! k = Some i → in_use i → ref_of t (i_inum i) < 2 ^ 31 - 1 →
  let t' := <[k := set_i_ref (i_ref i + 1) i]> t in
  s32 (i_ref i + 1) = i_ref i + 1 ∧ itab_ok F t' ∧ more_refs t t' ∧ ∀ x, ref_of t' x = ref_of t x + one x (i_inum i).
Proof.
  intros T Hk Hu Hlt t'. pose proof (ref_of_lookup t k i Hk Hu). unfold in_use in Hu. split_and!.
  - apply s32_small. lia.
  - eapply itab_insert; [done|done|cbn; lia|intros _; by apply (it_use _ _ T k i)|done|done].
  - by apply more_refs_insert; [|lia].
  - intros x. unfold t'. rewrite (ref_of_insert t k i) by done. rewrite contrib_set_ref by (done || lia). lia.
Qed.

Lemma iget_eq F s j :
  tab_ready s → itab_ok F (itable s) → is_Some (F !! j) → (length (inums (itable s)) < Z.to_nat NINODE)%nat →
  ref_of (itable s) j < 2 ^ 31 - 1 →
  ∃ k i' t', iget ROOTDEV j s = Ret k (set_itable t' s) ∧ itab_ok F t' ∧ t' !! k = Some i' ∧ i_inum i' = j ∧ in_use i' ∧
    more_refs (itable s) t' ∧ ∀ x, ref_of t' x = ref_of (itable s) x + one x j.
Proof.
  intros [Hc Hl] T [[d bs] HF] Hroom Hlt. unfold iget. erewrite bind_ret; [|by eapply k_acquire].
  erewrite bind_ret; [|reflexivity]. cbn [itable set_cs]. pose proof (iget_scan_spec ROOTDEV j (itable s) 0 None) as Hs.
  destruct (iget_scan (itable s) 0 ROOTDEV j None) as [k|[k|]].
  - destruct Hs as (k' & i & -> & Hk & Hu & Hd & Hi). cbn [Nat.add]. subst j.
    destruct (ref_up F (itable s) k' i T Hk Hu Hlt) as (E & T' & M & R). eexists k', _, _. split_and!; [|exact T'| | | |exact M|exact R].
    + erewrite bind_ret; [|reflexivity]. erewrite bind_ret; [|by eapply (k_release 0 L_itable (cs s))].
      cbn [itable set_cs set_itable]. rewrite (alter_set _ _ i (set_i_ref (i_ref i + 1) i)) by (done || by rewrite E). by destruct s.
    + by rewrite list_lookup_insert_eq by (by apply lookup_lt_Some in Hk).
    + done.
    + unfold in_use in *. cbn. lia.
  - destruct Hs as [Hno [?|(_ & k' & i & -> & Hk & Hz)]]; [done|]. cbn [Nat.add].
    set (i' := set_i_valid 0 (set_i_ref 1 (set_i_inum j (set_i_dev ROOTDEV i)))).
    assert (¬ in_use i) as Hn by (unfold in_use; lia). assert (in_use i') as Hu' by (unfold in_use; cbn; lia).
    assert (j ∉ inums (itable s)) as Hnew.
    { unfold inums. intros (x & -> & [Hx [kx Hkx]%list_elem_of_lookup]%list_elem_of_filter)%list_elem_of_fmap.
      apply (Hno kx x Hkx Hx); [|done]. by apply (it_use _ _ T kx x). }
    exists k', i', (<[k' := i']> (itable s)). assert (k' < length (itable s))%nat as Hlen by (by apply lookup_lt_Some in Hk). split_and!.
    + do 4 (erewrite bind_ret; [|reflexivity]). erewrite bind_ret; [|by eapply (k_release 0 L_itable (cs s))].
      cbn [itable set_cs set_itable]. rewrite !alter_twice. rewrite (alter_set _ _ i i') by done. by destruct s.
    + eapply itab_insert; [done|done|cbn; lia| |done|intros _ _; exact Hnew]. intros _. split; [done|]. exists d, bs. done.
    + by apply list_lookup_insert_eq.
    + done.
    + done.
    + by apply (more_refs_free _ _ i).
    + intros x. rewrite (ref_of_insert _ k' i) by done. unfold contrib at 1. rewrite decide_False by tauto.
      unfold contrib, one. cbn [i_inum i' set_i_valid set_i_ref set_i_inum i_ref].
      repeat case_decide; try lia; (exfalso; naive_solver).
  - destruct Hs as [_ [_ Hall]]. exfalso. assert (length (inums (itable s)) = Z.to_nat NINODE); [|lia].
    apply (itab_full F); [done|]. intros k i Hk. pose proof (it_ref _ _ T k i Hk). specialize (Hall k i Hk). unfold in_use. lia.
Qed.

Lemma idup_eq F s k i :
  tab_ready s → itab_ok F (itable s) → itable s !! k = Some i → in_use i → ref_of (itable s) (i_inum i) < 2 ^ 31 - 1 →
  ∃ t', idup k s = Ret k (set_itable t' s) ∧ itab_ok F t' ∧ more_refs (itable s) t' ∧
    ∀ x, ref_of t' x = ref_of (itable s) x + one x (i_inum i).
Proof.
  intros [Hc Hl] T Hk Hu Hlt. destruct (ref_up F (itable s) k i T Hk Hu Hlt) as (E & T' & M & R).
  eexists. split_and!; [|exact T'|exact M|exact R]. unfold idup. erewrite bind_ret; [|by eapply k_acquire].
  erewrite bind_ret; [|reflexivity]. erewrite bind_ret; [|by eapply (k_release 0 L_itable (cs s))].
  cbn [itable set_cs set_itable]. rewrite (alter_set _ _ i (set_i_ref (i_ref i + 1) i)) by (done || by rewrite E). by destruct s.
Qed.

(** [iput] of an inode with links: only the reference goes. *)
Lemma iput_eq F s k i :
  tab_ready s → itab_ok F (itable s) → itable s !! k = Some i → in_use i → i_ref i < 2 ^ 31 →
  (i_valid i ≠ 0 → i_nlink i ≠ 0) →
  let t' := <[k := set_i_ref (i_ref i - 1) i]> (itable s) in
  iput k s = Ret tt (set_itable t' s) ∧ itab_ok F t' ∧ ∀ x, ref_of t' x = ref_of (itable s) x - one x (i_inum i).
Proof.
  intros [Hc Hl] T Hk Hu Hlt Hnl t'. unfold t'. clear t'.
  unfold in_use in Hu. split_and!.
  - unfold iput. erewrite bind_ret; [|by eapply k_acquire]. erewrite bind_ret; [|reflexivity].
    cbn [itable set_cs]. rewrite (nth_lookup_Some _ _ _ _ Hk).
    assert ((i_ref i =? 1) && c_bool (i_valid i) && (i_nlink i =? 0) = false) as ->.
    { unfold c_bool. destruct (Z.eqb_spec (i_valid i) 0); [by rewrite andb_false_r|]. rewrite (proj2 (Z.eqb_neq (i_nlink i) 0)) by auto. apply andb_false_r. }
    cbn [when]. erewrite bind_ret; [|reflexivity]. erewrite bind_ret; [|reflexivity]. rewrite (k_release 0 L_itable (cs s)) by done.
    cbn [itable set_cs set_itable]. rewrite (alter_set _ _ i (set_i_ref (i_ref i - 1) i)) by (done || by rewrite s32_small by lia). by destruct s.
  - eapply itab_insert; [done|done|cbn; lia|intros _; by apply (it_use _ _ T k i)|done|unfold in_use; cbn; lia].
  - intros x. rewrite (ref_of_insert _ k i) by done. unfold contrib, one, in_use. cbn [i_inum i_ref set_i_ref].
    repeat case_decide; try lia; (exfalso; naive_solver lia).
Qed.

(** ** Locking *)

(** Nothing changes but inodes, their locks and the block layer, and [k] waits. *)
Record nframe (k : nat) (s s' : kstate) : Prop := {
  nf_kept : kept k s s';
  nf_klog : klog s' = klog s;
  nf_ftable : ftable s' = ftable s
}.

Lemma nframe_refl s : nframe 0 s s.
Proof. split; [apply kept_refl|done|done]. Qed.
Lemma nframe_trans k1 k2 s s1 s2 : nframe k1 s s1 → nframe k2 s1 s2 → nframe (k1 + k2) s s2.
Proof. intros [A1 A2 A3] [B1 B2 B3]. split; [by eapply kept_trans|congruence..]. Qed.
Lemma nframe_weaken k k' s s' : nframe k s s' → (k ≤ k')%nat → nframe k' s s'.
Proof. intros [[A1 A2 A3] B1 B2] Hk. split; [|done|done]. split; [done|done|lia]. Qed.
Lemma nframe_itable t s : nframe 0 s (set_itable t s).
Proof. split; [|done|done]. split; [done|done|cbn; lia]. Qed.
Lemma nframe_bframe k s s' : bframe k s s' → nframe k s s' ∧ itable s' = itable s ∧ ∀ j, get_slock (SL_inode j) s' = get_slock (SL_inode j) s.
Proof.
  intros F. destruct (txframe_kept _ _ _ (txframe_bframe _ _ _ F)) as (K & Hf & Hg). destruct (bframe_facts _ _ _ F) as (Hk & _ & _ & Hi & _).
  split_and!; [by split|done|done].
Qed.

Lemma locked_by_kept n k p s s' :
  locked_by k p s → kept n s s' → get_slock (SL_inode k) s' = get_slock (SL_inode k) s → locked_by k p s'.
Proof.
  intros (H1 & H2 & H3 & H4) [(U1 & U2 & U3) _ _] Hg. unfold locked_by, cur_proc in *. rewrite U1, !Hg.
  split_and!; try done. rewrite H4. f_equal. rewrite !nth_lookup. by rewrite U3.
Qed.

Section locking.
Context (V : bview) (lg : log_state) (S : superblock) (d0 : Z) (F : gmap Z (dinode * list Z)).
Context (CR : can_read V) (FS : fs_ok lg S d0 (v_content V) F).

(** The table of inodes between operations; the current process [p] holds the lock of
    entry [k] if [h] is [Some (k, p)], and no inode is locked otherwise. *)
Record nstate (h : option (nat * nat)) (s : kstate) : Prop := {
  ns_inv : binv V s;
  ns_sb : sb s = S;
  ns_tab : itab_ok F (itable s);
  ns_lk : lock_free L_itable (cs s);
  ns_sl k : (k < Z.to_nat NINODE)%nat → lock_free (L_sleep (SL_inode k)) (cs s);
  ns_free k : (k < Z.to_nat NINODE)%nat → (∀ p, h ≠ Some (k, p)) → sl_locked (get_slock (SL_inode k) s) = 0;
  ns_held k p : h = Some (k, p) → locked_by k p s
}.

Lemma nstate_ready h s : nstate h s → tab_ready s.
Proof. intros N. split; [by eapply law_env, ns_inv|apply N]. Qed.

Lemma nstate_itable h s t : nstate h s → itab_ok F t → nstate h (set_itable t s).
Proof. intros [] T. split; try done. by apply law_itable. Qed.

(** Entry [k] agrees with the inode [d] on disk. *)
Definition loaded (d : dinode) (i i' : inode) : Prop :=
  dinode_of i' = d ∧ i_inum i' = i_inum i ∧ i_ref i' = i_ref i ∧ i_valid i' ≠ 0 ∧ i_dev i' = ROOTDEV.

Lemma loaded_tab t k i i' d bs :
  itab_ok F t → t !! k = Some i → in_use i → F !! i_inum i = Some (d, bs) → loaded d i i' →
  itab_ok F (<[k := i']> t) ∧ ∀ x, ref_of (<[k := i']> t) x = ref_of t x.
Proof.
  intros T Hk Hu HF (E1 & E2 & E3 & E4 & E5). split.
  - eapply itab_insert; [done|done|rewrite E3; by apply (it_ref _ _ T k)| |done|done].
    intros _. split; [done|]. exists d, bs. rewrite E2. done.
  - intros x. rewrite (ref_of_insert _ k i) by done. rewrite (contrib_same i' i) by done. lia.
Qed.

Lemma ilock_ok s k i d bs :
  nstate None s → itable s !! k = Some i → in_use i → F !! i_inum i = Some (d, bs) → di_type d ≠ 0 → (0 < sched_left s)%nat →
  wp (ilock (Some k)) (λ _ s', ∃ p i', nstate (Some (k, p)) s' ∧ itable s' = <[k := i']> (itable s) ∧ loaded d i i' ∧ nframe 1 s s') s.
Proof.
  intros N Hk Hu HF Hty Hs. destruct N as [HV HS HT HL Hsl Hfr _]. pose proof (nth_lookup_Some _ _ inode0 _ Hk) as Hn.
  destruct (it_use _ _ HT k i Hk Hu) as (Hdev & d' & bs' & HF' & Hval). rewrite HF in HF'. injection HF' as <- <-.
  assert (k < Z.to_nat NINODE)%nat as Hkn by (rewrite <- (it_len _ _ HT); by apply lookup_lt_Some in Hk).
  destruct (law_env V s HV) as (Hc & _). destruct (law_me V s HV) as [p Hp].
  assert (sl_locked (get_slock (SL_inode k) s) = 0) as Hl0 by (by apply Hfr). pose proof (Hsl k Hkn) as Hslk.
  unfold ilock. apply wp_bind, wp_gets. rewrite Hn, (proj2 (Z.ltb_ge _ _)) by (unfold in_use in Hu; lia).
  apply wp_bind. eapply wp_eq; [by apply (acquiresleep_eq 0 _ p)|]. set (s1 := set_slocks _ s).
  assert (binv V s1) as HV1 by (by apply law_slock).
  assert (locked_by k p s1) as L1 by (unfold locked_by, s1; rewrite get_slock_insert; done).
  assert (∀ k', k' ≠ k → get_slock (SL_inode k') s1 = get_slock (SL_inode k') s) as Ho1.
  { intros k' Hne. unfold s1, get_slock. cbn. rewrite lookup_insert_ne; [done|]. intros [= ?]. congruence. }
  assert (nframe 0 s s1) as F1 by (split; [|done|done]; split; [done|done|cbn; lia]).
  apply wp_bind, wp_gets. change (itable s1) with (itable s). rewrite Hn.
  destruct (Z.eqb_spec (i_valid i) 0) as [Hz|Hnz]; cbn [when].
  2:{ apply wp_ret. exists p, i. split_and!; [|by rewrite list_insert_id|by split_and!; auto|by eapply nframe_weaken; [exact F1|lia]].
      split; try done.
      - intros k' Hlt' Hk'. rewrite Ho1; [|intros ->; by apply (Hk' p)]. by apply Hfr.
      - by intros k' p' [= <- <-]. }
  apply wp_bind, wp_gets. change (sb s1) with (sb s). rewrite HS, Hdev.
  pose proof (fk_file _ _ _ _ _ FS _ _ _ HF) as Hh. pose proof (ho_inum _ _ _ _ _ _ Hh) as Hin.
  destruct (iblock_meta lg S d0 (v_content V) (i_inum i) (fk_disk _ _ _ _ _ FS) Hin) as ((Hblk & _) & _).
  apply wp_bind. eapply wp_mono; [by apply (read_bread V s1 (IBLOCK (i_inum i) S) CR HV1)|].
  intros j s2 (HV2 & Hd2 & B2); cbn beta in *. destruct (nframe_bframe _ _ _ B2) as (F2 & Hi2 & Hg2).
  apply wp_bind, wp_gets. rewrite Hd2. apply wp_bind, wp_gets. rewrite Hi2. change (itable s1) with (itable s). rewrite Hn. cbv zeta.
  change (dinode_of_bytes _ _) with (dinode_at S (v_content V) (i_inum i)). rewrite (ho_at _ _ _ _ _ _ Hh).
  do 6 apply wp_bind, wp_modify. cbn [itable set_itable]. rewrite !alter_twice, Hi2. change (itable s1) with (itable s).
  set (i3 := Mk_inode (i_dev i) (i_inum i) (i_ref i) (i_valid i) (di_type d) (di_major d) (di_minor d) (di_nlink d) (di_size d) (di_addrs d)).
  rewrite (alter_set _ _ i i3) by (done || by destruct i).
  match goal with |- wp _ _ ?x => replace x with (set_itable (<[k := i3]> (itable s)) s2) by (by destruct s2) end.
  apply wp_bind. eapply wp_mono; [apply (read_brelse V s1 _ j (IBLOCK (i_inum i) S) CR HV1), law_itable, HV2|].
  intros ? s4 [HV4 B4]; cbn beta in *. destruct (nframe_bframe _ _ _ B4) as (F4 & Hi4 & Hg4).
  apply wp_bind, wp_modify. rewrite Hi4. cbn [itable set_itable].
  assert (k < length (itable s))%nat as Hlt by (by apply lookup_lt_Some in Hk).
  rewrite (alter_set _ _ i3 (set_i_valid 1 i3)) by (done || by rewrite list_lookup_insert_eq). rewrite list_insert_insert_eq.
  apply wp_bind, wp_gets. cbn [itable set_itable]. rewrite (nth_lookup_Some _ k inode0 (set_i_valid 1 i3)) by (by apply list_lookup_insert_eq).
  change (i_type (set_i_valid 1 i3)) with (di_type d). rewrite (proj2 (Z.eqb_neq _ _)) by done. apply wp_ret.
  assert (loaded d i (set_i_valid 1 i3)) as LD by (split_and!; [by destruct d|done..]).
  pose proof (nframe_trans _ _ _ _ _ F1 (nframe_trans _ _ _ _ _ F2 (nframe_trans _ _ _ _ _ (nframe_itable _ s2) F4))) as F14.
  destruct (loaded_tab _ k i _ d bs HT Hk Hu HF LD) as [T5 _]. destruct (nf_kept _ _ _ F14) as [(U1 & U2 & U3) Hsb Hsl'].
  exists p, (set_i_valid 1 i3). split_and!; [|done|done|].
  - split; cbn [cs set_itable itable sb]; rewrite ?U1; try done.
    + by apply law_itable.
    + congruence.
    + intros k' Hlt' Hk'. change (get_slock _ (set_itable _ s4)) with (get_slock (SL_inode k') s4). rewrite Hg4.
      change (get_slock _ (set_itable _ s2)) with (get_slock (SL_inode k') s2). rewrite Hg2, Ho1; [by apply Hfr|]. intros ->. by apply (Hk' p).
    + intros k' p' [= <- <-]. pose proof (nframe_trans _ _ _ _ _ F2 (nframe_trans _ _ _ _ _ (nframe_itable _ s2) F4)) as F24.
      assert (locked_by k p s4) as L4; [|exact L4].
      eapply locked_by_kept; [exact L1|apply F24|]. rewrite Hg4. exact (Hg2 k).
  - eapply nframe_weaken; [apply (nframe_trans _ _ _ _ _ F14 (nframe_itable _ s4))|lia].
Qed.

Lemma iunlock_ok s k p i :
  nstate (Some (k, p)) s → itable s !! k = Some i → in_use i →
  wp (iunlock (Some k)) (λ _ s', nstate None s' ∧ itable s' = itable s ∧ nframe 0 s s') s.
Proof.
  intros N Hk Hu. destruct N as [HV HS HT HL Hsl Hfr Hh]. pose proof (Hh k p eq_refl) as L1. pose proof L1 as (Hp & Hlf & Hl & Hpid).
  eapply wp_eq; [apply (iunlock_eq V s k i p); try done; [by apply nth_lookup_Some|unfold in_use in Hu; lia]|].
  destruct (unlocked_by k p s (Some (C_sleeplock (SL_inode k))) L1) as [Ku Hfree]. set (s' := set_proc_tab _ _) in *.
  split_and!; [|done|by split]. split; try done.
  - by apply (law_wake V (set_slocks (<[SL_inode k := sl_freed (get_slock (SL_inode k) s)]> (slocks s)) s)), law_slock.
  - intros k' Hlt' _. destruct (decide (k' = k)) as [->|Hne]; [done|].
    unfold s', get_slock. cbn. rewrite lookup_insert_ne by congruence. apply Hfr; [done|]. intros q [= ? _]. congruence.
Qed.

(** The lock and one reference go. *)
Lemma iunlockput_ok s k p i :
  nstate (Some (k, p)) s → itable s !! k = Some i → in_use i → i_ref i < 2 ^ 31 → i_nlink i ≠ 0 →
  wp (iunlockput k) (λ _ s', nstate None s' ∧ nframe 0 s s' ∧ itable s' = <[k := set_i_ref (i_ref i - 1) i]> (itable s) ∧
    ∀ x, ref_of (itable s') x = ref_of (itable s) x - one x (i_inum i)) s.
Proof.
  intros N Hk Hu Hlt Hnl. unfold iunlockput. apply wp_bind. eapply wp_mono; [by apply (iunlock_ok s k p i)|].
  intros ? s1 (N1 & Hi1 & F1); cbn beta in *. rewrite <- Hi1 in Hk |- *.
  destruct (iput_eq F s1 k i (nstate_ready _ _ N1) (ns_tab _ _ N1) Hk Hu Hlt ltac:(done)) as (E & T & R).
  eapply wp_eq; [exact E|]. split_and!; [by apply nstate_itable| |done|done].
  apply (nframe_trans _ _ _ _ _ F1 (nframe_itable _ s1)).
Qed.
End locking.
End refs.
