(* ===== verification/NameProofs.v ===== *)
(** * Path names: [dirlookup] and [namex] of kernel/fs.c

    On a disk that holds the files [F], [namei] and [nameiparent] find the inode that a
    walk through the directories of [F] finds, and take exactly one reference to it. *)

From S2P Require Import Prelude Machine State Spinlock KString Kalloc Vm PageTable VmOps UserMem VmDemo Proc Sched Sleeplock Virtio VirtioProofs Bio LruProofs BlockSpec BioInv BioProofs BioBoot Log LogOps LogCommit LogTrans LogRecover LogSafe.
From S2P Require Import Uart Printf Console Fs PathProofs FsData FsTx FsMap FsWrite FsInv FsRead FsSafe Pipe File FileProofs InodeTab.

Definition byte (b : Z) : Prop := 0 ≤ b < 256.

(** ** Names *)

Lemma at_list_byte l j : Forall byte l → 0 ≤ at_list l j < 256.
Proof.
  intros H. unfold at_list, nthZ. case_decide; [|lia]. rewrite nth_lookup. destruct (l !! Z.to_nat j) eqn:E; cbn; [|lia].
  exact (Forall_lookup_1 _ _ _ _ H E).
Qed.

(** Two names of [n] bytes are the same up to a NUL. *)
Lemma same_name n : ∀ a b, length a = n → length b = n →
  until_nul a = until_nul b ↔
  ∃ k, (k ≤ n)%nat ∧ (∀ j, (j < k)%nat → nth j a 0 = nth j b 0 ∧ nth j a 0 ≠ 0) ∧ (k = n ∨ nth k a 0 = 0 ∧ nth k b 0 = 0).
Proof.
  induction n as [|n IH]; intros [|x a] [|y b] Ha Hb; try done.
  - split; [intros _; exists 0%nat; split_and!; [lia|lia|by left]|done].
  - injection Ha as Ha. injection Hb as Hb. specialize (IH a b Ha Hb). cbn [until_nul]. split.
    + destruct (Z.eqb_spec x 0) as [->|Hx], (Z.eqb_spec y 0) as [->|Hy]; try done.
      * intros _. exists 0%nat. split_and!; [lia|lia|by right].
      * intros [= -> E]. apply IH in E as (k & Hk & Hj & He). exists (S k). split_and!; [lia| |destruct He; [left; lia|by right]].
        intros [|j] Hlt; [done|]. apply Hj. lia.
    + intros ([|k] & Hk & Hj & He).
      * destruct He as [?|[Ex Ey]]; [lia|]. cbn in Ex, Ey. by subst x y.
      * destruct (Hj 0%nat ltac:(lia)) as [E Hx]. cbn in E, Hx. subst y. rewrite (proj2 (Z.eqb_neq x 0)) by done. f_equal. apply IH.
        exists k. split_and!; [lia| |destruct He; [left; lia|by right]]. intros j Hlt. apply (Hj (S j)). lia.
Qed.

Lemma at_list_nth l j : at_list l (Z.of_nat j) = nth j l 0.
Proof. unfold at_list, nthZ. rewrite decide_True by lia. by rewrite Nat2Z.id. Qed.

Lemma namecmp_cname a b :
  length a = 14%nat → length b = 14%nat → Forall byte a → Forall byte b → namecmp (at_list a) (at_list b) = 0 ↔ cname a = cname b.
Proof.
  intros Ha Hb Ba Bb. unfold cname. rewrite !take_ge by lia. rewrite (same_name 14 a b) by done. unfold namecmp, DIRSIZ.
  rewrite strncmp_zero by (try lia; intros; by apply at_list_byte). split.
  - intros (k & Hk & Hj & He). exists (Z.to_nat k). split_and!; [lia| |].
    + intros j Hlt. rewrite <- !at_list_nth. apply Hj. lia.
    + destruct He; [left; lia|right]. rewrite <- !at_list_nth, Z2Nat.id by lia. done.
  - intros (k & Hk & Hj & He). exists (Z.of_nat k). split_and!; [lia|lia| |].
    + intros j Hlt. rewrite <- (Z2Nat.id j), !at_list_nth by lia. apply Hj. lia.
    + destruct He; [left; lia|right]. by rewrite !at_list_nth.
Qed.

Lemma skipelem_bytes path name rest name' :
  skipelem path name = Some (rest, name') → Forall byte path → Forall byte name → Forall byte rest ∧ Forall byte name'.
Proof.
  assert (∀ l, Forall byte l → Forall byte (skip_slashes l)) as Hsk.
  { induction l as [|c l IH]; [done|]. cbn. intros [H1 H2]%Forall_cons. case_match; [by apply IH|by apply Forall_cons]. }
  intros E Hp Hn. unfold skipelem in E. apply Hsk in Hp. destruct (skip_slashes path) as [|c p]; [done|].
  pose proof (split_slash_span (c :: p)) as Hs. destruct (span_elem (c :: p)) as [e r]. destruct Hs as (_ & _ & Hs). injection E as <- <-.
  rewrite Hs in Hp. apply Forall_app in Hp as [He Hr]. split; [by apply Hsk|].
  assert (∀ l, Forall byte l → Forall byte (overlay name l)) as Ho.
  { intros l Hl. unfold overlay. apply Forall_app. split; [done|]. by apply Forall_drop. }
  case_match; apply Ho; [by apply Forall_take|]. apply Forall_app. split; [done|]. apply Forall_singleton. unfold byte. lia.
Qed.

(** The path that [skipelem] leaves is empty exactly when it has no elements. *)
Lemma skipelem_rest path name rest name' : skipelem path name = Some (rest, name') → elements rest = [] ↔ rest = [].
Proof.
  unfold skipelem. destruct (skip_slashes path) as [|c p]; [done|]. destruct (span_elem (c :: p)) as [e r]. intros [= <- _].
  destruct (skip_slashes r) as [|x q] eqn:E; [done|]. pose proof (skip_slashes_head _ _ _ E) as Hx.
  pose proof (elements_span (x :: q) ltac:(done) ltac:(cbn; congruence)) as Hs. destruct (span_elem (x :: q)). by destruct Hs as (-> & _).
Qed.

(** ** Directories *)

(** Entry [k] of a directory, and the first entry with the name. *)
Definition dent (bs : list Z) (k : nat) : dirent := dirent_of_bytes (sub bs (16 * Z.of_nat k) 16).
Fixpoint dir_scan (bs name : list Z) (k n : nat) : option (nat * Z) :=
  match n with
  | O => None
  | S n =>
      if decide (de_inum (dent bs k) ≠ 0 ∧ cname (de_name (dent bs k)) = name) then Some (k, de_inum (dent bs k))
      else dir_scan bs name (S k) n
  end.
Definition dir_lookup (bs name : list Z) : option (nat * Z) := dir_scan bs name 0 (length bs / 16).

(** The walk: from inode [j] along the elements [es] of a path, to the last one or to the
    directory before it. *)
Fixpoint resolve (F : gmap Z (dinode * list Z)) (parent : bool) (j : Z) (es : list (list Z)) : option Z :=
  match es with
  | [] => if parent then None else Some j
  | e :: es' =>
      f ← F !! j;
      if di_type f.1 =? T_DIR then
        if parent && (match es' with [] => true | _ => false end) then Some j
        else x ← dir_lookup f.2 (take 14 e); resolve F parent x.2 es'
      else None
  end.

(** A well-formed tree of files. [w] bounds the disk accesses for one directory. *)
Record tree_ok (w : nat) (F : gmap Z (dinode * list Z)) : Prop := {
  tk_wait : (0 < w)%nat;
  tk_type j d bs : F !! j = Some (d, bs) → di_type d ≠ 0;
  tk_link j d bs : F !! j = Some (d, bs) → di_nlink d ≠ 0;
  tk_size j d bs : F !! j = Some (d, bs) → di_type d = T_DIR →
    length bs = (16 * (length bs / 16))%nat ∧ (2 * (length bs / 16) + 1 ≤ w)%nat ∧ Forall byte bs;
  tk_dir j d bs k : F !! j = Some (d, bs) → di_type d = T_DIR → (k < length bs / 16)%nat → de_inum (dent bs k) ≠ 0 →
    is_Some (F !! de_inum (dent bs k))
}.

Lemma dir_scan_some bs name k n r : dir_scan bs name k n = Some r → (k ≤ r.1 < k + n)%nat ∧ r.2 = de_inum (dent bs r.1) ∧ r.2 ≠ 0.
Proof.
  revert k. induction n as [|n IH]; intros k; cbn; [done|]. case_decide as Hd; [intros [= <-]; cbn; split_and!; [lia|lia|done|tauto]|].
  intros (? & ? & ?)%IH. split_and!; [lia|lia|done|done].
Qed.

Lemma dir_lookup_file w F j d bs name r :
  tree_ok w F → F !! j = Some (d, bs) → di_type d = T_DIR → dir_lookup bs name = Some r → is_Some (F !! r.2).
Proof. intros T HF Hd (? & E & Hz)%dir_scan_some. rewrite E in Hz |- *. eapply (tk_dir _ _ T j d bs); try done. lia. Qed.

Lemma dent_name bs k : Forall byte bs → (16 * S k ≤ length bs)%nat → length (de_name (dent bs k)) = 14%nat ∧ Forall byte (de_name (dent bs k)).
Proof.
  intros Hb Hl. unfold dent, dirent_of_bytes. cbn [de_name]. unfold sub. split.
  - rewrite length_take, length_drop, length_take, length_drop. lia.
  - by apply Forall_take, Forall_drop, Forall_take, Forall_drop.
Qed.

Section walk.
Context `{L : Layout} `{Oth : Others} {B : BlockIO} {BL : BlockLaws B}.
Context (V : bview) (lg : log_state) (S : superblock) (d0 : Z) (F : gmap Z (dinode * list Z)) (w : nat).
Context (CR : can_read V) (FS : fs_ok lg S d0 (v_content V) F) (TR : tree_ok w F).

Lemma nstate_bframe h k s s' : nstate V S F h s → bframe k s s' → binv V s' → nstate V S F h s'.
Proof.
  intros [HV HS HT HL Hsl Hfr Hh] Fr HV'. destruct (nframe_bframe _ _ _ Fr) as (NF & Hi & Hg).
  destruct (nf_kept _ _ _ NF) as [(U1 & _) Hsb _]. split; rewrite ?U1, ?Hi, ?Hsb; try done.
  - intros k' Hlt Hk'. rewrite Hg. by apply Hfr.
  - intros k' p E. eapply locked_by_kept; [by apply Hh|apply NF|apply Hg].
Qed.

(** One entry of a directory. *)
Lemma read_dent h s dp i d bs k :
  nstate V S F h s → itable s !! dp = Some i → i_dev i = ROOTDEV → F !! i_inum i = Some (d, bs) → dinode_of i = d →
  (16 * Datatypes.S k ≤ length bs)%nat → (2 ≤ sched_left s)%nat →
  wp (readi dp VarDst (16 * Z.of_nat k) sizeof_dirent) (λ r s', r = (16, sub bs (16 * Z.of_nat k) 16) ∧
    nstate V S F h s' ∧ itable s' = itable s ∧ nframe 2 s s') s.
Proof.
  intros N Hi Hdev HF Hd Hk Hs. pose proof (fk_file _ _ _ _ _ FS _ _ _ HF) as Hh. pose proof (ns_inv _ _ _ _ _ N) as HV.
  destruct Hh as [Hat Hin Hsz Hmax Hfile Hfull Hby] eqn:EH. clear EH. rewrite <- Hd in Hsz, Hmax, Hfile, Hfull, Hby. cbn [di_size di_addrs dinode_of] in *.
  pose proof (fk_disk _ _ _ _ _ FS) as K. pose proof (g_pos _ _ _ _ K). pose proof (g_size _ _ _ (do_geom _ _ _ _ K)).
  assert (Z.to_nat (Z.min 16 (i_size i - 16 * Z.of_nat k)) = 16%nat) as E16 by lia.
  assert (holds S d0 (v_content V) (i_inum i) d bs) as Hho by (by apply (fk_file _ _ _ _ _ FS)).
  pose proof (holds_bytes S d0 (v_content V) _ d bs (16 * Z.of_nat k) 16 Hho ltac:(lia) ltac:(lia)) as Eb. rewrite <- Hd in Eb. cbn [di_addrs dinode_of] in Eb.
  eapply wp_mono.
  { apply (readi_ok V S d0 dp i VarDst (λ _, pmem s) (16 * Z.of_nat k) 16 1 s CR HV Hfile); try done; try lia.
    - by apply nth_lookup_Some.
    - rewrite E16. change BSIZE with 1024. assert ((16 * Z.of_nat k) mod 1024 = 16 * (Z.of_nat k mod 64)) as ->.
      { change 1024 with (16 * 64). rewrite Z.mul_mod_distr_l by lia. done. }
      pose proof (Z.mod_pos_bound (Z.of_nat k) 64). lia.
    - apply receives_var. by apply (law_env V s). }
  intros r s' (-> & HV' & Fr); cbn beta in *. rewrite E16. unfold rframe in Fr. rewrite set_pmem_id in Fr.
  destruct (nframe_bframe _ _ _ Fr) as (NF & Hi' & _). split_and!; [by rewrite Eb|by eapply nstate_bframe|done|done].
Qed.

Lemma dirlookup_loop_ok h dp i d bs name : ∀ n fuel s k,
  nstate V S F h s → itable s !! dp = Some i → i_dev i = ROOTDEV → F !! i_inum i = Some (d, bs) → dinode_of i = d → di_type d = T_DIR →
  length name = 14%nat → Forall byte name → (k + n = length bs / 16)%nat → (n < fuel)%nat → (2 * n ≤ sched_left s)%nat →
  wp (dirlookup_loop fuel dp (at_list name) (16 * Z.of_nat k)) (λ r s',
    r = (λ e, (16 * Z.of_nat e.1, e.2)) <$> dir_scan bs (cname name) k n ∧
    nstate V S F h s' ∧ itable s' = itable s ∧ nframe (2 * n) s s') s.
Proof.
  intros n. induction n as [|n IH]; intros fuel s k N Hi Hdev HF Hd Hty Hn Hnb Hk Hf Hs; (destruct fuel as [|fuel]; [lia|]); cbn [dirlookup_loop dir_scan];
    destruct (tk_size _ _ TR _ _ _ HF Hty) as (Hl16 & _ & Hbb); pose proof (ho_size _ _ _ _ _ _ (fk_file _ _ _ _ _ FS _ _ _ HF)) as Hsz;
    rewrite <- Hd in Hsz; cbn [di_size dinode_of] in Hsz; apply wp_bind, wp_gets; rewrite (nth_lookup_Some _ _ _ _ Hi).
  - rewrite (proj2 (Z.ltb_ge _ _)) by lia. apply wp_ret. split_and!; [done|done|done|apply nframe_refl].
  - rewrite (proj2 (Z.ltb_lt _ _)) by lia. apply wp_bind. eapply wp_mono; [apply (read_dent h s dp i d bs k); try done; lia|].
    intros r s1 (-> & N1 & Hi1 & F1); cbn beta in *. cbn [fst snd]. change (negb (16 =? sizeof_dirent)) with false. cbn iota. cbv zeta.
    fold (dent bs k). assert (∀ s1, nframe 2 s s1 → nstate V S F h s1 → itable s1 = itable s →
      wp (dirlookup_loop fuel dp (at_list name) (16 * Z.of_nat k + sizeof_dirent)) (λ r s',
        r = (λ e, (16 * Z.of_nat e.1, e.2)) <$> dir_scan bs (cname name) (Datatypes.S k) n ∧ nstate V S F h s' ∧ itable s' = itable s ∧ nframe (2 * Datatypes.S n) s s') s1) as Hnext.
    { clear s1 N1 Hi1 F1. intros s1 F1 N1 Hi1. replace (16 * Z.of_nat k + sizeof_dirent) with (16 * Z.of_nat (Datatypes.S k)) by (unfold sizeof_dirent; lia).
      pose proof (kp_sched _ _ _ (nf_kept _ _ _ F1)). eapply wp_mono; [apply (IH fuel s1 (Datatypes.S k)); try done; try lia; by rewrite Hi1|].
      intros r s2 (-> & N2 & Hi2 & F2); cbn beta in *. split_and!; [done|done|congruence|].
      replace (2 * Datatypes.S n)%nat with (2 + 2 * n)%nat by lia. by eapply nframe_trans. }
    destruct (Z.eqb_spec (de_inum (dent bs k)) 0) as [Hz|Hz].
    { rewrite decide_False by tauto. by apply Hnext. }
    destruct (dent_name bs k Hbb ltac:(lia)) as [Hdl Hdb]. pose proof (namecmp_cname name (de_name (dent bs k)) Hn Hdl Hnb Hdb) as Hcmp.
    destruct (Z.eqb_spec (namecmp (at_list name) (at_list (de_name (dent bs k)))) 0) as [Hc|Hc].
    + rewrite decide_True by (split; [done|by symmetry; apply Hcmp]). apply wp_ret. split_and!; [done|done|done|].
      eapply nframe_weaken; [exact F1|lia].
    + rewrite decide_False by (intros [_ E]; by apply Hc, Hcmp). by apply Hnext.
Qed.

(** The references of the rest of the kernel, to the inodes of [D] at most; the walk needs
    room for two more. *)
Context (R0 : Z → Z) (D : gset Z).
Context (HR0 : ∀ j, 0 ≤ R0 j < 2 ^ 31 - 2) (HD : ∀ j, 0 < R0 j → j ∈ D) (HDs : (size D + 2 ≤ Z.to_nat NINODE)%nat).

(** The walk holds one reference, to inode [j]. *)
Definition holding (j : Z) (t : list inode) : Prop := ∀ x, ref_of t x = R0 x + one x j.

Lemma one_range x j : 0 ≤ one x j ≤ 1.
Proof. unfold one. case_decide; lia. Qed.

Lemma holding_room j t : itab_ok F t → holding j t → (length (inums t) < Z.to_nat NINODE)%nat.
Proof.
  intros T H. eapply Nat.le_lt_trans; [apply (inums_bound F t (D ∪ {[j]}) T)|].
  - intros x. rewrite H. unfold one. case_decide as E; [subst; set_solver|]. rewrite Z.add_0_r. intros Hx%HD. set_solver.
  - assert (size (D ∪ {[j]}) ≤ size D + size ({[j]} : gset Z))%nat as Hle by (rewrite size_union_alt; apply Nat.add_le_mono_l, subseteq_size; set_solver).
    rewrite size_singleton in Hle. lia.
Qed.

Lemma holding_ref j t k i : holding j t → t !! k = Some i → in_use i → i_ref i < 2 ^ 31 - 1.
Proof. intros H Hk Hu. pose proof (ref_of_lookup t k i Hk Hu) as Hle. rewrite H in Hle. pose proof (HR0 (i_inum i)). pose proof (one_range (i_inum i) j). lia. Qed.

Lemma dirlookup_ok dp p i d bs name s :
  nstate V S F (Some (dp, p)) s → itable s !! dp = Some i → i_dev i = ROOTDEV → F !! i_inum i = Some (d, bs) → dinode_of i = d → di_type d = T_DIR →
  holding (i_inum i) (itable s) → length name = 14%nat → Forall byte name → (2 * (length bs / 16) ≤ sched_left s)%nat →
  wp (dirlookup dp (at_list name)) (λ r s', nstate V S F (Some (dp, p)) s' ∧ nframe (2 * (length bs / 16)) s s' ∧
    match dir_lookup bs (cname name) with
    | None => r = None ∧ itable s' = itable s
    | Some (k, j) => ∃ ip i', r = Some (ip, 16 * Z.of_nat k) ∧ itable s' !! ip = Some i' ∧ i_inum i' = j ∧ in_use i' ∧
        more_refs (itable s) (itable s') ∧ ∀ x, ref_of (itable s') x = ref_of (itable s) x + one x j
    end) s.
Proof.
  intros N Hi Hdev HF Hd Hty Hold Hn Hnb Hs. pose proof (nth_lookup_Some _ _ inode0 _ Hi) as Hnth.
  pose proof (ho_size _ _ _ _ _ _ (fk_file _ _ _ _ _ FS _ _ _ HF)) as Hsz. rewrite <- Hd in Hsz. cbn [di_size dinode_of] in Hsz.
  unfold dirlookup. apply wp_bind, wp_gets. rewrite Hnth. assert (i_type i = T_DIR) as -> by (by rewrite <- Hty, <- Hd).
  change (negb (T_DIR =? T_DIR)) with false. cbn iota.
  apply wp_bind. eapply wp_mono.
  { apply (dirlookup_loop_ok (Some (dp, p)) dp i d bs name (length bs / 16) _ s 0); try done.
    rewrite Hsz. unfold sizeof_dirent. rewrite Z2Nat.inj_add by (try apply Z.div_pos; lia).
    change 16 with (Z.of_nat 16). rewrite <- Nat2Z.inj_div, Nat2Z.id. lia. }
  intros r s1 (-> & N1 & Hi1 & F1); cbn beta in *. fold (dir_lookup bs (cname name)).
  destruct (dir_lookup bs (cname name)) as [[k j]|] eqn:El; cbn [fmap option_fmap option_map fst snd].
  - apply wp_bind, wp_gets. rewrite Hi1, Hnth, Hdev. rewrite <- Hi1 in Hold |- *.
    destruct (iget_eq F s1 j (nstate_ready _ _ _ _ _ N1) (ns_tab _ _ _ _ _ N1)) as (ip & i' & t' & E & T' & Hk' & Hj & Hu & M & R).
    + exact (dir_lookup_file w F _ d bs _ (k, j) TR HF Hty El).
    + by eapply holding_room; [apply N1|].
    + rewrite Hold. pose proof (HR0 j). pose proof (one_range j (i_inum i)). lia.
    + apply wp_bind. eapply wp_eq; [exact E|]. apply wp_ret. split_and!; [by apply nstate_itable| |by exists ip, i'].
      rewrite <- (Nat.add_0_r (2 * _)). by eapply nframe_trans; [|apply nframe_itable].
  - apply wp_ret. done.
Qed.

(** The next inode of the walk stays in the table when the reference to the one before is dropped. *)
Lemma next_kept t k k' i i' j :
  itab_ok F t → t !! k' = Some i' → in_use i' → i_inum i' = j → 0 < ref_of (<[k := i]> t) j →
  ∃ i2, <[k := i]> t !! k' = Some i2 ∧ in_use i2 ∧ i_inum i2 = j.
Proof.
  intros T Hk' Hu Hj Hpos. destruct (decide (k = k')) as [->|Hne]; [|exists i'; by rewrite list_lookup_insert_ne].
  apply ref_of_pos, inums_elem in Hpos as (x & ix & Hx & Hxu & Hxj). apply list_lookup_insert_Some in Hx as [(<- & <- & Hlt)|[Hne Hx]].
  - exists i. by rewrite list_lookup_insert_eq.
  - exfalso. apply Hne. eapply (itab_unique t); [apply T|exact Hk'|exact Hx|done|done|congruence].
Qed.

(** From a directory to the inode of one of its entries. *)
Lemma walk_next s t ip p i next i' j :
  nstate V S F (Some (ip, p)) s → t !! ip = Some i → in_use i → i_nlink i ≠ 0 → holding (i_inum i) t →
  more_refs t (itable s) → itable s !! next = Some i' → in_use i' → i_inum i' = j →
  (∀ x, ref_of (itable s) x = ref_of t x + one x j) →
  wp (iunlockput ip) (λ _ s', nstate V S F None s' ∧ nframe 0 s s' ∧ holding j (itable s') ∧
    ∃ i2, itable s' !! next = Some i2 ∧ in_use i2 ∧ i_inum i2 = j) s.
Proof.
  intros N Hk Hu Hl Hold M Hnx Hux Hj R. destruct (M ip i Hk Hu) as (rr & Hk2 & Hrr).
  assert (in_use (set_i_ref rr i)) as Hu2 by (unfold in_use in *; cbn; lia).
  pose proof (ref_of_lookup _ _ _ Hk2 Hu2) as Hb2. cbn [i_ref i_inum set_i_ref] in Hb2. rewrite R, Hold in Hb2.
  pose proof (HR0 (i_inum i)). pose proof (one_range (i_inum i) j). pose proof (one_range (i_inum i) (i_inum i)).
  eapply wp_mono; [apply (iunlockput_ok V S F s ip p (set_i_ref rr i)); try done; cbn; lia|].
  intros ? s3 (N3 & F3 & Hi3 & R3); cbn beta in *. cbn [i_inum i_ref set_i_ref] in R3, Hi3.
  assert (holding j (itable s3)) as Hold3 by (intros x; rewrite R3, R, Hold; lia). split_and!; [done|done|done|].
  rewrite Hi3. apply (next_kept (itable s) ip next _ i' j (ns_tab _ _ _ _ _ N)); try done.
  rewrite <- Hi3, Hold3. pose proof (HR0 j). unfold one. rewrite decide_True by done. lia.
Qed.

(** The walk ends in a directory without the entry, or in a file: nothing is left behind. *)
Lemma leave {A} s0 s ip p i n (r : A) (Q : A → kstate → Prop) :
  nstate V S F (Some (ip, p)) s → itable s !! ip = Some i → in_use i → i_nlink i ≠ 0 → holding (i_inum i) (itable s) → nframe n s0 s →
  (∀ s', nstate V S F None s' → nframe n s0 s' → (∀ x, ref_of (itable s') x = R0 x) → Q r s') →
  wp (iunlockput ip;; mret r) Q s.
Proof.
  intros N Hi Hu Hl Hold Fr HQ. pose proof (holding_ref _ _ _ _ Hold Hi Hu). apply wp_bind. eapply wp_mono; [apply (iunlockput_ok V S F s ip p i); try done; lia|].
  intros ? s' (N' & F' & _ & R'); cbn beta in *. apply wp_ret, HQ; [done| |].
  - rewrite <- (Nat.add_0_r n). by eapply nframe_trans.
  - intros x. rewrite R', Hold. lia.
Qed.

Definition namex_post (parent : bool) (j : Z) (es : list (list Z)) (s : kstate) (r : option nat * list Z) (s' : kstate) : Prop :=
  nstate V S F None s' ∧ nframe (w * length es) s s' ∧
  match resolve F parent j es with
  | Some x => ∃ k i, r.1 = Some k ∧ itable s' !! k = Some i ∧ in_use i ∧ i_inum i = x ∧ holding x (itable s') ∧
      (parent = true → ∃ e, last es = Some e ∧ cname r.2 = take 14 e)
  | None => r.1 = None ∧ ∀ x, ref_of (itable s') x = R0 x
  end.

Lemma namex_loop_ok parent : ∀ fuel s ip i path name,
  nstate V S F None s → itable s !! ip = Some i → in_use i → holding (i_inum i) (itable s) →
  length name = 14%nat → Forall byte name → Forall byte path → 0 ∉ path → (length path < fuel)%nat →
  (w * length (elements path) ≤ sched_left s)%nat →
  wp (namex_loop fuel ip path name parent) (namex_post parent (i_inum i) (elements path) s) s.
Proof.
  induction fuel as [|fuel IH]; intros s ip i path name N Hi Hu Hold Hn Hnb Hpb Hz Hf Hs; [lia|]. cbn [namex_loop].
  pose proof (skipelem_spec path name Hn Hz) as Hsk. pose proof (holding_ref _ _ _ _ Hold Hi Hu) as Hrb.
  destruct (it_use _ _ (ns_tab _ _ _ _ _ N) ip i Hi Hu) as (Hdev & d & bs & HF & Hval).
  pose proof (tk_link _ _ TR _ _ _ HF) as Hlink. pose proof (tk_type _ _ TR _ _ _ HF) as Htype.
  destruct (skipelem path name) as [[rest name']|] eqn:Esk.
  2:{ rewrite Hsk. destruct parent.
      - destruct (iput_eq F s ip i (nstate_ready _ _ _ _ _ N) (ns_tab _ _ _ _ _ N) Hi Hu ltac:(lia)) as (E & T & R).
        { intros Hv. specialize (Hval Hv). rewrite <- Hval in Hlink. exact Hlink. }
        apply wp_bind. eapply wp_eq; [exact E|]. apply wp_ret. split_and!; [by apply nstate_itable| |].
        + eapply nframe_weaken; [apply nframe_itable|lia].
        + cbn. split; [done|]. intros x. rewrite R, Hold. lia.
      - apply wp_ret. split_and!; [done| |by exists ip, i]. eapply nframe_weaken; [apply nframe_refl|lia]. }
  destruct Hsk as (e & He & Hcn & Hn' & Hlen & Hz'). destruct (skipelem_bytes _ _ _ _ Esk Hpb Hnb) as [Hrb' Hnb'].
  pose proof (skipelem_rest _ _ _ _ Esk) as Hrest. rewrite He in Hs |- *. cbn [length] in Hs.
  pose proof (tk_wait _ _ TR) as Hw.
  apply wp_bind. eapply wp_mono; [apply (ilock_ok V lg S d0 F CR FS s ip i d bs); try done; lia|].
  intros ? s1 (p & i1 & N1 & Hi1 & (E1 & E2 & E3 & E4 & E5) & F1); cbn beta in *.
  assert (ip < length (itable s))%nat as Hlt by (by apply lookup_lt_Some in Hi).
  assert (itable s1 !! ip = Some i1) as Hk1 by (rewrite Hi1; by apply list_lookup_insert_eq).
  destruct (loaded_tab F (itable s) ip i i1 d bs (ns_tab _ _ _ _ _ N) Hi Hu HF ltac:(done)) as [_ R1]. rewrite <- Hi1 in R1.
  assert (holding (i_inum i1) (itable s1)) as Hold1 by (intros x; rewrite R1, E2; apply Hold).
  assert (in_use i1) as Hu1 by (unfold in_use in *; lia). rewrite <- E2 in HF.
  assert (i_nlink i1 ≠ 0) as Hl1 by (by rewrite <- E1 in Hlink). pose proof (kp_sched _ _ _ (nf_kept _ _ _ F1)) as Hs1.
  assert (i_type i1 = di_type d) as Ety by (by rewrite <- E1).
  apply wp_bind, wp_gets. rewrite (nth_lookup_Some _ _ _ _ Hk1), Ety. unfold namex_post at 1. cbn [resolve length]. rewrite <- E2, HF. cbn [mbind option_bind fst snd]. rewrite <- Hcn.
  destruct (Z.eqb_spec (di_type d) T_DIR) as [Hdir|Hdir]; cbn [negb].
  2:{ eapply (leave s s1 ip p i1 1); try done. intros s2 N2 F2 R2. split; [done|]. split; [|done]. eapply nframe_weaken; [done|lia]. }
  assert (parent && (match rest with [] => true | _ => false end) = parent && (match elements rest with [] => true | _ => false end)) as ->.
  { f_equal. destruct rest, (elements _); try done; naive_solver. }
  destruct (parent && _) eqn:Ep.
  { apply andb_true_iff in Ep as [-> Ep]. destruct (elements rest) as [|? ?] eqn:Eer; [|done].
    apply wp_bind. eapply wp_mono; [by apply (iunlock_ok V S F s1 ip p i1)|]. intros ? s2 (N2 & Hi2 & F2); cbn beta in *. apply wp_ret.
    split_and!; [done|eapply nframe_weaken; [by eapply nframe_trans|lia]|]. exists ip, i1. rewrite Hi2. split_and!; try done. intros _. by exists e. }
  destruct (tk_size _ _ TR _ _ _ HF Hdir) as (_ & Hwb & _).
  apply wp_bind. eapply wp_mono; [apply (dirlookup_ok ip p i1 d bs name' s1); try done; lia|].
  intros r s2 (N2 & F2 & Hr); cbn beta in *. pose proof (nframe_trans _ _ _ _ _ F1 F2) as F12.
  destruct (dir_lookup bs (cname name')) as [[k j]|]; cbn [mbind option_bind fst snd].
  2:{ destruct Hr as [-> Hi2]. rewrite <- Hi2 in Hk1, Hold1. eapply (leave s s2 ip p i1); try done.
      intros s3 N3 F3 R3. split; [done|]. split; [|done]. eapply nframe_weaken; [done|lia]. }
  destruct Hr as (next & i' & -> & Hnx & Hj & Hux & M & R2).
  apply wp_bind. eapply wp_mono; [by apply (walk_next s2 (itable s1) ip p i1 next i' j)|].
  intros ? s3 (N3 & F3 & Hold3 & i3 & Hk3 & Hu3 & Hj3); cbn beta in *.
  pose proof (nframe_trans _ _ _ _ _ F12 F3) as F13. pose proof (kp_sched _ _ _ (nf_kept _ _ _ F13)).
  rewrite <- Hj3 in Hold3 |- *. eapply wp_mono; [apply (IH s3 next i3 rest name'); try done; lia|].
  intros r s4 (N4 & F4 & H4); cbn beta in *. split_and!; [done|eapply nframe_weaken; [by eapply nframe_trans|lia]|].
  destruct (resolve F parent (i_inum i3) (elements rest)) as [x|]; [|done].
  destruct H4 as (k4 & i4 & H41 & H42 & H43 & H44 & H45 & H46). exists k4, i4. split_and!; try done.
  intros Hpar. destruct (H46 Hpar) as (e' & He' & ?). exists e'. by rewrite last_cons, He'.
Qed.
End walk.

(** ** Properties *)

Section properties.
Context `{L : Layout} `{Oth : Others} `{VD : VirtioDev} {DE : DiskEnv}.

(** The kernel at rest, with the disk [F] and the table of inodes in order, no inode locked
    and room for two more; a walk starts at inode [j]: at the root for an absolute path, at
    the current directory of the process otherwise. *)
Record at_walk (V : bview) (S : superblock) (d0 : Z) (F : gmap Z (dinode * list Z)) (path : list Z) (j : Z) (s : kstate) : Prop := {
  aw_rest : at_rest V s;
  aw_fs : fs_ok (klog s) S d0 (v_disk V) F;
  aw_tab : nstate V S F None s;
  aw_room : (length (inums (itable s)) + 2 ≤ Z.to_nat NINODE)%nat;
  aw_refs x : ref_of (itable s) x < 2 ^ 31 - 2;
  aw_start :
    if nthZ 0 path 0 =? SLASH then j = ROOTINO ∧ is_Some (F !! ROOTINO)
    else ∃ p pr c i, cur_proc s = Some p ∧ proc_tab s !! p = Some pr ∧ p_cwd pr = Some c ∧ itable s !! c = Some i ∧ in_use i ∧ i_inum i = j
}.

Lemma ref_of_nonneg t x : 0 ≤ ref_of t x.
Proof. induction t as [|i t IH]; cbn; [lia|]. pose proof (contrib_nonneg i x). lia. Qed.

(** The first inode of the walk. *)
Lemma walk_start V S d0 F path j s :
  at_walk V S d0 F path j s →
  wp (if nthZ 0 path 0 =? SLASH then iget ROOTDEV ROOTINO
      else p ← myproc; p ← deref p; pr ← get_proc p; c ← deref (p_cwd pr); idup c)
    (λ ip s', nstate V S F None s' ∧ nframe 0 s s' ∧ holding (ref_of (itable s)) j (itable s') ∧
      ∃ i, itable s' !! ip = Some i ∧ in_use i ∧ i_inum i = j) s.
Proof.
  intros [R FS N Hroom Hrefs Hst]. pose proof (nstate_ready _ _ _ _ _ N) as Hready. pose proof (ns_tab _ _ _ _ _ N) as HT.
  pose proof (Hrefs j) as Hrj. destruct (nthZ 0 path 0 =? SLASH).
  - destruct Hst as [-> HF]. destruct (iget_eq F s ROOTINO Hready HT HF ltac:(lia) ltac:(lia)) as (k & i & t' & E & T' & Hk & Hj & Hu & _ & R').
    eapply wp_eq; [exact E|]. split_and!; [by apply nstate_itable|apply nframe_itable|exact R'|by exists i].
  - destruct Hst as (p & pr & c & i & Hp & Hpr & Hc & Hk & Hu & <-).
    apply wp_bind. eapply wp_eq; [apply (myproc_eq 0), Hready|]. rewrite Hp. apply wp_bind, wp_ret. apply wp_bind, wp_gets.
    rewrite (nth_lookup_Some _ _ _ _ Hpr), Hc. apply wp_bind, wp_ret.
    destruct (idup_eq F s c i Hready HT Hk Hu ltac:(lia)) as (t' & E & T' & M & R').
    eapply wp_eq; [exact E|]. destruct (M c i Hk Hu) as (r & Hk' & Hr).
    split_and!; [by apply nstate_itable|apply nframe_itable|exact R'|]. exists (set_i_ref r i). split_and!; [done| |done].
    unfold in_use in *. cbn. lia.
Qed.

(** C8. Path lookup. The disk holds the files [F], a tree of directories. [namex] returns the
    inode that the walk through the directories of [F] along the elements of the path
    reaches ([resolve]), or, if [parent], the directory before the last element and the
    last element in [name]; and a null pointer if the walk fails. In both cases the walk
    terminates, leaves no inode locked, and has the kernel hold exactly one reference more
    to the inode returned, and to every other inode as many as before. *)
Theorem namex_correct V S d0 F w s path parent name j :
  at_walk V S d0 F path j s → tree_ok w F → length name = 14%nat → Forall byte name → Forall byte path → 0 ∉ path →
  (w * length (elements path) ≤ sched_left s)%nat →
  wp (namex path parent name) (λ r s', at_rest V s' ∧ nstate V S F None s' ∧
    match resolve F parent j (elements path) with
    | Some x => ∃ k i, r.1 = Some k ∧ itable s' !! k = Some i ∧ in_use i ∧ i_inum i = x ∧
        (∀ y, ref_of (itable s') y = ref_of (itable s) y + one y x) ∧
        (parent = true → ∃ e, last (elements path) = Some e ∧ cname r.2 = take 14 e)
    | None => r.1 = None ∧ ∀ y, ref_of (itable s') y = ref_of (itable s) y
    end) s.
Proof.
  intros W TR Hn Hnb Hpb Hz Hs. pose proof (walk_start V S d0 F path j s W) as Hstart. destruct W as [R FS N Hroom Hrefs _].
  pose proof R as [HV [Hh Hr] Hl Hidle Hclean].
  assert (fs_ok (klog s) S d0 (v_content V) F) as FS'.
  { assert (∀ b, v_content V b = v_disk V b) as Hcd by (intros b; by eapply at_rest_disk).
    eapply fs_ok_ext; [exact FS|done| |intros b; by eapply law_len]. intros b _. unfold is_free. by rewrite Hcd. }
  assert (can_read V) as CR by (split; [done|rewrite Hr, map_size_empty; change (Z.to_nat NBUF) with 30%nat; lia|rewrite Hr; apply small_empty]).
  unfold namex. apply wp_bind. eapply wp_mono; [exact Hstart|]. intros ip s1 (N1 & F1 & Hold & i & Hk & Hu & <-); cbn beta in *.
  pose proof (kp_sched _ _ _ (nf_kept _ _ _ F1)). eapply wp_mono.
  { apply (namex_loop_ok V (klog s) S d0 F w CR FS' TR (ref_of (itable s)) (list_to_set (inums (itable s)))); try done.
    - intros x. split; [apply ref_of_nonneg|apply Hrefs].
    - intros x. rewrite elem_of_list_to_set. by apply ref_of_pos.
    - rewrite size_list_to_set by apply (ns_tab _ _ _ _ _ N). done.
    - lia.
    - lia. }
  intros r s' (N' & F' & Hres); cbn beta in *. pose proof (nframe_trans _ _ _ _ _ F1 F') as [[(U1 & _) _ _] Hkl _]. split_and!; [|done|done].
  split; [apply N'|done|by rewrite U1|by rewrite Hkl..].
Qed.
End properties.

(** ** A machine with a directory *)

#[local] Existing Instances layout_ex disk_others plain_dev disk_others_env.

(** A file of one block. *)
Lemma one_block C b bn : 0 ≤ bn < MAXFILE → fblock C (b :: replicate 12 0) bn = if decide (bn = 0) then b else 0.
Proof.
  intros Hbn. unfold fblock. destruct (Z.ltb_spec bn NDIRECT) as [H|H].
  2:{ change NDIRECT with 12 in H. rewrite decide_False by lia. done. }
  case_decide as E; [by subst bn|]. change NDIRECT with 12 in H. apply nthZ_lookup; [lia|].
  rewrite lookup_cons_ne_0 by lia. apply lookup_replicate. split; [done|lia].
Qed.

Lemma one_block_owns C b x : owns C (b :: replicate 12 0) x → x = b.
Proof.
  intros [Hx [->|(bn & Hbn & ->)]]; [done|]. rewrite one_block in * by done. by case_decide.
Qed.

Lemma one_block_holds S d0 C j d bs b :
  di_addrs d = b :: replicate 12 0 → d0 ≤ b < sb_size S → b ≠ 0 → is_free S C b = false → dinode_at S C j = d → 0 ≤ j < sb_ninodes S →
  di_size d = Z.of_nat (length bs) → di_size d ≤ 1024 → take (length bs) (C b) = bs → holds S d0 C j d bs.
Proof.
  intros Ha Hb Hz Hf Hat Hj Hsz Hmax Hby. split; try done.
  - change (MAXFILE * BSIZE) with 274432. lia.
  - rewrite Ha. split; [done| | |done|done].
    + intros bn Hbn. rewrite one_block by done. by case_decide.
    + intros bn bn' Hbn Hbn'. rewrite !one_block by done. repeat case_decide; congruence.
  - intros bn H1 H2. change BSIZE with 1024 in H2. rewrite Ha, one_block by (change MAXFILE with 268; lia). by rewrite decide_True by lia.
  - intros k x Hx. pose proof (lookup_lt_Some _ _ _ Hx) as Hk. unfold fbyte. change BSIZE with 1024. rewrite Z.div_small, Z.mod_small by lia.
    rewrite Ha, one_block by (change MAXFILE with 268; lia). rewrite decide_True by done. rewrite (proj2 (Z.eqb_neq b 0)) by done. apply nthZ_lookup; [lia|].
    rewrite Nat2Z.id. rewrite <- Hby in Hx. rewrite lookup_take_lt in Hx by done. done.
Qed.

(** The disk of FsSafe, with a root directory in block 36. *)
Definition demo_root : list Z :=
  bytes_of_dirent (Mk_dirent 1 (bytes_of_string "." ++ replicate 13 0)) ++ bytes_of_dirent (Mk_dirent 1 (bytes_of_string ".." ++ replicate 12 0)) ++
  bytes_of_dirent (Mk_dirent 5 (bytes_of_string "hello" ++ replicate 9 0)).
Definition demo_root_inode : dinode := Mk_dinode T_DIR 0 0 1 48 (36 :: replicate 12 0).
Definition demo_tree_blocks : gmap Z (list Z) :=
  <[32 := splice demo_inodes sizeof_dinode (bytes_of_dinode demo_root_inode)]>
    (<[36 := demo_root ++ replicate 976 0]> (<[35 := demo_hello]> {[ 34 := [255; 255; 255; 255; 31] ++ replicate 1019 0 ]})).
Definition demo_tree_disk : vdisk_state := demo_disk demo_tree_blocks.
Definition demo_tree : gmap Z (dinode * list Z) :=
  {[ 1 := (demo_root_inode, demo_root); 5 := (dinode_of demo_inode, [104; 101; 108; 108; 111]) ]}.

Lemma demo_tree_len b : length (block_of demo_tree_disk b) = Z.to_nat BSIZE.
Proof.
  unfold block_of. cbn [demo_tree_disk demo_disk vd_blocks set_vd_blocks]. unfold demo_tree_blocks.
  destruct (decide (b = 32)) as [->|H1]; [by rewrite lookup_insert_eq|]. rewrite lookup_insert_ne by done.
  destruct (decide (b = 36)) as [->|H2]; [by rewrite lookup_insert_eq|]. rewrite lookup_insert_ne by done.
  destruct (decide (b = 35)) as [->|H3]; [by rewrite lookup_insert_eq|]. rewrite lookup_insert_ne by done.
  destruct (decide (b = 34)) as [->|Hne]; [by rewrite lookup_singleton_eq|by rewrite lookup_singleton_ne].
Qed.

Lemma demo_tree_free b : 0 ≤ b < 100 → is_free demo_sb (block_of demo_tree_disk) b = (37 <=? b).
Proof.
  intros Hb. assert (forallb (λ b, Bool.eqb (is_free demo_sb (block_of demo_tree_disk) b) (37 <=? b)) (zrange 0 100) = true) as H
    by (vm_compute; reflexivity).
  rewrite forallb_forall in H. apply Bool.eqb_prop, H, list_elem_of_In, elem_of_zrange. lia.
Qed.

Lemma demo_tree_fs : fs_ok (demo_log 0 []) demo_sb 35 (block_of demo_tree_disk) demo_tree.
Proof.
  assert (∀ j d bs, demo_tree !! j = Some (d, bs) →
    j = 1 ∧ d = demo_root_inode ∧ bs = demo_root ∨ j = 5 ∧ d = dinode_of demo_inode ∧ bs = [104; 101; 108; 108; 111]) as Hone.
  { intros j d bs. unfold demo_tree. rewrite lookup_insert_Some, lookup_singleton_Some. intros [[<- [= <- <-]]|[_ [<- [= <- <-]]]]; auto. }
  split.
  - split; [exact demo_geometry|done| |exact demo_tree_len]. intros b Hb. rewrite demo_tree_free by lia. apply Z.leb_gt. lia.
  - intros j d bs [(-> & -> & ->)|(-> & -> & ->)]%Hone.
    + by apply (one_block_holds _ _ _ _ _ _ 36).
    + by apply (one_block_holds _ _ _ _ _ _ 35).
  - intros j k d bs d' bs' Hjk [(-> & -> & ->)|(-> & -> & ->)]%Hone [(-> & -> & ->)|(-> & -> & ->)]%Hone; try done;
      intros b H1%one_block_owns H2%one_block_owns; congruence.
Qed.

Lemma demo_tree_ok : tree_ok 7 demo_tree.
Proof.
  assert (∀ j d bs, demo_tree !! j = Some (d, bs) → di_type d = T_DIR → bs = demo_root) as Hdir.
  { intros j d bs. unfold demo_tree. rewrite lookup_insert_Some, lookup_singleton_Some. by intros [[<- [= <- <-]]|[_ [<- [= <- <-]]]]. }
  split.
  - lia.
  - intros j d bs. unfold demo_tree. rewrite lookup_insert_Some, lookup_singleton_Some. by intros [[<- [= <- <-]]|[_ [<- [= <- <-]]]].
  - intros j d bs. unfold demo_tree. rewrite lookup_insert_Some, lookup_singleton_Some. by intros [[<- [= <- <-]]|[_ [<- [= <- <-]]]].
  - intros j d bs HF Hd. rewrite (Hdir j d bs HF Hd). split_and!; [done|cbn; lia|]. apply (bool_decide_unpack (Forall _ _)). vm_compute. exact I.
  - intros j d bs k HF Hd. rewrite (Hdir j d bs HF Hd). change (length demo_root / 16)%nat with 3%nat. intros Hk _.
    do 3 (destruct k as [|k]; [by eexists|]). lia.
Qed.

(** Process 1, an empty table of inodes, all locks free. *)
Definition walk_locks : list lockid := pdemo_locks ++ (L_proc <$> all_procs) ++ ((λ k, L_sleep (SL_inode k)) <$> seq 0 (Z.to_nat NINODE)).
Definition demo_walker (n : nat) : kstate :=
  set_sb demo_sb (set_itable (replicate (Z.to_nat NINODE) inode0) (set_cs (set_locks (free_locks walk_locks) (cs pdemo))
    (set_vdisk demo_tree_disk (set_klog (demo_log 0 []) (bdemo0 n))))).

Lemma walk_lock l n : l ∈ walk_locks → lock_free l (cs (demo_walker n)).
Proof. intros Hl. exists ""%string. by apply free_locks_lookup. Qed.

Lemma demo_walker_prepared n : prepared (demo_walker n).
Proof.
  pose proof (bdemo0_prepared n) as [P1 P2 P3 P4 P5 P6 P7 _ _]. split.
  - exact P1.
  - exact P2.
  - by apply cs_ok_locks.
  - intros p Hp _. apply walk_lock. unfold walk_locks. rewrite !elem_of_app. right. left. apply list_elem_of_fmap. exists p. split; [done|].
    apply elem_of_seq. lia.
  - apply walk_lock. apply (bool_decide_unpack (_ ∈ _)). vm_compute. exact I.
  - reflexivity.
  - exists 1%nat. eexists. split_and!; reflexivity.
  - apply demo_disk_ready.
  - exact demo_tree_len.
Qed.

(** The locks of all inodes, free. *)
Fixpoint free_inodes (l : list nat) (m : gmap sleepid sleeplock) : gmap sleepid sleeplock :=
  match l with [] => m | k :: l' => <[SL_inode k := Mk_sleeplock 0 "inode" 0]> (free_inodes l' m) end.

Lemma free_inodes_rest V s l : at_rest V s → at_rest V (set_slocks (free_inodes l (slocks s)) s).
Proof.
  intros R. induction l as [|k l IH]; cbn [free_inodes]; [by destruct s|].
  apply (at_rest_slock V _ k (Mk_sleeplock 0 "inode" 0)) in IH. by destruct s.
Qed.

Lemma free_inodes_lookup l m k : k ∈ l → free_inodes l m !! SL_inode k = Some (Mk_sleeplock 0 "inode" 0).
Proof.
  induction l as [|x l IH]; [by intros ?%not_elem_of_nil|]. cbn. intros [->|Hk]%elem_of_cons; [by rewrite lookup_insert_eq|].
  destruct (decide (k = x)) as [->|]; [by rewrite lookup_insert_eq|]. rewrite lookup_insert_ne by congruence. by apply IH.
Qed.

Lemma demo_walk_boot n :
  ∃ s, at_rest (view_of demo_tree_disk) s ∧ klog s = demo_log 0 [] ∧ sb s = demo_sb ∧ sched_left s = n ∧ itable s = replicate (Z.to_nat NINODE) inode0 ∧
    ∀ l, l ∈ walk_locks → (∀ j, l ≠ L_sleep (SL_buf j)) → l ≠ L_bcache → lock_free l (cs s).
Proof.
  pose proof (binit_inv (demo_walker n) (demo_walker_prepared n)) as H. apply wp_elim in H as ([] & s & _ & I & (m & sl & bc & ->) & Hfree).
  exists (booted (set_locks m (cs (demo_walker n))) sl bc (demo_walker n)).
  assert (∀ l, l ∈ walk_locks → (∀ j, l ≠ L_sleep (SL_buf j)) → l ≠ L_bcache →
    lock_free l (cs (booted (set_locks m (cs (demo_walker n))) sl bc (demo_walker n)))) as Hlk.
  { intros l H1 H2 H3. apply Hfree; [done|by apply walk_lock|done]. }
  split_and!; [|reflexivity|reflexivity|reflexivity|reflexivity|exact Hlk].
  split; [exact I|split; reflexivity|apply Hlk; [|done|done]|by split|].
  - apply (bool_decide_unpack (_ ∈ _)); vm_compute; exact Logic.I.
  - change (int_at (block_of demo_tree_disk 2) 0 = 0). by vm_compute.
Qed.

Lemma empty_table F k : itab_ok F (replicate (Z.to_nat NINODE) inode0) ∧ inums (replicate k inode0) = [] ∧ ∀ x, ref_of (replicate k inode0) x = 0.
Proof.
  assert (∀ k, inums (replicate k inode0) = []) as E by (intros n; induction n as [|n IH]; cbn [replicate]; [done|by rewrite inums_cons]).
  split_and!; [|done|].
  - split; [done| | |rewrite E; constructor]; intros j i [-> _]%lookup_replicate_1; done.
  - intros x. induction k as [|k IH]; cbn [replicate ref_of]; [done|]. by rewrite IH.
Qed.

Lemma demo_walk n : ∃ s, at_walk (view_of demo_tree_disk) demo_sb 35 demo_tree (bytes_of_string "/hello") ROOTINO s ∧
  sched_left s = n ∧ itable s = replicate (Z.to_nat NINODE) inode0.
Proof.
  destruct (demo_walk_boot n) as (s & R & Hk & Hsb & Hs & Hi & Hlk). destruct (empty_table demo_tree (Z.to_nat NINODE)) as (T & E1 & E2).
  exists (set_slocks (free_inodes (seq 0 (Z.to_nat NINODE)) (slocks s)) s). apply (free_inodes_rest _ _ (seq 0 (Z.to_nat NINODE))) in R.
  split_and!; [|done|done].
  split; cbn [klog itable set_slocks]; rewrite ?Hk, ?Hi, ?E1; [exact R|exact demo_tree_fs| |vm_compute; lia|intros x; rewrite E2; lia|split; [done|by eexists]].
  split; cbn [cs itable set_slocks]; rewrite ?Hi; [apply R|exact Hsb|exact T| | | |intros k p [=]].
  - apply Hlk; [|done|done]. apply (bool_decide_unpack (_ ∈ _)). vm_compute. exact I.
  - intros k Hkn. apply Hlk; [|done|done]. unfold walk_locks. rewrite !elem_of_app. right. right.
    apply list_elem_of_fmap. exists k. split; [done|]. apply elem_of_seq. lia.
  - intros k Hkn _. unfold get_slock. cbn [slocks set_slocks]. rewrite free_inodes_lookup; [done|]. apply elem_of_seq. lia.
Qed.

Lemma namex_correct_witness :
  ∃ s, wp (namex (bytes_of_string "/hello") false (replicate 14 0)) (λ r s', ∃ k i, r.1 = Some k ∧ itable s' !! k = Some i ∧ i_inum i = 5 ∧
    ref_of (itable s') 5 = 1 ∧ ref_of (itable s') 1 = 0) s.
Proof.
  destruct (demo_walk 7) as (s & W & Hs & Hi). exists s. eapply wp_mono.
  { apply (namex_correct (view_of demo_tree_disk) demo_sb 35 demo_tree 7 s (bytes_of_string "/hello") false (replicate 14 0) ROOTINO W demo_tree_ok).
    - reflexivity.
    - apply (bool_decide_unpack (Forall _ _)). vm_compute. exact I.
    - apply (bool_decide_unpack (Forall _ _)). vm_compute. exact I.
    - apply (bool_decide_unpack (_ ∉ _)). vm_compute. exact I.
    - rewrite Hs. vm_compute. lia. }
  assert (resolve demo_tree false ROOTINO (elements (bytes_of_string "/hello")) = Some 5) as E by (vm_compute; reflexivity). rewrite E.
  intros r s' (_ & _ & k & i & H1 & H2 & _ & H3 & H4 & _). exists k, i. split_and!; [exact H1|exact H2|exact H3|rewrite H4, Hi; vm_compute; reflexivity..].
Defined.
