(* ===== verification/Mkfs.v ===== *)
(** * Making a file system: mkfs/mkfs.c

    The program runs on the host: it writes [FSSIZE] sectors of zeroes, the superblock,
    the root directory and the files named on its command line. The image is the list of
    its sectors; [die] and a failed [assert] are [Panic]. The host is little-endian, so
    [xshort] and [xint] are written out on the bytes. Messages are not modelled. *)

From S2P Require Import Prelude Machine State Spinlock KString Kalloc Vm Proc Sleeplock Virtio VirtioProofs Bio Log.
From S2P Require Import Uart Printf Console Fs.

Definition NINODES : Z := 200.
Definition nbitmap : Z := FSSIZE / BPB + 1.
Definition ninodeblocks : Z := NINODES / IPB + 1.
Definition nlog : Z := LOGSIZE.

(** The image file and the globals that change. *)
Record mkstate := Mk_mkstate {
  mk_img : list (list Z);
  mk_sb : superblock;
  freeinode : Z;
  freeblock : Z
}.
Definition set_img x s := Mk_mkstate x (mk_sb s) (freeinode s) (freeblock s).
Definition set_mk_sb x s := Mk_mkstate (mk_img s) x (freeinode s) (freeblock s).
Definition set_freeinode x s := Mk_mkstate (mk_img s) (mk_sb s) x (freeblock s).
Definition set_freeblock x s := Mk_mkstate (mk_img s) (mk_sb s) (freeinode s) x.

Abbreviation MK := (M mkstate).

Definition assert (b : bool) : MK unit := if b then mret () else panic "assert".
Definition die {A} (s : string) : MK A := panic s.

(** [a[i] = x >> 8*i] for each byte of the result. *)
Definition xshort (x : Z) : Z := le_val [u8 x; u8 (Z.shiftr x 8)].
Definition xint (x : Z) : Z := le_val [u8 x; u8 (Z.shiftr x 8); u8 (Z.shiftr x 16); u8 (Z.shiftr x 24)].

(** The sector at the byte offset [sec * BSIZE], an unsigned product. *)
Definition sector (sec : Z) : nat := Z.to_nat (u32 (sec * BSIZE) / BSIZE).

(** A write past the end of the file leaves a hole of zeroes. *)
Definition put_sector (l : list (list Z)) (k : nat) (d : list Z) : list (list Z) :=
  if (k <? length l)%nat then <[k := d]> l else l ++ replicate (k - length l) zero_block ++ [d].

Definition wsect (sec : Z) (buf : list Z) : MK unit :=
  modify (λ s, set_img (put_sector (mk_img s) (sector sec) buf) s).

Definition rsect (sec : Z) : MK (list Z) :=
  l ← gets mk_img;
  match l !! sector sec with Some d => mret d | None => die "read" end.

Definition winode (inum : Z) (ip : dinode) : MK unit :=
  sb ← gets mk_sb;
  let bn := IBLOCK inum sb in
  buf ← rsect bn;
  wsect bn (splice buf (inum mod IPB * sizeof_dinode) (bytes_of_dinode ip)).

Definition rinode (inum : Z) : MK dinode :=
  sb ← gets mk_sb;
  buf ← rsect (IBLOCK inum sb);
  mret (dinode_of_bytes buf (inum mod IPB * sizeof_dinode)).

Definition ialloc (type : Z) : MK Z :=
  inum ← gets freeinode;
  modify (set_freeinode (u32 (inum + 1)));;
  winode inum (Mk_dinode (s16 (xshort type)) 0 0 (s16 (xshort 1)) (xint 0) (replicate 13 0));;
  mret inum.

(** [freeblock++] *)
Definition next_block : MK Z :=
  b ← gets freeblock;
  modify (set_freeblock (u32 (b + 1)));;
  mret b.

Definition balloc (used : Z) : MK unit :=
  assert (used <? BPB);;
  let buf := foldl set_bit zero_block (zrange 0 (Z.to_nat used)) in
  sb ← gets mk_sb;
  wsect (sb_bmapstart sb) buf.

(** The block [x] that holds part [fbn] of the file with the addresses [a], and the new addresses. *)
Definition iappend_block (a : list Z) (fbn : Z) : MK (list Z * Z) :=
  if fbn <? NDIRECT then
    a ← (if xint (nthZ 0 a fbn) =? 0 then b ← next_block; mret (setZ a fbn (xint b)) else mret a);
    mret (a, xint (nthZ 0 a fbn))
  else
    a ← (if xint (nthZ 0 a NDIRECT) =? 0 then b ← next_block; mret (setZ a NDIRECT (xint b)) else mret a);
    ind ← rsect (xint (nthZ 0 a NDIRECT));
    ind ← (if uint_at ind (4 * (fbn - NDIRECT)) =? 0 then
             b ← next_block;
             let ind := splice ind (4 * (fbn - NDIRECT)) (le_bytes 4 (xint b)) in
             wsect (xint (nthZ 0 a NDIRECT)) ind;;
             mret ind
           else mret ind);
    mret (a, xint (uint_at ind (4 * (fbn - NDIRECT)))).

(** [while(n > 0)]; the result is [din.addrs] and [off]. *)
Fixpoint iappend_loop (fuel : nat) (a : list Z) (off : Z) (p : list Z) : MK (list Z * Z) :=
  match fuel with
  | O => hang
  | S f =>
      let n := Z.of_nat (length p) in
      if 0 <? n then
        let fbn := off / BSIZE in
        assert (fbn <? MAXFILE);;
        '(a, x) ← iappend_block a fbn;
        let n1 := Z.min n (u32 ((fbn + 1) * BSIZE - off)) in
        buf ← rsect x;
        wsect x (splice buf (off - fbn * BSIZE) (take (Z.to_nat n1) p));;
        iappend_loop f a (u32 (off + n1)) (drop (Z.to_nat n1) p)
      else mret (a, off)
  end.

Definition iappend (inum : Z) (xp : list Z) : MK unit :=
  din ← rinode inum;
  '(a, off) ← iappend_loop (S (length xp)) (di_addrs din) (xint (di_size din)) xp;
  winode inum (Mk_dinode (di_type din) (di_major din) (di_minor din) (di_nlink din) (xint off) a).

(** [struct dirent de]: cleared, then the number and the name. *)
Definition mkdirent (inum : Z) (name : list Z) : list Z :=
  bytes_of_dirent (Mk_dirent (xshort inum) (take 14 (name ++ replicate 14 0))).

(** [argv[i]] without "user/" *)
Definition shortname_of (arg : list Z) : list Z :=
  if decide (take 5 arg = bytes_of_string "user/") then drop 5 arg else arg.
(** ... and without a leading underscore *)
Definition skip_underscore (name : list Z) : list Z :=
  match name with c :: rest => if c =? chr "_" then rest else name | [] => name end.

(** The host: what the reads of a file return, and whether a file can be created. *)
Class Host := { host_open : list Z → option (list (list Z)); host_creat : list Z → bool }.

Section main.
Context `{H : Host}.

(** One round of the loop over the files. *)
Definition add_file (rootino : Z) (arg : list Z) : MK unit :=
  let shortname := shortname_of arg in
  assert (bool_decide (chr "/" ∉ shortname));;
  match host_open arg with
  | None => die "open"
  | Some reads =>
      let shortname := skip_underscore shortname in
      assert (Z.of_nat (length shortname) <=? DIRSIZ);;
      inum ← ialloc T_FILE;
      iappend rootino (mkdirent inum shortname);;
      mfor reads (iappend inum)
  end.

Definition nmeta : Z := 2 + nlog + ninodeblocks + nbitmap.
Definition nblocks : Z := FSSIZE - nmeta.
Definition new_sb : superblock :=
  Mk_superblock FSMAGIC (xint FSSIZE) (xint nblocks) (xint NINODES) (xint nlog) (xint 2)
    (xint (2 + nlog)) (xint (2 + nlog + ninodeblocks)).
(** [struct superblock] in memory *)
Definition bytes_of_sb (s : superblock) : list Z :=
  mjoin (le_bytes 4 <$> [sb_magic s; sb_size s; sb_nblocks s; sb_ninodes s; sb_nlog s; sb_logstart s; sb_inodestart s; sb_bmapstart s]).

(** fix size of root inode dir *)
Definition fix_root (rootino : Z) : MK unit :=
  din ← rinode rootino;
  let off := u32 ((xint (di_size din) / BSIZE + 1) * BSIZE) in
  winode rootino (Mk_dinode (di_type din) (di_major din) (di_minor din) (di_nlink din) (xint off) (di_addrs din)).

(** [argv] without the name of the program; the result is the status of [exit]. *)
Definition main (argv : list (list Z)) : MK Z :=
  match argv with
  | [] => mret 1
  | image :: files =>
      (if host_creat image then modify (set_img []) else die "image");;
      modify (set_mk_sb new_sb);;
      modify (set_freeblock nmeta);;
      mfor (zrange 0 (Z.to_nat FSSIZE)) (λ i, wsect i zero_block);;
      sb ← gets mk_sb;
      wsect 1 (overlay zero_block (bytes_of_sb sb));;
      rootino ← ialloc T_DIR;
      assert (rootino =? ROOTINO);;
      iappend rootino (mkdirent rootino (bytes_of_string "."));;
      iappend rootino (mkdirent rootino (bytes_of_string ".."));;
      mfor files (add_file rootino);;
      fix_root rootino;;
      used ← gets freeblock;
      balloc (s32 used);;
      mret 0
  end.
End main.

(** The globals when the program starts. *)
Definition mkfs_start : mkstate := Mk_mkstate [] (Mk_superblock 0 0 0 0 0 0 0 0) 1 0.
