(* ===== verification/MkfsProofs.v ===== *)
(** * What mkfs makes

    While mkfs runs, the image is a file system of the kernel ([fs_ok], FsInv) except for
    the bitmap, which is written last: [mk_inv] relates the image to contents [K] whose
    bitmap is up to date. [freeblock++] is then the kernel's allocation of the lowest free
    block, and [iappend] a write at the end of a file. *)

From S2P Require Import Prelude Machine State Spinlock KString Kalloc Vm Proc Sched Sleeplock Virtio VirtioProofs Bio BlockSpec Log LogOps LogSafe.
From S2P Require Import Uart Printf Console Fs FsData FsTx FsMap FsWrite FsInv Mkfs.

(** ** Bytes and sectors *)

Lemma xint_id x : 0 ≤ x < 2 ^ 32 → xint x = x.
Proof.
  intros Hx. unfold xint, u8. cbn [le_val]. rewrite !Z.shiftr_div_pow2 by lia. cbn [Z.pow Z.pow_pos Pos.iter Z.mul Pos.mul].
  Z.to_euclidean_division_equations. lia.
Qed.

Lemma xshort_id x : 0 ≤ x < 2 ^ 16 → xshort x = x.
Proof.
  intros Hx. unfold xshort, u8. cbn [le_val]. rewrite !Z.shiftr_div_pow2 by lia. cbn [Z.pow Z.pow_pos Pos.iter Z.mul Pos.mul].
  Z.to_euclidean_division_equations. lia.
Qed.

Lemma sector_eq b : 0 ≤ b < 2 ^ 22 → sector b = Z.to_nat b.
Proof. intros Hb. unfold sector. change BSIZE with 1024. rewrite u32_small by lia. by rewrite Z.div_mul. Qed.

Lemma rsect_eq b d s : 0 ≤ b < 2 ^ 22 → mk_img s !! Z.to_nat b = Some d → rsect b s = Ret d s.
Proof. intros Hb Hd. unfold rsect. erewrite bind_ret; [|reflexivity]. by rewrite sector_eq, Hd. Qed.

Lemma wsect_eq b d s :
  0 ≤ b < 2 ^ 22 → (Z.to_nat b < length (mk_img s))%nat → wsect b d s = Ret () (set_img (<[Z.to_nat b := d]> (mk_img s)) s).
Proof. intros Hb Hl. unfold wsect, modify, put_sector. rewrite sector_eq by done. by rewrite (proj2 (Nat.ltb_lt _ _)). Qed.

Lemma new_sb_eq : new_sb = Mk_superblock 0x10203040 2000 1954 200 30 2 32 45.
Proof. reflexivity. Qed.

(** The number of blocks of a file of [e] bytes, the indirect block included. *)
Definition nblk (e : Z) : Z := (e + 1023) / 1024 + (if 12288 <? e then 1 else 0).

Lemma nblk_nonneg e : 0 ≤ e → 0 ≤ nblk e.
Proof. intros He. unfold nblk. pose proof (Z.div_pos (e + 1023) 1024 ltac:(lia) ltac:(lia)). destruct (12288 <? e); lia. Qed.

Lemma nblk_mono e e' : 0 ≤ e ≤ e' → nblk e ≤ nblk e'.
Proof.
  intros He. unfold nblk. pose proof (Z.div_le_mono (e + 1023) (e' + 1023) 1024 ltac:(lia) ltac:(lia)).
  destruct (Z.ltb_spec 12288 e), (Z.ltb_spec 12288 e'); lia.
Qed.

(** Within one block. *)
Lemma nblk_block e m : 0 ≤ e → 1 ≤ m → e mod 1024 + m ≤ 1024 → nblk (e + m) = nblk (e + 1).
Proof.
  intros He Hm Hb. unfold nblk.
  assert ((e + m + 1023) / 1024 = (e + 1 + 1023) / 1024) as -> by (Z.to_euclidean_division_equations; lia).
  f_equal. destruct (Z.ltb_spec 12288 (e + m)), (Z.ltb_spec 12288 (e + 1)); [done| |lia|done].
  Z.to_euclidean_division_equations; lia.
Qed.

(** The bitmap of [balloc]. *)
Lemma bits_set n :
  Z.of_nat n ≤ 8192 → let d := foldl set_bit zero_block (zrange 0 n) in
  length d = 1024%nat ∧ ∀ b, 0 ≤ b < 8192 → bit_free d b = (Z.of_nat n <=? b).
Proof.
  induction n as [|n IH]; intros Hn; cbv zeta.
  - cbn [zrange foldl]. split; [done|]. intros b Hb. rewrite (proj2 (Z.leb_le _ _)) by lia. unfold bit_free, zero_block, nthZ.
    assert (nth (Z.to_nat (b / 8)) (replicate (Z.to_nat BSIZE) 0) 0 = 0) as E.
    { rewrite nth_lookup. destruct (replicate _ 0 !! _) eqn:E; [|done]. by apply lookup_replicate in E as [-> _]. }
    case_decide; [|by rewrite Z.land_0_l]. by rewrite E.
  - rewrite zrange_S_r, foldl_app. cbn [foldl]. destruct IH as [Hl Hb]; [lia|]. set (d := foldl _ _ _) in *. split.
    + unfold set_bit. by rewrite setZ_length.
    + intros b Hbb. rewrite set_bit_free by (done || (change BPB with 8192; lia)). rewrite Hb by done.
      case_decide; destruct (Z.leb_spec (Z.of_nat n) b), (Z.leb_spec (Z.of_nat (S n)) b); lia || done.
Qed.

Lemma zero_sectors n : ∀ k s,
  Z.of_nat (k + n) ≤ 2 ^ 22 → mk_img s = replicate k zero_block →
  mfor (zrange (Z.of_nat k) n) (λ i, wsect i zero_block) s = Ret () (set_img (replicate (k + n) zero_block) s).
Proof.
  induction n as [|n IH]; intros k s Hk Hs; cbn [zrange mfor].
  - rewrite Nat.add_0_r. rewrite <- Hs. by destruct s.
  - erewrite bind_ret; [|reflexivity]. rewrite sector_eq by lia. unfold put_sector.
    rewrite (proj2 (Nat.ltb_ge _ _)) by (rewrite Hs, length_replicate; lia). rewrite Hs, length_replicate, Nat2Z.id, Nat.sub_diag.
    change (replicate 0 zero_block ++ [zero_block]) with (replicate 1 zero_block). rewrite <- replicate_add.
    replace (Z.of_nat k + 1) with (Z.of_nat (k + 1)) by lia. rewrite IH by (done || lia).
    by replace (k + 1 + n)%nat with (k + S n)%nat by lia.
Qed.

Lemma zero_image s :
  mk_img s = [] → mfor (zrange 0 (Z.to_nat FSSIZE)) (λ i, wsect i zero_block) s = Ret () (set_img (replicate (Z.to_nat FSSIZE) zero_block) s).
Proof. intros Hs. apply (zero_sectors (Z.to_nat FSSIZE) 0 s); [change FSSIZE with 2000; lia|exact Hs]. Qed.

Section mkfs.
Context (lg : log_state) (Hls : l_start lg = 2) (Hln : l_size lg = 30).
Abbreviation S := new_sb.
Abbreviation d0 := 46.
Abbreviation is_free := (is_free S).
Abbreviation disk_ok := (disk_ok lg S d0).
Abbreviation file_ok := (file_ok S d0).
Abbreviation fs_ok := (fs_ok lg S d0).
Abbreviation holds := (holds S d0).

Lemma bblock_mk b : 0 ≤ b < 2000 → BBLOCK b S = 45.
Proof.
  intros Hb. unfold BBLOCK. change (sb_bmapstart S) with 45. change BPB with 8192. by rewrite (Z.div_small b 8192) by lia.
Qed.

Lemma iblock_mk i : 0 ≤ i < 200 → IBLOCK i S = i / 16 + 32 ∧ 32 ≤ IBLOCK i S ≤ 44.
Proof.
  intros Hi. unfold IBLOCK. change (sb_inodestart S) with 32. change IPB with 16.
  assert (0 ≤ i / 16 ≤ 12) by (Z.to_euclidean_division_equations; lia). rewrite u32_small by lia. lia.
Qed.

Lemma geometry_mk : geometry lg S d0.
Proof.
  change (sb_size S) with 2000. split.
  - change (sb_size S) with 2000. lia.
  - lia.
  - intros b Hb. rewrite bblock_mk by done. lia.
  - intros i Hi. change (sb_ninodes S) with 200 in Hi. pose proof (iblock_mk i Hi). lia.
  - intros b i Hb Hi. change (sb_ninodes S) with 200 in Hi. pose proof (iblock_mk i Hi). rewrite bblock_mk by done. lia.
  - done.
  - lia.
  - lia.
Qed.

Lemma not_bitmap_mk b : b ≠ 45 → not_bitmap S b.
Proof. intros Hb b' Hb'. by rewrite bblock_mk. Qed.

(** The image, with a bitmap that is up to date. *)
Record mk_inv (K : Z → list Z) (s : mkstate) : Prop := {
  mi_sb : mk_sb s = S;
  mi_len : length (mk_img s) = 2000%nat;
  mi_fb : 46 ≤ freeblock s ≤ 2000;
  mi_img b : 0 ≤ b < 2000 → b ≠ 45 → mk_img s !! Z.to_nat b = Some (K b);
  mi_free b : 0 ≤ b < 2000 → is_free K b = (freeblock s <=? b);
  mi_zero b : freeblock s ≤ b < 2000 → K b = zero_block;
  mi_boot b : 0 ≤ b < 32 → K b = if decide (b = 1) then overlay zero_block (bytes_of_sb S) else zero_block;
  mi_disk : disk_ok K
}.

Lemma mk_read K s b : mk_inv K s → 0 ≤ b < 2000 → b ≠ 45 → rsect b s = Ret (K b) s.
Proof. intros I Hb Hn. apply rsect_eq; [lia|]. by apply (mi_img _ _ I). Qed.

Lemma mk_write K s b d :
  mk_inv K s → 32 ≤ b < freeblock s → b ≠ 45 → length d = Z.to_nat BSIZE →
  mk_inv (upd K b d) (set_img (<[Z.to_nat b := d]> (mk_img s)) s) ∧
  wsect b d s = Ret () (set_img (<[Z.to_nat b := d]> (mk_img s)) s).
Proof.
  intros I Hb Hn Hd. pose proof (mi_fb _ _ I) as Hfb. pose proof (mi_len _ _ I) as Hl. split; [|apply wsect_eq; [lia|rewrite Hl; lia]].
  assert (∀ b', 0 ≤ b' < 2000 → is_free (upd K b d) b' = is_free K b') as Hf.
  { intros b' Hb'. unfold FsTx.is_free. rewrite bblock_mk by done. by rewrite upd_ne. }
  split; cbn; try apply I.
  - rewrite length_insert. apply I.
  - intros b' Hb' Hn'. unfold upd. destruct (decide (b' = b)) as [->|Hne].
    + rewrite list_lookup_insert_eq; [done|]. rewrite Hl. lia.
    + rewrite list_lookup_insert_ne by lia. by apply I.
  - intros b' Hb'. rewrite Hf by done. by apply I.
  - intros b' Hb'. rewrite upd_ne by lia. by apply I.
  - intros b' Hb'. rewrite upd_ne by lia. by apply I.
  - destruct (mi_disk _ _ I) as [K1 K2 K3 K4]. split; [done|done| |].
    + intros b' Hb'. rewrite Hf by lia. by apply K3.
    + intros b'. unfold upd. case_decide; [done|apply K4].
Qed.

Lemma next_block_ok K s :
  mk_inv K s → freeblock s < 2000 →
  let b := freeblock s in
  next_block s = Ret b (set_freeblock (b + 1) s) ∧ mk_inv (alloc_content S K b) (set_freeblock (b + 1) s) ∧ is_free K b = true ∧ 46 ≤ b < 2000.
Proof.
  intros I Hlt b. pose proof (mi_fb _ _ I) as Hfb. fold b in Hfb, Hlt.
  assert (d0 ≤ b < sb_size S) as Hb by (change (sb_size S) with 2000; lia). split_and!; [| | |lia|lia].
  - unfold next_block. do 2 (erewrite bind_ret; [|reflexivity]). unfold b. rewrite u32_small by lia. done.
  - split; cbn; try apply I; [lia| | | | |].
    + intros b' Hb' Hn. unfold FsTx.alloc_content. rewrite bblock_mk by lia. unfold upd. case_decide as E.
      * subst b'. rewrite (mi_img _ _ I) by (done || lia). f_equal. apply (mi_zero _ _ I). fold b. lia.
      * rewrite decide_False by done. by apply I.
    + intros b' Hb'. rewrite (is_free_alloc lg S d0 K b b' (mi_disk _ _ I) Hb) by (change (sb_size S) with 2000; lia).
      rewrite (mi_free _ _ I) by done. fold b. destruct (decide (b' = b)); [symmetry; apply Z.leb_gt; lia|].
      destruct (Z.leb_spec b b'), (Z.leb_spec (b + 1) b'); lia || done.
    + intros b' Hb'. unfold FsTx.alloc_content. rewrite bblock_mk by lia. rewrite !upd_ne by lia. apply (mi_zero _ _ I). fold b. lia.
    + intros b' Hb'. unfold FsTx.alloc_content. rewrite bblock_mk by lia. rewrite !upd_ne by lia. by apply I.
    + apply (disk_ok_alloc lg S d0); [apply I|done].
  - rewrite (mi_free _ _ I) by lia. apply Z.leb_le. fold b. lia.
Qed.

(** ** [iappend] *)

(** A file of [e] bytes has the blocks of these bytes and no more, and zeroes at the end. *)
Record tail_ok (K : Z → list Z) (a : list Z) (e : Z) : Prop := {
  tl_map : mapped K a e;
  tl_end bn : 0 ≤ bn < MAXFILE → e ≤ bn * BSIZE → fblock K a bn = 0;
  tl_ind : indirect a = 0 ↔ e ≤ NDIRECT * BSIZE;
  tl_zero o : e ≤ o < MAXFILE * BSIZE → fbyte K a o = 0
}.

(** How [K] and the addresses [a] change; [w] are the bytes afterwards. *)
Abbreviation turns K a K' a' w := (evolve lg S d0 K a [] K' a' [] 0 w).

Lemma evolve_turns K a bl K' a' bl' k w : evolve lg S d0 K a bl K' a' bl' k w → turns K a K' a' w.
Proof. by intros []. Qed.

Lemma turns_trans K a K1 a1 w1 K2 a2 w2 : turns K a K1 a1 w1 → turns K1 a1 K2 a2 w2 → turns K a K2 a2 w2.
Proof. apply (evolve_trans lg S d0 K a [] K1 a1 [] 0 w1 K2 a2 [] 0 w2). Qed.

Lemma fblock_entry K a bn : indirect a ≠ 0 → NDIRECT ≤ bn → uint_at (K (indirect a)) (4 * (bn - NDIRECT)) = fblock K a bn.
Proof. intros Hi Hb. unfold fblock. rewrite (proj2 (Z.ltb_ge _ _)) by lia. by rewrite (proj2 (Z.eqb_neq _ 0)). Qed.

Lemma fblock_range K a bn : file_ok K a → 0 ≤ bn < MAXFILE → 0 ≤ fblock K a bn < 2000.
Proof.
  intros F Hb. destruct (decide (fblock K a bn = 0)) as [->|Hz]; [done|].
  destruct (fo_range _ _ _ _ F bn Hb Hz) as [Hr _]. change (sb_size S) with 2000 in Hr. lia.
Qed.

(** The block of part [bn]: [c] new blocks, part [bn] is there, the others are as before. *)
Definition gets_block (K : Z → list Z) (a : list Z) (bn c : Z) (s : mkstate) (r : list Z * Z) (s' : mkstate) : Prop :=
  ∃ K', snd r = fblock K' (fst r) bn ∧ fblock K' (fst r) bn ≠ 0 ∧ mk_inv K' s' ∧ freeblock s' = freeblock s + c ∧
    freeinode s' = freeinode s ∧ turns K a K' (fst r) (fbyte K a) ∧
    (∀ bn', 0 ≤ bn' < MAXFILE → bn' ≠ bn → fblock K' (fst r) bn' = fblock K a bn') ∧
    (indirect (fst r) = 0 ↔ indirect a = 0 ∧ bn < NDIRECT).

Lemma iappend_direct K a bn s :
  mk_inv K s → file_ok K a → 0 ≤ bn < NDIRECT → (fblock K a bn = 0 → freeblock s < 2000) →
  wp (iappend_block a bn) (gets_block K a bn (if fblock K a bn =? 0 then 1 else 0) s) s.
Proof.
  intros I F Hbn Hfb. assert (0 ≤ bn < MAXFILE) as Hbm by (change MAXFILE with 268; change NDIRECT with 12 in Hbn; lia).
  assert (nthZ 0 a bn = fblock K a bn) as Efb by (unfold fblock; by rewrite (proj2 (Z.ltb_lt _ _)) by lia).
  pose proof (fblock_range K a bn F Hbm) as Hr.
  unfold iappend_block. rewrite (proj2 (Z.ltb_lt _ _)) by lia. rewrite Efb, xint_id by lia.
  destruct (Z.eqb_spec (fblock K a bn) 0) as [H0|H0].
  - destruct (next_block_ok K s I (Hfb H0)) as (E & I' & Hf & Hb). set (b := freeblock s) in *.
    apply wp_bind, wp_bind. eapply wp_eq; [exact E|]. apply wp_ret, wp_ret. rewrite xint_id by lia.
    destruct (direct_grown lg S d0 K a [] bn b (mi_disk _ _ I) F Hbn H0 Hb Hf) as (Hhere & G & Hind & Hoth).
    exists (alloc_content S K b). cbn [fst snd]. rewrite <- Hhere.
    assert (nthZ 0 (setZ a bn b) bn = b) as ->.
    { rewrite nthZ_setZ_eq; [done|]. rewrite (fo_len _ _ _ _ F). change NDIRECT with 12 in Hbn. lia. }
    split_and!; [by apply xint_id; lia|lia|done|cbn; lia|done|by eapply evolve_turns|done|].
    rewrite Hind. tauto || (split; [intros; split; [done|lia]|by intros []]).
  - apply wp_bind, wp_ret, wp_ret. exists K. cbn [fst snd]. rewrite Efb, xint_id by lia. split_and!; try done; [lia| |].
    + apply evolve_refl; [apply I|done].
    + split; [intros; split; [done|lia]|by intros []].
Qed.

(** The entry of the indirect block. *)
Lemma iappend_entry K a bn s :
  mk_inv K s → file_ok K a → NDIRECT ≤ bn < MAXFILE → indirect a ≠ 0 → (fblock K a bn = 0 → freeblock s < 2000) →
  wp (ind ← rsect (xint (nthZ 0 a NDIRECT));
      ind ← (if uint_at ind (4 * (bn - NDIRECT)) =? 0 then
               b ← next_block;
               let ind := splice ind (4 * (bn - NDIRECT)) (le_bytes 4 (xint b)) in
               wsect (xint (nthZ 0 a NDIRECT)) ind;;
               mret ind
             else mret ind);
      mret (a, xint (uint_at ind (4 * (bn - NDIRECT)))))
    (gets_block K a bn (if fblock K a bn =? 0 then 1 else 0) s) s.
Proof.
  intros I F Hbn Hi Hfb. assert (0 ≤ bn < MAXFILE) as Hbm by (change NDIRECT with 12 in Hbn; lia).
  pose proof (fblock_range K a bn F Hbm) as Hr.
  change (nthZ 0 a NDIRECT) with (indirect a). destruct (fo_ind _ _ _ _ F Hi) as [Hxr Hxf].
  change (sb_size S) with 2000 in Hxr. rewrite (xint_id (indirect a)) by lia.
  rewrite (mi_free _ _ I), Z.leb_gt in Hxf by lia.
  apply wp_bind. eapply wp_eq; [apply (mk_read K); [done|lia|lia]|]. rewrite fblock_entry by (done || lia).
  destruct (Z.eqb_spec (fblock K a bn) 0) as [H0|H0].
  - destruct (next_block_ok K s I (Hfb H0)) as (E & I' & Hf & Hb). set (b := freeblock s) in *.
    apply wp_bind, wp_bind. eapply wp_eq; [exact E|]. cbv zeta. rewrite xint_id by lia.
    assert (alloc_content S K b (indirect a) = K (indirect a)) as Ex.
    { apply (alloc_content_ne lg S d0); [apply I|change (sb_size S) with 2000; lia|lia|]. rewrite bblock_mk by lia. lia. }
    assert (length (splice (K (indirect a)) (4 * (bn - NDIRECT)) (le_bytes 4 b)) = Z.to_nat BSIZE) as Hlen.
    { rewrite splice_length; [apply (mi_disk _ _ I)|lia|]. rewrite (do_len _ _ _ _ (mi_disk _ _ I)).
      change (Z.to_nat BSIZE) with 1024%nat. change MAXFILE with (NDIRECT + 256) in Hbn. cbn [length le_bytes]. lia. }
    destruct (mk_write _ _ (indirect a) (splice (K (indirect a)) (4 * (bn - NDIRECT)) (le_bytes 4 b)) I') as [I2 E2]; [cbn; lia|lia|done|].
    apply wp_bind. eapply wp_eq; [exact E2|]. apply wp_ret, wp_ret.
    destruct (entry_grown lg S d0 K a [] bn b [] (mi_disk _ _ I) F Hi Hbn H0 Hb Hf) as (Hhere & G & Hoth); [cbn; lia|].
    unfold entry_content in Hhere, G, Hoth. rewrite Ex in Hhere, G, Hoth.
    set (K2 := upd _ _ _) in *. exists K2. cbn [fst snd].
    assert (K2 (indirect a) = splice (K (indirect a)) (4 * (bn - NDIRECT)) (le_bytes 4 b)) as EK by (unfold K2; by rewrite upd_eq).
    rewrite <- EK, fblock_entry, Hhere, xint_id by (done || lia).
    split_and!; [done|lia|by rewrite EK|done|done|by eapply evolve_turns|done|split; [done|by intros []]].
  - apply wp_bind, wp_ret, wp_ret. exists K. cbn [fst snd]. rewrite fblock_entry, xint_id by (done || lia).
    split_and!; try done; [lia| |split; [done|by intros []]]. apply evolve_refl; [apply I|done].
Qed.

Lemma iappend_indirect K a bn s :
  mk_inv K s → file_ok K a → NDIRECT ≤ bn < MAXFILE →
  let c := (if fblock K a bn =? 0 then 1 else 0) + (if indirect a =? 0 then 1 else 0) in
  freeblock s + c ≤ 2000 → wp (iappend_block a bn) (gets_block K a bn c s) s.
Proof.
  intros I F Hbn c Hfb. unfold iappend_block. rewrite (proj2 (Z.ltb_ge _ _)) by lia. apply wp_bind.
  change (nthZ 0 a NDIRECT) with (indirect a).
  assert (xint (indirect a) = indirect a) as ->.
  { apply xint_id. destruct (decide (indirect a = 0)) as [->|Hi]; [done|]. destruct (fo_ind _ _ _ _ F Hi) as [Hxr _].
    change (sb_size S) with 2000 in Hxr. lia. }
  destruct (Z.eqb_spec (indirect a) 0) as [Hi|Hi].
  - assert (fblock K a bn = 0) as H0.
    { unfold fblock. rewrite (proj2 (Z.ltb_ge _ _)) by lia. by rewrite Hi. }
    unfold c in *. rewrite H0 in *. cbn [Z.eqb Z.add Pos.add] in *.
    destruct (next_block_ok K s I) as (E & I' & Hf & Hb); [lia|]. set (b := freeblock s) in *.
    apply wp_bind. eapply wp_eq; [exact E|]. apply wp_ret. rewrite xint_id by lia.
    destruct (indirect_grown lg S d0 K a [] b (mi_disk _ _ I) F Hi Hb Hf) as (Hia & G & Hsame).
    set (a1 := setZ a NDIRECT b) in *. set (K1 := alloc_content S K b) in *.
    assert (fblock K1 a1 bn = 0) as H1 by (rewrite Hsame; [done|change NDIRECT with 12 in Hbn; lia]).
    eapply wp_mono; [apply (iappend_entry K1 a1 bn); [exact I'|apply G|done|lia|]|].
    { intros _. cbn. lia. }
    intros r s2 (K2 & E2 & Hnz & I2 & Hfb2 & Hfi2 & G2 & Hoth2 & Hi2). rewrite H1 in Hfb2. cbn in Hfb2, Hfi2.
    exists K2. split_and!; try done; [lia| | |].
    + eapply turns_trans; [by eapply evolve_turns|]. eapply evolve_weaken; [exact G2|lia|].
      intros o Ho. by apply (ev_byte _ _ _ _ _ _ _ _ _ _ _ G).
    + intros bn' Hb' Hne. by rewrite Hoth2, Hsame.
    + split; [intros Ez; apply Hi2 in Ez as [Ez _]; lia|intros [_ ?]; lia].
  - apply wp_ret. unfold c in *. rewrite Z.add_0_r in *. apply iappend_entry; try done. intros H0. rewrite H0 in Hfb. cbn in Hfb. lia.
Qed.

(** The number of new blocks for the byte at the end of a file. *)
Lemma tail_cost K a off :
  tail_ok K a off → 0 ≤ off < MAXFILE * BSIZE →
  nblk (off + 1) - nblk off = (if fblock K a (off / BSIZE) =? 0 then 1 else 0) +
    (if (NDIRECT <=? off / BSIZE) && (indirect a =? 0) then 1 else 0).
Proof.
  intros T Ho. pose proof (div_block off Ho) as Hr. change (MAXFILE * BSIZE) with 274432 in Ho. unfold nblk.
  assert ((off + 1 + 1023) / 1024 - (off + 1023) / 1024 = if off mod 1024 =? 0 then 1 else 0) as E.
  { destruct (Z.eqb_spec (off mod 1024) 0); Z.to_euclidean_division_equations; lia. }
  assert ((fblock K a (off / BSIZE) =? 0) = (off mod 1024 =? 0)) as ->.
  { change BSIZE with 1024 in *. destruct (Z.eqb_spec (off mod 1024) 0) as [Hz|Hz].
    - apply Z.eqb_eq, (tl_end _ _ _ T); [done|]. change BSIZE with 1024. Z.to_euclidean_division_equations; lia.
    - apply Z.eqb_neq, (tl_map _ _ _ T); [lia|]. change BSIZE with 1024. Z.to_euclidean_division_equations; lia. }
  rewrite <- E. change BSIZE with 1024. change NDIRECT with 12.
  pose proof (tl_ind _ _ _ T) as Hi. change (NDIRECT * BSIZE) with 12288 in Hi.
  destruct (Z.leb_spec 12 (off / 1024)) as [H1|H1]; cbn [andb].
  - destruct (Z.eqb_spec (indirect a) 0) as [H2|H2].
    + assert (off = 12288) as -> by (apply Hi in H2; Z.to_euclidean_division_equations; lia). done.
    + assert (12288 < off) by (destruct (decide (off ≤ 12288)) as [Hle|]; [by apply Hi in Hle|lia]).
      rewrite !(proj2 (Z.ltb_lt _ _)) by lia. lia.
  - assert (off < 12288) by (Z.to_euclidean_division_equations; lia). rewrite !(proj2 (Z.ltb_ge _ _)) by lia. lia.
Qed.

Lemma iappend_block_ok K a off s :
  mk_inv K s → file_ok K a → tail_ok K a off → 0 ≤ off < MAXFILE * BSIZE →
  freeblock s + (nblk (off + 1) - nblk off) ≤ 2000 →
  wp (iappend_block a (off / BSIZE)) (gets_block K a (off / BSIZE) (nblk (off + 1) - nblk off) s) s.
Proof.
  intros I F T Ho. pose proof (div_block off Ho) as Hr. rewrite (tail_cost K a off T Ho). intros Hfb.
  destruct (decide (off / BSIZE < NDIRECT)) as [Hd|Hd].
  - rewrite (proj2 (Z.leb_gt _ _)) in * by lia. cbn [andb] in *. rewrite Z.add_0_r in *. apply iappend_direct; try done; [lia|].
    intros H0. rewrite H0 in Hfb. cbn in Hfb. lia.
  - rewrite (proj2 (Z.leb_le _ _)) in * by lia. cbn [andb] in *. apply iappend_indirect; try done. lia.
Qed.

(** After [bs] was stored in the last block. *)
Lemma tail_step K a K' a' K2 off m bs :
  tail_ok K a off → 0 ≤ off → 1 ≤ m → off mod BSIZE + m ≤ BSIZE → off + m ≤ MAXFILE * BSIZE → length bs = Z.to_nat m →
  fblock K' a' (off / BSIZE) ≠ 0 → (∀ bn', 0 ≤ bn' < MAXFILE → bn' ≠ off / BSIZE → fblock K' a' bn' = fblock K a bn') →
  (indirect a' = 0 ↔ indirect a = 0 ∧ off / BSIZE < NDIRECT) →
  (∀ bn, 0 ≤ bn < MAXFILE → fblock K2 a' bn = fblock K' a' bn) →
  (∀ o, 0 ≤ o < MAXFILE * BSIZE → fbyte K2 a' o = over (fbyte K a) off bs o) → tail_ok K2 a' (off + m).
Proof.
  intros [T1 T2 T3 T4] Ho Hm Hmb Hmax Hl Hnz Hoth Hind Hsame Hby. pose proof (div_block off ltac:(lia)) as Hr.
  change (NDIRECT * BSIZE) with 12288 in *. change BSIZE with 1024 in *. change NDIRECT with 12 in *. change MAXFILE with 268 in *. split.
  - intros bn H1 H2. change BSIZE with 1024 in *. rewrite Hsame by lia. destruct (decide (bn = off / 1024)) as [->|Hne]; [done|].
    rewrite Hoth by lia. apply T1; [done|]. change BSIZE with 1024. Z.to_euclidean_division_equations; lia.
  - intros bn H1 H2. change BSIZE with 1024 in *. change MAXFILE with 268 in *. rewrite Hsame by lia.
    rewrite Hoth; [apply T2; lia|lia|]. Z.to_euclidean_division_equations; lia.
  - change (NDIRECT * BSIZE) with 12288. rewrite Hind, T3. Z.to_euclidean_division_equations; lia.
  - intros o Hoo. change (MAXFILE * BSIZE) with 274432 in *. change (268 * 1024) with 274432 in *. rewrite Hby by lia. unfold over.
    rewrite decide_False by lia. apply T4. lia.
Qed.

Lemma iappend_loop_ok : ∀ fuel K a off p s,
  mk_inv K s → file_ok K a → tail_ok K a off → 0 ≤ off → off + Z.of_nat (length p) ≤ MAXFILE * BSIZE →
  (length p < fuel)%nat → freeblock s + (nblk (off + Z.of_nat (length p)) - nblk off) ≤ 2000 →
  wp (iappend_loop fuel a off p) (λ r s', ∃ K', snd r = off + Z.of_nat (length p) ∧ mk_inv K' s' ∧
    freeblock s' = freeblock s + (nblk (off + Z.of_nat (length p)) - nblk off) ∧ freeinode s' = freeinode s ∧
    turns K a K' (fst r) (over (fbyte K a) off p) ∧ tail_ok K' (fst r) (off + Z.of_nat (length p))) s.
Proof.
  induction fuel as [|fuel IH]; intros K a off p s I F T Ho Hmax Hl Hfb; [lia|]. cbn [iappend_loop]. cbv zeta.
  destruct (Z.ltb_spec 0 (Z.of_nat (length p))) as [Hp|Hp].
  2:{ destruct p; [|cbn in Hp; lia]. cbn [length] in *. rewrite Z.add_0_r in *. apply wp_ret. exists K. cbn [fst snd].
      split_and!; [lia|done|lia|done| |done]. eapply evolve_weaken; [by apply (evolve_refl _ _ _ K a [] 0), F; apply I|lia|].
      intros o _. by rewrite over_nil. }
  assert (0 ≤ off < MAXFILE * BSIZE) as Ho2 by lia. pose proof (div_block off Ho2) as Hr.
  rewrite (proj2 (Z.ltb_lt _ _)) by lia. apply wp_bind, wp_ret.
  set (m := Z.min (Z.of_nat (length p)) (u32 ((off / BSIZE + 1) * BSIZE - off))).
  assert (m = Z.min (Z.of_nat (length p)) (BSIZE - off mod BSIZE)) as Em.
  { unfold m. f_equal. change (MAXFILE * BSIZE) with 274432 in *. change BSIZE with 1024 in *. rewrite u32_small; Z.to_euclidean_division_equations; lia. }
  assert (0 ≤ off mod BSIZE < BSIZE) as Hmod by (by apply Z.mod_pos_bound).
  assert (1 ≤ m ≤ Z.of_nat (length p)) as Hm by lia. clearbody m.
  assert (nblk (off + m) = nblk (off + 1)) as Enb by (apply nblk_block; [done|lia|change BSIZE with 1024 in *; lia]).
  pose proof (nblk_mono (off + m) (off + Z.of_nat (length p)) ltac:(lia)) as Hmono.
  apply wp_bind. eapply wp_mono; [apply (iappend_block_ok K a off s); try done; lia|].
  intros [a1 x] s1 (K1 & Hx & Hnz & I1 & Hfb1 & Hfi1 & G1 & Hoth & Hind); cbn [fst snd] in *; cbn beta iota; subst x.
  pose proof (ev_disk _ _ _ _ _ _ _ _ _ _ _ G1) as D1. pose proof (ev_file _ _ _ _ _ _ _ _ _ _ _ G1) as F1.
  destruct (fo_range _ _ _ _ F1 _ Hr Hnz) as [Hxr Hxf]. change (sb_size S) with 2000 in Hxr.
  rewrite (mi_free _ _ I1), Z.leb_gt in Hxf by lia. set (x := fblock K1 a1 (off / BSIZE)) in *.
  apply wp_bind. eapply wp_eq; [apply (mk_read K1); [done|lia|lia]|].
  replace (off - off / BSIZE * BSIZE) with (off mod BSIZE) by (change BSIZE with 1024; Z.to_euclidean_division_equations; lia).
  set (bs := take (Z.to_nat m) p). assert (length bs = Z.to_nat m) as Hbs by (unfold bs; rewrite length_take; lia).
  pose proof (file_splice lg S d0 K1 a1 [] off bs 0 D1 F1 Ho2 ltac:(lia) Hnz) as G2. fold x in G2.
  destruct (mk_write K1 s1 x (splice (K1 x) (off mod BSIZE) bs) I1) as [I2 E2]; [lia|lia| |].
  { rewrite splice_length; [apply D1|lia|]. rewrite (do_len _ _ _ _ D1). change BSIZE with 1024 in *. lia. }
  set (K2 := upd K1 x _) in *. apply wp_bind. eapply wp_eq; [exact E2|]. cbn beta.
  assert (turns K a K2 a1 (over (fbyte K a) off bs)) as G.
  { eapply turns_trans; [exact G1|]. eapply evolve_weaken; [by eapply evolve_turns|lia|].
    intros o Hoo. unfold over. case_decide; [done|]. by apply (ev_byte _ _ _ _ _ _ _ _ _ _ _ G1). }
  assert (∀ bn, 0 ≤ bn < MAXFILE → fblock K2 a1 bn = fblock K1 a1 bn) as Hsame2.
  { intros bn Hb. unfold fblock. destruct (bn <? NDIRECT); [done|]. destruct (Z.eqb_spec (indirect a1) 0) as [|Hi]; [done|].
    unfold K2. rewrite upd_ne; [done|]. intros E. by apply (fo_apart _ _ _ _ F1 (off / BSIZE) Hr Hi). }
  rewrite u32_small by (change (MAXFILE * BSIZE) with 274432 in *; lia).
  assert (Z.of_nat (length (drop (Z.to_nat m) p)) = Z.of_nat (length p) - m) as Hdl by (rewrite length_drop; lia).
  eapply wp_mono.
  { apply (IH K2 a1 (off + m) (drop (Z.to_nat m) p)); [done|apply G| |lia|lia|lia|].
    - apply (tail_step K a K1 a1 K2 off m bs); try done; try lia. apply (ev_byte _ _ _ _ _ _ _ _ _ _ _ G).
    - cbn [freeblock set_img]. rewrite Hdl. replace (off + m + (Z.of_nat (length p) - m)) with (off + Z.of_nat (length p)) by lia. lia. }
  rewrite Hdl. replace (off + m + (Z.of_nat (length p) - m)) with (off + Z.of_nat (length p)) by lia.
  intros r s3 (K3 & Hoff & I3 & Hfb3 & Hfi3 & G3 & T3). cbn [freeblock freeinode set_img] in *.
  exists K3. split_and!; [done|done|lia|lia| |done].
  eapply evolve_weaken; [by eapply turns_trans|lia|]. intros o Hoo.
  rewrite <- (take_drop (Z.to_nat m) p) at 2. rewrite <- over_app. fold bs. rewrite Hbs, Z2Nat.id by lia.
  unfold over at 1 2. case_decide; [done|]. by apply (ev_byte _ _ _ _ _ _ _ _ _ _ _ G).
Qed.

Lemma rinode_eq K s j : mk_inv K s → 0 ≤ j < 200 → rinode j s = Ret (dinode_at S K j) s.
Proof.
  intros I Hj. destruct (iblock_mk j Hj). unfold rinode. erewrite bind_ret; [|reflexivity]. rewrite (mi_sb _ _ I).
  erewrite bind_ret; [|apply (mk_read K); [done|lia|lia]]. done.
Qed.

Lemma winode_ok K s i :
  mk_inv K s → 0 ≤ i_inum i < 200 → length (i_addrs i) = 13%nat →
  wp (winode (i_inum i) (dinode_of i)) (λ _ s', mk_inv (updated S K i) s' ∧ freeblock s' = freeblock s ∧ freeinode s' = freeinode s) s.
Proof.
  intros I Hj Hl. destruct (iblock_mk (i_inum i) Hj). pose proof (mi_fb _ _ I). unfold winode. apply wp_bind, wp_gets. rewrite (mi_sb _ _ I). cbv zeta.
  apply wp_bind. eapply wp_eq; [apply (mk_read K); [done|lia|lia]|].
  destruct (mk_write K s (IBLOCK (i_inum i) S) (splice (K (IBLOCK (i_inum i) S)) (i_inum i mod IPB * sizeof_dinode) (bytes_of_dinode (dinode_of i))) I)
    as [I' E]; [lia|lia| |].
  { apply stored_length; [done|apply (mi_disk _ _ I)|apply inum_mod]. }
  eapply wp_eq; [exact E|]. done.
Qed.

Lemma tail_same K K' a e :
  e ≤ MAXFILE * BSIZE → 0 ≤ e → (∀ bn, 0 ≤ bn < MAXFILE → fblock K' a bn = fblock K a bn) →
  (∀ o, 0 ≤ o < MAXFILE * BSIZE → fbyte K' a o = fbyte K a o) → tail_ok K a e → tail_ok K' a e.
Proof.
  intros He He0 Hb Ho [T1 T2 T3 T4]. split; [| |done|].
  - intros bn H1 H2. rewrite Hb; [by apply T1|]. change BSIZE with 1024 in *. lia.
  - intros bn H1 H2. rewrite Hb by done. by apply T2.
  - intros o Hoo. rewrite Ho by lia. by apply T4.
Qed.

(** The image is a file system with the files [F]; [freeinode] is above them all. *)
Record mk_fs (K : Z → list Z) (F : gmap Z (dinode * list Z)) (s : mkstate) : Prop := {
  mf_inv : mk_inv K s;
  mf_fs : fs_ok K F;
  mf_tail j d bs : F !! j = Some (d, bs) → tail_ok K (di_addrs d) (di_size d);
  mf_ino : 1 ≤ freeinode s;
  mf_inum j : is_Some (F !! j) → 1 ≤ j < freeinode s
}.

(** The same file, but for its size and blocks. *)
Definition same_kind (d d' : dinode) : Prop :=
  di_type d' = di_type d ∧ di_major d' = di_major d ∧ di_minor d' = di_minor d ∧ di_nlink d' = di_nlink d.

Lemma splice_end (bs p : list Z) : splice bs (Z.of_nat (length bs)) p = bs ++ p.
Proof. unfold splice. rewrite Nat2Z.id, take_ge, drop_ge by lia. by rewrite app_nil_r. Qed.

Lemma iappend_fs K F s j d bs p :
  mk_fs K F s → F !! j = Some (d, bs) → Z.of_nat (length (bs ++ p)) ≤ MAXFILE * BSIZE →
  freeblock s + (nblk (Z.of_nat (length (bs ++ p))) - nblk (Z.of_nat (length bs))) ≤ 2000 →
  wp (iappend j p) (λ _ s', ∃ K' d', mk_fs K' (<[j := (d', bs ++ p)]> F) s' ∧ same_kind d d' ∧
    freeblock s' = freeblock s + (nblk (Z.of_nat (length (bs ++ p))) - nblk (Z.of_nat (length bs))) ∧
    freeinode s' = freeinode s) s.
Proof.
  intros [I FS HT Hi1 Hi2] HF Hmax Hfb. rewrite length_app, Nat2Z.inj_add in *.
  pose proof (fk_file _ _ _ _ _ FS _ _ _ HF) as Hh. destruct (Hh) as [Hat Hin Hsz Hsm Hf Hm Hby].
  destruct (holds_fits _ _ _ _ _ _ Hh) as [Hfits Ed]. change (sb_ninodes S) with 200 in Hin. set (i := inode_of j d) in *.
  change (MAXFILE * BSIZE) with 274432 in *.
  unfold iappend. apply wp_bind. eapply wp_eq; [by apply (rinode_eq K)|]. rewrite Hat, xint_id, Hsz by lia.
  apply wp_bind. eapply wp_mono.
  { apply (iappend_loop_ok _ K (di_addrs d)); [done|done|rewrite <- Hsz; by eapply HT|lia|done|lia|done]. }
  intros [a1 off] s1 (K1 & Hoff & I1 & Hfb1 & Hfi1 & G1 & T1); cbn [fst snd] in *. subst off. cbn beta iota.
  set (i' := grown_to (Z.of_nat (length bs) + Z.of_nat (length p)) a1 i).
  assert (wrote lg S d0 K i (Z.of_nat (length bs)) p (updated S K1 i') i') as W.
  { apply (evolve_wrote lg S d0 K K1 a1 i _ p [] [] 0); try done.
    - apply I.
    - cbn. lia.
    - intros bn H1 H2 H3. apply (tl_map _ _ _ T1); [|done]. transitivity (Z.of_nat (length bs) / BSIZE); [|done]. by apply Z.div_pos; [lia|]. }
  assert (Mk_dinode (di_type d) (di_major d) (di_minor d) (di_nlink d) (xint (Z.of_nat (length bs) + Z.of_nat (length p))) a1 = dinode_of i') as ->.
  { rewrite xint_id by lia. unfold i', i, grown_to, dinode_of. cbn. f_equal. lia. }
  pose proof (ev_file _ _ _ _ _ _ _ _ _ _ _ G1) as F1. pose proof (ev_disk _ _ _ _ _ _ _ _ _ _ _ G1) as D1.
  eapply wp_mono; [apply (winode_ok K1 s1 i'); [done|done|apply F1]|]. intros ? s2 (I2 & Hfb2 & Hfi2).
  assert (inode_fits S i') as Hfits' by (destruct Hfits; split; try done; cbn; change (MAXFILE * BSIZE) with 274432; lia).
  assert (F !! i_inum i = Some (dinode_of i, bs)) as HFi by (cbn; by rewrite Ed).
  pose proof (fs_ok_wrote lg S d0 K F i (Z.of_nat (length bs)) p _ i' bs FS HFi W ltac:(lia) ltac:(change (MAXFILE * BSIZE) with 274432; lia)) as FS2.
  unfold put_file in FS2. rewrite HFi, splice_end in FS2. change (i_inum i) with j in FS2.
  exists (updated S K1 i'), (dinode_of i'). split_and!; [|done|lia|lia]. split; [done|done| |lia|].
  - intros k dk bk. destruct (decide (k = j)) as [->|Hk].
    + rewrite lookup_insert_eq. intros [= <- <-]. cbn [di_addrs di_size dinode_of].
      destruct (updated_ok lg S d0 K1 a1 i' D1 F1 eq_refl Hfits') as (_ & _ & B2 & _).
      apply (tail_same K1); [cbn; change (MAXFILE * BSIZE) with 274432; lia|cbn; lia| |done|].
      * intros bn Hb. by apply (updated_fblock lg S d0).
      * cbn. rewrite Z.max_r by lia. done.
    + rewrite lookup_insert_ne by done. intros HFk. pose proof (fk_file _ _ _ _ _ FS _ _ _ HFk) as Hhk.
      destruct (wrote_untouched lg S d0 _ _ _ _ _ _ (di_addrs dk) W (mi_disk _ _ I)) as (_ & Hb & Ho); [apply Hhk|by apply (fk_apart _ _ _ _ _ FS k j dk bk d bs)|].
      pose proof (ho_size _ _ _ _ _ _ Hhk). pose proof (ho_max _ _ _ _ _ _ Hhk).
      apply (tail_same K); [done|lia|done|done|by eapply HT].
  - intros k [x Hx]. rewrite Hfi2, Hfi1. apply Hi2. destruct (decide (k = j)) as [->|Hk]; [by eexists|].
    rewrite lookup_insert_ne in Hx by done. by eexists.
Qed.

(** ** Files *)

Lemma no_addrs k : nthZ 0 (replicate 13 0) k = 0.
Proof.
  unfold nthZ. case_decide; [|done]. rewrite nth_lookup. destruct (replicate 13 0 !! _) eqn:E; [|done].
  by apply lookup_replicate in E as [-> _].
Qed.

Lemma no_blocks K bn : fblock K (replicate 13 0) bn = 0.
Proof. unfold fblock, indirect. rewrite !no_addrs. by destruct (bn <? NDIRECT). Qed.

Lemma empty_file K : file_ok K (replicate 13 0).
Proof.
  split; [done|intros bn _; by rewrite no_blocks|intros bn bn' _ _; by rewrite no_blocks| |]; unfold indirect; by rewrite no_addrs.
Qed.

Lemma empty_tail K : tail_ok K (replicate 13 0) 0.
Proof.
  split.
  - intros bn H1 H2. change BSIZE with 1024 in *. lia.
  - intros. apply no_blocks.
  - unfold indirect. by rewrite no_addrs.
  - intros o _. unfold fbyte. by rewrite no_blocks.
Qed.

Definition new_dinode (type : Z) : dinode := Mk_dinode type 0 0 1 0 (replicate 13 0).

Lemma ialloc_fs K F s type :
  mk_fs K F s → freeinode s < 200 → 0 ≤ type < 2 ^ 15 →
  wp (ialloc type) (λ j s', j = freeinode s ∧ freeinode s' = j + 1 ∧ freeblock s' = freeblock s ∧
    ∃ K', mk_fs K' (<[j := (new_dinode type, [])]> F) s') s.
Proof.
  intros [I FS HT Hi1 Hi2] Hlt Hty. unfold ialloc. apply wp_bind, wp_gets. apply wp_bind, wp_modify. set (j := freeinode s) in *.
  rewrite (xshort_id type), (u32_small (j + 1)) by lia. change (s16 (xshort 1)) with 1. change (xint 0) with 0.
  assert (s16 type = type) as -> by (unfold s16; rewrite Z.mod_small by lia; lia).
  assert (mk_inv K (set_freeinode (j + 1) s)) as I1 by (by destruct I).
  set (i := inode_of j (new_dinode type)). change (Mk_dinode type 0 0 1 0 (replicate 13 0)) with (dinode_of i).
  apply wp_bind. eapply wp_mono; [apply (winode_ok K _ i I1); [cbn; lia|done]|]. intros [] s1 (I2 & Hfb & Hfi). cbn in Hfb, Hfi. apply wp_ret.
  assert (inode_fits S i) as Hfits by (split; cbn [i i_inum i_type i_major i_minor i_nlink i_size inode_of di_type di_major di_minor di_nlink di_size new_dinode]; [change (sb_ninodes S) with 200; lia|lia..|done]).
  assert (F !! j = None) as Hnone. { destruct (F !! j) eqn:E; [|done]. destruct (Hi2 j); [by eexists|lia]. }
  split_and!; [done|done|done|]. exists (updated S K i).
  assert (∀ a b, owns K (replicate 13 0) b → ¬ owns K a b) as Hno.
  { intros a b [Hz [E|(bn & _ & E)]]; [unfold indirect in E; by rewrite no_addrs in E|by rewrite no_blocks in E]. }
  split; [done| | |lia|].
  - apply (fs_ok_updated lg S d0 K F i []); try done.
    + apply empty_file.
    + apply (empty_tail K).
    + intros k d bs _ HF b Hb Hb'. by eapply Hno.
  - intros k d bs. destruct (decide (k = j)) as [->|Hk].
    + rewrite lookup_insert_eq. intros [= <- <-]. apply empty_tail.
    + rewrite lookup_insert_ne by done. intros HF. pose proof (fk_file _ _ _ _ _ FS _ _ _ HF) as Hh.
      destruct (iblock_mk j ltac:(lia)).
      destruct (untouched lg S d0 K (updated S K i) (di_addrs d) (mi_disk _ _ I)) as (_ & Hb & Ho); [apply Hh| | |].
      * intros b Hb. destruct (owns_used S d0 K _ b (ho_file _ _ _ _ _ _ Hh) Hb). unfold updated. apply upd_ne. cbn. lia.
      * intros b Hb. destruct (updated_ok lg S d0 K _ i (mi_disk _ _ I) (empty_file K) eq_refl Hfits) as (_ & _ & _ & U & _).
        by rewrite U.
      * pose proof (ho_size _ _ _ _ _ _ Hh). pose proof (ho_max _ _ _ _ _ _ Hh).
        apply (tail_same K); [done|lia|done|done|by eapply HT].
  - intros k [x Hx]. destruct (decide (k = j)) as [->|Hk]; [lia|]. rewrite lookup_insert_ne in Hx by done.
    destruct (Hi2 k); [by eexists|lia].
Qed.

(** The reads of a file, appended one after the other. *)
Lemma append_reads reads : ∀ K F s j d bs,
  mk_fs K F s → F !! j = Some (d, bs) → Z.of_nat (length (bs ++ mjoin reads)) ≤ MAXFILE * BSIZE →
  freeblock s + (nblk (Z.of_nat (length (bs ++ mjoin reads))) - nblk (Z.of_nat (length bs))) ≤ 2000 →
  wp (mfor reads (iappend j)) (λ _ s', ∃ K' d', mk_fs K' (<[j := (d', bs ++ mjoin reads)]> F) s' ∧ same_kind d d' ∧
    freeblock s' = freeblock s + (nblk (Z.of_nat (length (bs ++ mjoin reads))) - nblk (Z.of_nat (length bs))) ∧
    freeinode s' = freeinode s) s.
Proof.
  induction reads as [|r reads IH]; intros K F s j d bs I HF Hmax Hfb; cbn [mfor].
  - cbn [mjoin list_join] in *. rewrite app_nil_r in *. apply wp_ret. exists K, d. rewrite insert_id by done. split_and!; [done|done|lia|done].
  - change (mjoin (r :: reads)) with (r ++ mjoin reads) in *. rewrite (app_assoc bs r) in *.
    assert (Z.of_nat (length (bs ++ r)) ≤ Z.of_nat (length ((bs ++ r) ++ mjoin reads))) as Hle by (rewrite (length_app (bs ++ r)); lia).
    assert (nblk (Z.of_nat (length (bs ++ r))) ≤ nblk (Z.of_nat (length ((bs ++ r) ++ mjoin reads)))) as Hmono by (apply nblk_mono; lia).
    apply wp_bind. eapply wp_mono; [apply (iappend_fs K F s j d bs r I HF); lia|].
    intros [] s1 (K1 & d1 & I1 & (E1 & E2 & E3 & E4) & Hfb1 & Hfi1).
    eapply wp_mono; [apply (IH K1 _ s1 j d1 (bs ++ r) I1); [apply lookup_insert_eq|lia|lia]|].
    intros [] s2 (K2 & d2 & I2 & (E5 & E6 & E7 & E8) & Hfb2 & Hfi2). exists K2, d2. rewrite insert_insert_eq in I2.
    split_and!; [done|split_and!; congruence|lia|lia].
Qed.

Lemma mkdirent_length inum name : length (mkdirent inum name) = 16%nat.
Proof.
  unfold mkdirent, bytes_of_dirent. rewrite length_app, le_bytes_length. cbn [de_name]. rewrite length_take, length_app, length_replicate. lia.
Qed.

Section files.
Context `{H : Host}.

(** The name of an argument in the file system. *)
Definition entry_name (arg : list Z) : list Z := skip_underscore (shortname_of arg).
(** Argument [arg] can be copied and has the bytes [c]. *)
Record arg_ok (arg c : list Z) : Prop := {
  ao_open : ∃ reads, host_open arg = Some reads ∧ mjoin reads = c;
  ao_slash : chr "/" ∉ shortname_of arg;
  ao_len : Z.of_nat (length (entry_name arg)) ≤ DIRSIZ;
  ao_max : Z.of_nat (length c) ≤ MAXFILE * BSIZE
}.
(** The directory entries of the arguments, from inode [inum] on. *)
Fixpoint dir_entries (inum : Z) (files : list (list Z)) : list Z :=
  match files with [] => [] | arg :: rest => mkdirent inum (entry_name arg) ++ dir_entries (inum + 1) rest end.
Definition file_blocks (contents : list (list Z)) : Z := foldr (λ c n, nblk (Z.of_nat (length c)) + n) 0 contents.

Lemma dir_entries_length inum files : Z.of_nat (length (dir_entries inum files)) = 16 * Z.of_nat (length files).
Proof.
  revert inum. induction files as [|arg files IH]; intros inum; [done|]. cbn [dir_entries length].
  rewrite length_app, mkdirent_length. specialize (IH (inum + 1)). lia.
Qed.

Lemma file_blocks_nonneg contents : 0 ≤ file_blocks contents.
Proof. induction contents as [|c cs IH]; [done|]. cbn. pose proof (nblk_nonneg (Z.of_nat (length c)) ltac:(lia)). fold (file_blocks cs). lia. Qed.

Lemma add_file_ok K F s arg c dr rb :
  mk_fs K F s → F !! 1 = Some (dr, rb) → arg_ok arg c → 1 < freeinode s < 200 →
  Z.of_nat (length rb) + 16 ≤ MAXFILE * BSIZE →
  freeblock s + (nblk (Z.of_nat (length rb) + 16) - nblk (Z.of_nat (length rb))) + nblk (Z.of_nat (length c)) ≤ 2000 →
  wp (add_file 1 arg) (λ _ s', ∃ K' dr' d, let j := freeinode s in
    mk_fs K' (<[j := (d, c)]> (<[1 := (dr', rb ++ mkdirent j (entry_name arg))]> F)) s' ∧
    same_kind dr dr' ∧ same_kind (new_dinode T_FILE) d ∧ freeinode s' = j + 1 ∧
    freeblock s' = freeblock s + (nblk (Z.of_nat (length rb) + 16) - nblk (Z.of_nat (length rb))) + nblk (Z.of_nat (length c))) s.
Proof.
  intros I HF [(reads & Hop & Hc) Hsl Hlen Hmx] Hj Hmax Hfb. unfold add_file. cbv zeta. rewrite bool_decide_true by done.
  apply wp_bind, wp_ret. rewrite Hop. fold (entry_name arg). rewrite (proj2 (Z.leb_le _ _)) by done. apply wp_bind, wp_ret.
  set (j := freeinode s) in *. pose proof (nblk_nonneg (Z.of_nat (length c)) ltac:(lia)) as Hnb.
  apply wp_bind. eapply wp_mono; [apply (ialloc_fs K F s T_FILE I); [lia|done]|].
  intros j' s1 (-> & Hfi1 & Hfb1 & K1 & I1). fold j in Hfi1, I1 |- *. cbn beta.
  assert (<[j := (new_dinode T_FILE, [])]> F !! 1 = Some (dr, rb)) as HF1 by (rewrite lookup_insert_ne by lia; done).
  assert (Z.of_nat (length (rb ++ mkdirent j (entry_name arg))) = Z.of_nat (length rb) + 16) as El by (rewrite length_app, mkdirent_length; lia).
  apply wp_bind. eapply wp_mono; [apply (iappend_fs K1 _ s1 1 dr rb (mkdirent j (entry_name arg)) I1 HF1); rewrite El; lia|].
  rewrite El. intros [] s2 (K2 & dr' & I2 & Hk2 & Hfb2 & Hfi2).
  eapply wp_mono; [apply (append_reads reads K2 _ s2 j (new_dinode T_FILE) [] I2)|].
  - rewrite lookup_insert_ne by lia. apply lookup_insert_eq.
  - cbn [app]. by rewrite Hc.
  - cbn [app length]. rewrite Hc. change (nblk (Z.of_nat 0)) with 0. lia.
  - cbn [app length]. rewrite Hc. change (nblk (Z.of_nat 0)) with 0. intros [] s3 (K3 & d & I3 & Hk3 & Hfb3 & Hfi3).
    exists K3, dr', d. cbv zeta. rewrite (insert_insert_ne _ j 1) in I3 by lia. rewrite insert_insert_eq in I3.
    rewrite (insert_insert_ne _ j 1) by lia. rewrite (insert_insert_ne _ 1 j) in I3 by lia.
    rewrite (insert_insert_ne _ 1 j) by lia. split_and!; [done|done|done|lia|lia].
Qed.

Lemma add_files_ok files : ∀ contents K F s dr rb,
  mk_fs K F s → F !! 1 = Some (dr, rb) → Forall2 arg_ok files contents → 1 < freeinode s →
  freeinode s + Z.of_nat (length files) ≤ 200 → Z.of_nat (length rb) + 16 * Z.of_nat (length files) ≤ MAXFILE * BSIZE →
  freeblock s + (nblk (Z.of_nat (length rb) + 16 * Z.of_nat (length files)) - nblk (Z.of_nat (length rb))) + file_blocks contents ≤ 2000 →
  wp (mfor files (add_file 1)) (λ _ s', ∃ K' F' dr', let j := freeinode s in
    mk_fs K' F' s' ∧ F' !! 1 = Some (dr', rb ++ dir_entries j files) ∧ same_kind dr dr' ∧
    (∀ k c, contents !! k = Some c → ∃ d, F' !! (j + Z.of_nat k) = Some (d, c) ∧ same_kind (new_dinode T_FILE) d) ∧
    (∀ x, 1 < x < j → F' !! x = F !! x) ∧
    freeblock s' = freeblock s + (nblk (Z.of_nat (length rb) + 16 * Z.of_nat (length files)) - nblk (Z.of_nat (length rb))) + file_blocks contents) s.
Proof.
  induction files as [|arg files IH]; intros contents K F s dr rb I HF Hok Hj Hj2 Hmax Hfb; cbn [mfor].
  - apply Forall2_nil_inv_l in Hok as ->. apply wp_ret. exists K, F, dr. cbn [dir_entries length file_blocks foldr] in *.
    rewrite app_nil_r. change (16 * Z.of_nat 0) with 0. rewrite !Z.add_0_r. split_and!; [done|done|done|done|done|lia].
  - apply Forall2_cons_inv_l in Hok as (c & cs & Hc & Hok & ->). cbn [length file_blocks foldr] in *. fold (file_blocks cs) in *.
    pose proof (file_blocks_nonneg cs) as Hnn. set (n := Z.of_nat (length files)). assert (0 ≤ n) as Hn0 by (unfold n; lia).
    rewrite Nat2Z.inj_succ in *. fold n in Hj2, Hmax, Hfb |- *. replace (Z.of_nat (length rb) + 16 * Z.succ n) with (Z.of_nat (length rb) + 16 + 16 * n) in * by lia.
    pose proof (nblk_mono (Z.of_nat (length rb) + 16) (Z.of_nat (length rb) + 16 + 16 * n) ltac:(lia)) as Hmono.
    apply wp_bind. eapply wp_mono; [apply (add_file_ok K F s arg c dr rb I HF Hc); lia|].
    intros [] s1 (K1 & dr1 & d & I1 & (A1 & A2 & A3 & A4) & Hkd & Hfi & Hfb1). cbv zeta in *. set (j := freeinode s) in *.
    set (rb1 := rb ++ mkdirent j (entry_name arg)) in *.
    assert (Z.of_nat (length rb1) = Z.of_nat (length rb) + 16) as El by (unfold rb1; rewrite length_app, mkdirent_length; lia).
    eapply wp_mono; [apply (IH cs K1 _ s1 dr1 rb1 I1); rewrite ?El; fold n; try lia|].
    { rewrite lookup_insert_ne by lia. apply lookup_insert_eq. }
    { done. }
    rewrite El, Hfi. fold n. intros [] s2 (K2 & F2 & dr2 & I2 & HF2 & (A5 & A6 & A7 & A8) & Hall & Hold & Hfb2).
    exists K2, F2, dr2. split_and!; [done| |split_and!; congruence| | |lia].
    + rewrite HF2. unfold rb1. cbn [dir_entries]. by rewrite app_assoc.
    + intros [|k] c' Hk; cbn in Hk.
      * injection Hk as <-. exists d. rewrite Z.add_0_r. split; [|done]. rewrite Hold by lia. apply lookup_insert_eq.
      * destruct (Hall k c' Hk) as (d' & Hd' & Hkd'). exists d'. split; [|done]. rewrite <- Hd'. f_equal. lia.
    + intros x Hx. rewrite Hold by lia. rewrite !lookup_insert_ne by lia. done.
Qed.

(** ** The whole program *)

(** Block [b] of the image. *)
Definition image_block (s : mkstate) (b : Z) : list Z := nth (Z.to_nat b) (mk_img s) zero_block.

(** The contents before the first inode. *)
Definition mk_start_blocks : Z → list Z :=
  upd (upd (λ _, zero_block) 1 (overlay zero_block (bytes_of_sb S))) 45 (foldl set_bit zero_block (zrange 0 46)).

Lemma fs_ok_empty K : disk_ok K → fs_ok K ∅.
Proof. intros HK. split; [done|intros j d bs; by rewrite lookup_empty|intros j k d bs d' bs' _; by rewrite lookup_empty]. Qed.

Lemma mk_start_ok s :
  mk_sb s = S → freeblock s = 46 → freeinode s = 1 → mk_img s = <[1%nat := overlay zero_block (bytes_of_sb S)]> (replicate (Z.to_nat FSSIZE) zero_block) →
  mk_fs mk_start_blocks ∅ s.
Proof.
  intros Hsb Hfb Hfi Himg. destruct (bits_set 46 ltac:(lia)) as [Hbl Hbits].
  assert (∀ b, length (mk_start_blocks b) = Z.to_nat BSIZE) as Hlen.
  { intros b. unfold mk_start_blocks, upd. repeat case_decide; [exact Hbl|vm_compute; reflexivity|done]. }
  assert (∀ b, 0 ≤ b < 2000 → is_free mk_start_blocks b = (46 <=? b)) as Hfree.
  { intros b Hb. unfold FsTx.is_free. rewrite bblock_mk by done. unfold mk_start_blocks. rewrite upd_eq.
    change BPB with 8192. rewrite Z.mod_small by lia. apply Hbits. lia. }
  assert (disk_ok mk_start_blocks) as HD.
  { split; [apply geometry_mk|done| |done]. intros b Hb. rewrite Hfree by lia. apply Z.leb_gt. lia. }
  split; [|by apply fs_ok_empty|intros j d bs; by rewrite lookup_empty|lia|intros j; rewrite lookup_empty; by intros [x ?]].
  split; [done| |lia| | | | |done].
  - rewrite Himg, length_insert, length_replicate. reflexivity.
  - intros b Hb Hn. rewrite Himg. unfold mk_start_blocks. rewrite upd_ne by done. unfold upd. case_decide as E.
    + subst b. apply list_lookup_insert_eq. rewrite length_replicate. change FSSIZE with 2000. lia.
    + rewrite list_lookup_insert_ne by lia. apply lookup_replicate_2. change FSSIZE with 2000. lia.
  - intros b Hb. rewrite Hfb. by apply Hfree.
  - intros b Hb. unfold mk_start_blocks. rewrite !upd_ne by lia. done.
  - intros b Hb. unfold mk_start_blocks. rewrite upd_ne by lia. unfold upd. done.
Qed.

(** The root directory, filled with zeroes to the end of its last block. *)
Definition padded (rb : list Z) : list Z := rb ++ replicate (Z.to_nat (BSIZE - Z.of_nat (length rb) mod BSIZE)) 0.

Lemma padded_size rb : Z.of_nat (length (padded rb)) = (Z.of_nat (length rb) / BSIZE + 1) * BSIZE.
Proof.
  unfold padded. rewrite length_app, length_replicate. change BSIZE with 1024. Z.to_euclidean_division_equations; lia.
Qed.

Lemma fix_root_inode K F s dr rb :
  mk_fs K F s → F !! 1 = Some (dr, rb) → Z.of_nat (length rb) ≤ 100000 →
  let i := Mk_inode ROOTDEV 1 1 1 (di_type dr) (di_major dr) (di_minor dr) (di_nlink dr) (Z.of_nat (length (padded rb))) (di_addrs dr) in
  inode_fits S i ∧ wp (fix_root 1) (λ _ s', mk_inv (updated S K i) s' ∧ freeblock s' = freeblock s) s.
Proof.
  intros [I FS HT Hi1 Hi2] HF Hmax i. pose proof (fk_file _ _ _ _ _ FS _ _ _ HF) as Hh.
  destruct (Hh) as [Hat Hin Hsz Hsm Hf Hm Hby]. destruct (holds_fits _ _ _ _ _ _ Hh) as [Hfits Ed].
  pose proof (padded_size rb) as Hps.
  assert (Z.of_nat (length (padded rb)) ≤ 102400) as Hpm by (rewrite Hps; change BSIZE with 1024; Z.to_euclidean_division_equations; lia).
  split. { destruct Hfits. split; try done. cbn. change (MAXFILE * BSIZE) with 274432. lia. }
  unfold fix_root. apply wp_bind. eapply wp_eq; [apply (rinode_eq K); [done|lia]|]. rewrite Hat, Hsz. cbv zeta.
  rewrite (xint_id (Z.of_nat (length rb))), u32_small by (change BSIZE with 1024; Z.to_euclidean_division_equations; lia).
  rewrite <- Hps, xint_id by lia. change (Mk_dinode _ _ _ _ _ _) with (dinode_of i).
  eapply wp_mono; [apply (winode_ok K s i I); [cbn; lia|apply Hf]|]. by intros [] s1 (I1 & Hfb & _).
Qed.

Lemma fix_root_ok K F s dr rb :
  mk_fs K F s → F !! 1 = Some (dr, rb) → Z.of_nat (length rb) mod BSIZE ≠ 0 → Z.of_nat (length rb) ≤ 100000 →
  wp (fix_root 1) (λ _ s', ∃ K' dr', mk_inv K' s' ∧ fs_ok K' (<[1 := (dr', padded rb)]> F) ∧ same_kind dr dr' ∧ freeblock s' = freeblock s) s.
Proof.
  intros I HF Hmod Hmax. destruct (fix_root_inode K F s dr rb I HF Hmax) as [Hfits Hwp]. set (i := Mk_inode _ _ _ _ _ _ _ _ _ _) in *.
  destruct I as [I FS HT Hi1 Hi2]. pose proof (fk_file _ _ _ _ _ FS _ _ _ HF) as Hh. pose proof (HT _ _ _ HF) as T. rewrite (ho_size _ _ _ _ _ _ Hh) in T.
  eapply wp_mono; [exact Hwp|]. intros [] s1 (I1 & Hfb). exists (updated S K i), (dinode_of i). split_and!; [done| |done|done].
  pose proof (padded_size rb) as Hps. pose proof (if_size _ _ Hfits) as Hpm. cbn [i i_size] in Hpm.
  apply (fs_ok_updated lg S d0 K F i (padded rb)); try done.
  - apply Hh.
  - intros bn H1 H2. change (i_size i) with (Z.of_nat (length (padded rb))) in H2. apply (tl_map _ _ _ T); [done|]. rewrite Hps in H2. change BSIZE with 1024 in *. Z.to_euclidean_division_equations; lia.
  - intros k x Hx. cbn [i_addrs i]. unfold padded in Hx. destruct (decide (k < length rb)%nat) as [Hk|Hk].
    + rewrite lookup_app_l in Hx by done. by apply (ho_bytes _ _ _ _ _ _ Hh).
    + pose proof (lookup_lt_Some _ _ _ Hx) as Hlt. fold (padded rb) in Hlt.
      rewrite lookup_app_r in Hx by lia. apply lookup_replicate in Hx as [-> _]. apply (tl_zero _ _ _ T). lia.
  - intros j d bs Hj HFj. by apply (fk_apart _ _ _ _ _ FS j 1 d bs dr rb).
Qed.

(** If the entries fill the last block of the root directory, its size is one block more than
    it has: the directory ends in a block that does not exist. *)
Lemma fix_root_hole K F s dr rb :
  mk_fs K F s → F !! 1 = Some (dr, rb) → Z.of_nat (length rb) mod BSIZE = 0 → Z.of_nat (length rb) ≤ 100000 →
  wp (fix_root 1) (λ _ s', ∃ K', mk_inv K' s' ∧ let d := dinode_at S K' 1 in
    di_size d = Z.of_nat (length rb) + BSIZE ∧ fblock K' (di_addrs d) (Z.of_nat (length rb) / BSIZE) = 0) s.
Proof.
  intros I HF Hmod Hmax. destruct (fix_root_inode K F s dr rb I HF Hmax) as [Hfits Hwp]. set (i := Mk_inode _ _ _ _ _ _ _ _ _ _) in *.
  destruct I as [I FS HT Hi1 Hi2]. pose proof (fk_file _ _ _ _ _ FS _ _ _ HF) as Hh. pose proof (HT _ _ _ HF) as T. rewrite (ho_size _ _ _ _ _ _ Hh) in T.
  eapply wp_mono; [exact Hwp|]. intros [] s1 (I1 & Hfb). exists (updated S K i). split; [done|]. cbv zeta.
  destruct (updated_ok lg S d0 K (di_addrs dr) i (mi_disk _ _ I) (ho_file _ _ _ _ _ _ Hh) eq_refl Hfits) as (_ & _ & _ & _ & E & _).
  change (i_inum i) with 1 in E. rewrite E. cbn [di_size di_addrs dinode_of i i_size i_addrs]. pose proof (padded_size rb) as Hps.
  assert (0 ≤ Z.of_nat (length rb) / BSIZE < MAXFILE) as Hr.
  { change BSIZE with 1024. change MAXFILE with 268. Z.to_euclidean_division_equations; lia. }
  split; [rewrite Hps; change BSIZE with 1024 in *; Z.to_euclidean_division_equations; lia|].
  rewrite (updated_fblock lg S d0 K (di_addrs dr) i) by (done || apply I || apply Hh).
  apply (tl_end _ _ _ T); [done|]. change BSIZE with 1024 in *. Z.to_euclidean_division_equations; lia.
Qed.

(** With the bitmap on disk, the image itself is a file system. *)
Record made (s : mkstate) (F : gmap Z (dinode * list Z)) (used : Z) : Prop := {
  md_len : length (mk_img s) = 2000%nat;
  md_boot b : 0 ≤ b < 32 → image_block s b = if decide (b = 1) then overlay zero_block (bytes_of_sb S) else zero_block;
  md_free b : 0 ≤ b < 2000 → is_free (image_block s) b = (used <=? b);
  md_fs : fs_ok (image_block s) F
}.

Lemma balloc_made K F s :
  mk_inv K s → fs_ok K F → wp (balloc (s32 (freeblock s))) (λ _ s', made s' F (freeblock s)) s.
Proof.
  intros I FS. pose proof (mi_fb _ _ I) as Hfb. unfold balloc. rewrite s32_small by lia.
  rewrite (proj2 (Z.ltb_lt _ _)) by (change BPB with 8192; lia). apply wp_bind, wp_ret. cbv zeta. apply wp_bind, wp_gets.
  rewrite (mi_sb _ _ I). change (sb_bmapstart S) with 45. pose proof (mi_len _ _ I) as Hl.
  destruct (bits_set (Z.to_nat (freeblock s)) ltac:(lia)) as [Hbl Hbits]. set (bm := foldl _ _ _) in *. rewrite Z2Nat.id in Hbits by lia.
  eapply wp_eq; [apply wsect_eq; [lia|rewrite Hl; lia]|]. set (s' := set_img _ s).
  assert (∀ b, 0 ≤ b < 2000 → b ≠ 45 → image_block s' b = K b) as Hsame.
  { intros b Hb Hn. unfold image_block, s'. cbn [mk_img set_img]. apply nth_lookup_Some. rewrite list_lookup_insert_ne by lia. by apply I. }
  assert (image_block s' 45 = bm) as H45.
  { unfold image_block, s'. cbn [mk_img set_img]. apply nth_lookup_Some, list_lookup_insert_eq. rewrite Hl. lia. }
  assert (∀ b, 0 ≤ b < 2000 → is_free (image_block s') b = (freeblock s <=? b)) as Hfree.
  { intros b Hb. unfold FsTx.is_free. rewrite bblock_mk, H45 by done. change BPB with 8192. rewrite Z.mod_small by lia. apply Hbits. lia. }
  split.
  - unfold s'. cbn. by rewrite length_insert.
  - intros b Hb. rewrite Hsame by lia. by apply I.
  - done.
  - apply (fs_ok_ext lg S d0 K); [done| | |].
    + intros b Hb Hn. apply Hsame; [done|]. intros ->. by apply (Hn 0).
    + intros b Hb. change (sb_size S) with 2000 in Hb. rewrite Hfree by done. symmetry. by apply I.
    + intros b. destruct (decide (b < 2000)) as [Hb|Hb].
      * destruct (decide (Z.to_nat b = 45%nat)) as [E|E].
        -- unfold image_block in H45 |- *. rewrite E. change 45%nat with (Z.to_nat 45). by rewrite H45.
        -- assert (image_block s' b = K (Z.of_nat (Z.to_nat b))) as ->; [|apply (mi_disk _ _ I)].
           rewrite <- Hsame by lia. unfold image_block. by rewrite Nat2Z.id.
      * unfold image_block. rewrite nth_overflow; [done|]. unfold s'. cbn [mk_img set_img]. rewrite length_insert, Hl. lia.
Qed.

Lemma sb_round_trip : sb_of_bytes (overlay zero_block (bytes_of_sb S)) = S.
Proof. vm_compute. reflexivity. Qed.

(** The two entries every directory starts with. *)
Definition dots : list Z := mkdirent 1 (bytes_of_string ".") ++ mkdirent 1 (bytes_of_string "..").

Lemma dots_length : length dots = 32%nat.
Proof. reflexivity. Qed.

(** The state when the loop over the files starts. *)
Lemma main_start (k : Z → MK Z) Q files :
  (∀ K F s dr, mk_fs K F s → F !! 1 = Some (dr, dots) → same_kind (new_dinode T_DIR) dr → freeinode s = 2 → freeblock s = 47 →
    wp (mfor files (add_file 1);; k 1) Q s) →
  wp (modify (set_img []);; modify (set_mk_sb S);; modify (set_freeblock nmeta);;
      mfor (zrange 0 (Z.to_nat FSSIZE)) (λ i, wsect i zero_block);;
      sb ← gets mk_sb;
      wsect 1 (overlay zero_block (bytes_of_sb sb));;
      rootino ← ialloc T_DIR;
      assert (rootino =? ROOTINO);;
      iappend rootino (mkdirent rootino (bytes_of_string "."));;
      iappend rootino (mkdirent rootino (bytes_of_string ".."));;
      mfor files (add_file rootino);;
      k rootino) Q mkfs_start.
Proof.
  intros Hk. do 3 apply wp_bind, wp_modify.
  apply wp_bind. eapply wp_eq; [by apply zero_image|].
  apply wp_bind, wp_gets. cbn [mk_sb set_img set_mk_sb set_freeblock].
  apply wp_bind. eapply wp_eq; [apply wsect_eq; [lia|]|].
  { cbn [mk_img set_img]. rewrite length_replicate. change FSSIZE with 2000. lia. }
  cbn [mk_img set_img]. change (Z.to_nat 1) with 1%nat. set (s0 := set_img _ _).
  assert (mk_fs mk_start_blocks ∅ s0) as I0 by (by apply mk_start_ok).
  assert (freeblock s0 = 46) as Hfb0 by reflexivity. assert (freeinode s0 = 1) as Hfi0 by reflexivity. clearbody s0.
  apply wp_bind. eapply wp_mono; [apply (ialloc_fs _ _ s0 T_DIR I0); [lia|done]|].
  intros j s1 (-> & Hfi1 & Hfb1 & K1 & I1). rewrite Hfi0 in *. change (1 =? ROOTINO) with true. apply wp_bind, wp_ret.
  apply wp_bind. eapply wp_mono; [apply (iappend_fs K1 _ s1 1 (new_dinode T_DIR) [] _ I1 (lookup_insert_eq _ _ _))|].
  { done. }
  { rewrite Hfb1, Hfb0. by vm_compute. }
  intros [] s2 (K2 & d2 & I2 & (A1 & A2 & A3 & A4) & Hfb2 & Hfi2). rewrite insert_insert_eq in I2.
  apply wp_bind. eapply wp_mono; [apply (iappend_fs K2 _ s2 1 d2 _ _ I2 (lookup_insert_eq _ _ _))|].
  { done. }
  { rewrite Hfb2, Hfb1, Hfb0. by vm_compute. }
  intros [] s3 (K3 & d3 & I3 & (A5 & A6 & A7 & A8) & Hfb3 & Hfi3). rewrite insert_insert_eq in I3.
  apply (Hk K3 _ s3 d3 I3); [apply lookup_insert_eq|split_and!; congruence|lia|].
  rewrite Hfb3, Hfb2, Hfb1, Hfb0. by vm_compute.
Qed.

(** C4. The image that mkfs makes of its arguments is a file system as the kernel expects it.
    If the files can be read, have short names without slashes, are small enough, and fit on
    the disk together, [main] exits with 0; the superblock is the one the kernel reads back,
    the log is empty, the bitmap marks exactly the blocks below [used], inode 1 is the root
    directory with the entries for ".", ".." and the files, and inode [2 + k] holds the bytes
    of file [k]; all blocks of all files are different. The number of entries must not fill
    the last block of the root directory (see [fix_root_hole]). *)
Theorem mkfs_correct image files contents :
  host_creat image = true → Forall2 arg_ok files contents → (length files ≤ 198)%nat →
  (Z.of_nat (length files) + 2) mod 64 ≠ 0 →
  let used := nmeta + nblk (16 * (Z.of_nat (length files) + 2)) + file_blocks contents in used ≤ FSSIZE →
  ∃ s F dr, main (image :: files) mkfs_start = Ret 0 s ∧ made s F used ∧
    sb_of_bytes (image_block s 1) = S ∧
    F !! ROOTINO = Some (dr, padded (dots ++ dir_entries 2 files)) ∧ di_type dr = T_DIR ∧ di_nlink dr = 1 ∧
    ∀ k c, contents !! k = Some c → ∃ d, F !! (2 + Z.of_nat k) = Some (d, c) ∧ di_type d = T_FILE ∧ di_nlink d = 1.
Proof.
  intros Hcr Hok Hn Hmod used Hused. subst used. change nmeta with 46 in *. change FSSIZE with 2000 in *.
  set (n := Z.of_nat (length files)) in *. assert (0 ≤ n ≤ 198) as Hn0 by (unfold n; lia).
  assert (Z.of_nat (length (dots ++ dir_entries 2 files)) = 16 * (n + 2)) as Hlen.
  { rewrite length_app, Nat2Z.inj_add, dir_entries_length, dots_length. fold n. lia. }
  assert (wp (main (image :: files)) (λ r s, r = 0 ∧ ∃ F dr, made s F (46 + nblk (16 * (n + 2)) + file_blocks contents) ∧
    F !! ROOTINO = Some (dr, padded (dots ++ dir_entries 2 files)) ∧ di_type dr = T_DIR ∧ di_nlink dr = 1 ∧
    ∀ k c, contents !! k = Some c → ∃ d, F !! (2 + Z.of_nat k) = Some (d, c) ∧ di_type d = T_FILE ∧ di_nlink d = 1) mkfs_start) as Hwp.
  2:{ apply wp_elim in Hwp as (r & s & E & -> & F & dr & Hm & HF). exists s, F, dr. split_and!; try apply HF; try done.
      rewrite (md_boot _ _ _ Hm) by lia. apply sb_round_trip. }
  unfold main. rewrite Hcr.
  apply (main_start (λ rootino, fix_root rootino;; used ← gets freeblock; balloc (s32 used);; mret 0)). intros K F s dr I HF (A1 & A2 & A3 & A4) Hfi Hfb.
  apply wp_bind. eapply wp_mono; [apply (add_files_ok files contents K F s dr dots I HF Hok); rewrite ?dots_length; fold n|].
  { lia. }
  { lia. }
  { change (MAXFILE * BSIZE) with 274432. lia. }
  { replace (Z.of_nat 32 + 16 * n) with (16 * (n + 2)) by lia. change (nblk (Z.of_nat 32)) with 1. lia. }
  rewrite Hfi, Hfb, dots_length. fold n. change (nblk (Z.of_nat 32)) with 1. replace (Z.of_nat 32 + 16 * n) with (16 * (n + 2)) by lia.
  intros [] s1 (K1 & F1 & dr1 & I1 & HF1 & (A5 & A6 & A7 & A8) & Hall & _ & Hfb1).
  apply wp_bind. eapply wp_mono; [apply (fix_root_ok K1 F1 s1 dr1 _ I1 HF1); rewrite Hlen; [|lia]|].
  { change BSIZE with 1024. Z.to_euclidean_division_equations; lia. }
  intros [] s2 (K2 & dr2 & I2 & FS2 & (A9 & A10 & A11 & A12) & Hfb2).
  apply wp_bind, wp_gets. apply wp_bind. eapply wp_mono; [by apply (balloc_made K2 _ s2 I2 FS2)|].
  intros [] s3 Hm. apply wp_ret. split; [done|]. exists (<[1 := (dr2, padded (dots ++ dir_entries 2 files))]> F1), dr2. split_and!.
  - replace (46 + nblk (16 * (n + 2)) + file_blocks contents) with (freeblock s2) by lia. done.
  - apply lookup_insert_eq.
  - rewrite A9, A5. exact A1.
  - rewrite A12, A8. exact A4.
  - intros k c Hk. destruct (Hall k c Hk) as (d & Hd & B1 & _ & _ & B4). exists d. rewrite lookup_insert_ne by lia. done.
Qed.
End files.
End mkfs.

(** ** An example: one file, [user/_hi], read in two parts *)

Definition demo_host : Host := {|
  host_open arg := if decide (arg = bytes_of_string "user/_hi") then Some [bytes_of_string "hello "; bytes_of_string "world"] else None;
  host_creat _ := true |}.
Definition demo_mk_log : log_state := Mk_log_state 2 30 0 0 ROOTDEV 0 [].

Lemma demo_arg : arg_ok (H:=demo_host) (bytes_of_string "user/_hi") (bytes_of_string "hello world").
Proof.
  split.
  - exists [bytes_of_string "hello "; bytes_of_string "world"]. done.
  - intros Hin. change (shortname_of _) with (bytes_of_string "_hi") in Hin. cbn in Hin.
    repeat (apply elem_of_cons in Hin as [Hin|Hin]; [done|]). by apply not_elem_of_nil in Hin.
  - by vm_compute.
  - by vm_compute.
Qed.

Lemma mkfs_correct_witness : ∃ s F, main (H:=demo_host) [bytes_of_string "fs.img"; bytes_of_string "user/_hi"] mkfs_start = Ret 0 s ∧
  made demo_mk_log s F 48 ∧ ∃ d, F !! 2 = Some (d, bytes_of_string "hello world") ∧ di_type d = T_FILE.
Proof.
  destruct (mkfs_correct demo_mk_log eq_refl eq_refl (H:=demo_host) (bytes_of_string "fs.img") [bytes_of_string "user/_hi"] [bytes_of_string "hello world"])
    as (s & F & dr & E & Hm & _ & _ & _ & _ & Hf).
  - reflexivity.
  - constructor; [apply demo_arg|constructor].
  - cbn. lia.
  - done.
  - by vm_compute.
  - exists s, F. split; [exact E|]. split; [exact Hm|]. destruct (Hf 0%nat _ eq_refl) as (d & Hd & Ht & _). exists d. split; [exact Hd|exact Ht].
Defined.
