(* ===== verification/ProcFs.v ===== *)
(** * Processes and files: [userinit], [fork] and [exit] of kernel/proc.c *)

From S2P Require Import Prelude Machine State Spinlock KString Kalloc Vm Proc Sleeplock Virtio Bio Log.
From S2P Require Import Uart Printf Console Fs Pipe File.

(** The fields of a trapframe in memory. *)
Definition tf_load (tf off : Z) : K Z := gets (λ s, load64 (pmem s) (tf + off)).
Definition tf_store (tf off v : Z) : K unit :=
  modify (λ s, set_pmem (store64 (pmem s) (tf + off) v) s).

(** [initcode]: exec("/init") *)
Definition initcode : list Z :=
  [0x17; 0x05; 0x00; 0x00; 0x13; 0x05; 0x45; 0x02; 0x97; 0x05; 0x00;
   0x00; 0x93; 0x85; 0x35; 0x02; 0x93; 0x08; 0x70; 0x00; 0x73; 0x00;
   0x00; 0x00; 0x93; 0x08; 0x20; 0x00; 0x73; 0x00; 0x00; 0x00; 0xef;
   0xf0; 0x9f; 0xff; 0x2f; 0x69; 0x6e; 0x69; 0x74; 0x00; 0x00; 0x24;
   0x00; 0x00; 0x00; 0x00; 0x00; 0x00; 0x00; 0x00].

Section procfs.
Context `{L : Layout} `{Oth : Others} `{B : BlockIO}.

Definition userinit : K unit :=
  p ← allocproc;
  modify (set_initproc p);;
  p ← deref p;
  pr ← get_proc p;
  uvmfirst (p_pagetable pr) initcode;;
  upd_proc p (set_p_sz PGSIZE);;
  tf_store (p_trapframe pr) TF_epc 0;;
  tf_store (p_trapframe pr) TF_sp PGSIZE;;
  upd_proc p (λ q, set_p_name (overlay (p_name q) (safestrcpy (at_list (bytes_of_string "initcode")) 16)) q);;
  cwd ← namei (bytes_of_string "/");
  upd_proc p (set_p_cwd cwd);;
  upd_proc p (set_p_state RUNNABLE);;
  lift_cs (release (L_proc p)).

Definition fork : K Z :=
  p ← myproc; p ← deref p;
  np ← allocproc;
  match np with
  | None => mret (-1)
  | Some np =>
      pr ← get_proc p;
      npr ← get_proc np;
      r ← uvmcopy (p_pagetable pr) (p_pagetable npr) (p_sz pr);
      if r <? 0 then
        freeproc np;;
        lift_cs (release (L_proc np));;
        mret (-1)
      else
        upd_proc np (set_p_sz (p_sz pr));;
        upd_proc np (set_p_mask (p_mask pr));;
        k_memmove (p_trapframe npr) (p_trapframe pr) (Z.of_nat sizeof_trapframe);;
        tf_store (p_trapframe npr) TF_a0 0;;
        mfor (zrange 0 (Z.to_nat NOFILE)) (λ i,
          pr ← get_proc p;
          match nthZ None (p_ofile pr) i with
          | None => mret tt
          | Some f =>
              f' ← filedup f;
              upd_proc np (λ q, set_p_ofile (setZ (p_ofile q) i (Some f')) q)
          end);;
        pr ← get_proc p;
        cwd ← deref (p_cwd pr);
        cwd ← idup cwd;
        upd_proc np (set_p_cwd (Some cwd));;
        upd_proc np (λ q, set_p_name (overlay (p_name q) (safestrcpy (at_list (p_name pr)) 16)) q);;
        npr ← get_proc np;
        let pid := p_pid npr in
        lift_cs (release (L_proc np));;
        lift_cs (acquire L_wait);;
        upd_proc np (set_p_parent (Some p));;
        lift_cs (release L_wait);;
        lift_cs (acquire (L_proc np));;
        upd_proc np (set_p_state RUNNABLE);;
        lift_cs (release (L_proc np));;
        mret pid
  end.

Definition exit {A} (status : Z) : K A :=
  p ← myproc;
  ip ← gets initproc;
  if bool_decide (p = ip) then panic "init exiting"
  else
    p ← deref p;
    mfor (zrange 0 (Z.to_nat NOFILE)) (λ fd,
      pr ← get_proc p;
      match nthZ None (p_ofile pr) fd with
      | None => mret tt
      | Some f =>
          fileclose f;;
          upd_proc p (λ q, set_p_ofile (setZ (p_ofile q) fd None) q)
      end);;
    begin_op;;
    pr ← get_proc p;
    cwd ← deref (p_cwd pr);
    iput cwd;;
    end_op;;
    upd_proc p (set_p_cwd None);;
    lift_cs (acquire L_wait);;
    reparent p;;
    pr ← get_proc p;
    wakeup (C_proc <$> p_parent pr);;
    lift_cs (acquire (L_proc p));;
    upd_proc p (set_p_xstate status);;
    upd_proc p (set_p_state ZOMBIE);;
    lift_cs (release L_wait);;
    sched;;
    panic "zombie exit".
End procfs.
