(* ===== verification/Exec.v ===== *)
(** * exec: kernel/exec.c and kernel/elf.h *)

From S2P Require Import Prelude Machine State Spinlock KString Kalloc Vm Proc Sleeplock Virtio Bio Log.
From S2P Require Import Uart Printf Console Fs Pipe File ProcFs.

Definition ELF_MAGIC : Z := 0x464C457F.
Definition ELF_PROG_LOAD : Z := 1.
Definition sizeof_elfhdr : Z := 64.
Definition sizeof_proghdr : Z := 56.

Definition u16_at (d : list Z) (off : Z) : Z := le_val (sub d off 2).
Definition u64_at (d : list Z) (off : Z) : Z := le_val (sub d off 8).

(** The fields of [struct elfhdr] and [struct proghdr] that exec uses. *)
Record elfhdr := Mk_elfhdr { elf_magic : Z; elf_entry : Z; elf_phoff : Z; elf_phnum : Z }.
Definition elfhdr_of_bytes (d : list Z) : elfhdr :=
  Mk_elfhdr (uint_at d 0) (u64_at d 24) (u64_at d 32) (u16_at d 56).
Record proghdr := Mk_proghdr {
  ph_type : Z; ph_flags : Z; ph_off : Z; ph_vaddr : Z; ph_filesz : Z; ph_memsz : Z }.
Definition proghdr_of_bytes (d : list Z) : proghdr :=
  Mk_proghdr (uint_at d 0) (uint_at d 4) (u64_at d 8) (u64_at d 16) (u64_at d 32) (u64_at d 40).

Definition flags2perm (flags : Z) : Z :=
  let perm := if Z.land flags 1 =? 0 then 0 else PTE_X in
  if Z.land flags 2 =? 0 then perm else Z.lor perm PTE_W.

(** The name to save: what follows the last slash of the path. *)
Fixpoint last_elem (s last : list Z) : list Z :=
  match s with
  | [] => last
  | c :: s' => last_elem s' (if c =? SLASH then s' else last)
  end.

Section exec.
Context `{L : Layout} `{Oth : Others} `{B : BlockIO}.

Fixpoint loadseg_loop (fuel : nat) (pagetable va : Z) (ip : nat) (offset sz i : Z) : K Z :=
  match fuel with
  | O => hang
  | S f =>
      if i <? sz then
        pa ← walkaddr pagetable (u64 (va + i));
        if pa =? 0 then panic "loadseg: address should exist"
        else
          let n := if sz - i <? PGSIZE then sz - i else PGSIZE in
          rb ← readi ip (KernDst pa) (u32 (offset + i)) n;
          if negb (fst rb =? n) then mret (-1)
          else loadseg_loop f pagetable va ip offset sz (u32 (i + PGSIZE))
      else mret 0
  end.
Definition loadseg (pagetable va : Z) (ip : nat) (offset sz : Z) : K Z :=
  loadseg_loop (S (Z.to_nat (sz / PGSIZE + 1))) pagetable va ip offset sz 0.

(** The loop over the program headers: [inl sz] when all are loaded, [inr sz] for
    [goto bad], with the value of [sz] then. *)
Fixpoint load_segments (k : nat) (pagetable : Z) (ip : nat) (off sz : Z) : K (Z + Z) :=
  match k with
  | O => mret (inl sz)
  | S k' =>
      rb ← readi ip VarDst (u32 off) sizeof_proghdr;
      if negb (fst rb =? sizeof_proghdr) then mret (inr sz)
      else
        let ph := proghdr_of_bytes (snd rb) in
        let off' := s32 (off + sizeof_proghdr) in
        if negb (ph_type ph =? ELF_PROG_LOAD) then load_segments k' pagetable ip off' sz
        else if ph_memsz ph <? ph_filesz ph then mret (inr sz)
        else if u64 (ph_vaddr ph + ph_memsz ph) <? ph_vaddr ph then mret (inr sz)
        else if negb (ph_vaddr ph mod PGSIZE =? 0) then mret (inr sz)
        else
          sz1 ← uvmalloc pagetable sz (u64 (ph_vaddr ph + ph_memsz ph)) (flags2perm (ph_flags ph));
          if sz1 =? 0 then mret (inr sz)
          else
            r ← loadseg pagetable (ph_vaddr ph) ip (u32 (ph_off ph)) (u32 (ph_filesz ph));
            if r <? 0 then mret (inr sz1)
            else load_segments k' pagetable ip off' sz1
  end.

(** The argument strings, each with its NUL, below [sp]: [None] for [goto bad], else
    the new [sp] and the addresses, [ustack]. *)
Fixpoint push_args (argv : list (list Z)) (pagetable sp stackbase argc : Z) (ustack : list Z)
  : K (option (Z * list Z)) :=
  match argv with
  | [] => mret (Some (sp, ustack))
  | arg :: argv' =>
      if MAXARG <=? argc then mret None
      else
        let len := Z.of_nat (length arg) + 1 in
        let sp := u64 (sp - len) in
        let sp := sp - sp mod 16 in
        if sp <? stackbase then mret None
        else
          r ← copyout pagetable sp (arg ++ [0]);
          if r <? 0 then mret None
          else push_args argv' pagetable sp stackbase (argc + 1) (ustack ++ [sp])
  end.

(** [argv] are the argument strings without their NULs. *)
Definition exec (path : list Z) (argv : list (list Z)) : K Z :=
  p ← myproc; p ← deref p;
  begin_op;;
  ip ← namei path;
  match ip with
  | None => end_op;; mret (-1)
  | Some ip =>
      ilock (Some ip);;
      let bad1 (pagetable sz : Z) : K Z :=
        when (c_bool pagetable) (proc_freepagetable pagetable sz);;
        iunlockput ip;;
        end_op;;
        mret (-1) in
      rb ← readi ip VarDst 0 sizeof_elfhdr;
      if negb (fst rb =? sizeof_elfhdr) then bad1 0 0
      else
        let elf := elfhdr_of_bytes (snd rb) in
        if negb (elf_magic elf =? ELF_MAGIC) then bad1 0 0
        else
          pagetable ← proc_pagetable p;
          if pagetable =? 0 then bad1 0 0
          else
            r ← load_segments (Z.to_nat (elf_phnum elf)) pagetable ip (s32 (elf_phoff elf)) 0;
            match r with
            | inr sz => bad1 pagetable sz
            | inl sz =>
                iunlockput ip;;
                end_op;;
                p ← myproc; p ← deref p;
                pr ← get_proc p;
                let oldsz := p_sz pr in
                let bad2 (sz : Z) : K Z := proc_freepagetable pagetable sz;; mret (-1) in
                let sz := PGROUNDUP sz in
                sz1 ← uvmalloc pagetable sz (u64 (sz + (USERSTACK + 1) * PGSIZE)) PTE_W;
                if sz1 =? 0 then bad2 sz
                else
                  let sz := sz1 in
                  uvmclear pagetable (u64 (sz - (USERSTACK + 1) * PGSIZE));;
                  let sp := sz in
                  let stackbase := u64 (sp - USERSTACK * PGSIZE) in
                  r ← push_args argv pagetable sp stackbase 0 [];
                  match r with
                  | None => bad2 sz
                  | Some (sp, ustack) =>
                      let argc := Z.of_nat (length argv) in
                      let sp := u64 (sp - (argc + 1) * 8) in
                      let sp := sp - sp mod 16 in
                      if sp <? stackbase then bad2 sz
                      else
                        r ← copyout pagetable sp (mjoin (le_bytes 8 <$> (ustack ++ [0])));
                        if r <? 0 then bad2 sz
                        else
                          pr ← get_proc p;
                          tf_store (p_trapframe pr) TF_a1 sp;;
                          upd_proc p (λ q, set_p_name
                            (overlay (p_name q) (safestrcpy (at_list (last_elem path path)) 16)) q);;
                          pr ← get_proc p;
                          let oldpagetable := p_pagetable pr in
                          upd_proc p (set_p_pagetable pagetable);;
                          upd_proc p (set_p_sz sz);;
                          tf_store (p_trapframe pr) TF_epc (elf_entry elf);;
                          tf_store (p_trapframe pr) TF_sp sp;;
                          proc_freepagetable oldpagetable oldsz;;
                          mret argc
                  end
            end
  end.
End exec.
