(* ===== verification/SysArg.v ===== *)
(** * System call arguments, and the calls about processes: kernel/syscall.c, sysproc.c *)

From S2P Require Import Prelude Machine State Spinlock KString Kalloc Vm Proc ProcFs.
From S2P Require Import Sleeplock Virtio Bio Log Uart Printf Console Fs Pipe File.

Section sysarg.
Context `{L : Layout} `{Oth : Others}.

(** Fetches the uint64 at [addr]: the result code and the value. *)
Definition fetchaddr (addr : Z) : K (Z * Z) :=
  p ← myproc; p ← deref p;
  pr ← get_proc p;
  if (p_sz pr <=? addr) || (p_sz pr <? u64 (addr + 8)) then mret (-1, 0)
  else
    rb ← copyin (p_pagetable pr) addr 8;
    if negb (fst rb =? 0) then mret (-1, 0)
    else mret (0, le_val (snd rb)).

(** Fetches the string at [addr] into a buffer of [max] bytes: the result code and the
    bytes stored, the NUL included. *)
Definition fetchstr (addr max : Z) : K (Z * list Z) :=
  p ← myproc; p ← deref p;
  pr ← get_proc p;
  rb ← copyinstr (p_pagetable pr) addr max;
  if fst rb <? 0 then mret (-1, snd rb)
  else
    match strlen (length (snd rb)) (at_list (snd rb)) with
    | Some n => mret (n, snd rb)
    | None => hang
    end.

Definition argraw (n : Z) : K Z :=
  p ← myproc; p ← deref p;
  pr ← get_proc p;
  match n with
  | 0 => tf_load (p_trapframe pr) TF_a0
  | 1 => tf_load (p_trapframe pr) TF_a1
  | 2 => tf_load (p_trapframe pr) TF_a2
  | 3 => tf_load (p_trapframe pr) TF_a3
  | 4 => tf_load (p_trapframe pr) TF_a4
  | 5 => tf_load (p_trapframe pr) TF_a5
  | _ => panic "argraw"
  end.

Definition argint (n : Z) : K Z := x ← argraw n; mret (s32 x).
Definition argaddr (n : Z) : K Z := argraw n.
Definition argstr (n max : Z) : K (Z * list Z) := addr ← argaddr n; fetchstr addr max.

(** The string in a buffer that [fetchstr] filled, without its NUL. *)
Definition str_of (r : Z * list Z) : list Z := take (Z.to_nat (fst r)) (snd r).
End sysarg.

(** ** Process system calls: kernel/sysproc.c *)

Section sysproc.
Context `{L : Layout} `{Oth : Others} `{B : BlockIO}.

Definition sys_exit : K Z :=
  n ← argint 0;
  exit n.

Definition sys_getpid : K Z :=
  p ← myproc; p ← deref p;
  pr ← get_proc p;
  mret (p_pid pr).

Definition sys_fork : K Z := fork.

Definition sys_wait : K Z :=
  p ← argaddr 0;
  wait p.

Definition sys_sbrk : K Z :=
  n ← argint 0;
  p ← myproc; p ← deref p;
  pr ← get_proc p;
  let addr := p_sz pr in
  r ← growproc n;
  if r <? 0 then mret (-1) else mret addr.

(** [ticks - ticks0 < n] compares as unsigned. *)
Fixpoint sys_sleep_loop (fuel : nat) (ticks0 n : Z) : K Z :=
  match fuel with
  | O => hang
  | S f =>
      t ← gets ticks;
      if u32 (t - ticks0) <? u32 n then
        p ← myproc; p ← deref p;
        k ← killed p;
        if c_bool k then lift_cs (release L_ticks);; mret (-1)
        else sleep C_ticks L_ticks;; sys_sleep_loop f ticks0 n
      else lift_cs (release L_ticks);; mret 0
  end.
Definition sys_sleep : K Z :=
  n ← argint 0;
  let n := if n <? 0 then 0 else n in
  lift_cs (acquire L_ticks);;
  ticks0 ← gets ticks;
  fuel ← gets (λ s, S (sched_left s));
  sys_sleep_loop fuel ticks0 n.

Definition sys_kill : K Z :=
  pid ← argint 0;
  kill pid.

Definition sys_uptime : K Z :=
  lift_cs (acquire L_ticks);;
  xticks ← gets ticks;
  lift_cs (release L_ticks);;
  mret xticks.

Definition sys_trace : K Z :=
  mask ← argint 0;
  p ← myproc; p ← deref p;
  upd_proc p (set_p_mask mask);;
  mret 0.

(** [struct sysinfo] is three uint64s. *)
Definition sysinfo_bytes (freemem nproc nopenfiles : Z) : list Z :=
  le_bytes 8 freemem ++ le_bytes 8 nproc ++ le_bytes 8 nopenfiles.

Definition sys_sysinfo : K Z :=
  p ← myproc; p ← deref p;
  addr ← argaddr 0;
  freemem ← count_freemmem;
  nproc ← count_proc;
  nopenfiles ← count_openfile;
  pr ← get_proc p;
  r ← copyout (p_pagetable pr) addr (sysinfo_bytes freemem nproc nopenfiles);
  if r <? 0 then mret (-1) else mret 0.
End sysproc.
