(* ===== verification/Sysfile.v ===== *)
(** * File system calls: kernel/sysfile.c *)

From S2P Require Import Prelude Machine State Spinlock KString Kalloc Vm Proc Sleeplock Virtio Bio Log.
From S2P Require Import Uart Printf Console Fs Pipe File ProcFs Exec SysArg.

Definition O_RDONLY : Z := 0x000.
Definition O_WRONLY : Z := 0x001.
Definition O_RDWR : Z := 0x002.
Definition O_CREATE : Z := 0x200.
Definition O_TRUNC : Z := 0x400.

(** [char name[DIRSIZ]], before [nameiparent] fills it. *)
Definition name0 : list Z := replicate (Z.to_nat DIRSIZ) 0.

Section sysfile.
Context `{L : Layout} `{Oth : Others} `{B : BlockIO}.

(** [myproc()->ofile[fd]]. An index outside of the array has no meaning in C. *)
Definition ofile_at (fd : Z) : K (option nat) :=
  p ← myproc; p ← deref p;
  pr ← get_proc p;
  if fd <? 0 then panic "index below 0"
  else match p_ofile pr !! Z.to_nat fd with Some f => mret f | None => panic "index past the end" end.

Definition argfd (n : Z) : K (option (Z * nat)) :=
  fd ← argint n;
  if (fd <? 0) || (NOFILE <=? fd) then mret None
  else
    f ← ofile_at fd;
    match f with
    | None => mret None
    | Some f => mret (Some (fd, f))
    end.

Definition set_ofile (p : nat) (fd : Z) (f : option nat) : K unit :=
  upd_proc p (λ q, set_p_ofile (setZ (p_ofile q) fd f) q).

Fixpoint fdalloc_loop (k : nat) (p f : nat) (fd : Z) : K Z :=
  match k with
  | O => mret (-1)
  | S k' =>
      pr ← get_proc p;
      match nthZ None (p_ofile pr) fd with
      | None => set_ofile p fd (Some f);; mret fd
      | Some _ => fdalloc_loop k' p f (fd + 1)
      end
  end.
Definition fdalloc (f : nat) : K Z :=
  p ← myproc; p ← deref p;
  fdalloc_loop (Z.to_nat NOFILE) p f 0.

Definition sys_dup : K Z :=
  r ← argfd 0;
  match r with
  | None => mret (-1)
  | Some (_, f) =>
      fd ← fdalloc f;
      if fd <? 0 then mret (-1)
      else filedup f;; mret fd
  end.

Definition sys_read : K Z :=
  p ← argaddr 1;
  n ← argint 2;
  r ← argfd 0;
  match r with
  | None => mret (-1)
  | Some (_, f) => fileread f p n
  end.

Definition sys_write : K Z :=
  p ← argaddr 1;
  n ← argint 2;
  r ← argfd 0;
  match r with
  | None => mret (-1)
  | Some (_, f) => filewrite f p n
  end.

Definition sys_close : K Z :=
  r ← argfd 0;
  match r with
  | None => mret (-1)
  | Some (fd, f) =>
      p ← myproc; p ← deref p;
      set_ofile p fd None;;
      fileclose f;;
      mret 0
  end.

Definition sys_fstat : K Z :=
  st ← argaddr 1;
  r ← argfd 0;
  match r with
  | None => mret (-1)
  | Some (_, f) => filestat f st
  end.

Definition sys_link : K Z :=
  old ← argstr 0 MAXPATH;
  if fst old <? 0 then mret (-1)
  else
    new ← argstr 1 MAXPATH;
    if fst new <? 0 then mret (-1)
    else
      begin_op;;
      ip ← namei (str_of old);
      match ip with
      | None => end_op;; mret (-1)
      | Some ip =>
          ilock (Some ip);;
          i ← get_inode ip;
          if i_type i =? T_DIR then iunlockput ip;; end_op;; mret (-1)
          else
            upd_inode ip (λ i, set_i_nlink (s16 (i_nlink i + 1)) i);;
            iupdate ip;;
            iunlock (Some ip);;
            let bad : K Z :=
              ilock (Some ip);;
              upd_inode ip (λ i, set_i_nlink (s16 (i_nlink i - 1)) i);;
              iupdate ip;;
              iunlockput ip;;
              end_op;;
              mret (-1) in
            r ← nameiparent (str_of new) name0;
            match r with
            | (None, _) => bad
            | (Some dp, name) =>
                ilock (Some dp);;
                d ← get_inode dp;
                i ← get_inode ip;
                r ← (if negb (i_dev d =? i_dev i) then mret (-1)
                     else dirlink dp (at_list name) (i_inum i));
                if r <? 0 then iunlockput dp;; bad
                else
                  iunlockput dp;;
                  iput ip;;
                  end_op;;
                  mret 0
            end
      end.

Fixpoint isdirempty_loop (fuel : nat) (dp : nat) (off : Z) : K Z :=
  match fuel with
  | O => hang
  | S f =>
      d ← get_inode dp;
      if u32 off <? i_size d then
        rb ← readi dp VarDst (u32 off) sizeof_dirent;
        if negb (fst rb =? sizeof_dirent) then panic "isdirempty: readi"
        else if negb (de_inum (dirent_of_bytes (snd rb)) =? 0) then mret 0
        else isdirempty_loop f dp (s32 (off + sizeof_dirent))
      else mret 1
  end.
Definition isdirempty (dp : nat) : K Z :=
  d ← get_inode dp;
  isdirempty_loop (S (Z.to_nat (i_size d / sizeof_dirent + 1))) dp (2 * sizeof_dirent).

Definition sys_unlink : K Z :=
  path ← argstr 0 MAXPATH;
  if fst path <? 0 then mret (-1)
  else
    begin_op;;
    r ← nameiparent (str_of path) name0;
    match r with
    | (None, _) => end_op;; mret (-1)
    | (Some dp, name) =>
        ilock (Some dp);;
        let bad : K Z := iunlockput dp;; end_op;; mret (-1) in
        if (namecmp (at_list name) (at_list (bytes_of_string ".")) =? 0)
           || (namecmp (at_list name) (at_list (bytes_of_string "..")) =? 0) then bad
        else
          r ← dirlookup dp (at_list name);
          match r with
          | None => bad
          | Some (ip, off) =>
              ilock (Some ip);;
              i ← get_inode ip;
              if i_nlink i <? 1 then panic "unlink: nlink < 1"
              else
                full ← (if i_type i =? T_DIR then e ← isdirempty ip; mret (e =? 0) else mret false);
                if (full : bool) then iunlockput ip;; bad
                else
                  r ← writei dp (VarSrc (replicate (Z.to_nat sizeof_dirent) 0)) off sizeof_dirent;
                  if negb (r =? sizeof_dirent) then panic "unlink: writei"
                  else
                    i ← get_inode ip;
                    when (i_type i =? T_DIR)
                      (upd_inode dp (λ d, set_i_nlink (s16 (i_nlink d - 1)) d);; iupdate dp);;
                    iunlockput dp;;
                    upd_inode ip (λ i, set_i_nlink (s16 (i_nlink i - 1)) i);;
                    iupdate ip;;
                    iunlockput ip;;
                    end_op;;
                    mret 0
          end
    end.

Definition create (path : list Z) (type major minor : Z) : K (option nat) :=
  r ← nameiparent path name0;
  match r with
  | (None, _) => mret None
  | (Some dp, name) =>
      ilock (Some dp);;
      r ← dirlookup dp (at_list name);
      match r with
      | Some (ip, _) =>
          iunlockput dp;;
          ilock (Some ip);;
          i ← get_inode ip;
          if (type =? T_FILE) && ((i_type i =? T_FILE) || (i_type i =? T_DEVICE))
          then mret (Some ip)
          else iunlockput ip;; mret None
      | None =>
          d ← get_inode dp;
          r ← ialloc (i_dev d) type;
          match r with
          | None => iunlockput dp;; mret None
          | Some ip =>
              ilock (Some ip);;
              upd_inode ip (set_i_major major);;
              upd_inode ip (set_i_minor minor);;
              upd_inode ip (set_i_nlink 1);;
              iupdate ip;;
              let fail_ : K (option nat) :=
                upd_inode ip (set_i_nlink 0);;
                iupdate ip;;
                iunlockput ip;;
                iunlockput dp;;
                mret None in
              i ← get_inode ip;
              d ← get_inode dp;
              r ← (if type =? T_DIR then
                     r ← dirlink ip (at_list (bytes_of_string ".")) (i_inum i);
                     if r <? 0 then mret r
                     else dirlink ip (at_list (bytes_of_string "..")) (i_inum d)
                   else mret 0);
              if r <? 0 then fail_
              else
                r ← dirlink dp (at_list name) (i_inum i);
                if r <? 0 then fail_
                else
                  when (type =? T_DIR)
                    (upd_inode dp (λ d, set_i_nlink (s16 (i_nlink d + 1)) d);; iupdate dp);;
                  iunlockput dp;;
                  mret (Some ip)
          end
      end
  end.

(** The part of [sys_open] that finds or creates the inode, which is then locked. *)
Definition open_inode (path : list Z) (omode : Z) : K (option nat) :=
  if c_bool (Z.land omode O_CREATE) then
    ip ← create path T_FILE 0 0;
    match ip with
    | None => end_op;; mret None
    | Some ip => mret (Some ip)
    end
  else
    ip ← namei path;
    match ip with
    | None => end_op;; mret None
    | Some ip =>
        ilock (Some ip);;
        i ← get_inode ip;
        if (i_type i =? T_DIR) && negb (omode =? O_RDONLY) then
          iunlockput ip;; end_op;; mret None
        else mret (Some ip)
    end.

Definition sys_open : K Z :=
  omode ← argint 1;
  path ← argstr 0 MAXPATH;
  if fst path <? 0 then mret (-1)
  else
    begin_op;;
    ip ← open_inode (str_of path) omode;
    match ip with
    | None => mret (-1)
    | Some ip =>
        i ← get_inode ip;
        let bad : K Z := iunlockput ip;; end_op;; mret (-1) in
        if (i_type i =? T_DEVICE) && ((i_major i <? 0) || (NDEV <=? i_major i)) then bad
        else
          f ← filealloc;
          match f with
          | None => bad
          | Some f =>
              fd ← fdalloc f;
              if fd <? 0 then fileclose f;; bad
              else
                i ← get_inode ip;
                (if i_type i =? T_DEVICE then
                   upd_file f (set_f_type FD_DEVICE);; upd_file f (set_f_major (i_major i))
                 else
                   upd_file f (set_f_type FD_INODE);; upd_file f (set_f_off 0));;
                upd_file f (set_f_ip (Some ip));;
                upd_file f (set_f_readable (if c_bool (Z.land omode O_WRONLY) then 0 else 1));;
                upd_file f (set_f_writable
                  (if c_bool (Z.land omode O_WRONLY) || c_bool (Z.land omode O_RDWR) then 1 else 0));;
                when (c_bool (Z.land omode O_TRUNC) && (i_type i =? T_FILE)) (itrunc ip);;
                iunlock (Some ip);;
                end_op;;
                mret fd
          end
    end.

Definition sys_mkdir : K Z :=
  begin_op;;
  path ← argstr 0 MAXPATH;
  ip ← (if fst path <? 0 then mret None else create (str_of path) T_DIR 0 0);
  match ip with
  | None => end_op;; mret (-1)
  | Some ip => iunlockput ip;; end_op;; mret 0
  end.

Definition sys_mknod : K Z :=
  begin_op;;
  major ← argint 1;
  minor ← argint 2;
  path ← argstr 0 MAXPATH;
  ip ← (if fst path <? 0 then mret None
        else create (str_of path) T_DEVICE (s16 major) (s16 minor));
  match ip with
  | None => end_op;; mret (-1)
  | Some ip => iunlockput ip;; end_op;; mret 0
  end.

Definition sys_chdir : K Z :=
  p ← myproc; p ← deref p;
  begin_op;;
  path ← argstr 0 MAXPATH;
  ip ← (if fst path <? 0 then mret None else namei (str_of path));
  match ip with
  | None => end_op;; mret (-1)
  | Some ip =>
      ilock (Some ip);;
      i ← get_inode ip;
      if negb (i_type i =? T_DIR) then iunlockput ip;; end_op;; mret (-1)
      else
        iunlock (Some ip);;
        pr ← get_proc p;
        cwd ← deref (p_cwd pr);
        iput cwd;;
        end_op;;
        upd_proc p (set_p_cwd (Some ip));;
        mret 0
  end.

(** The loop of [sys_exec] that reads the argument vector: whether it succeeded, the
    pages allocated for the strings, in order, and the strings. *)
Fixpoint sys_exec_args (fuel : nat) (uargv i : Z) (pages : list Z) (argv : list (list Z))
  : K (bool * list Z * list (list Z)) :=
  match fuel with
  | O => mret (false, pages, argv)
  | S f =>
      r ← fetchaddr (u64 (uargv + 8 * i));
      if fst r <? 0 then mret (false, pages, argv)
      else if snd r =? 0 then mret (true, pages, argv)
      else
        page ← kalloc;
        if page =? 0 then mret (false, pages, argv)
        else
          str ← fetchstr (snd r) PGSIZE;
          modify (λ s, set_pmem (blit (pmem s) page (snd str)) s);;
          if fst str <? 0 then mret (false, pages ++ [page], argv)
          else sys_exec_args f uargv (i + 1) (pages ++ [page]) (argv ++ [str_of str])
  end.

Definition sys_exec : K Z :=
  uargv ← argaddr 1;
  path ← argstr 0 MAXPATH;
  if fst path <? 0 then mret (-1)
  else
    r ← sys_exec_args (Z.to_nat MAXARG) uargv 0 [] [];
    let '(ok, pages, argv) := r in
    if (ok : bool) then
      ret ← exec (str_of path) argv;
      mfor pages kfree;;
      mret ret
    else mfor pages kfree;; mret (-1).

Definition sys_pipe : K Z :=
  p ← myproc; p ← deref p;
  fdarray ← argaddr 0;
  r ← pipealloc;
  match r with
  | None => mret (-1)
  | Some (rf, wf) =>
      fd0 ← fdalloc rf;
      if fd0 <? 0 then fileclose rf;; fileclose wf;; mret (-1)
      else
        fd1 ← fdalloc wf;
        if fd1 <? 0 then
          set_ofile p fd0 None;;
          fileclose rf;; fileclose wf;; mret (-1)
        else
          pr ← get_proc p;
          r0 ← copyout (p_pagetable pr) fdarray (le_bytes 4 fd0);
          r1 ← (if r0 <? 0 then mret r0
                else copyout (p_pagetable pr) (u64 (fdarray + 4)) (le_bytes 4 fd1));
          if r1 <? 0 then
            set_ofile p fd0 None;;
            set_ofile p fd1 None;;
            fileclose rf;; fileclose wf;; mret (-1)
          else mret 0
  end.
End sysfile.
