(* ===== verification/Syscall.v ===== *)
(** * System call dispatch: the second half of kernel/syscall.c, kernel/syscall.h *)

From S2P Require Import Prelude Machine State Spinlock KString Kalloc Vm Proc Sleeplock Virtio Bio Log.
From S2P Require Import Uart Printf Console Fs Pipe File ProcFs Exec SysArg Sysfile.

(** kernel/syscall.h *)
Inductive sysno :=
  | SYS_fork | SYS_exit | SYS_wait | SYS_pipe | SYS_read | SYS_kill | SYS_exec | SYS_fstat
  | SYS_chdir | SYS_dup | SYS_getpid | SYS_sbrk | SYS_sleep | SYS_uptime | SYS_open | SYS_write
  | SYS_mknod | SYS_unlink | SYS_link | SYS_mkdir | SYS_close | SYS_trace | SYS_sysinfo.

Definition sysnum (c : sysno) : Z :=
  match c with
  | SYS_fork => 1 | SYS_exit => 2 | SYS_wait => 3 | SYS_pipe => 4 | SYS_read => 5
  | SYS_kill => 6 | SYS_exec => 7 | SYS_fstat => 8 | SYS_chdir => 9 | SYS_dup => 10
  | SYS_getpid => 11 | SYS_sbrk => 12 | SYS_sleep => 13 | SYS_uptime => 14 | SYS_open => 15
  | SYS_write => 16 | SYS_mknod => 17 | SYS_unlink => 18 | SYS_link => 19 | SYS_mkdir => 20
  | SYS_close => 21 | SYS_trace => 22 | SYS_sysinfo => 23
  end.

(** [syscall_list] *)
Definition syscall_list : list string :=
  [""; "fork"; "exit"; "wait"; "pipe"; "read"; "kill"; "exec";
   "fstat"; "chdir"; "dup"; "getpid"; "sbrk"; "sleep"; "uptime";
   "open"; "write"; "mknod"; "unlink"; "link"; "mkdir"; "close";
   "trace"; "sysinfo"]%string.

Section syscall.
Context `{L : Layout} `{Oth : Others} `{B : BlockIO}.

(** The array [syscalls]: each entry with its index, in the order of the source. *)
Definition syscalls_init : list (sysno * K Z) :=
  [(SYS_fork, sys_fork); (SYS_exit, sys_exit); (SYS_wait, sys_wait); (SYS_pipe, sys_pipe);
   (SYS_read, sys_read); (SYS_kill, sys_kill); (SYS_exec, sys_exec); (SYS_fstat, sys_fstat);
   (SYS_chdir, sys_chdir); (SYS_dup, sys_dup); (SYS_getpid, sys_getpid); (SYS_sbrk, sys_sbrk);
   (SYS_sleep, sys_sleep); (SYS_uptime, sys_uptime); (SYS_open, sys_open);
   (SYS_write, sys_write); (SYS_mknod, sys_mknod); (SYS_unlink, sys_unlink);
   (SYS_link, sys_link); (SYS_mkdir, sys_mkdir); (SYS_close, sys_close);
   (SYS_trace, sys_trace); (SYS_sysinfo, sys_sysinfo)].

(** [syscalls[num]], a null pointer where the array has no initializer. *)
Definition syscalls (num : Z) : option (K Z) :=
  snd <$> head (filter (λ e, sysnum (fst e) = num) syscalls_init).
Definition NELEM_syscalls : Z := 24.

Definition syscall : K unit :=
  p ← myproc; p ← deref p;
  pr ← get_proc p;
  a7 ← tf_load (p_trapframe pr) TF_a7;
  let num := s32 a7 in
  match (if (0 <? num) && (num <? NELEM_syscalls) then syscalls num else None) with
  | Some handler =>
      r ← handler;
      pr ← get_proc p;
      tf_store (p_trapframe pr) TF_a0 (u64 r);;
      when (c_bool (Z.land (p_mask pr) (s32 (Z.shiftl 1 num))))
        (a0 ← tf_load (p_trapframe pr) TF_a0;
         printf (bytes_of_string "%d: syscall %s -> %ld" ++ [10])
           [AInt (p_pid pr); AStr (bytes_of_string <$> (syscall_list !! Z.to_nat num)); AInt a0];;
         mret tt)
  | None =>
      printf (bytes_of_string "%d %s: unknown sys call %d" ++ [10])
        [AInt (p_pid pr); AStr (Some (p_name pr)); AInt num];;
      tf_store (p_trapframe pr) TF_a0 (u64 (-1))
  end.
End syscall.
