(* ===== verification/SyscallProofs.v ===== *)
(** * System calls on open files, from the trap frame to the disk

    [syscall] finds its number and arguments in the trap frame and leaves the result in
    [a0]. Composed with [filewrite] and [fileread] (FileProofs), the system calls write and
    read refine the operations of the abstract file system; a bad descriptor is an error
    that changes nothing else. *)

From S2P Require Import Prelude Machine State Spinlock KString Kalloc Vm PageTable VmOps UserMem VmDemo Proc Sched Sleeplock Virtio VirtioProofs Bio LruProofs BlockSpec BioInv BioProofs BioBoot Log LogOps LogCommit LogTrans LogRecover LogSafe.
From S2P Require Import Uart Printf Console Fs FsData FsTx FsMap FsWrite FsInv FsRead FsSafe Pipe File FileProofs ProcFs Exec SysArg Sysfile Syscall.

(** ** Dispatch *)

(** Process [p] has made the system call [num] with the arguments [args] (from [a0] on); the
    call is not traced. *)
Record calling (s : kstate) (p : nat) (pr : proc) (num : Z) (args : list Z) : Prop := {
  ca_me : cur_proc s = Some p;
  ca_proc : proc_tab s !! p = Some pr;
  ca_cs : cs_ok 0 (cs s);
  ca_num : s32 (load64 (pmem s) (p_trapframe pr + TF_a7)) = num;
  ca_untraced : Z.land (p_mask pr) (s32 (Z.shiftl 1 num)) = 0;
  ca_args k x : args !! k = Some x → (k < 6)%nat ∧ load64 (pmem s) (p_trapframe pr + TF_a0 + 8 * Z.of_nat k) = x
}.

(** The state after a result was stored. *)
Definition returned (tf r : Z) (s : kstate) : kstate := set_pmem (store64 (pmem s) (tf + TF_a0) (u64 r)) s.

Section dispatch.
Context `{L : Layout} `{Oth : Others} `{B : BlockIO}.

Lemma calling_me {A} s p pr num args (k : nat → K A) : calling s p pr num args →
  (x ← myproc; x ← deref x; k x) s = k p s.
Proof. intros [Hp _ Hc _ _ _]. erewrite bind_ret; [|by apply (myproc_eq 0)]. rewrite Hp. by erewrite bind_ret. Qed.

Lemma calling_proc {A} s p pr num args (k : proc → K A) : calling s p pr num args →
  (pr ← get_proc p; k pr) s = k pr s.
Proof. intros [_ Hpr _ _ _ _]. erewrite bind_ret; [|reflexivity]. by rewrite (nth_lookup_Some _ _ _ _ Hpr). Qed.

Lemma argraw_eq s p pr num args k x : calling s p pr num args → args !! k = Some x → argraw (Z.of_nat k) s = Ret x s.
Proof.
  intros Hc Hx. unfold argraw. rewrite (calling_me _ _ _ _ _ _ Hc), (calling_proc _ _ _ _ _ _ Hc).
  destruct (ca_args _ _ _ _ _ Hc k x Hx) as [Hk E]. unfold tf_load, gets.
  do 6 (destruct k as [|k]; [rewrite <- Z.add_assoc in E; rewrite <- E; reflexivity|]).
  lia.
Qed.

Lemma argint_eq s p pr num args k x : calling s p pr num args → args !! k = Some x → argint (Z.of_nat k) s = Ret (s32 x) s.
Proof. intros Hc Hx. unfold argint. by erewrite bind_ret; [|by eapply argraw_eq]. Qed.

(** The descriptor in the register [k] is out of range or not open. *)
Definition bad_fd (pr : proc) (fd : Z) : Prop := ¬ 0 ≤ fd < NOFILE ∨ p_ofile pr !! Z.to_nat fd = Some None.

Lemma argfd_open s p pr num args k x f : calling s p pr num args → args !! k = Some x →
  0 ≤ x < NOFILE → p_ofile pr !! Z.to_nat x = Some (Some f) → argfd (Z.of_nat k) s = Ret (Some (x, f)) s.
Proof.
  intros Hc Hx Hr Hf. change NOFILE with 16 in Hr. unfold argfd, ofile_at. erewrite bind_ret; [|by eapply argint_eq].
  rewrite s32_small by lia. change NOFILE with 16. rewrite (proj2 (Z.ltb_ge _ _)), (proj2 (Z.leb_gt _ _)) by lia. cbn [orb].
  erewrite bind_ret; [|rewrite (calling_me _ _ _ _ _ _ Hc), (calling_proc _ _ _ _ _ _ Hc), Hf; reflexivity]. done.
Qed.
Lemma argfd_bad s p pr num args k x : calling s p pr num args → args !! k = Some x → bad_fd pr (s32 x) →
  argfd (Z.of_nat k) s = Ret None s.
Proof.
  intros Hc Hx Hb. unfold argfd, ofile_at. erewrite bind_ret; [|by eapply argint_eq].
  destruct (Z.ltb_spec (s32 x) 0) as [|H0]; [done|]. destruct (Z.leb_spec NOFILE (s32 x)) as [|H1]; [done|]. cbn [orb].
  destruct Hb as [?|Hf]; [lia|].
  erewrite bind_ret; [|rewrite (calling_me _ _ _ _ _ _ Hc), (calling_proc _ _ _ _ _ _ Hc), Hf; reflexivity]. done.
Qed.

(** [syscall] runs the handler and stores its result, if the handler leaves the process with
    its trap frame. *)
Lemma syscall_dispatch s p pr num args h (Q : kstate → Prop) :
  calling s p pr num args → 0 < num < NELEM_syscalls → syscalls num = Some h →
  wp h (λ r s', proc_tab s' !! p = Some pr ∧ Q (returned (p_trapframe pr) r s')) s → wp syscall (λ _, Q) s.
Proof.
  intros Hc Hn Hh Hw. unfold syscall.
  apply wp_bind. eapply wp_eq; [apply (myproc_eq 0), Hc|]. rewrite (ca_me _ _ _ _ _ Hc). apply wp_bind, wp_ret.
  apply wp_bind, wp_gets. rewrite (nth_lookup_Some _ _ _ _ (ca_proc _ _ _ _ _ Hc)). apply wp_bind, wp_gets. cbv zeta.
  rewrite (ca_num _ _ _ _ _ Hc). rewrite (proj2 (Z.ltb_lt _ _)), (proj2 (Z.ltb_lt _ _)) by lia. cbn [andb]. rewrite Hh.
  apply wp_bind. eapply wp_mono; [exact Hw|]. intros r s' [Hpr HQ]; cbn beta.
  apply wp_bind, wp_gets. rewrite (nth_lookup_Some _ _ _ _ Hpr). apply wp_bind, wp_modify.
  rewrite (ca_untraced _ _ _ _ _ Hc). apply wp_ret. exact HQ.
Qed.
End dispatch.

(** ** Open files *)

Section properties.
Context `{L : Layout} `{Oth : Others} `{VD : VirtioDev} {DE : DiskEnv}.

Lemma open_file_pmem V s S d0 f fl ip i m : open_file V s S d0 f fl ip i → open_file V (set_pmem m s) S d0 f fl ip i.
Proof. intros [[] Hon H1 H2 H3 H4 H5 H6 H7 H8]. split; try done; [split; try done; by apply law_pmem|by eapply file_on_state]. Qed.

(** C2. The system call write on a file refines the write to the abstract file system. The
    process asks for the [n] bytes at [addr] of its memory to be written to the descriptor
    [fd], which is open on a file; the disk holds the files [F]. [syscall] leaves [n] in
    [a0] of the trap frame and changes no other byte of memory; the offset of the open file
    moves by [n], and the disk then holds [F] with the bytes stored at the old offset of
    this file: no other file, no other inode has changed, and no block belongs to two files.
    The write is cut into transactions of at most [FILEWRITE_MAX] bytes; [c] of them are
    enough. *)
Theorem syscall_write_correct V s S d0 p pr fd f fl ip i F bs T addr bytes c :
  let n := Z.of_nat (length bytes) in
  calling s p pr (sysnum SYS_write) [fd; addr; n] → 0 ≤ fd < NOFILE → p_ofile pr !! Z.to_nat fd = Some (Some f) →
  open_file V s S d0 f fl ip i → f_writable fl ≠ 0 → user_space T (p_pagetable pr) s →
  fs_ok (klog s) S d0 (v_disk V) F → F !! i_inum i = Some (dinode_of i, bs) →
  0 ≤ addr → addr + n ≤ 2 ^ 64 → uread (pmem s) (p_pagetable pr) addr (length bytes) = Some bytes →
  30 ≤ l_size (klog s) → f_off fl + n ≤ MAXFILE * BSIZE → n ≤ Z.of_nat c * FILEWRITE_MAX →
  has_free S d0 (8 * c) (v_disk V) → (c * write_waits S 4 ≤ sched_left s)%nat →
  wp syscall (λ _ s', pmem s' = store64 (pmem s) (p_trapframe pr + TF_a0) n ∧ ∃ V' i',
    open_file V' s' S d0 f (set_f_off (f_off fl + n) fl) ip i' ∧
    wrote (klog s) S d0 (v_disk V) i (f_off fl) bytes (v_disk V') i' ∧
    fs_ok (klog s) S d0 (v_disk V') (put_file (i_inum i) (dinode_of i') (f_off fl) bytes F)) s.
Proof.
  intros n Hc Hfd Hf Hof Hwr Hus HFS HF Ha Hae Hrd Hsz He Hcc Hfr Hs.
  pose proof (of_off _ _ _ _ _ _ _ _ Hof). change (MAXFILE * BSIZE) with 274432 in *. change NOFILE with 16 in Hfd.
  eapply (syscall_dispatch s p pr (sysnum SYS_write) _ sys_write); [done|by vm_compute|reflexivity|]. unfold sys_write.
  apply wp_bind. eapply wp_eq; [by apply (argraw_eq s p pr _ _ 1 addr Hc)|].
  apply wp_bind. eapply wp_eq; [by apply (argint_eq s p pr _ _ 2 n Hc)|].
  apply wp_bind. eapply wp_eq; [by apply (argfd_open s p pr _ _ 0 fd f Hc)|]. cbn iota. rewrite s32_small by lia.
  eapply wp_mono; [by apply (filewrite_refines V s S d0 f fl ip i F bs T (p_pagetable pr) addr bytes c)|].
  intros r s' (-> & V' & i' & Hof' & W & HFS' & U1 & U2 & U3); cbn beta. split; [by rewrite U3; apply Hc|].
  unfold returned. cbn [pmem set_pmem]. rewrite U2, u64_small by lia. split; [done|]. exists V', i'.
  split_and!; [by apply open_file_pmem|done|done].
Qed.

(** C7. The system call read on a file refines the read of the abstract file system: [syscall]
    leaves [k] in [a0], the number of bytes from the offset to the end of the file, [n] at
    most; the memory of the process at [addr] holds these bytes of the file, no other byte
    of memory has changed, the offset has moved by [k], and the disk is as it was. *)
Theorem syscall_read_correct V s S d0 p pr fd f fl ip i F bs T addr n c m' :
  let k := Z.to_nat (Z.min n (Z.of_nat (length bs) - f_off fl)) in
  calling s p pr (sysnum SYS_read) [fd; addr; n] → 0 ≤ fd < NOFILE → p_ofile pr !! Z.to_nat fd = Some (Some f) →
  open_file V s S d0 f fl ip i → f_readable fl ≠ 0 → user_space T (p_pagetable pr) s →
  fs_ok (klog s) S d0 (v_disk V) F → F !! i_inum i = Some (dinode_of i, bs) →
  0 ≤ n < 2 ^ 31 → 0 ≤ addr → addr + Z.of_nat k ≤ 2 ^ 64 →
  uwrite (pmem s) (p_pagetable pr) addr (take k (drop (Z.to_nat (f_off fl)) bs)) = Some m' →
  f_off fl mod BSIZE + Z.of_nat k ≤ Z.of_nat c * BSIZE → (2 * c ≤ sched_left s)%nat →
  wp syscall (λ _ s', pmem s' = store64 m' (p_trapframe pr + TF_a0) (Z.of_nat k) ∧
    open_file V s' S d0 f (set_f_off (f_off fl + Z.of_nat k) fl) ip i) s.
Proof.
  intros k Hc Hfd Hf Hof Hrd Hus HFS HF Hn Ha Hae Hw Hcc Hs.
  eapply (syscall_dispatch s p pr (sysnum SYS_read) _ sys_read); [done|by vm_compute|reflexivity|]. unfold sys_read.
  apply wp_bind. eapply wp_eq; [by apply (argraw_eq s p pr _ _ 1 addr Hc)|].
  apply wp_bind. eapply wp_eq; [by apply (argint_eq s p pr _ _ 2 n Hc)|].
  apply wp_bind. eapply wp_eq; [by apply (argfd_open s p pr _ _ 0 fd f Hc)|]. cbn iota. rewrite s32_small by lia.
  eapply wp_mono; [by apply (fileread_refines V s S d0 f fl ip i F bs T (p_pagetable pr) addr n c m')|].
  intros r s' (-> & (U1 & U2 & U3) & Hof'); cbn beta. split; [rewrite U3; apply Hc|].
  unfold returned. cbn [pmem set_pmem] in *. rewrite U2, u64_small by lia. split; [done|]. by apply open_file_pmem.
Qed.

(** C31. A bad descriptor is an error that has no other effect. If [fd] is out of range or not
    open, the system calls read, write, close, dup and fstat leave -1 in [a0] and the whole
    state as it was otherwise. *)
Theorem syscall_bad_fd s p pr c fd addr n :
  c ∈ [SYS_read; SYS_write; SYS_close; SYS_dup; SYS_fstat] →
  calling s p pr (sysnum c) [fd; addr; n] → bad_fd pr (s32 fd) →
  syscall s = Ret tt (set_pmem (store64 (pmem s) (p_trapframe pr + TF_a0) (2 ^ 64 - 1)) s).
Proof.
  intros Hin Hc Hbad. pose proof (argfd_bad s p pr _ _ 0 fd Hc eq_refl Hbad : argfd 0 s = Ret None s) as Ea.
  assert (wp syscall (λ _ s', s' = returned (p_trapframe pr) (-1) s) s) as Hw.
  { assert (∃ h, syscalls (sysnum c) = Some h ∧ h s = Ret (-1) s) as (h & Hh & Eh).
    { pose proof (argraw_eq s p pr _ _ 1 addr Hc eq_refl) as E1. pose proof (argint_eq s p pr _ _ 2 n Hc eq_refl) as E2.
      rewrite !elem_of_cons, elem_of_nil in Hin. destruct Hin as [-> | [-> | [-> | [-> | [-> | []]]]]].
      - exists sys_read. split; [reflexivity|]. unfold sys_read, argaddr. do 3 (erewrite bind_ret; [|first [exact E1|exact E2|exact Ea]]). done.
      - exists sys_write. split; [reflexivity|]. unfold sys_write, argaddr. do 3 (erewrite bind_ret; [|first [exact E1|exact E2|exact Ea]]). done.
      - exists sys_close. split; [reflexivity|]. unfold sys_close. by erewrite bind_ret; [|exact Ea].
      - exists sys_dup. split; [reflexivity|]. unfold sys_dup. by erewrite bind_ret; [|exact Ea].
      - exists sys_fstat. split; [reflexivity|]. unfold sys_fstat, argaddr. do 2 (erewrite bind_ret; [|first [exact E1|exact Ea]]). done. }
    eapply (syscall_dispatch s p pr (sysnum c)); [exact Hc|by destruct c|exact Hh|]. eapply wp_eq; [exact Eh|]. split; [apply Hc|done]. }
  apply wp_elim in Hw as ([] & s' & -> & ->). done.
Qed.
End properties.

#[local] Existing Instances layout_ex disk_others plain_dev disk_others_env.

(** ** The machine of FileProofs, whose descriptor 3 is the file, in a system call *)

Definition demo_frame (num fd addr n : Z) : list Z :=
  le_bytes 8 fd ++ le_bytes 8 addr ++ le_bytes 8 n ++ replicate 32 0 ++ le_bytes 8 num.
Definition demo_call (num fd addr n : Z) : mem := blit demo_mem (0x87ffb000 + TF_a0) (demo_frame num fd addr n).
Definition demo_pr : proc := demo_me (nth 1 (proc_tab pdemo) proc0).

Lemma demo_call_data num fd addr n : user_data demo_T demo_rootA (demo_call num fd addr n).
Proof.
  apply user_data_blit; [reflexivity|exact demo_user_data|]. intros i Hi.
  assert (length (demo_frame num fd addr n) = 64%nat) as Hl by reflexivity. rewrite Hl in Hi.
  replace (pg (0x87ffb000 + TF_a0 + Z.of_nat i)) with 0x87ffb000; [by vm_compute|]. unfold TF_a0, pg, PGSIZE. dlia.
Qed.

Lemma demo_calling num fd addr n k :
  Z.land 0 (s32 (Z.shiftl 1 num)) = 0 →
  s32 (load64 (demo_call num fd addr n) (0x87ffb000 + TF_a7)) = num →
  load64 (demo_call num fd addr n) (0x87ffb000 + TF_a0 + 0) = fd →
  load64 (demo_call num fd addr n) (0x87ffb000 + TF_a0 + 8) = addr →
  load64 (demo_call num fd addr n) (0x87ffb000 + TF_a0 + 16) = n →
  ∃ s, pmem s = demo_call num fd addr n ∧ calling s 1 demo_pr num [fd; addr; n] ∧
    open_file (view_of demo_fs_disk) s demo_sb 35 0 demo_file 0 demo_inode ∧
    user_space demo_T demo_rootA s ∧ klog s = demo_log 0 [] ∧ sched_left s = k.
Proof.
  intros Hu Hn H0 H1 H2. destruct (demo_open k) as (s & Hof & [HT _ Hpr] & Hpm & Hk & Hs & Hp & Ht).
  exists (set_pmem (demo_call num fd addr n) s). split_and!; [reflexivity| |by apply open_file_pmem| |exact Hk|exact Hs].
  - split; [exact Hp|exact Ht|apply (law_env _ _ (ar_inv _ _ (of_rest _ _ _ _ _ _ _ _ Hof)))|exact Hn|exact Hu|].
    intros [|[|[|j]]] x [= <-]; (split; [lia|done]).
  - split; [exact HT|apply demo_call_data|exact Hpr].
Qed.

(** write(3, 0xffe, 3): the string [hi] with its NUL, which crosses a page, goes to offset 2
    of the file [hello]. *)
Lemma syscall_write_correct_witness :
  ∃ s, pmem s = demo_call 16 3 0xffe 3 ∧ wp syscall (λ _ s', load64 (pmem s') (0x87ffb000 + TF_a0) = 3 ∧ ∃ V' d',
    fs_ok (demo_log 0 []) demo_sb 35 (v_disk V') {[ 5 := (d', [104; 101; 104; 105; 0]) ]}) s.
Proof.
  destruct (demo_calling 16 3 0xffe 3 200 eq_refl) as (s & Hpm & Hc & Hof & Hus & Hk & Hs); [vm_compute; reflexivity..|].
  exists s. split; [exact Hpm|]. eapply wp_mono.
  { apply (syscall_write_correct (view_of demo_fs_disk) s demo_sb 35 1 demo_pr 3 0 demo_file 0 demo_inode demo_files [104; 101; 108; 108; 111] demo_T 0xffe [104; 105; 0] 1 Hc).
    - by vm_compute.
    - reflexivity.
    - exact Hof.
    - discriminate.
    - exact Hus.
    - apply demo_files_ok; [exact Hk|apply Hof].
    - reflexivity.
    - lia.
    - cbn. lia.
    - rewrite Hpm. vm_compute. reflexivity.
    - rewrite Hk. cbn. lia.
    - by vm_compute.
    - by vm_compute.
    - exact demo_has_free8.
    - rewrite Hs. vm_compute. lia. }
  intros r s' (Hm & V' & i' & _ & _ & HFS). rewrite Hm. split; [exact (load64_store64_eq (pmem s) (0x87ffb000 + TF_a0) 3)|].
  exists V', (dinode_of i'). rewrite Hk in HFS. exact HFS.
Defined.

(** read(3, 0x10, 100) at offset 2 delivers [llo]. *)
Lemma syscall_read_correct_witness :
  ∃ s m', uwrite (pmem s) demo_rootA 0x10 [108; 108; 111] = Some m' ∧
    wp syscall (λ _ s', pmem s' = store64 m' (0x87ffb000 + TF_a0) 3) s.
Proof.
  destruct (demo_calling 5 3 0x10 100 200 eq_refl) as (s & Hpm & Hc & Hof & Hus & Hk & Hs); [vm_compute; reflexivity..|].
  assert (match uwrite (demo_call 5 3 0x10 100) demo_rootA 0x10 [108; 108; 111] with Some _ => true | None => false end = true) as Hw
    by (vm_compute; reflexivity).
  destruct (uwrite (demo_call 5 3 0x10 100) demo_rootA 0x10 [108; 108; 111]) as [m'|] eqn:Hm'; [|discriminate].
  exists s, m'. split; [rewrite Hpm; exact Hm'|]. eapply wp_mono.
  { apply (syscall_read_correct (view_of demo_fs_disk) s demo_sb 35 1 demo_pr 3 0 demo_file 0 demo_inode demo_files [104; 101; 108; 108; 111] demo_T 0x10 100 1 m' Hc).
    - change NOFILE with 16. lia.
    - reflexivity.
    - exact Hof.
    - discriminate.
    - exact Hus.
    - apply demo_files_ok; [exact Hk|apply Hof].
    - reflexivity.
    - lia.
    - lia.
    - cbn. lia.
    - rewrite Hpm. exact Hm'.
    - vm_compute. discriminate.
    - rewrite Hs. lia. }
  intros r s' [Hm _]. exact Hm.
Defined.

(** write(7, ...): the descriptor is not open; close(-1): it is out of range. *)
Lemma syscall_bad_fd_witness :
  (∃ s, pmem s = demo_call 16 7 0 1 ∧
    syscall s = Ret tt (set_pmem (store64 (pmem s) (0x87ffb000 + TF_a0) (2 ^ 64 - 1)) s)) ∧
  ∃ s, pmem s = demo_call 21 (2 ^ 64 - 1) 0 0 ∧
    syscall s = Ret tt (set_pmem (store64 (pmem s) (0x87ffb000 + TF_a0) (2 ^ 64 - 1)) s).
Proof.
  split.
  - destruct (demo_calling 16 7 0 1 0 eq_refl) as (s & Hpm & Hc & _); [vm_compute; reflexivity..|].
    exists s. split; [exact Hpm|]. apply (syscall_bad_fd s 1 demo_pr SYS_write 7 0 1); [set_solver|exact Hc|right; vm_compute; reflexivity].
  - destruct (demo_calling 21 (2 ^ 64 - 1) 0 0 0 eq_refl) as (s & Hpm & Hc & _); [vm_compute; reflexivity..|].
    exists s. split; [exact Hpm|]. apply (syscall_bad_fd s 1 demo_pr SYS_close (2 ^ 64 - 1) 0 0); [set_solver|exact Hc|].
    left. vm_compute. intros [H _]. by apply H.
Defined.
