(* ===== verification/Asm.v ===== *)
(** * The assembly: kernel/swtch.S, trampoline.S, kernelvec.S, entry.S, user/initcode.S, usys.pl

    A machine with the registers, the control registers these files use, the memory and
    the address of the next code to run. Loads and stores go through the page table that
    [satp] names. The files are lists of instructions, run one after the other; a jump ends
    the list and sets [a_pc]. *)

From S2P Require Import Prelude Machine State Spinlock KString Kalloc Vm PageTable.

Inductive reg :=
  | ra | sp | gp | tp | t0 | t1 | t2 | t3 | t4 | t5 | t6
  | s0 | s1 | s2 | s3 | s4 | s5 | s6 | s7 | s8 | s9 | s10 | s11
  | a0 | a1 | a2 | a3 | a4 | a5 | a6 | a7.
Global Instance reg_eq_dec : EqDecision reg.
Proof. solve_decision. Defined.

Definition all_regs : list reg :=
  [ra; sp; gp; tp; t0; t1; t2; t3; t4; t5; t6; s0; s1; s2; s3; s4; s5; s6; s7; s8; s9; s10; s11;
   a0; a1; a2; a3; a4; a5; a6; a7].

Inductive csr := sscratch | satp | sepc | mhartid.
Global Instance csr_eq_dec : EqDecision csr.
Proof. solve_decision. Defined.

Record amach := Mk_amach { a_regs : reg → Z; a_csrs : csr → Z; a_mem : mem; a_pc : Z }.

Definition rset {A B} `{EqDecision A} (f : A → B) (x : A) (v : B) : A → B := λ y, if decide (y = x) then v else f y.
Definition set_reg (r : reg) (v : Z) (s : amach) : amach := Mk_amach (rset (a_regs s) r v) (a_csrs s) (a_mem s) (a_pc s).
Definition set_csr (c : csr) (v : Z) (s : amach) : amach := Mk_amach (a_regs s) (rset (a_csrs s) c v) (a_mem s) (a_pc s).
Definition set_amem (m : mem) (s : amach) : amach := Mk_amach (a_regs s) (a_csrs s) m (a_pc s).
Definition set_pc (v : Z) (s : amach) : amach := Mk_amach (a_regs s) (a_csrs s) (a_mem s) v.

(** The physical address of [va] for an access of the supervisor that needs [perm]. All
    leaves of xv6's page tables are at the last level. *)
Definition xlat (m : mem) (stp perm va : Z) : option Z :=
  if stp =? 0 then Some va
  else
    let pte := pte_of m ((stp mod 2 ^ 44) * PGSIZE) va in
    if (Z.shiftr stp 60 =? 8) && (0 <=? va) && (va <? MAXVA) && has pte PTE_V && has pte perm && negb (has pte PTE_U)
    then Some (PTE2PA pte + va mod PGSIZE) else None.

Inductive instr :=
  | SD (r : reg) (off : Z) (b : reg)      (** sd r, off(b) *)
  | LD (r : reg) (off : Z) (b : reg)
  | LI (r : reg) (v : Z)                  (** li, la *)
  | ADDI (r s : reg) (v : Z)
  | ADD (r s t : reg)
  | MUL (r s t : reg)
  | CSRW (c : csr) (r : reg)
  | CSRR (r : reg) (c : csr)
  | SFENCE                                (** sfence.vma zero, zero *)
  | JR (r : reg)
  | RET
  | SRET.

Definition step (i : instr) (s : amach) : option amach :=
  match i with
  | SD r off b => pa ← xlat (a_mem s) (a_csrs s satp) PTE_W (u64 (a_regs s b + off));
                  Some (set_amem (store64 (a_mem s) pa (a_regs s r)) s)
  | LD r off b => pa ← xlat (a_mem s) (a_csrs s satp) PTE_R (u64 (a_regs s b + off));
                  Some (set_reg r (load64 (a_mem s) pa) s)
  | LI r v => Some (set_reg r (u64 v) s)
  | ADDI r t v => Some (set_reg r (u64 (a_regs s t + v)) s)
  | ADD r t u => Some (set_reg r (u64 (a_regs s t + a_regs s u)) s)
  | MUL r t u => Some (set_reg r (u64 (a_regs s t * a_regs s u)) s)
  | CSRW c r => Some (set_csr c (a_regs s r) s)
  | CSRR r c => Some (set_reg r (a_csrs s c) s)
  | SFENCE => Some s
  | JR r => Some (set_pc (a_regs s r) s)
  | RET => Some (set_pc (a_regs s ra) s)
  | SRET => Some (set_pc (a_csrs s sepc) s)
  end.

Fixpoint run (l : list instr) (s : amach) : option amach :=
  match l with [] => Some s | i :: l' => s' ← step i s; run l' s' end.

(** [sd r, off(b)] and [ld r, off(b)] for each entry of a table. *)
Definition saves (b : reg) (l : list (reg * Z)) : list instr := (λ e, SD (fst e) (snd e) b) <$> l.
Definition loads (b : reg) (l : list (reg * Z)) : list instr := (λ e, LD (fst e) (snd e) b) <$> l.

(** ** kernel/swtch.S *)

Definition context_slots : list (reg * Z) :=
  [(ra, 0); (sp, 8); (s0, 16); (s1, 24); (s2, 32); (s3, 40); (s4, 48); (s5, 56); (s6, 64); (s7, 72); (s8, 80);
   (s9, 88); (s10, 96); (s11, 104)].
Definition swtch_code : list instr := saves a0 context_slots ++ loads a1 context_slots ++ [RET].

(** ** kernel/trampoline.S *)

(** All registers but [a0], which is at offset 112 of the trap frame. *)
Definition user_slots : list (reg * Z) :=
  [(ra, 40); (sp, 48); (gp, 56); (tp, 64); (t0, 72); (t1, 80); (t2, 88); (s0, 96); (s1, 104);
   (a1, 120); (a2, 128); (a3, 136); (a4, 144); (a5, 152); (a6, 160); (a7, 168);
   (s2, 176); (s3, 184); (s4, 192); (s5, 200); (s6, 208); (s7, 216); (s8, 224); (s9, 232); (s10, 240); (s11, 248);
   (t3, 256); (t4, 264); (t5, 272); (t6, 280)].

Definition uservec : list instr :=
  [CSRW sscratch a0; LI a0 TRAPFRAME] ++
  saves a0 user_slots ++
  [CSRR t0 sscratch; SD t0 112 a0;
   LD sp 8 a0; LD tp 32 a0; LD t0 16 a0; LD t1 0 a0;
   SFENCE; CSRW satp t1; SFENCE;
   JR t0].

Definition userret : list instr :=
  [SFENCE; CSRW satp a0; SFENCE; LI a0 TRAPFRAME] ++
  loads a0 user_slots ++
  [LD a0 112 a0; SRET].

(** ** kernel/kernelvec.S *)

Definition kernel_slots : list (reg * Z) :=
  [(ra, 0); (sp, 8); (gp, 16); (tp, 24); (t0, 32); (t1, 40); (t2, 48);
   (a0, 72); (a1, 80); (a2, 88); (a3, 96); (a4, 104); (a5, 112); (a6, 120); (a7, 128);
   (t3, 216); (t4, 224); (t5, 232); (t6, 240)].
(** All but [tp] are restored. *)
Definition kernel_restores : list (reg * Z) :=
  [(ra, 0); (sp, 8); (gp, 16); (t0, 32); (t1, 40); (t2, 48);
   (a0, 72); (a1, 80); (a2, 88); (a3, 96); (a4, 104); (a5, 112); (a6, 120); (a7, 128);
   (t3, 216); (t4, 224); (t5, 232); (t6, 240)].

(** [kerneltrap] is C code (Trap), here a change of the machine. *)
Definition kernelvec (kerneltrap : amach → option amach) (s : amach) : option amach :=
  s ← run (ADDI sp sp (-256) :: saves sp kernel_slots) s;
  s ← kerneltrap s;
  run (loads sp kernel_restores ++ [ADDI sp sp 256; SRET]) s.

(** ** kernel/entry.S: up to the call of [start] *)

Definition entry_code (stack0 : Z) : list instr :=
  [LI sp stack0; LI a0 (1024 * 4); CSRR a1 mhartid; ADDI a1 a1 1; MUL a0 a0 a1; ADD sp sp a0].

(** ** user/usys.pl: the stub of a system call, up to its [ecall] and after it *)

Definition stub_call (num : Z) : list instr := [LI a7 num].
Definition stub_return : list instr := [RET].

(** ** user/initcode.S, as the bytes of [initcode] in kernel/proc.c *)

(** The instructions it consists of. *)
Inductive uinstr := AUIPC (r : Z) (v : Z) | UADDI (r s v : Z) | ECALL | JAL (r v : Z).

Definition sext (bits v : Z) : Z := (v + 2 ^ (bits - 1)) mod 2 ^ bits - 2 ^ (bits - 1).

Definition decode (w : Z) : option uinstr :=
  let opc := w mod 128 in
  let rd := Z.shiftr w 7 mod 32 in
  if opc =? 0x17 then Some (AUIPC rd (Z.shiftl (Z.shiftr w 12) 12))
  else if (opc =? 0x13) && (Z.shiftr w 12 mod 8 =? 0) then Some (UADDI rd (Z.shiftr w 15 mod 32) (sext 12 (Z.shiftr w 20)))
  else if w =? 0x73 then Some ECALL
  else if opc =? 0x6f then
    Some (JAL rd (sext 21 (Z.shiftl (Z.shiftr w 31 mod 2) 20 + Z.shiftl (Z.shiftr w 12 mod 256) 12 +
                            Z.shiftl (Z.shiftr w 20 mod 2) 11 + Z.shiftl (Z.shiftr w 21 mod 1024) 1)))
  else None.

(** Runs the bytes [code], loaded at address 0, from [pc] on until an [ecall]; the registers
    by their numbers, register 0 is always 0. *)
Fixpoint urun (fuel : nat) (code : list Z) (pc : Z) (regs : Z → Z) : option (Z * (Z → Z)) :=
  match fuel with
  | O => None
  | S f =>
      let get r := if r =? 0 then 0 else regs r in
      let set r v := if r =? 0 then regs else rset regs r (u64 v) in
      match decode (le_val (take 4 (drop (Z.to_nat pc) code))) with
      | Some (AUIPC r v) => urun f code (pc + 4) (set r (pc + v))
      | Some (UADDI r s v) => urun f code (pc + 4) (set r (get s + v))
      | Some (JAL r v) => urun f code (pc + v) (set r (pc + 4))
      | Some ECALL => Some (pc, regs)
      | None => None
      end
  end.
