(* ===== verification/AsmProofs.v ===== *)
(** * What the assembly does to registers and memory

    A [view] is a range of addresses that the page table maps to a range of physical memory
    outside the page tables. Registers saved in a view are loaded back; so [swtch] returns
    when its caller is switched to again, and a trap leaves the user's registers as they
    were. *)

From S2P Require Import Prelude Machine State Spinlock KString Kalloc Vm PageTable VmDemo VmOps Asm.

Section asm.
Context `{L : Layout}.

Record view (T : gmap Z nat) (m : mem) (stp v p n : Z) : Prop := {
  vw_wf : pt_wf m T;
  vw_root : ∃ root, stp = MAKE_SATP root ∧ T !! root = Some 2%nat;
  vw_low : 0 ≤ v ∧ v + n ≤ MAXVA;
  vw_leaf o : 0 ≤ o < n → ∀ root, stp = MAKE_SATP root → T !! root = Some 2%nat →
    let pte := pte_of m root (v + o) in
    has pte PTE_V = true ∧ has pte PTE_R = true ∧ has pte PTE_W = true ∧ has pte PTE_U = false ∧
    PTE2PA pte + (v + o) mod PGSIZE = p + o;
  vw_data o : 0 ≤ o < n → T !! pg (p + o) = None;
  vw_align : p mod 8 = 0
}.

Lemma satp_root root : page_ok root → (MAKE_SATP root mod 2 ^ 44) * PGSIZE = root ∧ Z.shiftr (MAKE_SATP root) 60 = 8 ∧ MAKE_SATP root ≠ 0.
Proof.
  intros Hr. pose proof (page_range root Hr) as Hrange. destruct Hr as [Hal _]. unfold MAKE_SATP, SATP_SV39.
  rewrite (Z.shiftr_div_pow2 root 12) by lia. set (q := root / 2 ^ 12).
  assert (0 ≤ q < 2 ^ 20) as Hq by (unfold q; change (2 ^ 12) with 4096; change (2 ^ 20) with 1048576; dlia).
  assert (Z.lor (Z.shiftl 8 60) q = 2 ^ 63 + q) as ->.
  { change (Z.shiftl 8 60) with (2 ^ 63). symmetry. apply Z.add_nocarry_lor. apply Z.bits_inj'. intros k Hk.
    rewrite Z.land_spec, Z.bits_0, Z.pow2_bits_eqb by lia. destruct (Z.eqb_spec 63 k) as [<-|]; [|done].
    rewrite <- (Z.mod_small q (2 ^ 20)) by done. by rewrite Z.mod_pow2_bits_high. }
  split_and!.
  - replace (2 ^ 63 + q) with (q + 2 ^ 19 * 2 ^ 44) by lia. rewrite Z.mod_add, Z.mod_small by lia. unfold q, PGSIZE in *. change (2 ^ 12) with 4096. dlia.
  - rewrite Z.shiftr_div_pow2 by lia. replace (2 ^ 63 + q) with (q + 8 * 2 ^ 60) by lia. rewrite Z.div_add, Z.div_small by lia. done.
  - lia.
Qed.

Lemma view_xlat T m stp v p n o perm :
  view T m stp v p n → 0 ≤ o < n → perm = PTE_R ∨ perm = PTE_W → xlat m stp perm (v + o) = Some (p + o).
Proof.
  intros V Ho Hp. destruct (vw_root _ _ _ _ _ _ V) as (root & E & HT).
  destruct (vw_leaf _ _ _ _ _ _ V o Ho root E HT) as (H1 & H2 & H3 & H4 & H5). cbv zeta in *.
  pose proof (pt_page _ _ (vw_wf _ _ _ _ _ _ V) _ _ HT) as Hok. destruct (satp_root root Hok) as (R1 & R2 & R3).
  destruct (vw_low _ _ _ _ _ _ V) as [L1 L2].
  unfold xlat. rewrite E. rewrite (proj2 (Z.eqb_neq _ _)) by done. rewrite R1, R2, H1, H4.
  rewrite (proj2 (Z.leb_le 0 (v + o))), (proj2 (Z.ltb_lt (v + o) MAXVA)) by lia.
  destruct Hp as [-> | ->]; rewrite ?H2, ?H3; cbn [Z.eqb Pos.eqb andb negb]; by rewrite H5.
Qed.

(** A store to data changes no view. *)
Lemma view_store64 T m stp v p n x w :
  view T m stp v p n → T !! pg x = None → x mod 8 = 0 → 0 ≤ x → view T (store64 m x w) stp v p n.
Proof.
  intros V Hx Hal H0. assert (agree (is_table T) m (store64 m x w)) as Hag.
  { apply agree_sym. eapply agree_mono; [apply (agree_store64 m (pg x))|].
    - unfold pg, PGSIZE. dlia.
    - unfold pg, PGSIZE. dlia.
    - unfold pg, PGSIZE in *. dlia.
    - intros q [l Hq] ->. congruence. }
  destruct V as [V1 V2 V3 V4 V5 V6]. split; try done.
  - by eapply pt_wf_agree.
  - intros o Ho root E HT. cbv zeta. assert (pte_of (store64 m x w) root (v + o) = pte_of m root (v + o)) as ->; [|by apply V4].
    unfold pte_of. by destruct (wlk_agree _ _ T 2 root (v + o) Hag V1 HT) as [_ ->].
Qed.

(** A range within a page that is mapped readable and writable, for the supervisor only. *)
Lemma page_view T m root v pa n :
  pt_wf m T → T !! root = Some 2%nat → 0 ≤ v → 0 < n → v mod PGSIZE + n ≤ PGSIZE → v + n ≤ MAXVA →
  pte_of m root v = leaf pa (Z.lor PTE_R PTE_W) → page_ok pa → T !! pa = None → v mod 8 = 0 →
  view T m (MAKE_SATP root) v (pa + v mod PGSIZE) n.
Proof.
  intros Hwf HT Hv Hn Hfit Hmax Hpte Hpa Hdata Hal. pose proof (page_range pa Hpa) as Hr. destruct Hpa as [Hpal _].
  assert (MAXVA = 2 ^ 38) as EM by done. change PGSIZE with 4096 in *.
  split; [done|by exists root|lia| | |dlia].
  - intros o Ho root' E HT'. cbv zeta.
    assert (root' = root) as -> by (destruct (satp_root root) as [<- _]; [by eapply (pt_page _ _ Hwf)|];
      destruct (satp_root root') as [<- _]; [by eapply (pt_page _ _ Hwf)|]; by rewrite E).
    rewrite (pte_of_page m root (v + o) v), Hpte by (change PGSIZE with 4096; dlia).
    assert (0 ≤ pa < 2 ^ 64) by lia. assert (0 ≤ Z.lor PTE_R PTE_W < 1024) by done.
    rewrite !leaf_has, leaf_pa by done. split_and!; try done. change PGSIZE with 4096. dlia.
  - intros o Ho. assert (pg (pa + v mod 4096 + o) = pa) as ->; [|done]. apply pg_in; change PGSIZE with 4096; dlia.
Qed.

(** ** Saving and loading registers *)

(** Slots of 8 bytes, all different, in [n] bytes. *)
Record slots_ok (l : list (reg * Z)) (n : Z) : Prop := {
  sk_off r o : (r, o) ∈ l → 0 ≤ o ∧ o + 8 ≤ n ∧ o mod 8 = 0;
  sk_regs : NoDup l.*1;
  sk_offs : NoDup l.*2
}.

Fixpoint save_regs (R : reg → Z) (p : Z) (l : list (reg * Z)) (m : mem) : mem :=
  match l with [] => m | e :: l' => save_regs R p l' (store64 m (p + snd e) (R (fst e))) end.

Fixpoint load_regs (m : mem) (p : Z) (l : list (reg * Z)) (R : reg → Z) : reg → Z :=
  match l with [] => R | e :: l' => load_regs m p l' (rset R (fst e) (load64 m (p + snd e))) end.

Lemma run_app l1 l2 s : run (l1 ++ l2) s = (s' ← run l1 s; run l2 s').
Proof. revert s. induction l1 as [|i l1 IH]; intros s; [done|]. cbn [app run]. destruct (step i s); [apply IH|done]. Qed.

Lemma step_sd T s v p n r o b :
  view T (a_mem s) (a_csrs s satp) v p n → a_regs s b = v → 0 ≤ o → o + 8 ≤ n →
  step (SD r o b) s = Some (set_amem (store64 (a_mem s) (p + o) (a_regs s r)) s).
Proof.
  intros V Hb H1 H2. destruct (vw_low _ _ _ _ _ _ V). cbn [step]. rewrite Hb. assert (MAXVA = 2 ^ 38) by done.
  rewrite u64_small by lia. rewrite (view_xlat T _ _ v p n) by (done || lia || tauto). done.
Qed.

Lemma step_ld T s v p n r o b :
  view T (a_mem s) (a_csrs s satp) v p n → a_regs s b = v → 0 ≤ o → o + 8 ≤ n →
  step (LD r o b) s = Some (set_reg r (load64 (a_mem s) (p + o)) s).
Proof.
  intros V Hb H1 H2. destruct (vw_low _ _ _ _ _ _ V). cbn [step]. rewrite Hb. assert (MAXVA = 2 ^ 38) by done.
  rewrite u64_small by lia. rewrite (view_xlat T _ _ v p n) by (done || lia || tauto). done.
Qed.

Lemma view_slot T m stp v p n w n' v' p' o :
  view T m stp v p n → view T m stp v' p' n' → 0 ≤ o → o + 8 ≤ n → o mod 8 = 0 → 0 ≤ p → view T (store64 m (p + o) w) stp v' p' n'.
Proof.
  intros V V' H1 H2 H3 H4. apply view_store64; [done|apply (vw_data _ _ _ _ _ _ V); lia| |lia].
  pose proof (vw_align _ _ _ _ _ _ V). dlia.
Qed.

Lemma run_saves T s v p n b l :
  view T (a_mem s) (a_csrs s satp) v p n → a_regs s b = v → (∀ r o, (r, o) ∈ l → 0 ≤ o ∧ o + 8 ≤ n ∧ o mod 8 = 0) → 0 ≤ p →
  run (saves b l) s = Some (set_amem (save_regs (a_regs s) p l (a_mem s)) s) ∧
  ∀ v' p' n', view T (a_mem s) (a_csrs s satp) v' p' n' → view T (save_regs (a_regs s) p l (a_mem s)) (a_csrs s satp) v' p' n'.
Proof.
  revert s. induction l as [|[r o] l IH]; intros s V Hb Hl Hp; cbn [saves fmap list_fmap run save_regs fst snd].
  - split; [by destruct s|done].
  - destruct (Hl r o) as (H1 & H2 & H3); [apply elem_of_cons; by left|]. rewrite (step_sd T s v p n) by done. cbn [mbind option_bind].
    destruct (IH (set_amem (store64 (a_mem s) (p + o) (a_regs s r)) s)) as [E V']; cbn [a_mem a_csrs a_regs set_amem].
    + by eapply view_slot.
    + done.
    + intros r' o' Hin. apply (Hl r'), elem_of_cons. by right.
    + done.
    + unfold saves in E. rewrite E. split; [done|]. intros v' p' n' Vv. cbn [a_mem a_csrs a_regs set_amem] in V'. apply V'. by eapply view_slot.
Qed.

Lemma run_loads T s v p n b l :
  view T (a_mem s) (a_csrs s satp) v p n → a_regs s b = v → (∀ r o, (r, o) ∈ l → 0 ≤ o ∧ o + 8 ≤ n ∧ o mod 8 = 0) →
  (∀ o, (b, o) ∈ l → load64 (a_mem s) (p + o) = v) →
  run (loads b l) s = Some (Mk_amach (load_regs (a_mem s) p l (a_regs s)) (a_csrs s) (a_mem s) (a_pc s)).
Proof.
  revert s. induction l as [|[r o] l IH]; intros s V Hb Hl Hbl; cbn [loads fmap list_fmap run load_regs fst snd].
  - by destruct s.
  - destruct (Hl r o) as (H1 & H2 & H3); [apply elem_of_cons; by left|]. rewrite (step_ld T s v p n) by done. cbn [mbind option_bind].
    unfold loads in IH. rewrite IH; cbn [a_mem a_csrs a_regs set_reg a_pc]; [done|done| | |].
    + unfold rset. case_decide as E; [|done]. apply Hbl. subst b. apply elem_of_cons. by left.
    + intros r' o' Hin. apply (Hl r'), elem_of_cons. by right.
    + intros o' Hin. apply Hbl, elem_of_cons. by right.
Qed.

Lemma save_regs_other R p l m x :
  (∀ o, o ∈ l.*2 → x + 8 ≤ p + o ∨ p + o + 8 ≤ x) → load64 (save_regs R p l m) x = load64 m x.
Proof.
  revert m. induction l as [|[r o] l IH]; intros m Hx; cbn [save_regs fst snd]; [done|].
  rewrite IH by (intros o' Ho'; apply Hx, elem_of_cons; by right). apply load64_store64_ne.
  assert (x + 8 ≤ p + o ∨ p + o + 8 ≤ x) by (apply Hx, elem_of_cons; by left). lia.
Qed.

Lemma save_regs_get R p l n m r o : slots_ok l n → (r, o) ∈ l → load64 (save_regs R p l m) (p + o) = u64 (R r).
Proof.
  intros [H1 H2 H3]. revert m. induction l as [|[r' o'] l IH]; intros m; [by intros ?%not_elem_of_nil|].
  cbn [save_regs fst snd fmap list_fmap] in *. apply NoDup_cons in H2 as [N1 H2]. apply NoDup_cons in H3 as [N2 H3].
  intros [[= -> ->]|Hin]%elem_of_cons.
  - rewrite save_regs_other; [apply load64_store64_eq|]. intros x Hx.
    assert (x ≠ o') by (by intros ->). apply list_elem_of_fmap in Hx as ([r2 x2] & -> & Hx).
    destruct (H1 r2 x2) as (? & ? & ?); [apply elem_of_cons; by right|]. destruct (H1 r' o') as (? & ? & ?); [apply elem_of_cons; by left|]. cbn in *. dlia.
  - apply IH; try done. intros a b Hab. apply (H1 a), elem_of_cons. by right.
Qed.

Lemma load_regs_other m p l R r : r ∉ l.*1 → load_regs m p l R r = R r.
Proof.
  revert R. induction l as [|[r' o'] l IH]; intros R Hr; cbn [load_regs fst snd fmap list_fmap] in *; [done|].
  apply not_elem_of_cons in Hr as [Hne Hr]. rewrite IH by done. unfold rset. by rewrite decide_False.
Qed.

Lemma load_regs_get m p l R r o : NoDup l.*1 → (r, o) ∈ l → load_regs m p l R r = load64 m (p + o).
Proof.
  revert R. induction l as [|[r' o'] l IH]; intros R; [by intros _ ?%not_elem_of_nil|]. cbn [load_regs fst snd fmap list_fmap].
  intros [N1 H2]%NoDup_cons [[= -> ->]|Hin]%elem_of_cons.
  - rewrite load_regs_other by done. unfold rset. by rewrite decide_True.
  - by apply IH.
Qed.

(** ** [swtch] *)

Definition regs_ok (R : reg → Z) : Prop := ∀ r, 0 ≤ R r < 2 ^ 64.

Lemma context_ok : slots_ok context_slots 112.
Proof.
  split; [|apply (bool_decide_unpack (NoDup _)); vm_compute; exact I..]. intros r o.
  unfold context_slots. rewrite !elem_of_cons, elem_of_nil. intros H. destruct_or! H; try done; injection H as -> ->; done.
Qed.

Definition clear_range (p n x : Z) : Prop := x + 8 ≤ p ∨ p + n ≤ x.

(** [swtch(old, new)] with the contexts at [vo] and [vn], physically at [po] and [pn]. *)
Record at_swtch (T : gmap Z nat) (vo po vn pn : Z) (s : amach) : Prop := {
  as_old : view T (a_mem s) (a_csrs s satp) vo po 112;
  as_new : view T (a_mem s) (a_csrs s satp) vn pn 112;
  as_a0 : a_regs s a0 = vo;
  as_a1 : a_regs s a1 = vn;
  as_pos : 0 ≤ po;
  as_clear : pn + 112 ≤ po ∨ po + 112 ≤ pn
}.

Lemma swtch_run T vo po vn pn s :
  at_swtch T vo po vn pn s →
  ∃ s', run swtch_code s = Some s' ∧ a_pc s' = load64 (a_mem s) pn ∧ a_csrs s' = a_csrs s ∧
    (∀ r o, (r, o) ∈ context_slots → a_regs s' r = load64 (a_mem s) (pn + o)) ∧
    (∀ r, r ∉ context_slots.*1 → a_regs s' r = a_regs s r) ∧
    (∀ r o, (r, o) ∈ context_slots → load64 (a_mem s') (po + o) = u64 (a_regs s r)) ∧
    (∀ x, clear_range po 112 x → load64 (a_mem s') x = load64 (a_mem s) x) ∧
    (∀ v p n, view T (a_mem s) (a_csrs s satp) v p n → view T (a_mem s') (a_csrs s' satp) v p n).
Proof.
  intros [Vo Vn H0 H1 Hpos Hcl]. unfold swtch_code. rewrite run_app.
  destruct (run_saves T s vo po 112 a0 context_slots Vo H0 (sk_off _ _ context_ok) Hpos) as [E V']. rewrite E. cbn [mbind option_bind].
  set (m1 := save_regs _ _ _ _) in *.
  assert (∀ x, clear_range po 112 x → load64 m1 x = load64 (a_mem s) x) as Hoth.
  { intros x Hx. apply save_regs_other. intros o ([r o'] & -> & Ho)%list_elem_of_fmap. destruct (sk_off _ _ context_ok r o' Ho) as (? & ? & ?).
    unfold clear_range in Hx. cbn. lia. }
  rewrite run_app, (run_loads T _ vn pn 112 a1).
  - cbn [mbind option_bind run step a_mem a_csrs a_regs a_pc set_amem]. eexists. split; [reflexivity|].
    cbn [a_mem a_csrs a_regs a_pc set_pc]. set (R := load_regs m1 pn context_slots (a_regs s)).
    assert (∀ r o, (r, o) ∈ context_slots → R r = load64 (a_mem s) (pn + o)) as HR.
    { intros r o Hin. unfold R. rewrite (load_regs_get m1 pn context_slots _ r o (sk_regs _ _ context_ok) Hin). apply Hoth.
      destruct (sk_off _ _ context_ok r o Hin) as (? & ? & ?). unfold clear_range. lia. }
    split_and!; [|done|done| |intros r o; by apply (save_regs_get _ _ _ 112 _ _ _ context_ok)|done|exact V'].
    + rewrite (HR ra 0); [by rewrite Z.add_0_r|]. unfold context_slots. rewrite elem_of_cons. by left.
    + intros r Hr. by apply load_regs_other.
  - by apply V'.
  - done.
  - apply context_ok.
  - intros o. unfold context_slots. rewrite !elem_of_cons, elem_of_nil. intros Hin. destruct_or! Hin; done.
Qed.

(** The stack pointer and the callee-saved registers. *)
Definition thread_regs : list reg := [sp; s0; s1; s2; s3; s4; s5; s6; s7; s8; s9; s10; s11].

Lemma thread_in r : r ∈ thread_regs → r ∈ context_slots.*1.
Proof.
  assert (thread_regs ⊆ context_slots.*1) as H; [|by apply H]. apply (bool_decide_unpack (_ ⊆ _)). vm_compute. exact I.
Qed.

(** C12. A call of [swtch] returns when somebody switches back. A thread calls swtch(A, B) in
    state [s]; it is gone, and its registers are in the context A. Whenever later, in a
    state [s'], another thread calls swtch(C, A) with the context A as the thread left it,
    the machine goes on at the return address of the first call, with the stack pointer and
    the callee-saved registers of the first thread: to its C code the call looks like any
    other. *)
Theorem swtch_returns T vA pA vB pB s :
  at_swtch T vA pA vB pB s → regs_ok (a_regs s) →
  ∃ s1, run swtch_code s = Some s1 ∧ a_pc s1 = load64 (a_mem s) pB ∧
    (∀ v p n, view T (a_mem s) (a_csrs s satp) v p n → view T (a_mem s1) (a_csrs s1 satp) v p n) ∧
    ∀ T' vC pC s', at_swtch T' vC pC vA pA s' →
      (∀ o, 0 ≤ o < 112 → o mod 8 = 0 → load64 (a_mem s') (pA + o) = load64 (a_mem s1) (pA + o)) →
      ∃ s2, run swtch_code s' = Some s2 ∧ a_pc s2 = a_regs s ra ∧ ∀ r, r ∈ thread_regs → a_regs s2 r = a_regs s r.
Proof.
  intros A Hok. destruct (swtch_run T vA pA vB pB s A) as (s1 & E1 & P1 & _ & _ & _ & M1 & _ & V1). exists s1. split_and!; [done|done|exact V1|].
  intros T' vC pC s' A' Hkeep. destruct (swtch_run T' vC pC vA pA s' A') as (s2 & E2 & P2 & _ & R2 & _). exists s2.
  assert (∀ r o, (r, o) ∈ context_slots → load64 (a_mem s') (pA + o) = a_regs s r) as Hback.
  { intros r o Hin. destruct (sk_off _ _ context_ok r o Hin) as (? & ? & ?). rewrite Hkeep by lia. rewrite (M1 r o Hin). by apply u64_small. }
  split_and!; [done| |].
  - rewrite P2. rewrite <- (Z.add_0_r pA). apply (Hback ra 0). unfold context_slots. rewrite elem_of_cons. by left.
  - intros r ([r' o] & -> & Hin)%thread_in%list_elem_of_fmap. cbn. rewrite (R2 r' o Hin). by apply Hback.
Qed.

(** ** Traps from user space *)

(** The registers in the trap frame. *)
Definition tf_slots : list (reg * Z) := (a0, 112) :: user_slots.

(** These are the offsets at which the C code looks for them. *)
Lemma tf_offsets : [(a0, TF_a0); (a1, TF_a1); (a2, TF_a2); (a3, TF_a3); (a4, TF_a4); (a5, TF_a5); (a7, TF_a7); (sp, TF_sp)] ⊆ tf_slots.
Proof. apply (bool_decide_unpack (_ ⊆ _)). vm_compute. exact I. Qed.

Lemma in_tf r : r ∈ tf_slots.*1.
Proof. destruct r; apply (bool_decide_unpack (_ ∈ _)); vm_compute; exact I. Qed.

Lemma tf_ok : slots_ok tf_slots 288.
Proof.
  split; [|apply (bool_decide_unpack (NoDup _)); vm_compute; exact I..]. intros r o.
  unfold tf_slots, user_slots. rewrite !elem_of_cons, elem_of_nil. intros H. destruct_or! H; try done; injection H as -> ->; done.
Qed.

Lemma user_ok : slots_ok user_slots 288.
Proof.
  destruct tf_ok as [H1 [_ H2]%NoDup_cons [_ H3]%NoDup_cons]. split; [|done|done]. intros r o Hin. apply (H1 r), elem_of_cons. by right.
Qed.

Lemma user_high r o : (r, o) ∈ user_slots → 40 ≤ o ∧ o ≠ 112 ∧ r ≠ a0.
Proof. unfold user_slots. rewrite !elem_of_cons, elem_of_nil. intros H. destruct_or! H; try done; injection H as -> ->; done. Qed.

(** A trap from user space: the user's page table maps the trap frame [p]. *)
Record at_trap (T : gmap Z nat) (p : Z) (s : amach) : Prop := {
  tr_view : view T (a_mem s) (a_csrs s satp) TRAPFRAME p 288;
  tr_pos : 0 ≤ p;
  tr_regs : regs_ok (a_regs s)
}.

Lemma uservec_run T p s :
  at_trap T p s →
  ∃ s', run uservec s = Some s' ∧
    a_pc s' = load64 (a_mem s) (p + TF_kernel_trap) ∧ a_csrs s' satp = load64 (a_mem s) (p + TF_kernel_satp) ∧
    a_regs s' sp = load64 (a_mem s) (p + TF_kernel_sp) ∧ a_regs s' tp = load64 (a_mem s) (p + TF_kernel_hartid) ∧
    a_csrs s' sepc = a_csrs s sepc ∧
    (∀ r o, (r, o) ∈ tf_slots → load64 (a_mem s') (p + o) = a_regs s r) ∧
    (∀ x, clear_range (p + 40) 248 x → load64 (a_mem s') x = load64 (a_mem s) x) ∧
    view T (a_mem s') (a_csrs s satp) TRAPFRAME p 288.
Proof.
  intros [V Hp Hok]. unfold uservec. rewrite run_app. cbn [run step mbind option_bind].
  set (s1 := set_reg a0 _ _). rewrite run_app.
  assert (a_regs s1 a0 = TRAPFRAME) as Ha0 by done.
  assert (∀ r, r ≠ a0 → a_regs s1 r = a_regs s r) as Hr1 by (intros r Hr; cbn; unfold rset; by rewrite decide_False).
  destruct (run_saves T s1 TRAPFRAME p 288 a0 user_slots V Ha0 (sk_off _ _ user_ok) Hp) as [E V']. rewrite E. cbn [mbind option_bind].
  specialize (V' _ _ _ V). set (m1 := save_regs (a_regs s1) p user_slots (a_mem s1)) in *.
  assert (∀ r o, (r, o) ∈ user_slots → load64 m1 (p + o) = a_regs s r) as Hm1.
  { intros r o Hin. unfold m1. rewrite (save_regs_get _ _ _ 288 _ r o user_ok Hin). rewrite Hr1 by (by apply (user_high r o)). by apply u64_small. }
  assert (∀ x, (∀ o, o ∈ user_slots.*2 → x + 8 ≤ p + o ∨ p + o + 8 ≤ x) → load64 m1 x = load64 (a_mem s) x) as Ho1.
  { intros x Hx. by apply save_regs_other. }
  clearbody m1. set (m2 := store64 m1 (p + 112) (a_regs s a0)).
  assert (view T m2 (a_csrs s satp) TRAPFRAME p 288) as V2 by (by eapply (view_slot T m1 _ TRAPFRAME p 288)).
  assert (∀ x, clear_range (p + 112) 8 x → load64 m2 x = load64 m1 x) as Ho2.
  { intros x Hx. apply load64_store64_ne. unfold clear_range in Hx. lia. }
  cbn [run]. change (step (CSRR t0 sscratch) (set_amem m1 s1)) with (Some (set_reg t0 (a_regs s a0) (set_amem m1 s1))). cbn [mbind option_bind].
  erewrite (step_sd T _ TRAPFRAME p 288); [|exact V'|done|done|done]. cbn [mbind option_bind].
  match goal with |- context [set_amem ?m _] => change m with m2 end.
  repeat (erewrite (step_ld T _ TRAPFRAME p 288); [|exact V2|done|done|done]; cbn [mbind option_bind]).
  cbn [step mbind option_bind]. eexists. split; [reflexivity|]. cbn [a_pc a_csrs a_regs a_mem set_pc set_csr set_reg set_amem].
  assert (∀ o, 0 ≤ o < 40 → o mod 8 = 0 → load64 m2 (p + o) = load64 (a_mem s) (p + o)) as Hlow.
  { intros o Ho Hal. rewrite Ho2 by (unfold clear_range; lia). apply Ho1. intros o' ([r x] & -> & Hin)%list_elem_of_fmap.
    destruct (user_high r x Hin). cbn. dlia. }
  split_and!; try (apply Hlow; done); [done| | |exact V2].
  - intros r o [[= -> ->]|Hin]%elem_of_cons.
    + unfold m2. rewrite load64_store64_eq. by apply u64_small.
    + destruct (user_high r o Hin) as (? & ? & _). destruct (sk_off _ _ user_ok r o Hin) as (? & ? & ?).
      rewrite Ho2 by (unfold clear_range; dlia). by apply Hm1.
  - intros x Hx. unfold clear_range in Hx. rewrite Ho2 by (unfold clear_range; lia). apply Ho1.
    intros o ([r y] & -> & Hin)%list_elem_of_fmap. destruct (user_high r y Hin). destruct (sk_off _ _ user_ok r y Hin) as (? & ? & ?). cbn. lia.
Qed.

Lemma userret_run T p s :
  view T (a_mem s) (a_regs s a0) TRAPFRAME p 288 →
  ∃ s', run userret s = Some s' ∧ a_pc s' = a_csrs s sepc ∧ a_csrs s' satp = a_regs s a0 ∧ a_mem s' = a_mem s ∧
    ∀ r o, (r, o) ∈ tf_slots → a_regs s' r = load64 (a_mem s) (p + o).
Proof.
  intros V. unfold userret. rewrite run_app. cbn [run step mbind option_bind]. set (s1 := set_reg a0 _ _). rewrite run_app.
  rewrite (run_loads T s1 TRAPFRAME p 288 a0 user_slots V eq_refl (sk_off _ _ user_ok)).
  2:{ intros o Hin. by destruct (user_high a0 o Hin) as (_ & _ & ?). }
  cbn [mbind option_bind run]. erewrite (step_ld T _ TRAPFRAME p 288); [|exact V| |done|done].
  2:{ cbn [a_regs]. rewrite load_regs_other; [done|]. intros ([r o] & E & Hin)%list_elem_of_fmap. cbn in E. subst r. by destruct (user_high a0 o Hin) as (_ & _ & ?). }
  cbn [mbind option_bind step]. eexists. split; [reflexivity|]. cbn [a_pc a_csrs a_regs a_mem set_pc set_csr set_reg set_amem].
  split_and!; try done. intros r o [[= -> ->]|Hin]%elem_of_cons; unfold rset; [by rewrite decide_True|].
  destruct (user_high r o Hin) as (_ & _ & Hne). rewrite decide_False by done. by apply load_regs_get; [apply user_ok|].
Qed.

(** C11. A trap from user space saves everything and the return restores it. [uservec] runs
    into [kernel_trap] of the trap frame with the kernel's page table, stack and hart number
    from the trap frame, and the trap frame holds the user's 31 registers at the offsets
    where the C code expects them; the rest of memory is as before. Whenever later the
    kernel enters [userret] with a page table in [a0] that maps this trap frame, and with
    [a0] of the trap frame set to the result [x] of a system call, all other registers of
    the trap frame as they were, the user program goes on at [sepc] with its own registers
    and [x] in [a0]. *)
Theorem trap_roundtrip T p s :
  at_trap T p s →
  ∃ s1, run uservec s = Some s1 ∧
    a_pc s1 = load64 (a_mem s) (p + TF_kernel_trap) ∧ a_csrs s1 satp = load64 (a_mem s) (p + TF_kernel_satp) ∧
    a_regs s1 sp = load64 (a_mem s) (p + TF_kernel_sp) ∧ a_regs s1 tp = load64 (a_mem s) (p + TF_kernel_hartid) ∧
    (∀ r o, (r, o) ∈ tf_slots → load64 (a_mem s1) (p + o) = a_regs s r) ∧
    (∀ x, clear_range (p + 40) 248 x → load64 (a_mem s1) x = load64 (a_mem s) x) ∧
    view T (a_mem s1) (a_csrs s satp) TRAPFRAME p 288 ∧
    ∀ T' s2 x, view T' (a_mem s2) (a_regs s2 a0) TRAPFRAME p 288 → load64 (a_mem s2) (p + TF_a0) = x →
      (∀ r o, (r, o) ∈ user_slots → load64 (a_mem s2) (p + o) = load64 (a_mem s1) (p + o)) →
      ∃ s3, run userret s2 = Some s3 ∧ a_pc s3 = a_csrs s2 sepc ∧ a_csrs s3 satp = a_regs s2 a0 ∧
        a_regs s3 a0 = x ∧ ∀ r, r ≠ a0 → a_regs s3 r = a_regs s r.
Proof.
  intros A. destruct (uservec_run T p s A) as (s1 & E1 & H1 & H2 & H3 & H4 & _ & H6 & H7 & H8'). exists s1. split_and!; try done.
  intros T' s2 x V Hx Hkeep. destruct (userret_run T' p s2 V) as (s3 & E3 & H8 & H9 & _ & H10). exists s3. split_and!; try done.
  - rewrite <- Hx. apply H10. apply elem_of_cons. by left.
  - intros r Hr. destruct (proj1 (list_elem_of_fmap _ _ _) (in_tf r)) as ([r' o] & -> & Hin). cbn in *.
    rewrite (H10 r' o Hin). rewrite <- (H6 r' o Hin). apply elem_of_cons in Hin as [[= -> ->]|Hin]; [done|by apply (Hkeep r')].
Qed.

(** ** Traps in the kernel *)

(** The registers that a C function leaves as they were. *)
Definition callee_saved : list reg := [sp; gp; s0; s1; s2; s3; s4; s5; s6; s7; s8; s9; s10; s11].

Lemma kernel_ok : slots_ok kernel_slots 256.
Proof.
  split; [|apply (bool_decide_unpack (NoDup _)); vm_compute; exact I..]. intros r o.
  unfold kernel_slots. rewrite !elem_of_cons, elem_of_nil. intros H. destruct_or! H; try done; injection H as -> ->; done.
Qed.

Lemma restores_sub : kernel_restores ⊆ kernel_slots.
Proof. apply (bool_decide_unpack (_ ⊆ _)). vm_compute. exact I. Qed.


Lemma reg_cases r : r = tp ∨ r ∈ kernel_restores.*1 ∨ r ∈ callee_saved ∧ r ∉ kernel_restores.*1.
Proof.
  destruct r; first [left; reflexivity|right; left; apply (bool_decide_unpack (_ ∈ _)); vm_compute; exact I
    |right; right; split; [apply (bool_decide_unpack (_ ∈ _))|apply (bool_decide_unpack (_ ∉ _))]; vm_compute; exact I].
Qed.

(** What [kernelvec] relies on in [kerneltrap], called in state [s] with the frame of 256 bytes
    at [sp]: it returns, keeps the callee-saved registers, the stack frame of its caller and
    [sepc] (which [kerneltrap] restores), and the stack is still mapped. *)
Definition c_returns (T : gmap Z nat) (p : Z) (f : amach → option amach) (s : amach) : Prop :=
  ∃ s', f s = Some s' ∧ (∀ r, r ∈ callee_saved → a_regs s' r = a_regs s r) ∧
    (∀ o, 0 ≤ o < 256 → o mod 8 = 0 → load64 (a_mem s') (p + o) = load64 (a_mem s) (p + o)) ∧
    a_csrs s' sepc = a_csrs s sepc ∧ view T (a_mem s') (a_csrs s' satp) (a_regs s sp) p 256.

(** C13. An interrupt in the kernel is invisible to the interrupted code. If there are 256 bytes
    below the stack pointer and [kerneltrap] behaves as a C function, [kernelvec] runs to its
    [sret], and the interrupted code goes on at [sepc] with all its registers as before,
    except [tp], which is the hart number [kerneltrap] left (the thread may have moved to
    another hart). *)
Theorem kernelvec_transparent T p kerneltrap s :
  view T (a_mem s) (a_csrs s satp) (a_regs s sp - 256) p 256 → 0 ≤ p → regs_ok (a_regs s) →
  (∀ s1, a_regs s1 sp = a_regs s sp - 256 → view T (a_mem s1) (a_csrs s1 satp) (a_regs s1 sp) p 256 → a_csrs s1 = a_csrs s →
    c_returns T p kerneltrap s1) →
  ∃ s1 s2 s3, kernelvec kerneltrap s = Some s3 ∧ kerneltrap s1 = Some s2 ∧
    (∀ x, clear_range p 256 x → load64 (a_mem s1) x = load64 (a_mem s) x) ∧
    a_pc s3 = a_csrs s sepc ∧ a_mem s3 = a_mem s2 ∧ a_regs s3 tp = a_regs s2 tp ∧ ∀ r, r ≠ tp → a_regs s3 r = a_regs s r.
Proof.
  intros V Hp Hok Hf. destruct (vw_low _ _ _ _ _ _ V) as [V1 V2]. unfold kernelvec. cbn [run step mbind option_bind].
  assert (u64 (a_regs s sp + -256) = a_regs s sp - 256) as -> by (rewrite u64_small; [lia|]; specialize (Hok sp); lia).
  set (v := a_regs s sp - 256) in *. set (s0' := set_reg sp v s).
  destruct (run_saves T s0' v p 256 sp kernel_slots V eq_refl (sk_off _ _ kernel_ok) Hp) as [E V']. rewrite E. cbn [mbind option_bind].
  set (s1 := set_amem _ s0'). assert (∀ r, r ≠ sp → a_regs s1 r = a_regs s r) as Hr1 by (intros r Hr; cbn; unfold rset; by rewrite decide_False).
  destruct (Hf s1 eq_refl (V' _ _ _ V) eq_refl) as (s2 & E2 & Hcs & Hm & Hsepc & Vs). rewrite E2. cbn [mbind option_bind].
  assert (0 ≤ v < 2 ^ 64) as Hv by (specialize (Hok sp); unfold v in *; lia).
  assert (∀ r o, (r, o) ∈ kernel_slots → load64 (a_mem s2) (p + o) = a_regs s1 r) as Hslot.
  { intros r o Hin. destruct (sk_off _ _ kernel_ok r o Hin) as (? & ? & ?). rewrite Hm by lia. cbn [a_mem s1 set_amem].
    rewrite (save_regs_get _ _ _ 256 _ r o kernel_ok Hin). apply u64_small. destruct (decide (r = sp)) as [->|Hne]; [done|].
    change (a_regs s0' r) with (a_regs s1 r). rewrite (Hr1 r Hne). apply Hok. }
  assert (a_regs s2 sp = v) as Hsp by (rewrite Hcs; [done|]; unfold callee_saved; rewrite elem_of_cons; by left).
  rewrite run_app, (run_loads T s2 v p 256 sp kernel_restores Vs Hsp).
  2:{ intros r o Hin%restores_sub. by apply (sk_off _ _ kernel_ok r). }
  2:{ intros o Hin%restores_sub. rewrite (Hslot sp o Hin). done. }
  cbn [mbind option_bind run step]. eexists s1, s2, _. split; [reflexivity|]. cbn [a_pc a_csrs a_regs a_mem set_pc set_reg].
  set (R := load_regs (a_mem s2) p kernel_restores (a_regs s2)).
  assert (NoDup kernel_restores.*1) as Hnd by (apply (bool_decide_unpack (NoDup _)); vm_compute; exact I).
  assert (∀ r, r ∈ kernel_restores.*1 → R r = a_regs s1 r) as HR.
  { intros r ([r' o] & -> & Hin)%list_elem_of_fmap. cbn [fst]. unfold R. rewrite (load_regs_get _ _ _ _ r' o Hnd Hin). by apply Hslot, restores_sub. }
  split_and!; [done| |exact Hsepc|done| |].
  - intros x Hx. cbn [a_mem s1 set_amem]. rewrite save_regs_other; [done|].
    intros o ([r y] & -> & Hin)%list_elem_of_fmap. destruct (sk_off _ _ kernel_ok r y Hin) as (? & ? & ?). unfold clear_range in Hx. cbn [snd]. lia.
  - unfold rset. rewrite decide_False by done. unfold R. apply load_regs_other. apply (bool_decide_unpack (_ ∉ _)). vm_compute. exact I.
  - intros r Hr. unfold rset. case_decide as Es.
    + subst r. rewrite HR; [|apply (bool_decide_unpack (_ ∈ _)); vm_compute; exact I]. change (a_regs s1 sp) with v.
      rewrite u64_small; [unfold v; lia|]. specialize (Hok sp). unfold v. lia.
    + destruct (reg_cases r) as [->|[Hin|[Hc Hn]]]; [done| |].
      * rewrite HR by done. by apply Hr1.
      * unfold R. rewrite load_regs_other by done. rewrite Hcs by done. by apply Hr1.
Qed.
End asm.

(** ** The first instructions *)

(** Hart [h] starts with its own 4096 bytes of [stack0], the stack pointer at their end. *)
Lemma entry_stack stack0 s :
  0 ≤ a_csrs s mhartid < NCPU → 0 ≤ stack0 < 2 ^ 32 →
  ∃ s', run (entry_code stack0) s = Some s' ∧ a_regs s' sp = stack0 + 4096 * (a_csrs s mhartid + 1) ∧ a_mem s' = a_mem s.
Proof.
  intros Hh Hst. change NCPU with 8 in Hh. eexists. split; [reflexivity|]. split; [|done].
  change (u64 (u64 stack0 + u64 (u64 (1024 * 4) * u64 (a_csrs s mhartid + 1))) = stack0 + 4096 * (a_csrs s mhartid + 1)).
  rewrite (u64_small stack0), (u64_small (a_csrs s mhartid + 1)), (u64_small (1024 * 4)) by lia.
  rewrite (u64_small (1024 * 4 * _)), u64_small by lia. lia.
Qed.

(** The stub of a system call leaves the arguments in their registers and the number in [a7]. *)
Lemma stub_args num s : 0 ≤ num < 2 ^ 64 →
  ∃ s', run (stub_call num) s = Some s' ∧ a_regs s' a7 = num ∧ (∀ r, r ≠ a7 → a_regs s' r = a_regs s r) ∧ a_mem s' = a_mem s.
Proof.
  intros Hn. eexists. split; [reflexivity|]. cbn [a_regs set_reg a_mem]. unfold rset. split_and!; [by rewrite decide_True, u64_small|intros r Hr; by rewrite decide_False|done].
Qed.

(** ** A concrete machine *)

#[local] Existing Instance layout_ex.

(** The page of the trap frame is mapped, and nothing else. *)
Definition asm_T : gmap Z nat := {[ 0x87ff0000 := 2%nat; 0x87ff1000 := 1%nat; 0x87ff2000 := 0%nat ]}.
Definition asm_mem : mem :=
  let m := store64 ∅ (0x87ff0000 + 8 * PX 2 TRAPFRAME) (Z.lor (PA2PTE 0x87ff1000) PTE_V) in
  let m := store64 m (0x87ff1000 + 8 * PX 1 TRAPFRAME) (Z.lor (PA2PTE 0x87ff2000) PTE_V) in
  store64 m (0x87ff2000 + 8 * PX 0 TRAPFRAME) (leaf 0x87ff3000 (Z.lor PTE_R PTE_W)).

Lemma asm_view o n : 0 ≤ o → 0 < n → o + n ≤ PGSIZE → o mod 8 = 0 →
  view asm_T asm_mem (MAKE_SATP 0x87ff0000) (TRAPFRAME + o) (0x87ff3000 + o) n.
Proof.
  intros. assert (pt_wf asm_mem asm_T) by (apply pt_wfb_sound; vm_compute; reflexivity).
  assert ((TRAPFRAME + o) mod PGSIZE = o) as E by (change TRAPFRAME with (67108862 * 4096); change PGSIZE with 4096 in *; dlia).
  rewrite <- E at 2. assert (TRAPFRAME = 67108862 * 4096) as ET by done. assert (MAXVA = 67108864 * 4096) as EM by done.
  apply page_view; [done|reflexivity|lia|lia|lia|change PGSIZE with 4096 in *; lia| |apply page_okb_sound; reflexivity|reflexivity|dlia].
  rewrite (pte_of_page _ _ _ TRAPFRAME); [vm_compute; reflexivity|change PGSIZE with 4096 in *; lia|done|change PGSIZE with 4096 in *; dlia].
Qed.

Definition asm_regs : reg → Z := λ r, if decide (r = a1) then TRAPFRAME + 256 else if decide (r = sp) then TRAPFRAME + 1024 else TRAPFRAME.
Definition asm_machine : amach := Mk_amach asm_regs (λ c, if decide (c = satp) then MAKE_SATP 0x87ff0000 else 64) asm_mem 0.

Lemma asm_regs_ok : regs_ok asm_regs.
Proof. intros r. unfold asm_regs. repeat case_decide; done. Qed.

(** Contexts in the page: the thread switches from A to B, and a thread with its context at
    C switches back. *)
Lemma swtch_returns_witness :
  ∃ s1 s2, run swtch_code asm_machine = Some s1 ∧ a_pc s1 = 0 ∧
    run swtch_code (set_reg a0 (TRAPFRAME + 512) (set_reg a1 TRAPFRAME s1)) = Some s2 ∧ a_pc s2 = TRAPFRAME ∧ a_regs s2 sp = TRAPFRAME + 1024.
Proof.
  assert (view asm_T asm_mem (MAKE_SATP 0x87ff0000) TRAPFRAME 0x87ff3000 112) as VA.
  { rewrite <- (Z.add_0_r TRAPFRAME), <- (Z.add_0_r 0x87ff3000). by apply asm_view. }
  destruct (swtch_returns asm_T TRAPFRAME 0x87ff3000 (TRAPFRAME + 256) (0x87ff3000 + 256) asm_machine) as (s1 & E & Hpc & HV & Hback).
  - split; [exact VA|by apply asm_view|done..|lia|right; lia].
  - exact asm_regs_ok.
  - destruct (Hback asm_T (TRAPFRAME + 512) (0x87ff3000 + 512) (set_reg a0 (TRAPFRAME + 512) (set_reg a1 TRAPFRAME s1))) as (s2 & E2 & Hpc2 & Hr2).
    + split; [apply HV; by apply asm_view|apply HV; exact VA|done|done|lia|left; lia].
    + done.
    + exists s1, s2. split_and!; [exact E|rewrite Hpc; vm_compute; reflexivity|exact E2|exact Hpc2|].
      rewrite Hr2; [reflexivity|]. apply (bool_decide_unpack (_ ∈ _)). vm_compute. exact I.
Defined.

(** The kernel returns from the trap without a change of the trap frame. *)
Lemma trap_roundtrip_witness :
  ∃ s1 s3, run uservec asm_machine = Some s1 ∧ load64 (a_mem s1) (0x87ff3000 + TF_sp) = TRAPFRAME + 1024 ∧
    run userret (set_reg a0 (MAKE_SATP 0x87ff0000) s1) = Some s3 ∧ a_regs s3 a1 = TRAPFRAME + 256.
Proof.
  destruct (trap_roundtrip asm_T 0x87ff3000 asm_machine) as (s1 & E & _ & _ & _ & _ & H & _ & HV & Hback).
  - split; [rewrite <- (Z.add_0_r TRAPFRAME), <- (Z.add_0_r 0x87ff3000); by apply asm_view|lia|exact asm_regs_ok].
  - destruct (Hback asm_T (set_reg a0 (MAKE_SATP 0x87ff0000) s1) _ HV eq_refl ltac:(done)) as (s3 & E3 & _ & _ & _ & Hr).
    exists s1, s3. split_and!; [exact E| |exact E3|by rewrite Hr].
    rewrite (H sp TF_sp); [reflexivity|]. apply (bool_decide_unpack (_ ∈ _)). vm_compute. exact I.
Defined.

(** With a [kerneltrap] that moves to hart 5. *)
Lemma kernelvec_transparent_witness :
  ∃ s3, kernelvec (λ s, Some (set_reg tp 5 s)) asm_machine = Some s3 ∧ a_pc s3 = 64 ∧ a_regs s3 tp = 5 ∧ a_regs s3 sp = TRAPFRAME + 1024.
Proof.
  destruct (kernelvec_transparent asm_T (0x87ff3000 + 768) (λ s, Some (set_reg tp 5 s)) asm_machine) as (s1 & s2 & s3 & E & E2 & _ & Hpc & _ & Ht & Hr).
  - replace (a_regs asm_machine sp - 256) with (TRAPFRAME + 768) by reflexivity. by apply asm_view.
  - lia.
  - exact asm_regs_ok.
  - intros s1 Hsp V _. exists (set_reg tp 5 s1). split_and!; [done| |done|done|exact V].
    intros r Hr. cbn. unfold rset. rewrite decide_False; [done|]. intros ->. revert Hr. apply (bool_decide_unpack (_ ∉ _)). vm_compute. exact I.
  - exists s3. split_and!; [exact E|exact Hpc| |by rewrite Hr]. rewrite Ht. by injection E2 as <-.
Defined.
