(* ===== verification/Initcode.v ===== *)
(** * The first process: initcode in memory, and what it asks for

    [uvmfirst] of kernel/vm.c and the program [initcode] that [userinit] loads with it,
    composed with [copyin] and [copyinstr], by which [sys_exec] gets its arguments. *)

From S2P Require Import Prelude Machine State Spinlock KString Kalloc Vm PageTable VmDemo VmOps UserMem ProcFs Syscall Asm.

(** ** user/initcode.S *)

(** [la r, sym] at the address [pc]. *)
Definition la (r pc sym : Z) : list uinstr := [AUIPC r 0; UADDI r r (sym - pc)].

(** [exec(init, argv)], then [exit] forever; the registers a0, a1, a7, ra are 10, 11, 17, 1. *)
Definition initcode_S (init argv : Z) : list uinstr :=
  la 10 0 init ++ la 11 8 argv ++ [UADDI 17 0 (sysnum SYS_exec); ECALL] ++
  [UADDI 17 0 (sysnum SYS_exit); ECALL; JAL 1 (24 - 32)].

Section initcode.
Context `{L : Layout}.

Definition rwxu : Z := Z.lor (Z.lor (Z.lor PTE_W PTE_R) PTE_X) PTE_U.

(** A page that holds [src] and zeros is mapped at address 0, unless memory has run out. *)
Definition uvmfirst_post (T : gmap Z nat) (root p : Z) (src : list Z) (s' : kstate) : Prop :=
  ∃ T' l', vm_inv s' T' l' ∧ T ⊆ T' ∧
    (l' = [] ∨ page_ok p ∧ pte_of (pmem s') root 0 = leaf p rwxu ∧
      ∀ i, (i < Z.to_nat PGSIZE)%nat → rd (pmem s') (p + Z.of_nat i) = nth i (u8 <$> src) 0).

Lemma uvmfirst_ok n s T p l root src :
  can_lock n L_kmem s → vm_inv s T (p :: l) → T !! root = Some 2%nat → unmapped (pmem s) root 0 1 →
  Z.of_nat (length src) < PGSIZE → wp (uvmfirst root src) (λ _, uvmfirst_post T root p src) s.
Proof.
  intros Hc Hv Hroot Hun Hlen. unfold uvmfirst. rewrite (proj2 (Z.leb_gt _ _)) by done.
  apply wp_bind. eapply wp_kalloc_vm; [exact Hc|exact Hv|discriminate|]. intros p' l' [= <- <-] Hp Hni HTp Hv1 Hs1.
  pose proof (page_range p Hp) as Hpr. pose proof (proj1 Hp) as Hpal.
  apply wp_bind, wp_modify. set (m1 := memset _ _ _ _).
  destruct (vm_inv_data (kalloced p s) T l m1) as [Hv2 Hs2]; [done| | |].
  { eapply agree_mono; [apply agree_sym, agree_memset, Hpal|]. intros q [[lv Hq]|Hq] ->; [congruence|done]. }
  { by apply memset_ok, (km_bytes _ _ (vi_kmem _ _ _ Hv1)). }
  set (s2 := set_pmem m1 (kalloced p s)) in *.
  assert (can_lock n L_kmem s2) as Hc2 by (eapply mem_only_can_lock; [apply mem_only_pmem, mem_only_kalloced|done]).
  assert (unmapped (pmem s2) root 0 1) as Hun2.
  { intros i Hi. unfold pte_of. rewrite (Hs2 2%nat root) by done. rewrite (Hs1 2%nat root) by done. by apply Hun. }
  apply wp_bind. replace PGSIZE with (1 * PGSIZE) at 1 by lia.
  eapply wp_mono; [apply (mappages_ok n s2 T l root 0 1 p); try done; klia|].
  intros r s3 (T' & l' & j & Hg & [Hm _] & Hr). apply wp_modify. cbn beta.
  destruct Hg as [_ Hv3 Hsub Htake Hnew Hdata _].
  assert (T' !! p = None) as HT'p.
  { apply eq_None_not_Some. intros [Hx|Hx]%Hnew; [|done]. destruct Hx as [? Hx]. congruence. }
  assert (p ∉ l') as Hnil' by (intros Hin; destruct Htake as (tk & -> & _); apply Hni, elem_of_app; by right).
  destruct (vm_inv_data s3 T' l' (blit (pmem s3) p src)) as [Hv4 Hs4]; [done| | |].
  { intros x Hx. symmetry. apply rd_blit_out. destruct (Z.lt_ge_cases x p); [by left|]. right.
    destruct (Z.le_gt_cases (p + Z.of_nat (length src)) x); [done|]. exfalso.
    assert (pg x = p) as E by (apply pg_in; [done|lia]). rewrite E in Hx. destruct Hx as [[? ?]|?]; [congruence|done]. }
  { by apply blit_ok, (km_bytes _ _ (vi_kmem _ _ _ Hv3)). }
  exists T', l'. split_and!; [done|done|]. destruct Hr as [[-> ->]|(_ & _ & ->)]; [|by left]. right. split_and!; [done| |].
  - unfold pte_of. rewrite (Hs4 2%nat root) by (by eapply lookup_weaken). specialize (Hm 0 ltac:(lia)).
    change (0 + 0 * PGSIZE) with 0 in Hm. change (val (pmem s3) 2 root 0) with (pte_of (pmem s3) root 0).
    rewrite Hm. unfold rwxu. f_equal. lia.
  - intros i Hi. cbn [pmem set_pmem]. destruct (decide (i < length src)%nat) as [Hlt|Hge].
    + destruct (lookup_lt_is_Some_2 src i Hlt) as [b Hb]. rewrite (rd_blit_in _ _ _ _ _ Hb). symmetry. apply nth_lookup_Some.
      by rewrite list_lookup_fmap, Hb.
    + rewrite rd_blit_out by lia. rewrite nth_overflow by (rewrite length_fmap; lia).
      rewrite <- (Hdata (p + Z.of_nat i)); [|by rewrite (pg_in p); [|done|change PGSIZE with 4096 in *; lia]].
      cbn [s2 pmem set_pmem]. unfold m1. rewrite rd_memset by klia. by rewrite decide_True by (change PGSIZE with 4096 in *; lia).
Qed.

(** ** Reading it as the user's memory *)

Lemma initcode_rpa m root p va :
  page_ok p → pte_of m root 0 = leaf p rwxu → 0 ≤ va < PGSIZE → rpa m root va = Some (p + va).
Proof.
  intros Hp E Hva. pose proof (page_range p Hp) as Hr. destruct Hp as [Hal _]. assert (MAXVA = 2 ^ 38) as EM by done.
  change PGSIZE with 4096 in *. unfold rpa. rewrite (proj2 (Z.leb_gt MAXVA va)) by lia.
  rewrite (pte_of_page m root va 0), E by (change PGSIZE with 4096; dlia). cbv zeta.
  assert (0 ≤ rwxu < 1024) by done. assert (0 ≤ p < 2 ^ 64) by lia.
  rewrite !leaf_has, leaf_pa by done. rewrite (proj2 (Z.eqb_neq p 0)) by lia.
  rewrite Z.mod_small by (change PGSIZE with 4096; lia). reflexivity.
Qed.

(** Page 0 holds [bs], followed by zeros. *)
Definition page0 (m : mem) (root : Z) (bs : list Z) : Prop :=
  ∃ p, ∀ i, (i < Z.to_nat PGSIZE)%nat → rpa m root (Z.of_nat i) = Some (p + Z.of_nat i) ∧ rd m (p + Z.of_nat i) = nth i bs 0.

Lemma page0_uread m root bs n i :
  page0 m root bs → (i + n ≤ Z.to_nat PGSIZE)%nat → uread m root (Z.of_nat i) n = Some ((λ j, nth j bs 0) <$> seq i n).
Proof.
  intros [p Hp]. revert i. induction n as [|n IH]; intros i Hi; [done|]. cbn [uread seq fmap list_fmap].
  destruct (Hp i ltac:(lia)) as [-> E]. cbn [mbind option_bind]. replace (Z.of_nat i + 1) with (Z.of_nat (S i)) by lia.
  rewrite IH by lia. cbn [mbind option_bind]. by rewrite E.
Qed.

Fixpoint cstring (bs : list Z) (i max : nat) : option (list Z) :=
  match max with O => None | S n => if nth i bs 0 =? 0 then Some [0] else r ← cstring bs (S i) n; Some (nth i bs 0 :: r) end.

Lemma page0_ureadstr m root bs max i :
  page0 m root bs → (i + max ≤ Z.to_nat PGSIZE)%nat → ureadstr m root (Z.of_nat i) max = cstring bs i max.
Proof.
  intros [p Hp]. revert i. induction max as [|n IH]; intros i Hi; [done|]. cbn [ureadstr cstring].
  destruct (Hp i ltac:(lia)) as [-> E]. cbn [mbind option_bind]. replace (Z.of_nat i + 1) with (Z.of_nat (S i)) by lia.
  rewrite IH, E by lia. done.
Qed.

Lemma page0_copyin T m root s bs n i :
  pmem s = m → pt_wf m T → T !! root = Some 2%nat → page0 m root bs → (i + n ≤ Z.to_nat PGSIZE)%nat →
  copyin root (Z.of_nat i) (Z.of_nat n) s = Ret (0, (λ j, nth j bs 0) <$> seq i n) s.
Proof.
  intros <- Hwf Hroot Hp Hi. change PGSIZE with 4096 in Hi.
  destruct (copyin_loop_eq T root Hroot s n n (Z.of_nat i) [] Hwf ltac:(lia) ltac:(lia)) as (r & bs' & E & Hs).
  unfold copyin_spec in Hs. rewrite (page0_uread _ _ bs) in Hs by (done || (change PGSIZE with 4096; lia)). destruct Hs as [-> ->].
  unfold copyin. by rewrite Nat2Z.id.
Qed.

Lemma page0_copyinstr T m root s bs max i str :
  pmem s = m → pt_wf m T → T !! root = Some 2%nat → page0 m root bs → (i + max ≤ Z.to_nat PGSIZE)%nat → cstring bs i max = Some str →
  copyinstr root (Z.of_nat i) (Z.of_nat max) s = Ret (0, str) s.
Proof.
  intros <- Hwf Hroot Hp Hi Hstr. change PGSIZE with 4096 in Hi.
  destruct (copyinstr_loop_eq T root Hroot s max max (Z.of_nat i) [] Hwf ltac:(lia) ltac:(lia)) as (r & bs' & E & Hs).
  unfold copyinstr_spec in Hs. rewrite (page0_ureadstr _ _ bs), Hstr in Hs by (done || (change PGSIZE with 4096; lia)). destruct Hs as [-> ->].
  unfold copyinstr. by rewrite Nat2Z.id.
Qed.

(** C14. The first process executes /init. The bytes of [initcode] are the instructions of
    initcode.S, with [init] at 36 and [argv] at 43. [uvmfirst] puts [initcode] at address 0 of the new
    address space (unless memory has run out). Run from there, whatever the registers hold,
    the code reaches an [ecall] with the number of exec in [a7]; [copyinstr] of [a0] gives
    the path /init, and [copyin] at [a1] gives an argument vector of the address in [a0]
    and a null pointer. If exec returns, the code calls exit, again and again. *)
Theorem initcode_execs_init n s T p l root regs :
  can_lock n L_kmem s → vm_inv s T (p :: l) → T !! root = Some 2%nat → unmapped (pmem s) root 0 1 →
  (λ i, decode (le_val (take 4 (drop (4 * i) initcode)))) <$> seq 0 9 = Some <$> initcode_S 36 43 ∧ ∃ s' T' l' regs1, uvmfirst root initcode s = Ret tt s' ∧ vm_inv s' T' l' ∧
    urun 6 initcode 0 regs = Some (20, regs1) ∧ regs1 17 = sysnum SYS_exec ∧
    (l' ≠ [] →
      uread (pmem s') root 0 (length initcode) = Some initcode ∧
      copyinstr root (regs1 10) MAXPATH s' = Ret (0, bytes_of_string "/init" ++ [0]) s' ∧
      (∃ bs, copyin root (regs1 11) 8 s' = Ret (0, bs) s' ∧ le_val bs = regs1 10) ∧
      (∃ bs, copyin root (regs1 11 + 8) 8 s' = Ret (0, bs) s' ∧ le_val bs = 0)) ∧
    ∀ pc regs', pc = 24 ∨ pc = 32 → ∃ regs2, urun 4 initcode pc regs' = Some (28, regs2) ∧ regs2 17 = sysnum SYS_exit.
Proof.
  intros Hc Hv Hroot Hun. split; [reflexivity|].
  destruct (wp_elim _ _ _ (uvmfirst_ok n s T p l root initcode Hc Hv Hroot Hun ltac:(done))) as ([] & s' & E & T' & l' & Hv' & Hsub & Hpost).
  eexists s', T', l', _. split_and!; [exact E|exact Hv'|reflexivity|reflexivity| |].
  - intros Hl. destruct Hpost as [?|(Hp & Hpte & Hrd)]; [done|].
    assert (page0 (pmem s') root (u8 <$> initcode)) as Hpg.
    { exists p. intros i Hi. split; [|by apply Hrd]. apply initcode_rpa; [done|done|]. change PGSIZE with 4096 in *. lia. }
    assert (T' !! root = Some 2%nat) as Hroot' by (by eapply lookup_weaken). pose proof (vi_pt _ _ _ Hv') as Hwf.
    split_and!.
    + change 0 with (Z.of_nat 0). rewrite (page0_uread _ _ (u8 <$> initcode)) by (done || (change PGSIZE with 4096; cbn; lia)). reflexivity.
    + apply (page0_copyinstr T' _ root s' (u8 <$> initcode) 128 36 _ eq_refl Hwf Hroot' Hpg); [change PGSIZE with 4096; lia|reflexivity].
    + eexists. split; [apply (page0_copyin T' _ root s' (u8 <$> initcode) 8 43 eq_refl Hwf Hroot' Hpg); change PGSIZE with 4096; lia|reflexivity].
    + eexists. split; [apply (page0_copyin T' _ root s' (u8 <$> initcode) 8 51 eq_refl Hwf Hroot' Hpg); change PGSIZE with 4096; lia|reflexivity].
  - intros pc regs' [-> | ->]; eexists; (split; [reflexivity|reflexivity]).
Qed.
End initcode.

#[local] Existing Instance layout_ex.

Lemma initcode_execs_init_witness :
  ∃ s', uvmfirst demo_rootB initcode demo = Ret tt s' ∧
    copyinstr demo_rootB 36 MAXPATH s' = Ret (0, bytes_of_string "/init" ++ [0]) s'.
Proof.
  destruct (initcode_execs_init 0 demo demo_T 0x87ff6000 (tail demo_free) demo_rootB (λ _, 0) demo_can_lock demo_inv eq_refl)
    as (_ & s' & T' & l' & regs1 & E & Hv & Hrun & _ & H & _).
  - intros i Hi. assert (i = 0) as -> by lia. vm_compute. reflexivity.
  - exists s'. split; [exact E|]. injection Hrun as <-. destruct H as (_ & H & _); [|exact H]. intros ->.
    assert (match uvmfirst demo_rootB initcode demo with Ret _ u => freelist u =? 0 | _ => true end = false) as Hf by (vm_compute; reflexivity).
    rewrite E in Hf. pose proof (km_rep _ _ (vi_kmem _ _ _ Hv)) as Hr. cbn in Hr. rewrite Hr in Hf. discriminate.
Defined.
