(* ===== verification/Trap.v ===== *)
(** * Traps, interrupts and boot: kernel/trap.c, plic.c, [forkret] of proc.c, start.c, main.c

    The PLIC's registers are the map [plic] of the control registers; what the PLIC
    answers to a claim is what the map holds there. *)

From S2P Require Import Prelude Machine State Spinlock KString Kalloc Vm Proc Sleeplock Virtio Bio Log.
From S2P Require Import Uart Printf Console Fs Pipe File ProcFs Exec SysArg Sysfile Syscall.

Definition upd_csr (f : csrs → csrs) : K unit := modify (λ s, set_csr (f (csr s)) s).
Definition r_csr (f : csrs → Z) : K Z := gets (λ s, f (csr s)).

(** ** kernel/plic.c *)

Definition plic_write (a v : Z) : K unit := upd_csr (λ c, set_plic (<[a := u32 v]> (plic c)) c).

Definition plicinit : K unit :=
  plic_write (PLIC + UART0_IRQ * 4) 1;;
  plic_write (PLIC + VIRTIO0_IRQ * 4) 1.

Definition plicinithart : K unit :=
  hart ← lift_cs cpuid;
  plic_write (PLIC_SENABLE hart) (Z.lor (Z.shiftl 1 UART0_IRQ) (Z.shiftl 1 VIRTIO0_IRQ));;
  plic_write (PLIC_SPRIORITY hart) 0.

Definition plic_claim : K Z :=
  hart ← lift_cs cpuid;
  irq ← gets (λ s, default 0 (plic (csr s) !! PLIC_SCLAIM hart));
  mret (s32 irq).

Definition plic_complete (irq : Z) : K unit :=
  hart ← lift_cs cpuid;
  plic_write (PLIC_SCLAIM hart) irq.

(** ** kernel/trap.c *)

Definition SCAUSE_EXTERNAL : Z := 0x8000000000000009.
Definition SCAUSE_TIMER : Z := 0x8000000000000005.
Definition SCAUSE_SYSCALL : Z := 8.

Section trap.
Context `{L : Layout} `{Oth : Others} `{VD : VirtioDev} `{B : BlockIO}.

Definition trapinit : K unit := lift_cs (initlock L_ticks "time").

Definition trapinithart : K unit := upd_csr (set_stvec kernelvec).

Definition clockintr : K unit :=
  hart ← lift_cs cpuid;
  when (hart =? 0)
    (lift_cs (acquire L_ticks);;
     modify (λ s, set_ticks (u32 (ticks s + 1)) s);;
     wakeup (Some C_ticks);;
     lift_cs (release L_ticks));;
  t ← r_csr mtime;
  upd_csr (set_stimecmp (u64 (t + 1000000))).

Definition devintr : K Z :=
  scause ← r_csr scause;
  if scause =? SCAUSE_EXTERNAL then
    irq ← plic_claim;
    (if irq =? UART0_IRQ then uartintr
     else if irq =? VIRTIO0_IRQ then virtio_disk_intr
     else when (c_bool irq)
       (printf (bytes_of_string "unexpected interrupt irq=%d" ++ [10]) [AInt irq];; mret tt));;
    when (c_bool irq) (plic_complete irq);;
    mret 1
  else if scause =? SCAUSE_TIMER then clockintr;; mret 2
  else mret 0.

(** Ends with the jump to [userret] in trampoline.S: the result is the [satp] it is
    given. *)
Definition usertrapret : K Z :=
  p ← myproc; p ← deref p;
  pr ← get_proc p;
  let tf := p_trapframe pr in
  lift_cs intr_off;;
  upd_csr (set_stvec (TRAMPOLINE + (uservec - trampoline)));;
  ksatp ← r_csr satp;
  tf_store tf TF_kernel_satp ksatp;;
  tf_store tf TF_kernel_sp (u64 (p_kstack pr + PGSIZE));;
  tf_store tf TF_kernel_trap usertrap_addr;;
  hartid ← gets (λ s, tp (cs s));
  tf_store tf TF_kernel_hartid hartid;;
  x ← lift_cs r_sstatus;
  lift_cs (w_sstatus (Z.lor (Z.land x (u64 (Z.lnot SSTATUS_SPP))) SSTATUS_SPIE));;
  epc ← tf_load tf TF_epc;
  upd_csr (set_sepc epc);;
  mret (MAKE_SATP (p_pagetable pr)).

Definition usertrap : K Z :=
  x ← lift_cs r_sstatus;
  if c_bool (Z.land x SSTATUS_SPP) then panic "usertrap: not from user mode"
  else
    upd_csr (set_stvec kernelvec);;
    p ← myproc; p ← deref p;
    pr ← get_proc p;
    pc ← r_csr sepc;
    tf_store (p_trapframe pr) TF_epc pc;;
    cause ← r_csr scause;
    which_dev ←
      (if cause =? SCAUSE_SYSCALL then
         k ← killed p;
         when (c_bool k) (exit (-1));;
         epc ← tf_load (p_trapframe pr) TF_epc;
         tf_store (p_trapframe pr) TF_epc (u64 (epc + 4));;
         lift_cs intr_on;;
         syscall;;
         mret 0
       else
         d ← devintr;
         if c_bool d then mret d
         else
           cause ← r_csr scause;
           pr ← get_proc p;
           printf (bytes_of_string "usertrap(): unexpected scause 0x%lx pid=%d" ++ [10])
             [AInt cause; AInt (p_pid pr)];;
           pc ← r_csr sepc;
           tval ← r_csr stval;
           printf (bytes_of_string "            sepc=0x%lx stval=0x%lx" ++ [10])
             [AInt pc; AInt tval];;
           setkilled p;;
           mret d);
    k ← killed p;
    when (c_bool k) (exit (-1));;
    when (which_dev =? 2) yield;;
    usertrapret.

Definition kerneltrap : K unit :=
  pc ← r_csr sepc;
  status ← lift_cs r_sstatus;
  cause ← r_csr scause;
  if Z.land status SSTATUS_SPP =? 0 then panic "kerneltrap: not from supervisor mode"
  else
    on ← lift_cs intr_get;
    if c_bool on then panic "kerneltrap: interrupts enabled"
    else
      which_dev ← devintr;
      (if which_dev =? 0 then
         pc' ← r_csr sepc;
         tval ← r_csr stval;
         printf (bytes_of_string "scause=0x%lx sepc=0x%lx stval=0x%lx" ++ [10])
           [AInt cause; AInt pc'; AInt tval];;
         panic "kerneltrap"
       else mret tt);;
      p ← (if which_dev =? 2 then myproc else mret None);
      when (bool_decide (is_Some p)) yield;;
      upd_csr (set_sepc pc);;
      lift_cs (w_sstatus status).

(** ** [forkret] of kernel/proc.c *)

Definition forkret : K Z :=
  p ← myproc; p ← deref p;
  lift_cs (release (L_proc p));;
  first ← gets forkret_first;
  when (c_bool first) (fsinit ROOTDEV;; modify (set_forkret_first 0));;
  usertrapret.
End trap.

(** ** Start-up: kernel/start.c and kernel/main.c *)

(** ** kernel/riscv.h: machine mode *)

Definition MSTATUS_MPP_MASK : Z := Z.shiftl 3 11.
Definition MSTATUS_MPP_S : Z := Z.shiftl 1 11.
Definition SIE_SEIE : Z := Z.shiftl 1 9.
Definition SIE_STIE : Z := Z.shiftl 1 5.
Definition SIE_SSIE : Z := Z.shiftl 1 1.
Definition MIE_STIE : Z := Z.shiftl 1 5.

Section boot.
Context `{L : Layout} `{Oth : Others} `{VD : VirtioDev} `{B : BlockIO}.

Definition timerinit : K unit :=
  upd_csr (λ c, set_mie (Z.lor (mie c) MIE_STIE) c);;
  upd_csr (λ c, set_menvcfg (Z.lor (menvcfg c) (Z.shiftl 1 63)) c);;
  upd_csr (λ c, set_mcounteren (Z.lor (mcounteren c) 2) c);;
  upd_csr (λ c, set_stimecmp (u64 (mtime c + 1000000)) c).

(** Ends with [mret], which jumps to the address in mepc. *)
Definition start : K unit :=
  x ← r_csr mstatus;
  let x := Z.land x (u64 (Z.lnot MSTATUS_MPP_MASK)) in
  let x := Z.lor x MSTATUS_MPP_S in
  upd_csr (set_mstatus x);;
  upd_csr (set_mepc kernel_main);;
  upd_csr (set_satp 0);;
  upd_csr (set_medeleg 0xffff);;
  upd_csr (set_mideleg 0xffff);;
  upd_csr (λ c, set_sie (Z.lor (Z.lor (Z.lor (sie c) SIE_SEIE) SIE_STIE) SIE_SSIE) c);;
  upd_csr (set_pmpaddr0 0x3fffffffffffff);;
  upd_csr (set_pmpcfg0 0xf);;
  timerinit;;
  id ← r_csr mhartid;
  modify (λ s, set_cs (set_tp (u64 (s32 id)) (cs s)) s).

(** The wait of the other harts for [started]; in each round hart 0 does something. *)
Fixpoint wait_started (fuel : nat) : K unit :=
  match fuel with
  | O => hang
  | S f =>
      st ← gets started;
      if st =? 0 then modify (others f);; wait_started f else mret tt
  end.

(** [rounds] is how many rounds of the scheduler's endless loop are run. *)
Definition main (rounds : nat) : K unit :=
  hart ← lift_cs cpuid;
  (if hart =? 0 then
     consoleinit;;
     printfinit;;
     printf [10] [];;
     printf (bytes_of_string "xv6 kernel is booting" ++ [10]) [];;
     printf [10] [];;
     kinit;;
     kvminit;;
     kvminithart;;
     procinit;;
     trapinit;;
     trapinithart;;
     plicinit;;
     plicinithart;;
     binit;;
     iinit;;
     fileinit;;
     virtio_disk_init;;
     userinit;;
     modify (set_started 1)
   else
     fuel ← gets sched_left;
     wait_started fuel;;
     id ← lift_cs cpuid;
     printf (bytes_of_string "hart %d starting" ++ [10]) [AInt id];;
     kvminithart;;
     trapinithart;;
     plicinithart);;
  scheduler rounds.
End boot.
