(* ===== verification/User.v ===== *)
(** * User programs: user/ulib.c and user/printf.c

    A user program runs on a world [W] that it reaches only through system calls. The
    class [UserOS] is the part of user/user.h that the programs here use; [UserLaws]
    is what the programs rely on. A string is the list of its bytes without the NUL; a
    plain [char] is unsigned on RISC-V. *)

From S2P Require Import Prelude Machine State KString.

(** ** System calls *)

Class UserOS (W : Type) := {
  u_read : Z → Z → M W (Z * list Z);      (** the result and the bytes stored *)
  u_write : Z → list Z → M W Z;
  u_open : list Z → Z → M W Z;
  u_close : Z → M W Z;
  u_fstat : Z → M W (Z * (Z * Z * Z));     (** the result and type, ino and size *)
  u_link : list Z → list Z → M W Z;
  u_unlink : list Z → M W Z;
  u_mkdir : list Z → M W Z;
  u_kill : Z → M W Z
}.

(** A program that may call [exit]: [inr st] is exit status [st]. *)
Definition prog (W A : Type) : Type := W → outcome W (A + Z).
Global Instance prog_ret W : MRet (prog W) := λ A a w, Ret (inl a) w.
Global Instance prog_bind W : MBind (prog W) := λ A B f m w,
  match m w with
  | Ret (inl a) w' => f a w'
  | Ret (inr st) w' => Ret (inr st) w'
  | Panic msg => Panic msg
  | Hang => Hang
  end.
Definition uexit {W A} (st : Z) : prog W A := λ w, Ret (inr st) w.
(** A system call in a program. *)
Definition call {W A} (m : M W A) : prog W A := λ w,
  match m w with
  | Ret a w' => Ret (inl a) w'
  | Panic msg => Panic msg
  | Hang => Hang
  end.
Definition pwhen {W} (b : bool) (m : prog W unit) : prog W unit := if b then m else mret tt.
Fixpoint pfor {W A} (l : list A) (body : A → prog W unit) : prog W unit :=
  match l with
  | [] => mret tt
  | x :: l' => body x;; pfor l' body
  end.

(** ** user/ulib.c *)

(** Strings. *)
Fixpoint strcmp (p q : list Z) : Z :=
  match p, q with
  | a :: p', b :: q' => if a =? b then strcmp p' q' else u8 a - u8 b
  | a :: _, [] => u8 a
  | [], b :: _ => - u8 b
  | [], [] => 0
  end.
(** The offset of the first [c]; the search ends at the NUL. *)
Fixpoint strchr (s : list Z) (c : Z) : option nat :=
  match s with
  | [] => None
  | x :: s' => if x =? 0 then None else if x =? c then Some O else S <$> strchr s' c
  end.
Fixpoint atoi_loop (s : list Z) (n : Z) : Z :=
  match s with
  | c :: s' => if (chr "0" <=? c) && (c <=? chr "9") then atoi_loop s' (s32 (n * 10 + c - chr "0")) else n
  | [] => n
  end.
Definition atoi (s : list Z) : Z := atoi_loop s 0.

(** Memory. *)
Definition umemset (m : mem) (dst c n : Z) : mem := memset_loop (Z.to_nat (u32 n)) 0 m dst c.
Definition umemmove (m : mem) (dst src n : Z) : mem :=
  if dst <? src then memmove_up (Z.to_nat n) m dst src
  else memmove_down (Z.to_nat n) m (dst + n) (src + n).
Definition umemcmp (s1 s2 : cstr) (n : Z) : Z := memcmp_loop (Z.to_nat (u32 n)) s1 s2 0.
Definition umemcpy (m : mem) (dst src n : Z) : mem := umemmove m dst src (s32 (u32 n)).
(** [while(( *s++ = *t++ ) != 0);] [fuel] bounds the length of the string. *)
Fixpoint strcpy_loop (fuel : nat) (m : mem) (s t : Z) : option mem :=
  match fuel with
  | O => None
  | S f =>
      let c := rd m t in
      let m := wr m s c in
      if c =? 0 then Some m else strcpy_loop f m (s + 1) (t + 1)
  end.

(** [for(n = 0; s[n]; n++)] and the conversion to uint. *)
Fixpoint ustrlen_loop (s : list Z) (n : Z) : Z :=
  match s with
  | c :: s' => if c =? 0 then n else ustrlen_loop s' (s32 (n + 1))
  | [] => n
  end.
Definition ustrlen (s : list Z) : Z := u32 (ustrlen_loop s 0).

Section ulib.
Context {W : Type} `{UserOS W}.

Definition ustart (main : prog W unit) : prog W unit := main;; uexit 0.

(** [gets(buf, max)]: the bytes stored before the NUL. *)
Fixpoint gets_loop (k : nat) (acc : list Z) : prog W (list Z) :=
  match k with
  | O => mret acc
  | S k' =>
      r ← call (u_read 0 1);
      let '(cc, data) := r in
      if cc <? 1 then mret acc
      else
        let c := nthZ 0 data 0 in
        let acc := acc ++ [c] in
        if (c =? 10) || (c =? 13) then mret acc else gets_loop k' acc
  end.
Definition ugets (max : Z) : prog W (list Z) := gets_loop (Z.to_nat (max - 1)) [].

Definition stat (n : list Z) : prog W (Z * (Z * Z * Z)) :=
  fd ← call (u_open n 0);
  if fd <? 0 then mret (-1, (0, 0, 0))
  else
    r ← call (u_fstat fd);
    call (u_close fd);;
    mret r.

(** ** user/printf.c *)

Inductive uarg := UInt (z : Z) | UStr (s : option (list Z)).
Definition uva_int (ap : list uarg) : Z * list uarg :=
  match ap with
  | UInt z :: ap' => (s32 z, ap')
  | _ :: ap' => (0, ap')
  | [] => (0, [])
  end.
Definition uva_u64 (ap : list uarg) : Z * list uarg :=
  match ap with
  | UInt z :: ap' => (u64 z, ap')
  | _ :: ap' => (0, ap')
  | [] => (0, [])
  end.
Definition uva_str (ap : list uarg) : option (list Z) * list uarg :=
  match ap with
  | UStr s :: ap' => (s, ap')
  | _ :: ap' => (None, ap')
  | [] => (None, [])
  end.

Definition udigits : list Z := bytes_of_string "0123456789ABCDEF".

Definition putc (fd c : Z) : prog W unit := call (u_write fd [u8 c]);; mret tt.

(** The do-while loop of [printint]; [x] is below 2^32. *)
Fixpoint uprintint_digits (fuel : nat) (x base : Z) : list Z :=
  match fuel with
  | O => []
  | S f =>
      nthZ 0 udigits (x mod base) ::
      (if x / base =? 0 then [] else uprintint_digits f (x / base) base)
  end.
(** [buf]; the parameter [xx] is an int, [x] a uint. *)
Definition uprintint_buf (xx base : Z) (sgn : bool) : list Z :=
  let neg := sgn && (xx <? 0) in
  let x := if neg then u32 (- xx) else u32 xx in
  uprintint_digits 32 x base ++ (if neg then [chr "-"] else []).
Definition uprintint (fd xx base : Z) (sgn : bool) : prog W unit :=
  pfor (rev (uprintint_buf (s32 xx) base sgn)) (putc fd).

Fixpoint uprintptr_loop (n : nat) (fd x : Z) : prog W unit :=
  match n with
  | O => mret tt
  | S n' => putc fd (nthZ 0 udigits (Z.shiftr x 60));; uprintptr_loop n' fd (u64 (Z.shiftl x 4))
  end.
Definition uprintptr (fd x : Z) : prog W unit :=
  putc fd (chr "0");; putc fd (chr "x");; uprintptr_loop 16 fd (u64 x).

(** The bytes of a string up to its NUL. *)
Fixpoint to_nul (s : list Z) : list Z :=
  match s with
  | [] => []
  | c :: s' => if c =? 0 then [] else c :: to_nul s'
  end.

(** The loop over the format from index [i]; [state] is true after a percent sign. *)
Fixpoint vprintf_loop (fuel : nat) (fd : Z) (fmt : cstr) (i : Z) (state : bool) (ap : list uarg) : prog W unit :=
  match fuel with
  | O => λ _, Hang
  | S f =>
      let c0 := fmt i in
      let is_ c k := c =? chr k in
      let next ap := vprintf_loop f fd fmt (i + 1) false ap in
      if c0 =? 0 then mret tt
      else if negb state then
        if is_ c0 "%"%char then vprintf_loop f fd fmt (i + 1) true ap
        else putc fd c0;; next ap
      else
        let c1 := fmt (i + 1) in
        let c2 := if c1 =? 0 then 0 else fmt (i + 2) in
        if is_ c0 "d"%char then
          let '(z, ap) := uva_int ap in uprintint fd z 10 true;; next ap
        else if is_ c0 "l"%char && is_ c1 "d"%char then
          let '(z, ap) := uva_u64 ap in uprintint fd z 10 true;; vprintf_loop f fd fmt (i + 2) false ap
        else if is_ c0 "l"%char && is_ c1 "l"%char && is_ c2 "d"%char then
          let '(z, ap) := uva_u64 ap in uprintint fd z 10 true;; vprintf_loop f fd fmt (i + 3) false ap
        else if is_ c0 "u"%char then
          let '(z, ap) := uva_int ap in uprintint fd z 10 false;; next ap
        else if is_ c0 "l"%char && is_ c1 "u"%char then
          let '(z, ap) := uva_u64 ap in uprintint fd z 10 false;; vprintf_loop f fd fmt (i + 2) false ap
        else if is_ c0 "l"%char && is_ c1 "l"%char && is_ c2 "u"%char then
          let '(z, ap) := uva_u64 ap in uprintint fd z 10 false;; vprintf_loop f fd fmt (i + 3) false ap
        else if is_ c0 "x"%char then
          let '(z, ap) := uva_int ap in uprintint fd z 16 false;; next ap
        else if is_ c0 "l"%char && is_ c1 "x"%char then
          let '(z, ap) := uva_u64 ap in uprintint fd z 16 false;; vprintf_loop f fd fmt (i + 2) false ap
        else if is_ c0 "l"%char && is_ c1 "l"%char && is_ c2 "x"%char then
          let '(z, ap) := uva_u64 ap in uprintint fd z 16 false;; vprintf_loop f fd fmt (i + 3) false ap
        else if is_ c0 "p"%char then
          let '(z, ap) := uva_u64 ap in uprintptr fd z;; next ap
        else if is_ c0 "s"%char then
          let '(s, ap) := uva_str ap in
          pfor (to_nul (default (bytes_of_string "(null)") s)) (putc fd);; next ap
        else if is_ c0 "%"%char then putc fd (chr "%");; next ap
        else putc fd (chr "%");; putc fd c0;; next ap
  end.
Definition vprintf (fd : Z) (fmt : list Z) (ap : list uarg) : prog W unit :=
  vprintf_loop (S (length fmt)) fd (at_list fmt) 0 false ap.
Definition ufprintf (fd : Z) (fmt : list Z) (ap : list uarg) : prog W unit := vprintf fd fmt ap.
Definition uprintf (fmt : list Z) (ap : list uarg) : prog W unit := vprintf 1 fmt ap.
End ulib.

(** ** What a program relies on

    [sees fd input out w]: reading [fd] will yield [input] and then end of file, and
    [out o] is what has been written to descriptor [o] so far. A read may return fewer
    bytes than asked for, but none only at the end of the input. *)

Definition zlen {A} (l : list A) : Z := Z.of_nat (length l).
Definition append_to (o : Z) (bs : list Z) (out : Z → list Z) : Z → list Z :=
  λ o', if o' =? o then out o ++ bs else out o'.

Class UserLaws (W : Type) `{UserOS W} := {
  sees : Z → list Z → (Z → list Z) → W → Prop;
  law_read fd input out n w :
    sees fd input out w → 0 < n →
    wp (u_read fd n) (λ r w', ∃ data rest,
      r = (zlen data, data) ∧ input = data ++ rest ∧ zlen data ≤ n ∧
      (data = [] → input = []) ∧ sees fd rest out w') w;
  law_write fd input out o bs w :
    sees fd input out w → o = 1 ∨ o = 2 →
    wp (u_write o bs) (λ r w', r = zlen bs ∧ sees fd input (append_to o bs out) w') w;
  law_out fd input out out' w : (∀ o, out o = out' o) → sees fd input out w → sees fd input out' w
}.

(** Total correctness of programs: [Q] of the value or [X] of the exit status. *)
Definition pwp {W A} (m : prog W A) (Q : A → W → Prop) (X : Z → W → Prop) (w : W) : Prop :=
  wp m (λ r w', match r with inl a => Q a w' | inr st => X st w' end) w.

Section pwp.
Context {W : Type}.

Lemma pwp_bind {A B} (m : prog W A) (f : A → prog W B) Q X w :
  pwp m (λ a w', pwp (f a) Q X w') X w → pwp (m ≫= f) Q X w.
Proof. unfold pwp, wp, mbind, prog_bind. by destruct (m w) as [[a|st] w'|msg|]. Qed.

Lemma pwp_ret {A} (a : A) Q X w : Q a w → @pwp W A (mret a) Q X w.
Proof. done. Qed.

Lemma pwp_exit {A} st (Q : A → W → Prop) X w : X st w → pwp (uexit st) Q X w.
Proof. done. Qed.

Lemma pwp_call {A} (m : M W A) Q X w : wp m Q w → pwp (call m) Q X w.
Proof. unfold pwp, wp, call. by destruct (m w). Qed.

Lemma pwp_mono {A} (m : prog W A) (P Q : A → W → Prop) X w :
  pwp m P X w → (∀ a w', P a w' → Q a w') → pwp m Q X w.
Proof. intros H HPQ. eapply wp_mono; [exact H|]. intros [a|st] w'; naive_solver. Qed.

Lemma pwp_pfor {A} (l : list A) (body : A → prog W unit) (I : list A → W → Prop) X w :
  I [] w →
  (∀ pre x w', x ∈ l → I pre w' → pwp (body x) (λ _ w'', I (pre ++ [x]) w'') X w') →
  pwp (pfor l body) (λ _ w', I l w') X w.
Proof.
  intros HI Hb.
  assert (∀ todo pre w', l = pre ++ todo → I pre w' →
    pwp (pfor todo body) (λ _ w'', I l w'') X w') as Hgen.
  { induction todo as [|x todo IH]; intros pre w' -> HI'.
    - rewrite app_nil_r. by apply pwp_ret.
    - cbn [pfor]. apply pwp_bind. eapply pwp_mono.
      + apply Hb; [|exact HI']. rewrite elem_of_app. right. apply elem_of_cons. by left.
      + cbn beta. intros _ w'' HI''. rewrite (cons_middle x pre todo), app_assoc in IH |- *.
        eapply IH; [done|exact HI'']. }
  by apply (Hgen l []).
Qed.
End pwp.

(** ** Printing writes exactly the bytes of the text *)

Section printing.
Context {W : Type} `{UserLaws W}.

Lemma append_to_nil o out x : append_to o [] out x = out x.
Proof. unfold append_to. case_match; [|done]. by rewrite app_nil_r, (proj1 (Z.eqb_eq x o)). Qed.

Lemma append_to_app o bs cs out x :
  append_to o cs (append_to o bs out) x = append_to o (bs ++ cs) out x.
Proof. unfold append_to. rewrite Z.eqb_refl. case_match; [by rewrite app_assoc|done]. Qed.

(** [m] returns normally and its only effect is to write [bs] to [o]. *)
Definition emits {A} (fd o : Z) (bs : list Z) (m : prog W A) : Prop := ∀ input out w (X : Z → W → Prop),
  sees fd input out w → pwp m (λ _ w', sees fd input (append_to o bs out) w') X w.

Lemma emits_ret {A} fd o (a : A) : emits fd o [] (mret a).
Proof. intros input out w X Hw. apply pwp_ret. eapply law_out; [|exact Hw]. intros. by rewrite append_to_nil. Qed.

Lemma emits_bind {A B} fd o bs cs (m : prog W A) (f : A → prog W B) :
  emits fd o bs m → (∀ a, emits fd o cs (f a)) → emits fd o (bs ++ cs) (m ≫= f).
Proof.
  intros Hm Hf input out w X Hw. apply pwp_bind. eapply pwp_mono; [by apply Hm|].
  cbn beta. intros a w' Hw'. eapply pwp_mono; [by apply Hf|].
  cbn beta. intros b w'' Hw''. eapply law_out; [|exact Hw'']. intros. apply append_to_app.
Qed.

Lemma emits_putc fd o c : o = 1 ∨ o = 2 → emits fd o [u8 c] (putc o c).
Proof.
  intros Ho input out w X Hw. apply pwp_bind, pwp_call. eapply wp_mono; [by eapply law_write|].
  cbn beta. intros r w' [_ Hw']. by apply pwp_ret.
Qed.

Lemma emits_pfor {A} fd o (l : list A) f body :
  (∀ x, emits fd o (f x) (body x)) → emits fd o (concat (f <$> l)) (pfor l body).
Proof.
  intros Hb. induction l as [|x l IH]; cbn [pfor fmap list_fmap concat]; [apply emits_ret|].
  apply emits_bind; [apply Hb|]. by intros _.
Qed.

Lemma emits_putcs fd o l : o = 1 ∨ o = 2 → emits fd o (u8 <$> l) (pfor l (putc o)).
Proof.
  intros Ho. replace (u8 <$> l) with (concat ((λ c, [u8 c]) <$> l)).
  - apply emits_pfor. intros x. by apply emits_putc.
  - induction l as [|x l IH]; [done|]. cbn. by f_equal.
Qed.
End printing.

(** ** A world: one input, read in pieces of given sizes, and a log of the writes *)

Record stream := Stream { st_in : list Z; st_sizes : list nat; st_log : list (Z * list Z) }.

Definition stream_read (n : Z) : M stream (Z * list Z) := λ w,
  let k := Nat.min (Z.to_nat n) (Nat.max 1 (default 1%nat (head (st_sizes w)))) in
  let data := take k (st_in w) in
  Ret (zlen data, data) (Stream (drop k (st_in w)) (tail (st_sizes w)) (st_log w)).
Definition stream_write (o : Z) (bs : list Z) : M stream Z := λ w,
  Ret (zlen bs) (Stream (st_in w) (st_sizes w) (st_log w ++ [(o, bs)])).
Definition stream_out (w : stream) (o : Z) : list Z :=
  concat ((λ p, if p.1 =? o then p.2 else []) <$> st_log w).

Definition stream_os : UserOS stream := {|
  u_read _ n := stream_read n;
  u_write := stream_write;
  u_open _ _ := mret 3;
  u_close _ := mret 0;
  u_fstat _ := mret (-1, (0, 0, 0));
  u_link _ _ := mret (-1);
  u_unlink _ := mret (-1);
  u_mkdir _ := mret (-1);
  u_kill _ := mret (-1)
|}.

Program Definition stream_laws : @UserLaws stream stream_os :=
  @Build_UserLaws stream stream_os
    (λ _ input out w, st_in w = input ∧ ∀ o, out o = stream_out w o) _ _ _.
Next Obligation.
  intros fd input out n w [Hin Hout] Hn. cbn [u_read stream_os]. unfold stream_read, wp.
  set (k := Nat.min _ _). assert (1 ≤ k)%nat as Hk by lia.
  exists (take k (st_in w)), (drop k (st_in w)). subst input. split_and!.
  - done.
  - by rewrite take_drop.
  - unfold zlen. rewrite length_take. lia.
  - destruct (st_in w), k; try done; lia.
  - done.
  - exact Hout.
Qed.
Next Obligation.
  intros fd input out o bs w [Hin Hout] _. cbn [u_write stream_os]. unfold stream_write, wp.
  split; [done|]. split; [done|]. intros o'. unfold append_to, stream_out. cbn [st_log].
  rewrite fmap_app, concat_app. cbn. rewrite app_nil_r.
  destruct (Z.eqb_spec o' o) as [->|Hne].
  - by rewrite Hout, Z.eqb_refl.
  - rewrite (proj2 (Z.eqb_neq o o')) by done. by rewrite app_nil_r, Hout.
Qed.
Next Obligation.
  intros fd input out out' w Heq [Hin Hout]. split; [done|]. intros o. by rewrite <- Heq.
Qed.
