(* ===== verification/Umalloc.v ===== *)
(** * The memory allocator of user programs: user/umalloc.c

    A [Header] is 16 bytes: a pointer and a size in units of 16 bytes. The memory of the
    process is seen through the headers: [h_ptr s a] and [h_size s a] are the fields of the
    header at address [a]. The free blocks form a ring through [base], in the order of their
    addresses. [sbrk] is a system call, a parameter. *)

From S2P Require Import Prelude Machine State BlockSpec.

Class SbrkOS (W : Type) := { u_sbrk : Z → M W Z }.

Record uheap (W : Type) := Mk_uheap {
  h_ptr : Z → Z;
  h_size : Z → Z;
  h_freep : Z;
  h_os : W
}.
Arguments Mk_uheap {W}.
Arguments h_ptr {W}.
Arguments h_size {W}.
Arguments h_freep {W}.
Arguments h_os {W}.

Section umalloc.
Context {W : Type} `{OS : SbrkOS W} (base : Z).
Abbreviation MH := (M (uheap W)).

Definition sizeof_Header : Z := 16.
Definition set_ptr (a x : Z) (s : uheap W) : uheap W := Mk_uheap (upd (h_ptr s) a x) (h_size s) (h_freep s) (h_os s).
Definition set_size (a x : Z) (s : uheap W) : uheap W := Mk_uheap (h_ptr s) (upd (h_size s) a x) (h_freep s) (h_os s).
Definition set_freep (x : Z) (s : uheap W) : uheap W := Mk_uheap (h_ptr s) (h_size s) x (h_os s).
Definition get_ptr (a : Z) : MH Z := gets (λ s, h_ptr s a).
Definition get_size (a : Z) : MH Z := gets (λ s, h_size s a).

(** A system call on the heap's world. *)
Definition sbrk (n : Z) : MH Z := λ s,
  match u_sbrk n (h_os s) with
  | Ret r w => Ret r (Mk_uheap (h_ptr s) (h_size s) (h_freep s) w)
  | Panic msg => Panic msg
  | Hang => Hang
  end.

(** The loop of [free]: the block after which [bp] belongs. *)
Fixpoint free_find (fuel : nat) (bp p : Z) : MH Z :=
  match fuel with
  | O => hang
  | S f =>
      nx ← get_ptr p;
      if (p <? bp) && (bp <? nx) then mret p
      else if (nx <=? p) && ((p <? bp) || (bp <? nx)) then mret p
      else free_find f bp nx
  end.

Definition free (fuel : nat) (ap : Z) : MH unit :=
  let bp := ap - sizeof_Header in
  p ← gets h_freep;
  p ← free_find fuel bp p;
  nx ← get_ptr p;
  n ← get_size bp;
  (if bp + sizeof_Header * n =? nx then
     m ← get_size nx;
     modify (set_size bp (u32 (n + m)));;
     nn ← get_ptr nx;
     modify (set_ptr bp nn)
   else modify (set_ptr bp nx));;
  k ← get_size p;
  (if p + sizeof_Header * k =? bp then
     n ← get_size bp;
     modify (set_size p (u32 (k + n)));;
     nn ← get_ptr bp;
     modify (set_ptr p nn)
   else modify (set_ptr p bp));;
  modify (set_freep p).

(** The argument of [sbrk] is an [int]. *)
Definition morecore (fuel : nat) (nu : Z) : MH Z :=
  let nu := if nu <? 4096 then 4096 else nu in
  p ← sbrk (s32 (nu * sizeof_Header));
  if p =? -1 then mret 0
  else
    modify (set_size p nu);;
    free fuel (p + sizeof_Header);;
    gets h_freep.

(** A block is taken from the free block [p], which comes after [prevp]. *)
Definition malloc_take (nunits prevp p : Z) : MH Z :=
  n ← get_size p;
  p ← (if n =? nunits then
         nx ← get_ptr p;
         modify (set_ptr prevp nx);;
         mret p
       else
         modify (set_size p (u32 (n - nunits)));;
         let p := p + sizeof_Header * u32 (n - nunits) in
         modify (set_size p nunits);;
         mret p);
  modify (set_freep prevp);;
  mret (p + sizeof_Header).

Fixpoint malloc_loop (fuel : nat) (nunits prevp p : Z) : MH Z :=
  match fuel with
  | O => hang
  | S f =>
      n ← get_size p;
      if nunits <=? n then malloc_take nunits prevp p
      else
        fp ← gets h_freep;
        if p =? fp then
          p ← morecore fuel nunits;
          if p =? 0 then mret 0
          else nx ← get_ptr p; malloc_loop f nunits p nx
        else nx ← get_ptr p; malloc_loop f nunits p nx
  end.

(** [nbytes + sizeof(Header) - 1] is computed with 64 bits. *)
Definition malloc (fuel : nat) (nbytes : Z) : MH Z :=
  let nunits := u32 ((nbytes + sizeof_Header - 1) / sizeof_Header + 1) in
  fp ← gets h_freep;
  prevp ← (if fp =? 0 then
             modify (set_ptr base base);;
             modify (set_freep base);;
             modify (set_size base 0);;
             mret base
           else mret fp);
  p ← get_ptr prevp;
  malloc_loop fuel nunits prevp p.
End umalloc.
