(* ===== verification/UmallocProofs.v ===== *)
(** * The allocator gives out disjoint blocks

    [heap_ok s fl used]: the ring through [base] holds the free blocks [fl] in the order of
    their addresses, never two that touch each other; the blocks [used] are disjoint from
    them and from each other. [malloc] moves memory from [fl] to [used] and [free] back. *)

From S2P Require Import Prelude Machine State BlockSpec Umalloc.

(** ** Blocks and rings *)

Definition blk_end (b : Z * Z) : Z := fst b + 16 * snd b.
Definition in_blk (b : Z * Z) (z : Z) : Prop := fst b ≤ z < blk_end b.
Definition clear_of (b c : Z * Z) : Prop := blk_end b ≤ fst c ∨ blk_end c ≤ fst b.
Definition covered (l : list (Z * Z)) (z : Z) : Prop := ∃ b, b ∈ l ∧ in_blk b z.

Fixpoint pairwise_clear (l : list (Z * Z)) : Prop :=
  match l with [] => True | b :: l' => Forall (clear_of b) l' ∧ pairwise_clear l' end.

(** Blocks in order, above [lo], with gaps in between. *)
Fixpoint in_order (lo : Z) (l : list (Z * Z)) : Prop :=
  match l with [] => True | b :: l' => lo < fst b ∧ 0 < snd b ∧ in_order (blk_end b) l' end.

(** Each element points to the next one, the last to [z]. *)
Fixpoint links (ptr : Z → Z) (l : list Z) (z : Z) : Prop :=
  match l with [] => True | x :: l' => ptr x = hd z l' ∧ links ptr l' z end.

Lemma links_app ptr l1 l2 z : links ptr (l1 ++ l2) z ↔ links ptr l1 (hd z l2) ∧ links ptr l2 z.
Proof.
  induction l1 as [|x l1 IH]; [cbn; tauto|]. cbn [app links]. rewrite IH. destruct l1; cbn; tauto.
Qed.

Lemma links_frame ptr ptr' l z : (∀ x, x ∈ l → ptr' x = ptr x) → links ptr l z → links ptr' l z.
Proof.
  induction l as [|x l IH]; [done|]. intros H [H1 H2]. split.
  - rewrite H; [done|]. apply elem_of_cons. by left.
  - apply IH; [|done]. intros y Hy. apply H, elem_of_cons. by right.
Qed.

Lemma links_lookup ptr l z i x : links ptr l z → l !! i = Some x → ptr x = default z (l !! S i).
Proof.
  revert i. induction l as [|y l IH]; [done|]. intros [|i] [H1 H2] Hi; cbn in *.
  - injection Hi as <-. rewrite H1. by destruct l.
  - by apply IH.
Qed.

Lemma in_order_app lo l1 l2 : in_order lo (l1 ++ l2) ↔ in_order lo l1 ∧ in_order (default lo (blk_end <$> last l1)) l2.
Proof.
  revert lo. induction l1 as [|b l1 IH]; intros lo; cbn [app in_order]; [cbn; tauto|]. rewrite IH.
  destruct l1 as [|c l1]; cbn [last fmap option_fmap option_map default]; [cbn; tauto|].
  change (last (b :: c :: l1)) with (last (c :: l1)). destruct (last (c :: l1)) eqn:E; cbn; [tauto|]. by apply last_None in E.
Qed.

Lemma in_order_above lo l b : in_order lo l → b ∈ l → lo < fst b ∧ 0 < snd b.
Proof.
  revert lo. induction l as [|c l IH]; intros lo; [by intros _ ?%not_elem_of_nil|].
  intros (H1 & H2 & H3) [->|Hb]%elem_of_cons; [done|]. apply (IH _ H3) in Hb. unfold blk_end in Hb. lia.
Qed.

Lemma in_order_weaken lo lo' l : in_order lo l → lo' ≤ lo → in_order lo' l.
Proof. destruct l; [done|]. intros (H1 & H2 & H3) Hlo. split_and!; [lia|done|done]. Qed.

(** Blocks in order are at different places. *)
Lemma in_order_clear lo l1 b l2 c : in_order lo (l1 ++ b :: l2) → c ∈ l1 ++ l2 → clear_of b c ∧ fst c ≠ fst b.
Proof.
  revert lo. induction l1 as [|d l1 IH]; intros lo; cbn [app].
  - intros (_ & H2 & H3) Hc. apply (in_order_above _ _ _ H3) in Hc. unfold clear_of, blk_end in *. lia.
  - intros (H1 & H2 & H3) [->|Hc]%elem_of_cons; [|by apply (IH _ H3)].
    destruct (in_order_above _ _ b H3) as [Hb Hb2]; [apply elem_of_app; right; apply elem_of_cons; by left|].
    unfold clear_of, blk_end in *. lia.
Qed.

Lemma clear_sym b c : clear_of b c → clear_of c b.
Proof. unfold clear_of. tauto. Qed.

Lemma clear_in b c z : clear_of b c → in_blk b z → ¬ in_blk c z.
Proof. unfold clear_of, in_blk. lia. Qed.

Lemma covered_app l1 l2 z : covered (l1 ++ l2) z ↔ covered l1 z ∨ covered l2 z.
Proof.
  unfold covered. split.
  - intros (b & [Hb|Hb]%elem_of_app & Hz); [left|right]; by exists b.
  - intros [(b & Hb & Hz)|(b & Hb & Hz)]; exists b; (split; [apply elem_of_app; tauto|done]).
Qed.

Lemma covered_cons b l z : covered (b :: l) z ↔ in_blk b z ∨ covered l z.
Proof.
  unfold covered. split.
  - intros (c & [->|Hc]%elem_of_cons & Hz); [by left|right; by exists c].
  - intros [Hz|(c & Hc & Hz)]; [exists b|exists c]; (split; [apply elem_of_cons; tauto|done]).
Qed.

Lemma covered_nil z : ¬ covered [] z.
Proof. intros (b & Hb & _). by apply not_elem_of_nil in Hb. Qed.

(** Where a new block belongs. *)
Lemma split_order lo l b :
  in_order lo l → 0 < snd b → Forall (clear_of b) l →
  ∃ l1 l2, l = l1 ++ l2 ∧ Forall (λ c, blk_end c ≤ fst b) l1 ∧ Forall (λ c, blk_end b ≤ fst c) l2.
Proof.
  revert lo. induction l as [|c l IH]; intros lo; [intros; by exists [], []|].
  intros (H1 & H2 & H3) Hb [Hc Hl]%Forall_cons. destruct Hc as [Hc|Hc].
  - exists [], (c :: l). split_and!; [done|done|]. apply Forall_cons. split; [done|]. apply Forall_forall. intros d Hd.
    apply (in_order_above _ _ _ H3) in Hd. unfold blk_end in *. lia.
  - destruct (IH _ H3 Hb Hl) as (l1 & l2 & -> & F1 & F2). exists (c :: l1), l2. split_and!; [done|by apply Forall_cons|done].
Qed.

(** ** The heap *)

Section heap.
Context {W : Type} `{OS : SbrkOS W} (brk : W → Z) (base : Z).

(** [sbrk] either fails or adds [n] bytes at the break. *)
Class SbrkLaws : Prop := {
  law_sbrk n w : 0 < n → (∃ w', u_sbrk n w = Ret (-1) w' ∧ brk w' = brk w) ∨
    (∃ w', u_sbrk n w = Ret (brk w) w' ∧ brk w' = brk w + n ∧ brk w' ≤ 2 ^ 31)
}.

Record heap_ok (s : uheap W) (fl used : list (Z * Z)) : Prop := {
  hk_base : 0 < base < brk (h_os s);
  hk_top : brk (h_os s) ≤ 2 ^ 31;
  hk_ring : links (h_ptr s) (base :: fl.*1) base;
  hk_zero : h_size s base = 0;
  hk_order : in_order base fl;
  hk_size b : b ∈ fl ++ used → h_size s (fst b) = snd b ∧ blk_end b ≤ brk (h_os s);
  hk_used b : b ∈ used → base < fst b ∧ 0 < snd b;
  hk_freep : h_freep s ∈ base :: fl.*1;
  hk_clear b c : b ∈ used → c ∈ fl → clear_of b c;
  hk_pair : pairwise_clear used
}.

(** The free block before a place, or [base]. *)
Definition pred_of (x : Z) (l : list (Z * Z)) : Z := default x (fst <$> last l).

Lemma pred_cons x b l : pred_of x (b :: l) = pred_of (fst b) l.
Proof. unfold pred_of. destruct l as [|c l]; [done|]. change (last (b :: c :: l)) with (last (c :: l)). destruct (last (c :: l)) eqn:E; [done|]. by apply last_None in E. Qed.

Lemma pred_snoc x l b : pred_of x (l ++ [b]) = fst b.
Proof. unfold pred_of. by rewrite last_snoc. Qed.

Lemma find_low bp nx (s : uheap W) l : ∀ x lo fuel,
  in_order lo l → x ≤ lo → x < bp → Forall (λ c, blk_end c ≤ bp) l → links (h_ptr s) (x :: l.*1) nx → bp < nx ∨ nx ≤ x →
  (length l < fuel)%nat → free_find fuel bp x s = Ret (pred_of x l) s.
Proof.
  induction l as [|b l IH]; intros x lo fuel Ho Hx Hxb Hl [Hp Hlk] Hnx Hf; (destruct fuel as [|fuel]; [cbn in Hf; lia|]);
    cbn [free_find]; (erewrite bind_ret; [|reflexivity]); rewrite Hp; cbn [fmap list_fmap hd].
  - rewrite (proj2 (Z.ltb_lt x bp)) by done. destruct (Z.ltb_spec bp nx); [done|]. cbn [andb].
    by rewrite (proj2 (Z.leb_le nx x)) by lia.
  - destruct Ho as (H1 & H2 & H3). apply Forall_cons in Hl as [Hb Hl]. unfold blk_end in *.
    rewrite (proj2 (Z.ltb_lt x bp)), (proj2 (Z.ltb_ge bp (fst b))), (proj2 (Z.leb_gt (fst b) x)) by lia. cbn [andb].
    rewrite pred_cons. eapply IH; [exact H3|unfold blk_end; lia|lia|done|done|lia|cbn in Hf; lia].
Qed.

Lemma find_high bp (s : uheap W) l : ∀ x lo fuel,
  in_order lo l → x ≤ lo → base < bp < x → links (h_ptr s) (x :: l.*1) base → (length l < fuel)%nat →
  free_find fuel bp x s = free_find (fuel - S (length l)) bp base s.
Proof.
  induction l as [|b l IH]; intros x lo fuel Ho Hx Hxb [Hp Hlk] Hf; (destruct fuel as [|fuel]; [cbn in Hf; lia|]);
    cbn [free_find]; (erewrite bind_ret; [|reflexivity]); rewrite Hp; cbn [fmap list_fmap hd length].
  - rewrite (proj2 (Z.ltb_ge x bp)), (proj2 (Z.leb_le base x)), (proj2 (Z.ltb_ge bp base)) by lia. cbn [andb orb].
    by replace (S fuel - 1)%nat with fuel by lia.
  - destruct Ho as (H1 & H2 & H3).
    rewrite (proj2 (Z.ltb_ge x bp)), (proj2 (Z.leb_gt (fst b) x)) by lia. cbn [andb orb].
    rewrite (IH (fst b) (blk_end b) fuel H3); [f_equal; lia|unfold blk_end; lia|lia|done|cbn in Hf; lia].
Qed.

Lemma fst_fmap_in x (l : list (Z * Z)) : x ∈ l.*1 → ∃ n l1 l2, l = l1 ++ (x, n) :: l2.
Proof. intros ([y n] & -> & Hb)%list_elem_of_fmap. apply list_elem_of_split in Hb as (l1 & l2 & ->). by exists n, l1, l2. Qed.

Lemma free_find_ok bp (s : uheap W) fl1 fl2 q fuel :
  in_order base (fl1 ++ fl2) → Forall (λ c, blk_end c ≤ bp) fl1 → Forall (λ c, bp < fst c) fl2 → base < bp →
  links (h_ptr s) (base :: (fl1 ++ fl2).*1) base → q ∈ base :: (fl1 ++ fl2).*1 → (length (fl1 ++ fl2) + 1 < fuel)%nat →
  free_find fuel bp q s = Ret (pred_of base fl1) s.
Proof.
  intros Ho H1 H2 Hb Hl Hq Hf. rewrite length_app in Hf. rewrite fmap_app, app_comm_cons in Hl, Hq. pose proof Hl as Hl'. rewrite links_app in Hl. destruct Hl as [Hla Hlb].
  apply in_order_app in Ho as [Ho1 Ho2]. pose proof Ho1 as Ho0.
  assert (bp < hd base fl2.*1 ∨ hd base fl2.*1 ≤ base) as Hnx.
  { destruct fl2 as [|c fl2]; [right; cbn; lia|left]. by apply Forall_cons in H2 as [? _]. }
  assert (∀ fuel, (length fl1 < fuel)%nat → free_find fuel bp base s = Ret (pred_of base fl1) s) as Hbase.
  { intros k Hk. eapply (find_low bp (hd base fl2.*1)); [exact Ho1|done|done|done|done|done|done]. }
  apply elem_of_app in Hq as [[->|Hq]%elem_of_cons|Hq].
  - apply Hbase. lia.
  - apply fst_fmap_in in Hq as (n & l1 & l2 & ->). apply in_order_app in Ho1 as [_ (Hlo & Hn & Ho1)].
    rewrite Forall_app, Forall_cons in H1. destruct H1 as (_ & Hq & H1). rewrite length_app in Hf. cbn [length] in Hf.
    rewrite fmap_app, app_comm_cons, links_app in Hla. destruct Hla as [_ Hla].
    assert (pred_of base (l1 ++ (q, n) :: l2) = pred_of q l2) as ->.
    { clear. revert base. induction l1 as [|c l1 IH]; intros x; [apply pred_cons|]. cbn [app]. rewrite pred_cons. apply IH. }
    assert (base < q) as Hbq.
    { by destruct (in_order_above base _ (q, n) Ho0) as [? _]; [apply elem_of_app; right; apply elem_of_cons; left|]. }
    unfold blk_end in Hq. cbn in Hn, Hq.
    eapply (find_low bp (hd base fl2.*1) s l2 q _ fuel Ho1); [unfold blk_end; cbn; lia|lia|done|exact Hla| |lia].
    destruct Hnx; [by left|right; lia].
  - apply fst_fmap_in in Hq as (n & l1 & l2 & ->). rewrite length_app in Hf. cbn [length] in Hf.
    apply in_order_app in Ho2 as [_ (Hlo & Hn & Ho2)]. rewrite fmap_app, links_app in Hlb. destruct Hlb as [_ Hlb].
    rewrite Forall_app, Forall_cons in H2. destruct H2 as (_ & Hq & H2). cbn in Hq, Hn.
    rewrite (find_high bp s l2 q _ fuel Ho2); [apply Hbase; lia|unfold blk_end; cbn; lia|lia|done|lia].
Qed.

(** ** Changing the ring *)

Lemma links_pred ptr l nx : ∀ x, links ptr (x :: l.*1) nx → ptr (pred_of x l) = nx.
Proof. induction l as [|b l IH]; intros x [H1 H2]; [done|]. rewrite pred_cons. by apply IH. Qed.

Lemma pred_in x l : pred_of x l ∈ x :: l.*1.
Proof.
  revert x. induction l as [|b l IH]; intros x; [apply elem_of_cons; by left|]. rewrite pred_cons. apply elem_of_cons. right. apply IH.
Qed.

Lemma order_nodup lo l x : in_order lo l → x ≤ lo → NoDup (x :: l.*1).
Proof.
  revert lo x. induction l as [|b l IH]; intros lo x; cbn [fmap list_fmap].
  - intros _ _. constructor; [apply not_elem_of_nil|constructor].
  - intros (H1 & H2 & H3) Hx. constructor; [|apply (IH _ _ H3); unfold blk_end; lia].
    intros [E|(c & E & Hc)%list_elem_of_fmap]%elem_of_cons; [lia|]. apply (in_order_above _ _ _ H3) in Hc. unfold blk_end in Hc. lia.
Qed.

Lemma links_upd ptr l nx nx' : ∀ x, NoDup (x :: l.*1) → links ptr (x :: l.*1) nx → links (upd ptr (pred_of x l) nx') (x :: l.*1) nx'.
Proof.
  induction l as [|b l IH]; intros x Hn [H1 H2].
  - split; [|done]. apply upd_eq.
  - rewrite pred_cons. apply NoDup_cons in Hn as [Hx Hn]. split; [|by apply IH].
    rewrite upd_ne; [done|]. intros ->. apply Hx. apply pred_in.
Qed.

Lemma links_skip ptr l a v z : a ∉ l → links ptr l z → links (upd ptr a v) l z.
Proof. intros Ha. apply links_frame. intros x Hx. apply upd_ne. by intros ->. Qed.

Lemma clear_ne b c : clear_of b c → 0 < snd b → 0 < snd c → fst b ≠ fst c.
Proof. unfold clear_of, blk_end. lia. Qed.

Lemma pairwise_remove l1 b l2 : pairwise_clear (l1 ++ b :: l2) → (∀ c, c ∈ l1 ++ l2 → clear_of b c) ∧ pairwise_clear (l1 ++ l2).
Proof.
  induction l1 as [|d l1 IH]; cbn [app pairwise_clear].
  - intros [H1 H2]. split; [by apply Forall_forall|done].
  - intros [H1 H2]. destruct (IH H2) as [H3 H4]. rewrite Forall_app, Forall_cons in H1. destruct H1 as (H5 & H6 & H7). split.
    + intros c [->|Hc]%elem_of_cons; [by apply clear_sym|by apply H3].
    + split; [|done]. by apply Forall_app.
Qed.

(** The state of [free] when the block [b] has been joined with what follows it. *)
Record pending (s : uheap W) (fl1 rest : list (Z * Z)) (b : Z * Z) (used : list (Z * Z)) : Prop := {
  pd_base : 0 < base < brk (h_os s);
  pd_top : brk (h_os s) ≤ 2 ^ 31;
  pd_zero : h_size s base = 0;
  pd_low : ∃ nx, links (h_ptr s) (base :: fl1.*1) nx;
  pd_high : links (h_ptr s) rest.*1 base;
  pd_ptr : h_ptr s (fst b) = hd base rest.*1;
  pd_here : 0 < snd b ∧ base < fst b;
  pd_order : in_order base fl1;
  pd_below : Forall (λ c, blk_end c ≤ fst b) fl1;
  pd_above : in_order (blk_end b) rest;
  pd_size c : c ∈ b :: fl1 ++ rest ++ used → h_size s (fst c) = snd c ∧ blk_end c ≤ brk (h_os s);
  pd_used c : c ∈ used → base < fst c ∧ 0 < snd c;
  pd_clear c d : c ∈ used → d ∈ b :: fl1 ++ rest → clear_of c d;
  pd_pair : pairwise_clear used
}.

(** What [free] achieves. *)
Definition freed (s : uheap W) (fl1 rest : list (Z * Z)) (b : Z * Z) (used : list (Z * Z)) (s' : uheap W) : Prop :=
  ∃ fl', heap_ok s' fl' used ∧ h_os s' = h_os s ∧ (length fl' ≤ length fl1 + S (length rest))%nat ∧
    (∀ z, covered fl' z ↔ covered fl1 z ∨ in_blk b z ∨ covered rest z) ∧
    ∃ c, c ∈ fl' ∧ fst c ≤ fst b ∧ blk_end b ≤ blk_end c.

Lemma order_join l1 b l2 lo :
  in_order lo l1 → lo < fst b → 0 < snd b → in_order (blk_end b) l2 → Forall (λ c, blk_end c ≤ fst b) l1 →
  (∀ c, last l1 = Some c → blk_end c ≠ fst b) → in_order lo (l1 ++ b :: l2).
Proof.
  intros H1 H2 H3 H4 H5 H6. apply in_order_app. split; [done|]. split_and!; [|done|done].
  destruct (last l1) as [c|] eqn:E; cbn; [|done]. apply last_Some in E as [l' ->].
  rewrite Forall_app, Forall_cons in H5. destruct H5 as (_ & H5 & _). specialize (H6 c eq_refl). lia.
Qed.

(** The block stays on its own. *)
Lemma join_none s fl1 rest b used :
  pending s fl1 rest b used → (∀ c, last fl1 = Some c → blk_end c ≠ fst b) →
  freed s fl1 rest b used (set_freep (pred_of base fl1) (set_ptr (pred_of base fl1) (fst b) s)).
Proof.
  intros [P1 P2 P3 [nx P4] P5 P6 [P7 P8] P9 P10 P11 P12 P13 P14 P15] Hne. set (p := pred_of base fl1).
  pose proof (order_join fl1 b rest base P9 P8 P7 P11 P10 Hne) as Ho.
  pose proof (order_nodup _ _ base Ho ltac:(lia)) as Hnd. rewrite fmap_app, app_comm_cons in Hnd. cbn [fmap list_fmap] in Hnd.
  apply NoDup_app in Hnd as (Hnd1 & Hdis & Hnd2).
  assert (p ∈ base :: fl1.*1) as Hp by apply pred_in.
  exists (fl1 ++ b :: rest). split_and!.
  - split; cbn [h_ptr h_size h_freep h_os set_freep set_ptr]; try done.
    + rewrite fmap_app, app_comm_cons. apply links_app. split.
      * cbn [fmap list_fmap hd]. by apply (links_upd _ _ nx).
      * cbn [fmap list_fmap]. apply links_skip; [by apply Hdis|]. split; [done|done].
    + intros c Hc. apply P12. rewrite !elem_of_app, !elem_of_cons in *. rewrite !elem_of_app. tauto.
    + rewrite fmap_app, app_comm_cons. apply elem_of_app. by left.
    + intros c d Hc Hd. apply P14; [done|]. rewrite elem_of_cons, elem_of_app. rewrite elem_of_app, elem_of_cons in Hd. tauto.
  - done.
  - rewrite length_app. cbn. lia.
  - intros z. by rewrite covered_app, covered_cons.
  - exists b. split_and!; [apply elem_of_app; right; apply elem_of_cons; by left|lia|lia].
Qed.

(** The block becomes part of the one before it. *)
Lemma join_low s fl1 rest b c used :
  pending s (fl1 ++ [c]) rest b used → blk_end c = fst b →
  freed s (fl1 ++ [c]) rest b used (set_freep (fst c) (set_ptr (fst c) (h_ptr s (fst b)) (set_size (fst c) (snd c + snd b) s))).
Proof.
  intros [P1 P2 P3 [nx P4] P5 P6 [P7 P8] P9 P10 P11 P12 P13 P14 P15] He. set (d := (fst c, snd c + snd b)).
  apply in_order_app in P9 as [O1 (O2 & O3 & _)].
  assert (blk_end d = blk_end b) as Ed by (unfold d, blk_end in *; cbn; lia).
  assert (in_order base (fl1 ++ d :: rest)) as Ho.
  { apply in_order_app. split; [done|]. split_and!; [done|cbn; lia|by rewrite Ed]. }
  pose proof (order_nodup _ _ base Ho ltac:(lia)) as Hnd. pose proof Hnd as Hnd0. rewrite fmap_app, app_comm_cons in Hnd. cbn [fmap list_fmap fst d] in Hnd.
  assert (base < fst c) as Hbc.
  { destruct (in_order_above _ _ d Ho) as [? _]; [apply elem_of_app; right; apply elem_of_cons; by left|done]. }
  assert (∀ x, x ∈ fl1 ++ rest → fst x ≠ fst c) as Hne.
  { intros x Hx. by apply (in_order_clear base fl1 d rest x Ho). }
  assert (∀ x, x ∈ used → fst x ≠ fst c) as Hnu.
  { intros x Hx. apply clear_ne; [|by apply P13|done]. apply P14; [done|]. rewrite elem_of_cons, !elem_of_app, list_elem_of_singleton. tauto. }
  exists (fl1 ++ d :: rest). split_and!.
  - split; cbn [h_ptr h_size h_freep h_os set_freep set_ptr set_size]; try done.
    + rewrite fmap_app. cbn [fmap list_fmap fst d]. rewrite app_comm_cons, (cons_middle (fst c)), app_assoc. apply links_app. split.
      * rewrite fmap_app in P4. change ([c].*1) with [fst c] in P4. rewrite P6.
        assert (base :: fl1.*1 ++ [fst c] = base :: (fl1 ++ [c]).*1) as E by (by rewrite fmap_app).
        change ((base :: fl1.*1) ++ [fst c]) with (base :: fl1.*1 ++ [fst c]). rewrite E in *.
        replace (fst c) with (pred_of base (fl1 ++ [c])) by apply pred_snoc. apply (links_upd _ _ nx); [|done].
        rewrite fmap_app. change ([c].*1) with [fst c]. rewrite app_comm_cons. rewrite cons_middle, app_assoc in Hnd. by apply NoDup_app in Hnd as (? & _ & _).
      * apply links_skip; [|done]. intros (x & E & Hx)%list_elem_of_fmap. apply (Hne x); [apply elem_of_app; by right|done].
    + rewrite upd_ne by lia. done.
    + intros x. rewrite elem_of_app, elem_of_app, elem_of_cons. intros [[Hx|[->|Hx]]|Hx].
      * rewrite upd_ne by (apply Hne, elem_of_app; by left). apply P12. rewrite elem_of_cons, !elem_of_app. tauto.
      * cbn [fst snd d]. rewrite upd_eq. split; [done|]. rewrite Ed. apply P12, elem_of_cons. by left.
      * rewrite upd_ne by (apply Hne, elem_of_app; by right). apply P12. rewrite elem_of_cons, !elem_of_app. tauto.
      * rewrite upd_ne by (by apply Hnu). apply P12. rewrite elem_of_cons, !elem_of_app. tauto.
    + rewrite fmap_app. apply elem_of_cons. right. apply elem_of_app. right. apply elem_of_cons. by left.
    + intros x y Hx. rewrite elem_of_app, elem_of_cons. intros [Hy|[->|Hy]].
      * apply P14; [done|]. rewrite elem_of_cons, !elem_of_app. tauto.
      * assert (clear_of x c) as C1 by (apply P14; [done|rewrite elem_of_cons, !elem_of_app, list_elem_of_singleton; tauto]).
        assert (clear_of x b) as C2 by (apply P14; [done|apply elem_of_cons; by left]). destruct (P13 x Hx). unfold clear_of in *. rewrite Ed. cbn [fst d]. unfold blk_end in *. lia.
      * apply P14; [done|]. rewrite elem_of_cons, !elem_of_app. tauto.
  - done.
  - rewrite !length_app. cbn. lia.
  - intros z. rewrite !covered_app, !covered_cons. assert (in_blk d z ↔ in_blk c z ∨ in_blk b z) as ->.
    { unfold in_blk. rewrite Ed. cbn [fst d]. unfold blk_end in *. lia. }
    pose proof (covered_nil z). tauto.
  - exists d. split_and!; [apply elem_of_app; right; apply elem_of_cons; by left|unfold blk_end in He; cbn; lia|lia].
Qed.

(** The second half of [free]. *)
Lemma free_low s fl1 rest b used :
  pending s fl1 rest b used →
  wp (k ← get_size (pred_of base fl1);
      (if pred_of base fl1 + sizeof_Header * k =? fst b then
         n ← get_size (fst b);
         modify (set_size (pred_of base fl1) (u32 (k + n)));;
         nn ← get_ptr (fst b);
         modify (set_ptr (pred_of base fl1) nn)
       else modify (set_ptr (pred_of base fl1) (fst b)));;
      modify (set_freep (pred_of base fl1))) (λ _ s', freed s fl1 rest b used s') s.
Proof.
  intros P. pose proof (pd_here _ _ _ _ _ P) as [Hn Hb]. pose proof (pd_top _ _ _ _ _ P). pose proof (pd_base _ _ _ _ _ P).
  apply wp_bind, wp_gets. change sizeof_Header with 16. destruct (last fl1) as [c|] eqn:E.
  - apply last_Some in E as [l ->]. rewrite pred_snoc.
    destruct (pd_size _ _ _ _ _ P c) as [Hs Hend]; [rewrite elem_of_cons, !elem_of_app, list_elem_of_singleton; tauto|]. rewrite Hs.
    destruct (in_order_above _ _ c (pd_order _ _ _ _ _ P)) as [Hc1 Hc2]; [apply elem_of_app; right; apply list_elem_of_singleton; done|].
    destruct (Z.eqb_spec (fst c + 16 * snd c) (fst b)) as [E|E].
    + destruct (pd_size _ _ _ _ _ P b) as [Hsb Hbend]; [apply elem_of_cons; by left|].
      apply wp_bind, wp_bind, wp_gets. rewrite Hsb, u32_small by (unfold blk_end in *; lia).
      apply wp_bind, wp_modify, wp_bind, wp_gets, wp_modify, wp_modify. exact (join_low s l rest b c used P E).
    + apply wp_bind, wp_modify, wp_modify. pose proof (join_none s (l ++ [c]) rest b used P) as J. rewrite pred_snoc in J. apply J.
      intros d Hd. rewrite last_snoc in Hd. injection Hd as <-. done.
  - assert (fl1 = []) as -> by (by apply last_None). change (pred_of base []) with base. rewrite (pd_zero _ _ _ _ _ P).
    rewrite (proj2 (Z.eqb_neq _ _)) by lia. apply wp_bind, wp_modify, wp_modify. by apply (join_none s [] rest b used P).
Qed.

(** A block is put back between [fl1] and [fl2]. *)
Record placed (s : uheap W) (fl1 fl2 : list (Z * Z)) (b : Z * Z) (used : list (Z * Z)) : Prop := {
  pl_heap : heap_ok s (fl1 ++ fl2) used;
  pl_size : h_size s (fst b) = snd b ∧ blk_end b ≤ brk (h_os s);
  pl_here : 0 < snd b ∧ base < fst b;
  pl_below : Forall (λ c, blk_end c ≤ fst b) fl1;
  pl_above : Forall (λ c, blk_end b ≤ fst c) fl2;
  pl_clear c : c ∈ used → clear_of c b
}.

(** The first half of [free]. *)
Lemma free_high s fl1 fl2 b used :
  placed s fl1 fl2 b used →
  let nx := hd base fl2.*1 in
  wp (if fst b + sizeof_Header * snd b =? nx then
        m ← get_size nx;
        modify (set_size (fst b) (u32 (snd b + m)));;
        nn ← get_ptr nx;
        modify (set_ptr (fst b) nn)
      else modify (set_ptr (fst b) nx))
    (λ _ s', h_os s' = h_os s ∧ h_freep s' = h_freep s ∧ ∃ n' rest, pending s' fl1 rest (fst b, n') used ∧
      snd b ≤ n' ∧ (length rest ≤ length fl2)%nat ∧ ∀ z, in_blk (fst b, n') z ∨ covered rest z ↔ in_blk b z ∨ covered fl2 z) s.
Proof.
  intros [[K1 K2 K3 K4 K5 K6 K7 K8 K9 K10] [Hs Hend] [Hn Hb] Hlow Hhigh Hcl] nx. change sizeof_Header with 16.
  rewrite fmap_app, app_comm_cons in K3. apply links_app in K3 as [K3a K3b]. apply in_order_app in K5 as [K5a K5b].
  assert (∀ c, c ∈ fl1 → fst c ≠ fst b) as N1.
  { intros c Hc. pose proof (proj1 (Forall_forall _ _) Hlow c Hc). destruct (in_order_above _ _ c K5a Hc). unfold blk_end in *. lia. }
  assert (∀ c, c ∈ used → fst c ≠ fst b) as N2.
  { intros c Hc. apply clear_ne; [by apply Hcl|by apply K7|done]. }
  assert (fst b ∉ base :: fl1.*1) as N3.
  { intros [E|(c & E & Hc)%list_elem_of_fmap]%elem_of_cons; [lia|by apply (N1 c)]. }
  destruct (Z.eqb_spec (fst b + 16 * snd b) nx) as [E|E].
  - destruct fl2 as [|c fl2]; [cbn in nx; unfold nx in E; lia|]. change nx with (fst c) in *. clear nx.
    destruct K5b as (O1 & O2 & O3). destruct K3b as [L1 L2].
    destruct (K6 c) as [Hsc Hec]; [rewrite !elem_of_app, elem_of_cons; tauto|].
    assert (∀ d, d ∈ fl2 → fst d ≠ fst b) as N4.
    { intros d Hd. destruct (in_order_above _ _ d O3 Hd). unfold blk_end in *. lia. }
    apply wp_bind, wp_gets. rewrite Hsc, u32_small by (unfold blk_end in *; lia).
    apply wp_bind, wp_modify, wp_bind, wp_gets, wp_modify. split_and!; [done|done|]. exists (snd b + snd c), fl2.
    assert (blk_end (fst b, snd b + snd c) = blk_end c) as Eb by (unfold blk_end in *; cbn; lia).
    split_and!; [|lia|cbn; lia|].
    2:{ intros z. rewrite covered_cons. unfold in_blk. rewrite Eb. cbn [fst]. unfold blk_end in *. split; [intros [?|?]; [|tauto]|]; [destruct (decide (z < fst c)); [left; lia|right; left; lia]|].
        intros [?|[?|?]]; [left; lia|left; lia|tauto]. }
    split; cbn [h_ptr h_size h_freep h_os set_freep set_ptr set_size fst snd]; try done.
    + by rewrite upd_ne by lia.
    + exists (fst c). by apply links_skip.
    + apply links_skip; [|done]. by intros (d & E' & Hd%N4)%list_elem_of_fmap.
    + rewrite upd_eq. exact L1.
    + split; [lia|done].
    + by rewrite Eb.
    + intros d. rewrite elem_of_cons, !elem_of_app. intros [->|[Hd|[Hd|Hd]]]; cbn [fst snd].
      * rewrite upd_eq, Eb. done.
      * rewrite upd_ne by (by apply N1). apply K6. rewrite !elem_of_app. tauto.
      * rewrite upd_ne by (by apply N4). apply K6. rewrite !elem_of_app, elem_of_cons. tauto.
      * rewrite upd_ne by (by apply N2). apply K6. rewrite !elem_of_app. tauto.
    + intros d x Hd. rewrite elem_of_cons, elem_of_app. intros [->|[Hx|Hx]].
      * pose proof (Hcl d Hd) as C1. assert (clear_of d c) as C2 by (apply K9; [done|rewrite elem_of_app, elem_of_cons; tauto]).
        destruct (K7 d Hd). unfold clear_of in *. rewrite Eb. cbn [fst]. unfold blk_end in *. lia.
      * apply K9; [done|]. rewrite elem_of_app. tauto.
      * apply K9; [done|]. rewrite elem_of_app, elem_of_cons. tauto.
  - apply wp_modify. split_and!; [done|done|]. exists (snd b), fl2. replace (fst b, snd b) with b by (by destruct b).
    assert (∀ d, d ∈ fl2 → fst d ≠ fst b) as N4.
    { intros d Hd. pose proof (proj1 (Forall_forall _ _) Hhigh d Hd). unfold blk_end in *. lia. }
    split_and!; [|done|done|done]. split; cbn [h_ptr h_size h_freep h_os set_freep set_ptr set_size]; try done.
    + exists nx. by apply links_skip.
    + apply links_skip; [|done]. by intros (d & E' & Hd%N4)%list_elem_of_fmap.
    + by rewrite upd_eq.
    + destruct fl2 as [|c fl2]; [done|]. destruct K5b as (O1 & O2 & O3). apply Forall_cons in Hhigh as [Hc _].
      split_and!; [|done|done]. unfold blk_end in *. unfold nx in E. cbn in E. lia.
    + intros d. rewrite elem_of_cons, !elem_of_app. intros [->|Hd]; [done|]. apply K6. rewrite !elem_of_app. tauto.
    + intros d x Hd. rewrite elem_of_cons, elem_of_app. intros [->|Hx]; [by apply Hcl|]. apply K9; [done|]. rewrite elem_of_app. tauto.
Qed.

Lemma free_ok s fl used1 b used2 fuel :
  heap_ok s fl (used1 ++ b :: used2) → (length fl + 1 < fuel)%nat →
  wp (free fuel (fst b + sizeof_Header)) (λ _ s', ∃ fl', heap_ok s' fl' (used1 ++ used2) ∧ h_os s' = h_os s ∧
    (length fl' ≤ S (length fl))%nat ∧ (∀ z, covered fl' z ↔ covered fl z ∨ in_blk b z) ∧
    ∃ c, c ∈ fl' ∧ fst c ≤ fst b ∧ blk_end b ≤ blk_end c) s.
Proof.
  intros K Hf. destruct (K) as [K1 K2 K3 K4 K5 K6 K7 K8 K9 K10].
  assert (b ∈ used1 ++ b :: used2) as Hb by (rewrite elem_of_app, elem_of_cons; tauto).
  destruct (K7 b Hb) as [Hbase Hn]. destruct (pairwise_remove _ _ _ K10) as [Hcl Hpair].
  assert (∀ c, c ∈ used1 ++ used2 → c ∈ used1 ++ b :: used2) as Hin by (intros c; rewrite !elem_of_app, elem_of_cons; tauto).
  destruct (split_order base fl b K5 Hn) as (fl1 & fl2 & -> & Hlow & Hhigh).
  { apply Forall_forall. intros c Hc. by apply K9. }
  assert (placed s fl1 fl2 b (used1 ++ used2)) as P.
  { split; try done.
    - split; try done.
      + intros c Hc. apply K6. rewrite elem_of_app in *. destruct Hc; [tauto|]. right. by apply Hin.
      + intros c Hc. by apply K7, Hin.
      + intros c d Hc. by apply K9, Hin.
    - apply K6, elem_of_app. by right.
    - intros c Hc. by apply clear_sym, Hcl. }
  unfold free. cbv zeta. replace (fst b + sizeof_Header - sizeof_Header) with (fst b) by lia.
  apply wp_bind, wp_gets. apply wp_bind.
  eapply wp_eq; [apply (free_find_ok (fst b) s fl1 fl2 (h_freep s)); try done|].
  { eapply Forall_impl; [exact Hhigh|]. intros c Hc. unfold blk_end in Hc. lia. }
  apply wp_bind, wp_gets. rewrite fmap_app, app_comm_cons in K3. apply links_app in K3 as [K3a K3b].
  rewrite (links_pred _ _ _ _ K3a). apply wp_bind, wp_gets. rewrite (proj1 (pl_size _ _ _ _ _ P)).
  apply wp_bind. eapply wp_mono; [exact (free_high s fl1 fl2 b _ P)|].
  intros [] s1 (Hos & Hfp & n' & rest & Pd & Hn' & Hlen & Hcov).
  eapply wp_mono; [exact (free_low s1 fl1 rest (fst b, n') _ Pd)|].
  intros [] s2 (fl' & K' & Hos' & Hlen' & Hcov' & c & Hc & Hc1 & Hc2). exists fl'. split_and!; [done|congruence| | |].
  - rewrite length_app. lia.
  - intros z. rewrite Hcov', Hcov, covered_app. tauto.
  - exists c. split_and!; [done|done|]. unfold blk_end in *. cbn in Hc2. lia.
Qed.

(** ** [malloc] *)

(** What taking [nu] units from the free blocks [fl] achieves. *)
Definition taken (s : uheap W) (fl used : list (Z * Z)) (nu r : Z) (s' : uheap W) : Prop :=
  ∃ fl', heap_ok s' fl' ((r - 16, nu) :: used) ∧ h_os s' = h_os s ∧
    ∀ z, covered fl z ↔ covered fl' z ∨ in_blk (r - 16, nu) z.

Lemma take_all s fl1 b fl2 used :
  heap_ok s (fl1 ++ b :: fl2) used →
  taken s (fl1 ++ b :: fl2) used (snd b) (fst b + 16)
    (set_freep (pred_of base fl1) (set_ptr (pred_of base fl1) (h_ptr s (fst b)) s)).
Proof.
  intros [K1 K2 K3 K4 K5 K6 K7 K8 K9 K10]. unfold taken. replace (fst b + 16 - 16) with (fst b) by lia. replace (fst b, snd b) with b by (by destruct b).
  pose proof K5 as Ho. apply in_order_app in Ho as [O1 (O2 & O3 & O4)].
  assert (base < fst b) as Hb by (apply (in_order_above _ _ _ K5); rewrite elem_of_app, elem_of_cons; tauto).
  pose proof (order_nodup _ _ base K5 ltac:(lia)) as Hnd. rewrite fmap_app, app_comm_cons in Hnd. apply NoDup_app in Hnd as (Hnd1 & Hdis & _).
  rewrite fmap_app, app_comm_cons in K3. apply links_app in K3 as [K3a [K3b K3c]].
  exists (fl1 ++ fl2). split_and!; [|done|].
  - split; cbn [h_ptr h_size h_freep h_os set_freep set_ptr]; try done.
    + rewrite fmap_app, app_comm_cons. apply links_app. rewrite K3b. split; [by eapply links_upd|].
      apply links_skip; [|done]. intros Hp. apply (Hdis (pred_of base fl1)); [apply pred_in|]. cbn. apply elem_of_cons. by right.
    + apply in_order_app. split; [done|]. eapply in_order_weaken; [exact O4|]. unfold blk_end in *. lia.
    + intros c Hc. apply K6. rewrite !elem_of_app, !elem_of_cons in Hc. rewrite !elem_of_app, !elem_of_cons. tauto.
    + intros c [->|Hc]%elem_of_cons; [done|by apply K7].
    + rewrite fmap_app, app_comm_cons. apply elem_of_app. left. apply pred_in.
    + intros c d [->|Hc]%elem_of_cons Hd; [by apply (in_order_clear base fl1 _ fl2)|]. apply K9; [done|]. rewrite elem_of_app, elem_of_cons in *. tauto.
    + split; [|done]. apply Forall_forall. intros c Hc. apply clear_sym, K9; [done|]. rewrite elem_of_app, elem_of_cons. tauto.
  - intros z. rewrite !covered_app, covered_cons. tauto.
Qed.

Lemma take_part s fl1 b fl2 used nu :
  heap_ok s (fl1 ++ b :: fl2) used → 0 < nu < snd b →
  let a := fst b + 16 * (snd b - nu) in
  taken s (fl1 ++ b :: fl2) used nu (a + 16)
    (set_freep (pred_of base fl1) (set_size a nu (set_size (fst b) (snd b - nu) s))).
Proof.
  intros [K1 K2 K3 K4 K5 K6 K7 K8 K9 K10] Hnu a. unfold taken. replace (a + 16 - 16) with a by lia.
  pose proof K5 as Ho. apply in_order_app in Ho as [O1 (O2 & O3 & O4)].
  assert (base < fst b) as Hb by (apply (in_order_above _ _ _ K5); rewrite elem_of_app, elem_of_cons; tauto).
  set (c := (fst b, snd b - nu)). assert (blk_end c = a) as Ec by done. assert (blk_end (a, nu) = blk_end b) as Ea by (unfold blk_end, a; cbn; lia).
  assert (∀ d, d ∈ (fl1 ++ fl2) ++ used → 0 < snd d ∧ clear_of b d) as Hoth.
  { intros d [Hd|Hd]%elem_of_app.
    - split; [|by apply (in_order_clear base fl1 b fl2)]. apply (in_order_above base (fl1 ++ b :: fl2) d K5). rewrite elem_of_app, elem_of_cons in *. tauto.
    - split; [by apply K7|]. apply clear_sym, K9; [done|]. rewrite elem_of_app, elem_of_cons. tauto. }
  assert (∀ d, d ∈ (fl1 ++ fl2) ++ used → fst d ≠ fst b ∧ fst d ≠ a ∧ clear_of (a, nu) d ∧ clear_of c d) as Hne.
  { intros d [Hd1 Hd2]%Hoth. unfold clear_of, c, a, blk_end in *. cbn. lia. }
  exists (fl1 ++ c :: fl2). split_and!; [|done|].
  - split; cbn [h_ptr h_size h_freep h_os set_freep set_size]; try done.
    + rewrite fmap_app in *. exact K3.
    + rewrite !upd_ne by lia. done.
    + apply in_order_app. split; [done|]. split_and!; [done|cbn; lia|]. eapply in_order_weaken; [exact O4|]. rewrite Ec. unfold blk_end, a. lia.
    + intros d. rewrite !elem_of_app, !elem_of_cons.
      destruct (K6 b) as [_ Heb]; [rewrite !elem_of_app, elem_of_cons; tauto|].
      assert (d ∈ (fl1 ++ fl2) ++ used → upd (upd (h_size s) (fst b) (snd b - nu)) a nu (fst d) = snd d ∧ blk_end d ≤ brk (h_os s)) as Hold.
      { intros Hd. destruct (Hne d Hd) as (N1 & N2 & _). rewrite !upd_ne by done. apply K6. rewrite !elem_of_app, elem_of_cons in *. tauto. }
      rewrite !elem_of_app in Hold. intros [[Hd|[->|Hd]]|[->|Hd]]; try tauto.
      * cbn [fst snd c]. rewrite upd_ne, upd_eq by (unfold a; lia). split; [done|]. rewrite Ec. unfold blk_end, a in *. lia.
      * cbn [fst snd]. rewrite upd_eq. split; [done|]. by rewrite Ea.
    + intros d [->|Hd]%elem_of_cons; [cbn; unfold a; lia|by apply K7].
    + rewrite fmap_app, app_comm_cons. apply elem_of_app. left. apply pred_in.
    + intros d e [->|Hd]%elem_of_cons He.
      * rewrite elem_of_app, elem_of_cons in He. destruct He as [He|[->|He]].
        -- apply Hne. rewrite !elem_of_app. tauto.
        -- right. rewrite Ec. cbn. lia.
        -- apply Hne. rewrite !elem_of_app. tauto.
      * rewrite elem_of_app, elem_of_cons in He. destruct He as [He|[->|He]].
        -- apply K9; [done|]. rewrite elem_of_app. tauto.
        -- apply clear_sym, Hne. rewrite !elem_of_app. tauto.
        -- apply K9; [done|]. rewrite elem_of_app, elem_of_cons. tauto.
    + split; [|done]. apply Forall_forall. intros d Hd. apply Hne. rewrite !elem_of_app. tauto.
  - intros z. rewrite !covered_app, !covered_cons. assert (in_blk b z ↔ in_blk c z ∨ in_blk (a, nu) z) as ->; [|tauto].
    unfold in_blk. rewrite Ec, Ea. cbn [fst c]. unfold a, blk_end. lia.
Qed.

Lemma take_units_ok s fl1 b fl2 used nu :
  heap_ok s (fl1 ++ b :: fl2) used → 0 < nu ≤ snd b →
  wp (malloc_take nu (pred_of base fl1) (fst b)) (taken s (fl1 ++ b :: fl2) used nu) s.
Proof.
  intros K Hnu. destruct (hk_size _ _ _ K b) as [Hs He]; [rewrite !elem_of_app, elem_of_cons; tauto|].
  pose proof (hk_top _ _ _ K). pose proof (hk_base _ _ _ K).
  assert (base < fst b) as Hb by (apply (in_order_above _ _ _ (hk_order _ _ _ K)); rewrite elem_of_app, elem_of_cons; tauto).
  unfold malloc_take. apply wp_bind, wp_gets. rewrite Hs. apply wp_bind. destruct (Z.eqb_spec (snd b) nu) as [E|E].
  - apply wp_bind, wp_gets, wp_bind, wp_modify, wp_ret, wp_bind, wp_modify, wp_ret. rewrite <- E. by apply take_all.
  - rewrite u32_small by (unfold blk_end in *; lia). cbv zeta. apply wp_bind, wp_modify, wp_bind, wp_modify, wp_ret, wp_bind, wp_modify, wp_ret.
    apply take_part; [done|lia].
Qed.

(** One round of the search, which visits [v] and then [freep]: either a block [y] is large
    enough, or there is none and [morecore] is called. *)
Lemma malloc_search s nu z v : ∀ x fuel,
  links (h_ptr s) (x :: v ++ [h_freep s]) z → h_freep s ∉ v → (length v < fuel)%nat →
  (∃ v1 x' y v2, x :: v ++ [h_freep s] = v1 ++ x' :: y :: v2 ∧ nu ≤ h_size s y ∧
     malloc_loop fuel nu x (h_ptr s x) s = malloc_take nu x' y s) ∨
  ((∀ y, y ∈ v ++ [h_freep s] → h_size s y < nu) ∧ ∃ f, fuel = (length v + S f)%nat ∧
     malloc_loop fuel nu x (h_ptr s x) s =
       (p ← morecore (S f) nu; if p =? 0 then mret 0 else nx ← get_ptr p; malloc_loop f nu p nx) s).
Proof.
  induction v as [|y v IH]; intros x fuel [Hp Hl] Hn Hf; (destruct fuel as [|f]; [lia|]); cbn [malloc_loop];
    cbn [app hd] in Hp; rewrite Hp; (erewrite bind_ret; [|reflexivity]).
  - destruct (Z.leb_spec nu (h_size s (h_freep s))) as [Hs|Hs].
    + left. by exists [], x, (h_freep s), [].
    + right. split; [by intros y ->%list_elem_of_singleton|]. exists f. split; [done|].
      erewrite bind_ret; [|reflexivity]. by rewrite Z.eqb_refl.
  - apply not_elem_of_cons in Hn as [Hy Hn]. destruct (Z.leb_spec nu (h_size s y)) as [Hs|Hs].
    + left. by exists [], x, y, (v ++ [h_freep s]).
    + erewrite bind_ret; [|reflexivity]. rewrite (proj2 (Z.eqb_neq y (h_freep s))) by done. erewrite bind_ret; [|reflexivity].
      destruct (IH y f Hl Hn ltac:(cbn in Hf; lia)) as [(v1 & x' & y' & v2 & E & Hs' & ->)|(Hall & f' & -> & ->)].
      * left. exists (x :: v1), x', y', v2. split_and!; [|done|done]. cbn. by f_equal.
      * right. split; [|by exists f']. intros y' [->|Hy']%elem_of_cons; [done|by apply Hall].
Qed.

Lemma links_consecutive ptr l z v1 x y v2 : links ptr l z → l = v1 ++ x :: y :: v2 → ptr x = y.
Proof. intros Hl ->. apply links_app in Hl as [_ [E _]]. exact E. Qed.

(** The element before a free block in the ring. *)
Lemma ring_pred s fl1 b fl2 used x :
  heap_ok s (fl1 ++ b :: fl2) used → x ∈ base :: (fl1 ++ b :: fl2).*1 → h_ptr s x = fst b → x = pred_of base fl1.
Proof.
  intros K Hx Ex. pose proof (hk_ring _ _ _ K) as Hl. pose proof (hk_order _ _ _ K) as Ho.
  assert (base < fst b) as Hb by (apply (in_order_above _ _ _ Ho); rewrite elem_of_app, elem_of_cons; tauto).
  assert (h_ptr s (pred_of base fl1) = fst b) as Eq.
  { pose proof Hl as Hl'. rewrite fmap_app, app_comm_cons in Hl'. apply links_app in Hl' as [Hl' _]. by apply (links_pred _ _ _ _ Hl'). }
  assert (pred_of base fl1 ∈ base :: (fl1 ++ b :: fl2).*1) as Hq.
  { rewrite fmap_app, app_comm_cons, elem_of_app. left. apply pred_in. }
  apply list_elem_of_lookup in Hx as [i Hi]. apply list_elem_of_lookup in Hq as [j Hj].
  pose proof (links_lookup _ _ _ _ _ Hl Hi) as E1. pose proof (links_lookup _ _ _ _ _ Hl Hj) as E2. rewrite Ex in E1. rewrite Eq in E2.
  set (l := base :: (fl1 ++ b :: fl2).*1) in *. assert (∀ k, fst b = default base (l !! S k) → l !! S k = Some (fst b)) as Hk.
  { intros k. destruct (l !! S k); cbn; [by intros ->|lia]. }
  apply Hk in E1, E2. assert (S i = S j) as [= ->] by (eapply NoDup_lookup; [by eapply order_nodup; [exact Ho|]|done|done]). congruence.
Qed.

(** The ring from the element after [freep] on. *)
Lemma ring_from s fl used :
  heap_ok s fl used → ∃ v z, links (h_ptr s) (h_freep s :: v ++ [h_freep s]) z ∧ h_freep s ∉ v ∧ length v = length fl ∧
    ∀ y, y ∈ v ++ [h_freep s] ↔ y ∈ base :: fl.*1.
Proof.
  intros K. pose proof (hk_ring _ _ _ K) as Hl. pose proof (hk_freep _ _ _ K) as Hf.
  pose proof (order_nodup _ _ base (hk_order _ _ _ K) ltac:(lia)) as Hnd. set (fp := h_freep s) in *.
  assert (length (base :: fl.*1) = S (length fl)) as Hlen by (cbn; by rewrite length_fmap).
  set (l := base :: fl.*1) in *. assert (hd base l = base) as Hh by done.
  apply list_elem_of_split in Hf as (l1 & l2 & E). rewrite E in *. clear E l.
  exists (l2 ++ l1), (hd base l2). apply links_app in Hl as [Hl1 [Hfp Hl2]]. cbn [hd] in Hl1.
  apply NoDup_app in Hnd as (_ & Hd & [Hn2 _]%NoDup_cons). split_and!.
  - split.
    + rewrite Hfp. destruct l2; [|done]. cbn in *. destruct l1; cbn in *; congruence.
    + rewrite <- app_assoc. apply links_app. split.
      * destruct l1; cbn in *; rewrite Hh; done.
      * apply links_app. split; [done|]. split; [done|done].
  - rewrite not_elem_of_app. split; [done|]. intros Hin. apply (Hd fp Hin). apply elem_of_cons. by left.
  - rewrite !length_app in *. cbn in Hlen. lia.
  - intros y. rewrite !elem_of_app, list_elem_of_singleton, elem_of_cons. tauto.
Qed.

(** A round that starts at [freep]. *)
Lemma malloc_round s fl used nu fuel :
  heap_ok s fl used → 0 < nu → (length fl < fuel)%nat →
  wp (malloc_loop fuel nu (h_freep s) (h_ptr s (h_freep s))) (taken s fl used nu) s ∨
  (∀ c, c ∈ fl → snd c < nu) ∧ ∃ f, fuel = (length fl + S f)%nat ∧
    malloc_loop fuel nu (h_freep s) (h_ptr s (h_freep s)) s =
      (p ← morecore (S f) nu; if p =? 0 then mret 0 else nx ← get_ptr p; malloc_loop f nu p nx) s.
Proof.
  intros K Hnu Hf. destruct (ring_from s fl used K) as (v & z & Hl & Hn & Hlen & Hin).
  destruct (malloc_search s nu z v (h_freep s) fuel Hl Hn ltac:(lia)) as [(v1 & x & y & v2 & E & Hs & El)|(Hall & f & -> & El)].
  - left. pose proof (links_consecutive _ _ _ _ _ _ _ Hl E) as Hp.
    assert (∀ w, w ∈ h_freep s :: v ++ [h_freep s] → w ∈ base :: fl.*1) as Hin'.
    { intros w [->|Hw]%elem_of_cons; [apply K|by apply Hin]. }
    assert (y ∈ base :: fl.*1) as Hy by (apply Hin'; rewrite E, elem_of_app, !elem_of_cons; tauto).
    assert (x ∈ base :: fl.*1) as Hx by (apply Hin'; rewrite E, elem_of_app, !elem_of_cons; tauto).
    apply elem_of_cons in Hy as [->|Hy]; [rewrite (hk_zero _ _ _ K) in Hs; lia|].
    apply fst_fmap_in in Hy as (n & fl1 & fl2 & ->).
    destruct (hk_size _ _ _ K (y, n)) as [Hsz _]; [rewrite !elem_of_app, elem_of_cons; tauto|]. cbn in Hsz. rewrite Hsz in Hs.
    rewrite (ring_pred s fl1 (y, n) fl2 used x K Hx Hp) in El. unfold wp. rewrite El.
    by apply (take_units_ok s fl1 (y, n) fl2 used nu K).
  - right. split.
    + intros c Hc. destruct (hk_size _ _ _ K c) as [<- _]; [apply elem_of_app; by left|]. apply Hall, Hin, elem_of_cons. right.
      apply list_elem_of_fmap. by exists c.
    + exists f. rewrite Hlen in *. done.
Qed.

Context {SL : SbrkLaws}.

(** Fresh memory from [sbrk] is a block of its own. *)
Lemma fresh_block s fl used w nu :
  heap_ok s fl used → 0 < nu → brk w = brk (h_os s) + 16 * nu → brk w ≤ 2 ^ 31 →
  heap_ok (set_size (brk (h_os s)) nu (Mk_uheap (h_ptr s) (h_size s) (h_freep s) w)) fl ((brk (h_os s), nu) :: used).
Proof.
  intros [K1 K2 K3 K4 K5 K6 K7 K8 K9 K10] Hnu Hw Ht. set (p := brk (h_os s)) in *.
  assert (∀ c, c ∈ fl ++ used → 0 < snd c ∧ blk_end c ≤ p) as Hold.
  { intros c Hc. split; [|by apply K6]. apply elem_of_app in Hc as [Hc|Hc]; [by apply (in_order_above _ _ _ K5)|by apply K7]. }
  assert (∀ c, c ∈ fl ++ used → clear_of (p, nu) c) as Hcl by (intros c Hc; right; cbn; by apply Hold).
  split; cbn [h_ptr h_size h_freep h_os set_size]; try done; try lia.
  - rewrite upd_ne by lia. done.
  - intros c. rewrite elem_of_app, elem_of_cons. intros [Hc|[->|Hc]].
    2:{ cbn [fst snd]. rewrite upd_eq. split; [done|]. unfold blk_end. cbn. lia. }
    all: destruct (Hold c) as [H1 H2]; [rewrite elem_of_app; tauto|]; unfold blk_end in H2; rewrite upd_ne by lia;
      destruct (K6 c) as [H3 H4]; [rewrite elem_of_app; tauto|]; split; [done|lia].
  - intros c [->|Hc]%elem_of_cons; [cbn; lia|by apply K7].
  - intros c d [->|Hc]%elem_of_cons Hd; [apply Hcl, elem_of_app; by left|by apply K9].
  - split; [|done]. apply Forall_forall. intros c Hc. apply Hcl, elem_of_app. by right.
Qed.

Lemma morecore_ok s fl used nu fuel :
  heap_ok s fl used → 0 < nu < 2 ^ 27 → (length fl + 1 < fuel)%nat →
  wp (morecore fuel nu) (λ r s',
    r = 0 ∧ heap_ok s' fl used ∨
    r = h_freep s' ∧ r ≠ 0 ∧ ∃ fl', heap_ok s' fl' used ∧ (length fl' ≤ S (length fl))%nat ∧
      (∀ z, covered fl z → covered fl' z) ∧ ∃ c, c ∈ fl' ∧ nu ≤ snd c) s.
Proof.
  intros K Hnu Hf. unfold morecore. set (n := if nu <? 4096 then 4096 else nu).
  assert (nu ≤ n < 2 ^ 27) as Hn by (unfold n; destruct (Z.ltb_spec nu 4096); lia). clearbody n. cbv zeta.
  change sizeof_Header with 16. rewrite s32_small by lia. apply wp_bind. unfold sbrk, wp.
  pose proof (hk_base _ _ _ K) as Hbase.
  destruct (law_sbrk (n * 16) (h_os s) ltac:(lia)) as [(w & -> & Hb)|(w & -> & Hb & Ht)].
  - cbn [Z.eqb Pos.eqb]. left. split; [done|]. destruct K as [K1 K2 K3 K4 K5 K6 K7 K8 K9 K10]. split; cbn [h_ptr h_size h_freep h_os]; rewrite ?Hb; done.
  - fold (@wp (uheap W) Z). rewrite (proj2 (Z.eqb_neq _ _)) by lia.
    apply (wp_bind (modify (set_size (brk (h_os s)) n)) _ _ (Mk_uheap (h_ptr s) (h_size s) (h_freep s) w)), wp_modify.
    set (s1 := set_size _ _ _). assert (heap_ok s1 fl ((brk (h_os s), n) :: used)) as K1 by (apply fresh_block; [done|lia|lia|lia]).
    apply wp_bind. eapply wp_mono; [apply (free_ok s1 fl [] (brk (h_os s), n) used fuel K1 Hf)|].
    intros [] s2 (fl' & K2 & _ & Hlen & Hcov & c & Hc & Hc1 & Hc2). apply wp_gets. right. split_and!; [done| |].
    + pose proof (hk_freep _ _ _ K2) as Hfp. apply elem_of_cons in Hfp as [->|(d & -> & Hd)%list_elem_of_fmap]; [lia|].
      destruct (in_order_above _ _ d (hk_order _ _ _ K2) Hd). lia.
    + exists fl'. split_and!; [done|done|intros z Hz; apply Hcov; by left|]. exists c. split; [done|]. unfold blk_end in Hc2. cbn in *. lia.
Qed.

(** The heap before the first call of [malloc]. *)
Definition heap_fresh (s : uheap W) : Prop := h_freep s = 0 ∧ 0 < base < brk (h_os s) ∧ brk (h_os s) ≤ 2 ^ 31.

(** C5. [malloc] gives out memory that nobody else has. Let [fl] be the free blocks and [used]
    the blocks given out. [malloc] returns; either it returns 0, no free block was large
    enough and nothing has changed, or it returns the address behind the header of a block
    of [nunits] units, enough for [nbytes], that overlaps neither a block in use nor a block
    that is still free. No free memory is lost. The number of rounds is bounded by the
    number of free blocks. *)
Theorem malloc_correct s fl used nbytes fuel :
  heap_ok s fl used ∨ heap_fresh s ∧ fl = [] ∧ used = [] → 0 ≤ nbytes < 2 ^ 30 → (2 * length fl + 4 < fuel)%nat →
  let nunits := (nbytes + 15) / 16 + 1 in
  wp (malloc base fuel nbytes) (λ r s',
    r = 0 ∧ heap_ok s' fl used ∧ (∀ c, c ∈ fl → snd c < nunits) ∨
    nbytes ≤ 16 * (nunits - 1) ∧ ∃ fl', heap_ok s' fl' ((r - 16, nunits) :: used) ∧
      ∀ z, covered fl z → covered fl' z ∨ in_blk (r - 16, nunits) z) s.
Proof.
  intros Hs Hnb Hf nunits. assert (nbytes ≤ 16 * (nunits - 1)) as Hbig by (unfold nunits; Z.to_euclidean_division_equations; lia).
  assert (0 < nunits < 2 ^ 27) as Hnu by (unfold nunits; Z.to_euclidean_division_equations; lia).
  unfold malloc. change sizeof_Header with 16. replace (nbytes + 16 - 1) with (nbytes + 15) by lia. fold nunits. rewrite u32_small by lia. clearbody nunits.
  assert (∀ s, heap_ok s fl used → wp (p ← get_ptr (h_freep s); malloc_loop fuel nunits (h_freep s) p) (λ r s',
    r = 0 ∧ heap_ok s' fl used ∧ (∀ c, c ∈ fl → snd c < nunits) ∨
    nbytes ≤ 16 * (nunits - 1) ∧ ∃ fl', heap_ok s' fl' ((r - 16, nunits) :: used) ∧
      ∀ z, covered fl z → covered fl' z ∨ in_blk (r - 16, nunits) z) s) as Hgo.
  { clear Hs s. intros s K. apply wp_bind, wp_gets.
    destruct (malloc_round s fl used nunits fuel K ltac:(lia) ltac:(lia)) as [Hw|(Hno & f & -> & El)].
    - eapply wp_mono; [exact Hw|]. intros r s' (fl' & K' & _ & Hcov). right. split; [done|]. exists fl'. split; [done|]. intros z. apply Hcov.
    - unfold wp. rewrite El. fold (@wp (uheap W) Z). apply wp_bind. eapply wp_mono; [apply (morecore_ok s fl used); [done|lia|lia]|].
      intros r s1 [[-> K1]|(-> & Hr & fl1 & K1 & Hlen & Hcov & c & Hc & Hc')].
      + apply wp_ret. left. done.
      + rewrite (proj2 (Z.eqb_neq _ _)) by done. apply wp_bind, wp_gets.
        destruct (malloc_round s1 fl1 used nunits f K1 ltac:(lia) ltac:(lia)) as [Hw|(Hno' & _)].
        * eapply wp_mono; [exact Hw|]. intros r s' (fl' & K' & _ & Hcov'). right. split; [done|]. exists fl'. split; [done|].
          intros z Hz. by apply Hcov', Hcov.
        * specialize (Hno' c Hc). lia. }
  apply wp_bind, wp_gets. destruct Hs as [K|[(Hfp & Hb & Ht) [-> ->]]].
  - assert (h_freep s ≠ 0) as Hfp.
    { pose proof (hk_freep _ _ _ K) as Hfp. pose proof (hk_base _ _ _ K). apply elem_of_cons in Hfp as [->|(d & -> & Hd)%list_elem_of_fmap]; [lia|].
      destruct (in_order_above _ _ d (hk_order _ _ _ K) Hd). lia. }
    rewrite (proj2 (Z.eqb_neq _ _)) by done. apply wp_bind, wp_ret. by apply Hgo.
  - rewrite Hfp. cbn [Z.eqb]. apply wp_bind. do 3 apply wp_bind, wp_modify. apply wp_ret.
    apply (Hgo (set_size base 0 (set_freep base (set_ptr base base s)))). split; cbn; try done.
    + split; [|done]. apply upd_eq.
    + apply upd_eq.
    + by intros c ?%not_elem_of_nil.
    + by intros c ?%not_elem_of_nil.
    + apply elem_of_cons. by left.
    + by intros c d ?%not_elem_of_nil.
Qed.

(** C6. [free] gives a block back. The block [b] is in use and [free] is called with the address
    behind its header; [free] returns, the block is free and the others in use are as before:
    the free bytes are those that were free and those of [b]. The ring stays in order, and
    blocks that touch each other have become one. *)
Theorem free_correct s fl used1 b used2 fuel :
  heap_ok s fl (used1 ++ b :: used2) → (length fl + 1 < fuel)%nat →
  wp (free fuel (fst b + sizeof_Header)) (λ _ s', ∃ fl', heap_ok s' fl' (used1 ++ used2) ∧
    ∀ z, covered fl' z ↔ covered fl z ∨ in_blk b z) s.
Proof.
  intros K Hf. eapply wp_mono; [by apply free_ok|]. intros [] s' (fl' & K' & _ & _ & Hcov & _). by exists fl'.
Qed.
End heap.

(** ** An example: a process whose break can grow to 128 megabytes *)

Definition break_os : SbrkOS Z := {| u_sbrk n w := if w + n <=? 0x8000000 then Ret w (w + n) else Ret (-1) w |}.
#[local] Existing Instance break_os.

Lemma break_laws : SbrkLaws (λ w : Z, w).
Proof.
  split. intros n w Hn. cbn [u_sbrk break_os]. destruct (Z.leb_spec (w + n) 0x8000000); [right|left]; eexists; split_and!; try done; lia.
Qed.

Definition demo_heap : uheap Z := Mk_uheap (λ _, 0) (λ _, 0) 0 0x5000.

Lemma malloc_correct_witness : ∃ r s fl, malloc 0x1000 10 100 demo_heap = Ret r s ∧ heap_ok (λ w, w) 0x1000 s fl [(r - 16, 8)].
Proof.
  pose proof (malloc_correct (λ w : Z, w) 0x1000 (SL:=break_laws) demo_heap [] [] 100 10) as H.
  destruct (wp_elim _ _ _ (H ltac:(right; split_and!; [split_and!; [reflexivity|cbn; lia|cbn; lia|cbn; lia]|reflexivity|reflexivity]) ltac:(lia) ltac:(cbn; lia)))
    as (r & s & E & [(Hr & _)|(_ & fl & K & _)]).
  - assert (match malloc 0x1000 10 100 demo_heap with Ret r _ => r =? 0 | _ => true end = false) as Hz by (vm_compute; reflexivity).
    rewrite E, Hr in Hz. discriminate.
  - exists r, s, fl. split; [exact E|exact K].
Defined.

(** The heap after three calls of [malloc]: one block is in the way of the free ones. *)
Definition demo_hdr (a : Z) : Z := if a =? 0x5000 then 4 else if a =? 0x5040 then 2 else if a =? 0x5060 then 6 else 0.
Definition demo_ring (a : Z) : Z := if a =? 0x1000 then 0x5000 else if a =? 0x5000 then 0x5060 else 0x1000.
Definition demo_heap3 : uheap Z := Mk_uheap demo_ring demo_hdr 0x5000 0x50c0.

Lemma demo_heap3_ok : heap_ok (λ w, w) 0x1000 demo_heap3 [(0x5000, 4); (0x5060, 6)] [(0x5040, 2)].
Proof.
  split; try (cbn; done).
  - intros b. cbn [app]. rewrite !elem_of_cons. intros [->|[->|[->|Hb]]]; [done|done|done|by apply not_elem_of_nil in Hb].
  - intros b ->%list_elem_of_singleton. done.
  - cbn. rewrite !elem_of_cons. tauto.
  - intros b c ->%list_elem_of_singleton. rewrite elem_of_cons, list_elem_of_singleton. intros [-> | ->]; unfold clear_of, blk_end; cbn; lia.
Qed.

(** All memory is one block again. *)
Lemma free_correct_witness : ∃ s fl, free 10 0x5050 demo_heap3 = Ret () s ∧ heap_ok (λ w, w) 0x1000 s fl [] ∧ h_size s 0x5000 = 12.
Proof.
  destruct (wp_elim _ _ _ (free_correct (λ w : Z, w) 0x1000 demo_heap3 [(0x5000, 4); (0x5060, 6)] [] (0x5040, 2) [] 10 demo_heap3_ok ltac:(cbn; lia)))
    as ([] & s & E & fl & K & _).
  exists s, fl. split; [exact E|]. split; [exact K|].
  assert (match free 10 0x5050 demo_heap3 with Ret _ s => h_size s 0x5000 =? 12 | _ => false end = true) as Hz by (vm_compute; reflexivity).
  change (fst (0x5040, 2) + sizeof_Header) with 0x5050 in E. rewrite E in Hz. by apply Z.eqb_eq in Hz.
Defined.

(** The argument of [sbrk] is an [int]: for 2^32 - 16 bytes it is 0, [sbrk] succeeds without
    giving any memory, and [malloc] returns a block of 2^28 units that does not exist. *)
Lemma malloc_truncates : ∃ r s, malloc 0x1000 10 0xfffffff0 demo_heap = Ret r s ∧ r = 0x5010 ∧ h_size s 0x5000 = 2 ^ 28 ∧ h_os s = h_os demo_heap.
Proof. do 2 eexists. split; [vm_compute; reflexivity|]. vm_compute. done. Qed.
