(* ===== verification/UTree.v ===== *)
(** * Test programs as trees of system calls

    A process of a test program makes one system call after the other and goes on with
    the result; after a fork the parent and the child go on separately. [utree] has the
    system calls that user/usertests.c, user/grind.c and the smaller test programs make;
    where a test hands a system call an address instead of a string or a buffer of its own,
    the node is [UCall]. [uruns] is what one process can observe, as far as its table of
    descriptors is concerned. *)

From S2P Require Import Prelude Machine State KString User.

(** An argument of a system call: a number, a string, an address. *)
Inductive cval := CInt (z : Z) | CStr (s : list Z) | CPtr (a : Z).
Inductive ucall := C_open | C_unlink | C_link | C_exec | C_write | C_read | C_pipe.

Record ustat := Mk_ustat { us_ino : Z; us_size : Z }.

Inductive utree (A : Type) :=
  | URet (a : A)
  | UExit (st : Z)
  | UFork (k : Z → utree A)                              (** in the child with 0 *)
  | UWait (k : Z → Z → utree A)                          (** the pid and the status *)
  | UPipe (k : option (Z * Z) → utree A)                 (** the two descriptors *)
  | URead (fd n : Z) (k : Z → list Z → utree A)          (** the result and the bytes *)
  | UWrite (fd : Z) (bytes : list Z) (k : Z → utree A)
  | UClose (fd : Z) (k : Z → utree A)
  | UKill (pid : Z) (k : Z → utree A)
  | UExec (path : list Z) (argv : list (list Z)) (k : Z → utree A)
  | UOpen (path : list Z) (mode : Z) (k : Z → utree A)
  | UUnlink (path : list Z) (k : Z → utree A)
  | UFstat (fd : Z) (k : option ustat → utree A)
  | ULink (old new : list Z) (k : Z → utree A)
  | UMkdir (path : list Z) (k : Z → utree A)
  | UChdir (path : list Z) (k : Z → utree A)
  | UDup (fd : Z) (k : Z → utree A)
  | UGetpid (k : Z → utree A)
  | USbrk (n : Z) (k : Z → utree A)
  | USleep (n : Z) (k : Z → utree A)
  | USysinfo (k : option (Z * Z * Z) → utree A)          (** freemem, nproc, nopenfiles *)
  | UPrintf (fd : Z) (fmt : list Z) (args : list uarg) (k : utree A)
  | UCall (c : ucall) (args : list cval) (k : Z → utree A)
  | ULoad (a : Z) (k : Z → utree A)                      (** the byte at an address *)
  | UStore (a v : Z) (k : utree A)
  | UMalloc (n : Z) (k : Z → utree A)
  | UFree (a : Z) (k : utree A)
  | USpin.                                               (** runs on until it is killed *)
Arguments URet {A}. Arguments UExit {A}. Arguments UFork {A}. Arguments UWait {A}. Arguments UPipe {A}.
Arguments URead {A}. Arguments UWrite {A}. Arguments UClose {A}. Arguments UKill {A}. Arguments UExec {A}.
Arguments UOpen {A}. Arguments UUnlink {A}. Arguments UFstat {A}. Arguments ULink {A}. Arguments UMkdir {A}.
Arguments UChdir {A}. Arguments UDup {A}. Arguments UGetpid {A}. Arguments USbrk {A}. Arguments USleep {A}.
Arguments USysinfo {A}. Arguments UPrintf {A}. Arguments UCall {A}. Arguments ULoad {A}. Arguments UStore {A}.
Arguments UMalloc {A}. Arguments UFree {A}. Arguments USpin {A}.

Global Instance utree_ret : MRet utree := @URet.
Global Instance utree_bind : MBind utree := λ A B f,
  fix bind (t : utree A) : utree B :=
    match t with
    | URet a => f a
    | UExit st => UExit st
    | UFork k => UFork (λ r, bind (k r))
    | UWait k => UWait (λ r st, bind (k r st))
    | UPipe k => UPipe (λ r, bind (k r))
    | URead fd n k => URead fd n (λ r bs, bind (k r bs))
    | UWrite fd bs k => UWrite fd bs (λ r, bind (k r))
    | UClose fd k => UClose fd (λ r, bind (k r))
    | UKill pid k => UKill pid (λ r, bind (k r))
    | UExec p a k => UExec p a (λ r, bind (k r))
    | UOpen p m k => UOpen p m (λ r, bind (k r))
    | UUnlink p k => UUnlink p (λ r, bind (k r))
    | UFstat fd k => UFstat fd (λ r, bind (k r))
    | ULink p q k => ULink p q (λ r, bind (k r))
    | UMkdir p k => UMkdir p (λ r, bind (k r))
    | UChdir p k => UChdir p (λ r, bind (k r))
    | UDup fd k => UDup fd (λ r, bind (k r))
    | UGetpid k => UGetpid (λ r, bind (k r))
    | USbrk n k => USbrk n (λ r, bind (k r))
    | USleep n k => USleep n (λ r, bind (k r))
    | USysinfo k => USysinfo (λ r, bind (k r))
    | UPrintf fd fmt a k => UPrintf fd fmt a (bind k)
    | UCall c a k => UCall c a (λ r, bind (k r))
    | ULoad a k => ULoad a (λ r, bind (k r))
    | UStore a v k => UStore a v (bind k)
    | UMalloc n k => UMalloc n (λ r, bind (k r))
    | UFree a k => UFree a (bind k)
    | USpin => USpin
    end.

Definition t_fork : utree Z := UFork URet.
Definition t_wait : utree (Z * Z) := UWait (λ r st, URet (r, st)).
Definition t_pipe : utree (option (Z * Z)) := UPipe URet.
Definition t_read (fd n : Z) : utree (Z * list Z) := URead fd n (λ r bs, URet (r, bs)).
Definition t_write (fd : Z) (bytes : list Z) : utree Z := UWrite fd bytes URet.
Definition t_close (fd : Z) : utree Z := UClose fd URet.
Definition t_kill (pid : Z) : utree Z := UKill pid URet.
Definition t_exec (path : string) (argv : list string) : utree Z := UExec (bytes_of_string path) (bytes_of_string <$> argv) URet.
Definition t_open (path : string) (mode : Z) : utree Z := UOpen (bytes_of_string path) mode URet.
Definition t_unlink (path : string) : utree Z := UUnlink (bytes_of_string path) URet.
Definition t_fstat (fd : Z) : utree (option ustat) := UFstat fd URet.
Definition t_link (old new : string) : utree Z := ULink (bytes_of_string old) (bytes_of_string new) URet.
Definition t_mkdir (path : string) : utree Z := UMkdir (bytes_of_string path) URet.
Definition t_chdir (path : string) : utree Z := UChdir (bytes_of_string path) URet.
Definition t_dup (fd : Z) : utree Z := UDup fd URet.
Definition t_getpid : utree Z := UGetpid URet.
Definition t_sbrk (n : Z) : utree Z := USbrk n URet.
Definition t_sleep (n : Z) : utree Z := USleep n URet.
Definition t_sysinfo : utree (option (Z * Z * Z)) := USysinfo URet.
Definition t_printf (fd : Z) (fmt : list Z) (args : list uarg) : utree unit := UPrintf fd fmt args (URet tt).
Definition t_exit {A} (st : Z) : utree A := UExit st.
Definition t_call (c : ucall) (args : list cval) : utree Z := UCall c args URet.
Definition t_load (a : Z) : utree Z := ULoad a URet.
Definition t_store (a v : Z) : utree unit := UStore a v (URet tt).
Definition t_malloc (n : Z) : utree Z := UMalloc n URet.
Definition t_free (a : Z) : utree unit := UFree a (URet tt).

(** ** Descriptors

    [uruns fds t fds' a]: a process with the descriptors [fds] can run [t] to its end, with
    the result [a], and then has the descriptors [fds']. The kernel gives out descriptors
    that are not in use; any call may fail; the results of other calls are arbitrary. *)
Inductive uruns {A} : gset Z → utree A → gset Z → A → Prop :=
  | R_ret f a : uruns f (URet a) f a
  | R_fork f k r f' a : uruns f (k r) f' a → uruns f (UFork k) f' a
  | R_wait f k r st f' a : uruns f (k r st) f' a → uruns f (UWait k) f' a
  | R_pipe f k x y f' a : 0 ≤ x → 0 ≤ y → x ∉ f → y ∉ f → x ≠ y →
      uruns ({[ x; y ]} ∪ f) (k (Some (x, y))) f' a → uruns f (UPipe k) f' a
  | R_pipe_fail f k f' a : uruns f (k None) f' a → uruns f (UPipe k) f' a
  | R_read f fd n k r bs f' a : uruns f (k r bs) f' a → uruns f (URead fd n k) f' a
  | R_write f fd bs k r f' a : uruns f (k r) f' a → uruns f (UWrite fd bs k) f' a
  | R_close f fd k r f' a : uruns (f ∖ {[ fd ]}) (k r) f' a → uruns f (UClose fd k) f' a
  | R_kill f pid k r f' a : uruns f (k r) f' a → uruns f (UKill pid k) f' a
  | R_exec f p l k r f' a : uruns f (k r) f' a → uruns f (UExec p l k) f' a
  | R_open f p m k r f' a : 0 ≤ r → r ∉ f → uruns ({[ r ]} ∪ f) (k r) f' a → uruns f (UOpen p m k) f' a
  | R_open_fail f p m k r f' a : r < 0 → uruns f (k r) f' a → uruns f (UOpen p m k) f' a
  | R_unlink f p k r f' a : uruns f (k r) f' a → uruns f (UUnlink p k) f' a
  | R_fstat f fd k r f' a : uruns f (k r) f' a → uruns f (UFstat fd k) f' a
  | R_link f p q k r f' a : uruns f (k r) f' a → uruns f (ULink p q k) f' a
  | R_mkdir f p k r f' a : uruns f (k r) f' a → uruns f (UMkdir p k) f' a
  | R_chdir f p k r f' a : uruns f (k r) f' a → uruns f (UChdir p k) f' a
  | R_dup f fd k r f' a : 0 ≤ r → r ∉ f → fd ∈ f → uruns ({[ r ]} ∪ f) (k r) f' a → uruns f (UDup fd k) f' a
  | R_dup_fail f fd k r f' a : r < 0 → uruns f (k r) f' a → uruns f (UDup fd k) f' a
  | R_getpid f k r f' a : uruns f (k r) f' a → uruns f (UGetpid k) f' a
  | R_sbrk f n k r f' a : uruns f (k r) f' a → uruns f (USbrk n k) f' a
  | R_sleep f n k r f' a : uruns f (k r) f' a → uruns f (USleep n k) f' a
  | R_sysinfo f k r f' a : uruns f (k r) f' a → uruns f (USysinfo k) f' a
  | R_printf f fd fmt l k f' a : uruns f k f' a → uruns f (UPrintf fd fmt l k) f' a
  | R_call f c l k r f1 f' a : f ⊆ f1 → uruns f1 (k r) f' a → uruns f (UCall c l k) f' a
  | R_load f x k r f' a : uruns f (k r) f' a → uruns f (ULoad x k) f' a
  | R_store f x v k f' a : uruns f k f' a → uruns f (UStore x v k) f' a
  | R_malloc f n k r f' a : uruns f (k r) f' a → uruns f (UMalloc n k) f' a
  | R_free f x k f' a : uruns f k f' a → uruns f (UFree x k) f' a.

(** Running a sequence. *)
Lemma uruns_bind {A B} (t : utree A) (g : A → utree B) : ∀ f f' b,
  uruns f (t ≫= g) f' b → ∃ f1 a, uruns f t f1 a ∧ uruns f1 (g a) f' b.
Proof.
  induction t as [x|st|k IH|k IH|k IH|fd n k IH|fd bs k IH|fd k IH|pid k IH|p l k IH|p m k IH|p k IH|fd k IH|p q k IH|p k IH|p k IH|fd k IH
    |k IH|n k IH|n k IH|k IH|fd fmt l k IH|c l k IH|x k IH|x v k IH|n k IH|x k IH|]; intros f f' b Hr; cbn [mbind utree_bind] in Hr.
  1: by exists f, x; split; [constructor|].
  all: inversion_clear Hr; match goal with H' : uruns _ _ _ _ |- _ => apply IH in H' as (fe & ae & Ht & Hg) end; exists fe, ae; (split; [|exact Hg]).
  all: econstructor; [..|exact Ht]; done.
Qed.

(** What holds after every run, by recursion on the tree. *)
Fixpoint always {A} (t : utree A) (Q : gset Z → A → Prop) (f : gset Z) : Prop :=
  match t with
  | URet a => Q f a
  | UExit _ => True
  | UFork k | UWrite _ _ k | UKill _ k | UExec _ _ k | UUnlink _ k | ULink _ _ k | UMkdir _ k | UChdir _ k | UGetpid k | USbrk _ k | USleep _ k
  | ULoad _ k | UMalloc _ k =>
      ∀ r, always (k r) Q f
  | UWait k => ∀ r st, always (k r st) Q f
  | UPipe k => always (k None) Q f ∧
      ∀ x y, 0 ≤ x → 0 ≤ y → x ∉ f → y ∉ f → x ≠ y → always (k (Some (x, y))) Q ({[ x; y ]} ∪ f)
  | URead _ _ k => ∀ r bs, always (k r bs) Q f
  | UClose fd k => ∀ r, always (k r) Q (f ∖ {[ fd ]})
  | UOpen _ _ k => (∀ r, r < 0 → always (k r) Q f) ∧ ∀ r, 0 ≤ r → r ∉ f → always (k r) Q ({[ r ]} ∪ f)
  | UDup fd k => (∀ r, r < 0 → always (k r) Q f) ∧ ∀ r, 0 ≤ r → r ∉ f → fd ∈ f → always (k r) Q ({[ r ]} ∪ f)
  | UFstat _ k => ∀ r, always (k r) Q f
  | USysinfo k => ∀ r, always (k r) Q f
  | UPrintf _ _ _ k | UStore _ _ k | UFree _ k => always k Q f
  | UCall _ _ k => ∀ r f1, f ⊆ f1 → always (k r) Q f1
  | USpin => True
  end.

Lemma always_sound {A} (t : utree A) Q f f' a : always t Q f → uruns f t f' a → Q f' a.
Proof. intros H R. induction R; cbn [always] in H; try destruct H as [? H]; auto. Qed.

Lemma always_complete {A} (t : utree A) Q : ∀ f, (∀ f' a, uruns f t f' a → Q f' a) → always t Q f.
Proof.
  induction t as [x|st|k IH|k IH|k IH|fd n k IH|fd bs k IH|fd k IH|pid k IH|p l k IH|p m k IH|p k IH|fd k IH|p q k IH|p k IH|p k IH|fd k IH
    |k IH|n k IH|n k IH|k IH|fd fmt l k IH|c l k IH|x k IH|x v k IH|n k IH|x k IH|]; intros fs HQ; cbn [always].
  1: apply HQ; constructor.
  1,27: exact I.
  all: intros; try split; intros; apply IH; intros; apply HQ; eauto using uruns.
Qed.

Lemma uruns_seq {A B} (t : utree A) (g : A → utree B) f f1 f' a b :
  uruns f t f1 a → uruns f1 (g a) f' b → uruns f (t ≫= g) f' b.
Proof. intros R R'. induction R; cbn [mbind utree_bind]; eauto using uruns. Qed.

(** ** Control flow of the test programs *)

Definition t_when (b : bool) (t : utree unit) : utree unit := if b then t else mret tt.

(** A loop over the values of its counter. *)
Fixpoint t_each {X} (l : list X) (body : X → utree unit) : utree unit :=
  match l with [] => mret tt | x :: l' => body x;; t_each l' body end.
(** A loop that changes variables. *)
Fixpoint t_fold {X S} (l : list X) (body : S → X → utree S) (s : S) : utree S :=
  match l with [] => mret s | x :: l' => s ← body s x; t_fold l' body s end.
(** A loop with a break: [inr] ends it. *)
Fixpoint t_until {X S} (l : list X) (body : S → X → utree (S + S)) (s : S) : utree S :=
  match l with
  | [] => mret s
  | x :: l' => r ← body s x; match r with inl s => t_until l' body s | inr s => mret s end
  end.
(** A while loop; after [fuel] rounds the process is taken to run on. *)
Fixpoint t_loop {S A} (fuel : nat) (body : S → utree (S + A)) (s : S) : utree A :=
  match fuel with
  | O => USpin
  | Datatypes.S f => r ← body s; match r with inl s => t_loop f body s | inr a => mret a end
  end.
Definition t_forever {A} (fuel : nat) (body : utree unit) : utree A :=
  t_loop fuel (λ _ : unit, body;; mret (inl tt)) tt.

(** [for(z = a; z < b; z += st)] *)
Definition steps (a b st : Z) : list Z := (λ k, a + st * k) <$> zrange 0 (Z.to_nat ((b - a + st - 1) / st)).

(** [printf] of a line; a failed test prints and exits with 1. *)
Definition say (fmt : string) (args : list uarg) : utree unit := t_printf 1 (bytes_of_string fmt ++ [10]) args.
Definition says (fmt : string) (args : list uarg) : utree unit := t_printf 1 (bytes_of_string fmt) args.
Definition bad {A} (fmt : string) (args : list uarg) : utree A := say fmt args;; t_exit 1.
(** [if(b){ printf(...); exit(1); }] *)
Definition t_fail_if (b : bool) (fmt : string) (args : list uarg) : utree unit := if b then bad fmt args else mret tt.

(** The status that [wait] stores in a variable with the value [v]. *)
Definition t_wait_st (v : Z) : utree Z := w ← t_wait; mret (if fst w <? 0 then v else snd w).
(** [sbrk], as an address. *)
Definition t_brk (n : Z) : utree Z := a ← t_sbrk (s32 n); mret (u64 a).
Definition t_pipe_or (fail : utree (Z * Z)) : utree (Z * Z) := p ← t_pipe; match p with Some fds => mret fds | None => fail end.
(** A number of several bytes in memory. *)
Definition t_store_bytes (a : Z) (bs : list Z) : utree unit :=
  t_each (zip_with pair (zrange a (length bs)) bs) (λ e, t_store (fst e) (snd e)).
Definition t_load64 (a : Z) : utree Z := t_fold (zrange 0 8) (λ v i, b ← t_load (a + i); mret (v + Z.shiftl b (8 * i))) 0.
