(* ===== verification/Grind.v ===== *)
(** * The test programs user/grind.c, forktest.c, stressfs.c and sysinfotest.c

    [do_rand] computes the random numbers of grind; [go] makes random system calls
    forever. The processes are trees of system calls ([UTree]). *)

From S2P Require Import Prelude Machine State KString Printf User UTree.

(** ** user/grind.c: random numbers *)

(** [*ctx] afterwards, and the result. *)
Definition do_rand (ctx : Z) : Z * Z :=
  let x := s64 (u64 (ctx mod 0x7ffffffe + 1)) in
  let hi := Z.quot x 127773 in
  let lo := Z.rem x 127773 in
  let x := s64 (s64 (16807 * lo) - s64 (2836 * hi)) in
  let x := if x <? 0 then s64 (x + 0x7fffffff) else x in
  let x := s64 (x - 1) in
  (u64 x, s32 x).

(** The variables of [go]: [rand_next], [fd], [iters], [buf]. *)
Record gstate := Mk_gstate { g_rand : Z; g_fd : Z; g_iters : Z; g_buf : list Z }.

Definition rand (g : gstate) : gstate * Z :=
  let '(c, r) := do_rand (g_rand g) in (Mk_gstate c (g_fd g) (g_iters g) (g_buf g), r).

(** ** user/grind.c: system calls *)

Definition OPEN_CREATE : Z := 0x202. (** O_CREATE|O_RDWR *)
Definition line (s : string) : list Z := bytes_of_string s ++ [10].
(** [buf] after [bs] is stored at [off]. *)
Definition put (buf : list Z) (off : nat) (bs : list Z) : list Z := take off buf ++ bs ++ drop (off + length bs) buf.

Definition set_fd (fd : Z) (g : gstate) : gstate := Mk_gstate (g_rand g) fd (g_iters g) (g_buf g).
Definition set_buf (b : list Z) (g : gstate) : gstate := Mk_gstate (g_rand g) (g_fd g) (g_iters g) b.

Definition fork_failed {A} : utree A := t_printf 1 (line "grind: fork failed") [];; t_exit 1.

(** [what] from 1 to 12: files and directories. *)
Definition go_files (what : Z) (g : gstate) : utree gstate :=
  if what =? 1 then r ← t_open "grindir/../a" OPEN_CREATE; t_close r;; mret g
  else if what =? 2 then r ← t_open "grindir/../grindir/../b" OPEN_CREATE; t_close r;; mret g
  else if what =? 3 then t_unlink "grindir/../a";; mret g
  else if what =? 4 then
    r ← t_chdir "grindir";
    if negb (r =? 0) then t_printf 1 (line "grind: chdir grindir failed") [];; t_exit 1
    else t_unlink "../b";; t_chdir "/";; mret g
  else if what =? 5 then t_close (g_fd g);; fd ← t_open "/grindir/../a" OPEN_CREATE; mret (set_fd fd g)
  else if what =? 6 then t_close (g_fd g);; fd ← t_open "/./grindir/./../b" OPEN_CREATE; mret (set_fd fd g)
  else if what =? 7 then t_write (g_fd g) (g_buf g);; mret g
  else if what =? 8 then rb ← t_read (g_fd g) 999; mret (set_buf (put (g_buf g) 0 (snd rb)) g)
  else if what =? 9 then
    t_mkdir "grindir/../a";; r ← t_open "a/../a/./a" OPEN_CREATE; t_close r;; t_unlink "a/a";; mret g
  else if what =? 10 then
    t_mkdir "/../b";; r ← t_open "grindir/../b/b" OPEN_CREATE; t_close r;; t_unlink "b/b";; mret g
  else if what =? 11 then t_unlink "b";; t_link "../grindir/./../a" "../b";; mret g
  else t_unlink "../grindir/../a";; t_link ".././b" "/grindir/../a";; mret g.

(** [what] from 13 to 18: processes and memory. *)
Definition go_procs (what break0 : Z) (g : gstate) : utree gstate :=
  if what =? 13 then
    pid ← t_fork;
    if pid =? 0 then t_exit 0
    else if pid <? 0 then fork_failed
    else t_wait;; mret g
  else if what =? 14 then
    pid ← t_fork;
    if pid =? 0 then t_fork;; t_fork;; t_exit 0
    else if pid <? 0 then fork_failed
    else t_wait;; mret g
  else if what =? 15 then t_sbrk 6011;; mret g
  else if what =? 16 then
    b ← t_sbrk 0;
    if u64 break0 <? u64 b then b' ← t_sbrk 0; t_sbrk (s32 (- (b' - break0)));; mret g else mret g
  else if what =? 17 then
    pid ← t_fork;
    if pid =? 0 then r ← t_open "a" OPEN_CREATE; t_close r;; t_exit 0
    else if pid <? 0 then fork_failed
    else
      r ← t_chdir "../grindir/..";
      if negb (r =? 0) then t_printf 1 (line "grind: chdir failed") [];; t_exit 1
      else t_kill pid;; t_wait;; mret g
  else
    pid ← t_fork;
    if pid =? 0 then me ← t_getpid; t_kill me;; t_exit 0
    else if pid <? 0 then fork_failed
    else t_wait;; mret g.

(** [what] 19: a pipe. *)
Definition go_pipe (g : gstate) : utree gstate :=
  fds ← t_pipe;
  match fds with
  | None => t_printf 1 (line "grind: pipe failed") [];; t_exit 1
  | Some (fd0, fd1) =>
      pid ← t_fork;
      if pid =? 0 then
        t_fork;; t_fork;;
        r ← t_write fd1 (bytes_of_string "x");
        (if negb (r =? 1) then t_printf 1 (line "grind: pipe write failed") [] else mret tt);;
        rb ← t_read fd0 1;
        (if negb (fst rb =? 1) then t_printf 1 (line "grind: pipe read failed") [] else mret tt);;
        t_exit 0
      else if pid <? 0 then fork_failed
      else t_close fd0;; t_close fd1;; t_wait;; mret g
  end.

(** [what] 20 and 21: a directory that goes away, and a file that must be created. *)
Definition go_rmdir (g : gstate) : utree gstate :=
  pid ← t_fork;
  if pid =? 0 then
    t_unlink "a";; t_mkdir "a";; t_chdir "a";; t_unlink "../a";;
    t_open "x" OPEN_CREATE;; t_unlink "x";; t_exit 0
  else if pid <? 0 then fork_failed
  else t_wait;; mret g.

Definition go_create (g : gstate) : utree gstate :=
  t_unlink "c";;
  fd1 ← t_open "c" OPEN_CREATE;
  if fd1 <? 0 then t_printf 1 (line "grind: create c failed") [];; t_exit 1
  else
    r ← t_write fd1 (bytes_of_string "x");
    if negb (r =? 1) then t_printf 1 (line "grind: write c failed") [];; t_exit 1
    else
      st ← t_fstat fd1;
      match st with
      | None => t_printf 1 (line "grind: fstat failed") [];; t_exit 1
      | Some st =>
          if negb (us_size st =? 1) then
            t_printf 1 (line "grind: fstat reports wrong size %d") [UInt (s32 (us_size st))];; t_exit 1
          else if 200 <? us_ino st then
            t_printf 1 (line "grind: fstat reports crazy i-number %d") [UInt (us_ino st)];; t_exit 1
          else t_close fd1;; t_unlink "c";; mret g
      end.

(** [what] 22: echo hi | cat. *)
Definition echo_child (aa bb : Z * Z) {A} : utree A :=
  t_close (fst bb);; t_close (snd bb);; t_close (fst aa);; t_close 1;;
  r ← t_dup (snd aa);
  if negb (r =? 1) then t_printf 2 (line "grind: dup failed") [];; t_exit 1
  else
    t_close (snd aa);;
    t_exec "grindir/../echo" ["echo"; "hi"];;
    t_printf 2 (line "grind: echo: not found") [];; t_exit 2.

Definition cat_child (aa bb : Z * Z) {A} : utree A :=
  t_close (snd aa);; t_close (fst bb);; t_close 0;;
  r ← t_dup (fst aa);
  if negb (r =? 0) then t_printf 2 (line "grind: dup failed") [];; t_exit 4
  else
    t_close (fst aa);; t_close 1;;
    r ← t_dup (snd bb);
    if negb (r =? 1) then t_printf 2 (line "grind: dup failed") [];; t_exit 5
    else
      t_close (snd bb);;
      t_exec "/cat" ["cat"];;
      t_printf 2 (line "grind: cat: not found") [];; t_exit 6.

Definition pipe_failed2 {A} : utree A := t_printf 2 (line "grind: pipe failed") [];; t_exit 1.

Definition go_pipeline (g : gstate) : utree gstate :=
  aa ← t_pipe;
  match aa with
  | None => pipe_failed2
  | Some aa =>
      bb ← t_pipe;
      match bb with
      | None => pipe_failed2
      | Some bb =>
          pid1 ← t_fork;
          if pid1 =? 0 then echo_child aa bb
          else if pid1 <? 0 then t_printf 2 (line "grind: fork failed") [];; t_exit 3
          else
            pid2 ← t_fork;
            if pid2 =? 0 then cat_child aa bb
            else if pid2 <? 0 then t_printf 2 (line "grind: fork failed") [];; t_exit 7
            else
              t_close (fst aa);; t_close (snd aa);; t_close (snd bb);;
              r0 ← t_read (fst bb) 1; r1 ← t_read (fst bb) 1; r2 ← t_read (fst bb) 1;
              let buf := put (put (put [0; 0; 0; 0] 0 (snd r0)) 1 (snd r1)) 2 (snd r2) in
              t_close (fst bb);;
              w1 ← t_wait; w2 ← t_wait;
              if negb (snd w1 =? 0) || negb (snd w2 =? 0) || negb (strcmp (until_nul buf) (line "hi") =? 0) then
                t_printf 1 (bytes_of_string "grind: exec pipeline failed %d %d " ++ [34] ++ bytes_of_string "%s" ++ [34; 10])
                  [UInt (snd w1); UInt (snd w2); UStr (Some (until_nul buf))];; t_exit 1
              else mret g
      end
  end.

(** The action that the random number selects. *)
Definition go_action (what break0 : Z) (g : gstate) : utree gstate :=
  if (1 <=? what) && (what <=? 12) then go_files what g
  else if (13 <=? what) && (what <=? 18) then go_procs what break0 g
  else if what =? 19 then go_pipe g
  else if what =? 20 then go_rmdir g
  else if what =? 21 then go_create g
  else if what =? 22 then go_pipeline g
  else mret g.

(** One round of the loop of [go]. *)
Definition go_round (which_child break0 : Z) (g : gstate) : utree gstate :=
  let g := Mk_gstate (g_rand g) (g_fd g) (u64 (g_iters g + 1)) (g_buf g) in
  (if g_iters g mod 500 =? 0 then t_write 1 (bytes_of_string (if c_bool which_child then "B" else "A"));; mret tt else mret tt);;
  go_action (Z.rem (snd (rand g)) 23) break0 (fst (rand g)).

(** The loop does not end; [rounds] of it. *)
Fixpoint go_rounds (rounds : nat) (which_child break0 : Z) (g : gstate) : utree gstate :=
  match rounds with
  | O => mret g
  | S n => g ← go_round which_child break0 g; go_rounds n which_child break0 g
  end.

Definition go (rounds : nat) (which_child rand_next : Z) : utree gstate :=
  break0 ← t_sbrk 0;
  t_mkdir "grindir";;
  r ← t_chdir "grindir";
  if negb (r =? 0) then t_printf 1 (line "grind: chdir grindir failed") [];; t_exit 1
  else t_chdir "/";; go_rounds rounds which_child break0 (Mk_gstate rand_next (-1) 0 (replicate 999 0)).

(** The two processes. [go] does not return: the tree returns where a process is still in
    its loop after [rounds] of it. *)
Definition iter (rounds : nat) (rand_next : Z) : utree unit :=
  t_unlink "a";; t_unlink "b";;
  pid1 ← t_fork;
  if pid1 <? 0 then fork_failed
  else if pid1 =? 0 then go rounds 0 (Z.lxor rand_next 31);; mret tt
  else
    pid2 ← t_fork;
    if pid2 <? 0 then fork_failed
    else if pid2 =? 0 then go rounds 1 (Z.lxor rand_next 7177);; mret tt
    else
      w ← t_wait;
      (if negb ((if fst w <? 0 then -1 else snd w) =? 0) then t_kill pid1;; t_kill pid2;; mret tt else mret tt);;
      t_wait;;
      t_exit 0.

(** [rounds] of the loop of [main]. *)
Fixpoint grind_main (rounds : nat) (rand_next : Z) : utree unit :=
  match rounds with
  | O => mret tt
  | S n =>
      pid ← t_fork;
      if pid =? 0 then iter n rand_next
      else
        (if 0 <? pid then t_wait;; mret tt else mret tt);;
        t_sleep 20;;
        grind_main n (u64 (rand_next + 1))
  end.

(** ** user/forktest.c *)

Definition N : nat := 1000.
Definition print (s : string) : utree Z := t_write 1 (line s).

(** The children that were created, [N] at most. *)
Fixpoint forktest_forks (fuel n : nat) : utree nat :=
  match fuel with
  | O => mret n
  | S f =>
      pid ← t_fork;
      if pid <? 0 then mret n
      else if pid =? 0 then t_exit 0
      else forktest_forks f (S n)
  end.

Fixpoint forktest_waits (n : nat) : utree unit :=
  match n with
  | O => mret tt
  | S n' =>
      w ← t_wait;
      if fst w <? 0 then print "wait stopped early";; t_exit 1 else forktest_waits n'
  end.

Definition forktest : utree unit :=
  print "fork test";;
  n ← forktest_forks N 0;
  if (n =? N)%nat then print "fork claimed to work N times!";; t_exit 1
  else
    forktest_waits n;;
    w ← t_wait;
    if negb (fst w =? -1) then print "wait got too many";; t_exit 1
    else print "fork test OK";; mret tt.

Definition forktest_main : utree unit := forktest;; t_exit 0.

(** ** user/stressfs.c *)

(** [i] when the loop over the forks ends. *)
Fixpoint stressfs_forks (fuel : nat) (i : Z) : utree Z :=
  match fuel with
  | O => mret i
  | S f => pid ← t_fork; if 0 <? pid then mret i else stressfs_forks f (i + 1)
  end.

Fixpoint stressfs_writes (n : nat) (fd : Z) (data : list Z) : utree unit :=
  match n with O => mret tt | S n' => t_write fd data;; stressfs_writes n' fd data end.

Fixpoint stressfs_reads (n : nat) (fd : Z) : utree unit :=
  match n with O => mret tt | S n' => t_read fd 512;; stressfs_reads n' fd end.

Definition stressfs_main : utree unit :=
  t_printf 1 (line "stressfs starting") [];;
  let data := replicate 512 (chr "a") in
  i ← stressfs_forks 4 0;
  t_printf 1 (line "write %d") [UInt i];;
  let path := bytes_of_string "stressfs" ++ [u8 (chr "0" + i)] in
  fd ← UOpen path OPEN_CREATE URet;
  stressfs_writes 20 fd data;;
  t_close fd;;
  t_printf 1 (line "read") [];;
  fd ← UOpen path 0 URet;
  stressfs_reads 20 fd;;
  t_close fd;;
  t_wait;;
  t_exit 0.

(** ** user/sysinfotest.c *)

Definition sysinfotest_main : utree unit :=
  info ← t_sysinfo;
  match info with
  | None => t_printf 1 (line "ERROR: sysinfo failed!") [];; t_exit 1
  | Some (freemem, nproc, nopenfiles) =>
      t_printf 1 (line "--- Sysinfo's results ---") [];;
      t_printf 1 (line "Free memory (bytes) : %d") [UInt (s32 freemem)];;
      t_printf 1 (line "Used processes      : %d") [UInt (s32 nproc)];;
      t_printf 1 (line "Open files          : %d") [UInt (s32 nopenfiles)];;
      t_printf 1 (line "--------------------------------") [];;
      t_exit 0
  end.

(** * Proofs *)

(** ** [do_rand] *)

Lemma schrage x : 1 ≤ x ≤ 0x7ffffffe →
  let y := 16807 * (x mod 127773) - 2836 * (x / 127773) in
  - 0x7fffffff < y < 0x7fffffff ∧ (if y <? 0 then y + 0x7fffffff else y) = (16807 * x) mod 0x7fffffff ∧ (16807 * x) mod 0x7fffffff ≠ 0.
Proof.
  intros Hx y. pose proof (Z.div_mod x 127773 ltac:(lia)) as E. pose proof (Z.mod_pos_bound x 127773 ltac:(lia)).
  assert (0 ≤ x / 127773 ≤ 16807) by (split; [apply Z.div_pos; lia|]; assert (x / 127773 < 16808); [apply Z.div_lt_upper_bound; lia|lia]).
  assert (16807 * x = x / 127773 * 0x7fffffff + y) as Ey by (unfold y; lia).
  assert (y ≠ 0) as Hy.
  { intros Ey0. assert (16807 * (x mod 127773) = 2836 * (x / 127773)) by (unfold y in Ey0; lia).
    (* 16807 = 7^5 and 2836 have no common factor *)
    assert (x / 127773 = 16807 ∨ x / 127773 = 0) as [Eh|Eh].
    { assert ((16807 | x / 127773)) as [z Hz]; [|assert (z = 0 ∨ z = 1) as [-> | ->] by lia; lia].
      apply (Z.gauss _ 2836); [exists (x mod 127773); lia|reflexivity]. }
    - rewrite Eh in *. lia.
    - rewrite Eh in *. lia. }
  assert (- 0x7fffffff < y < 0x7fffffff) as Hb by (unfold y; lia). split; [done|].
  assert ((16807 * x) mod 0x7fffffff = if y <? 0 then y + 0x7fffffff else y) as Em.
  { rewrite Ey, Z.add_comm, Z.mod_add by lia. destruct (Z.ltb_spec y 0).
    - rewrite <- (Z.mod_add y 1) by lia. rewrite Z.mod_small; lia.
    - apply Z.mod_small. lia. }
  rewrite Em. split; [done|]. destruct (Z.ltb_spec y 0); lia.
Qed.

Lemma do_rand_eq ctx : 0 ≤ ctx < 2 ^ 64 →
  let r := (16807 * (ctx mod 0x7ffffffe + 1)) mod 0x7fffffff - 1 in do_rand ctx = (r, r) ∧ 0 ≤ r ≤ 0x7ffffffd.
Proof.
  intros Hc r. pose proof (Z.mod_pos_bound ctx 0x7ffffffe ltac:(lia)) as Hm.
  destruct (schrage (ctx mod 0x7ffffffe + 1) ltac:(lia)) as (Hy & Em & Hnz). set (x := ctx mod 0x7ffffffe + 1) in *.
  pose proof (Z.mod_pos_bound (16807 * x) 0x7fffffff ltac:(lia)) as Hb. fold r in Hb |- *.
  split; [|unfold r; lia]. unfold do_rand. fold x. cbv zeta.
  assert (0 < x < 2 ^ 31) by (unfold x; lia). rewrite (u64_small x), (s64_small x) by lia.
  rewrite Z.quot_div_nonneg, Z.rem_mod_nonneg by lia.
  assert (0 ≤ x / 127773 < 2 ^ 31) by (split; [apply Z.div_pos; lia|apply Z.div_lt_upper_bound; lia]).
  pose proof (Z.mod_pos_bound x 127773 ltac:(lia)).
  rewrite (s64_small (16807 * _)), (s64_small (2836 * _)), (s64_small (16807 * _ - _)) by lia.
  set (y := 16807 * (x mod 127773) - 2836 * (x / 127773)) in *.
  assert ((if y <? 0 then s64 (y + 0x7fffffff) else y) = (16807 * x) mod 0x7fffffff) as ->.
  { rewrite <- Em. destruct (Z.ltb_spec y 0); [apply s64_small; lia|done]. }
  fold r. rewrite s64_small, u64_small, s32_small by (unfold r; lia). done.
Qed.

(** The random numbers of grind are those of Park and Miller: [do_rand], which computes
    with 31-bit intermediate results, returns the product of 7^5 and the seed modulo
    2^31 - 1 (both shifted by one), always a number from 0 to 2^31 - 3, and stores it as
    the next seed. On the seeds of this range it is a permutation, so that different seeds
    never give the same sequence. *)
Theorem do_rand_correct ctx :
  0 ≤ ctx < 2 ^ 64 →
  let r := (16807 * (ctx mod 0x7ffffffe + 1)) mod 0x7fffffff - 1 in
  do_rand ctx = (r, r) ∧ 0 ≤ r ≤ 0x7ffffffd ∧
  ∀ ctx', 0 ≤ ctx ≤ 0x7ffffffd → 0 ≤ ctx' ≤ 0x7ffffffd → do_rand ctx' = do_rand ctx → ctx' = ctx.
Proof.
  intros Hc r. destruct (do_rand_eq ctx Hc) as [E Hr]. fold r in E, Hr. split_and!; [done|lia|lia|].
  intros ctx' H1 H2. rewrite E. destruct (do_rand_eq ctx' ltac:(lia)) as [-> _]. intros [= Er]. unfold r in Er.
  rewrite !(Z.mod_small _ 0x7ffffffe) in Er by lia.
  assert ((16807 * (ctx' + 1)) mod 0x7fffffff = (16807 * (ctx + 1)) mod 0x7fffffff) as Em by lia.
  (* 1407677000 is the inverse of 16807 *)
  assert (∀ z, 1 ≤ z < 0x7fffffff → (1407677000 * ((16807 * z) mod 0x7fffffff)) mod 0x7fffffff = z) as Hinv.
  { intros z Hz. rewrite Zmult_mod_idemp_r. replace (1407677000 * (16807 * z)) with (z + z * 11017 * 0x7fffffff) by lia.
    rewrite Z.mod_add by lia. apply Z.mod_small. lia. }
  pose proof (Hinv (ctx' + 1) ltac:(lia)) as I1. pose proof (Hinv (ctx + 1) ltac:(lia)) as I2. rewrite Em in I1. lia.
Qed.

Lemma do_rand_correct_witness : do_rand 1 = (33613, 33613).
Proof. destruct (do_rand_correct 1 ltac:(lia)) as [E _]. exact E. Defined.

(** ** Descriptors *)

(** The process has the descriptors [B] that it started with, and [fd] if it is open. *)
Definition fd_inv (B : gset Z) (fd : Z) (fds : gset Z) : Prop :=
  (∀ x, x ∈ B → 0 ≤ x) ∧ (0 ≤ fd → fd ∉ B) ∧ fds = if 0 <=? fd then {[ fd ]} ∪ B else B.

Lemma keep_new (f : gset Z) r : r ∉ f → ({[ r ]} ∪ f) ∖ {[ r ]} = f.
Proof. set_solver. Qed.
Lemma keep_none (f : gset Z) r : r ∉ f → f ∖ {[ r ]} = f.
Proof. set_solver. Qed.
Lemma keep_pair (f : gset Z) x y : x ∉ f → y ∉ f → (({[ x; y ]} ∪ f) ∖ {[ x ]}) ∖ {[ y ]} = f.
Proof. set_solver. Qed.

Lemma fd_inv_none B fd fds r : fd_inv B fd fds → r < 0 → r ∉ fds.
Proof. intros (H1 & H2 & ->) Hr Hin. destruct (Z.leb_spec 0 fd); [apply elem_of_union in Hin as [->%elem_of_singleton|Hin]; [lia|]|]; apply H1 in Hin; lia. Qed.

(** [close(fd); fd = open(...)] *)
Lemma fd_inv_closed B fd fds : fd_inv B fd fds → fds ∖ {[ fd ]} = B.
Proof.
  intros H. pose proof (fd_inv_none B fd fds fd H) as Hn. destruct H as (H1 & H2 & E). destruct (Z.leb_spec 0 fd).
  - rewrite E. apply keep_new. auto.
  - rewrite keep_none by auto. done.
Qed.
Lemma fd_inv_new B r : (∀ x, x ∈ B → 0 ≤ x) → 0 ≤ r → r ∉ B → fd_inv B r ({[ r ]} ∪ B).
Proof. intros H1 H2 H3. split_and!; [done|done|]. by rewrite (proj2 (Z.leb_le _ _)). Qed.
Lemma fd_inv_fail B r : (∀ x, x ∈ B → 0 ≤ x) → r < 0 → fd_inv B r B.
Proof. intros H1 H2. split_and!; [done|lia|]. by rewrite (proj2 (Z.leb_gt _ _)). Qed.

(** All runs of a tree. *)
Ltac all_runs :=
  repeat first [progress cbn [always mbind utree_bind mret utree_ret fst snd t_fork t_wait t_pipe t_read t_write t_close t_kill t_exec t_open
      t_unlink t_fstat t_link t_mkdir t_chdir t_dup t_getpid t_sbrk t_sleep t_sysinfo t_printf t_exit]
    |exact I|progress intros|match goal with |- always _ _ _ => case_match | |- _ ∧ _ => split end].

Lemma go_files_keeps B what g fds fds' g' :
  fd_inv B (g_fd g) fds → uruns fds (go_files what g) fds' g' → fd_inv B (g_fd g') fds'.
Proof.
  intros Hi. apply (always_sound (go_files what g) (λ f a, fd_inv B (g_fd a) f)).
  pose proof (fd_inv_none B (g_fd g) fds) as Hneg. pose proof (proj1 Hi) as HB. unfold go_files. all_runs; cbn [g_fd set_fd set_buf].
  all: rewrite ?(fd_inv_closed B _ fds Hi) in *.
  all: try (rewrite keep_new by done; done); try (rewrite keep_none by (by apply Hneg); done); try done.
  all: first [by apply fd_inv_new|by apply fd_inv_fail].
Qed.

(** The other actions leave the descriptors and [fd] alone. *)
Lemma go_procs_keeps what break0 g fds fds' g' : uruns fds (go_procs what break0 g) fds' g' → fds' = fds ∧ g' = g.
Proof. apply (always_sound (go_procs what break0 g) (λ f a, f = fds ∧ a = g)). unfold go_procs, fork_failed. all_runs; done. Qed.

Lemma go_pipe_keeps g fds fds' g' : uruns fds (go_pipe g) fds' g' → fds' = fds ∧ g' = g.
Proof.
  apply (always_sound (go_pipe g) (λ f a, f = fds ∧ a = g)). unfold go_pipe, fork_failed. all_runs; try done. by apply keep_pair.
Qed.

Lemma go_rmdir_keeps g fds fds' g' : uruns fds (go_rmdir g) fds' g' → fds' = fds ∧ g' = g.
Proof. apply (always_sound (go_rmdir g) (λ f a, f = fds ∧ a = g)). unfold go_rmdir, fork_failed. all_runs; done. Qed.

Lemma go_create_keeps g fds fds' g' : uruns fds (go_create g) fds' g' → fds' = fds ∧ g' = g.
Proof. apply (always_sound (go_create g) (λ f a, f = fds ∧ a = g)). unfold go_create. all_runs; try done; [lia|by apply keep_new]. Qed.

Lemma keep_pairs (f : gset Z) x y z w :
  x ∉ f → y ∉ f → z ∉ {[ x; y ]} ∪ f → w ∉ {[ x; y ]} ∪ f →
  (((({[ z; w ]} ∪ ({[ x; y ]} ∪ f)) ∖ {[ x ]}) ∖ {[ y ]}) ∖ {[ w ]}) ∖ {[ z ]} = f.
Proof. set_solver. Qed.

Lemma go_pipeline_keeps g fds fds' g' : uruns fds (go_pipeline g) fds' g' → fds' = fds ∧ g' = g.
Proof.
  apply (always_sound (go_pipeline g) (λ f a, f = fds ∧ a = g)). unfold go_pipeline, pipe_failed2, echo_child, cat_child.
  all_runs; try done. by apply keep_pairs.
Qed.

Lemma go_action_keeps B what break0 g fds fds' g' :
  fd_inv B (g_fd g) fds → uruns fds (go_action what break0 g) fds' g' → fd_inv B (g_fd g') fds'.
Proof.
  intros Hi R. unfold go_action in R.
  repeat match type of R with
  | uruns _ (if ?b then _ else _) _ _ => destruct b
  end.
  - by apply (go_files_keeps B _ _ _ _ _ Hi R).
  - apply go_procs_keeps in R as [-> ->]. done.
  - apply go_pipe_keeps in R as [-> ->]. done.
  - apply go_rmdir_keeps in R as [-> ->]. done.
  - apply go_create_keeps in R as [-> ->]. done.
  - apply go_pipeline_keeps in R as [-> ->]. done.
  - inversion R; subst. done.
Qed.

Lemma rand_fd g : g_fd (fst (rand g)) = g_fd g.
Proof. unfold rand. by destruct (do_rand _). Qed.

(** Every 500 rounds a letter is written. *)
Lemma tick_keeps (b : bool) (bs : list Z) fds fds' u :
  uruns fds (if b then t_write 1 bs;; mret tt else mret tt) fds' u → fds' = fds.
Proof. apply (always_sound _ (λ f _, f = fds)). destruct b; all_runs; done. Qed.

Lemma go_round_keeps B which_child break0 g fds fds' g' :
  fd_inv B (g_fd g) fds → uruns fds (go_round which_child break0 g) fds' g' → fd_inv B (g_fd g') fds'.
Proof.
  intros Hi R. unfold go_round in R. apply uruns_bind in R as (f1 & u & R0 & R). apply tick_keeps in R0. subst f1.
  revert R. apply go_action_keeps. by rewrite rand_fd.
Qed.

Lemma go_rounds_keep B n which_child break0 : ∀ g fds fds' g',
  fd_inv B (g_fd g) fds → uruns fds (go_rounds n which_child break0 g) fds' g' → fd_inv B (g_fd g') fds'.
Proof.
  induction n as [|n IH]; intros g fds fds' g' Hi R; cbn [go_rounds] in R.
  - inversion R; subst. done.
  - apply uruns_bind in R as (f1 & g1 & R1 & R). apply go_round_keeps with (B := B) in R1; [|done]. by apply (IH g1 f1).
Qed.

(** C38. The loop of grind leaks no descriptor: whatever the system calls answer, after any
    number of rounds the process that runs [go] has the descriptors it started with and at
    most one more, the one in [fd]. The pipes, the files of every round and the failures on
    the way are all closed again. *)
Theorem go_no_leak (B fds' : gset Z) (rounds : nat) (which_child rand_next : Z) (g : gstate) :
  (∀ x, x ∈ B → 0 ≤ x) →
  uruns B (go rounds which_child rand_next) fds' g →
  fds' = (if 0 <=? g_fd g then {[ g_fd g ]} ∪ B else B) ∧ (size fds' ≤ S (size B))%nat.
Proof.
  intros HB R. assert (fd_inv B (g_fd g) fds') as (_ & _ & ->).
  { revert R. apply (always_sound _ (λ f a, fd_inv B (g_fd a) f)). unfold go. all_runs.
    apply always_complete. intros f a R. apply go_rounds_keep with (B := B) in R; [done|]. by apply fd_inv_fail. }
  split; [done|]. destruct (0 <=? g_fd g); [|lia].
  rewrite size_union_alt, size_singleton. pose proof (subseteq_size (B ∖ {[ g_fd g ]}) B ltac:(set_solver)). lia.
Qed.

(** From the seed 57: a pipe, then [fd] is opened. *)
Definition B0 : gset Z := {[ 0; 1; 2 ]}.
Definition G0 (c fd : Z) (n : Z) : gstate := Mk_gstate c fd n (replicate 999 0).

Lemma pipe_run g fds x y :
  0 ≤ x → 0 ≤ y → x ∉ fds → y ∉ fds → x ≠ y → uruns fds (go_pipe g) fds g.
Proof.
  intros. pose proof (keep_pair fds x y) as E. apply R_pipe with (x := x) (y := y); [done..|]. apply R_fork with (r := 7).
  apply R_close with (r := 0), R_close with (r := 0), R_wait with (r := 7) (st := 0). cbn [fst snd]. rewrite E by done. constructor.
Qed.

Lemma go_run : ∃ fds g, uruns B0 (go 2 0 57) fds g ∧ g_fd g = 3.
Proof.
  exists ({[ 3 ]} ∪ (B0 ∖ {[ -1 ]})), (set_fd 3 (fst (rand (G0 (g_rand (fst (rand (G0 57 (-1) 1)))) (-1) 2)))). split; [|by vm_compute].
  apply R_sbrk with (r := 20480), R_mkdir with (r := 0), R_chdir with (r := 0). cbn [Z.eqb negb]. apply R_chdir with (r := 0).
  cbn [go_rounds]. apply (uruns_seq _ _ _ B0 _ (fst (rand (G0 57 (-1) 1)))); [|eapply uruns_seq; [|constructor]].
  - apply (uruns_seq _ _ _ B0 _ tt); [constructor|].
    change (uruns B0 (go_pipe (fst (rand (G0 57 (-1) 1)))) B0 (fst (rand (G0 57 (-1) 1)))). apply (pipe_run _ _ 3 4); [lia..|set_solver|set_solver|lia].
  - apply (uruns_seq _ _ _ B0 _ tt); [constructor|].
    apply R_close with (r := -1), R_open with (r := 3); [lia|set_solver|]. constructor.
Qed.

(** Two rounds of a process that starts with the descriptors 0, 1 and 2. *)
Lemma go_no_leak_witness : ∃ fds' g,
  uruns B0 (go 2 0 57) fds' g ∧ fds' = (if 0 <=? g_fd g then {[ g_fd g ]} ∪ B0 else B0) ∧ (size fds' ≤ S (size B0))%nat ∧ g_fd g = 3.
Proof.
  destruct go_run as (fds & g & R & E). exists fds, g.
  destruct (go_no_leak B0 fds 2 0 57 g) as [H1 H2]; [|exact R|].
  - intros x Hx. unfold B0 in Hx. set_solver by lia.
  - auto.
Defined.
