(* ===== verification/UserTests.v ===== *)
(** * user/usertests.c: the tests of system calls, first half

    A test gets its name and returns, or exits with a status; a failed test prints a message
    and exits with 1. A loop without an end in sight is unrolled for [rounds] rounds; then
    the process is taken to run on ([USpin]). *)

From S2P Require Import Prelude Machine State KString Printf User UTree Grind Sysfile.

Section tests.
Context (rounds : nat).
Implicit Types s : list Z.

Definition BUFSZ_ : Z := 12 * 1024. (** BUFSZ *)
(** [buf], before it is used, and after a read. *)
Definition buf_ : list Z := replicate (Z.to_nat BUFSZ_) 0.
Definition into (b : list Z) (rb : Z * list Z) : list Z := put b 0 (snd rb).
Definition byte_at (b : list Z) (i : Z) : Z := nthZ 0 b i.
Definition t_openb (p : list Z) (mode : Z) : utree Z := UOpen p mode URet.
Definition t_unlinkb (p : list Z) : utree Z := UUnlink p URet.
Definition t_linkb (p q : list Z) : utree Z := ULink p q URet.
Definition WRCREATE : Z := Z.lor O_CREATE O_WRONLY.
Definition RWCREATE : Z := Z.lor O_CREATE O_RDWR.
Definition MAXU : Z := 0xffffffffffffffff.
Definition bad_addrs : list Z := [0x80000000; 0x3fffffe000; 0x3ffffff000; 0x4000000000; 0xffffffffffffffff].

Definition copyin s : utree unit :=
  t_each bad_addrs (λ addr,
    fd ← t_open "copyin1" WRCREATE;
    t_fail_if (fd <? 0) "open(copyin1) failed" [];;
    n ← t_call C_write [CInt fd; CPtr addr; CInt 8192];
    t_fail_if (0 <=? n) "write(fd, %p, 8192) returned %d, not -1" [UInt addr; UInt n];;
    t_close fd;;
    t_unlink "copyin1";;
    n ← t_call C_write [CInt 1; CPtr addr; CInt 8192];
    t_fail_if (0 <? n) "write(1, %p, 8192) returned %d, not -1 or 0" [UInt addr; UInt n];;
    fds ← t_pipe_or (bad "pipe() failed" []);
    n ← t_call C_write [CInt (snd fds); CPtr addr; CInt 8192];
    t_fail_if (0 <? n) "write(pipe, %p, 8192) returned %d, not -1 or 0" [UInt addr; UInt n];;
    t_close (fst fds);;
    t_close (snd fds);; mret tt).

Definition copyout s : utree unit :=
  t_each (0 :: bad_addrs) (λ addr,
    fd ← t_open "README" 0;
    t_fail_if (fd <? 0) "open(README) failed" [];;
    n ← t_call C_read [CInt fd; CPtr addr; CInt 8192];
    t_fail_if (0 <? n) "read(fd, %p, 8192) returned %d, not -1 or 0" [UInt addr; UInt n];;
    t_close fd;;
    fds ← t_pipe_or (bad "pipe() failed" []);
    n ← t_write (snd fds) (bytes_of_string "x");
    t_fail_if (negb (n =? 1)) "pipe write failed" [];;
    n ← t_call C_read [CInt (fst fds); CPtr addr; CInt 8192];
    t_fail_if (0 <? n) "read(pipe, %p, 8192) returned %d, not -1 or 0" [UInt addr; UInt n];;
    t_close (fst fds);;
    t_close (snd fds);; mret tt).

Definition copyinstr1 s : utree unit :=
  t_each bad_addrs (λ addr,
    fd ← t_call C_open [CPtr addr; CInt WRCREATE];
    t_fail_if (0 <=? fd) "open(%p) returned %d, not -1" [UInt addr; UInt fd]).

Definition copyinstr2 s : utree unit :=
  let b := replicate (Z.to_nat MAXPATH) (chr "x") in
  ret ← t_unlinkb b;
  t_fail_if (negb (ret =? -1)) "unlink(%s) returned %d, not -1" [UStr (Some b); UInt ret];;
  fd ← t_openb b WRCREATE;
  t_fail_if (negb (fd =? -1)) "open(%s) returned %d, not -1" [UStr (Some b); UInt fd];;
  ret ← t_linkb b b;
  t_fail_if (negb (ret =? -1)) "link(%s, %s) returned %d, not -1" [UStr (Some b); UStr (Some b); UInt ret];;
  ret ← UExec b [bytes_of_string "xx"] URet;
  t_fail_if (negb (ret =? -1)) "exec(%s) returned %d, not -1" [UStr (Some b); UInt fd];;
  pid ← t_fork;
  t_fail_if (pid <? 0) "fork failed" [];;
  if pid =? 0 then
    let big := replicate (Z.to_nat PGSIZE) (chr "x") in
    ret ← UExec (bytes_of_string "echo") [big; big; big] URet;
    t_fail_if (negb (ret =? -1)) "exec(echo, BIG) returned %d, not -1" [UInt fd];;
    t_exit 747
  else
    st ← t_wait_st 0;
    t_fail_if (negb (st =? 747)) "exec(echo, BIG) succeeded, should have failed" [].

(** The C string at an address, as [printf] reads it. *)
Definition t_string (a : Z) : utree (list Z) :=
  t_loop rounds (λ bs, c ← t_load (a + Z.of_nat (length bs)); mret (if c =? 0 then inr bs else inl (bs ++ [c]))) [].

Definition copyinstr3 s : utree unit :=
  t_brk 8192;;
  top ← t_brk 0;
  (if negb (top mod PGSIZE =? 0) then t_brk (PGSIZE - top mod PGSIZE);; mret tt else mret tt);;
  top ← t_brk 0;
  t_fail_if (negb (top mod PGSIZE =? 0)) "oops" [];;
  let b := u64 (top - 1) in
  t_store b (chr "x");;
  ret ← t_call C_unlink [CPtr b];
  t_when (negb (ret =? -1)) (str ← t_string b; bad "unlink(%s) returned %d, not -1" [UStr (Some str); UInt ret]);;
  fd ← t_call C_open [CPtr b; CInt WRCREATE];
  t_when (negb (fd =? -1)) (str ← t_string b; bad "open(%s) returned %d, not -1" [UStr (Some str); UInt fd]);;
  ret ← t_call C_link [CPtr b; CPtr b];
  t_when (negb (ret =? -1)) (str ← t_string b; bad "link(%s, %s) returned %d, not -1" [UStr (Some str); UStr (Some str); UInt ret]);;
  ret ← t_call C_exec [CPtr b; CStr (bytes_of_string "xx")];
  t_when (negb (ret =? -1)) (str ← t_string b; bad "exec(%s) returned %d, not -1" [UStr (Some str); UInt fd]).

Definition rwsbrk s : utree unit :=
  a ← t_brk 8192;
  t_fail_if (a =? MAXU) "sbrk(rwsbrk) failed" [];;
  a' ← t_brk (-8192);
  t_fail_if (a' =? MAXU) "sbrk(rwsbrk) shrink failed" [];;
  fd ← t_open "rwsbrk" WRCREATE;
  t_fail_if (fd <? 0) "open(rwsbrk) failed" [];;
  n ← t_call C_write [CInt fd; CPtr (u64 (a + 4096)); CInt 1024];
  t_fail_if (0 <=? n) "write(fd, %p, 1024) returned %d, not -1" [UInt (u64 (a + 4096)); UInt n];;
  t_close fd;;
  t_unlink "rwsbrk";;
  fd ← t_open "README" O_RDONLY;
  t_fail_if (fd <? 0) "open(rwsbrk) failed" [];;
  n ← t_call C_read [CInt fd; CPtr (u64 (a + 4096)); CInt 10];
  t_fail_if (0 <=? n) "read(fd, %p, 10) returned %d, not -1" [UInt (u64 (a + 4096)); UInt n];;
  t_close fd;;
  t_exit 0.

Definition truncate1 s : utree unit :=
  t_unlink "truncfile";;
  fd1 ← t_open "truncfile" (Z.lor WRCREATE O_TRUNC);
  t_write fd1 (bytes_of_string "abcd");;
  t_close fd1;;
  fd2 ← t_open "truncfile" O_RDONLY;
  n ← t_read fd2 32;
  t_fail_if (negb (fst n =? 4)) "%s: read %d bytes, wanted 4" [UStr (Some s); UInt (fst n)];;
  fd1 ← t_open "truncfile" (Z.lor O_WRONLY O_TRUNC);
  fd3 ← t_open "truncfile" O_RDONLY;
  n ← t_read fd3 32;
  t_when (negb (fst n =? 0)) (say "aaa fd3=%d" [UInt fd3];; bad "%s: read %d bytes, wanted 0" [UStr (Some s); UInt (fst n)]);;
  n ← t_read fd2 32;
  t_when (negb (fst n =? 0)) (say "bbb fd2=%d" [UInt fd2];; bad "%s: read %d bytes, wanted 0" [UStr (Some s); UInt (fst n)]);;
  t_write fd1 (bytes_of_string "abcdef");;
  n ← t_read fd3 32;
  t_fail_if (negb (fst n =? 6)) "%s: read %d bytes, wanted 6" [UStr (Some s); UInt (fst n)];;
  n ← t_read fd2 32;
  t_fail_if (negb (fst n =? 2)) "%s: read %d bytes, wanted 2" [UStr (Some s); UInt (fst n)];;
  t_unlink "truncfile";;
  t_close fd1;;
  t_close fd2;;
  t_close fd3;; mret tt.

Definition truncate2 s : utree unit :=
  t_unlink "truncfile";;
  fd1 ← t_open "truncfile" (Z.lor WRCREATE O_TRUNC);
  t_write fd1 (bytes_of_string "abcd");;
  fd2 ← t_open "truncfile" (Z.lor O_TRUNC O_WRONLY);
  n ← t_write fd1 (bytes_of_string "x");
  t_fail_if (negb (n =? -1)) "%s: write returned %d, expected -1" [UStr (Some s); UInt n];;
  t_unlink "truncfile";;
  t_close fd1;;
  t_close fd2;; mret tt.
Definition truncate3 s : utree unit :=
  r ← t_open "truncfile" (Z.lor WRCREATE O_TRUNC);
  t_close r;;
  pid ← t_fork;
  t_fail_if (pid <? 0) "%s: fork failed" [UStr (Some s)];;
  if pid =? 0 then
    t_each (zrange 0 100) (λ _,
      fd ← t_open "truncfile" O_WRONLY;
      t_fail_if (fd <? 0) "%s: open failed" [UStr (Some s)];;
      n ← t_write fd (bytes_of_string "1234567890");
      t_fail_if (negb (n =? 10)) "%s: write got %d, expected 10" [UStr (Some s); UInt n];;
      t_close fd;;
      fd ← t_open "truncfile" O_RDONLY;
      t_read fd 32;;
      t_close fd;; mret tt);;
    t_exit 0
  else
    t_each (zrange 0 150) (λ _,
      fd ← t_open "truncfile" (Z.lor WRCREATE O_TRUNC);
      t_fail_if (fd <? 0) "%s: open failed" [UStr (Some s)];;
      n ← t_write fd (bytes_of_string "xxx");
      t_fail_if (negb (n =? 3)) "%s: write got %d, expected 3" [UStr (Some s); UInt n];;
      t_close fd;; mret tt);;
    w ← t_wait;
    t_unlink "truncfile";;
    t_exit (snd w).

Definition iputtest s : utree unit :=
  r ← t_mkdir "iputdir";
  t_fail_if (r <? 0) "%s: mkdir failed" [UStr (Some s)];;
  r ← t_chdir "iputdir";
  t_fail_if (r <? 0) "%s: chdir iputdir failed" [UStr (Some s)];;
  r ← t_unlink "../iputdir";
  t_fail_if (r <? 0) "%s: unlink ../iputdir failed" [UStr (Some s)];;
  r ← t_chdir "/";
  t_fail_if (r <? 0) "%s: chdir / failed" [UStr (Some s)].

Definition exitiputtest s : utree unit :=
  pid ← t_fork;
  t_fail_if (pid <? 0) "%s: fork failed" [UStr (Some s)];;
  if pid =? 0 then
    r ← t_mkdir "iputdir";
    t_fail_if (r <? 0) "%s: mkdir failed" [UStr (Some s)];;
    r ← t_chdir "iputdir";
    t_fail_if (r <? 0) "%s: child chdir failed" [UStr (Some s)];;
    r ← t_unlink "../iputdir";
    t_fail_if (r <? 0) "%s: unlink ../iputdir failed" [UStr (Some s)];;
    t_exit 0
  else w ← t_wait; t_exit (snd w).

Definition openiputtest s : utree unit :=
  r ← t_mkdir "oidir";
  t_fail_if (r <? 0) "%s: mkdir oidir failed" [UStr (Some s)];;
  pid ← t_fork;
  t_fail_if (pid <? 0) "%s: fork failed" [UStr (Some s)];;
  if pid =? 0 then
    fd ← t_open "oidir" O_RDWR;
    t_fail_if (0 <=? fd) "%s: open directory for write succeeded" [UStr (Some s)];;
    t_exit 0
  else
    t_sleep 1;;
    r ← t_unlink "oidir";
    t_fail_if (negb (r =? 0)) "%s: unlink failed" [UStr (Some s)];;
    w ← t_wait;
    t_exit (snd w).

Definition opentest s : utree unit :=
  fd ← t_open "echo" 0;
  t_fail_if (fd <? 0) "%s: open echo failed!" [UStr (Some s)];;
  t_close fd;;
  fd ← t_open "doesnotexist" 0;
  t_fail_if (0 <=? fd) "%s: open doesnotexist succeeded!" [UStr (Some s)].

Definition writetest s : utree unit :=
  fd ← t_open "small" RWCREATE;
  t_fail_if (fd <? 0) "%s: error: creat small failed!" [UStr (Some s)];;
  t_each (zrange 0 100) (λ i,
    n ← t_write fd (bytes_of_string "aaaaaaaaaa");
    t_fail_if (negb (n =? 10)) "%s: error: write aa %d new file failed" [UStr (Some s); UInt i];;
    n ← t_write fd (bytes_of_string "bbbbbbbbbb");
    t_fail_if (negb (n =? 10)) "%s: error: write bb %d new file failed" [UStr (Some s); UInt i]);;
  t_close fd;;
  fd ← t_open "small" O_RDONLY;
  t_fail_if (fd <? 0) "%s: error: open small failed!" [UStr (Some s)];;
  i ← t_read fd (100 * 10 * 2);
  t_fail_if (negb (fst i =? 100 * 10 * 2)) "%s: read failed" [UStr (Some s)];;
  t_close fd;;
  r ← t_unlink "small";
  t_fail_if (r <? 0) "%s: unlink small failed" [UStr (Some s)].

(** The blocks of the file, one per round and no more than a file can have. *)
Definition writebig s : utree unit :=
  fd ← t_open "big" RWCREATE;
  t_fail_if (fd <? 0) "%s: error: creat big failed!" [UStr (Some s)];;
  t_each (zrange 0 268) (λ i,
    n ← t_write fd (le_bytes 4 i ++ replicate 1020 0);
    t_fail_if (negb (n =? 1024)) "%s: error: write big file failed i=%d" [UStr (Some s); UInt i]);;
  t_close fd;;
  fd ← t_open "big" O_RDONLY;
  t_fail_if (fd <? 0) "%s: error: open big failed!" [UStr (Some s)];;
  t_loop 270 (λ '(n, b),
    rb ← t_read fd 1024;
    let b := into b rb in
    if fst rb =? 0 then
      t_when (negb (n =? 268)) (says "%s: read only %d blocks from big" [UStr (Some s); UInt n];; t_exit 1);;
      mret (inr tt)
    else
      t_fail_if (negb (fst rb =? 1024)) "%s: read failed %d" [UStr (Some s); UInt (fst rb)];;
      let x := s32 (le_val (take 4 b)) in
      t_fail_if (negb (x =? n)) "%s: read content of block %d is %d" [UStr (Some s); UInt n; UInt x];;
      mret (inl (n + 1, b))) (0, le_bytes 4 267 ++ drop 4 buf_);;
  t_close fd;;
  r ← t_unlink "big";
  t_fail_if (r <? 0) "%s: unlink big failed" [UStr (Some s)].

Definition createtest s : utree unit :=
  t_each (zrange 0 52) (λ i, fd ← t_openb [chr "a"; u8 (chr "0" + i)] RWCREATE; t_close fd;; mret tt);;
  t_each (zrange 0 52) (λ i, t_unlinkb [chr "a"; u8 (chr "0" + i)];; mret tt).

Definition dirtest s : utree unit :=
  r ← t_mkdir "dir0";
  t_fail_if (r <? 0) "%s: mkdir failed" [UStr (Some s)];;
  r ← t_chdir "dir0";
  t_fail_if (r <? 0) "%s: chdir dir0 failed" [UStr (Some s)];;
  r ← t_chdir "..";
  t_fail_if (r <? 0) "%s: chdir .. failed" [UStr (Some s)];;
  r ← t_unlink "dir0";
  t_fail_if (r <? 0) "%s: unlink dir0 failed" [UStr (Some s)].

(** The child goes on after [exec] only if it did not fail, and then it does not return. *)
Definition exectest s : utree unit :=
  t_unlink "echo-ok";;
  pid ← t_fork;
  t_fail_if (pid <? 0) "%s: fork failed" [UStr (Some s)];;
  t_when (pid =? 0)
    (t_close 1;;
     fd ← t_open "echo-ok" WRCREATE;
     t_fail_if (fd <? 0) "%s: create failed" [UStr (Some s)];;
     t_fail_if (negb (fd =? 1)) "%s: wrong fd" [UStr (Some s)];;
     r ← t_exec "echo" ["echo"; "OK"]%string;
     t_fail_if (r <? 0) "%s: exec echo failed" [UStr (Some s)]);;
  w ← t_wait;
  t_when (negb (fst w =? pid)) (say "%s: wait failed!" [UStr (Some s)]);;
  t_when (negb (snd w =? 0)) (t_exit (snd w));;
  fd ← t_open "echo-ok" O_RDONLY;
  t_fail_if (fd <? 0) "%s: open failed" [UStr (Some s)];;
  rb ← t_read fd 2;
  t_fail_if (negb (fst rb =? 2)) "%s: read failed" [UStr (Some s)];;
  t_unlink "echo-ok";;
  if (byte_at (snd rb) 0 =? chr "O") && (byte_at (snd rb) 1 =? chr "K") then t_exit 0
  else bad "%s: wrong output" [UStr (Some s)].
(** A round of the reader gets a byte at least. *)
Definition pipe1 s : utree unit :=
  fds ← t_pipe_or (bad "%s: pipe() failed" [UStr (Some s)]);
  pid ← t_fork;
  if pid =? 0 then
    t_close (fst fds);;
    t_each (zrange 0 5) (λ n,
      r ← t_write (snd fds) (u8 <$> zrange (n * 1033) 1033);
      t_fail_if (negb (r =? 1033)) "%s: pipe1 oops 1" [UStr (Some s)]);;
    t_exit 0
  else if 0 <? pid then
    t_close (snd fds);;
    r ← t_loop (Z.to_nat (5 * 1033 + 2)) (λ '(seq, total, cc, b),
      rb ← t_read (fst fds) cc;
      let n := fst rb in
      let b := into b rb in
      if 0 <? n then
        if bool_decide (take (Z.to_nat n) b = u8 <$> zrange seq (Z.to_nat n)) then
          let cc := cc * 2 in
          mret (inl (seq + n, total + n, if BUFSZ_ <? cc then BUFSZ_ else cc, b))
        else mret (inr None)
      else mret (inr (Some total))) (0, 0, 1, buf_);
    match r with
    | None => say "%s: pipe1 oops 2" [UStr (Some s)]
    | Some total =>
        t_fail_if (negb (total =? 5 * 1033)) "%s: pipe1 oops 3 total %d" [UStr (Some s); UInt total];;
        t_close (fst fds);;
        w ← t_wait;
        t_exit (snd w)
    end
  else bad "%s: fork() failed" [UStr (Some s)].

Definition killstatus s : utree unit :=
  t_each (zrange 0 100) (λ _,
    pid1 ← t_fork;
    t_fail_if (pid1 <? 0) "%s: fork failed" [UStr (Some s)];;
    t_when (pid1 =? 0) (t_forever rounds (t_getpid;; mret tt));;
    t_sleep 1;;
    t_kill pid1;;
    w ← t_wait;
    t_fail_if (negb (snd w =? -1)) "%s: status should be -1" [UStr (Some s)]);;
  t_exit 0.

(** The result of [pipe] is not looked at; without a pipe the descriptors are bad. *)
Definition preempt s : utree unit :=
  pid1 ← t_fork;
  t_when (pid1 <? 0) (says "%s: fork failed" [UStr (Some s)];; t_exit 1);;
  t_when (pid1 =? 0) USpin;;
  pid2 ← t_fork;
  t_fail_if (pid2 <? 0) "%s: fork failed" [UStr (Some s)];;
  t_when (pid2 =? 0) USpin;;
  pfds ← t_pipe_or (mret (-1, -1));
  pid3 ← t_fork;
  t_fail_if (pid3 <? 0) "%s: fork failed" [UStr (Some s)];;
  t_when (pid3 =? 0)
    (t_close (fst pfds);;
     r ← t_write (snd pfds) (bytes_of_string "x");
     t_when (negb (r =? 1)) (says "%s: preempt write error" [UStr (Some s)]);;
     t_close (snd pfds);;
     USpin);;
  t_close (snd pfds);;
  rb ← t_read (fst pfds) BUFSZ_;
  if negb (fst rb =? 1) then says "%s: preempt read error" [UStr (Some s)]
  else
    t_close (fst pfds);;
    says "kill... " [];;
    t_kill pid1;;
    t_kill pid2;;
    t_kill pid3;;
    says "wait... " [];;
    t_wait;;
    t_wait;;
    t_wait;; mret tt.

Definition exitwait s : utree unit :=
  t_each (zrange 0 100) (λ i,
    pid ← t_fork;
    t_fail_if (pid <? 0) "%s: fork failed" [UStr (Some s)];;
    if negb (pid =? 0) then
      w ← t_wait;
      t_fail_if (negb (fst w =? pid)) "%s: wait wrong pid" [UStr (Some s)];;
      t_fail_if (negb (i =? snd w)) "%s: wait wrong exit status" [UStr (Some s)]
    else t_exit i).

Definition reparent s : utree unit :=
  master_pid ← t_getpid;
  t_each (zrange 0 200) (λ _,
    pid ← t_fork;
    t_fail_if (pid <? 0) "%s: fork failed" [UStr (Some s)];;
    if negb (pid =? 0) then
      w ← t_wait;
      t_fail_if (negb (fst w =? pid)) "%s: wait wrong pid" [UStr (Some s)]
    else
      pid2 ← t_fork;
      t_when (pid2 <? 0) (t_kill master_pid;; t_exit 1);;
      t_exit 0);;
  t_exit 0.

Definition twochildren s : utree unit :=
  t_each (zrange 0 1000) (λ _,
    pid1 ← t_fork;
    t_fail_if (pid1 <? 0) "%s: fork failed" [UStr (Some s)];;
    if pid1 =? 0 then t_exit 0
    else
      pid2 ← t_fork;
      t_fail_if (pid2 <? 0) "%s: fork failed" [UStr (Some s)];;
      if pid2 =? 0 then t_exit 0 else t_wait;; t_wait;; mret tt).

Definition forkfork s : utree unit :=
  t_each (zrange 0 2) (λ _,
    pid ← t_fork;
    t_when (pid <? 0) (says "%s: fork failed" [UStr (Some s)];; t_exit 1);;
    t_when (pid =? 0)
      (t_each (zrange 0 200) (λ _,
         pid1 ← t_fork;
         t_when (pid1 <? 0) (t_exit 1);;
         t_when (pid1 =? 0) (t_exit 0);;
         t_wait;; mret tt);;
       t_exit 0));;
  t_each (zrange 0 2) (λ _,
    w ← t_wait;
    t_when (negb (snd w =? 0)) (says "%s: fork in child failed" [UStr (Some s)];; t_exit 1)).

Definition forkforkfork s : utree unit :=
  t_unlink "stopforking";;
  pid ← t_fork;
  t_when (pid <? 0) (says "%s: fork failed" [UStr (Some s)];; t_exit 1);;
  t_when (pid =? 0)
    (t_forever rounds
      (fd ← t_open "stopforking" 0;
       t_when (0 <=? fd) (t_exit 0);;
       r ← t_fork;
       t_when (r <? 0) (fd ← t_open "stopforking" RWCREATE; t_close fd;; mret tt)));;
  t_sleep 20;;
  fd ← t_open "stopforking" RWCREATE;
  t_close fd;;
  t_wait;;
  t_sleep 10;; mret tt.

Definition reparent2 s : utree unit :=
  t_each (zrange 0 800) (λ _,
    pid1 ← t_fork;
    t_fail_if (pid1 <? 0) "fork failed" [];;
    t_when (pid1 =? 0) (t_fork;; t_fork;; t_exit 0);;
    t_wait;; mret tt);;
  t_exit 0.

Definition mem_ s : utree unit :=
  pid ← t_fork;
  if pid =? 0 then
    m1 ← t_loop rounds (λ m1,
      m2 ← t_malloc 10001;
      if negb (m2 =? 0) then t_store_bytes m2 (le_bytes 8 m1);; mret (inl m2) else mret (inr m1)) 0;
    t_loop rounds (λ m1,
      if negb (m1 =? 0) then m2 ← t_load64 m1; t_free m1;; mret (inl m2) else mret (inr tt)) m1;;
    m1 ← t_malloc (1024 * 20);
    t_fail_if (m1 =? 0) "%s: couldn't allocate mem?!!" [UStr (Some s)];;
    t_free m1;;
    t_exit 0
  else
    w ← t_wait;
    t_when (snd w =? -1) (t_exit 0);;
    t_exit (snd w).

(** The second loop reads a byte at least per round. *)
Definition sharedfd s : utree unit :=
  t_unlink "sharedfd";;
  fd ← t_open "sharedfd" RWCREATE;
  t_when (fd <? 0) (says "%s: cannot open sharedfd for writing" [UStr (Some s)];; t_exit 1);;
  pid ← t_fork;
  let b := replicate 10 (if pid =? 0 then chr "c" else chr "p") in
  t_each (zrange 0 1000) (λ _,
    n ← t_write fd b;
    t_fail_if (negb (n =? 10)) "%s: write sharedfd failed" [UStr (Some s)]);;
  (if pid =? 0 then t_exit 0 else w ← t_wait; t_when (negb (snd w =? 0)) (t_exit (snd w)));;
  t_close fd;;
  fd ← t_open "sharedfd" 0;
  t_fail_if (fd <? 0) "%s: cannot open sharedfd for reading" [UStr (Some s)];;
  c ← t_loop (Z.to_nat (2 * 1000 * 10 + 1)) (λ '(nc, np, b),
    rb ← t_read fd 10;
    let b := into b rb in
    if 0 <? fst rb then
      mret (inl (nc + Z.of_nat (count_occ Z.eq_dec b (chr "c")), np + Z.of_nat (count_occ Z.eq_dec b (chr "p")), b))
    else mret (inr (nc, np))) (0, 0, b);
  t_close fd;;
  t_unlink "sharedfd";;
  if (fst c =? 1000 * 10) && (snd c =? 1000 * 10) then t_exit 0
  else bad "%s: nc/np test fails" [UStr (Some s)].
Definition fourfiles s : utree unit :=
  let names := [bytes_of_string "f0"; bytes_of_string "f1"; bytes_of_string "f2"; bytes_of_string "f3"] in
  let fname (i : Z) : list Z := nthZ [] names i in
  t_each (zrange 0 4) (λ pi,
    t_unlinkb (fname pi);;
    pid ← t_fork;
    t_fail_if (pid <? 0) "%s: fork failed" [UStr (Some s)];;
    t_when (pid =? 0)
      (fd ← t_openb (fname pi) RWCREATE;
       t_fail_if (fd <? 0) "%s: create failed" [UStr (Some s)];;
       t_each (zrange 0 12) (λ _,
         n ← t_write fd (replicate 500 (chr "0" + pi));
         t_fail_if (negb (n =? 500)) "write failed %d" [UInt n]);;
       t_exit 0));;
  t_each (zrange 0 4) (λ _, w ← t_wait; t_when (negb (snd w =? 0)) (t_exit (snd w)));;
  t_fold (zrange 0 4) (λ b i,
    fd ← t_openb (fname i) 0;
    r ← t_loop (Z.to_nat (12 * 500 + 1)) (λ '(total, b),
      rb ← t_read fd BUFSZ_;
      let b := into b rb in
      if 0 <? fst rb then
        t_fail_if (negb (forallb (λ c, c =? chr "0" + i) (take (Z.to_nat (fst rb)) b))) "%s: wrong char" [UStr (Some s)];;
        mret (inl (total + fst rb, b))
      else mret (inr (total, b))) (0, b);
    t_close fd;;
    t_fail_if (negb (fst r =? 12 * 500)) "wrong length %d" [UInt (fst r)];;
    t_unlinkb (fname i);;
    mret (snd r)) buf_;;
  mret tt.

Definition createdelete s : utree unit :=
  let name (pi i : Z) : list Z := [u8 (chr "p" + pi); u8 (chr "0" + i)] in
  t_each (zrange 0 4) (λ pi,
    pid ← t_fork;
    t_fail_if (pid <? 0) "%s: fork failed" [UStr (Some s)];;
    t_when (pid =? 0)
      (t_each (zrange 0 20) (λ i,
         fd ← t_openb (name pi i) RWCREATE;
         t_fail_if (fd <? 0) "%s: create failed" [UStr (Some s)];;
         t_close fd;;
         t_when ((0 <? i) && (i mod 2 =? 0))
           (r ← t_unlinkb (name pi (i / 2));
            t_fail_if (r <? 0) "%s: unlink failed" [UStr (Some s)]));;
       t_exit 0));;
  t_each (zrange 0 4) (λ _, w ← t_wait; t_when (negb (snd w =? 0)) (t_exit 1));;
  t_each (zrange 0 20) (λ i,
    t_each (zrange 0 4) (λ pi,
      fd ← t_openb (name pi i) 0;
      (if ((i =? 0) || (20 / 2 <=? i)) && (fd <? 0) then
         bad "%s: oops createdelete %s didn't exist" [UStr (Some s); UStr (Some (name pi i))]
       else if ((1 <=? i) && (i <? 20 / 2)) && (0 <=? fd) then
         bad "%s: oops createdelete %s did exist" [UStr (Some s); UStr (Some (name pi i))]
       else mret tt);;
      t_when (0 <=? fd) (t_close fd;; mret tt)));;
  t_each (zrange 0 20) (λ i, t_each (zrange 0 4) (λ pi, t_unlinkb (name pi i);; mret tt)).

Definition unlinkread s : utree unit :=
  fd ← t_open "unlinkread" RWCREATE;
  t_fail_if (fd <? 0) "%s: create unlinkread failed" [UStr (Some s)];;
  t_write fd (bytes_of_string "hello");;
  t_close fd;;
  fd ← t_open "unlinkread" O_RDWR;
  t_fail_if (fd <? 0) "%s: open unlinkread failed" [UStr (Some s)];;
  r ← t_unlink "unlinkread";
  t_fail_if (negb (r =? 0)) "%s: unlink unlinkread failed" [UStr (Some s)];;
  fd1 ← t_open "unlinkread" RWCREATE;
  t_write fd1 (bytes_of_string "yyy");;
  t_close fd1;;
  rb ← t_read fd BUFSZ_;
  let b := into buf_ rb in
  t_when (negb (fst rb =? 5)) (says "%s: unlinkread read failed" [UStr (Some s)];; t_exit 1);;
  t_fail_if (negb (byte_at b 0 =? chr "h")) "%s: unlinkread wrong data" [UStr (Some s)];;
  n ← t_write fd (take 10 b);
  t_fail_if (negb (n =? 10)) "%s: unlinkread write failed" [UStr (Some s)];;
  t_close fd;;
  t_unlink "unlinkread";; mret tt.

Definition linktest s : utree unit :=
  t_unlink "lf1";;
  t_unlink "lf2";;
  fd ← t_open "lf1" RWCREATE;
  t_fail_if (fd <? 0) "%s: create lf1 failed" [UStr (Some s)];;
  n ← t_write fd (bytes_of_string "hello");
  t_fail_if (negb (n =? 5)) "%s: write lf1 failed" [UStr (Some s)];;
  t_close fd;;
  r ← t_link "lf1" "lf2";
  t_fail_if (r <? 0) "%s: link lf1 lf2 failed" [UStr (Some s)];;
  t_unlink "lf1";;
  r ← t_open "lf1" 0;
  t_fail_if (0 <=? r) "%s: unlinked lf1 but it is still there!" [UStr (Some s)];;
  fd ← t_open "lf2" 0;
  t_fail_if (fd <? 0) "%s: open lf2 failed" [UStr (Some s)];;
  rb ← t_read fd BUFSZ_;
  t_fail_if (negb (fst rb =? 5)) "%s: read lf2 failed" [UStr (Some s)];;
  t_close fd;;
  r ← t_link "lf2" "lf2";
  t_fail_if (0 <=? r) "%s: link lf2 lf2 succeeded! oops" [UStr (Some s)];;
  t_unlink "lf2";;
  r ← t_link "lf2" "lf1";
  t_fail_if (0 <=? r) "%s: link non-existent succeeded! oops" [UStr (Some s)];;
  r ← t_link "." "lf1";
  t_fail_if (0 <=? r) "%s: link . lf1 succeeded! oops" [UStr (Some s)].

(** The loop over the directory: [fa] and [n]; a directory has at most [MAXFILE * BSIZE / 16] entries. *)
Definition concreate_list s (fd : Z) : utree (list Z * Z) :=
  t_loop (Z.to_nat (268 * 1024 / 16 + 1)) (λ '(fa, n, de),
    rb ← t_read fd 16;
    let de := into de rb in
    let name := drop 2 de in
    if negb (0 <? fst rb) then mret (inr (fa, n))
    else if le_val (take 2 de) =? 0 then mret (inl (fa, n, de))
    else if (byte_at name 0 =? chr "C") && (byte_at name 2 =? 0) then
      let i := byte_at name 1 - chr "0" in
      t_fail_if ((i <? 0) || (40 <=? i)) "%s: concreate weird file %s" [UStr (Some s); UStr (Some (until_nul name))];;
      t_fail_if (negb (byte_at fa i =? 0)) "%s: concreate duplicate file %s" [UStr (Some s); UStr (Some (until_nul name))];;
      mret (inl (setZ fa i 1, n + 1, de))
    else mret (inl (fa, n, de))) (replicate 40 0, 0, replicate 16 0).

Definition concreate s : utree unit :=
  let file (i : Z) : list Z := [chr "C"; u8 (chr "0" + i)] in
  t_each (zrange 0 40) (λ i,
    t_unlinkb (file i);;
    pid ← t_fork;
    (if negb (pid =? 0) && (i mod 3 =? 1) then t_linkb (bytes_of_string "C0") (file i);; mret tt
     else if (pid =? 0) && (i mod 5 =? 1) then t_linkb (bytes_of_string "C0") (file i);; mret tt
     else
       fd ← t_openb (file i) RWCREATE;
       t_fail_if (fd <? 0) "concreate create %s failed" [UStr (Some (file i))];;
       t_close fd;; mret tt);;
    if pid =? 0 then t_exit 0 else w ← t_wait; t_when (negb (snd w =? 0)) (t_exit 1));;
  fd ← t_open "." 0;
  fn ← concreate_list s fd;
  t_close fd;;
  t_fail_if (negb (snd fn =? 40)) "%s: concreate not enough files in directory listing" [UStr (Some s)];;
  t_each (zrange 0 40) (λ i,
    pid ← t_fork;
    t_fail_if (pid <? 0) "%s: fork failed" [UStr (Some s)];;
    (if ((i mod 3 =? 0) && (pid =? 0)) || ((i mod 3 =? 1) && negb (pid =? 0)) then
       t_each (zrange 0 6) (λ _, fd ← t_openb (file i) 0; t_close fd;; mret tt)
     else t_each (zrange 0 6) (λ _, t_unlinkb (file i);; mret tt));;
    if pid =? 0 then t_exit 0 else t_wait;; mret tt).

Definition linkunlink s : utree unit :=
  t_unlink "x";;
  pid ← t_fork;
  t_fail_if (pid <? 0) "%s: fork failed" [UStr (Some s)];;
  t_fold (zrange 0 100) (λ x _,
    let x := u32 (x * 1103515245 + 12345) in
    (if x mod 3 =? 0 then fd ← t_open "x" (Z.lor O_RDWR O_CREATE); t_close fd;; mret tt
     else if x mod 3 =? 1 then t_link "cat" "x";; mret tt
     else t_unlink "x";; mret tt);;
    mret x) (if negb (pid =? 0) then 1 else 97);;
  if negb (pid =? 0) then t_wait;; mret tt else t_exit 0.
End tests.
