(* ===== verification/UserTests2.v ===== *)
(** * user/usertests.c: the tests of system calls, second half, and their driver *)

From S2P Require Import Prelude Machine State KString Printf User UTree Grind Sysfile UserTests.

Section tests.
(** [r_sp] is the stack pointer and [uninit] the address of the array of that name. *)
Context (rounds : nat) (r_sp uninit : Z).
Implicit Types s : list Z.

Definition subdir s : utree unit :=
  t_unlink "ff";;
  r ← t_mkdir "dd";
  t_fail_if (negb (r =? 0)) "%s: mkdir dd failed" [UStr (Some s)];;
  fd ← t_open "dd/ff" RWCREATE;
  t_fail_if (fd <? 0) "%s: create dd/ff failed" [UStr (Some s)];;
  t_write fd (bytes_of_string "ff");;
  t_close fd;;
  r ← t_unlink "dd";
  t_fail_if (0 <=? r) "%s: unlink dd (non-empty dir) succeeded!" [UStr (Some s)];;
  r ← t_mkdir "/dd/dd";
  t_fail_if (negb (r =? 0)) "%s: subdir mkdir dd/dd failed" [UStr (Some s)];;
  fd ← t_open "dd/dd/ff" RWCREATE;
  t_fail_if (fd <? 0) "%s: create dd/dd/ff failed" [UStr (Some s)];;
  t_write fd (bytes_of_string "FF");;
  t_close fd;;
  fd ← t_open "dd/dd/../ff" 0;
  t_fail_if (fd <? 0) "%s: open dd/dd/../ff failed" [UStr (Some s)];;
  rb ← t_read fd BUFSZ_;
  t_fail_if (negb (fst rb =? 2) || negb (byte_at (into buf_ rb) 0 =? chr "f")) "%s: dd/dd/../ff wrong content" [UStr (Some s)];;
  t_close fd;;
  r ← t_link "dd/dd/ff" "dd/dd/ffff";
  t_fail_if (negb (r =? 0)) "%s: link dd/dd/ff dd/dd/ffff failed" [UStr (Some s)];;
  r ← t_unlink "dd/dd/ff";
  t_fail_if (negb (r =? 0)) "%s: unlink dd/dd/ff failed" [UStr (Some s)];;
  r ← t_open "dd/dd/ff" O_RDONLY;
  t_fail_if (0 <=? r) "%s: open (unlinked) dd/dd/ff succeeded" [UStr (Some s)];;
  r ← t_chdir "dd";
  t_fail_if (negb (r =? 0)) "%s: chdir dd failed" [UStr (Some s)];;
  r ← t_chdir "dd/../../dd";
  t_fail_if (negb (r =? 0)) "%s: chdir dd/../../dd failed" [UStr (Some s)];;
  r ← t_chdir "dd/../../../dd";
  t_fail_if (negb (r =? 0)) "%s: chdir dd/../../../dd failed" [UStr (Some s)];;
  r ← t_chdir "./..";
  t_fail_if (negb (r =? 0)) "%s: chdir ./.. failed" [UStr (Some s)];;
  fd ← t_open "dd/dd/ffff" 0;
  t_fail_if (fd <? 0) "%s: open dd/dd/ffff failed" [UStr (Some s)];;
  rb ← t_read fd BUFSZ_;
  t_fail_if (negb (fst rb =? 2)) "%s: read dd/dd/ffff wrong len" [UStr (Some s)];;
  t_close fd;;
  r ← t_open "dd/dd/ff" O_RDONLY;
  t_fail_if (0 <=? r) "%s: open (unlinked) dd/dd/ff succeeded!" [UStr (Some s)];;
  r ← t_open "dd/ff/ff" RWCREATE;
  t_fail_if (0 <=? r) "%s: create dd/ff/ff succeeded!" [UStr (Some s)];;
  r ← t_open "dd/xx/ff" RWCREATE;
  t_fail_if (0 <=? r) "%s: create dd/xx/ff succeeded!" [UStr (Some s)];;
  r ← t_open "dd" O_CREATE;
  t_fail_if (0 <=? r) "%s: create dd succeeded!" [UStr (Some s)];;
  r ← t_open "dd" O_RDWR;
  t_fail_if (0 <=? r) "%s: open dd rdwr succeeded!" [UStr (Some s)];;
  r ← t_open "dd" O_WRONLY;
  t_fail_if (0 <=? r) "%s: open dd wronly succeeded!" [UStr (Some s)];;
  r ← t_link "dd/ff/ff" "dd/dd/xx";
  t_fail_if (r =? 0) "%s: link dd/ff/ff dd/dd/xx succeeded!" [UStr (Some s)];;
  r ← t_link "dd/xx/ff" "dd/dd/xx";
  t_fail_if (r =? 0) "%s: link dd/xx/ff dd/dd/xx succeeded!" [UStr (Some s)];;
  r ← t_link "dd/ff" "dd/dd/ffff";
  t_fail_if (r =? 0) "%s: link dd/ff dd/dd/ffff succeeded!" [UStr (Some s)];;
  r ← t_mkdir "dd/ff/ff";
  t_fail_if (r =? 0) "%s: mkdir dd/ff/ff succeeded!" [UStr (Some s)];;
  r ← t_mkdir "dd/xx/ff";
  t_fail_if (r =? 0) "%s: mkdir dd/xx/ff succeeded!" [UStr (Some s)];;
  r ← t_mkdir "dd/dd/ffff";
  t_fail_if (r =? 0) "%s: mkdir dd/dd/ffff succeeded!" [UStr (Some s)];;
  r ← t_unlink "dd/xx/ff";
  t_fail_if (r =? 0) "%s: unlink dd/xx/ff succeeded!" [UStr (Some s)];;
  r ← t_unlink "dd/ff/ff";
  t_fail_if (r =? 0) "%s: unlink dd/ff/ff succeeded!" [UStr (Some s)];;
  r ← t_chdir "dd/ff";
  t_fail_if (r =? 0) "%s: chdir dd/ff succeeded!" [UStr (Some s)];;
  r ← t_chdir "dd/xx";
  t_fail_if (r =? 0) "%s: chdir dd/xx succeeded!" [UStr (Some s)];;
  r ← t_unlink "dd/dd/ffff";
  t_fail_if (negb (r =? 0)) "%s: unlink dd/dd/ff failed" [UStr (Some s)];;
  r ← t_unlink "dd/ff";
  t_fail_if (negb (r =? 0)) "%s: unlink dd/ff failed" [UStr (Some s)];;
  r ← t_unlink "dd";
  t_fail_if (r =? 0) "%s: unlink non-empty dd succeeded!" [UStr (Some s)];;
  r ← t_unlink "dd/dd";
  t_fail_if (r <? 0) "%s: unlink dd/dd failed" [UStr (Some s)];;
  r ← t_unlink "dd";
  t_fail_if (r <? 0) "%s: unlink dd failed" [UStr (Some s)].

Definition bigwrite s : utree unit :=
  t_unlink "bigwrite";;
  t_each (steps 499 (12 * 1024) 471) (λ sz,
    fd ← t_open "bigwrite" RWCREATE;
    t_fail_if (fd <? 0) "%s: cannot create bigwrite" [UStr (Some s)];;
    t_each (zrange 0 2) (λ _,
      cc ← t_write fd (take (Z.to_nat sz) buf_);
      t_fail_if (negb (cc =? sz)) "%s: write(%d) ret %d" [UStr (Some s); UInt sz; UInt cc]);;
    t_close fd;;
    t_unlink "bigwrite";; mret tt).

(** The second loop reads a part of the file in every round. *)
Definition bigfile s : utree unit :=
  t_unlink "bigfile.dat";;
  fd ← t_open "bigfile.dat" RWCREATE;
  t_when (fd <? 0) (says "%s: cannot create bigfile" [UStr (Some s)];; t_exit 1);;
  t_each (zrange 0 20) (λ i,
    n ← t_write fd (replicate 600 (u8 i));
    t_fail_if (negb (n =? 600)) "%s: write bigfile failed" [UStr (Some s)]);;
  t_close fd;;
  fd ← t_open "bigfile.dat" 0;
  t_fail_if (fd <? 0) "%s: cannot open bigfile" [UStr (Some s)];;
  total ← t_loop (Z.to_nat (20 * 600 + 1)) (λ '(i, total, b),
    rb ← t_read fd (600 / 2);
    let cc := fst rb in
    let b := into b rb in
    t_fail_if (cc <? 0) "%s: read bigfile failed" [UStr (Some s)];;
    if cc =? 0 then mret (inr total)
    else
      t_fail_if (negb (cc =? 600 / 2)) "%s: short read bigfile" [UStr (Some s)];;
      t_fail_if (negb (byte_at b 0 =? i / 2) || negb (byte_at b (600 / 2 - 1) =? i / 2)) "%s: read bigfile wrong data" [UStr (Some s)];;
      mret (inl (i + 1, total + cc, b))) (0, 0, put buf_ 0 (replicate 600 19));
  t_close fd;;
  t_fail_if (negb (total =? 20 * 600)) "%s: read bigfile wrong total" [UStr (Some s)];;
  t_unlink "bigfile.dat";; mret tt.

Definition fourteen s : utree unit :=
  r ← t_mkdir "12345678901234";
  t_fail_if (negb (r =? 0)) "%s: mkdir 12345678901234 failed" [UStr (Some s)];;
  r ← t_mkdir "12345678901234/123456789012345";
  t_fail_if (negb (r =? 0)) "%s: mkdir 12345678901234/123456789012345 failed" [UStr (Some s)];;
  fd ← t_open "123456789012345/123456789012345/123456789012345" O_CREATE;
  t_fail_if (fd <? 0) "%s: create 123456789012345/123456789012345/123456789012345 failed" [UStr (Some s)];;
  t_close fd;;
  fd ← t_open "12345678901234/12345678901234/12345678901234" 0;
  t_fail_if (fd <? 0) "%s: open 12345678901234/12345678901234/12345678901234 failed" [UStr (Some s)];;
  t_close fd;;
  r ← t_mkdir "12345678901234/12345678901234";
  t_fail_if (r =? 0) "%s: mkdir 12345678901234/12345678901234 succeeded!" [UStr (Some s)];;
  r ← t_mkdir "123456789012345/12345678901234";
  t_fail_if (r =? 0) "%s: mkdir 12345678901234/123456789012345 succeeded!" [UStr (Some s)];;
  t_unlink "123456789012345/12345678901234";;
  t_unlink "12345678901234/12345678901234";;
  t_unlink "12345678901234/12345678901234/12345678901234";;
  t_unlink "123456789012345/123456789012345/123456789012345";;
  t_unlink "12345678901234/123456789012345";;
  t_unlink "12345678901234";; mret tt.

Definition rmdot s : utree unit :=
  r ← t_mkdir "dots";
  t_fail_if (negb (r =? 0)) "%s: mkdir dots failed" [UStr (Some s)];;
  r ← t_chdir "dots";
  t_fail_if (negb (r =? 0)) "%s: chdir dots failed" [UStr (Some s)];;
  r ← t_unlink ".";
  t_fail_if (r =? 0) "%s: rm . worked!" [UStr (Some s)];;
  r ← t_unlink "..";
  t_fail_if (r =? 0) "%s: rm .. worked!" [UStr (Some s)];;
  r ← t_chdir "/";
  t_fail_if (negb (r =? 0)) "%s: chdir / failed" [UStr (Some s)];;
  r ← t_unlink "dots/.";
  t_fail_if (r =? 0) "%s: unlink dots/. worked!" [UStr (Some s)];;
  r ← t_unlink "dots/..";
  t_fail_if (r =? 0) "%s: unlink dots/.. worked!" [UStr (Some s)];;
  r ← t_unlink "dots";
  t_fail_if (negb (r =? 0)) "%s: unlink dots failed!" [UStr (Some s)].

Definition dirfile s : utree unit :=
  fd ← t_open "dirfile" O_CREATE;
  t_fail_if (fd <? 0) "%s: create dirfile failed" [UStr (Some s)];;
  t_close fd;;
  r ← t_chdir "dirfile";
  t_fail_if (r =? 0) "%s: chdir dirfile succeeded!" [UStr (Some s)];;
  fd ← t_open "dirfile/xx" 0;
  t_fail_if (0 <=? fd) "%s: create dirfile/xx succeeded!" [UStr (Some s)];;
  fd ← t_open "dirfile/xx" O_CREATE;
  t_fail_if (0 <=? fd) "%s: create dirfile/xx succeeded!" [UStr (Some s)];;
  r ← t_mkdir "dirfile/xx";
  t_fail_if (r =? 0) "%s: mkdir dirfile/xx succeeded!" [UStr (Some s)];;
  r ← t_unlink "dirfile/xx";
  t_fail_if (r =? 0) "%s: unlink dirfile/xx succeeded!" [UStr (Some s)];;
  r ← t_link "README" "dirfile/xx";
  t_fail_if (r =? 0) "%s: link to dirfile/xx succeeded!" [UStr (Some s)];;
  r ← t_unlink "dirfile";
  t_fail_if (negb (r =? 0)) "%s: unlink dirfile failed!" [UStr (Some s)];;
  fd ← t_open "." O_RDWR;
  t_fail_if (0 <=? fd) "%s: open . for writing succeeded!" [UStr (Some s)];;
  fd ← t_open "." 0;
  n ← t_write fd (bytes_of_string "x");
  t_fail_if (0 <? n) "%s: write . succeeded!" [UStr (Some s)];;
  t_close fd;; mret tt.

Definition iref s : utree unit :=
  t_each (zrange 0 51) (λ _,
    r ← t_mkdir "irefd";
    t_fail_if (negb (r =? 0)) "%s: mkdir irefd failed" [UStr (Some s)];;
    r ← t_chdir "irefd";
    t_fail_if (negb (r =? 0)) "%s: chdir irefd failed" [UStr (Some s)];;
    t_mkdir "";;
    t_link "README" "";;
    fd ← t_open "" O_CREATE;
    t_when (0 <=? fd) (t_close fd;; mret tt);;
    fd ← t_open "xx" O_CREATE;
    t_when (0 <=? fd) (t_close fd;; mret tt);;
    t_unlink "xx";; mret tt);;
  t_each (zrange 0 51) (λ _, t_chdir "..";; t_unlink "irefd";; mret tt);;
  t_chdir "/";; mret tt.
Definition forktest_ s : utree unit :=
  n ← forktest_forks 1000 0;
  t_fail_if (n =? 0)%nat "%s: no fork at all!" [UStr (Some s)];;
  t_fail_if (n =? 1000)%nat "%s: fork claimed to work 1000 times!" [UStr (Some s)];;
  t_each (zrange 0 n) (λ _,
    w ← t_wait;
    t_fail_if (fst w <? 0) "%s: wait stopped early" [UStr (Some s)]);;
  w ← t_wait;
  t_fail_if (negb (fst w =? -1)) "%s: wait got too many" [UStr (Some s)].

Definition TOOMUCH : Z := 1024 * 1024 * 1024.
Definition BIG : Z := 100 * 1024 * 1024.

Definition sbrkbasic s : utree unit :=
  pid ← t_fork;
  t_fail_if (pid <? 0) "fork failed in sbrkbasic" [];;
  t_when (pid =? 0)
    (a ← t_brk TOOMUCH;
     t_when (a =? MAXU) (t_exit 0);;
     t_each (steps a (a + TOOMUCH) 4096) (λ b, t_store b 99);;
     t_exit 1);;
  w ← t_wait;
  t_fail_if (snd w =? 1) "%s: too much memory allocated!" [UStr (Some s)];;
  a ← t_brk 0;
  a ← t_fold (zrange 0 5000) (λ a i,
    b ← t_brk 1;
    t_fail_if (negb (b =? a)) "%s: sbrk test failed %d %p %p" [UStr (Some s); UInt i; UInt a; UInt b];;
    t_store b 1;;
    mret (u64 (b + 1))) a;
  pid ← t_fork;
  t_fail_if (pid <? 0) "%s: sbrk test fork failed" [UStr (Some s)];;
  t_brk 1;;
  c ← t_brk 1;
  t_fail_if (negb (c =? u64 (a + 1))) "%s: sbrk test failed post-fork" [UStr (Some s)];;
  t_when (pid =? 0) (t_exit 0);;
  w ← t_wait;
  t_exit (snd w).

Definition sbrkmuch s : utree unit :=
  oldbrk ← t_brk 0;
  a ← t_brk 0;
  p ← t_brk (BIG - a);
  t_fail_if (negb (p =? a)) "%s: sbrk test failed to grow big address space; enough phys mem?" [UStr (Some s)];;
  eee ← t_brk 0;
  t_each (steps a eee 4096) (λ pp, t_store pp 1);;
  let lastaddr := BIG - 1 in
  t_store lastaddr 99;;
  a ← t_brk 0;
  c ← t_brk (- PGSIZE);
  t_fail_if (c =? MAXU) "%s: sbrk could not deallocate" [UStr (Some s)];;
  c ← t_brk 0;
  t_fail_if (negb (c =? u64 (a - PGSIZE))) "%s: sbrk deallocation produced wrong address, a %p c %p" [UStr (Some s); UInt a; UInt c];;
  a ← t_brk 0;
  c ← t_brk PGSIZE;
  wrong ← (if negb (c =? a) then mret true else b ← t_brk 0; mret (negb (b =? u64 (a + PGSIZE))));
  t_fail_if wrong "%s: sbrk re-allocation failed, a %p c %p" [UStr (Some s); UInt a; UInt c];;
  x ← t_load lastaddr;
  t_fail_if (x =? 99) "%s: sbrk de-allocation didn't really deallocate" [UStr (Some s)];;
  a ← t_brk 0;
  b ← t_brk 0;
  c ← t_brk (- (b - oldbrk));
  t_fail_if (negb (c =? a)) "%s: sbrk downsize failed, a %p c %p" [UStr (Some s); UInt a; UInt c].

Definition kernmem s : utree unit :=
  t_each (steps KERNBASE (KERNBASE + 2000000) 50000) (λ a,
    pid ← t_fork;
    t_fail_if (pid <? 0) "%s: fork failed" [UStr (Some s)];;
    t_when (pid =? 0) (x ← t_load a; bad "%s: oops could read %p = %x" [UStr (Some s); UInt a; UInt x]);;
    w ← t_wait;
    t_when (negb (snd w =? -1)) (t_exit 1)).

(** [a <<= 1] from [MAXVA] on, until it is 0. *)
Definition MAXVAplus s : utree unit :=
  t_each (Z.shiftl MAXVA <$> zrange 0 26) (λ a,
    pid ← t_fork;
    t_fail_if (pid <? 0) "%s: fork failed" [UStr (Some s)];;
    t_when (pid =? 0) (t_store a 99;; bad "%s: oops wrote %p" [UStr (Some s); UInt a]);;
    w ← t_wait;
    t_when (negb (snd w =? -1)) (t_exit 1)).

Definition sbrkfail s : utree unit :=
  fds ← t_pipe_or (bad "%s: pipe() failed" [UStr (Some s)]);
  pids ← t_fold (zrange 0 10) (λ pids _,
    pid ← t_fork;
    t_when (pid =? 0)
      (b ← t_brk 0;
       t_brk (BIG - b);;
       t_write (snd fds) (bytes_of_string "x");;
       t_forever rounds (t_sleep 1000;; mret tt));;
    t_when (negb (pid =? -1)) (t_read (fst fds) 1;; mret tt);;
    mret (pids ++ [pid])) [];
  c ← t_brk PGSIZE;
  t_each pids (λ pid, t_when (negb (pid =? -1)) (t_kill pid;; t_wait;; mret tt));;
  t_fail_if (c =? MAXU) "%s: failed sbrk leaked memory" [UStr (Some s)];;
  pid ← t_fork;
  t_fail_if (pid <? 0) "%s: fork failed" [UStr (Some s)];;
  t_when (pid =? 0)
    (a ← t_brk 0;
     t_brk (10 * BIG);;
     n ← t_fold (steps 0 (10 * BIG) PGSIZE) (λ n i, x ← t_load (u64 (a + i)); mret (s32 (n + x))) 0;
     bad "%s: allocate a lot of memory succeeded %d" [UStr (Some s); UInt n]);;
  w ← t_wait;
  t_when (negb (snd w =? -1) && negb (snd w =? 2)) (t_exit 1).

Definition sbrkarg s : utree unit :=
  a ← t_brk PGSIZE;
  fd ← t_open "sbrk" WRCREATE;
  t_unlink "sbrk";;
  t_fail_if (fd <? 0) "%s: open sbrk failed" [UStr (Some s)];;
  n ← t_call C_write [CInt fd; CPtr a; CInt PGSIZE];
  t_fail_if (n <? 0) "%s: write sbrk failed" [UStr (Some s)];;
  t_close fd;;
  a ← t_brk PGSIZE;
  r ← t_call C_pipe [CPtr a];
  t_fail_if (negb (r =? 0)) "%s: pipe() failed" [UStr (Some s)].

Definition validatetest s : utree unit :=
  t_each (steps 0 (1100 * 1024 + 1) PGSIZE) (λ p,
    r ← t_call C_link [CStr (bytes_of_string "nosuchfile"); CPtr p];
    t_fail_if (negb (r =? -1)) "%s: link should not succeed" [UStr (Some s)]).

Definition bsstest s : utree unit :=
  t_each (zrange 0 (Z.to_nat 10000)) (λ i,
    x ← t_load (uninit + i);
    t_fail_if (negb (x =? 0)) "%s: bss test failed" [UStr (Some s)]).

Definition bigargtest s : utree unit :=
  t_unlink "bigarg-ok";;
  pid ← t_fork;
  if pid =? 0 then
    UExec (bytes_of_string "echo") (replicate (Z.to_nat MAXARG - 1) (replicate 399 (chr " "))) URet;;
    fd ← t_open "bigarg-ok" O_CREATE;
    t_close fd;;
    t_exit 0
  else
    t_fail_if (pid <? 0) "%s: bigargtest: fork failed" [UStr (Some s)];;
    w ← t_wait;
    t_when (negb (snd w =? 0)) (t_exit (snd w));;
    fd ← t_open "bigarg-ok" 0;
    t_fail_if (fd <? 0) "%s: bigarg test failed!" [UStr (Some s)];;
    t_close fd;; mret tt.

(** The loop over the files ends with the number of the last one. *)
Definition fsfull : utree unit :=
  let name (n : Z) : list Z :=
    [chr "f"; u8 (chr "0" + n / 1000); u8 (chr "0" + (n mod 1000) / 100); u8 (chr "0" + (n mod 100) / 10); u8 (chr "0" + n mod 10)] in
  say "fsfull test" [];;
  nfiles ← t_loop rounds (λ nfiles,
    say "writing %s" [UStr (Some (name nfiles))];;
    fd ← t_openb (name nfiles) RWCREATE;
    if fd <? 0 then say "open %s failed" [UStr (Some (name nfiles))];; mret (inr nfiles)
    else
      total ← t_loop rounds (λ total, cc ← t_write fd (take 1024 buf_); mret (if cc <? 1024 then inr total else inl (total + cc))) 0;
      say "wrote %d bytes" [UInt total];;
      t_close fd;;
      mret (if total =? 0 then inr nfiles else inl (nfiles + 1))) 0;
  t_each (rev (zrange 0 (Z.to_nat (nfiles + 1)))) (λ n, t_unlinkb (name n);; mret tt);;
  say "fsfull test finished" [].

Definition argptest s : utree unit :=
  fd ← t_open "init" O_RDONLY;
  t_fail_if (fd <? 0) "%s: open failed" [UStr (Some s)];;
  b ← t_brk 0;
  t_call C_read [CInt fd; CPtr (u64 (b - 1)); CInt (-1)];;
  t_close fd;; mret tt.

Definition stacktest s : utree unit :=
  pid ← t_fork;
  if pid =? 0 then
    x ← t_load (u64 (r_sp - USERSTACK * PGSIZE));
    bad "%s: stacktest: read below stack %d" [UStr (Some s); UInt x]
  else
    t_fail_if (pid <? 0) "%s: fork failed" [UStr (Some s)];;
    w ← t_wait;
    if snd w =? -1 then t_exit 0 else t_exit (snd w).

Definition nowrite s : utree unit :=
  t_each (0 :: bad_addrs) (λ addr,
    pid ← t_fork;
    if pid =? 0 then
      t_store_bytes addr (le_bytes 4 10);;
      say "%s: write to %p did not fail!" [UStr (Some s); UInt addr];;
      t_exit 0
    else
      t_fail_if (pid <? 0) "%s: fork failed" [UStr (Some s)];;
      w ← t_wait;
      t_when (snd w =? 0) (t_exit 1));;
  t_exit 0.

Definition big : Z := 0xeaeb0b5b00002f5e.
Definition pgbug s : utree unit :=
  t_call C_exec [CPtr big];;
  t_call C_pipe [CPtr big];;
  t_exit 0.
Definition sbrkbugs s : utree unit :=
  pid ← t_fork;
  t_fail_if (pid <? 0) "fork failed" [];;
  t_when (pid =? 0) (sz ← t_brk 0; t_brk (- s32 sz);; t_exit 0);;
  t_wait;;
  pid ← t_fork;
  t_fail_if (pid <? 0) "fork failed" [];;
  t_when (pid =? 0) (sz ← t_brk 0; t_brk (- (s32 sz - 3500));; t_exit 0);;
  t_wait;;
  pid ← t_fork;
  t_fail_if (pid <? 0) "fork failed" [];;
  t_when (pid =? 0) (b ← t_brk 0; t_brk (10 * 4096 + 2048 - b);; t_brk (-10);; t_exit 0);;
  t_wait;;
  t_exit 0.

Definition sbrklast s : utree unit :=
  top ← t_brk 0;
  (if negb (top mod 4096 =? 0) then t_brk (4096 - top mod 4096);; mret tt else mret tt);;
  t_brk 4096;;
  t_brk 10;;
  t_brk (-20);;
  top ← t_brk 0;
  let p := u64 (top - 64) in
  t_store p (chr "x");;
  t_store (p + 1) 0;;
  fd ← t_call C_open [CPtr p; CInt (Z.lor O_RDWR O_CREATE)];
  t_call C_write [CInt fd; CPtr p; CInt 1];;
  t_close fd;;
  fd ← t_call C_open [CPtr p; CInt O_RDWR];
  t_store p 0;;
  t_call C_read [CInt fd; CPtr p; CInt 1];;
  x ← t_load p;
  t_when (negb (x =? chr "x")) (t_exit 1).

Definition sbrk8000 s : utree unit :=
  t_brk 0x80000004;;
  top ← t_brk 0;
  x ← t_load (u64 (top - 1));
  t_store (u64 (top - 1)) (u8 (x + 1)).

Definition badarg s : utree unit :=
  t_each (zrange 0 (Z.to_nat 50000)) (λ _, t_call C_exec [CStr (bytes_of_string "echo"); CPtr 0xffffffff];; mret tt);;
  t_exit 0.

(** [struct test]: the function and its name. *)
Definition test : Type := (list Z → utree unit) * string.

Definition quicktests : list test :=
  [(copyin, "copyin"); (copyout, "copyout"); (copyinstr1, "copyinstr1"); (copyinstr2, "copyinstr2");
   (copyinstr3 rounds, "copyinstr3"); (rwsbrk, "rwsbrk"); (truncate1, "truncate1"); (truncate2, "truncate2");
   (truncate3, "truncate3"); (openiputtest, "openiput"); (exitiputtest, "exitiput"); (iputtest, "iput");
   (opentest, "opentest"); (writetest, "writetest"); (writebig, "writebig"); (createtest, "createtest");
   (dirtest, "dirtest"); (exectest, "exectest"); (pipe1, "pipe1"); (killstatus rounds, "killstatus");
   (preempt, "preempt"); (exitwait, "exitwait"); (reparent, "reparent"); (twochildren, "twochildren");
   (forkfork, "forkfork"); (forkforkfork rounds, "forkforkfork"); (reparent2, "reparent2"); (mem_ rounds, "mem");
   (sharedfd, "sharedfd"); (fourfiles, "fourfiles"); (createdelete, "createdelete"); (unlinkread, "unlinkread");
   (linktest, "linktest"); (concreate, "concreate"); (linkunlink, "linkunlink"); (subdir, "subdir");
   (bigwrite, "bigwrite"); (bigfile, "bigfile"); (fourteen, "fourteen"); (rmdot, "rmdot");
   (dirfile, "dirfile"); (iref, "iref"); (forktest_, "forktest"); (sbrkbasic, "sbrkbasic");
   (sbrkmuch, "sbrkmuch"); (kernmem, "kernmem"); (MAXVAplus, "MAXVAplus"); (sbrkfail, "sbrkfail");
   (sbrkarg, "sbrkarg"); (validatetest, "validatetest"); (bsstest, "bsstest"); (bigargtest, "bigargtest");
   (argptest, "argptest"); (stacktest, "stacktest"); (nowrite, "nowrite"); (pgbug, "pgbug");
   (sbrkbugs, "sbrkbugs"); (sbrklast, "sbrklast"); (sbrk8000, "sbrk8000"); (badarg, "badarg")]%string.

Definition bigdir s : utree unit :=
  let name (i : Z) : list Z := [chr "x"; u8 (chr "0" + i / 64); u8 (chr "0" + i mod 64)] in
  t_unlink "bd";;
  fd ← t_open "bd" O_CREATE;
  t_fail_if (fd <? 0) "%s: bigdir create failed" [UStr (Some s)];;
  t_close fd;;
  t_each (zrange 0 500) (λ i,
    r ← t_linkb (bytes_of_string "bd") (name i);
    t_fail_if (negb (r =? 0)) "%s: bigdir i=%d link(bd, %s) failed" [UStr (Some s); UInt i; UStr (Some (name i))]);;
  t_unlink "bd";;
  t_each (zrange 0 500) (λ i,
    r ← t_unlinkb (name i);
    t_when (negb (r =? 0)) (says "%s: bigdir unlink failed" [UStr (Some s)];; t_exit 1)).

Definition manywrites s : utree unit :=
  t_each (zrange 0 4) (λ ci,
    pid ← t_fork;
    t_fail_if (pid <? 0) "fork failed" [];;
    t_when (pid =? 0)
      (let name := [chr "b"; u8 (chr "a" + ci)] in
       t_unlinkb name;;
       t_each (zrange 0 30) (λ _,
         t_each (zrange 0 (Z.to_nat (ci + 1))) (λ _,
           fd ← t_openb name RWCREATE;
           t_fail_if (fd <? 0) "%s: cannot create %s" [UStr (Some s); UStr (Some name)];;
           cc ← t_write fd buf_;
           t_fail_if (negb (cc =? BUFSZ_)) "%s: write(%d) ret %d" [UStr (Some s); UInt BUFSZ_; UInt cc];;
           t_close fd;; mret tt);;
         t_unlinkb name;; mret tt);;
       t_unlinkb name;;
       t_exit 0));;
  t_each (zrange 0 4) (λ _, st ← t_wait_st 0; t_when (negb (st =? 0)) (t_exit st));;
  t_exit 0.

Definition badwrite s : utree unit :=
  t_unlink "junk";;
  t_each (zrange 0 600) (λ _,
    fd ← t_open "junk" WRCREATE;
    t_fail_if (fd <? 0) "open junk failed" [];;
    t_call C_write [CInt fd; CPtr 0xffffffffff; CInt 1];;
    t_close fd;;
    t_unlink "junk";; mret tt);;
  fd ← t_open "junk" WRCREATE;
  t_fail_if (fd <? 0) "open junk failed" [];;
  n ← t_write fd (bytes_of_string "x");
  t_fail_if (negb (n =? 1)) "write failed" [];;
  t_close fd;;
  t_unlink "junk";;
  t_exit 0.

Definition execout s : utree unit :=
  t_each (zrange 0 15) (λ avail,
    pid ← t_fork;
    if pid <? 0 then bad "fork failed" []
    else if pid =? 0 then
      t_loop rounds (λ _ : unit,
        a ← t_brk 4096;
        if a =? MAXU then mret (inr tt) else t_store (u64 (a + 4096 - 1)) 1;; mret (inl tt)) tt;;
      t_each (zrange 0 (Z.to_nat avail)) (λ _, t_brk (-4096);; mret tt);;
      t_close 1;;
      t_exec "echo" ["echo"; "x"]%string;;
      t_exit 0
    else t_wait;; mret tt);;
  t_exit 0.

(** A block of a local array that is not initialised: here of zeros. *)
Definition diskfull s : utree unit :=
  let big_name (i : Z) : list Z := bytes_of_string "big" ++ [u8 (chr "0" + i)] in
  let zz_name (i : Z) : list Z := bytes_of_string "zz" ++ [u8 (chr "0" + i / 32); u8 (chr "0" + i mod 32)] in
  t_unlink "diskfulldir";;
  t_until (zrange 0 (Z.to_nat (127 - chr "0"))) (λ _ fi,
    t_unlinkb (big_name fi);;
    fd ← t_openb (big_name fi) (Z.lor RWCREATE O_TRUNC);
    if fd <? 0 then say "%s: could not create file %s" [UStr (Some s); UStr (Some (big_name fi))];; mret (inr tt)
    else
      full ← t_until (zrange 0 268) (λ _ _,
        n ← t_write fd (replicate 1024 0);
        if negb (n =? 1024) then t_close fd;; mret (inr true) else mret (inl false)) false;
      t_close fd;;
      mret (if full : bool then inr tt else inl tt)) tt;;
  t_until (zrange 0 128) (λ _ i,
    t_unlinkb (zz_name i);;
    fd ← t_openb (zz_name i) (Z.lor RWCREATE O_TRUNC);
    if fd <? 0 then mret (inr tt) else t_close fd;; mret (inl tt)) tt;;
  r ← t_mkdir "diskfulldir";
  t_when (r =? 0) (say "%s: mkdir(diskfulldir) unexpectedly succeeded!" [UStr (Some s)]);;
  t_unlink "diskfulldir";;
  t_each (zrange 0 128) (λ i, t_unlinkb (zz_name i);; mret tt);;
  t_each (zrange 0 (Z.to_nat (127 - chr "0"))) (λ i, t_unlinkb (big_name i);; mret tt).

Definition outofinodes s : utree unit :=
  let zz_name (i : Z) : list Z := bytes_of_string "zz" ++ [u8 (chr "0" + i / 32); u8 (chr "0" + i mod 32)] in
  t_until (zrange 0 (Z.to_nat (32 * 32))) (λ _ i,
    t_unlinkb (zz_name i);;
    fd ← t_openb (zz_name i) (Z.lor RWCREATE O_TRUNC);
    if fd <? 0 then mret (inr tt) else t_close fd;; mret (inl tt)) tt;;
  t_each (zrange 0 (Z.to_nat (32 * 32))) (λ i, t_unlinkb (zz_name i);; mret tt).

Definition slowtests : list test :=
  [(bigdir, "bigdir"); (manywrites, "manywrites"); (badwrite, "badwrite"); (execout, "execout");
   (diskfull, "diskfull"); (outofinodes, "outofinodes")]%string.

(** ** The driver *)

(** 1 if the child exits with 0. *)
Definition run (f : list Z → utree unit) (s : list Z) : utree Z :=
  says "test %s: " [UStr (Some s)];;
  pid ← t_fork;
  t_fail_if (pid <? 0) "runtest: fork error" [];;
  if pid =? 0 then f s;; t_exit 0
  else
    w ← t_wait;
    (if negb (snd w =? 0) then say "FAILED" [] else say "OK" []);;
    mret (of_bool (snd w =? 0)).

Fixpoint runtests (tests : list test) (justone : option (list Z)) (continuous : Z) : utree Z :=
  match tests with
  | [] => mret 0
  | (f, name) :: tests' =>
      let s := bytes_of_string name in
      if match justone with None => true | Some j => strcmp s j =? 0 end then
        r ← run f s;
        if (r =? 0) && negb (continuous =? 2) then say "SOME TESTS FAILED" [];; mret 1
        else runtests tests' justone continuous
      else runtests tests' justone continuous
  end.

(** A round of the child, which allocates a page, and of the parent, which counts it. *)
Definition alloc_round (fd1 : Z) (_ : unit) : utree (unit + unit) :=
  a ← t_brk 4096;
  if a =? MAXU then mret (inr tt)
  else
    t_store (u64 (a + 4096 - 1)) 1;;
    n ← t_write fd1 (bytes_of_string "x");
    t_fail_if (negb (n =? 1)) "write() failed in countfree()" [];;
    mret (inl tt).
Definition count_round (fd0 n : Z) : utree (Z + Z) :=
  rb ← t_read fd0 1;
  t_fail_if (fst rb <? 0) "read() failed in countfree()" [];;
  mret (if fst rb =? 0 then inr n else inl (n + 1)).

Definition countfree : utree Z :=
  fds ← t_pipe_or (bad "pipe() failed in countfree()" []);
  pid ← t_fork;
  t_fail_if (pid <? 0) "fork failed in countfree()" [];;
  t_when (pid =? 0) (t_close (fst fds);; t_loop rounds (alloc_round (snd fds)) tt;; t_exit 0);;
  t_close (snd fds);;
  n ← t_loop rounds (count_round (fst fds)) 0;
  t_close (fst fds);;
  t_wait;;
  mret n.

(** A round of the driver: [inr] is what [drivetests] returns. *)
Definition drive_round (quick continuous : Z) (justone : option (list Z)) : utree (unit + Z) :=
  say "usertests starting" [];;
  free0 ← countfree;
  failed ← runtests quicktests justone continuous;
  if negb (failed =? 0) && negb (continuous =? 2) then mret (inr 1)
  else
    failed ←
      (if quick =? 0 then
         t_when (bool_decide (justone = None)) (say "usertests slow tests starting" []);;
         runtests slowtests justone continuous
       else mret 0);
    if negb (failed =? 0) && negb (continuous =? 2) then mret (inr 1)
    else
      free1 ← countfree;
      t_when (free1 <? free0) (say "FAILED -- lost some free pages %d (out of %d)" [UInt free1; UInt free0]);;
      if (free1 <? free0) && negb (continuous =? 2) then mret (inr 1)
      else mret (if negb (continuous =? 0) then inl tt else inr 0).
Definition drivetests (quick continuous : Z) (justone : option (list Z)) : utree Z :=
  t_loop rounds (λ _ : unit, drive_round quick continuous justone) tt.

Definition usertests_main (argv : list (list Z)) : utree unit :=
  let one := match argv with [_; a] => Some a | _ => None end in
  let arg_is (o : string) : bool := bool_decide (one = Some (bytes_of_string o)) in
  let dash := match one with Some (c :: _) => c =? chr "-" | _ => false end in
  let run (quick continuous : Z) (justone : option (list Z)) : utree unit :=
    r ← drivetests quick continuous justone;
    t_when (negb (r =? 0)) (t_exit 1);;
    say "ALL TESTS PASSED" [];;
    t_exit 0 in
  if arg_is "-q" then run 1 0 None
  else if arg_is "-c" then run 0 1 None
  else if arg_is "-C" then run 0 2 None
  else if bool_decide (is_Some one) && negb dash then run 0 0 one
  else if (1 <? length argv)%nat then bad "Usage: usertests [-c] [-C] [-q] [testname]" []
  else run 0 0 None.
End tests.
