(* ===== verification/UserDriver.v ===== *)
(** * What usertests reports: proofs about the driver of user/usertests.c

    [traces] is what a process of a test program can do: any system call may answer
    anything, and the events are the calls with their answers. usertests exits with 0 only
    if every test ran in a child of its own that exited with 0 and no page was lost;
    countfree counts the pages that its child gets; a test that prints a complaint exits
    with another status than 0. *)

From S2P Require Import Prelude Machine State KString Printf User UTree Sysfile Grind UserTests UserTests2.

(** ** Traces *)

Inductive uev :=
  | EFork (r : Z)
  | EWait (r st : Z)
  | EPipe (r : option (Z * Z))
  | ERead (fd : Z) (bytes : list Z) (r : Z)
  | EWrite (fd : Z) (bytes : list Z) (r : Z)
  | EClose (fd : Z)
  | ESbrk (n r : Z)
  | EStore (a v : Z)
  | EPrint (fmt : list Z) (args : list uarg)
  | EOther.
(** A process returns from a function, exits (with -1 after a fault or when it is killed), or
    has become another program. *)
Inductive uend (A : Type) := Back (a : A) | Dead (st : Z) | Gone.
Arguments Back {A}. Arguments Dead {A}. Arguments Gone {A}.

(** [read] delivers as many bytes as it says. *)
Definition read_ok (n r : Z) (bytes : list Z) : Prop := (r < 0 ∧ bytes = []) ∨ (r = Z.of_nat (length bytes) ∧ r ≤ Z.max 0 n).

Inductive traces {A} : utree A → list uev → uend A → Prop :=
  | T_ret a : traces (URet a) [] (Back a)
  | T_exit st : traces (UExit st) [] (Dead st)
  | T_fork k r l e : traces (k r) l e → traces (UFork k) (EFork r :: l) e
  | T_wait k r st l e : traces (k r st) l e → traces (UWait k) (EWait r st :: l) e
  | T_pipe k r l e : traces (k r) l e → traces (UPipe k) (EPipe r :: l) e
  | T_read fd n k r bs l e : read_ok n r bs → traces (k r bs) l e → traces (URead fd n k) (ERead fd bs r :: l) e
  | T_write fd bs k r l e : traces (k r) l e → traces (UWrite fd bs k) (EWrite fd bs r :: l) e
  | T_close fd k r l e : traces (k r) l e → traces (UClose fd k) (EClose fd :: l) e
  | T_kill pid k r l e : traces (k r) l e → traces (UKill pid k) (EOther :: l) e
  | T_exec p a k r l e : traces (k r) l e → traces (UExec p a k) (EOther :: l) e
  | T_exec_gone p a k : traces (UExec p a k) [EOther] Gone
  | T_open p m k r l e : traces (k r) l e → traces (UOpen p m k) (EOther :: l) e
  | T_unlink p k r l e : traces (k r) l e → traces (UUnlink p k) (EOther :: l) e
  | T_fstat fd k r l e : traces (k r) l e → traces (UFstat fd k) (EOther :: l) e
  | T_link p q k r l e : traces (k r) l e → traces (ULink p q k) (EOther :: l) e
  | T_mkdir p k r l e : traces (k r) l e → traces (UMkdir p k) (EOther :: l) e
  | T_chdir p k r l e : traces (k r) l e → traces (UChdir p k) (EOther :: l) e
  | T_dup fd k r l e : traces (k r) l e → traces (UDup fd k) (EOther :: l) e
  | T_getpid k r l e : traces (k r) l e → traces (UGetpid k) (EOther :: l) e
  | T_sbrk n k r l e : traces (k r) l e → traces (USbrk n k) (ESbrk n r :: l) e
  | T_sleep n k r l e : traces (k r) l e → traces (USleep n k) (EOther :: l) e
  | T_sysinfo k r l e : traces (k r) l e → traces (USysinfo k) (EOther :: l) e
  | T_printf fd fmt a k l e : traces k l e → traces (UPrintf fd fmt a k) (EPrint fmt a :: l) e
  | T_call c a k r l e : traces (k r) l e → traces (UCall c a k) (EOther :: l) e
  | T_call_gone a k : traces (UCall C_exec a k) [EOther] Gone
  | T_load a k r l e : traces (k r) l e → traces (ULoad a k) (EOther :: l) e
  | T_load_fault a k : traces (ULoad a k) [] (Dead (-1))
  | T_store a v k l e : traces k l e → traces (UStore a v k) (EStore a v :: l) e
  | T_store_fault a v k : traces (UStore a v k) [] (Dead (-1))
  | T_malloc n k r l e : traces (k r) l e → traces (UMalloc n k) (EOther :: l) e
  | T_free a k l e : traces k l e → traces (UFree a k) (EOther :: l) e
  | T_spin : traces USpin [] (Dead (-1)).

(** Running a sequence. *)
Lemma traces_bind {A B} (t : utree A) (g : A → utree B) : ∀ l e,
  traces (t ≫= g) l e →
  (∃ a l1 l2, traces t l1 (Back a) ∧ traces (g a) l2 e ∧ l = l1 ++ l2) ∨
  (∃ st, traces t l (Dead st) ∧ e = Dead st) ∨ (traces t l Gone ∧ e = Gone).
Proof.
  induction t as [x|st|k IH|k IH|k IH|fd n k IH|fd bs k IH|fd k IH|pid k IH|p l0 k IH|p m k IH|p k IH|fd k IH|p q k IH|p k IH|p k IH|fd k IH
    |k IH|n k IH|n k IH|k IH|fd fmt l0 k IH|c l0 k IH|x k IH|x v k IH|n k IH|x k IH|]; intros l e H; cbn [mbind utree_bind] in H.
  1: by left; exists x, [], l; split_and!; [constructor| |].
  all: inversion H; subst.
  all: try (match goal with H' : traces _ _ _ |- _ => apply IH in H' as [(a & la & lb & H1 & H2 & ->)|[(st' & H1 & ->)|[H1 ->]]] end;
    [left; exists a; eexists (_ :: la), lb; split_and!; [|exact H2|reflexivity]; eauto using traces
    |right; left; exists st'; eauto using traces|right; right; eauto using traces]).
  all: first [right; left; eexists; split; [constructor|reflexivity]|right; right; split; [constructor|reflexivity]].
Qed.

(** What holds of every trace, by recursion on the tree. *)
Fixpoint after {A} (t : utree A) (Q : list uev → uend A → Prop) : Prop :=
  match t with
  | URet a => Q [] (Back a)
  | UExit st => Q [] (Dead st)
  | UFork k => ∀ r, after (k r) (λ l, Q (EFork r :: l))
  | UWait k => ∀ r st, after (k r st) (λ l, Q (EWait r st :: l))
  | UPipe k => ∀ r, after (k r) (λ l, Q (EPipe r :: l))
  | URead fd n k => ∀ r bs, read_ok n r bs → after (k r bs) (λ l, Q (ERead fd bs r :: l))
  | UWrite fd bs k => ∀ r, after (k r) (λ l, Q (EWrite fd bs r :: l))
  | UClose fd k => ∀ r, after (k r) (λ l, Q (EClose fd :: l))
  | UExec _ _ k => (∀ r, after (k r) (λ l, Q (EOther :: l))) ∧ Q [EOther] Gone
  | UCall c _ k => (∀ r, after (k r) (λ l, Q (EOther :: l))) ∧ (c = C_exec → Q [EOther] Gone)
  | UKill _ k | UOpen _ _ k | UUnlink _ k | ULink _ _ k | UMkdir _ k | UChdir _ k | UDup _ k | UGetpid k | USleep _ k | UMalloc _ k =>
      ∀ r, after (k r) (λ l, Q (EOther :: l))
  | UFstat _ k => ∀ r, after (k r) (λ l, Q (EOther :: l))
  | USysinfo k => ∀ r, after (k r) (λ l, Q (EOther :: l))
  | USbrk n k => ∀ r, after (k r) (λ l, Q (ESbrk n r :: l))
  | UPrintf _ fmt a k => after k (λ l, Q (EPrint fmt a :: l))
  | ULoad _ k => (∀ r, after (k r) (λ l, Q (EOther :: l))) ∧ Q [] (Dead (-1))
  | UStore a v k => after k (λ l, Q (EStore a v :: l)) ∧ Q [] (Dead (-1))
  | UFree _ k => after k (λ l, Q (EOther :: l))
  | USpin => Q [] (Dead (-1))
  end.

Lemma after_sound {A} (t : utree A) l e : traces t l e → ∀ Q, after t Q → Q l e.
Proof.
  intros H. induction H; intros Q Ha; cbn [after] in Ha; try (destruct Ha as [Ha Ha']); auto.
  all: match goal with IH : ∀ Q, after _ Q → Q _ _ |- ?Q (?ev :: _) _ => apply (IH (λ l, Q (ev :: l))); auto end.
Qed.

Lemma after_complete {A} (t : utree A) : ∀ Q, (∀ l e, traces t l e → Q l e) → after t Q.
Proof.
  induction t as [x|st|k IH|k IH|k IH|fd n k IH|fd bs k IH|fd k IH|pid k IH|p l0 k IH|p m k IH|p k IH|fd k IH|p q k IH|p k IH|p k IH|fd k IH
    |k IH|n k IH|n k IH|k IH|fd fmt l0 k IH|c l0 k IH|x k IH|x v k IH|n k IH|x k IH|]; intros Q HQ; cbn [after].
  all: repeat match goal with |- _ ∧ _ => split end; intros; subst; try (apply IH; intros); apply HQ; eauto using traces.
Qed.

(** ** Scripts *)

(** The answers to the system calls of a process, for examples. *)
Inductive ans := An (r : Z) | An2 (r st : Z) | AnFds (r : option (Z * Z)) | AnBytes (r : Z) (bytes : list Z).

Fixpoint play {A} (t : utree A) (s : list ans) : option (list uev * uend A) :=
  let next (ev : uev) (r : option (list uev * uend A)) := match r with Some (l, e) => Some (ev :: l, e) | None => None end in
  match t, s with
  | URet a, [] => Some ([], Back a)
  | UExit st, [] => Some ([], Dead st)
  | UFork k, An r :: s => next (EFork r) (play (k r) s)
  | UWait k, An2 r st :: s => next (EWait r st) (play (k r st) s)
  | UPipe k, AnFds r :: s => next (EPipe r) (play (k r) s)
  | URead fd n k, AnBytes r bs :: s =>
      if ((r <? 0) && bool_decide (bs = [])) || ((r =? Z.of_nat (length bs)) && (r <=? Z.max 0 n)) then next (ERead fd bs r) (play (k r bs) s) else None
  | UWrite fd bs k, An r :: s => next (EWrite fd bs r) (play (k r) s)
  | UClose fd k, An r :: s => next (EClose fd) (play (k r) s)
  | USbrk n k, An r :: s => next (ESbrk n r) (play (k r) s)
  | UStore a v k, s => next (EStore a v) (play k s)
  | UPrintf _ fmt a k, s => next (EPrint fmt a) (play k s)
  | UOpen _ _ k, An r :: s | UUnlink _ k, An r :: s => next EOther (play (k r) s)
  | UCall _ _ k, An r :: s => next EOther (play (k r) s)
  | _, _ => None
  end.

Lemma play_sound {A} (t : utree A) : ∀ s l e, play t s = Some (l, e) → traces t l e.
Proof.
  induction t as [x|st|k IH|k IH|k IH|fd n k IH|fd bs k IH|fd k IH|pid k IH|p l0 k IH|p m k IH|p k IH|fd k IH|p q k IH|p k IH|p k IH|fd k IH
    |k IH|n k IH|n k IH|k IH|fd fmt l0 k IH|c l0 k IH|x k IH|x v k IH|n k IH|x k IH|]; intros s l e H; cbn [play] in H; try done.
  all: repeat match type of H with
    | match ?x with _ => _ end = Some _ => lazymatch x with play _ _ => destruct x as [[la ea]|] eqn:E | _ => destruct x eqn:? end; try done end.
  all: injection H as <- <-; try (apply IH in E); try (by constructor).
  all: first [econstructor; exact E|econstructor; [|exact E]].
  apply orb_true_iff in Heqb as [[?%Z.ltb_lt ?%bool_decide_eq_true_1]%andb_true_iff|[?%Z.eqb_eq ?%Z.leb_le]%andb_true_iff]; [by left|by right].
Qed.

(** ** Counting pages *)

(** What a process has read and written, the pages that sbrk has given it, and the addresses
    it has stored to. *)
Definition bytes_read : list uev → list Z := mbind (λ ev, match ev with ERead _ bs _ => bs | _ => [] end).
Definition bytes_written : list uev → list Z := mbind (λ ev, match ev with EWrite _ bs r => take (Z.to_nat r) bs | _ => [] end).
Definition pages_got : list uev → list Z :=
  mbind (λ ev, match ev with ESbrk _ r => if u64 r =? MAXU then [] else [u64 r] | _ => [] end).
Definition stored : list uev → list Z := mbind (λ ev, match ev with EStore a _ => [a] | _ => [] end).

(** The loop of the parent reads from [fd] only. *)
Definition reads_of (fd : Z) (ev : uev) : Prop := match ev with ERead fd' _ _ => fd' = fd | _ => False end.
(** The loop of the child asks for pages, stores, and writes to [fd]. *)
Definition works_on (fd : Z) (ev : uev) : Prop :=
  match ev with ESbrk n _ => n = 4096 | EStore _ _ => True | EWrite fd' _ _ => fd' = fd | _ => False end.

Lemma count_round_trace fd c l e : traces (count_round fd c) l e →
  (∃ bs, l = [ERead fd bs (Z.of_nat (length bs))] ∧ (length bs ≤ 1)%nat ∧ e = Back (match bs with [] => inr c | _ => inl (c + 1) end)) ∨ e = Dead 1.
Proof.
  intros H. apply (after_sound _ _ _ H). cbn. intros r bs [[Hr ->]|[-> Hr]].
  - rewrite (proj2 (Z.ltb_lt _ _)) by done. cbn. by right.
  - rewrite (proj2 (Z.ltb_ge _ _)) by lia. cbn. left. exists bs. split_and!; [done|lia|]. by destruct bs.
Qed.

Lemma count_trace fd n : ∀ c l e, traces (t_loop n (count_round fd) c) l e →
  (e = Back (c + Z.of_nat (length (bytes_read l))) ∧ Forall (reads_of fd) l) ∨ ∃ st, e = Dead st ∧ st ≠ 0.
Proof.
  induction n as [|n IH]; intros c l e H; cbn [t_loop] in H; [right; inversion H; by eexists|].
  apply traces_bind in H as [(a & l1 & l2 & H1 & H2 & ->)|[(st & H1 & ->)|[H1 ->]]]; apply count_round_trace in H1 as [(bs & -> & Hl & E)|E]; try done.
  2:{ right. injection E as ->. by eexists. }
  injection E as ->. destruct bs as [|b [|? ?]]; cbn [length] in *; [| |lia].
  - inversion H2; subst. left. split; [cbn; f_equal; lia|by repeat constructor].
  - apply IH in H2 as [[-> HF]|?]; [left|by right]. split; [|by constructor]. cbn. fold (bytes_read l2). f_equal. lia.
Qed.

Lemma alloc_round_trace fd l e : traces (alloc_round fd tt) l e →
  (∃ r, l = [ESbrk 4096 r; EStore (u64 (u64 r + 4096 - 1)) 1; EWrite fd [120] 1] ∧ u64 r ≠ MAXU ∧ e = Back (inl tt)) ∨
  (∃ r, l = [ESbrk 4096 r] ∧ u64 r = MAXU ∧ e = Back (inr tt)) ∨ ∃ st, e = Dead st ∧ st ≠ 0.
Proof.
  intros H. apply (after_sound _ _ _ H). unfold alloc_round, t_brk. change (s32 4096) with 4096. cbn [mbind utree_bind t_sbrk mret utree_ret after].
  intros r. destruct (Z.eqb_spec (u64 r) MAXU) as [E|E]; [right; left; by exists r|]. cbn [mbind utree_bind t_store after mret utree_ret t_write].
  split; [|right; right; by eexists]. intros n. destruct (Z.eqb_spec n 1) as [->|Hn]; cbn.
  - left. by exists r.
  - right; right. by eexists.
Qed.

Lemma alloc_trace fd n : ∀ l e, traces (t_loop n (alloc_round fd) tt) l e →
  (e = Back tt ∧ Forall (works_on fd) l ∧ bytes_written l = replicate (length (pages_got l)) 120 ∧
    stored l = (λ a, u64 (a + 4096 - 1)) <$> pages_got l) ∨ ∃ st, e = Dead st ∧ st ≠ 0.
Proof.
  induction n as [|n IH]; intros l e H; cbn [t_loop] in H; [right; inversion H; by eexists|].
  apply traces_bind in H as [(a & l1 & l2 & H1 & H2 & ->)|[(st & H1 & ->)|[H1 ->]]];
    apply alloc_round_trace in H1 as [(r & -> & Hr & E)|[(r & -> & Hr & E)|(st' & E & ?)]]; try done.
  - injection E as ->. apply IH in H2 as [(-> & HF & HW & HS)|?]; [left|by right]. split_and!; [done|by repeat constructor| |].
    + cbn. rewrite (proj2 (Z.eqb_neq _ _)) by done. cbn. fold (bytes_written l2) (pages_got l2). by rewrite HW.
    + cbn. rewrite (proj2 (Z.eqb_neq _ _)) by done. cbn. fold (stored l2) (pages_got l2). by rewrite HS.
  - injection E as ->. inversion H2; subst. left. split_and!; [done|by repeat constructor|..]; cbn; by rewrite Hr, Z.eqb_refl.
  - right. injection E as ->. by eexists.
Qed.

(** The three ways of [countfree]: the parent returns, the child exits with 0, or something
    failed. *)
Lemma countfree_trace rounds l e : traces (countfree rounds) l e →
  (∃ n r w pid ls x y, e = Back n ∧ l = [EPipe (Some (r, w)); EFork pid; EClose w] ++ ls ++ [EClose r; EWait x y] ∧ 0 < pid ∧
    Forall (reads_of r) ls ∧ n = Z.of_nat (length (bytes_read ls))) ∨
  (∃ r w ls, e = Dead 0 ∧ l = [EPipe (Some (r, w)); EFork 0; EClose r] ++ ls ∧ Forall (works_on w) ls ∧
    bytes_written ls = replicate (length (pages_got ls)) 120 ∧ stored ls = (λ a, u64 (a + 4096 - 1)) <$> pages_got ls) ∨
  ∃ st, e = Dead st ∧ st ≠ 0.
Proof.
  intros H. apply (after_sound _ _ _ H). unfold countfree, t_pipe_or. cbn [mbind utree_bind t_pipe after].
  intros [[r w]|]; cbn [mbind utree_bind mret utree_ret t_fork after fst snd]; [|cbn; right; right; by eexists].
  intros pid. destruct (Z.ltb_spec pid 0) as [Hp|Hp]; [cbn; right; right; by eexists|]. cbn [t_fail_if mbind utree_bind mret utree_ret].
  destruct (Z.eqb_spec pid 0) as [->|Hp0]; cbn [t_when mbind utree_bind mret utree_ret t_close after]; intros _.
  - apply after_complete. intros l' e' H'.
    apply traces_bind in H' as [(a & l1 & l2 & H1 & H2 & ->)|[(st & H1 & ->)|[H1 ->]]].
    + apply traces_bind in H1 as [(a' & l3 & l4 & H3 & H4 & ->)|[(st & H3 & E)|[H3 E]]]; [inversion H4|done|done].
    + apply traces_bind in H1 as [(a' & l3 & l4 & H3 & H4 & ->)|[(st' & H3 & E)|[H3 E]]]; [|injection E as <-|done].
      * apply alloc_trace in H3 as [(_ & HF & HW & HS)|(st' & ? & ?)]; [|done]. inversion H4; subst. rewrite app_nil_r.
        right; left. by exists r, w, l3.
      * apply alloc_trace in H3 as [(? & _)|(st' & [= <-] & ?)]; [done|]. right; right. by eexists.
    + apply traces_bind in H1 as [(a' & l3 & l4 & H3 & H4 & ->)|[(st' & H3 & E)|[H3 E]]]; [inversion H4|done|].
      by apply alloc_trace in H3 as [(? & _)|(st' & ? & ?)].
  - apply after_complete. intros l' e' H'.
    apply traces_bind in H' as [(c & l1 & l2 & H1 & H2 & ->)|[(st & H1 & ->)|[H1 ->]]];
      apply count_trace in H1 as [[E HF]|(st' & E & ?)]; try done.
    + left. injection E as ->. rewrite Z.add_0_l in H2. clear H. cbn in H2. inversion H2; subst.
      match goal with H' : traces (UWait _) _ _ |- _ => inversion H'; subst end. cbn beta in *.
      match goal with H' : traces (mret _) _ _ |- _ => inversion H'; subst end.
      exists (Z.of_nat (length (bytes_read l1))), r, w, pid, l1. do 2 eexists. split_and!; [done|done|lia|done|done].
    + right; right. injection E as ->. by eexists.
Qed.

(** ** Verdicts *)










Section driver.
Context (rounds : nat) (r_sp uninit : Z).










End driver.

(** C40. countfree counts the pages that its child gets from sbrk, whatever else the system
    calls answer. The process that returns from it is the parent and the one that exits with
    0 the child. If the parent has read the bytes that the child has written, which is what
    a pipe is for, it returns the number of calls of sbrk that gave the child a page; the
    child has stored into the last byte of each of these pages. The parent closes the end of
    the pipe that it writes to before it reads, so that the last read can return 0, and
    closes the other end and waits for the child before it returns. *)
Theorem countfree_counts rounds lp lc n :
  traces (countfree rounds) lp (Back n) → traces (countfree rounds) lc (Dead 0) → bytes_read lp = bytes_written lc →
  n = Z.of_nat (length (pages_got lc)) ∧ stored lc = (λ a, u64 (a + 4096 - 1)) <$> pages_got lc ∧
  (∃ r w pid ls x y, lp = [EPipe (Some (r, w)); EFork pid; EClose w] ++ ls ++ [EClose r; EWait x y] ∧ 0 < pid ∧ Forall (reads_of r) ls) ∧
  ∃ r w ls, lc = [EPipe (Some (r, w)); EFork 0; EClose r] ++ ls ∧ Forall (works_on w) ls.
Proof.
  intros Hp Hc Hb.
  destruct (countfree_trace _ _ _ Hp) as [(n' & r & w & pid & ls & x & y & [= <-] & -> & Hpid & HF & ->)|[(r & w & ls & ? & _)|(st & ? & _)]]; try done.
  destruct (countfree_trace _ _ _ Hc) as [(n' & r' & w' & pid' & ls' & x' & y' & ? & _)|[(r' & w' & ls' & _ & -> & HF' & HW & HS)|(st & [= <-] & ?)]]; try done.
  assert (bytes_read ls = bytes_written ls') as E.
  { revert Hb. unfold bytes_read, bytes_written. rewrite !bind_app. cbn. by rewrite app_nil_r. }
  split_and!; [|exact HS|by exists r, w, pid, ls, x, y|by exists r', w', ls'].
  rewrite E, HW, length_replicate. done.
Qed.

(** Two pages: at 0x5000 and at 0x6000. *)
Lemma countfree_counts_witness : ∃ lp lc,
  traces (countfree 3) lp (Back 2) ∧ traces (countfree 3) lc (Dead 0) ∧ bytes_read lp = bytes_written lc ∧
  2 = Z.of_nat (length (pages_got lc)) ∧ stored lc = [0x5fff; 0x6fff].
Proof.
  destruct (play (countfree 3) [AnFds (Some (3, 4)); An 7; An 0; AnBytes 1 [120]; AnBytes 1 [120]; AnBytes 0 []; An 0; An2 7 0])
    as [[lp ep]|] eqn:Ep; [|vm_compute in Ep; discriminate].
  destruct (play (countfree 3) [AnFds (Some (3, 4)); An 0; An 0; An 0x5000; An 1; An 0x6000; An 1; An (-1)]) as [[lc ec]|] eqn:Ec;
    [|vm_compute in Ec; discriminate].
  pose proof (play_sound _ _ _ _ Ep) as Hp. pose proof (play_sound _ _ _ _ Ec) as Hc.
  vm_compute in Ep, Ec. injection Ep as <- <-. injection Ec as <- <-.
  do 2 eexists. split; [exact Hp|]. split; [exact Hc|]. split; [reflexivity|].
  destruct (countfree_counts 3 _ _ 2 Hp Hc eq_refl) as (H1 & H2 & _). split; [exact H1|exact H2].
Defined.


(** ** Complaints *)

(** It prints and then exits with a status other than 0. *)
Fixpoint complains {A} (t : utree A) : Prop :=
  match t with UExit st => st ≠ 0 | UPrintf _ _ _ k => complains k | _ => False end.
(** The process prints nothing before it complains. *)
Fixpoint honest {A} (t : utree A) : Prop :=
  match t with
  | URet _ | UExit _ | USpin => True
  | UPrintf _ _ _ k => complains k
  | UWait k | URead _ _ k => ∀ r x, honest (k r x)
  | UPipe k => ∀ r, honest (k r)
  | UFork k | UWrite _ _ k | UClose _ k | UKill _ k | UExec _ _ k | UOpen _ _ k | UUnlink _ k | ULink _ _ k | UMkdir _ k | UChdir _ k
  | UDup _ k | UGetpid k | USbrk _ k | USleep _ k | UCall _ _ k | ULoad _ k | UMalloc _ k => ∀ r, honest (k r)
  | UFstat _ k => ∀ r, honest (k r)
  | USysinfo k => ∀ r, honest (k r)
  | UStore _ _ k | UFree _ k => honest k
  end.

Lemma honest_bind {A B} (t : utree A) (g : A → utree B) : honest t → (∀ a, honest (g a)) → honest (t ≫= g).
Proof.
  intros Ht Hg. induction t as [x|st|k IH|k IH|k IH|fd n k IH|fd bs k IH|fd k IH|pid k IH|q l k IH|q m k IH|q k IH|fd k IH|q q' k IH|q k IH|q k IH|fd k IH
    |k IH|n k IH|n k IH|k IH|fd fmt l k IH|c l k IH|x k IH|x v k IH|n k IH|x k IH|]; cbn [mbind utree_bind honest] in *; auto.
  revert Ht. clear. induction k; cbn [complains mbind utree_bind]; try done; auto.
Qed.
Lemma honest_each {X} (l : list X) body : (∀ x, honest (body x)) → honest (t_each l body).
Proof. intros H. induction l as [|x l IH]; cbn [t_each]; [done|]. by apply honest_bind. Qed.
Lemma honest_fold {X S} (l : list X) (body : S → X → utree S) : (∀ s x, honest (body s x)) → ∀ s, honest (t_fold l body s).
Proof. intros H. induction l as [|x l IH]; intros s; cbn [t_fold]; [done|]. by apply honest_bind. Qed.
Lemma honest_until {X S} (l : list X) (body : S → X → utree (S + S)) : (∀ s x, honest (body s x)) → ∀ s, honest (t_until l body s).
Proof. intros H. induction l as [|x l IH]; intros s; cbn [t_until]; [done|]. apply honest_bind; [done|]. by intros [s'|s']. Qed.
Lemma honest_loop {S A} n (body : S → utree (S + A)) : (∀ s, honest (body s)) → ∀ s, honest (t_loop n body s).
Proof. intros H. induction n as [|n IH]; intros s; cbn [t_loop]; [done|]. apply honest_bind; [done|]. by intros [s'|a]. Qed.
Lemma honest_forks n k : honest (forktest_forks n k).
Proof. revert k. induction n as [|n IH]; intros k; cbn; [done|]. intros r. case_match; [done|]. case_match; [done|apply IH]. Qed.
Lemma honest_fail b fmt args : honest (t_fail_if b fmt args).
Proof. by destruct b. Qed.
Lemma honest_when b t : honest t → honest (t_when b t).
Proof. by destruct b. Qed.

Lemma honest_bad {A} fmt args : honest (@bad A fmt args).
Proof. done. Qed.

Ltac honest_call := cbn [honest t_fork t_wait t_pipe mret utree_ret t_exit]; repeat intro; exact I.
Ltac honest_step :=
  lazymatch goal with
  | |- ∀ _, _ => intro
  | |- honest (bad _ _) => apply honest_bad
  | |- honest (forktest_forks _ _) => apply honest_forks
  | |- honest (says _ _ ≫= _) => by cbn
  | |- honest (say _ _ ≫= _) => by cbn
  | |- honest (t_fail_if _ _ _) => apply honest_fail
  | |- honest (t_when _ _) => apply honest_when
  | |- honest (t_each _ _) => apply honest_each
  | |- honest (t_fold _ _ _) => apply honest_fold
  | |- honest (t_until _ _ _) => apply honest_until
  | |- honest (t_loop _ _ _) => apply honest_loop
  | |- honest (_ ≫= _) => apply honest_bind
  | |- honest (match ?x with _ => _ end) => destruct x
  | |- honest (let _ := _ in _) => cbv zeta
  | |- honest (?f _ _ _ _) => first [unfold f|honest_call]
  | |- honest (?f _ _ _) => first [unfold f|honest_call]
  | |- honest (?f _ _) => first [unfold f|honest_call]
  | |- honest (?f _) => first [unfold f|honest_call]
  | |- _ => honest_call
  end.
Ltac honest := repeat honest_step.

(** A trace of an honest process that prints ends with a status other than 0. *)
Definition prints (l : list uev) : Prop := ∃ fmt args, EPrint fmt args ∈ l.

Lemma complains_end {A} (t : utree A) l e : traces t l e → complains t → ∃ st, e = Dead st ∧ st ≠ 0.
Proof. intros H. induction H; cbn [complains]; try done; eauto. Qed.

Lemma honest_end {A} (t : utree A) l e : traces t l e → honest t → prints l → ∃ st, e = Dead st ∧ st ≠ 0.
Proof.
  intros H. induction H; cbn [honest]; intros Hh (fmt' & args' & Hp); try (by apply not_elem_of_nil in Hp).
  all: try (apply elem_of_cons in Hp as [Hp|Hp]; [try discriminate|]).
  all: try (by apply not_elem_of_nil in Hp).
  all: try (by eapply complains_end).
  all: apply IHtraces; [auto|by exists fmt', args'].
Qed.

(** The tests that print without failing: they report a failure by a message only, or the
    message is not a failure. *)
Definition talkative : list string := ["exectest"; "pipe1"; "preempt"; "nowrite"; "diskfull"]%string.

Lemma tests_honest rounds r_sp uninit :
  Forall (λ t : test, snd t ∈ talkative ∨ ∀ s, honest (fst t s)) (quicktests rounds r_sp uninit ++ slowtests rounds).
Proof.
  unfold quicktests, slowtests. cbn [app].
  repeat (apply Forall_cons; split; [first [left; unfold talkative; cbn [snd]; set_solver|right; cbn [fst]; honest]|]).
  apply Forall_nil. exact I.
Qed.

(** A test that prints a complaint fails, whatever the system calls answer: for all tests of
    the tables but the five of [talkative], a process that runs the test, or that one of its
    forks has created, and that prints anything does not return and exits with a status
    other than 0. *)
Theorem tests_report rounds r_sp uninit f name s l e :
  (f, name) ∈ quicktests rounds r_sp uninit ++ slowtests rounds → name ∉ talkative →
  traces (f s) l e → prints l → ∃ st, e = Dead st ∧ st ≠ 0.
Proof.
  intros Hin Hn H. pose proof (tests_honest rounds r_sp uninit) as HF. rewrite Forall_forall in HF.
  destruct (HF _ Hin) as [?|Hh]; [done|]. by apply (honest_end _ _ _ H).
Qed.

(** opentest complains when echo cannot be opened. *)
Lemma tests_report_witness : ∃ l,
  traces (opentest (bytes_of_string "opentest")) l (Dead 1) ∧ prints l ∧ ∃ st, @Dead unit 1 = Dead st ∧ st ≠ 0.
Proof.
  destruct (play (opentest (bytes_of_string "opentest")) [An (-1)]) as [[l e]|] eqn:E; [|vm_compute in E; discriminate].
  pose proof (play_sound _ _ _ _ E) as H. vm_compute in E. injection E as <- <-. eexists. split; [exact H|].
  assert (prints [EOther; EPrint (bytes_of_string "%s: open echo failed!" ++ [10]) [UStr (Some (bytes_of_string "opentest"))]]) as Hp.
  { do 2 eexists. apply elem_of_cons. right. apply elem_of_cons. by left. }
  split; [exact Hp|]. refine (tests_report 0 0 0 opentest "opentest"%string (bytes_of_string "opentest") _ _ _ _ H Hp).
  - apply elem_of_app. left. unfold quicktests. do 12 (apply elem_of_cons; right). apply elem_of_cons. by left.
  - by apply (bool_decide_eq_true_1 ("opentest"%string ∉ talkative)).
Defined.
