(* ===== verification/UserPrintf.v ===== *)
(** * What user/printf.c prints

    A format is built from directives; [denotes] says what text each one stands for,
    and [vprintf_correct] that [vprintf] writes exactly that text. *)

From S2P Require Import Prelude Machine State Spinlock KString Kalloc Vm Proc Sched Uart Printf PrintfProofs User.

(** The conversions of a number: %d, %ld and %lld, %u ..., %x ... *)
Inductive width := WInt | WLong | WLongLong.
Inductive conv := CDec | CUns | CHex.
Inductive directive :=
  | Lit (c : Z)
  | Num (w : width) (k : conv) (z : Z)
  | Ptr (z : Z)
  | Str (s : option (list Z))
  | Percent
  | Unknown (c : Z).

(** ** Formats and their arguments *)

Definition width_chars (w : width) : list Z :=
  match w with WInt => [] | WLong => [chr "l"] | WLongLong => [chr "l"; chr "l"] end.
Definition conv_char (k : conv) : Z :=
  match k with CDec => chr "d" | CUns => chr "u" | CHex => chr "x" end.
Definition chars_of (d : directive) : list Z :=
  match d with
  | Lit c => [c]
  | Num w k _ => chr "%" :: width_chars w ++ [conv_char k]
  | Ptr _ => [chr "%"; chr "p"]
  | Str _ => [chr "%"; chr "s"]
  | Percent => [chr "%"; chr "%"]
  | Unknown c => [chr "%"; c]
  end.
Definition args_of (d : directive) : list uarg :=
  match d with
  | Num _ _ z => [UInt z]
  | Ptr z => [UInt z]
  | Str s => [UStr s]
  | _ => []
  end.
Definition format_of (ds : list directive) : list Z := concat (chars_of <$> ds).
Definition format_args (ds : list directive) : list uarg := concat (args_of <$> ds).

(** A literal is not a percent sign; an unknown conversion is none of the known ones. *)
Definition directive_ok (d : directive) : Prop :=
  match d with
  | Lit c => 0 < c < 256 ∧ c ≠ chr "%"
  | Unknown c => 0 < c < 256 ∧ c ∉ (chr <$> ["%"; "d"; "l"; "u"; "x"; "p"; "s"]%char)
  | _ => True
  end.

(** ** The text of a directive *)

Definition conv_base (k : conv) : Z := match k with CHex => 16 | _ => 10 end.
(** Every conversion shows the low 32 bits of its argument, %d with its sign. *)
Definition shown (k : conv) (z : Z) : Z := match k with CDec => s32 z | _ => u32 z end.
Definition lower (c : Z) : Z := if (65 <=? c) && (c <=? 70) then c + 32 else c.
(** [l] is the numeral of [n], with upper case hexadecimal digits. *)
Definition is_numeral (base n : Z) (l : list Z) : Prop :=
  numeral_ok base (lower <$> l) ∧ numeral_val base (lower <$> l) = n.
Definition is_number (base n : Z) (l : list Z) : Prop :=
  if n <? 0 then ∃ l', l = chr "-" :: l' ∧ is_numeral base (- n) l' else is_numeral base n l.
(** The sixteen hexadecimal digits of a 64-bit number. *)
Definition is_pointer (z : Z) (l : list Z) : Prop :=
  length l = 16%nat ∧ numeral_val 16 (lower <$> l) = u64 z ∧ Forall (λ c, c ∈ udigits) l.

Definition denotes (d : directive) (l : list Z) : Prop :=
  match d with
  | Lit c => l = [c]
  | Num _ k z => is_number (conv_base k) (shown k z) l
  | Ptr z => ∃ ds, l = chr "0" :: chr "x" :: ds ∧ is_pointer z ds
  | Str s => l = u8 <$> to_nul (default (bytes_of_string "(null)") s)
  | Percent => l = [chr "%"]
  | Unknown c => l = [chr "%"; c]
  end.

(** ** Widths *)

Lemma s32_range z : - 2 ^ 31 ≤ s32 z < 2 ^ 31.
Proof. unfold s32. pose proof (Z.mod_pos_bound (z + 2 ^ 31) (2 ^ 32)). lia. Qed.

Lemma s32_mod a b : a mod 2 ^ 32 = b mod 2 ^ 32 → s32 a = s32 b.
Proof. intros E. unfold s32. rewrite (Z.add_mod a), (Z.add_mod b), E by lia. done. Qed.

Lemma u32_s32 z : u32 (s32 z) = u32 z.
Proof.
  unfold u32, s32. rewrite Zminus_mod_idemp_l. f_equal. lia.
Qed.

Lemma shown_s32 k z : shown k (s32 z) = shown k z.
Proof.
  destruct k; cbn [shown]; [|apply u32_s32..].
  apply s32_small, s32_range.
Qed.

Lemma shown_u64 k z : shown k (u64 z) = shown k z.
Proof.
  assert (u64 z mod 2 ^ 32 = z mod 2 ^ 32) as E.
  { unfold u64. change (2 ^ 64) with (2 ^ 32 * 2 ^ 32). rewrite Z.rem_mul_r by lia.
    rewrite Z.mul_comm, Z.mod_add, Z.mod_mod by lia. done. }
  destruct k; cbn [shown]; [by apply s32_mod|exact E..].
Qed.

(** ** Digits *)

Lemma lower_udigits d : 0 ≤ d < 16 → lower (nthZ 0 udigits d) = nthZ 0 digits d.
Proof.
  intros Hd. assert (Forall (λ d, lower (nthZ 0 udigits d) = nthZ 0 digits d) (zrange 0 16)) as H
    by (vm_compute; repeat constructor).
  rewrite Forall_forall in H. apply H, elem_of_zrange. lia.
Qed.

Lemma u8_udigits d : 0 ≤ d < 16 → u8 (nthZ 0 udigits d) = nthZ 0 udigits d ∧ nthZ 0 udigits d ∈ udigits.
Proof.
  intros Hd. assert (Forall (λ d, u8 (nthZ 0 udigits d) = nthZ 0 udigits d ∧ bool_decide (nthZ 0 udigits d ∈ udigits) = true) (zrange 0 16)) as H
    by (vm_compute; repeat constructor).
  rewrite Forall_forall in H. destruct (H d) as [H1 H2]; [apply elem_of_zrange; lia|].
  split; [done|]. by apply bool_decide_eq_true in H2.
Qed.

Lemma uprintint_digits_lower f x base :
  2 ≤ base ≤ 16 → lower <$> uprintint_digits f x base = printint_digits f x base.
Proof.
  intros Hb. revert x. induction f as [|f IH]; intros x; [done|].
  cbn [uprintint_digits printint_digits fmap list_fmap].
  rewrite lower_udigits by (pose proof (Z.mod_pos_bound x base); lia).
  f_equal. case_match; [done|]. apply IH.
Qed.

Lemma uprintint_digits_u8 f x base :
  2 ≤ base ≤ 16 → u8 <$> uprintint_digits f x base = uprintint_digits f x base.
Proof.
  intros Hb. revert x. induction f as [|f IH]; intros x; [done|].
  cbn [uprintint_digits fmap list_fmap].
  rewrite (proj1 (u8_udigits (x mod base) ltac:(pose proof (Z.mod_pos_bound x base); lia))).
  f_equal. case_match; [done|]. apply IH.
Qed.

Lemma uprintint_numeral x base :
  2 ≤ base ≤ 16 → 0 ≤ x < 2 ^ 32 → is_numeral base x (rev (uprintint_digits 32 x base)).
Proof.
  intros Hb Hx.
  assert (0 ≤ x < base ^ Z.of_nat 32) as Hx'.
  { split; [lia|]. eapply Z.lt_le_trans; [apply Hx|]. apply Z.pow_le_mono_l. lia. }
  unfold is_numeral. rewrite map_rev. change (map lower) with (fmap (M:=list) lower).
  rewrite uprintint_digits_lower by done. split.
  - by apply printint_digits_ok.
  - by apply (printint_digits_spec base Hb 32 x Hx').
Qed.

Section emit.
Context {W : Type} `{UserLaws W} (fd o : Z) (Ho : o = 1 ∨ o = 2).

Lemma emits_eq {A} bs cs (m : prog W A) : bs = cs → emits fd o bs m → emits fd o cs m.
Proof. by intros ->. Qed.

(** Some text [P] is what [m] writes. *)
Definition emits_some {A} (P : list Z → Prop) (m : prog W A) : Prop := ∃ bs, P bs ∧ emits fd o bs m.

Lemma uprintint_ok w k z :
  emits_some (denotes (Num w k z)) (uprintint o z (conv_base k) (match k with CDec => true | _ => false end)).
Proof.
  assert (2 ≤ conv_base k ≤ 16) as Hb by (destruct k; cbn; lia).
  set (l := rev (uprintint_buf (s32 z) (conv_base k) (match k with CDec => true | _ => false end))).
  assert (denotes (Num w k z) l ∧ u8 <$> l = l) as [Hl Hu].
  { subst l. unfold uprintint_buf. cbn [denotes]. unfold is_number.
    pose proof (s32_range z) as Hz. pose proof (u32_range z) as Hz'.
    assert (u32 (s32 z) = u32 z) as Hs by apply u32_s32.
    assert (∀ x, u8 <$> rev (uprintint_digits 32 x (conv_base k)) = rev (uprintint_digits 32 x (conv_base k))) as Hu8.
    { intros x. change (fmap (M:=list) u8) with (map u8). rewrite map_rev. f_equal. by apply uprintint_digits_u8. }
    destruct k; cbn [shown andb conv_base] in *.
    - destruct (Z.ltb_spec (s32 z) 0).
      + rewrite rev_app_distr. cbn [rev app]. split.
        * eexists. split; [done|]. rewrite u32_small by lia. apply uprintint_numeral; lia.
        * rewrite fmap_cons, Hu8. done.
      + rewrite app_nil_r. split; [|apply Hu8]. rewrite u32_small by lia. apply uprintint_numeral; lia.
    - rewrite app_nil_r, Hs. split; [|apply Hu8].
      destruct (Z.ltb_spec (u32 z) 0); [lia|]. apply uprintint_numeral; lia.
    - rewrite app_nil_r, Hs. split; [|apply Hu8].
      destruct (Z.ltb_spec (u32 z) 0); [lia|]. apply uprintint_numeral; lia. }
  exists l. split; [done|]. rewrite <- Hu. by apply emits_putcs.
Qed.

Fixpoint ptr_digits (n : nat) (x : Z) : list Z :=
  match n with
  | O => []
  | S n' => nthZ 0 udigits (Z.shiftr x 60) :: ptr_digits n' (u64 (Z.shiftl x 4))
  end.

Lemma shiftr60 x : 0 ≤ x < 2 ^ 64 → 0 ≤ Z.shiftr x 60 < 16.
Proof. intros Hx. rewrite Z.shiftr_div_pow2 by lia. split; [apply Z.div_pos; lia|apply Z.div_lt_upper_bound; lia]. Qed.

Lemma uprintptr_loop_ok n x : 0 ≤ x < 2 ^ 64 → emits fd o (ptr_digits n x) (uprintptr_loop n o x).
Proof.
  revert x. induction n as [|n IH]; intros x Hx; cbn [ptr_digits uprintptr_loop]; [apply emits_ret|].
  pose proof (u8_udigits _ (shiftr60 x Hx)) as [Hu _].
  apply (emits_bind fd o [_]); [rewrite <- Hu at 1; by apply emits_putc|].
  intros _. apply IH. apply u64_range.
Qed.

Lemma numeral_val_cons base c l :
  numeral_val base (c :: l) = digit_val c * base ^ zlen l + numeral_val base l.
Proof.
  induction l as [|d l IH] using rev_ind.
  - unfold numeral_val, zlen. cbn. lia.
  - change (c :: l ++ [d]) with ((c :: l) ++ [d]). rewrite !numeral_val_snoc, IH. unfold zlen.
    rewrite length_app, Nat2Z.inj_add. cbn [length]. rewrite Z.pow_add_r by lia. change (base ^ Z.of_nat 1) with (base ^ 1). rewrite Z.pow_1_r. ring.
Qed.

Lemma ptr_digits_length n x : length (ptr_digits n x) = n.
Proof. revert x. induction n as [|n IH]; intros x; cbn; [done|]. by rewrite IH. Qed.

Lemma shift4 x : 0 ≤ x < 2 ^ 64 → u64 (Z.shiftl x 4) = 16 * (x mod 2 ^ 60).
Proof.
  intros Hx. rewrite Z.shiftl_mul_pow2 by lia. unfold u64.
  change (2 ^ 64) with (2 ^ 60 * 2 ^ 4). rewrite Z.mul_mod_distr_r by lia. lia.
Qed.

Lemma ptr_digits_val n x :
  (n ≤ 16)%nat → 0 ≤ x < 2 ^ 64 →
  numeral_val 16 (lower <$> ptr_digits n x) = x / 2 ^ (64 - 4 * Z.of_nat n).
Proof.
  revert x. induction n as [|n IH]; intros x Hn Hx.
  - cbn [ptr_digits fmap list_fmap]. change (numeral_val 16 []) with 0. symmetry. apply Z.div_small. cbn. lia.
  - cbn [ptr_digits]. rewrite fmap_cons, numeral_val_cons.
    rewrite lower_udigits, digit_val_digits by (by apply shiftr60).
    rewrite IH by (lia || apply u64_range). unfold zlen. rewrite length_fmap, ptr_digits_length.
    rewrite shift4 by done. rewrite Z.shiftr_div_pow2 by lia.
    set (k := 64 - 4 * Z.of_nat (S n)). replace (64 - 4 * Z.of_nat n) with (4 + k) by lia.
    rewrite Z.pow_add_r by lia. change (2 ^ 4) with 16. rewrite Z.div_mul_cancel_l by lia.
    assert (2 ^ 60 = 16 ^ Z.of_nat n * 2 ^ k) as E60.
    { change 16 with (2 ^ 4). rewrite <- Z.pow_mul_r, <- Z.pow_add_r by lia. f_equal. lia. }
    assert (x = (x / 2 ^ 60 * 16 ^ Z.of_nat n) * 2 ^ k + x mod 2 ^ 60) as Ex.
    { pose proof (Z.div_mod x (2 ^ 60) ltac:(lia)) as Hdm. rewrite <- Z.mul_assoc, <- E60. lia. }
    rewrite Ex at 3. rewrite Z.div_add_l by (apply Z.pow_nonzero; lia). lia.
Qed.

Lemma ptr_digits_in n x : 0 ≤ x < 2 ^ 64 → Forall (λ c, c ∈ udigits) (ptr_digits n x).
Proof.
  revert x. induction n as [|n IH]; intros x Hx; cbn [ptr_digits]; constructor.
  - apply u8_udigits. by apply shiftr60.
  - apply IH, u64_range.
Qed.

Lemma uprintptr_ok z : emits_some (denotes (Ptr z)) (uprintptr o z).
Proof.
  pose proof (u64_range z) as Hz.
  exists ([chr "0"] ++ [chr "x"] ++ ptr_digits 16 (u64 z)). split.
  - eexists. split; [done|]. split_and!; [apply ptr_digits_length| |by apply ptr_digits_in].
    rewrite ptr_digits_val by (lia || done). change (64 - 4 * Z.of_nat 16) with 0. apply Z.div_1_r.
  - apply emits_bind; [by apply (emits_putc fd o (chr "0"))|]. intros _.
    apply emits_bind; [by apply (emits_putc fd o (chr "x"))|]. intros _.
    by apply uprintptr_loop_ok.
Qed.

(** ** One directive *)

#[local] Ltac char_test x y :=
  let b := eval vm_compute in (x =? y) in
  match b with
  | true => idtac
  | false => idtac
  end;
  change (x =? y) with b; cbn [andb].
#[local] Ltac char_tests :=
  repeat match goal with
  | |- context [if ?x =? ?y then _ else _] => char_test x y
  | |- context [(?x =? ?y) && _] => char_test x y
  end; cbn [andb].

Fixpoint spells (fmt : cstr) (i : Z) (l : list Z) : Prop :=
  match l with
  | [] => True
  | c :: l' => fmt i = c ∧ spells fmt (i + 1) l'
  end.

(** From index [i] the loop writes [bs] for the directive and goes on after it; it
    takes [k] rounds. *)
Definition handles (fmt : cstr) (i : Z) (d : directive) (bs : list Z) (k : nat) : Prop :=
  ∀ f ap bs',
    emits fd o bs' (vprintf_loop f o fmt (i + zlen (chars_of d)) false ap) →
    emits fd o (bs ++ bs') (vprintf_loop (k + f) o fmt i false (args_of d ++ ap)).

Lemma handles_lit fmt i c :
  directive_ok (Lit c) → spells fmt i [c] → handles fmt i (Lit c) [c] 1.
Proof.
  intros [Hc Hp] [Hi _] f ap bs' Hf. cbn [Nat.add vprintf_loop args_of app]. rewrite Hi. cbn [negb].
  rewrite (proj2 (Z.eqb_neq c 0)), (proj2 (Z.eqb_neq c (chr "%"))) by (done || lia).
  rewrite <- (u8_small c) at 1 by (cbn; lia).
  apply (emits_bind fd o [u8 c] bs'); [by apply emits_putc|]. by intros _.
Qed.

Lemma handles_num fmt i w k z :
  spells fmt i (chars_of (Num w k z)) → ∃ bs, denotes (Num w k z) bs ∧ handles fmt i (Num w k z) bs 2.
Proof.
  intros Hsp. cbn [chars_of spells] in Hsp. destruct Hsp as [Hi Hsp].
  destruct (uprintint_ok w k (match w with WInt => s32 z | _ => u64 z end)) as (bs & Hbs & Hem).
  exists bs. split.
  { revert Hbs. cbn [denotes]. destruct w; [rewrite shown_s32|rewrite shown_u64..]; done. }
  intros f ap bs' Hf. cbn [Nat.add vprintf_loop args_of app]. rewrite Hi. cbn [negb].
  destruct w, k; cbn [width_chars conv_char app spells] in Hsp;
    repeat match goal with H : _ ∧ _ |- _ => destruct H as [?Hc H] end;
    rewrite <- ?Z.add_assoc in *; change (1 + (1 + 1)) with (1 + 2) in *;
    repeat match goal with H : fmt _ = _ |- _ => rewrite ?H in *; clear H end.
  all: rewrite <- ?Z.add_assoc in *; char_tests.
  all: cbn [uva_int uva_u64]; apply emits_bind; [exact Hem|]; intros _; exact Hf.
Qed.

Lemma handles_ptr fmt i z :
  spells fmt i (chars_of (Ptr z)) → ∃ bs, denotes (Ptr z) bs ∧ handles fmt i (Ptr z) bs 2.
Proof.
  intros (Hi & Hc & _). destruct (uprintptr_ok (u64 z)) as (bs & Hbs & Hem). exists bs. split.
  { revert Hbs. cbn [denotes]. unfold is_pointer. rewrite (u64_small (u64 z)) by apply u64_range. done. }
  intros f ap bs' Hf. cbn [Nat.add vprintf_loop args_of app]. rewrite Hi, Hc. cbn [negb].
  rewrite <- ?Z.add_assoc in *. char_tests. cbn [uva_u64]. apply emits_bind; [exact Hem|]. intros _. exact Hf.
Qed.

Lemma handles_str fmt i s :
  spells fmt i (chars_of (Str s)) → ∃ bs, denotes (Str s) bs ∧ handles fmt i (Str s) bs 2.
Proof.
  intros (Hi & Hc & _). eexists. split; [reflexivity|].
  intros f ap bs' Hf. cbn [Nat.add vprintf_loop args_of app]. rewrite Hi, Hc. cbn [negb].
  rewrite <- ?Z.add_assoc in *. char_tests. cbn [uva_str].
  apply emits_bind; [by apply emits_putcs|]. intros _. exact Hf.
Qed.

Lemma handles_percent fmt i :
  spells fmt i (chars_of Percent) → handles fmt i Percent [chr "%"] 2.
Proof.
  intros (Hi & Hc & _) f ap bs' Hf. cbn [Nat.add vprintf_loop args_of app]. rewrite Hi, Hc. cbn [negb].
  rewrite <- ?Z.add_assoc in *. char_tests.
  apply (emits_bind fd o [chr "%"] bs'); [by apply (emits_putc fd o (chr "%"))|]. intros _. exact Hf.
Qed.

Lemma handles_unknown fmt i c :
  directive_ok (Unknown c) → spells fmt i (chars_of (Unknown c)) →
  handles fmt i (Unknown c) [chr "%"; c] 2.
Proof.
  intros [Hr Hn] (Hi & Hc & _) f ap bs' Hf. cbn [Nat.add vprintf_loop args_of app]. rewrite Hi, Hc. cbn [negb].
  assert (∀ k, k ∈ (chr <$> ["%"; "d"; "l"; "u"; "x"; "p"; "s"]%char) → (c =? k) = false) as Hk.
  { intros k Hin. apply Z.eqb_neq. by intros ->. }
  rewrite (proj2 (Z.eqb_neq c 0)) by lia.
  rewrite (Hk (chr "d")), (Hk (chr "l")), (Hk (chr "u")), (Hk (chr "x")), (Hk (chr "p")), (Hk (chr "s")), (Hk (chr "%"))
    by (cbn [fmap list_fmap]; set_solver).
  rewrite <- ?Z.add_assoc in *. char_tests.
  apply (emits_bind fd o [chr "%"] (c :: bs')); [by apply (emits_putc fd o (chr "%"))|]. intros _.
  rewrite <- (u8_small c) at 1 by (cbn; lia).
  apply (emits_bind fd o [u8 c] bs'); [by apply emits_putc|]. intros _. exact Hf.
Qed.

Lemma handles_ok fmt i d :
  directive_ok d → spells fmt i (chars_of d) →
  ∃ bs k, denotes d bs ∧ handles fmt i d bs k ∧ (k ≤ length (chars_of d))%nat.
Proof.
  intros Hd Hsp. destruct d as [c|w k z|z|s| |c].
  - exists [c], 1%nat. split_and!; [done|by apply handles_lit|done].
  - destruct (handles_num fmt i w k z Hsp) as (bs & Hbs & Hh). exists bs, 2%nat.
    split_and!; [done..|]. cbn. rewrite length_app. cbn. lia.
  - destruct (handles_ptr fmt i z Hsp) as (bs & Hbs & Hh). by exists bs, 2%nat.
  - destruct (handles_str fmt i s Hsp) as (bs & Hbs & Hh). by exists bs, 2%nat.
  - exists [chr "%"], 2%nat. split_and!; [done|by apply handles_percent|done].
  - exists [chr "%"; c], 2%nat. split_and!; [done|by apply handles_unknown|done].
Qed.

(** ** The whole format *)

Lemma spells_list pre l post : spells (at_list (pre ++ l ++ post)) (zlen pre) l.
Proof.
  revert pre. induction l as [|c l IH]; intros pre; cbn [spells app]; [done|]. split.
  - unfold at_list, zlen. apply nthZ_lookup; [lia|]. rewrite Nat2Z.id. by rewrite list_lookup_middle.
  - replace (zlen pre + 1) with (zlen (pre ++ [c])) by (unfold zlen; rewrite length_app; cbn; lia).
    specialize (IH (pre ++ [c])). by rewrite <- app_assoc in IH.
Qed.

Lemma at_list_end l : at_list l (zlen l) = 0.
Proof.
  unfold at_list, nthZ, zlen. rewrite decide_True by lia. apply nth_overflow. lia.
Qed.

Lemma vprintf_loop_ok ds pre f :
  Forall directive_ok ds → (length (format_of ds) < f)%nat →
  ∃ texts, Forall2 denotes ds texts ∧
    emits fd o (concat texts)
      (vprintf_loop f o (at_list (pre ++ format_of ds)) (zlen pre) false (format_args ds)).
Proof.
  intros Hds. revert pre f. induction Hds as [|d ds Hd Hds IH]; intros pre f Hf.
  - exists []. split; [constructor|]. destruct f as [|f]; [cbn in Hf; lia|]. cbn [vprintf_loop format_of fmap list_fmap concat].
    rewrite app_nil_r, at_list_end. cbn. apply emits_ret.
  - unfold format_of, format_args in *. cbn [fmap list_fmap concat] in *. rewrite length_app in Hf.
    destruct (handles_ok _ (zlen pre) d Hd (spells_list pre (chars_of d) (concat (chars_of <$> ds)))) as (bs & k & Hbs & Hh & Hk).
    destruct (IH (pre ++ chars_of d) (f - k)%nat ltac:(lia)) as (texts & Hts & Hem).
    exists (bs :: texts). split; [by constructor|]. cbn [concat].
    replace f with (k + (f - k))%nat by lia. apply Hh.
    rewrite <- app_assoc in Hem. unfold zlen in *. rewrite length_app, Nat2Z.inj_add in Hem. exact Hem.
Qed.
End emit.

(** ** Properties *)

(** C37. [vprintf] of user/printf.c returns, and what it writes to the descriptor is the
    text of each directive of the format in order: literal bytes as they are, numbers
    in the base of the conversion without superfluous zeros (every width shows the low
    32 bits of the argument), pointers as sixteen hexadecimal digits, strings up to
    their NUL, (null) for a null pointer, and an unknown conversion unchanged. *)
Theorem vprintf_correct {W} `{UserLaws W} fd o ds input out w :
  Forall directive_ok ds → o = 1 ∨ o = 2 → sees fd input out w →
  ∃ texts w', Forall2 denotes ds texts ∧
    vprintf o (format_of ds) (format_args ds) w = Ret (inl tt) w' ∧
    sees fd input (append_to o (concat texts) out) w'.
Proof.
  intros Hds Ho Hw.
  destruct (vprintf_loop_ok fd o Ho ds [] (S (length (format_of ds))) Hds ltac:(lia)) as (texts & Ht & Hem).
  specialize (Hem input out w (λ _ _, False) Hw). apply wp_elim in Hem as ([[]|st] & w' & Hrun & Hsees).
  - exists texts, w'. by split_and!.
  - done.
Qed.

Lemma vprintf_correct_witness :
  ∃ texts w', Forall2 denotes [Lit 97; Num WInt CDec (-5); Num WLong CHex (2 ^ 32 + 255); Str None] texts ∧
    @vprintf stream stream_os 1 (bytes_of_string "a%d%lx%s") [UInt (-5); UInt (2 ^ 32 + 255); UStr None]
      (Stream [] [] []) = Ret (inl tt) w' ∧
    @sees stream stream_os stream_laws 0 [] (append_to 1 (concat texts) (λ _, [])) w'.
Proof.
  apply (@vprintf_correct stream stream_os stream_laws 0 1 [Lit 97; Num WInt CDec (-5); Num WLong CHex (2 ^ 32 + 255); Str None]).
  - repeat constructor; done.
  - by left.
  - by split.
Defined.
