(* ===== verification/UserProgs.v ===== *)
(** * Small user programs: user/cat.c, wc.c, echo.c, kill.c, ln.c, mkdir.c, rm.c, ls.c

    Their loops, and that cat and wc see the same input however it is cut into reads. *)

From S2P Require Import Prelude Machine State Spinlock KString Kalloc Vm Proc Sched Uart Printf PrintfProofs User UserPrintf.

(** A C string in the source and a newline. *)
Definition msg (s : string) : list Z := bytes_of_string s ++ [10].

Section programs.
Context {W : Type} `{UserOS W}.

(** ** user/cat.c *)

Fixpoint cat (fuel : nat) (fd : Z) : prog W unit :=
  match fuel with
  | O => λ _, Hang
  | S f =>
      r ← call (u_read fd 512);
      let '(n, data) := r in
      if 0 <? n then
        r ← call (u_write 1 data);
        if negb (r =? n) then ufprintf 2 (msg "cat: write error") [];; uexit 1
        else cat f fd
      else if n <? 0 then ufprintf 2 (msg "cat: read error") [];; uexit 1
      else mret tt
  end.
Definition cat_main (fuel : nat) (argv : list (list Z)) : prog W unit :=
  match tail argv with
  | [] => cat fuel 0;; uexit 0
  | files =>
      pfor files (λ name,
        fd ← call (u_open name 0);
        pwhen (fd <? 0) (ufprintf 2 (msg "cat: cannot open %s") [UStr (Some name)];; uexit 1);;
        cat fuel fd;;
        call (u_close fd);;
        mret tt);;
      uexit 0
  end.

(** ** user/wc.c *)

Record wcount := Wc { wc_l : Z; wc_w : Z; wc_c : Z; wc_inword : bool }.
Definition wc_space : list Z := [32; 13; 9; 10; 11].
(** One round of the inner loop. *)
Definition wc_byte (k : wcount) (b : Z) : wcount :=
  let c := s32 (wc_c k + 1) in
  let l := if b =? 10 then s32 (wc_l k + 1) else wc_l k in
  match strchr wc_space b with
  | Some _ => Wc l (wc_w k) c false
  | None => if wc_inword k then Wc l (wc_w k) c true else Wc l (s32 (wc_w k + 1)) c true
  end.
Fixpoint wc_loop (fuel : nat) (fd : Z) (k : wcount) : prog W (Z * wcount) :=
  match fuel with
  | O => λ _, Hang
  | S f =>
      r ← call (u_read fd 512);
      let '(n, data) := r in
      if 0 <? n then wc_loop f fd (foldl wc_byte k data) else mret (n, k)
  end.
Definition wc (fuel : nat) (fd : Z) (name : list Z) : prog W unit :=
  r ← wc_loop fuel fd (Wc 0 0 0 false);
  let '(n, k) := r in
  pwhen (n <? 0) (uprintf (msg "wc: read error") [];; uexit 1);;
  uprintf (msg "%d %d %d %s") [UInt (wc_l k); UInt (wc_w k); UInt (wc_c k); UStr (Some name)].
Definition wc_main (fuel : nat) (argv : list (list Z)) : prog W unit :=
  match tail argv with
  | [] => wc fuel 0 [];; uexit 0
  | files =>
      pfor files (λ name,
        fd ← call (u_open name 0);
        pwhen (fd <? 0) (uprintf (msg "wc: cannot open %s") [UStr (Some name)];; uexit 1);;
        wc fuel fd name;;
        call (u_close fd);;
        mret tt);;
      uexit 0
  end.

(** ** user/echo.c, kill.c, ln.c *)

Fixpoint echo_args (args : list (list Z)) : prog W unit :=
  match args with
  | [] => mret tt
  | a :: rest =>
      call (u_write 1 a);;
      call (u_write 1 (match rest with [] => [10] | _ => [32] end));;
      echo_args rest
  end.
Definition echo_main (argv : list (list Z)) : prog W unit := echo_args (tail argv);; uexit 0.

Definition kill_main (argv : list (list Z)) : prog W unit :=
  match tail argv with
  | [] => ufprintf 2 (msg "usage: kill pid...") [];; uexit 1
  | pids => pfor pids (λ a, call (u_kill (atoi a));; mret tt);; uexit 0
  end.

Definition ln_main (argv : list (list Z)) : prog W unit :=
  match argv with
  | [_; old; new] =>
      r ← call (u_link old new);
      pwhen (r <? 0) (ufprintf 2 (msg "link %s %s: failed") [UStr (Some old); UStr (Some new)]);;
      uexit 0
  | _ => ufprintf 2 (msg "Usage: ln old new") [];; uexit 1
  end.

(** ** user/mkdir.c, rm.c: the first failure ends the loop *)

Fixpoint mkdir_loop (names : list (list Z)) : prog W unit :=
  match names with
  | [] => mret tt
  | a :: rest =>
      r ← call (u_mkdir a);
      if r <? 0 then ufprintf 2 (msg "mkdir: %s failed to create") [UStr (Some a)] else mkdir_loop rest
  end.
Definition mkdir_main (argv : list (list Z)) : prog W unit :=
  match tail argv with
  | [] => ufprintf 2 (msg "Usage: mkdir files...") [];; uexit 1
  | names => mkdir_loop names;; uexit 0
  end.

Fixpoint rm_loop (names : list (list Z)) : prog W unit :=
  match names with
  | [] => mret tt
  | a :: rest =>
      r ← call (u_unlink a);
      if r <? 0 then ufprintf 2 (msg "rm: %s failed to delete") [UStr (Some a)] else rm_loop rest
  end.
Definition rm_main (argv : list (list Z)) : prog W unit :=
  match tail argv with
  | [] => ufprintf 2 (msg "Usage: rm files...") [];; uexit 1
  | names => rm_loop names;; uexit 0
  end.

(** ** user/ls.c *)

Definition LS_DIRSIZ : nat := 14.
(** The part of the path after the last slash. *)
Fixpoint after_slash (path : list Z) : list Z :=
  match path with
  | [] => []
  | c :: rest => if bool_decide (chr "/" ∈ path) then after_slash rest else path
  end.
Definition fmtname (path : list Z) : list Z :=
  let p := after_slash path in
  if (LS_DIRSIZ <=? length p)%nat then p else p ++ replicate (LS_DIRSIZ - length p) 32.
Definition ls_entry (path : list Z) (st : Z * Z * Z) : prog W unit :=
  let '(type, ino, size) := st in
  uprintf (msg "%s %d %d %d") [UStr (Some (fmtname path)); UInt type; UInt ino; UInt size].
(** The loop over the directory entries. *)
Fixpoint ls_dir (fuel : nat) (fd : Z) (path : list Z) : prog W unit :=
  match fuel with
  | O => λ _, Hang
  | S f =>
      r ← call (u_read fd 16);
      let '(n, de) := r in
      if negb (n =? 16) then mret tt
      else if le_val (take 2 de) =? 0 then ls_dir f fd path
      else
        let buf := path ++ chr "/" :: to_nul (take LS_DIRSIZ (drop 2 de)) in
        r ← stat buf;
        let '(ok, st) := r in
        (if ok <? 0 then uprintf (msg "ls: cannot stat %s") [UStr (Some buf)] else ls_entry buf st);;
        ls_dir f fd path
  end.
Definition ls (fuel : nat) (path : list Z) : prog W unit :=
  fd ← call (u_open path 0);
  if fd <? 0 then ufprintf 2 (msg "ls: cannot open %s") [UStr (Some path)]
  else
    r ← call (u_fstat fd);
    let '(ok, st) := r in
    if ok <? 0 then ufprintf 2 (msg "ls: cannot stat %s") [UStr (Some path)];; call (u_close fd);; mret tt
    else
      let '(type, _, _) := st in
      (if (type =? 3) || (type =? 2) then ls_entry path st
       else if type =? 1 then
         if 512 <? zlen path + 1 + 14 + 1 then uprintf (msg "ls: path too long") [] else ls_dir fuel fd path
       else mret tt);;
      call (u_close fd);;
      mret tt.
Definition ls_main (fuel : nat) (argv : list (list Z)) : prog W unit :=
  match tail argv with
  | [] => ls fuel (bytes_of_string ".");; uexit 0
  | paths => pfor paths (ls fuel);; uexit 0
  end.
End programs.

(** ** Reading to the end of the input *)

Section reading.
Context {W : Type} `{UserLaws W}.

(** [cat] copies the input. *)
Lemma cat_copies fuel fd input out w (X : Z → W → Prop) :
  (length input < fuel)%nat → sees fd input out w →
  pwp (cat fuel fd) (λ _ w', sees fd [] (append_to 1 input out) w') X w.
Proof.
  revert input out w. induction fuel as [|f IH]; intros input out w Hf Hw; [lia|]. cbn [cat].
  apply pwp_bind, pwp_call. eapply wp_mono; [eapply law_read; [exact Hw|lia]|].
  intros r w1 (data & rest & -> & -> & _ & Hend & Hw1). cbn beta iota. rewrite length_app in Hf.
  destruct (Z.ltb_spec 0 (zlen data)) as [Hd|Hd].
  - apply pwp_bind, pwp_call. eapply wp_mono; [eapply law_write; [exact Hw1|by left]|].
    intros r w2 [-> Hw2]. rewrite Z.eqb_refl. cbn [negb].
    eapply pwp_mono; [apply (IH rest); [unfold zlen in Hd; lia|exact Hw2]|].
    cbn beta. intros _u w3 Hw3. eapply law_out; [|exact Hw3]. intros. apply append_to_app.
  - assert (data = []) as -> by (destruct data; [done|unfold zlen in Hd; cbn [length] in Hd; lia]).
    pose proof (Hend eq_refl) as Hr. cbn in Hr. subst rest. change (zlen [] <? 0) with false. apply pwp_ret.
    eapply law_out; [|exact Hw1]. intros. by rewrite append_to_nil.
Qed.

Lemma wc_loop_ok fuel fd k input out w (X : Z → W → Prop) :
  (length input < fuel)%nat → sees fd input out w →
  pwp (wc_loop fuel fd k) (λ r w', r = (0, foldl wc_byte k input) ∧ sees fd [] out w') X w.
Proof.
  revert k input w. induction fuel as [|f IH]; intros k input w Hf Hw; [lia|]. cbn [wc_loop].
  apply pwp_bind, pwp_call. eapply wp_mono; [eapply law_read; [exact Hw|lia]|].
  intros r w1 (data & rest & -> & -> & _ & Hend & Hw1). cbn beta iota. rewrite length_app in Hf.
  destruct (Z.ltb_spec 0 (zlen data)) as [Hd|Hd].
  - rewrite foldl_app. apply IH; [unfold zlen in Hd; lia|exact Hw1].
  - assert (data = []) as -> by (destruct data; [done|unfold zlen in Hd; cbn [length] in Hd; lia]).
    pose proof (Hend eq_refl) as Hr. cbn in Hr. subst rest. by apply pwp_ret.
Qed.
End reading.

(** ** Counting *)

Definition is_space (c : Z) : Prop := c ∈ wc_space.
#[global] Instance is_space_dec c : Decision (is_space c).
Proof. unfold is_space. apply _. Defined.

(** The pieces between white space; the words are those that are not empty. *)
Fixpoint pieces (l : list Z) : list (list Z) :=
  match l with
  | [] => [[]]
  | c :: l' =>
      if decide (is_space c) then [] :: pieces l'
      else match pieces l' with p :: ps => (c :: p) :: ps | [] => [[c]] end
  end.
Definition words (l : list Z) : list (list Z) := filter (λ p, p ≠ []) (pieces l).
Definition newlines (l : list Z) : list Z := filter (λ c, c = 10) l.

Lemma strchr_elem cs c : 0 ∉ cs → is_Some (strchr cs c) ↔ c ∈ cs.
Proof.
  induction cs as [|x cs IH]; intros H0; cbn [strchr].
  - split; [by intros [? ?]|]. intros Hc. by apply elem_of_nil in Hc.
  - rewrite not_elem_of_cons in H0. destruct H0 as [Hx H0]. rewrite (proj2 (Z.eqb_neq x 0)) by done. rewrite elem_of_cons.
    destruct (Z.eqb_spec x c) as [->|Hc].
    + split; [by left|]. by eexists.
    + rewrite fmap_is_Some, IH by done. naive_solver.
Qed.

Definition tally (l w c : nat) (b : bool) : wcount := Wc (Z.of_nat l) (Z.of_nat w) (Z.of_nat c) b.
(** The words that start in [l], after a word character or not. *)
Definition new_words (inword : bool) (l : list Z) : nat :=
  length (filter (λ p, p ≠ []) (if inword then tail (pieces l) else pieces l)).

Lemma wc_byte_ok nl nw nc b c :
  Z.of_nat nl < 2 ^ 31 - 1 → Z.of_nat nw < 2 ^ 31 - 1 → Z.of_nat nc < 2 ^ 31 - 1 →
  wc_byte (tally nl nw nc b) c =
    if decide (is_space c) then tally (if decide (c = 10) then S nl else nl) nw (S nc) false
    else tally nl (if b then nw else S nw) (S nc) true.
Proof.
  intros Hl Hw Hc. unfold wc_byte, tally. cbn [wc_l wc_w wc_c wc_inword].
  assert (∀ n, Z.of_nat n < 2 ^ 31 - 1 → s32 (Z.of_nat n + 1) = Z.of_nat (S n)) as Hs.
  { intros n Hn. rewrite s32_small by lia. lia. }
  pose proof (strchr_elem wc_space c ltac:(by apply (bool_decide_eq_true_1 (0 ∉ wc_space)))) as Hsp.
  rewrite !Hs by done. destruct (decide (is_space c)) as [Hin|Hin].
  - destruct (strchr wc_space c); [|by destruct (proj2 Hsp Hin)].
    destruct (Z.eqb_spec c 10); [rewrite decide_True by done|rewrite decide_False by done]; done.
  - destruct (strchr wc_space c); [exfalso; apply Hin, Hsp; by eexists|].
    rewrite (proj2 (Z.eqb_neq c 10)); [by destruct b|].
    intros ->. apply Hin. by apply (bool_decide_eq_true_1 (10 ∈ wc_space)).
Qed.

Lemma pieces_cons l : ∃ p ps, pieces l = p :: ps.
Proof. destruct l as [|c l]; cbn [pieces]; [by eexists _, _|]. case_decide; [by eexists _, _|]. destruct (pieces l); by eexists _, _. Qed.

Lemma new_words_cons b c l :
  new_words b (c :: l) =
    if decide (is_space c) then new_words false l else ((if b then 0 else 1) + new_words true l)%nat.
Proof.
  unfold new_words. cbn [pieces]. destruct (decide (is_space c)); cbn [tail].
  - destruct b; [done|]. rewrite filter_cons, decide_False by naive_solver. done.
  - destruct (pieces_cons l) as (p & ps & ->). cbn [tail]. destruct b; [done|].
    rewrite filter_cons, decide_True by done. done.
Qed.

Lemma new_words_le b l : (new_words b l ≤ length l)%nat.
Proof.
  revert b. induction l as [|c l IH]; intros b; [by destruct b|]. rewrite new_words_cons. cbn [length].
  pose proof (IH false). pose proof (IH true). case_decide; destruct b; lia.
Qed.

Lemma newlines_cons c l : newlines (c :: l) = if decide (c = 10) then c :: newlines l else newlines l.
Proof. unfold newlines. by rewrite filter_cons. Qed.

Lemma newlines_le l : (length (newlines l) ≤ length l)%nat.
Proof. apply length_filter. Qed.

Lemma wc_counts l nl nw nc b :
  Z.of_nat (nl + length l) < 2 ^ 31 - 1 → Z.of_nat (nw + length l) < 2 ^ 31 - 1 → Z.of_nat (nc + length l) < 2 ^ 31 - 1 →
  ∃ b', foldl wc_byte (tally nl nw nc b) l =
    tally (nl + length (newlines l)) (nw + new_words b l) (nc + length l) b'.
Proof.
  revert nl nw nc b. induction l as [|c l IH]; intros nl nw nc b Hl Hw Hc; cbn [length] in *.
  - exists b. cbn [foldl]. unfold newlines, new_words. cbn. destruct b; cbn; by rewrite !Nat.add_0_r.
  - cbn [foldl]. rewrite wc_byte_ok, new_words_cons, newlines_cons by lia.
    destruct (decide (is_space c)) as [Hs|Hs].
    + destruct (decide (c = 10)) as [->|Hn].
      * destruct (IH (S nl) nw (S nc) false) as [b' ->]; [lia..|]. exists b'. cbn [length]. f_equal; lia.
      * destruct (IH nl nw (S nc) false) as [b' ->]; [lia..|]. exists b'. f_equal; lia.
    + rewrite decide_False; [|intros ->; apply Hs; by apply (bool_decide_eq_true_1 (10 ∈ wc_space))].
      destruct (IH nl (if b then nw else S nw) (S nc) true) as [b' ->]; [destruct b; lia..|].
      exists b'. f_equal; destruct b; lia.
Qed.

(** ** Property *)

(** [wc] reads its input to the end, however the reads cut it, and prints one line with
    the number of newlines, of words (maximal runs of bytes that are not white space) and
    of bytes of it in decimal, and the name, for inputs of fewer than 2^31 - 1 bytes. *)
Theorem wc_correct {W} `{UserLaws W} fuel fd name input out w :
  zlen input < 2 ^ 31 - 1 → (length input < fuel)%nat → sees fd input out w →
  ∃ l n c w', is_numeral 10 (zlen (newlines input)) l ∧ is_numeral 10 (zlen (words input)) n ∧
    is_numeral 10 (zlen input) c ∧ wc fuel fd name w = Ret (inl tt) w' ∧
    sees fd [] (append_to 1 (l ++ [32] ++ n ++ [32] ++ c ++ [32] ++ (u8 <$> to_nul name) ++ [10]) out) w'.
Proof.
  intros Hlen Hf Hw. unfold zlen in *.
  destruct (wc_counts input 0 0 0 false) as [b Hc]; [lia..|]. cbn [Nat.add] in Hc.
  change (tally 0 0 0 false) with (Wc 0 0 0 false) in Hc. change (new_words false input) with (length (words input)) in Hc.
  assert (length (words input) ≤ length input)%nat as Hwl by apply (new_words_le false).
  pose proof (newlines_le input) as Hnl.
  set (ds := [Num WInt CDec (Z.of_nat (length (newlines input))); Lit 32; Num WInt CDec (Z.of_nat (length (words input)));
    Lit 32; Num WInt CDec (Z.of_nat (length input)); Lit 32; Str (Some name); Lit 10]).
  destruct (vprintf_loop_ok fd 1 (or_introl eq_refl) ds [] (S (length (format_of ds)))) as (texts & Ht & Hem).
  { repeat constructor; done. } { lia. }
  assert (pwp (wc fuel fd name) (λ _ w', sees fd [] (append_to 1 (concat texts) out) w') (λ _ _, False) w) as Hrun.
  { unfold wc. apply pwp_bind. eapply pwp_mono; [apply wc_loop_ok; [exact Hf|exact Hw]|].
    intros r w1 [-> Hw1]. cbn beta iota. change (0 <? 0) with false. cbn [pwhen].
    rewrite Hc. apply (Hem [] out w1 _ Hw1). }
  apply wp_elim in Hrun as ([[]|st] & w' & Hrun & Hsees); [|done].
  unfold ds in Ht. repeat (apply Forall2_cons_inv_l in Ht as (?t & ?ts & ?Hd & Ht & ->)).
  apply Forall2_nil_inv_l in Ht as ->. cbn [denotes] in *. subst.
  unfold is_number, shown in *. rewrite s32_small in Hd, Hd1, Hd3 by lia.
  destruct (Z.ltb_spec (Z.of_nat (length (newlines input))) 0); [lia|].
  destruct (Z.ltb_spec (Z.of_nat (length (words input))) 0); [lia|].
  destruct (Z.ltb_spec (Z.of_nat (length input)) 0); [lia|].
  eexists _, _, _, w'. split_and!; [exact Hd|exact Hd1|exact Hd3|exact Hrun|].
  cbn [concat default] in Hsees. by rewrite app_nil_r in Hsees.
Qed.

Lemma wc_correct_witness :
  let input := bytes_of_string "two words" ++ [10] in
  zlen (newlines input) = 1 ∧ zlen (words input) = 2 ∧
  ∃ l n c w', is_numeral 10 1 l ∧ is_numeral 10 2 n ∧ is_numeral 10 10 c ∧
    @wc stream stream_os 20 0 [97] (Stream input [3; 1; 4]%nat []) = Ret (inl tt) w' ∧
    stream_out w' 1 = l ++ [32] ++ n ++ [32] ++ c ++ [32] ++ [97] ++ [10].
Proof.
  intros input. split; [done|]. split; [done|].
  destruct (@wc_correct stream stream_os stream_laws 20 0 [97] input (λ _, []) (Stream input [3; 1; 4]%nat []))
    as (l & n & c & w' & Hl & Hn & Hc & Hrun & _ & Hout).
  - done.
  - apply Nat.ltb_lt. reflexivity.
  - by split.
  - exists l, n, c, w'. split_and!; [done..|]. by rewrite <- Hout.
Defined.
