(* ===== verification/Grep.v ===== *)
(** * user/grep.c

    The matcher and the loop over the input, and what they compute: [match_] decides
    the regular expression that the pattern spells, and [grep] writes exactly the lines
    that match, however the input is cut into reads. *)

From S2P Require Import Prelude Machine State KString User.

(** ** The matcher *)

(** The loop of [matchstar]; [mh] is [matchhere(re, .)]. *)
Fixpoint matchstar (mh : list Z → bool) (c : Z) (text : list Z) : bool :=
  mh text ||
  match text with
  | [] => false
  | x :: text' => if (x =? c) || (c =? chr ".") then matchstar mh c text' else false
  end.
Fixpoint matchhere (re : list Z) (text : list Z) : bool :=
  match re with
  | [] => true
  | c :: re1 =>
      let rest :=
        if (c =? chr "$") && match re1 with [] => true | _ => false end
        then match text with [] => true | _ => false end
        else
          match text with
          | x :: text' => if (c =? chr ".") || (c =? x) then matchhere re1 text' else false
          | [] => false
          end in
      match re1 with
      | y :: re2 => if y =? chr "*" then matchstar (matchhere re2) c text else rest
      | [] => rest
      end
  end.
(** The loop of [match], for a pattern without [^]. *)
Fixpoint match_loop (re text : list Z) : bool :=
  matchhere re text || match text with [] => false | _ :: text' => match_loop re text' end.
Definition match_ (re text : list Z) : bool :=
  match re with
  | c :: re' => if c =? chr "^" then matchhere re' text else match_loop re text
  | [] => match_loop re text
  end.

(** ** The program *)

Definition BUFSZ : Z := 1024.

Section grep.
Context {W : Type} `{UserOS W}.

(** The inner loop: the lines of [p], the filled part of the buffer that is not yet
    handled; the result is what is left. *)
Fixpoint grep_lines (fuel : nat) (pattern p : list Z) : prog W (list Z) :=
  match fuel with
  | O => λ _, Hang
  | S f =>
      match strchr p 10 with
      | Some q =>
          pwhen (match_ pattern (take q p)) (call (u_write 1 (take (S q) p));; mret tt);;
          grep_lines f pattern (drop (S q) p)
      | None => mret p
      end
  end.
(** The outer loop: [buf] holds the [m] bytes read and not yet handled. *)
Fixpoint grep_loop (fuel : nat) (pattern : list Z) (fd : Z) (buf : list Z) : prog W unit :=
  match fuel with
  | O => λ _, Hang
  | S f =>
      r ← call (u_read fd (BUFSZ - zlen buf - 1));
      let '(n, data) := r in
      if 0 <? n then
        let buf := buf ++ data in
        p ← grep_lines (S (length buf)) pattern buf;
        grep_loop f pattern fd p
      else mret tt
  end.
Definition grep (fuel : nat) (pattern : list Z) (fd : Z) : prog W unit := grep_loop fuel pattern fd [].

Definition grep_main (fuel : nat) (argv : list (list Z)) : prog W unit :=
  match argv with
  | _ :: pattern :: files =>
      match files with
      | [] => grep fuel pattern 0;; uexit 0
      | _ =>
          pfor files (λ name,
            fd ← call (u_open name 0);
            pwhen (fd <? 0) (uprintf (bytes_of_string "grep: cannot open %s" ++ [10]) [UStr (Some name)];; uexit 1);;
            grep fuel pattern fd;;
            call (u_close fd);;
            mret tt);;
          uexit 0
      end
  | _ => ufprintf 2 (bytes_of_string "usage: grep pattern [file ...]" ++ [10]) [];; uexit 1
  end.
End grep.

(** ** Regular expressions *)

(** A pattern without its [^]: characters, some of them starred, and perhaps a [$]. *)
Inductive item := One (c : Z) | Many (c : Z).
Fixpoint re_items (re : list Z) : list item * bool :=
  match re with
  | [] => ([], false)
  | c :: re1 =>
      let rest := if (c =? chr "$") && bool_decide (re1 = []) then ([], true)
                  else let '(its, e) := re_items re1 in (One c :: its, e) in
      match re1 with
      | y :: re2 => if y =? chr "*" then let '(its, e) := re_items re2 in (Many c :: its, e) else rest
      | [] => rest
      end
  end.

(** The language of a list of items: the concatenation of the languages of its members. *)
Definition fits (c x : Z) : Prop := c = chr "." ∨ c = x.
Inductive in_lang : list item → list Z → Prop :=
  | lang_nil : in_lang [] []
  | lang_one c x its w : fits c x → in_lang its w → in_lang (One c :: its) (x :: w)
  | lang_many c v its w : Forall (fits c) v → in_lang its w → in_lang (Many c :: its) (v ++ w).

(** A pattern selects a text that contains a word of its language, at the start for
    [^] and at the end for [$]. *)
Definition selects (re text : list Z) : Prop :=
  let anchored := bool_decide (head re = Some (chr "^")) in
  let '(its, at_end) := re_items (if anchored then tail re else re) in
  ∃ pre w post, text = pre ++ w ++ post ∧ in_lang its w ∧
    (anchored = true → pre = []) ∧ (at_end = true → post = []).

(** ** The matcher decides the language *)

Lemma fits_dec c x : (x =? c) || (c =? chr ".") = true ↔ fits c x.
Proof. unfold fits. rewrite orb_true_iff, !Z.eqb_eq. naive_solver. Qed.

Lemma matchstar_true mh c text :
  matchstar mh c text = true ↔ ∃ v rest, text = v ++ rest ∧ Forall (fits c) v ∧ mh rest = true.
Proof.
  induction text as [|x text IH]; cbn [matchstar]; rewrite orb_true_iff.
  - split.
    + intros [H|H]; [|done]. by exists [], [].
    + intros (v & rest & E & _ & H). symmetry in E. apply app_nil in E as [-> ->]. by left.
  - split.
    + intros [H|H]; [by exists [], (x :: text)|].
      destruct ((x =? c) || (c =? chr ".")) eqn:Ef; [|done]. apply fits_dec in Ef.
      apply IH in H as (v & rest & -> & Hv & Hr). exists (x :: v), rest. split_and!; [done|by constructor|done].
    + intros (v & rest & E & Hv & Hr). destruct v as [|y v]; cbn in E.
      * subst rest. by left.
      * injection E as -> ->. inversion Hv as [|? ? Hy Hv']; subst. right.
        rewrite (proj2 (fits_dec c y) Hy). apply IH. by exists v, rest.
Qed.

(** [re_items] says what a prefix of the text must look like. *)
Definition here (re text : list Z) : Prop :=
  ∃ w post, text = w ++ post ∧ in_lang (re_items re).1 w ∧ ((re_items re).2 = true → post = []).

Lemma here_nil text : here [] text.
Proof. exists [], text. split_and!; [done|constructor|done]. Qed.

Lemma here_many c re text :
  here (c :: chr "*" :: re) text ↔ ∃ v rest, text = v ++ rest ∧ Forall (fits c) v ∧ here re rest.
Proof.
  unfold here. cbn [re_items]. change (chr "*" =? chr "*") with true. cbn match.
  destruct (re_items re) as [its e]. cbn [fst snd]. split.
  - intros (w & post & -> & Hw & He). inversion Hw as [| |? v ? w' Hv Hw']; subst.
    exists v, (w' ++ post). split_and!; [by rewrite app_assoc|done|by exists w', post].
  - intros (v & rest & -> & Hv & w & post & -> & Hw & He).
    exists (v ++ w), post. split_and!; [by rewrite app_assoc|by constructor|done].
Qed.

Lemma here_end text : here [chr "$"] text ↔ text = [].
Proof.
  unfold here. cbn [re_items]. change (chr "$" =? chr "$") with true.
  rewrite bool_decide_true by done. cbn [andb fst snd]. split.
  - intros (w & post & -> & Hw & He). inversion Hw; subst. by rewrite He.
  - intros ->. exists [], []. split_and!; [done|constructor|done].
Qed.

Lemma here_one c re text :
  head re ≠ Some (chr "*") → ¬ (c = chr "$" ∧ re = []) →
  here (c :: re) text ↔ ∃ x text', text = x :: text' ∧ fits c x ∧ here re text'.
Proof.
  intros Hs He.
  assert (re_items (c :: re) = (One c :: (re_items re).1, (re_items re).2)) as E.
  { cbn [re_items].
    assert ((c =? chr "$") && bool_decide (re = []) = false) as ->.
    { rewrite andb_false_iff, Z.eqb_neq, bool_decide_eq_false.
      destruct (decide (c = chr "$")); [right|by left]. naive_solver. }
    destruct re as [|y re2].
    - done.
    - rewrite (proj2 (Z.eqb_neq y (chr "*"))) by (intros ->; by apply Hs). by destruct (re_items (y :: re2)). }
  unfold here. rewrite E. cbn [fst snd]. split.
  - intros (w & post & -> & Hw & Hend). inversion Hw as [|? x ? w' Hx Hw'|]; subst.
    exists x, (w' ++ post). split_and!; [done..|by exists w', post].
  - intros (x & text' & -> & Hx & w & post & -> & Hw & Hend).
    exists (x :: w), post. split_and!; [done|by constructor|done].
Qed.

Lemma matchhere_true n re text : (length re ≤ n)%nat → matchhere re text = true ↔ here re text.
Proof.
  revert re text. induction n as [|n IH]; intros re text Hn.
  - destruct re; [|cbn in Hn; lia]. split; [intros _; apply here_nil|done].
  - destruct re as [|c re1]; [split; [intros _; apply here_nil|done]|]. cbn [length] in Hn.
    destruct (decide (head re1 = Some (chr "*"))) as [Hs|Hs].
    + destruct re1 as [|y re2]; [done|]. injection Hs as ->. cbn [length] in Hn. rewrite here_many.
      cbn [matchhere]. change (chr "*" =? chr "*") with true. cbn match. rewrite matchstar_true.
      setoid_rewrite IH; [|lia]. done.
    + assert (∀ b : bool, match re1 with
                | y :: re2 => if y =? chr "*" then matchstar (matchhere re2) c text else b
                | [] => b end = b) as Hrest.
      { intros b. destruct re1 as [|y re2]; [done|].
        rewrite (proj2 (Z.eqb_neq y (chr "*"))) by (intros ->; by apply Hs). done. }
      cbn [matchhere]. cbv zeta. rewrite Hrest.
      destruct (decide (c = chr "$" ∧ re1 = [])) as [[-> ->]|He].
      * rewrite here_end. cbn. destruct text; naive_solver.
      * assert ((c =? chr "$") && match re1 with [] => true | _ => false end = false) as ->.
        { rewrite andb_false_iff, Z.eqb_neq. destruct (decide (c = chr "$")); [right|by left]. destruct re1; naive_solver. }
        rewrite here_one by done. destruct text as [|x text'].
        -- split; [done|]. by intros (x & t & ? & _).
        -- rewrite orb_comm, (Z.eqb_sym c x). split.
           ++ destruct ((x =? c) || (c =? chr ".")) eqn:Ef; [|done]. intros H. apply fits_dec in Ef.
              exists x, text'. split_and!; [done..|]. apply IH; [lia|done].
           ++ intros (x' & t' & [= <- <-] & Hf & Hh). rewrite (proj2 (fits_dec c x) Hf). apply IH; [lia|done].
Qed.

Lemma match_loop_true re text :
  match_loop re text = true ↔ ∃ pre rest, text = pre ++ rest ∧ here re rest.
Proof.
  induction text as [|x text IH]; cbn [match_loop]; rewrite orb_true_iff, (matchhere_true (length re)) by done.
  - split.
    + intros [H|H]; [by exists [], []|done].
    + intros (pre & rest & E & H). symmetry in E. apply app_nil in E as [-> ->]. by left.
  - rewrite IH. split.
    + intros [H|(pre & rest & -> & H)]; [by exists [], (x :: text)|by exists (x :: pre), rest].
    + intros (pre & rest & E & H). destruct pre as [|y pre]; cbn in E; [subst; by left|].
      injection E as -> ->. right. by exists pre, rest.
Qed.

Lemma match_selects re text : match_ re text = true ↔ selects re text.
Proof.
  unfold selects.
  assert (match_ re text = true ↔
    if bool_decide (head re = Some (chr "^")) then here (tail re) text
    else ∃ pre rest, text = pre ++ rest ∧ here re rest) as ->.
  { destruct re as [|c re']; cbn [match_ head tail].
    - rewrite bool_decide_false by done. apply match_loop_true.
    - destruct (Z.eqb_spec c (chr "^")) as [->|Hc].
      + rewrite bool_decide_true by done. by apply (matchhere_true (length re')).
      + rewrite bool_decide_false by naive_solver. apply match_loop_true. }
  unfold here. case_bool_decide.
  - destruct (re_items (tail re)) as [its e]. cbn [fst snd]. split.
    + intros (w & post & -> & Hw & He). by exists [], w, post.
    + intros (pre & w & post & -> & Hw & Hp & He). exists w, post. by rewrite Hp.
  - destruct (re_items re) as [its e]. cbn [fst snd]. split.
    + intros (pre & rest & -> & w & post & -> & Hw & He). by exists pre, w, post.
    + intros (pre & w & post & -> & Hw & _ & He). exists pre, (w ++ post). split; [done|]. by exists w, post.
Qed.

#[global] Instance selects_dec re text : Decision (selects re text).
Proof.
  refine (match match_ re text as b return match_ re text = b → _ with
          | true => λ E, left _ | false => λ E, right _ end eq_refl).
  - by apply match_selects.
  - intros Hs. apply match_selects in Hs. congruence.
Defined.

(** ** Lines *)

Definition with_newline (l : list Z) : list Z := l ++ [10].
Definition text_of (ls : list (list Z)) (tl : list Z) : list Z := concat (with_newline <$> ls) ++ tl.
(** No newline and no NUL, and short enough for the buffer. *)
Definition line_ok (l : list Z) : Prop := 10 ∉ l ∧ 0 ∉ l ∧ zlen l < BUFSZ - 1.

#[global] Instance line_ok_dec l : Decision (line_ok l).
Proof. unfold line_ok. apply _. Defined.

Lemma text_of_cons l ls tl : text_of (l :: ls) tl = l ++ 10 :: text_of ls tl.
Proof. unfold text_of, with_newline. cbn. by rewrite <- !app_assoc. Qed.

Lemma strchr_Some s c q :
  strchr s c = Some q → s = take q s ++ c :: drop (S q) s ∧ c ∉ take q s.
Proof.
  revert q. induction s as [|x s IH]; intros q; cbn [strchr]; [done|].
  destruct (x =? 0); [done|]. destruct (Z.eqb_spec x c) as [->|Hx].
  - intros [= <-]. cbn. split; [done|]. apply not_elem_of_nil.
  - intros (q' & Hq & ->)%fmap_Some. destruct (IH q' Hq) as [E Hn].
    cbn [take drop app]. split; [by f_equal|]. rewrite not_elem_of_cons. by split.
Qed.

Lemma strchr_None s c : 0 ∉ s → strchr s c = None → c ∉ s.
Proof.
  induction s as [|x s IH]; cbn [strchr]; intros H0 H; [apply not_elem_of_nil|].
  rewrite not_elem_of_cons in H0. destruct H0 as [Hx H0].
  rewrite (proj2 (Z.eqb_neq x 0)) in H by done. destruct (Z.eqb_spec x c) as [|Hc]; [done|].
  apply fmap_None in H. rewrite not_elem_of_cons. split; [done|by apply IH].
Qed.

(** The first newline cuts a list in one way. *)
Lemma cut_unique (c : Z) a b a' b' : c ∉ a → c ∉ a' → a ++ c :: b = a' ++ c :: b' → a = a' ∧ b = b'.
Proof.
  revert a'. induction a as [|x a IH]; intros [|x' a'] Ha Ha' E; cbn in E.
  - by injection E as ->.
  - injection E as -> _. rewrite not_elem_of_cons in Ha'. naive_solver.
  - injection E as -> _. rewrite not_elem_of_cons in Ha. naive_solver.
  - injection E as -> E. rewrite not_elem_of_cons in Ha, Ha'.
    destruct (IH a') as [-> ->]; naive_solver.
Qed.

Lemma text_of_line a b ls tl :
  Forall line_ok ls → line_ok tl → 10 ∉ a → a ++ 10 :: b = text_of ls tl →
  ∃ ls', ls = a :: ls' ∧ b = text_of ls' tl.
Proof.
  intros Hls Htl Ha E. destruct ls as [|l ls].
  - exfalso. apply (proj1 Htl). unfold text_of in E. cbn in E. rewrite <- E. rewrite elem_of_app, elem_of_cons. right. by left.
  - rewrite text_of_cons in E. inversion Hls as [|? ? Hl _]; subst.
    destruct (cut_unique 10 a b l (text_of ls tl)) as [-> ->]; [done|apply Hl|done|]. by exists ls.
Qed.

(** What is left in the buffer is part of one line. *)
Lemma text_of_part a b ls tl :
  Forall line_ok ls → line_ok tl → 10 ∉ a → a ++ b = text_of ls tl → zlen a < BUFSZ - 1.
Proof.
  intros Hls Htl Ha E. destruct ls as [|l ls].
  - unfold text_of in E. cbn in E. destruct Htl as (_ & _ & Hlen). rewrite <- E in Hlen.
    unfold zlen in *. rewrite length_app in Hlen. lia.
  - rewrite text_of_cons in E. inversion Hls as [|? ? (_ & _ & Hl) _]; subst.
    destruct (decide (length a ≤ length l)%nat); [unfold zlen in *; lia|]. exfalso. apply Ha.
    assert ((a ++ b) !! length l = Some 10) as Hlk by (rewrite E; by apply list_lookup_middle).
    rewrite lookup_app_l in Hlk by lia. by apply list_elem_of_lookup_2 in Hlk.
Qed.

Lemma text_of_nul ls tl : Forall line_ok ls → line_ok tl → 0 ∉ text_of ls tl.
Proof.
  intros Hls (_ & Htl & _). induction Hls as [|l ls (_ & Hl & _) Hls IH]; [done|].
  rewrite text_of_cons, elem_of_app, elem_of_cons. intros [H|[H|H]]; [by apply Hl|done|by apply IH].
Qed.

(** ** The loops *)

Section loops.
Context {W : Type} `{UserLaws W} (pattern tl : list Z) (Htl : line_ok tl).

Definition selected (ls : list (list Z)) : list Z := concat (with_newline <$> filter (selects pattern) ls).

Lemma selected_cons l ls :
  selected (l :: ls) = (if match_ pattern l then l ++ [10] else []) ++ selected ls.
Proof.
  unfold selected. rewrite filter_cons. destruct (match_ pattern l) eqn:E.
  - rewrite decide_True by (by apply match_selects). done.
  - rewrite decide_False; [done|]. intros Hs. apply match_selects in Hs. congruence.
Qed.

Lemma grep_lines_ok f p ls rest fd input out w (X : Z → W → Prop) :
  Forall line_ok ls → p ++ rest = text_of ls tl → (length p < f)%nat → sees fd input out w →
  pwp (grep_lines f pattern p) (λ p' w', ∃ ls1 ls2,
    ls = ls1 ++ ls2 ∧ p' ++ rest = text_of ls2 tl ∧ 10 ∉ p' ∧
    sees fd input (append_to 1 (selected ls1) out) w') X w.
Proof.
  revert p ls out w. induction f as [|f IH]; intros p ls out w Hls E Hf Hw; [lia|].
  cbn [grep_lines]. destruct (strchr p 10) as [q|] eqn:Eq.
  - destruct (strchr_Some _ _ _ Eq) as [Ep Hq]. rewrite Ep, <- app_assoc in E. cbn [app] in E.
    destruct (text_of_line _ _ _ _ Hls Htl Hq E) as (ls' & -> & E'). inversion Hls as [|? ? Hl Hls']; subst.
    assert (take (S q) p = take q p ++ [10]) as Et.
    { assert (length (take q p) = q) as Hlq.
      { rewrite length_take. apply (f_equal length) in Ep. rewrite length_app, length_take, length_cons, length_drop in Ep. lia. }
      rewrite Ep at 1. rewrite take_app_ge by lia. rewrite Hlq. replace (S q - q)%nat with 1%nat by lia. done. }
    apply pwp_bind. eapply (pwp_mono _ (λ _ w', sees fd input (append_to 1 (if match_ pattern (take q p) then take q p ++ [10] else []) out) w')).
    { rewrite Et. destruct (match_ pattern (take q p)); cbn [pwhen].
      - apply pwp_bind, pwp_call. eapply wp_mono; [eapply law_write; [exact Hw|by left]|].
        intros r w' [_ Hw']. by apply pwp_ret.
      - apply pwp_ret. eapply law_out; [|exact Hw]. intros. by rewrite append_to_nil. }
    intros _ w' Hw'. eapply pwp_mono.
    { eapply IH; [exact Hls'|exact E'| |exact Hw']. rewrite length_drop. destruct p; [done|]. cbn [length] in *. lia. }
    intros p' w'' (ls1 & ls2 & -> & E2 & Hp' & Hw''). exists (take q p :: ls1), ls2. split_and!; [done..|].
    rewrite selected_cons. eapply law_out; [|exact Hw'']. intros. apply append_to_app.
  - apply pwp_ret. exists [], ls. split_and!; [done..| |].
    + apply strchr_None; [|done]. pose proof (text_of_nul ls tl Hls Htl) as Hnul. rewrite <- E, elem_of_app in Hnul. tauto.
    + eapply law_out; [|exact Hw]. intros. unfold selected. cbn. by rewrite append_to_nil.
Qed.

Lemma grep_loop_ok f buf ls fd input out w (X : Z → W → Prop) :
  Forall line_ok ls → buf ++ input = text_of ls tl → 10 ∉ buf → (length input < f)%nat → sees fd input out w →
  pwp (grep_loop f pattern fd buf) (λ _ w', sees fd [] (append_to 1 (selected ls) out) w') X w.
Proof.
  revert buf ls input out w. induction f as [|f IH]; intros buf ls input out w Hls E Hb Hf Hw; [lia|].
  cbn [grep_loop]. pose proof (text_of_part _ _ _ _ Hls Htl Hb E) as Hlen.
  apply pwp_bind, pwp_call. eapply wp_mono; [eapply law_read; [exact Hw|lia]|].
  intros r w' (data & rest & -> & -> & _ & Hend & Hw'). cbn beta iota.
  destruct (Z.ltb_spec 0 (zlen data)) as [Hd|Hd].
  - apply pwp_bind. eapply pwp_mono.
    { eapply (grep_lines_ok _ _ ls rest); [exact Hls| |apply Nat.lt_succ_diag_r|exact Hw']. by rewrite <- app_assoc. }
    intros p' w'' (ls1 & ls2 & -> & E2 & Hp' & Hw''). apply Forall_app in Hls as [_ Hls2].
    eapply pwp_mono.
    { eapply IH; [exact Hls2|exact E2|exact Hp'| |exact Hw'']. unfold zlen in Hd. rewrite length_app in Hf. lia. }
    cbn beta. intros a w3 Hw3. eapply law_out; [|exact Hw3]. intros o'. rewrite append_to_app. f_equal.
    unfold selected. by rewrite filter_app, fmap_app, concat_app.
  - assert (data = []) as -> by (destruct data; [done|unfold zlen in Hd; cbn [length] in Hd; lia]).
    pose proof (Hend eq_refl) as Hr. cbn in Hr. subst rest. rewrite !app_nil_r in *. apply pwp_ret.
    destruct ls as [|l ls].
    + eapply law_out; [|exact Hw']. intros. unfold selected. cbn. by rewrite append_to_nil.
    + exfalso. apply Hb. rewrite E, text_of_cons, elem_of_app, elem_of_cons. right. by left.
Qed.
End loops.

(** ** Properties *)

(** C36. [match] decides the regular expressions of grep: it returns 1 exactly when the
    text contains a word of the language that the pattern spells out, at the start of
    the text for a pattern with ^ and at its end for one with $. *)
Theorem grep_match_correct re text : match_ re text = true ↔ selects re text.
Proof. apply match_selects. Qed.

(** C35. For a text of lines that fit the buffer, [grep] returns and writes to descriptor
    1 exactly the lines that the pattern selects, in order and with their newlines,
    however the reads cut the input; a last line without a newline is not looked at. *)
Theorem grep_correct {W} `{UserLaws W} fuel pattern fd ls tl out w :
  Forall line_ok ls → line_ok tl → (length (text_of ls tl) < fuel)%nat → sees fd (text_of ls tl) out w →
  ∃ w', grep fuel pattern fd w = Ret (inl tt) w' ∧
    sees fd [] (append_to 1 (concat (with_newline <$> filter (selects pattern) ls)) out) w'.
Proof.
  intros Hls Htl Hf Hw.
  pose proof (grep_loop_ok pattern tl Htl fuel [] ls fd _ out w (λ _ _, False) Hls eq_refl (not_elem_of_nil 10) Hf Hw) as Hg.
  apply wp_elim in Hg as ([[]|st] & w' & Hrun & Hsees); [|done]. by exists w'.
Qed.

Lemma grep_correct_witness :
  ∃ w', @grep stream stream_os 20 (bytes_of_string "^a.*c$") 0
      (Stream (text_of (bytes_of_string <$> ["abc"; "bc"; "ac"]%string) (bytes_of_string "acc")) [2; 3; 1; 100]%nat []) =
    Ret (inl tt) w' ∧ stream_out w' 1 = bytes_of_string "abc" ++ [10] ++ bytes_of_string "ac" ++ [10].
Proof.
  destruct (@grep_correct stream stream_os stream_laws 20 (bytes_of_string "^a.*c$") 0
    (bytes_of_string <$> ["abc"; "bc"; "ac"]%string) (bytes_of_string "acc") (λ _, [])
    (Stream (text_of (bytes_of_string <$> ["abc"; "bc"; "ac"]%string) (bytes_of_string "acc")) [2; 3; 1; 100]%nat []))
    as (w' & Hrun & Hin & Hout).
  - by apply (bool_decide_eq_true_1 (Forall line_ok _)).
  - by apply (bool_decide_eq_true_1 (line_ok _)).
  - apply Nat.ltb_lt. vm_compute. reflexivity.
  - by split.
  - exists w'. split; [exact Hrun|]. rewrite <- Hout. vm_compute. reflexivity.
Defined.
