(* ===== verification/ProcTree.v ===== *)
(** * Programs that fork

    A program that forks is a tree of system calls: the tree goes on with the result of
    the call, and after a fork both processes go on. Here are the programs user/init.c,
    user/trace.c and user/zombie.c; the shell is in [ShRun]. *)

From S2P Require Import Prelude Machine State KString User.

Inductive ptree :=
  | PExit (st : Z)
  | PClose (fd : Z) (k : Z → ptree)
  | POpen (path : list Z) (mode : Z) (k : Z → ptree)
  | PDup (fd : Z) (k : Z → ptree)
  | PPipe (k : option (Z * Z) → ptree)         (** the two descriptors *)
  | PFork (k : Z → ptree)                      (** in the child with 0 *)
  | PWait (k : Z → ptree)
  | PExec (path : list Z) (argv : list (list Z)) (k : Z → ptree)
  | PRead (k : option Z → ptree)               (** one byte from descriptor 0 *)
  | PPrint (fd : Z) (text : list Z) (k : ptree)
  | PChdir (path : list Z) (k : Z → ptree)
  | PMknod (path : list Z) (major minor : Z) (k : Z → ptree)
  | PSleep (n : Z) (k : Z → ptree)
  | PTrace (mask : Z) (k : Z → ptree)
  | PHang.

Definition U_RDWR : Z := 0x002.
Definition U_CONSOLE : Z := 1.

(** ** user/init.c *)

(** The inner loop: wait until the shell with this pid exits. *)
Fixpoint init_wait (fuel : nat) (pid : Z) (k : ptree) : ptree :=
  match fuel with
  | O => PHang
  | S f =>
      PWait (λ wpid,
        if wpid =? pid then k
        else if wpid <? 0 then PPrint 1 (bytes_of_string "init: wait returned an error" ++ [10]) (PExit 1)
        else init_wait f pid k)
  end.
(** The outer loop; [fuel] bounds the shells started and the waits for each. *)
Fixpoint init_loop (fuel waits : nat) : ptree :=
  match fuel with
  | O => PHang
  | S f =>
      PPrint 1 (bytes_of_string "init: starting sh" ++ [10]) (PFork (λ pid,
        if pid <? 0 then PPrint 1 (bytes_of_string "init: fork failed" ++ [10]) (PExit 1)
        else if pid =? 0 then
          PExec (bytes_of_string "sh") [bytes_of_string "sh"] (λ _,
            PPrint 1 (bytes_of_string "init: exec sh failed" ++ [10]) (PExit 1))
        else init_wait waits pid (init_loop f waits)))
  end.
Definition init_main (fuel waits : nat) : ptree :=
  let rest := PDup 0 (λ _, PDup 0 (λ _, init_loop fuel waits)) in
  POpen (bytes_of_string "console") U_RDWR (λ fd,
    if fd <? 0 then
      PMknod (bytes_of_string "console") U_CONSOLE 0 (λ _,
        POpen (bytes_of_string "console") U_RDWR (λ _, rest))
    else rest).

(** ** user/trace.c and user/zombie.c *)

Definition trace_main (argv : list (list Z)) : ptree :=
  match argv with
  | _ :: mask :: ((cmd :: _) as nargv) =>
      PTrace (atoi mask) (λ _,
        PFork (λ pid,
          if pid =? 0 then PExec cmd nargv (λ _, PExit 1)
          else PWait (λ _, PExit 0)))
  | _ => PPrint 2 (bytes_of_string "Usage: trace [syscall_mask] [command]" ++ [10]) (PExit 1)
  end.

Definition zombie_main : ptree :=
  PFork (λ pid, if 0 <? pid then PSleep 5 (λ _, PExit 0) else PExit 0).
