(* ===== verification/Sh.v ===== *)
(** * The shell's parser: user/sh.c

    The parser works on a line [s] in a buffer (the bytes before the NUL); the pointers
    into it are indices, and [es] is the index of the NUL. Commands hold pointers to the
    start and the end of each word; [nulterminate] then makes them C strings. *)

From S2P Require Import Prelude Machine State KString User.

(** ** Commands *)

Inductive cmd :=
  | ExecCmd (args : list (nat * nat))                 (** argv and eargv *)
  | RedirCmd (c : cmd) (file efile : nat) (mode fd : Z)
  | PipeCmd (left right : cmd)
  | ListCmd (left right : cmd)
  | BackCmd (c : cmd).

Definition MAXARGS : Z := 10.
Definition U_RDONLY : Z := 0x000.
Definition U_WRONLY : Z := 0x001.
Definition U_CREATE : Z := 0x200.
Definition U_TRUNC : Z := 0x400.

(** ** The monad of the parser: [*ps] is the state; [PDie out] is an exit with status 1
    after writing [out] to descriptor 2. *)

Inductive presult (A : Type) := POk (a : A) (ps : nat) | PDie (out : list Z) | PFuel.
Arguments POk {A} a ps.
Arguments PDie {A} out.
Arguments PFuel {A}.

Definition P (A : Type) : Type := nat → presult A.
Global Instance P_ret : MRet P := λ A a ps, POk a ps.
Global Instance P_bind : MBind P := λ A B f m ps,
  match m ps with
  | POk a ps' => f a ps'
  | PDie out => PDie out
  | PFuel => PFuel
  end.
Definition sh_panic {A} (msg : string) : P A := λ _, PDie (bytes_of_string msg ++ [10]).

(** ** Tokens *)

Definition whitespace : list Z := [32; 9; 13; 10; 11].
Definition symbols : list Z := bytes_of_string "<|>&;()".
Definition in_chars (cs : list Z) (c : Z) : bool := bool_decide (is_Some (strchr cs c)).

(** The length of the longest prefix of [l] whose bytes satisfy [f]. *)
Fixpoint run_of (f : Z → bool) (l : list Z) : nat :=
  match l with
  | c :: l' => if f c then S (run_of f l') else O
  | [] => O
  end.

Section parser.
Context (s : list Z).

Definition at_ (p : nat) : Z := nth p s 0.
Definition skip_while (f : Z → bool) (p : nat) : nat := (p + run_of f (drop p s))%nat.
Definition skip_ws : nat → nat := skip_while (in_chars whitespace).
Definition word_char (c : Z) : bool := negb (in_chars whitespace c) && negb (in_chars symbols c).

(** The token, and where it starts and ends. *)
Definition gettoken : P (Z * nat * nat) := λ ps,
  let q := skip_ws ps in
  let c := at_ q in
  let '(ret, eq) :=
    if c =? 0 then (0, q)
    else if in_chars (bytes_of_string "|();&<") c then (c, S q)
    else if c =? chr ">" then
      if at_ (S q) =? chr ">" then (chr "+", S (S q)) else (c, S q)
    else (chr "a", skip_while word_char q) in
  POk (ret, q, eq) (skip_ws eq).

Definition peek (toks : list Z) : P bool := λ ps,
  let p := skip_ws ps in
  POk (negb (at_ p =? 0) && in_chars toks (at_ p)) p.

(** ** Parsing *)

(** [while(peek(ps, es, "<>"))] *)
Fixpoint redirs_loop (k : nat) (c : cmd) : P cmd :=
  match k with
  | O => λ _, PFuel
  | S k' =>
      b ← peek (bytes_of_string "<>");
      if (b : bool) then
        t ← gettoken;
        let '(tok, _, _) := t in
        t ← gettoken;
        let '(tok2, q, eq) := t in
        if negb (tok2 =? chr "a") then sh_panic "missing file for redirection"
        else
          let c :=
            if tok =? chr "<" then RedirCmd c q eq U_RDONLY 0
            else if tok =? chr ">" then RedirCmd c q eq (Z.lor (Z.lor U_WRONLY U_CREATE) U_TRUNC) 1
            else if tok =? chr "+" then RedirCmd c q eq (Z.lor U_WRONLY U_CREATE) 1
            else c in
          redirs_loop k' c
      else mret c
  end.
Definition parseredirs (c : cmd) : P cmd := redirs_loop (S (length s)) c.

(** [cmd->argv[argc] = q; cmd->eargv[argc] = eq]: the exec command is inside the
    redirections that were parsed before. *)
Fixpoint add_arg (c : cmd) (a : nat * nat) : cmd :=
  match c with
  | ExecCmd args => ExecCmd (args ++ [a])
  | RedirCmd c' q eq mode fd => RedirCmd (add_arg c' a) q eq mode fd
  | _ => c
  end.

(** [while(!peek(ps, es, "|)&;"))] of [parseexec] *)
Fixpoint args_loop (k : nat) (argc : Z) (ret : cmd) : P cmd :=
  match k with
  | O => λ _, PFuel
  | S k' =>
      b ← peek (bytes_of_string "|)&;");
      if (b : bool) then mret ret
      else
        t ← gettoken;
        let '(tok, q, eq) := t in
        if tok =? 0 then mret ret
        else if negb (tok =? chr "a") then sh_panic "syntax"
        else
          let ret := add_arg ret (q, eq) in
          let argc := argc + 1 in
          if MAXARGS <=? argc then sh_panic "too many args"
          else
            ret ← parseredirs ret;
            args_loop k' argc ret
  end.

(** [while(peek(ps, es, "&"))] of [parseline] *)
Fixpoint back_loop (k : nat) (c : cmd) : P cmd :=
  match k with
  | O => λ _, PFuel
  | S k' =>
      b ← peek (bytes_of_string "&");
      if (b : bool) then gettoken;; back_loop k' (BackCmd c) else mret c
  end.

Fixpoint parseline (f : nat) : P cmd :=
  match f with
  | O => λ _, PFuel
  | S f' =>
      c ← parsepipe f';
      c ← back_loop (S (length s)) c;
      b ← peek (bytes_of_string ";");
      if (b : bool) then gettoken;; r ← parseline f'; mret (ListCmd c r) else mret c
  end
with parsepipe (f : nat) : P cmd :=
  match f with
  | O => λ _, PFuel
  | S f' =>
      c ← parseexec f';
      b ← peek (bytes_of_string "|");
      if (b : bool) then gettoken;; r ← parsepipe f'; mret (PipeCmd c r) else mret c
  end
with parseexec (f : nat) : P cmd :=
  match f with
  | O => λ _, PFuel
  | S f' =>
      b ← peek (bytes_of_string "(");
      if (b : bool) then parseblock f'
      else
        ret ← parseredirs (ExecCmd []);
        args_loop (S (length s)) 0 ret
  end
with parseblock (f : nat) : P cmd :=
  match f with
  | O => λ _, PFuel
  | S f' =>
      b ← peek (bytes_of_string "(");
      if negb b then sh_panic "parseblock"
      else
        gettoken;;
        c ← parseline f';
        b ← peek (bytes_of_string ")");
        if negb b then sh_panic "syntax - missing )"
        else gettoken;; parseredirs c
  end.

(** [if(s != es) ...] *)
Definition check_end (c : cmd) : P cmd := λ p,
  if negb (p =? length s)%nat
  then PDie (bytes_of_string "leftovers: " ++ drop p s ++ [10] ++ bytes_of_string "syntax" ++ [10])
  else POk c p.

(** [parsecmd] before [nulterminate]; each round of the mutual recursion takes a byte
    in at most five calls. *)
Definition parse_text : P cmd :=
  c ← parseline (5 * length s + 5);
  peek [];;
  check_end c.
End parser.

(** [buf] is the memory of the line, with its NUL. *)
Fixpoint nulterminate (c : cmd) (buf : list Z) : list Z :=
  match c with
  | ExecCmd args => foldl (λ b a, <[a.2 := 0]> b) buf args
  | RedirCmd c' _ efile _ _ => <[efile := 0]> (nulterminate c' buf)
  | PipeCmd l r | ListCmd l r => nulterminate r (nulterminate l buf)
  | BackCmd c' => nulterminate c' buf
  end.

(** The command and the buffer its pointers point into. *)
Definition parsecmd (s : list Z) : presult (cmd * list Z) :=
  match parse_text s O with
  | POk c p => POk (c, nulterminate c (s ++ [0])) p
  | PDie out => PDie out
  | PFuel => PFuel
  end.
