(* ===== verification/ShParse.v ===== *)
(** * What the shell's parser computes: proofs about user/sh.c

    For any line the parser returns or reports an error, and the words of the command
    it returns are C strings with the text of the words of the line. Every command can
    be written as a line that the parser turns back into the command. *)

From S2P Require Import Prelude Machine State KString User Sh.

(** ** Triples: [m] does not run out of fuel, and [Q] holds of what it returns *)

Definition pp {A} (m : P A) (Q : A → nat → Prop) (p : nat) : Prop :=
  match m p with
  | POk a p' => Q a p'
  | PDie _ => True
  | PFuel => False
  end.

Lemma pp_bind {A B} (m : P A) (f : A → P B) Q p :
  pp m (λ a p', pp (f a) Q p') p → pp (m ≫= f) Q p.
Proof. unfold pp, mbind, P_bind. by destruct (m p). Qed.

Lemma pp_mono {A} (m : P A) (Q Q' : A → nat → Prop) p :
  pp m Q p → (∀ a p', Q a p' → Q' a p') → pp m Q' p.
Proof. unfold pp. destruct (m p); naive_solver. Qed.

Lemma pp_ret {A} (a : A) (Q : A → nat → Prop) p : Q a p → pp (mret a) Q p.
Proof. done. Qed.

Lemma pp_panic {A} msg (Q : A → nat → Prop) p : pp (sh_panic msg) Q p.
Proof. done. Qed.

(** ** Character classes and runs *)

Lemma in_chars_elem cs c : 0 ∉ cs → in_chars cs c = true ↔ c ∈ cs.
Proof.
  intros H0. unfold in_chars. rewrite bool_decide_eq_true.
  induction cs as [|x cs IH]; cbn [strchr].
  - split; [by intros [? ?]|]. intros H. by apply elem_of_nil in H.
  - rewrite not_elem_of_cons in H0. destruct H0 as [Hx H0].
    rewrite (proj2 (Z.eqb_neq x 0)) by done. rewrite elem_of_cons.
    destruct (Z.eqb_spec x c) as [->|Hc].
    + split; [by left|]. by eexists.
    + rewrite fmap_is_Some, IH by done. naive_solver.
Qed.

Definition slice (s : list Z) (q e : nat) : list Z := take (e - q) (drop q s).

Lemma run_of_le f l : (run_of f l ≤ length l)%nat.
Proof. induction l as [|c l IH]; cbn [run_of length]; [lia|]. case_match; lia. Qed.

Lemma run_of_all f l : Forall (λ c, f c = true) (take (run_of f l) l).
Proof. induction l as [|c l IH]; cbn [run_of]; [constructor|]. destruct (f c) eqn:E; cbn [take]; constructor; done. Qed.

Lemma run_of_next f l c : l !! run_of f l = Some c → f c = false.
Proof. induction l as [|x l IH]; cbn [run_of]; [done|]. destruct (f x) eqn:E; [done|]. cbn. by intros [= <-]. Qed.

Section skip.
Context (s : list Z) (f : Z → bool).

Lemma skip_while_le p : (p ≤ length s → p ≤ skip_while s f p ≤ length s)%nat.
Proof. intros Hp. unfold skip_while. pose proof (run_of_le f (drop p s)) as H. rewrite length_drop in H. lia. Qed.

Lemma skip_while_all p : Forall (λ c, f c = true) (slice s p (skip_while s f p)).
Proof.
  unfold slice, skip_while. replace (_ + _ - p)%nat with (run_of f (drop p s)) by lia. apply run_of_all.
Qed.

Lemma skip_while_next p c : s !! skip_while s f p = Some c → f c = false.
Proof. unfold skip_while. rewrite <- lookup_drop. apply run_of_next. Qed.

Lemma skip_while_stop p : (∀ c, s !! p = Some c → f c = false) → skip_while s f p = p.
Proof.
  intros H. unfold skip_while. destruct (drop p s) as [|c l] eqn:E; cbn [run_of]; [lia|].
  rewrite H; [lia|]. rewrite <- (Nat.add_0_r p), <- lookup_drop, E. done.
Qed.

Lemma skip_while_move p c : s !! p = Some c → f c = true → (p < skip_while s f p)%nat.
Proof.
  intros Hc Hf. unfold skip_while. apply drop_S in Hc. rewrite Hc. cbn [run_of]. rewrite Hf. lia.
Qed.
End skip.

Lemma at_lookup s p : at_ s p ≠ 0 → s !! p = Some (at_ s p).
Proof.
  unfold at_. intros H. destruct (s !! p) as [c|] eqn:E.
  - by rewrite (nth_lookup_Some s p 0 c E).
  - rewrite nth_lookup, E in H. done.
Qed.

Lemma symbols_split c : in_chars symbols c = in_chars (bytes_of_string "|();&<") c || (c =? chr ">").
Proof.
  apply Bool.eq_true_iff_eq. rewrite orb_true_iff, Z.eqb_eq.
  rewrite !in_chars_elem by (by apply (bool_decide_eq_true_1 (0 ∉ _))).
  unfold symbols. cbn -[chr Z.of_nat]. change (chr ">") with 62. set_solver.
Qed.

(** ** The words of a command *)

Fixpoint words_of (c : cmd) : list (nat * nat) :=
  match c with
  | ExecCmd args => args
  | RedirCmd c' q e _ _ => words_of c' ++ [(q, e)]
  | PipeCmd l r | ListCmd l r => words_of l ++ words_of r
  | BackCmd c' => words_of c'
  end.

Section words.
Context (s : list Z).

(** From [q] to [e] there is a maximal word of the line: nothing of it is left after it or
    before it. *)
Definition word_ok (a : nat * nat) : Prop :=
  (a.1 < a.2 ≤ length s)%nat ∧ Forall (λ c, word_char c = true) (slice s a.1 a.2) ∧
  (∀ c, s !! a.2 = Some c → word_char c = false) ∧
  (∀ k c, a.1 = S k → s !! k = Some c → word_char c = false).

(** The parser is in the line and not inside of a word. *)
Definition outside (p : nat) : Prop := ∀ k c d, p = S k → s !! k = Some c → s !! p = Some d → word_char c = true → word_char d = false.
Definition pos (p : nat) : Prop := (p ≤ length s)%nat ∧ outside p.
Definition good (p : nat) (c : cmd) (p' : nat) : Prop :=
  Forall word_ok (words_of c) ∧ (p ≤ p')%nat ∧ pos p'.

Ltac poslia :=
  repeat match goal with
  | H : (_ ≤ _)%nat ∧ pos _ |- _ => destruct H
  | H : (_ < _)%nat ∧ pos _ |- _ => destruct H
  | H : pos _ |- _ => destruct H
  end; first [lia | split; [lia|first [done|split; [lia|done]]]].

Lemma white_no_word c : in_chars whitespace c = true → word_char c = false.
Proof. intros H. unfold word_char. by rewrite H. Qed.
Lemma symbol_no_word c : in_chars symbols c = true → word_char c = false.
Proof. intros H. unfold word_char. by rewrite H, andb_false_r. Qed.

Lemma skip_ws_pos p : pos p → (p ≤ skip_ws s p)%nat ∧ pos (skip_ws s p).
Proof.
  intros [Hp Ho]. pose proof (skip_while_le s (in_chars whitespace) p Hp) as Hq. fold (skip_ws s p) in Hq.
  split; [lia|]. split; [lia|]. intros k c d E Hc Hd Hw. destruct (decide (skip_ws s p = p)) as [E'|Hne].
  - rewrite E' in *. by apply (Ho k c d).
  - pose proof (skip_while_all s (in_chars whitespace) p) as Hall. rewrite Forall_lookup in Hall.
    rewrite (white_no_word c) in Hw; [done|]. apply (Hall (k - p)%nat). unfold slice. fold (skip_ws s p).
    rewrite lookup_take_lt by lia. rewrite lookup_drop. by replace (p + (k - p))%nat with k by lia.
Qed.

(** After a byte that is not in a word, or before one. *)
Lemma pos_after p c : s !! p = Some c → word_char c = false → pos (S p).
Proof.
  intros Hc Hw. pose proof (lookup_lt_Some _ _ _ Hc). split; [lia|]. intros k c' d [= <-] Hc' _ Hw'. rewrite Hc in Hc'. injection Hc' as <-. congruence.
Qed.
Lemma pos_before p : (p ≤ length s)%nat → (∀ c, s !! p = Some c → word_char c = false) → pos p.
Proof. intros Hp H. split; [done|]. intros k c d _ _ Hd _. by apply H. Qed.

Lemma gettoken_ok p :
  pos p →
  pp (gettoken s) (λ t p', ((p ≤ p')%nat ∧ pos p') ∧ (t.1.1 = 0 ↔ at_ s (skip_ws s p) = 0) ∧
    (t.1.1 ≠ 0 → (p < p')%nat) ∧ (t.1.1 = chr "a" → word_ok (t.1.2, t.2))) p.
Proof.
  intros Hp. unfold gettoken, pp. destruct (skip_ws_pos p Hp) as [Hpq Hq]. set (q := skip_ws s p) in *.
  pose proof (skip_while_next s (in_chars whitespace) p) as Hnw. change (skip_while _ _ p) with q in Hnw.
  assert (∀ e, (q ≤ e)%nat → pos e → (p ≤ skip_ws s e)%nat ∧ pos (skip_ws s e)) as He.
  { intros e Hle He. destruct (skip_ws_pos e He). split; [lia|done]. }
  destruct (Z.eqb_spec (at_ s q) 0) as [H0|H0].
  - cbn [fst snd]. split_and!; [by apply He..|done|done|]. intros [=].
  - pose proof (at_lookup s q H0) as Hlk. pose proof (lookup_lt_Some _ _ _ Hlk) as Hlt.
    assert (∀ e, (q < e)%nat → pos e → (p < skip_ws s e)%nat) as Hlt2.
    { intros e Hle He'. destruct (skip_ws_pos e He'). lia. }
    assert (in_chars symbols (at_ s q) = true → pos (S q)) as Hsy by (intros; eapply pos_after; [done|by apply symbol_no_word]).
    rewrite symbols_split in Hsy. destruct (in_chars (bytes_of_string "|();&<") (at_ s q)) eqn:Hsym.
    + specialize (Hsy eq_refl). cbn [fst snd]. split_and!; [by apply He; [lia|]..|done|intros _; apply Hlt2; [lia|done]|].
      intros Ha. rewrite Ha in Hsym. done.
    + destruct (Z.eqb_spec (at_ s q) (chr ">")) as [Hgt|Hgt].
      * specialize (Hsy eq_refl). destruct (Z.eqb_spec (at_ s (S q)) (chr ">")) as [Hgt2|Hgt2]; cbn [fst snd].
        -- assert (at_ s (S q) ≠ 0) as H2 by (rewrite Hgt2; done).
           assert (pos (S (S q))) as Hs2 by (eapply pos_after; [by apply at_lookup|by rewrite Hgt2]).
           split_and!; [by apply He; [lia|]..|done|intros _; apply Hlt2; [lia|done]|]. intros [=].
        -- split_and!; [by apply He; [lia|]..|done|intros _; apply Hlt2; [lia|done]|]. rewrite Hgt. intros [=].
      * cbn [fst snd].
        assert (word_char (at_ s q) = true) as Hw.
        { unfold word_char. rewrite (Hnw _ Hlk), symbols_split, Hsym, (proj2 (Z.eqb_neq _ _) Hgt). done. }
        pose proof (skip_while_move s word_char q _ Hlk Hw).
        pose proof (skip_while_le s word_char q ltac:(lia)).
        assert (pos (skip_while s word_char q)) as Hs2 by (apply pos_before; [lia|apply skip_while_next]).
        split_and!; [by apply He; [lia|]..|done|intros _; apply Hlt2; [lia|done]|]. intros _. split; [cbn; lia|].
        split; [apply skip_while_all|]. split; [apply skip_while_next|]. intros k c E Hc. cbn [fst snd] in E.
        destruct (word_char c) eqn:Hwc; [|done]. rewrite (proj2 Hq k c _ E Hc Hlk Hwc) in Hw. done.
Qed.

Lemma peek_ok toks p :
  pos p →
  pp (peek s toks) (λ b p', ((p ≤ p')%nat ∧ pos p') ∧ (b = true → at_ s (skip_ws s p') ≠ 0)) p.
Proof.
  intros Hp. unfold peek, pp. split; [by apply skip_ws_pos|].
  intros [H _]%andb_true_iff. rewrite negb_true_iff, Z.eqb_neq in H.
  unfold skip_ws. rewrite (skip_while_stop s _ (skip_while s (in_chars whitespace) p)); [done|].
  apply skip_while_next.
Qed.

(** A token is taken where [peek] saw one. *)
Lemma take_ok p :
  pos p → at_ s (skip_ws s p) ≠ 0 →
  pp (gettoken s) (λ t p', ((p < p')%nat ∧ pos p') ∧ (t.1.1 = chr "a" → word_ok (t.1.2, t.2))) p.
Proof.
  intros Hp Hat. eapply pp_mono; [by apply gettoken_ok|]. intros t p' (Hp' & H0 & Hlt & Hw).
  split; [|done]. rewrite H0 in Hlt. specialize (Hlt Hat). poslia.
Qed.

Lemma redirs_loop_ok k p c :
  pos p → (length s - p < k)%nat → Forall word_ok (words_of c) →
  pp (redirs_loop s k c) (good p) p.
Proof.
  revert p c. induction k as [|k IH]; intros p c Hp Hk Hc; [poslia|]. cbn [redirs_loop].
  apply pp_bind. eapply pp_mono; [by apply peek_ok|]. intros b p1 [Hp1 Hb]. cbn beta.
  destruct b; [|apply pp_ret; split; [done|poslia]].
  apply pp_bind. eapply pp_mono; [apply take_ok; [poslia|by apply Hb]|]. intros [[tok q0] e0] p2 [Hp2 _]. cbn beta iota.
  apply pp_bind. eapply pp_mono; [apply gettoken_ok; poslia|]. intros [[tok2 q] e] p3 (Hp3 & _ & _ & Hw).
  cbn [fst snd] in Hw. destruct (Z.eqb_spec tok2 (chr "a")) as [Ha|Ha]; cbn [negb]; [|apply pp_panic].
  specialize (Hw Ha). eapply pp_mono; [apply IH; [poslia|poslia|]|].
  - repeat case_match; cbn [words_of]; try done; apply Forall_app; split; try done; by constructor.
  - intros c' p4 [Hc' Hp4]. split; [done|poslia].
Qed.

Lemma parseredirs_good p c :
  pos p → Forall word_ok (words_of c) → pp (parseredirs s c) (good p) p.
Proof. intros Hp Hc. apply redirs_loop_ok; [done|poslia|done]. Qed.

Lemma add_arg_words c a : Forall word_ok (words_of c) → word_ok a → Forall word_ok (words_of (add_arg c a)).
Proof.
  intros Hc Ha. induction c as [args|c IH q e mode fd|l _ r _|l _ r _|c _]; cbn [add_arg words_of] in *; try done.
  - apply Forall_app. split; [done|by constructor].
  - apply Forall_app in Hc as [Hc Hq]. apply Forall_app. split; [by apply IH|done].
Qed.

Lemma args_loop_ok k argc p c :
  pos p → (length s - p < k)%nat → Forall word_ok (words_of c) →
  pp (args_loop s k argc c) (good p) p.
Proof.
  revert p argc c. induction k as [|k IH]; intros p argc c Hp Hk Hc; [poslia|]. cbn [args_loop].
  apply pp_bind. eapply pp_mono; [by apply peek_ok|]. intros b p1 [Hp1 _]. cbn beta.
  destruct b; [apply pp_ret; split; [done|poslia]|].
  apply pp_bind. eapply pp_mono; [apply gettoken_ok; poslia|]. intros [[tok q] e] p2 (Hp2 & _ & Hlt & Hw).
  cbn [fst snd] in *. cbn beta iota.
  destruct (Z.eqb_spec tok 0) as [|H0]; [apply pp_ret; split; [done|poslia]|]. specialize (Hlt H0).
  destruct (Z.eqb_spec tok (chr "a")) as [Ha|Ha]; cbn [negb]; [|apply pp_panic].
  destruct (MAXARGS <=? argc + 1); [apply pp_panic|].
  apply pp_bind. eapply pp_mono; [apply parseredirs_good; [poslia|by apply add_arg_words; [done|apply Hw]]|].
  intros c3 p3 [Hc3 Hp3]. eapply pp_mono; [apply IH; [poslia|poslia|done]|].
  intros c4 p4 [Hc4 Hp4]. split; [done|poslia].
Qed.

Lemma back_loop_ok k p c :
  pos p → (length s - p < k)%nat → Forall word_ok (words_of c) →
  pp (back_loop s k c) (good p) p.
Proof.
  revert p c. induction k as [|k IH]; intros p c Hp Hk Hc; [poslia|]. cbn [back_loop].
  apply pp_bind. eapply pp_mono; [by apply peek_ok|]. intros b p1 [Hp1 Hb]. cbn beta.
  destruct b; [|apply pp_ret; split; [done|poslia]].
  apply pp_bind. eapply pp_mono; [apply take_ok; [poslia|by apply Hb]|]. intros _t p2 [Hp2 _].
  eapply pp_mono; [apply IH; [poslia|poslia|done]|]. intros c3 p3 [Hc3 Hp3]. split; [done|poslia].
Qed.

(** The four functions of the grammar: each byte of the line pays for four calls. *)
Lemma parse_good f :
  (∀ p, pos p → (4 * (length s - p) + 4 ≤ f)%nat → pp (parseline s f) (good p) p) ∧
  (∀ p, pos p → (4 * (length s - p) + 3 ≤ f)%nat → pp (parsepipe s f) (good p) p) ∧
  (∀ p, pos p → (4 * (length s - p) + 2 ≤ f)%nat → pp (parseexec s f) (good p) p) ∧
  (∀ p, pos p → (4 * (length s - p) + 1 ≤ f)%nat → pp (parseblock s f) (good p) p).
Proof.
  induction f as [|f (IHl & IHp & IHe & IHb)]; [split_and!; intros; poslia|].
  split_and!; intros p Hp Hf; cbn [parseline parsepipe parseexec parseblock].
  - apply pp_bind. eapply pp_mono; [apply IHp; poslia|]. intros c p1 [Hc Hp1].
    apply pp_bind. eapply pp_mono; [apply back_loop_ok; [poslia|poslia|done]|]. intros c2 p2 [Hc2 Hp2].
    apply pp_bind. eapply pp_mono; [apply peek_ok; poslia|]. intros b p3 [Hp3 Hb]. cbn beta.
    destruct b; [|apply pp_ret; split; [done|poslia]].
    apply pp_bind. eapply pp_mono; [apply take_ok; [poslia|by apply Hb]|]. intros _t p4 [Hp4 _].
    apply pp_bind. eapply pp_mono; [apply IHl; poslia|]. intros c5 p5 [Hc5 Hp5].
    apply pp_ret. split; [by apply Forall_app|poslia].
  - apply pp_bind. eapply pp_mono; [apply IHe; poslia|]. intros c p1 [Hc Hp1].
    apply pp_bind. eapply pp_mono; [apply peek_ok; poslia|]. intros b p3 [Hp3 Hb]. cbn beta.
    destruct b; [|apply pp_ret; split; [done|poslia]].
    apply pp_bind. eapply pp_mono; [apply take_ok; [poslia|by apply Hb]|]. intros _t p4 [Hp4 _].
    apply pp_bind. eapply pp_mono; [apply IHp; poslia|]. intros c5 p5 [Hc5 Hp5].
    apply pp_ret. split; [by apply Forall_app|poslia].
  - apply pp_bind. eapply pp_mono; [apply peek_ok; poslia|]. intros b p1 [Hp1 Hb]. cbn beta.
    destruct b.
    + eapply pp_mono; [apply IHb; poslia|]. intros c p2 [Hc Hp2]. split; [done|poslia].
    + apply pp_bind. eapply pp_mono; [apply parseredirs_good; [poslia|constructor]|]. intros c p2 [Hc Hp2].
      eapply pp_mono; [apply args_loop_ok; [poslia|poslia|done]|]. intros c3 p3 [Hc3 Hp3]. split; [done|poslia].
  - apply pp_bind. eapply pp_mono; [apply peek_ok; poslia|]. intros b p1 [Hp1 Hb]. cbn beta.
    destruct b; cbn [negb]; [|apply pp_panic].
    apply pp_bind. eapply pp_mono; [apply take_ok; [poslia|by apply Hb]|]. intros _t p2 [Hp2 _].
    apply pp_bind. eapply pp_mono; [apply IHl; poslia|]. intros c p3 [Hc Hp3].
    apply pp_bind. eapply pp_mono; [apply peek_ok; poslia|]. intros b4 p4 [Hp4 Hb4]. cbn beta.
    destruct b4; cbn [negb]; [|apply pp_panic].
    apply pp_bind. eapply pp_mono; [apply take_ok; [poslia|by apply Hb4]|]. intros _t5 p5 [Hp5 _].
    eapply pp_mono; [apply parseredirs_good; [poslia|done]|]. intros c6 p6 [Hc6 Hp6]. split; [done|poslia].
Qed.

Lemma parse_text_good : pp (parse_text s) (good 0) 0.
Proof.
  unfold parse_text. apply pp_bind. eapply pp_mono; [apply parse_good; poslia|]. intros c p1 [Hc Hp1].
  apply pp_bind. eapply pp_mono; [apply peek_ok; poslia|]. intros b p2 [Hp2 _].
  unfold pp, check_end. destruct (negb (p2 =? length s)%nat); [done|]. split; [done|poslia].
Qed.
End words.

(** ** [nulterminate] *)

Lemma nulterminate_words c buf : nulterminate c buf = foldl (λ b a, <[a.2 := 0]> b) buf (words_of c).
Proof.
  revert buf. induction c as [args|c IH q e mode fd|l IHl r IHr|l IHl r IHr|c IH]; intros buf; cbn [nulterminate words_of].
  - done.
  - by rewrite foldl_app, IH.
  - by rewrite foldl_app, IHl, IHr.
  - by rewrite foldl_app, IHl, IHr.
  - apply IH.
Qed.

Lemma nuls_lookup (ws : list (nat * nat)) (buf : list Z) i :
  (i < length buf)%nat →
  foldl (λ b a, <[a.2 := 0]> b) buf ws !! i = if decide (i ∈ ws.*2) then Some 0 else buf !! i.
Proof.
  revert buf. induction ws as [|[q e] ws IH]; intros buf Hi; cbn [foldl].
  - rewrite decide_False by (apply not_elem_of_nil). done.
  - rewrite IH by (by rewrite length_insert). cbn [fmap list_fmap snd].
    destruct (decide (i ∈ ws.*2)) as [H|H].
    + rewrite decide_True; [done|]. apply elem_of_cons. by right.
    + destruct (decide (i = e)) as [->|Hne].
      * rewrite decide_True by (apply elem_of_cons; by left). by rewrite list_lookup_insert_eq.
      * rewrite decide_False by (rewrite elem_of_cons; naive_solver). by rewrite list_lookup_insert_ne.
Qed.

(** The C string at [q]. *)
Definition string_at (buf : list Z) (q : nat) : list Z := to_nul (drop q buf).

Lemma to_nul_app l l' : 0 ∉ l → to_nul (l ++ 0 :: l') = l.
Proof.
  induction l as [|c l IH]; cbn [to_nul app]; intros H; [done|]. rewrite not_elem_of_cons in H.
  rewrite (proj2 (Z.eqb_neq c 0)) by naive_solver. rewrite IH by naive_solver. done.
Qed.

Section terminated.
Context (s : list Z) (Hs : 0 ∉ s) (ws : list (nat * nat)) (Hws : Forall (word_ok s) ws).

Lemma word_inside q e i c : word_ok s (q, e) → (q ≤ i < e)%nat → s !! i = Some c → word_char c = true.
Proof.
  intros (_ & Hall & _) Hi Hc. cbn [fst snd] in Hall. rewrite Forall_lookup in Hall. apply (Hall (i - q)%nat).
  unfold slice. rewrite lookup_take_lt by lia. rewrite lookup_drop. by replace (q + (i - q))%nat with i by lia.
Qed.

(** No end of a word is inside a word. *)
Lemma ends_outside q e i : word_ok s (q, e) → (q ≤ i < e)%nat → i ∉ ws.*2.
Proof.
  intros Hw Hi Hin. apply list_elem_of_fmap in Hin as ([q' e'] & -> & Hin).
  rewrite Forall_forall in Hws. destruct (Hws _ Hin) as (_ & _ & Hend & _). cbn [fst snd] in *.
  destruct Hw as (Hr & Hw). cbn [fst snd] in Hr.
  destruct (lookup_lt_is_Some_2 s e') as [c Hc]; [lia|].
  pose proof (word_inside q e e' c (conj Hr Hw) Hi Hc) as H1. rewrite (Hend c Hc) in H1. done.
Qed.

Lemma string_at_word q e :
  (q, e) ∈ ws → string_at (foldl (λ b a, <[a.2 := 0]> b) (s ++ [0]) ws) q = slice s q e.
Proof.
  intros Hin. assert (word_ok s (q, e)) as Hw by (rewrite Forall_forall in Hws; by apply Hws).
  destruct (Hw) as ((Hqe & He) & _ & _). cbn [fst snd] in Hqe, He. unfold string_at.
  set (buf := foldl _ _ _).
  assert (∀ i, (i ≤ length s)%nat → buf !! i = if decide (i ∈ ws.*2) then Some 0 else (s ++ [0]) !! i) as Hlk.
  { intros i Hi. apply nuls_lookup. rewrite length_app. cbn. lia. }
  assert (drop q buf = slice s q e ++ 0 :: drop (S (e - q)) (drop q buf)) as ->.
  { rewrite <- (take_drop (e - q) (drop q buf)) at 1. f_equal.
    - apply list_eq. intros i. unfold slice. destruct (decide (i < e - q)%nat).
      + rewrite !lookup_take_lt, !lookup_drop, Hlk by lia.
        rewrite decide_False by (apply (ends_outside q e); [done|lia]). rewrite lookup_app_l by lia. done.
      + by rewrite !lookup_take_ge by lia.
    - apply drop_S. rewrite lookup_drop. replace (q + (e - q))%nat with e by lia. rewrite Hlk by lia.
      rewrite decide_True; [done|]. apply list_elem_of_fmap. by exists (q, e). }
  apply to_nul_app. unfold slice. intros H0. apply Hs.
  apply list_elem_of_lookup in H0 as [i H0]. apply lookup_take_Some in H0 as [H0 _].
  rewrite lookup_drop in H0. by apply list_elem_of_lookup_2 in H0.
Qed.
End terminated.

(** ** Property *)

(** C34. For every line, [parsecmd] terminates: it reports an error or returns a command.
    After [nulterminate] each word of the command (argument or file name) is a C string,
    and its text is a maximal run of word characters of the line, unchanged by the NULs
    that [nulterminate] writes after the other words. *)
Theorem parsecmd_words s :
  0 ∉ s →
  match parsecmd s with
  | POk (c, buf) _ => ∀ q e, (q, e) ∈ words_of c → word_ok s (q, e) ∧ string_at buf q = slice s q e
  | PDie _ => True
  | PFuel => False
  end.
Proof.
  intros Hs. unfold parsecmd. pose proof (parse_text_good s) as H. unfold pp in H.
  destruct (parse_text s O) as [c p|out|]; [|done|done]. destruct H as [Hc _]. intros q e Hin. split.
  - rewrite Forall_forall in Hc. by apply Hc.
  - rewrite nulterminate_words. by apply string_at_word.
Qed.

Lemma parsecmd_words_witness :
  0 ∉ bytes_of_string "ls>f" ∧
  match parsecmd (bytes_of_string "ls>f") with
  | POk (c, buf) _ => words_of c = [(0, 2); (3, 4)]%nat ∧ string_at buf 0 = bytes_of_string "ls"
  | _ => False
  end.
Proof.
  assert (0 ∉ bytes_of_string "ls>f") as H0 by (by apply (bool_decide_eq_true_1 (0 ∉ _))).
  split; [done|]. pose proof (parsecmd_words (bytes_of_string "ls>f") H0) as H.
  destruct (parsecmd (bytes_of_string "ls>f")) as [[c buf] p|out|] eqn:E; vm_compute in E; [|done|done].
  injection E as <- <- _. split; [done|].
  apply (proj2 (H 0%nat 2%nat ltac:(apply elem_of_cons; by left))).
Defined.
