(* ===== verification/ShRound.v ===== *)
(** * Every command has a line that the shell parses back into it: user/sh.c *)

From S2P Require Import Prelude Machine State KString User Sh ShParse.

(** ** Commands with their words *)

Inductive redir := RIn | ROut | RAppend.
Inductive ast :=
  | AExec (args : list (list Z))
  | ARedir (a : ast) (k : redir) (file : list Z)
  | APipe (left right : ast)
  | AList (left right : ast)
  | ABack (a : ast).

Definition redir_mode (k : redir) : Z :=
  match k with
  | RIn => U_RDONLY
  | ROut => Z.lor (Z.lor U_WRONLY U_CREATE) U_TRUNC
  | RAppend => Z.lor U_WRONLY U_CREATE
  end.
Definition redir_fd (k : redir) : Z := match k with RIn => 0 | _ => 1 end.

(** [c] is the command [a], where [str] reads a word. *)
Fixpoint is_cmd (str : nat * nat → list Z) (a : ast) (c : cmd) : Prop :=
  match a, c with
  | AExec ws, ExecCmd args => str <$> args = ws
  | ARedir a' k f, RedirCmd c' q e mode fd =>
      is_cmd str a' c' ∧ str (q, e) = f ∧ mode = redir_mode k ∧ fd = redir_fd k
  | APipe l r, PipeCmd l' r' => is_cmd str l l' ∧ is_cmd str r r'
  | AList l r, ListCmd l' r' => is_cmd str l l' ∧ is_cmd str r r'
  | ABack a', BackCmd c' => is_cmd str a' c'
  | _, _ => False
  end.

(** Words are not empty and made of word characters; at most nine arguments. *)
Definition good_word (w : list Z) : Prop := w ≠ [] ∧ Forall (λ c, word_char c = true ∧ c ≠ 0) w.
Fixpoint ast_ok (a : ast) : Prop :=
  match a with
  | AExec ws => Forall good_word ws ∧ zlen ws < MAXARGS
  | ARedir a' _ f => ast_ok a' ∧ good_word f
  | APipe l r | AList l r => ast_ok l ∧ ast_ok r
  | ABack a' => ast_ok a'
  end.

(** ** Writing a command *)

Inductive tok := TWord (w : list Z) | TSym (c : Z) | TAppend.
Definition tok_text (t : tok) : list Z :=
  match t with TWord w => w | TSym c => [c] | TAppend => bytes_of_string ">>" end.
(** What [gettoken] returns for it. *)
Definition tok_kind (t : tok) : Z :=
  match t with TWord _ => chr "a" | TSym c => c | TAppend => chr "+" end.
Definition redir_tok (k : redir) : tok :=
  match k with RIn => TSym (chr "<") | ROut => TSym (chr ">") | RAppend => TAppend end.

Inductive level := LLine | LBack | LPipe | LExec.
Definition paren (b : bool) (ts : list tok) : list tok :=
  if b then [TSym (chr "(")] ++ ts ++ [TSym (chr ")")] else ts.
(** The tokens of a command at a place where the grammar wants a [level]. *)
Fixpoint toks (a : ast) (lv : level) : list tok :=
  match a with
  | AExec ws => TWord <$> ws
  | ARedir a' k f => toks a' LExec ++ [redir_tok k; TWord f]
  | APipe l r =>
      paren (match lv with LExec => true | _ => false end) (toks l LExec ++ [TSym (chr "|")] ++ toks r LPipe)
  | ABack a' =>
      paren (match lv with LExec | LPipe => true | _ => false end) (toks a' LBack ++ [TSym (chr "&")])
  | AList l r =>
      paren (match lv with LLine => false | _ => true end) (toks l LBack ++ [TSym (chr ";")] ++ toks r LLine)
  end.
Definition render (ts : list tok) : list Z := concat ((λ t, 32 :: tok_text t) <$> ts).
Definition show_cmd (a : ast) : list Z := render (toks a LLine).

(** ** Tokens in the line *)

Definition tok_ok (t : tok) : Prop :=
  match t with
  | TWord w => good_word w
  | TSym c => c ∈ symbols
  | TAppend => True
  end.
Definition body (ts : list tok) : list Z :=
  match ts with [] => [] | t :: ts' => tok_text t ++ render ts' end.

Lemma tok_text_head t : tok_ok t → ∃ c l, tok_text t = c :: l ∧ in_chars whitespace c = false ∧ c ≠ 0.
Proof.
  destruct t as [w|c|]; cbn [tok_ok tok_text]; intros H.
  - destruct H as [Hne Hall]. destruct w as [|c w]; [done|]. inversion Hall as [|? ? [Hc H0] _]; subst.
    exists c, w. split_and!; [done| |done]. unfold word_char in Hc. by destruct (in_chars whitespace c).
  - exists c, []. split; [done|].
    assert (Forall (λ c, in_chars whitespace c = false ∧ c ≠ 0) symbols) as Hall by (repeat constructor; done).
    rewrite Forall_forall in Hall. by apply Hall.
  - by exists 62, [62].
Qed.

Section points.
Context (s : list Z).

(** From [p] on, after blanks, the line has the tokens [ts]. *)
Definition points (p : nat) (ts : list tok) : Prop :=
  (p ≤ length s)%nat ∧ drop (skip_ws s p) s = body ts ∧ Forall tok_ok ts.

Lemma skip_ws_drop p ts : Forall tok_ok ts → drop p s = body ts → skip_ws s p = p.
Proof.
  intros Hts E. apply skip_while_stop. intros c Hc. destruct ts as [|t ts]; cbn [body] in E.
  - rewrite <- (Nat.add_0_r p), <- lookup_drop, E in Hc. done.
  - inversion Hts as [|? ? Ht _]; subst. destruct (tok_text_head t Ht) as (c' & l & Et & Hw & _).
    rewrite <- (Nat.add_0_r p), <- lookup_drop, E, Et in Hc. by injection Hc as <-.
Qed.

Lemma skip_ws_render p ts : Forall tok_ok ts → drop p s = render ts → drop (skip_ws s p) s = body ts.
Proof.
  intros Hts E. destruct ts as [|t ts].
  - cbn in E. unfold skip_ws, skip_while. rewrite E. cbn [run_of]. rewrite Nat.add_0_r. exact E.
  - cbn [render fmap list_fmap concat] in E. cbn in E.
    assert (drop (S p) s = body (t :: ts)) as E'.
    { replace (S p) with (p + 1)%nat by lia. rewrite <- drop_drop, E. done. }
    pose proof (skip_ws_drop (S p) _ Hts E') as Hsk.
    assert (skip_ws s p = skip_ws s (S p)) as ->; [|by rewrite Hsk].
    unfold skip_ws, skip_while. rewrite E', E. cbn [run_of]. change (in_chars whitespace 32) with true. cbn match.
    cbn [body]. unfold render. lia.
Qed.

Lemma points_idem p ts : points p ts → points (skip_ws s p) ts.
Proof.
  intros (Hp & E & Hts). split_and!; [by apply skip_while_le| |done].
  rewrite (skip_ws_drop (skip_ws s p) ts); done.
Qed.

Lemma at_drop p c l : drop p s = c :: l → at_ s p = c.
Proof.
  intros E. unfold at_. apply nth_lookup_Some. rewrite <- (Nat.add_0_r p), <- lookup_drop, E. done.
Qed.

Lemma drop_app_eq p l l' : drop p s = l ++ l' → drop (p + length l) s = l'.
Proof. intros E. by rewrite <- drop_drop, E, drop_app_length. Qed.

Lemma drop_bound p l l' : (p ≤ length s)%nat → drop p s = l ++ l' → (p + length l ≤ length s)%nat.
Proof. intros Hp E. apply (f_equal length) in E. rewrite length_drop, length_app in E. lia. Qed.

(** The next byte after a token is a blank or the NUL. *)
Lemma render_head p ts : drop p s = render ts → at_ s p = 0 ∨ at_ s p = 32.
Proof.
  intros E. destruct ts as [|t ts].
  - left. unfold at_. apply nth_overflow. apply (f_equal length) in E. rewrite length_drop in E. cbn in E. lia.
  - right. eapply at_drop. rewrite E. done.
Qed.

Lemma word_skip q w ts : good_word w → drop q s = w ++ render ts → skip_while s word_char q = (q + length w)%nat.
Proof.
  intros [_ Hw] E. unfold skip_while. rewrite E. f_equal. clear E.
  induction Hw as [|c w [Hc _] Hw IH]; cbn [app run_of length].
  - destruct ts as [|t ts]; done.
  - rewrite Hc. by f_equal.
Qed.

Lemma gettoken_points p t ts :
  points p (t :: ts) →
  ∃ q e p', gettoken s p = POk (tok_kind t, q, e) p' ∧ slice s q e = tok_text t ∧ points p' ts.
Proof.
  intros (Hp & E & Hts). inversion Hts as [|? ? Ht Hts']; subst. cbn [body] in E.
  set (q := skip_ws s p) in *. assert (q ≤ length s)%nat as Hq by (by apply skip_while_le).
  pose proof (drop_app_eq _ _ _ E) as E'. pose proof (drop_bound _ _ _ Hq E) as Hb.
  set (e := (q + length (tok_text t))%nat) in *.
  assert (slice s q e = tok_text t) as Hsl.
  { unfold slice. rewrite E. replace (e - q)%nat with (length (tok_text t)) by lia. apply take_app_length. }
  assert (points (skip_ws s e) ts) as Hpt.
  { apply points_idem. split_and!; [done| |done]. by apply skip_ws_render. }
  exists q, e, (skip_ws s e). split; [|done]. unfold gettoken. fold q.
  destruct (tok_text_head t Ht) as (c & l & Et & Hws & H0). rewrite Et in E. cbn [app] in E.
  rewrite (at_drop q c (l ++ render ts) E). rewrite (proj2 (Z.eqb_neq c 0)) by done.
  destruct t as [w|c'|]; cbn [tok_text tok_kind tok_ok] in *.
  - destruct (Ht) as [_ Hall]. rewrite Et in Hall. apply Forall_cons in Hall as [[Hc _] _].
    unfold word_char in Hc. rewrite symbols_split, Hws in Hc. cbn [negb andb] in Hc. rewrite negb_orb in Hc.
    apply andb_true_iff in Hc as [Hc1 Hc2]. rewrite negb_true_iff in Hc1, Hc2. rewrite Hc1, Hc2.
    rewrite (word_skip q w ts Ht ltac:(by rewrite Et)). done.
  - injection Et as <- <-. cbn [app length] in *. replace e with (S q) in * by lia.
    assert (in_chars symbols c' = true) as Hc by (apply in_chars_elem; [by apply (bool_decide_eq_true_1 (0 ∉ _))|done]).
    rewrite symbols_split in Hc. destruct (in_chars (bytes_of_string "|();&<") c'); [done|]. cbn [orb] in Hc.
    rewrite Hc. destruct (render_head (S q) ts) as [H|H]; [done|rewrite H; done..].
  - injection Et as <- <-. cbn [app] in E.
    assert (at_ s (S q) = 62) as ->.
    { eapply at_drop. replace (S q) with (q + 1)%nat by lia. rewrite <- drop_drop, E. done. }
    replace e with (S (S q)) by (subst e; cbn; lia). done.
Qed.

Lemma gettoken_end p : points p [] → ∃ q e p', gettoken s p = POk (0, q, e) p' ∧ points p' [].
Proof.
  intros (Hp & E & Hts). unfold gettoken. set (q := skip_ws s p) in *. cbn [body] in E.
  assert (at_ s q = 0) as ->.
  { unfold at_. apply nth_overflow. apply (f_equal length) in E. rewrite length_drop in E. cbn in E. lia. }
  exists q, q, (skip_ws s q). split; [done|]. apply points_idem. split_and!; [by apply skip_while_le| |done].
  rewrite (skip_ws_drop q []); done.
Qed.

(** What [peek] answers. *)
Definition next_in (cs : list Z) (ts : list tok) : bool :=
  match ts with
  | TSym c :: _ => in_chars cs c
  | TAppend :: _ => in_chars cs (chr ">")
  | _ => false
  end.

Lemma peek_points cs p ts :
  0 ∉ cs → (∀ c, c ∈ cs → c ∈ symbols) → points p ts →
  ∃ p', peek s cs p = POk (next_in cs ts) p' ∧ points p' ts.
Proof.
  intros Hcs0 Hcs Hpt. exists (skip_ws s p). split; [|by apply points_idem].
  destruct Hpt as (Hp & E & Hts). unfold peek. f_equal. destruct ts as [|t ts]; cbn [body] in E.
  - assert (at_ s (skip_ws s p) = 0) as ->; [|done].
    unfold at_. apply nth_overflow. apply (f_equal length) in E. rewrite length_drop in E. cbn in E. lia.
  - inversion Hts as [|? ? Ht Hts']; subst. destruct (tok_text_head t Ht) as (c & l & Et & Hws & H0).
    rewrite Et in E. cbn [app] in E. rewrite (at_drop _ c (l ++ render ts) E). rewrite (proj2 (Z.eqb_neq c 0)) by done.
    cbn [negb andb]. destruct t as [w|c'|]; cbn [tok_text next_in] in *.
    + destruct (in_chars cs c) eqn:Ein; [|done]. exfalso. apply in_chars_elem, Hcs in Ein; [|done].
      destruct Ht as [_ Hall]. rewrite Et in Hall. apply Forall_cons in Hall as [[Hc _] _].
      unfold word_char in Hc. rewrite (proj2 (in_chars_elem symbols c ltac:(by apply (bool_decide_eq_true_1 (0 ∉ _)))) Ein) in Hc.
      by destruct (in_chars whitespace c).
    + by injection Et as <- <-.
    + by injection Et as <- <-.
Qed.

Lemma points_length p ts : points p ts → (length ts ≤ length s)%nat.
Proof.
  intros (_ & E & Hts). assert (length ts ≤ length (body ts))%nat as H.
  { clear E. destruct Hts as [|t ts Ht Hts]; [done|]. cbn [body length]. rewrite length_app.
    destruct (tok_text_head t Ht) as (c & l & -> & _). cbn [length].
    assert (length ts ≤ length (render ts))%nat; [|lia]. clear Ht.
    induction Hts as [|t' ts' Ht' Hts' IH]; [done|]. unfold render in *. cbn. rewrite length_app. lia. }
  rewrite <- E, length_drop in H. lia.
Qed.
End points.

(** ** Parsing tokens *)

Section parses.
Context (s : list Z).

(** [m] returns from [p] a value with [Q] and leaves the tokens [rest]. *)
Definition parses {A} (m : P A) (p : nat) (Q : A → Prop) (rest : list tok) : Prop :=
  ∃ a p', m p = POk a p' ∧ Q a ∧ points s p' rest.

Lemma parses_bind {A B} (m : P A) (f : A → P B) p Q mid Q' rest :
  parses m p Q mid → (∀ a p', Q a → points s p' mid → parses (f a) p' Q' rest) →
  parses (m ≫= f) p Q' rest.
Proof.
  intros (a & p' & Hm & Ha & Hp) Hf. destruct (Hf a p' Ha Hp) as (b & p'' & Hb & HQ & Hp'').
  exists b, p''. split; [|done]. unfold mbind, P_bind. by rewrite Hm.
Qed.

Lemma parses_assoc {A B C} (m : P A) (f : A → P B) (g : B → P C) p Q mid Q' rest :
  parses (m ≫= f) p Q mid → (∀ b p', Q b → points s p' mid → parses (g b) p' Q' rest) →
  parses (m ≫= λ a, f a ≫= g) p Q' rest.
Proof.
  intros Hm Hg. destruct (parses_bind (m ≫= f) g p Q mid Q' rest Hm Hg) as (c & p' & E & Hc).
  exists c, p'. split; [|done]. rewrite <- E. unfold mbind, P_bind. by destruct (m p).
Qed.

Lemma parses_ret {A} (a : A) p (Q : A → Prop) rest : Q a → points s p rest → parses (mret a) p Q rest.
Proof. intros. by exists a, p. Qed.

Lemma parses_mono {A} (m : P A) p (Q Q' : A → Prop) rest :
  parses m p Q rest → (∀ a, Q a → Q' a) → parses m p Q' rest.
Proof. intros (a & p1 & E & Ha & Hp) Hm. exists a, p1. split_and!; [done|by apply Hm|done]. Qed.

Lemma parses_peek cs p ts :
  0 ∉ cs → (∀ c, c ∈ cs → c ∈ symbols) → points s p ts → parses (peek s cs) p (λ b, b = next_in cs ts) ts.
Proof. intros H0 Hcs Hp. destruct (peek_points s cs p ts H0 Hcs Hp) as (p' & E & Hp'). by exists (next_in cs ts), p'. Qed.

Lemma parses_token p t ts :
  points s p (t :: ts) →
  parses (gettoken s) p (λ r, r.1.1 = tok_kind t ∧ slice s r.1.2 r.2 = tok_text t) ts.
Proof. intros Hp. destruct (gettoken_points s p t ts Hp) as (q & e & p' & E & Hsl & Hp'). by exists (tok_kind t, q, e), p'. Qed.

Lemma symbol_subset cs :
  bool_decide (Forall (λ c, c ∈ symbols) cs) && bool_decide (0 ∉ cs) = true →
  0 ∉ cs ∧ ∀ c, c ∈ cs → c ∈ symbols.
Proof. rewrite andb_true_iff, !bool_decide_eq_true, Forall_forall. naive_solver. Qed.

(** [peek] of a constant set of symbols. *)
#[local] Ltac peek_step b :=
  eapply parses_bind;
  [ eapply parses_peek;
      [ eapply proj1, symbol_subset; reflexivity | eapply proj2, symbol_subset; reflexivity | eassumption ]
  | intros b ?p ?Hb ?Hpt; cbv beta in * ].

Definition str (a : nat * nat) : list Z := slice s a.1 a.2.
Abbreviation cmd_is := (is_cmd str).

Abbreviation redir_chars := (bytes_of_string "<>").
Definition rtoks (rs : list (redir * list Z)) : list tok := concat ((λ r, [redir_tok r.1; TWord r.2]) <$> rs).
Definition wrap (a : ast) (rs : list (redir * list Z)) : ast := foldl (λ a r, ARedir a r.1 r.2) a rs.

Lemma redirs_none k c p ts :
  next_in redir_chars ts = false → points s p ts → parses (redirs_loop s (S k) c) p (eq c) ts.
Proof.
  intros Hn Hp. cbn [redirs_loop]. peek_step b. rewrite Hn in Hb. subst b. by apply parses_ret.
Qed.

Lemma redirs_some k a c rs p rest :
  cmd_is a c → next_in redir_chars rest = false → points s p (rtoks rs ++ rest) → (length rs < k)%nat →
  parses (redirs_loop s k c) p (cmd_is (wrap a rs)) rest.
Proof.
  revert a c rs p. induction k as [|k IH]; intros a c rs p Hc Hn Hp Hk; [lia|].
  destruct rs as [|[r f] rs].
  - eapply parses_mono; [by apply redirs_none|]. by intros ? <-.
  - cbn [redirs_loop]. change (rtoks ((r, f) :: rs) ++ rest) with (redir_tok r :: TWord f :: rtoks rs ++ rest) in Hp.
    peek_step b. assert (b = true) as -> by (subst b; by destruct r).
    eapply parses_bind; [apply parses_token; eassumption|]. intros [[tok q0] e0] p1 [Htok _] Hp1. cbn [fst snd] in Htok.
    eapply parses_bind; [apply parses_token; eassumption|]. intros [[tok2 q] e] p2 [Htok2 Hsl] Hp2. cbn [fst snd] in *.
    subst tok2. cbn match. cbn [tok_kind negb]. change (chr "a" =? chr "a") with true. cbn [negb].
    cbn [length] in Hk. apply (IH (ARedir a r f)); [|done|done|lia].
    subst tok. destruct r; cbn; split_and!; done.
Qed.

Lemma parseredirs_ok a c rs p rest :
  cmd_is a c → next_in redir_chars rest = false → points s p (rtoks rs ++ rest) →
  parses (parseredirs s c) p (cmd_is (wrap a rs)) rest.
Proof.
  intros Hc Hn Hp. apply (redirs_some _ a); [done..|].
  pose proof (points_length s p _ Hp) as Hl. rewrite length_app in Hl.
  assert (length rs ≤ length (rtoks rs))%nat; [|lia].
  clear. induction rs as [|r rs IH]; [done|]. unfold rtoks in *. cbn. lia.
Qed.

Lemma parseredirs_none c p ts :
  next_in redir_chars ts = false → points s p ts → parses (parseredirs s c) p (eq c) ts.
Proof. apply redirs_none. Qed.

(** ** Arguments *)

(** The tokens that may follow a command of each level. *)
Definition ends (cs : list Z) (rest : list tok) : Prop :=
  rest = [] ∨ ∃ c ts, rest = TSym c :: ts ∧ c ∈ cs.
Definition ends_exec : list tok → Prop := ends (bytes_of_string "|)&;").

Lemma args_stop k argc ret p rest :
  ends_exec rest → points s p rest → parses (args_loop s (S k) argc ret) p (eq ret) rest.
Proof.
  intros Hend Hp. cbn [args_loop]. peek_step b. destruct Hend as [->|(c & ts & -> & Hc)].
  - cbn in Hb. subst b. destruct (gettoken_end s p0 Hpt) as (q & e & p' & E & Hp').
    apply (parses_bind _ _ _ (eq (0, q, e)) []); [by exists (0, q, e), p'|].
    intros r p1 <- Hp1. cbn. by apply parses_ret.
  - cbn [next_in] in Hb. rewrite (proj2 (in_chars_elem (bytes_of_string "|)&;") c ltac:(by apply (bool_decide_eq_true_1 (0 ∉ _)))) Hc) in Hb.
    subst b. by apply parses_ret.
Qed.

Lemma ends_exec_next cs rest :
  ends_exec rest → bool_decide (Forall (λ c, in_chars cs c = false) (bytes_of_string "|)&;")) = true → next_in cs rest = false.
Proof.
  intros [->|(c & ts & -> & Hc)] Hb; [done|]. apply bool_decide_eq_true in Hb. rewrite Forall_forall in Hb. by apply Hb.
Qed.

Lemma args_some k argc args ws w rs p rest :
  ends_exec rest → points s p ((TWord <$> w :: ws) ++ rtoks rs ++ rest) →
  argc + zlen (w :: ws) < MAXARGS → (length (w :: ws) < k)%nat →
  parses (args_loop s k argc (ExecCmd args)) p (cmd_is (wrap (AExec ((str <$> args) ++ w :: ws)) rs)) rest.
Proof.
  intros Hend. revert argc args w ws p. induction k as [|k IH]; intros argc args w ws p Hp Hmax Hk; [lia|].
  cbn [args_loop]. cbn [fmap list_fmap app] in Hp. peek_step b. cbn in Hb. subst b.
  eapply parses_bind; [apply parses_token; eassumption|]. intros [[tok q] e] p1 [Htok Hsl] Hp1. cbn [fst snd] in *.
  subst tok. cbn [tok_kind tok_text] in *. change (chr "a" =? 0) with false. change (chr "a" =? chr "a") with true. cbn [negb add_arg].
  unfold zlen in Hmax. cbn [length] in Hmax, Hk.
  destruct (Z.leb_spec MAXARGS (argc + 1)); [lia|].
  assert (str <$> args ++ [(q, e)] = (str <$> args) ++ [w]) as Hargs by (rewrite fmap_app; cbn [fmap list_fmap]; unfold str at 2; cbn [fst snd]; by rewrite Hsl).
  destruct ws as [|w' ws].
  - eapply parses_bind.
    { apply (parseredirs_ok (AExec ((str <$> args) ++ [w]))); [done|by apply ends_exec_next|exact Hp1]. }
    intros c' p2 Hc' Hp2. destruct k as [|k']; [cbn in Hk; lia|].
    eapply parses_mono; [by apply args_stop|]. by intros ? <-.
  - eapply parses_bind; [apply parseredirs_none; [|exact Hp1]; done|]. intros c' p2 <- Hp2.
    eapply parses_mono; [apply (IH (argc + 1) _ w' ws p2 Hp2); [unfold zlen; cbn [length] in *; lia|cbn [length] in *; lia]|].
    intros c3. rewrite Hargs, <- app_assoc. done.
Qed.

(** ** The levels of the grammar *)

Definition ends_pipe : list tok → Prop := ends (bytes_of_string ")&;").
Definition ends_back : list tok → Prop := ends (bytes_of_string ");").
Definition ends_line : list tok → Prop := ends (bytes_of_string ")").
Definition amps (j : nat) : list tok := replicate j (TSym (chr "&")).
Definition backs (j : nat) (a : ast) : ast := Nat.iter j ABack a.

Lemma ends_next cs cs' rest :
  ends cs rest → bool_decide (Forall (λ c, in_chars cs' c = false) cs) = true → next_in cs' rest = false.
Proof.
  intros [->|(c & ts & -> & Hc)] Hb; [done|]. apply bool_decide_eq_true in Hb. rewrite Forall_forall in Hb. by apply Hb.
Qed.

Lemma ends_weaken cs cs' rest :
  ends cs rest → bool_decide (Forall (λ c, c ∈ cs') cs) = true → ends cs' rest.
Proof.
  intros [->|(c & ts & -> & Hc)] Hb; [by left|]. apply bool_decide_eq_true in Hb. rewrite Forall_forall in Hb.
  right. exists c, ts. split; [done|by apply Hb].
Qed.

Lemma ends_sym cs c ts : bool_decide (c ∈ cs) = true → ends cs (TSym c :: ts).
Proof. rewrite bool_decide_eq_true. right. by exists c, ts. Qed.

Definition exec_level (a : ast) : Prop := ∀ rs rest f p,
  ends_exec rest → points s p (toks a LExec ++ rtoks rs ++ rest) →
  (4 * length (toks a LExec ++ rtoks rs) + 2 ≤ f)%nat →
  parses (parseexec s f) p (cmd_is (wrap a rs)) rest.
Definition pipe_level (a : ast) : Prop := ∀ rest f p,
  ends_pipe rest → points s p (toks a LPipe ++ rest) → (4 * length (toks a LPipe) + 3 ≤ f)%nat →
  parses (parsepipe s f) p (cmd_is a) rest.
Definition back_level (a : ast) : Prop := ∀ j rest f p,
  ends_back rest → points s p (toks a LBack ++ amps j ++ rest) → (4 * length (toks a LBack ++ amps j) + 3 ≤ f)%nat →
  parses (c ← parsepipe s f; back_loop s (S (length s)) c) p (cmd_is (backs j a)) rest.
Definition line_level (a : ast) : Prop := ∀ rest f p,
  ends_line rest → points s p (toks a LLine ++ rest) → (4 * length (toks a LLine) + 4 ≤ f)%nat →
  parses (parseline s f) p (cmd_is a) rest.

Lemma exec_of_line a : toks a LExec = paren true (toks a LLine) → line_level a → exec_level a.
Proof.
  intros Ht Hl rs rest f p Hend Hp Hf. rewrite Ht in Hp, Hf. cbn [paren] in Hp, Hf. rewrite !length_app in Hf. cbn [length] in Hf.
  rewrite <- !app_assoc in Hp. cbn [app] in Hp.
  destruct f as [|[|f]]; [lia..|]. cbn [parseexec].
  peek_step b. assert (b = true) as -> by (by subst b). cbn [parseblock].
  peek_step b. assert (b = true) as -> by (by subst b). cbn [negb].
  eapply parses_bind; [by eapply parses_token|]. intros _t p2 _ Hp2.
  eapply parses_bind; [eapply (Hl (TSym (chr ")") :: rtoks rs ++ rest)); [by apply ends_sym|exact Hp2|lia]|].
  intros c p3 Hc Hp3. peek_step b. assert (b = true) as -> by (by subst b). cbn [negb].
  eapply parses_bind; [by eapply parses_token|]. intros _t4 p5 _ Hp5.
  apply parseredirs_ok; [done|by apply (ends_next _ _ rest Hend)|done].
Qed.

Lemma pipe_of_exec a : toks a LPipe = toks a LExec → exec_level a → pipe_level a.
Proof.
  intros Ht He rest f p Hend Hp Hf. rewrite Ht in Hp, Hf. destruct f as [|f]; [lia|]. cbn [parsepipe].
  eapply parses_bind.
  { apply (He [] rest); [by apply (ends_weaken _ _ _ Hend)|exact Hp|]. unfold rtoks. cbn. rewrite app_nil_r. lia. }
  intros c p1 Hc Hp1. peek_step b. rewrite (ends_next _ _ rest Hend) in Hb by done. subst b. by apply parses_ret.
Qed.

Lemma back_loop_amps k j a c rest p :
  ends_back rest → cmd_is a c → points s p (amps j ++ rest) → (j < k)%nat →
  parses (back_loop s k c) p (cmd_is (backs j a)) rest.
Proof.
  intros Hend. revert a c j p. induction k as [|k IH]; intros a c j p Hc Hp Hk; [lia|]. cbn [back_loop].
  destruct j as [|j]; cbn [amps replicate app] in Hp.
  - peek_step b. rewrite (ends_next _ _ rest Hend) in Hb by done. subst b. by apply parses_ret.
  - peek_step b. assert (b = true) as -> by (by subst b).
    eapply parses_bind; [by eapply parses_token|]. intros _t p2 _ Hp2.
    unfold backs. rewrite Nat.iter_succ_r. apply (IH (ABack a)); [done|exact Hp2|lia].
Qed.

Lemma back_of_pipe a : toks a LBack = toks a LPipe → pipe_level a → back_level a.
Proof.
  intros Ht Hpi j rest f p Hend Hp Hf. rewrite Ht in Hp, Hf. rewrite length_app in Hf.
  eapply parses_bind; [apply (Hpi (amps j ++ rest)); [|exact Hp|lia]|].
  - destruct j; [by apply (ends_weaken _ _ _ Hend)|by apply ends_sym].
  - intros c p1 Hc Hp1. apply back_loop_amps; [done..|].
    pose proof (points_length s p1 _ Hp1) as Hl. unfold amps in Hl. rewrite length_app, length_replicate in Hl. lia.
Qed.

Lemma line_of_back a : toks a LLine = toks a LBack → back_level a → line_level a.
Proof.
  intros Ht Hba rest f p Hend Hp Hf. rewrite Ht in Hp, Hf. destruct f as [|f]; [lia|]. cbn [parseline].
  eapply parses_assoc.
  { apply (Hba O rest); [by apply (ends_weaken _ _ _ Hend)|done|]. cbn. rewrite app_nil_r. lia. }
  intros c p1 Hc Hp1. peek_step b. rewrite (ends_next _ _ rest Hend) in Hb by done. subst b. by apply parses_ret.
Qed.

Lemma rtoks_app k f rs : rtoks ((k, f) :: rs) = [redir_tok k; TWord f] ++ rtoks rs.
Proof. done. Qed.

Lemma exec_words ws : ast_ok (AExec ws) → exec_level (AExec ws).
Proof.
  intros [Hws Hmax] rs rest f p Hend Hp Hf. destruct f as [|f]; [cbn in Hf; lia|]. cbn [parseexec toks] in *.
  peek_step b.
  assert (b = false) as ->.
  { subst b. destruct ws as [|w ws]; [|done]. destruct rs as [|[k g] rs]; [|by destruct k].
    by apply (ends_next _ _ rest Hend). }
  destruct ws as [|w ws].
  - eapply parses_bind; [apply (parseredirs_ok (AExec [])); [done|by apply (ends_next _ _ rest Hend)|exact Hpt]|].
    intros c p1 Hc Hp1. eapply parses_mono; [by apply args_stop|]. by intros ? <-.
  - eapply parses_bind; [apply parseredirs_none; [|exact Hpt]; done|]. intros c p1 <- Hp1.
    apply (args_some _ 0 [] ws w rs p1 rest Hend Hp1); [lia|].
    pose proof (points_length s p1 _ Hp1) as Hl. rewrite length_app, length_fmap in Hl. lia.
Qed.

Lemma exec_redir a k g : exec_level a → exec_level (ARedir a k g).
Proof.
  intros He rs rest f p Hend Hp Hf. cbn [toks] in Hp, Hf. rewrite <- app_assoc in Hp, Hf.
  apply (He ((k, g) :: rs) rest f p Hend); rewrite rtoks_app; [|exact Hf]. by rewrite <- app_assoc.
Qed.

Lemma pipe_pipe l r : exec_level l → pipe_level r → pipe_level (APipe l r).
Proof.
  intros Hl Hr rest f p Hend Hp Hf. cbn [toks paren] in Hp, Hf. rewrite !length_app in Hf. cbn [length] in Hf.
  rewrite <- !app_assoc in Hp. destruct f as [|f]; [lia|]. cbn [parsepipe].
  eapply parses_bind.
  { apply (Hl [] (TSym (chr "|") :: toks r LPipe ++ rest)); [by apply ends_sym|exact Hp|].
    unfold rtoks. cbn. rewrite app_nil_r. lia. }
  intros c p1 Hc Hp1. peek_step b. assert (b = true) as -> by (by subst b).
  eapply parses_bind; [by eapply parses_token|]. intros _t p2 _ Hp2.
  eapply parses_bind; [apply (Hr rest); [done|exact Hp2|lia]|]. intros c3 p3 Hc3 Hp3. by apply parses_ret.
Qed.

Lemma back_back a : back_level a → back_level (ABack a).
Proof.
  intros Ha j rest f p Hend Hp Hf. cbn [toks paren] in Hp, Hf. rewrite <- app_assoc in Hp, Hf.
  unfold backs. rewrite <- Nat.iter_succ_r. by apply (Ha (S j)).
Qed.

Lemma line_list l r : back_level l → line_level r → line_level (AList l r).
Proof.
  intros Hl Hr rest f p Hend Hp Hf. cbn [toks paren] in Hp, Hf. rewrite !length_app in Hf. cbn [length] in Hf.
  rewrite <- !app_assoc in Hp. destruct f as [|f]; [lia|]. cbn [parseline].
  eapply parses_assoc.
  { apply (Hl O (TSym (chr ";") :: toks r LLine ++ rest)); [by apply ends_sym|exact Hp|]. cbn. rewrite app_nil_r. lia. }
  intros c p1 Hc Hp1. peek_step b. assert (b = true) as -> by (by subst b).
  eapply parses_bind; [by eapply parses_token|]. intros _t p2 _ Hp2.
  eapply parses_bind; [apply (Hr rest); [done|exact Hp2|lia]|]. intros c3 p3 Hc3 Hp3. by apply parses_ret.
Qed.

(** Every command parses at every level. *)
Lemma ast_parses a : ast_ok a → exec_level a ∧ pipe_level a ∧ back_level a ∧ line_level a.
Proof.
  induction a as [ws|a IH k g|l IHl r IHr|l IHl r IHr|a IH]; intros Hok.
  - pose proof (exec_words ws Hok) as He. pose proof (pipe_of_exec (AExec ws) eq_refl He) as Hp.
    pose proof (back_of_pipe (AExec ws) eq_refl Hp) as Hb. split_and!; [done..|by apply (line_of_back (AExec ws))].
  - destruct Hok as [Ha _]. pose proof (exec_redir a k g (proj1 (IH Ha))) as He.
    pose proof (pipe_of_exec (ARedir a k g) eq_refl He) as Hp.
    pose proof (back_of_pipe (ARedir a k g) eq_refl Hp) as Hb. split_and!; [done..|by apply (line_of_back (ARedir a k g))].
  - destruct Hok as [Hl Hr]. pose proof (pipe_pipe l r (proj1 (IHl Hl)) (proj1 (proj2 (IHr Hr)))) as Hp.
    pose proof (back_of_pipe (APipe l r) eq_refl Hp) as Hb. pose proof (line_of_back (APipe l r) eq_refl Hb) as Hli.
    split_and!; [by apply (exec_of_line (APipe l r))|done..].
  - destruct Hok as [Hl Hr]. destruct (IHl Hl) as (_ & _ & Hlb & _). destruct (IHr Hr) as (_ & _ & _ & Hrl).
    pose proof (line_list l r Hlb Hrl) as Hli. pose proof (exec_of_line (AList l r) eq_refl Hli) as He.
    pose proof (pipe_of_exec (AList l r) eq_refl He) as Hp. split_and!; [done|done|by apply (back_of_pipe (AList l r))|done].
  - destruct (IH Hok) as (_ & _ & Hab & _). pose proof (back_back a Hab) as Hb.
    pose proof (line_of_back (ABack a) eq_refl Hb) as Hli. pose proof (exec_of_line (ABack a) eq_refl Hli) as He.
    split_and!; [done|by apply (pipe_of_exec (ABack a))|done|done].
Qed.
End parses.

Lemma toks_ok a lv : ast_ok a → Forall tok_ok (toks a lv).
Proof.
  assert (∀ c, bool_decide (c ∈ symbols) = true → tok_ok (TSym c)) as Hsym by (intros c Hc; by apply bool_decide_eq_true in Hc).
  assert (∀ b ts, Forall tok_ok ts → Forall tok_ok (paren b ts)) as Hpar.
  { intros [] ts Hts; [|done]. cbn [paren app]. constructor; [by apply Hsym|]. apply Forall_app. split; [done|]. constructor; [by apply Hsym|constructor]. }
  revert lv. induction a as [ws|a IH k g|l IHl r IHr|l IHl r IHr|a IH]; intros lv Hok; cbn [toks ast_ok] in *.
  - apply Forall_fmap. destruct Hok as [Hws _]. by eapply Forall_impl.
  - destruct Hok as [Ha Hg]. apply Forall_app. split; [by apply IH|].
    constructor; [destruct k; [by apply Hsym..|done]|]. constructor; [done|constructor].
  - destruct Hok as [Hl Hr]. apply Hpar, Forall_app. split; [by apply IHl|]. constructor; [by apply Hsym|by apply IHr].
  - destruct Hok as [Hl Hr]. apply Hpar, Forall_app. split; [by apply IHl|]. constructor; [by apply Hsym|by apply IHr].
  - apply Hpar, Forall_app. split; [by apply IH|]. constructor; [by apply Hsym|constructor].
Qed.

Lemma render_no_nul ts : Forall tok_ok ts → 0 ∉ render ts.
Proof.
  induction 1 as [|t ts Ht Hts IH]; unfold render in *; cbn; [apply not_elem_of_nil|].
  rewrite elem_of_cons, elem_of_app. intros [H|[H|H]]; [done| |done].
  destruct t as [w|c|]; cbn [tok_ok tok_text] in *.
  - destruct Ht as [_ Hw]. rewrite Forall_forall in Hw. by destruct (Hw 0 H).
  - apply list_elem_of_singleton in H as <-. by apply (bool_decide_eq_true_1 (0 ∉ symbols)).
  - by apply (bool_decide_eq_true_1 (0 ∉ bytes_of_string ">>")) in H.
Qed.

(** Words read through [f] or through [g], where they agree. *)
Lemma is_cmd_ext f g a c : (∀ w, w ∈ words_of c → f w = g w) → is_cmd f a c → is_cmd g a c.
Proof.
  revert c. induction a as [ws|a IH k h|l IHl r IHr|l IHl r IHr|a IH]; intros [args|c q e mode fd|cl cr|cl cr|c] Hfg;
    cbn [is_cmd words_of] in *; try done.
  - intros <-. symmetry. apply list_fmap_ext. intros i w Hw. apply Hfg. by eapply list_elem_of_lookup_2.
  - intros (H & <- & Hm1 & Hm2). split_and!; [|symmetry; apply Hfg|done|done].
    + apply IH; [|done]. intros w Hw. apply Hfg. rewrite elem_of_app. by left.
    + rewrite elem_of_app. right. by apply list_elem_of_singleton.
  - intros [H1 H2]. split; [apply IHl|apply IHr]; try done; intros w Hw; apply Hfg; rewrite elem_of_app; naive_solver.
  - intros [H1 H2]. split; [apply IHl|apply IHr]; try done; intros w Hw; apply Hfg; rewrite elem_of_app; naive_solver.
  - by apply IH.
Qed.

Lemma show_parse a :
  ast_ok a →
  ∃ c buf p, parsecmd (show_cmd a) = POk (c, buf) p ∧ is_cmd (λ w, string_at buf w.1) a c.
Proof.
  intros Ha. set (s := show_cmd a). pose proof (toks_ok a LLine Ha) as Htoks.
  assert (points s 0 (toks a LLine ++ [])) as Hp.
  { rewrite app_nil_r. split_and!; [lia| |done]. apply skip_ws_render; [done|]. apply drop_0. }
  destruct (ast_parses s a Ha) as (_ & _ & _ & Hline).
  destruct (Hline [] (5 * length s + 5)%nat O) as (c & p1 & E & Hc & Hp1).
  { by left. } { done. } { pose proof (points_length s O _ Hp) as Hl. rewrite app_nil_r in Hl. lia. }
  destruct (peek_points s [] p1 []) as (p2 & E2 & Hp2).
  { apply not_elem_of_nil. } { intros c' Hc'. by apply elem_of_nil in Hc'. } { done. }
  destruct Hp2 as (Hp2 & E3 & _).
  assert (p2 = length s) as ->.
  { cbn [body] in E3. apply (f_equal length) in E3. rewrite length_drop in E3. cbn in E3.
    unfold peek in E2. injection E2 as _ E2.
    assert (skip_ws s p2 = p2) as Hsk by (rewrite <- E2; apply skip_while_stop, skip_while_next). lia. }
  assert (parse_text s O = POk c (length s)) as Hparse.
  { unfold parse_text. unfold mbind, P_bind. rewrite E, E2. unfold check_end. by rewrite Nat.eqb_refl. }
  exists c, (nulterminate c (s ++ [0])), (length s). unfold parsecmd. rewrite Hparse. split; [done|].
  pose proof (parse_text_good s) as Hg. unfold pp in Hg. rewrite Hparse in Hg. destruct Hg as [Hg _].
  eapply is_cmd_ext; [|exact Hc]. intros [q e] Hw. rewrite nulterminate_words. symmetry.
  apply string_at_word; [by apply render_no_nul|done|done].
Qed.

(** ** Property *)

(** C33. Every command whose words are made of word characters and that has at most nine
    arguments per program can be typed in: [parsecmd] of the line [show_cmd] writes for
    it returns the same command, with the words as C strings in the buffer. *)
Theorem parsecmd_roundtrip a :
  ast_ok a →
  ∃ c buf p, parsecmd (show_cmd a) = POk (c, buf) p ∧ is_cmd (λ w, string_at buf w.1) a c.
Proof. apply show_parse. Qed.

Lemma parsecmd_roundtrip_witness :
  let a := AList (APipe (AExec [bytes_of_string "ls"; bytes_of_string "-l"]) (ARedir (ABack (AExec [bytes_of_string "wc"])) ROut [102])) (AExec []) in
  ∃ c buf p, parsecmd (show_cmd a) = POk (c, buf) p ∧ is_cmd (λ w, string_at buf w.1) a c.
Proof.
  apply parsecmd_roundtrip. cbn [ast_ok]. unfold good_word, zlen. cbn.
  split_and!; repeat constructor; done.
Defined.
