(* ===== verification/ShRun.v ===== *)
(** * Running commands: [runcmd] and [main] of user/sh.c

    Commands are run by trees of system calls. The theorem compares the file
    descriptors with which the programs of a command line are started with what the
    command means. *)

From S2P Require Import Prelude Machine State KString User ProcTree Sh ShParse ShRound.

(** [panic] and [fork1] *)
Definition die (msg : string) : ptree := PPrint 2 (bytes_of_string msg ++ [10]) (PExit 1).
Definition fork1 (k : Z → ptree) : ptree := PFork (λ pid, if pid =? -1 then die "fork" else k pid).

Section run.
Context (buf : list Z).

(** The commands point into [buf]. *)
Fixpoint runcmd (c : cmd) : ptree :=
  match c with
  | ExecCmd args =>
      match (λ a, string_at buf a.1) <$> args with
      | [] => PExit 1
      | (path :: _) as argv =>
          PExec path argv (λ _,
            PPrint 2 (bytes_of_string "exec " ++ path ++ bytes_of_string " failed" ++ [10]) (PExit 0))
      end
  | RedirCmd c' file _ mode fd =>
      PClose fd (λ _,
      POpen (string_at buf file) mode (λ r,
        if r <? 0
        then PPrint 2 (bytes_of_string "open " ++ string_at buf file ++ bytes_of_string " failed" ++ [10]) (PExit 1)
        else runcmd c'))
  | ListCmd l r =>
      fork1 (λ pid, if pid =? 0 then runcmd l else PWait (λ _, runcmd r))
  | PipeCmd l r =>
      PPipe (λ o,
        match o with
        | None => die "pipe"
        | Some (p0, p1) =>
            fork1 (λ pid,
              if pid =? 0 then
                PClose 1 (λ _, PDup p1 (λ _, PClose p0 (λ _, PClose p1 (λ _, runcmd l))))
              else
                fork1 (λ pid,
                  if pid =? 0 then
                    PClose 0 (λ _, PDup p0 (λ _, PClose p0 (λ _, PClose p1 (λ _, runcmd r))))
                  else
                    PClose p0 (λ _, PClose p1 (λ _, PWait (λ _, PWait (λ _, PExit 0))))))
        end)
  | BackCmd c' =>
      fork1 (λ pid, if pid =? 0 then runcmd c' else PExit 0)
  end.
End run.

(** [gets]: the bytes before the NUL. *)
Fixpoint gets_tree (n : nat) (acc : list Z) (k : list Z → ptree) : ptree :=
  match n with
  | O => k acc
  | S n' =>
      PRead (λ o,
        match o with
        | None => k acc
        | Some c => if (c =? 10) || (c =? 13) then k (acc ++ [c]) else gets_tree n' (acc ++ [c]) k
        end)
  end.
(** [getcmd(buf, 100)]: the string in [buf], or nothing at the end of the input. *)
Definition getcmd (k : option (list Z) → ptree) : ptree :=
  PPrint 2 (bytes_of_string "$ ") (gets_tree 99 [] (λ line,
    k (match to_nul line with [] => None | l => Some l end))).

Definition parse_and_run (line : list Z) : ptree :=
  match parsecmd line with
  | POk (c, buf) _ => runcmd buf c
  | PDie out => PPrint 2 out (PExit 1)
  | PFuel => PHang
  end.

(** [while((fd = open("console", O_RDWR)) >= 0)]; [fuel] bounds the loop. *)
Fixpoint open_console (fuel : nat) (k : ptree) : ptree :=
  match fuel with
  | O => PHang
  | S f =>
      POpen (bytes_of_string "console") U_RDWR (λ fd,
        if 0 <=? fd then if 3 <=? fd then PClose fd (λ _, k) else open_console f k else k)
  end.
Fixpoint command_loop (fuel : nat) : ptree :=
  match fuel with
  | O => PHang
  | S f =>
      getcmd (λ o,
        match o with
        | None => PExit 0
        | Some line =>
            if bool_decide (take 3 line = bytes_of_string "cd ") then
              let path := drop 3 (removelast line) in
              PChdir path (λ r,
                if r <? 0 then PPrint 2 (bytes_of_string "cannot cd " ++ path ++ [10]) (command_loop f)
                else command_loop f)
            else
              fork1 (λ pid, if pid =? 0 then parse_and_run line else PWait (λ _, command_loop f))
        end)
  end.
Definition sh_main (fuel : nat) : ptree := open_console 4 (command_loop fuel).

(** ** Descriptors *)

(** What a descriptor refers to; [Inherited n] is one the shell was started with. *)
Inductive endpoint := Inherited (n : nat) | OpenFile (path : list Z) (mode : Z) | PipeRead (id : nat) | PipeWrite (id : nat).
Abbreviation fdtab := (list (option endpoint)).

Fixpoint lowest_free (T : fdtab) : option nat :=
  match T with
  | [] => None
  | None :: _ => Some O
  | Some _ :: T' => S <$> lowest_free T'
  end.
Definition fd_put (T : fdtab) (e : endpoint) : option (nat * fdtab) :=
  i ← lowest_free T; Some (i, <[i := Some e]> T).
Definition fd_close (T : fdtab) (fd : Z) : fdtab := <[Z.to_nat fd := None]> T.
Definition fd_get (T : fdtab) (fd : Z) : option endpoint := mjoin (T !! Z.to_nat fd).

(** The programs that the processes of a tree try to start, with their descriptors,
    where [can_open] tells which files can be opened and the other calls succeed as
    long as there are free descriptors; [n] numbers the pipes. *)
Record launch := Launch { l_path : list Z; l_argv : list (list Z); l_fds : fdtab }.

Section launches.
Context (can_open : list Z → Z → bool).

Fixpoint launches (t : ptree) (T : fdtab) (n : nat) : list launch * nat :=
  match t with
  | PExit _ | PHang => ([], n)
  | PClose fd k => launches (k 0) (fd_close T fd) n
  | POpen path mode k =>
      if can_open path mode then
        match fd_put T (OpenFile path mode) with
        | Some (i, T') => launches (k (Z.of_nat i)) T' n
        | None => launches (k (-1)) T n
        end
      else launches (k (-1)) T n
  | PDup fd k =>
      match fd_get T fd with
      | Some e =>
          match fd_put T e with
          | Some (i, T') => launches (k (Z.of_nat i)) T' n
          | None => launches (k (-1)) T n
          end
      | None => launches (k (-1)) T n
      end
  | PPipe k =>
      match fd_put T (PipeRead n) with
      | Some (i, T') =>
          match fd_put T' (PipeWrite n) with
          | Some (j, T'') => launches (k (Some (Z.of_nat i, Z.of_nat j))) T'' (S n)
          | None => launches (k None) T n
          end
      | None => launches (k None) T n
      end
  | PFork k =>
      let '(l1, n1) := launches (k 0) T n in
      let '(l2, n2) := launches (k 1) T n1 in
      (l1 ++ l2, n2)
  | PWait k => launches (k 1) T n
  | PExec path argv _ => ([Launch path argv T], n)
  | PRead k => launches (k None) T n
  | PPrint _ _ k => launches k T n
  | PChdir _ k | PMknod _ _ _ k | PSleep _ k | PTrace _ k => launches (k 0) T n
  end.

(** What a command means: each program gets the descriptors of the shell, with the
    redirections and the ends of the pipes around it. *)
Fixpoint meaning (a : ast) (T : fdtab) (n : nat) : list launch * nat :=
  match a with
  | AExec [] => ([], n)
  | AExec (path :: args) => ([Launch path (path :: args) T], n)
  | ARedir a' k f =>
      if can_open f (redir_mode k)
      then meaning a' (<[Z.to_nat (redir_fd k) := Some (OpenFile f (redir_mode k))]> T) n
      else ([], n)
  | APipe l r =>
      let '(l1, n1) := meaning l (<[1%nat := Some (PipeWrite n)]> T) (S n) in
      let '(l2, n2) := meaning r (<[0%nat := Some (PipeRead n)]> T) n1 in
      (l1 ++ l2, n2)
  | AList l r =>
      let '(l1, n1) := meaning l T n in
      let '(l2, n2) := meaning r T n1 in
      (l1 ++ l2, n2)
  | ABack a' => meaning a' T n
  end.
End launches.

(** ** The descriptors of the programs *)

Lemma lowest_free_lookup T i : lowest_free T = Some i → T !! i = Some None.
Proof.
  revert i. induction T as [|[e|] T IH]; intros i; cbn [lowest_free].
  - done.
  - intros (j & Hj & ->)%fmap_Some. by apply IH.
  - by intros [= <-].
Qed.

(** Two descriptors are free. *)
Definition two_free (T : fdtab) (i j : nat) : Prop :=
  lowest_free T = Some i ∧ ∀ e, lowest_free (<[i := Some e]> T) = Some j.

Section descriptors.
Context (can_open : list Z → Z → bool) (buf : list Z) (rest : fdtab) (i j : nat) (Hfree : two_free rest i j).

Abbreviation tab e0 e1 := (Some e0 :: Some e1 :: rest).
Abbreviation tab_pipe e0 e1 n := (Some e0 :: Some e1 :: <[j := Some (PipeWrite n)]> (<[i := Some (PipeRead n)]> rest)).

Lemma free_lookup : rest !! i = Some None ∧ rest !! j = Some None ∧ i ≠ j.
Proof.
  destruct Hfree as [Hi Hj]. pose proof (lowest_free_lookup _ _ Hi) as Hli.
  pose proof (lowest_free_lookup _ _ (Hj (Inherited 0))) as Hlj.
  assert (i ≠ j) as Hne.
  { intros <-. rewrite list_lookup_insert_eq in Hlj; [done|]. by apply lookup_lt_Some in Hli. }
  split_and!; [done| |done]. by rewrite list_lookup_insert_ne in Hlj.
Qed.

Lemma pipe_fds e0 e1 n :
  fd_put (tab e0 e1) (PipeRead n) = Some (S (S i), Some e0 :: Some e1 :: <[i := Some (PipeRead n)]> rest) ∧
  fd_put (Some e0 :: Some e1 :: <[i := Some (PipeRead n)]> rest) (PipeWrite n) = Some (S (S j), tab_pipe e0 e1 n).
Proof. destruct Hfree as [Hi Hj]. unfold fd_put. cbn [lowest_free]. by rewrite Hi, Hj. Qed.

Lemma close_pipe (x y : option endpoint) n :
  fd_close (fd_close (x :: y :: <[j := Some (PipeWrite n)]> (<[i := Some (PipeRead n)]> rest)) (Z.of_nat (S (S i)))) (Z.of_nat (S (S j))) =
  x :: y :: rest.
Proof.
  destruct free_lookup as (Hi & Hj & Hne). unfold fd_close. rewrite !Nat2Z.id.
  set (L := <[j := Some (PipeWrite n)]> (<[i := Some (PipeRead n)]> rest)).
  change (x :: y :: <[j := None]> (<[i := None]> L) = x :: y :: rest). subst L.
  f_equal. f_equal. apply list_eq. intros m.
  destruct (decide (m = j)) as [->|Hmj].
  { rewrite list_lookup_insert_eq; [done|]. rewrite !length_insert. by apply lookup_lt_Some in Hj. }
  rewrite list_lookup_insert_ne by done. destruct (decide (m = i)) as [->|Hmi].
  { rewrite list_lookup_insert_eq; [done|]. rewrite !length_insert. by apply lookup_lt_Some in Hi. }
  by rewrite !list_lookup_insert_ne.
Qed.

Lemma pipe_lookup (x y : option endpoint) n :
  let T := x :: y :: <[j := Some (PipeWrite n)]> (<[i := Some (PipeRead n)]> rest) in
  fd_get T (Z.of_nat (S (S i))) = Some (PipeRead n) ∧ fd_get T (Z.of_nat (S (S j))) = Some (PipeWrite n).
Proof.
  destruct free_lookup as (Hi & Hj & Hne). apply lookup_lt_Some in Hi, Hj. unfold fd_get. rewrite !Nat2Z.id.
  set (L := <[j := Some (PipeWrite n)]> (<[i := Some (PipeRead n)]> rest)).
  change (mjoin (L !! i) = Some (PipeRead n) ∧ mjoin (L !! j) = Some (PipeWrite n)). subst L. split.
  - rewrite list_lookup_insert_ne, list_lookup_insert_eq by done. done.
  - rewrite list_lookup_insert_eq by (by rewrite length_insert). done.
Qed.

Lemma launches_ok a c e0 e1 n :
  is_cmd (λ w, string_at buf w.1) a c →
  launches can_open (runcmd buf c) (tab e0 e1) n = meaning can_open a (tab e0 e1) n.
Proof.
  revert c e0 e1 n. induction a as [ws|a IH k f|l IHl r IHr|l IHl r IHr|a IH];
    intros [args|c q e mode fd|cl cr|cl cr|c] e0 e1 n Hc; cbn [is_cmd] in Hc; try done.
  - cbn [runcmd]. rewrite Hc. by destruct ws.
  - destruct Hc as (Hc & Hf & -> & ->). cbn [fst] in Hf. cbn [runcmd launches meaning]. rewrite Hf.
    destruct (can_open f (redir_mode k)); [|done].
    destruct k; cbn -[runcmd meaning redir_mode]; apply IH; done.
  - destruct Hc as [Hl Hr]. destruct (pipe_fds e0 e1 n) as [E1 E2]. cbn [runcmd launches meaning fork1]. rewrite E1, E2.
    cbn -[runcmd meaning fd_close fd_get fd_put Z.of_nat].
    destruct (pipe_lookup (Some e0) None n) as [_ G1]. destruct (pipe_lookup None (Some e1) n) as [G0 _].
    change (fd_close (tab_pipe e0 e1 n) 1) with (Some e0 :: None :: <[j := Some (PipeWrite n)]> (<[i := Some (PipeRead n)]> rest)).
    change (fd_close (tab_pipe e0 e1 n) 0) with (None :: Some e1 :: <[j := Some (PipeWrite n)]> (<[i := Some (PipeRead n)]> rest)).
    rewrite G0, G1. cbn [fd_put lowest_free fmap option_fmap option_map mbind option_bind insert list_insert].
    rewrite !close_pipe, IHl by done. destruct (meaning can_open l _ (S n)) as [l1 n1].
    rewrite IHr by done. destruct (meaning can_open r _ n1) as [l2 n2]. by rewrite app_nil_r.
  - destruct Hc as [Hl Hr]. cbn [runcmd launches meaning fork1]. cbn -[runcmd meaning].
    rewrite IHl by done. destruct (meaning can_open l _ n) as [l1 n1]. by rewrite IHr.
  - cbn [runcmd launches meaning fork1]. cbn -[runcmd meaning]. rewrite IH by done.
    destruct (meaning can_open a _ n) as [l1 n1]. by rewrite app_nil_r.
Qed.
End descriptors.

(** ** Property *)

(** C32. Typing in a command starts the programs it means: the child that parses and runs
    the line of [a] starts the programs of [a] in order, each with the descriptors of the
    shell except that a redirection replaces descriptor 0 or 1 by the file and a pipeline
    connects 1 of its left side to 0 of its right side; no other end of a pipe stays open
    in any of them, and a file that cannot be opened stops its command only. Descriptors
    0 and 1 are open in the shell and two descriptors are free. *)
Theorem shell_launches can_open a e0 e1 rest i j n :
  ast_ok a → two_free rest i j →
  launches can_open (parse_and_run (show_cmd a)) (Some e0 :: Some e1 :: rest) n =
  meaning can_open a (Some e0 :: Some e1 :: rest) n.
Proof.
  intros Ha Hfree. destruct (show_parse a Ha) as (c & buf & p & E & Hc).
  unfold parse_and_run. rewrite E. by apply (launches_ok can_open buf rest i j Hfree).
Qed.

Lemma shell_launches_witness :
  let ls := bytes_of_string "ls" in let wc := bytes_of_string "wc" in
  launches (λ _ _, true) (parse_and_run (show_cmd (APipe (AExec [ls]) (ARedir (AExec [wc]) ROut [102]))))
    [Some (Inherited 0); Some (Inherited 1); Some (Inherited 2); None; None] 0 =
  ([Launch ls [ls] [Some (Inherited 0); Some (PipeWrite 0); Some (Inherited 2); None; None];
    Launch wc [wc] [Some (PipeRead 0); Some (OpenFile [102] 1537); Some (Inherited 2); None; None]], 1%nat).
Proof.
  intros ls wc. apply (shell_launches (λ _ _, true) (APipe (AExec [ls]) (ARedir (AExec [wc]) ROut [102]))
    (Inherited 0) (Inherited 1) [Some (Inherited 2); None; None] 1 2 0).
  - cbn [ast_ok]. unfold good_word, zlen. cbn. split_and!; repeat constructor; done.
  - split; [done|]. by intros e.
Defined.
